(* ===== verification/_CoqProject ===== *)
-Q . S2P
Prelude.v
Domain.v
Health.v
Lifecycle.v
Events.v
Bus.v
State.v
Devices.v
Sensors.v
EquipmentRegistry.v
Equipment.v
Safety.v
Watchdogs.v
Accounting.v
Output.v
Commands.v
Alarms.v
AlarmLifecycle.v
AlarmTiming.v
Evaluator.v
System.v
Concurrency.v
AlarmPath.v
Topics.v
Envelope.v
MqttClient.v
MqttRouter.v
Storage.v
Simulator.v
Config.v
ConfigValidation.v
ConfigManager.v
Container.v
Http.v
Esp32.v
Shelly.v
Polling.v
Bench.v
Plant.v
PlantResponse.v
HomeRegistry.v
Vision.v
HomeAssistant.v
Operations.v
OperationsSafety.v
LocalHost.v
StorageBackend.v
Encoding.v
HttpServer.v
Access.v
Discovery.v
Api.v
ApiServices.v
Admin.v
AdminSafety.v
Cli.v
CliEquivalence.v
Firstboot.v
MqttReconnect.v
Secrets.v
Assembly.v
AssemblySafety.v
AssemblyComplete.v
EndToEnd.v
Programs.v
AdminProgram.v
FirstbootProgram.v
Dashboard.v
Durations.v
SimulatorProgram.v
Witnesses.v
ConcurrencyWitnesses.v
IntegrationWitnesses.v
ConfigWitnesses.v
PlantWitnesses.v
HomeWitnesses.v
OperationsWitnesses.v
ApiWitnesses.v
AdminWitnesses.v
AssemblyWitnesses.v
