(* ===== verification/Prelude.v ===== *)
(** * A verification library for AquaOS

    AquaOS is an aquarium controller written in Go: adapters measure and
    switch equipment over HTTP and MQTT, a canonical state holds what is known,
    a safety engine decides, a command service executes, an alarm manager
    raises and clears alarms, and everything is announced on an event bus. This
    library models the Go sources under [src/internal] as functions of Rocq and
    proves what makes them correct. Definitions carry the names of the source
    where Rocq allows it.

    ** The program and the files

    A component keeps its state behind a mutex; here it is a [Record], a method
    is a function from arguments and state to results and state, and an early
    return is an early return ([when], [iferr] below). What crosses a component
    boundary is a class, so that a client is proved against what it relies on.

    - [Prelude]: notation, machine integers, time, errors, contexts, automation
      and lemmas on lists and maps.
    - [Domain] ([domain], [core]): identifiers, entities, quantities, values.
    - [Health], [Lifecycle] ([health], [subsystem], [lifecycle]): the component
      interface, aggregation, ordered start with rollback and reverse stop.
    - [Events], [Bus] ([events]): event envelopes and the bus with backpressure;
      the class [Publisher] is what every other component sees of it.
    - [State] ([state]): the revisioned store with its bounded subscriptions.
    - [Devices], [Sensors], [EquipmentRegistry] ([devices], [sensors],
      [equipment/registry.go]): ownership registries.
    - [Equipment] ([equipment/machine.go], [profile.go]): the operating state
      machine and the safety profiles.
    - [Safety], [Watchdogs], [Accounting] ([safety]): modes, overrides,
      evaluation, watchdogs and daily accounting.
    - [Output], [Commands] ([output]): the command service, its router, and
      what is dispatched, when and how often.
    - [Alarms], [AlarmLifecycle], [AlarmTiming], [Evaluator] ([alarms]): the
      alarm manager, its invariants, an abstract machine for debounce,
      hysteresis and latching that it refines, and the threshold evaluator.
    - [System]: state, safety and commands composed.
    - [Concurrency] ([output], [safety]): calls of the command service as
      threads that interleave between their critical sections, with the
      evaluation of the safety engine cut where the engine releases its lock
      and at every input that it reads, over an environment that changes what
      the service does not own; run alone, a thread is the function of
      [Output] and an evaluation that of [Safety].
    - [AlarmPath]: store, bus, evaluator and alarm manager composed, with the
      publication of the alarm inside that of the measurement; the other
      handlers are ones that do not publish, as those of the program are.
    - [Topics], [Envelope], [MqttClient], [MqttRouter] ([mqtt]): topic
      contracts, the envelope codec with duplicate suppression, the client with
      its offline queue, command routing and event export; [MqttReconnect]: its
      construction, health, reconnect loop and bounded waits.
    - [Storage] ([storage/storage.go]): the batching writer.
    - [Simulator] ([adapters/simulator]): scenarios, model and fake adapter;
      [Durations]: the text of durations in scenarios, with the exactness of
      the floating-point steps it takes.
    - [Config], [ConfigValidation], [ConfigManager] ([config]): the snapshot,
      a declarative description of what validation accepts, and reloading.
    - [Container] ([app/container.go]): what composition derives from a
      configuration: safety profiles, threshold rules, the inventory.
    - [Assembly], [AssemblySafety], [AssemblyComplete] ([app/container.go]): the
      composition root that builds every component, what the container it
      answers guarantees, and for which configurations it answers one.
    - [EndToEnd]: composition, validation, safety engine, canonical
      state and command service together, for a heater: one submission, and a
      run with any number of calls at once.
    - [Http], [Esp32], [Shelly] ([adapters/esp32], [adapters/shelly]): HTTP
      clients, snapshot validation, dispatch with retries, reconciliation;
      [Polling]: the workers around them and the other waits for a timer.
    - [Bench] ([bench]): the coordinator between adapters, state, alarms and
      commands; [Plant] instantiates its interfaces with the components above,
      so that a poll, its alarm, the safe command and the dispatch back into
      the adapter happen in one world; [PlantResponse]: what that world does
      about power that nobody asked for.
    - [HomeRegistry], [HomeAssistant] ([integrations/homeassistant]): reading
      Home Assistant's registries, discovery and switch commands; [Vision]
      ([integrations/vision]): advisory observations at their trust boundary.
    - [Operations], [OperationsSafety], [LocalHost] ([operations]): install,
      upgrade, activation, rollback, backup and restore over a host; what they
      leave on a disk whose calls may fail; path resolution and atomic
      replacement on the operating system.
    - [StorageBackend] ([storage/events.go], [storage/influx.go]): events as
      points, and the line protocol.
    - [Encoding], [HttpServer], [Access] (what the HTTP interfaces use of the
      standard library; [api/auth.go], [admin/rate_limit.go]): decimal and
      base64 texts, requests, routing and bounded bodies, credentials, roles
      and token buckets.
    - [Api], [ApiServices] ([api]): the operational API over its contracts, and
      over the components above.
    - [Discovery] ([discovery]): read-only probing of approved addresses.
    - [Admin], [AdminSafety] ([admin]): the administration server over its
      contracts, and over operations on a host.
    - [Cli], [CliEquivalence] ([cmd/aquaosctl]): the command line, and its
      agreement with the administration server.
    - [Firstboot], [FirstbootProgram] ([firstboot], [cmd/aquaos-firstboot]): the
      one-time installation of an appliance, its codes and its address.
    - [Secrets], [Programs], [AdminProgram] ([cmd/aquaos], [cmd/devbootstrap],
      [cmd/aquaos-admin], [cmd/healthcheck], [logging], [telemetry]): secrets in
      files, what the programs build, start and stop, their exit statuses and
      what a binary says of itself.
    - [Dashboard] ([integrations/homeassistant/assets.go],
      [cmd/aquaos-ha-config]): the generated dashboard, and its agreement with
      discovery.
    - [SimulatorProgram] ([cmd/aquaos-sim]): scenarios from files, run and checked.
    - [Witnesses], [ConcurrencyWitnesses], [IntegrationWitnesses],
      [ConfigWitnesses], [PlantWitnesses], [HomeWitnesses],
      [OperationsWitnesses], [ApiWitnesses], [AdminWitnesses],
      [AssemblyWitnesses]: the theorems with hypotheses applied to concrete systems.

    ** What is proved

    Safety of outputs. A command that reaches an adapter was valid, unexpired,
    under a new key, at its expected revision and allowed by the engine, for a
    submission run by itself ([System], [Commands]); permission is characterized exactly
    ([Safety]); watchdogs trip exactly the equipment over a limit, whatever the
    order of iteration, and their shutdowns reach the executor ([Watchdogs],
    [System]); daily totals are exact ([Accounting]); a command succeeds only
    when its state was reported. From the sensor side: a probe is good in the
    canonical state exactly when its node's last snapshot says so ([Bench]),
    and a failed poll keeps dependent equipment from being switched on
    ([Plant]); a heater of a validated configuration is guarded by two probes
    and a time limit ([Container]), in the engine and, through the composition
    root, in every command that reaches the relay, also while any number of
    calls interleave, each check at a moment of its own ([EndToEnd]), for which
    the command service clears every command it dispatches, and dispatches a
    key once where callers take turns on it ([Concurrency]). Power that was not
    asked for is switched off by the poll that sees it, unless a failure of the
    switch is active already ([PlantResponse]), and a breached threshold
    reaches every subscriber of alarms if the bus has room and no earlier rule
    of the sensor answers an error ([AlarmPath]).

    Invariants of every reachable state: [State], [Commands], [AlarmLifecycle],
    [Devices], [Sensors], [EquipmentRegistry], [MqttClient], [Envelope],
    [Storage]. Refinement: alarm timing, the equipment protocol, the safe
    responses of the coordinator. Equivalence of validation with a declarative
    description, and of watchdog polls under every order. Round trip of MQTT
    envelopes, of backups, and of durations as text. Ordering of storage. The offline
    queue of the MQTT client keeps the order of publication and exceeds its
    capacity by at most one while a flush runs beside publications
    ([MqttClient]); the duplicate window hands a message out again only after a
    failure or a full window of others ([Envelope]). Bounded retries. What Home Assistant can submit and what a refresh leaves
    retained. Operations keep only verified binaries and valid configurations
    on the host, activation is transactional and replacement atomic, whichever
    calls fail.

    Interfaces. An HTTP request changes a service only when it is routed to a
    mutation, authenticated, authorized for its role and within both limits,
    and then by exactly one call with the principal as the requester ([Api]);
    a command dispatched that way is safe ([ApiServices]). Administration acts
    only for authenticated same-origin requests ([Admin]), keeps the host safe
    over any sequence of them ([AdminSafety]) and agrees with the command line,
    from its arguments and from a request to their effects
    ([CliEquivalence]). Cursors enumerate a list ([Api]), limiters are bounded
    ([Access]), discovery contacts approved addresses only ([Discovery]), and
    an appliance is installed once, however installations overlap
    ([Firstboot]).

    Composition. Every equipment that a command can reach in a constructed
    container has its validated safety profile; readiness does not depend on
    optional parts; startup succeeds exactly when the required components start
    and none outlives its deadline, and otherwise stops the components before
    the one that failed ([AssemblySafety]); a validated configuration is built
    under conditions that are named ([AssemblyComplete]); the programs
    leave nothing started ([Programs]); a generated dashboard reads back as the
    entities that discovery announces ([Dashboard]).

    Errors: how commands, watchdog shutdowns, alarms and measurements can be
    lost, each a theorem about the code as it is.

    ** Conventions, bounds and fuel

    A [time.Time] is a number of nanoseconds, a [time.Duration] and the counters
    of the source wrap at 64 bits where the source computes with them; a
    [float64] is an IEEE 754 double. Clock readings, random bytes, generated
    identifiers and the orders in which Go ranges over maps are arguments or
    functions of the number of readings taken, so a theorem holds for all of
    them. Concurrency is the order of atomic steps: a method that holds its lock
    is one step, and goroutines that loop are a step per turn. Where the source
    releases a lock in the middle of a call and a theorem is about what happens
    in between, the call is a sequence of steps that interleave with others:
    the calls of the command service and the evaluations they make
    ([Concurrency]), a flush of the offline queue ([MqttClient]), the handling
    of a message ([Envelope]) and an installation ([Firstboot]). Each of these
    is proved to be, run alone, the function that models the whole call, which
    the theorems about one call use. Every recursive definition follows the structure of a list or the
    number of iterations the loop has in the source (the retries of [Shelly],
    the steps of a simulation, the length of the offline queue), so nothing runs
    out of fuel; only the two polling waits ([waitToken],
    [waitForPrivateIPv4]) take a number of turns, and they are proved to answer
    within the turns up to their deadline. Logging is omitted.

    Third-party and operating-system services are classes with at most their
    documented laws: JSON and YAML codecs, hashing, URL and address parsing, the
    MQTT broker, the HTTP transport, the time-series database, archives,
    signatures, the operating system's file calls.

    ** What is not modelled

    The plugin interfaces, which no code implements; the embedded pages of the
    browser interfaces; flag parsing of the programs other than [cmd/aquaosctl]
    and [cmd/aquaos-sim], and signal handling and listening of all of them; the
    one-line wrappers that type the identifiers of [domain/id.go]. *)

From Stdlib Require Import ZArith Lia String Ascii.
From stdpp Require Import base gmap strings list sorting.

Open Scope Z_scope.

(** ** Notation for Go control flow

    [when b yield r ;; k] is the early return [if b { return r }] followed by
    the rest of the body [k]; [iferr o as e yield r ;; k] is
    [if err := o; err != nil { return r }]. *)
Declare Scope go_scope.
Delimit Scope go_scope with go.
Open Scope go_scope.

Notation "'when' b 'yield' r ';;' k" := (if b then r else k)
  (at level 100, b at level 99, r at level 99, k at level 200,
   right associativity, only parsing) : go_scope.
Notation "'iferr' o 'as' e 'yield' r ';;' k" :=
  (match o with Some e => r | None => k end)
  (at level 100, o at level 99, e name, r at level 99, k at level 200,
   right associativity, only parsing) : go_scope.

(** ** Machine integers *)
Definition max_int64 : Z := 2 ^ 63 - 1.
Definition min_int64 : Z := - 2 ^ 63.

(** Wrap-around of [int64] and [uint64] arithmetic. *)
Definition wrap_int64 (z : Z) : Z := (z + 2 ^ 63) mod 2 ^ 64 - 2 ^ 63.
Definition wrap_uint64 (z : Z) : Z := z mod 2 ^ 64.

Definition in_int64 (z : Z) : Prop := min_int64 ≤ z ≤ max_int64.
Definition in_uint64 (z : Z) : Prop := 0 ≤ z < 2 ^ 64.

Lemma wrap_int64_range z : in_int64 (wrap_int64 z).
Proof.
  unfold in_int64, wrap_int64, min_int64, max_int64.
  pose proof (Z.mod_pos_bound (z + 2 ^ 63) (2 ^ 64)). lia.
Qed.

Lemma wrap_int64_id z : in_int64 z → wrap_int64 z = z.
Proof.
  unfold in_int64, wrap_int64, min_int64, max_int64. intros.
  rewrite Z.mod_small; lia.
Qed.

Lemma wrap_uint64_range z : in_uint64 (wrap_uint64 z).
Proof. unfold in_uint64, wrap_uint64. apply Z.mod_pos_bound. lia. Qed.

Lemma wrap_uint64_id z : in_uint64 z → wrap_uint64 z = z.
Proof. unfold in_uint64, wrap_uint64. intros. by apply Z.mod_small. Qed.

(** ** Time

    A [time.Time] is the number of nanoseconds since Go's zero time, so the
    zero value is [0]; every reading the sources compare has been through
    [UTC], which strips the monotonic reading. A [time.Duration] is an [int64]
    number of nanoseconds: [Sub] saturates, as its documentation says. *)
Abbreviation Time := Z (only parsing).
Abbreviation Duration := Z (only parsing).

Definition IsZero (t : Time) : bool := t =? 0.
Definition Before (t u : Time) : bool := t <? u.
Definition After (t u : Time) : bool := u <? t.
Definition Add (t : Time) (d : Duration) : Time := t + d.
Definition UTC (t : Time) : Time := t.
Definition Sub (t u : Time) : Duration := Z.max min_int64 (Z.min max_int64 (t - u)).

Definition Second : Duration := 10 ^ 9.
Definition Minute : Duration := 60 * Second.
Definition Hour : Duration := 60 * Minute.

Lemma Sub_range t u : in_int64 (Sub t u).
Proof. unfold in_int64, Sub, min_int64, max_int64. lia. Qed.

Lemma Sub_le_true t u d : in_int64 d → d ≤ Sub t u → d ≠ min_int64 → d ≤ t - u.
Proof. unfold in_int64, Sub, min_int64, max_int64. lia. Qed.

Lemma Sub_ge t u d : in_int64 d → d ≤ t - u → d ≤ Sub t u.
Proof. unfold in_int64, Sub, min_int64, max_int64. lia. Qed.

Lemma Sub_pos t u : 0 < Sub t u ↔ u < t.
Proof. unfold Sub, min_int64, max_int64. lia. Qed.

Lemma Sub_le t u : u ≤ t → 0 ≤ Sub t u ≤ t - u.
Proof. unfold Sub, min_int64, max_int64. lia. Qed.

(** ** Errors

    [errors.New] at a call site is [ErrNew]; a package-level sentinel is
    [ErrVar], identified by its name; [fmt.Errorf] with a [%w] verb is
    [ErrWrap]; [errors.Join] is [ErrJoin]; a pointer to a struct that
    implements [error] is [ErrStruct] with its fields. *)
Inductive error : Type :=
| ErrNew (text : string)
| ErrVar (name : string)
| ErrWrap (text : string) (inner : error)
| ErrJoin (inner : list error)
| ErrStruct (type : string) (fields : list string).

(** [errors.Is] for a sentinel target. *)
Fixpoint errors_Is (e : error) (target : string) : bool :=
  match e with
  | ErrNew _ | ErrStruct _ _ => false
  | ErrVar n => bool_decide (n = target)
  | ErrWrap _ e' => errors_Is e' target
  | ErrJoin es => existsb (fun e' => errors_Is e' target) es
  end.

(** [errors.Join] drops nil errors and is nil when none is left. *)
Definition errors_Join (es : list (option error)) : option error :=
  match omap (M:=list) id es with
  | [] => None
  | es' => Some (ErrJoin es')
  end.

(** ** Contexts

    What the sources use of a [context.Context]: whether it is done, and the
    correlation ID it carries. *)
Record Context := mkContext {
  ctx_Err : option error;
  ctx_CorrelationID : string
}.
Definition Background : Context := mkContext None "".
Definition Canceled : error := ErrVar "context.Canceled".

(** ** Automation *)

(** Case analysis on the next test of an [if] or [match] of the goal or of a
    hypothesis, with its equation. *)
Ltac go_case :=
  match goal with
  | H : context [match ?x with _ => _ end] |- _ =>
      lazymatch x with context [match _ with _ => _ end] => fail | _ => destruct x eqn:? end
  | |- context [match ?x with _ => _ end] =>
      lazymatch x with context [match _ with _ => _ end] => fail | _ => destruct x eqn:? end
  end.

(** Booleans of the model as propositions. *)
Create Rewrite HintDb go_bool.
#[export] Hint Rewrite andb_true_iff andb_false_iff orb_true_iff orb_false_iff
  negb_true_iff negb_false_iff Z.ltb_lt Z.ltb_ge Z.leb_le Z.leb_gt Z.eqb_eq Z.eqb_neq
  bool_decide_eq_true bool_decide_eq_false : go_bool.

Ltac go_bool := unfold IsZero, Before, After, Add, UTC in *; autorewrite with go_bool in *.

Ltac go_crush :=
  repeat (simplify_eq/=; try go_case); go_bool; simplify_eq/=; try done; try lia.

(** ** Lists *)

Section sorted_by.
Context {A : Type} (key : A → string).

(** [sort.Slice] with [key a < key b]. *)
Definition le_by (x y : A) : Prop := String.le (key x) (key y).

#[export] Instance le_by_dec : RelDecision le_by.
Proof. intros x y. unfold le_by. apply _. Defined.
#[export] Instance le_by_trans : Transitive le_by.
Proof. intros x y z. unfold le_by. apply transitivity. Qed.
#[export] Instance le_by_total : Total le_by.
Proof. intros x y. unfold le_by. apply total, _. Qed.

Definition sort_by (l : list A) : list A := merge_sort le_by l.

Lemma sort_by_sorted l : Sorted le_by (sort_by l).
Proof. apply Sorted_merge_sort, _. Qed.

Lemma sort_by_perm l : sort_by l ≡ₚ l.
Proof. apply merge_sort_Permutation. Qed.

(** When the key is injective on the elements there is one sorted order, so
    neither the iteration order of a map nor an unstable sort can be observed. *)
Lemma sort_by_unique l l' :
  (∀ x y, x ∈ l → y ∈ l → key x = key y → x = y) →
  l' ≡ₚ l → Sorted le_by l' → l' = sort_by l.
Proof.
  intros Hinj Hp Hs. apply (Sorted_unique_strong le_by).
  - intros x y Hx Hy Hxy Hyx. apply Hinj.
    + by rewrite <- Hp.
    + by rewrite <- (sort_by_perm l).
    + by apply (anti_symm String.le).
  - done.
  - apply sort_by_sorted.
  - by rewrite Hp, sort_by_perm.
Qed.
End sorted_by.

(** Values of a map whose entries are stored under their own key. *)
Definition keyed {K V} `{Countable K} (key : V → K) (m : gmap K V) : Prop :=
  ∀ k v, m !! k = Some v → key v = k.

Definition values {K V} `{Countable K} (m : gmap K V) : list V := (map_to_list m).*2.

Lemma elem_of_values {K V} `{Countable K} (m : gmap K V) v :
  v ∈ values m ↔ ∃ k, m !! k = Some v.
Proof.
  unfold values. rewrite list_elem_of_fmap. split.
  - intros ([k w] & -> & Hin%elem_of_map_to_list). eauto.
  - intros [k Hk]. exists (k, v). by rewrite elem_of_map_to_list.
Qed.

Lemma keyed_insert {K V} `{Countable K} (key : V → K) (m : gmap K V) v :
  keyed key m → keyed key (<[key v := v]> m).
Proof. intros Hm k w. rewrite lookup_insert_Some. intros [[<- <-]|[? ?]]; auto. Qed.

Lemma keyed_delete {K V} `{Countable K} (key : V → K) (m : gmap K V) k :
  keyed key m → keyed key (delete k m).
Proof. intros Hm j w. rewrite lookup_delete_Some. intros [? ?]; auto. Qed.

Lemma keyed_values_inj {K V} `{Countable K} (key : V → K) (m : gmap K V) :
  keyed key m → ∀ x y, x ∈ values m → y ∈ values m → key x = key y → x = y.
Proof.
  intros Hm x y [i Hi]%elem_of_values [j Hj]%elem_of_values Heq.
  apply Hm in Hi as Ei. apply Hm in Hj as Ej. congruence.
Qed.

(** An invariant of a step relation holds in every reachable state. *)
Lemma rtc_invariant {A} (R : relation A) (P : A → Prop) x y :
  (∀ a b, R a b → P a → P b) → P x → rtc R x y → P y.
Proof. intros Hstep Hx Hr. induction Hr; eauto. Qed.

(** The last [n] elements, [s[len(s)-n:]]. *)
Definition last_n {A} (n : nat) (l : list A) : list A := drop (length l - n) l.

Lemma length_last_n {A} n (l : list A) : (length (last_n n l) ≤ n)%nat.
Proof. unfold last_n. rewrite length_drop. lia. Qed.

Lemma foldl_invariant {A B} (P : A → Prop) (f : A → B → A) l a :
  (∀ a b, P a → P (f a b)) → P a → P (foldl f a l).
Proof. intros Hf. revert a. induction l; simpl; eauto. Qed.

(** ** Loops that treat each key on its own

    A loop over the keys of a map whose turn at [k] reads and writes only what
    the state holds at [k], and appends its output to a slice. *)
Section local_loop.
Context {S K V A : Type} `{EqDecision K}.
Context (get : K → S → V) (step : S * list A → K → S * list A).
Context (upd : K → V → V) (out : K → V → list A).
Hypothesis step_here : ∀ s l k, get k (step (s, l) k).1 = upd k (get k s).
Hypothesis step_else : ∀ s l k j, j ≠ k → get j (step (s, l) k).1 = get j s.
Hypothesis step_out : ∀ s l k, (step (s, l) k).2 = l ++ out k (get k s).

Lemma local_loop_state ks s l j :
  NoDup ks →
  get j (foldl step (s, l) ks).1 = if decide (j ∈ ks) then upd j (get j s) else get j s.
Proof.
  intros Hnd. revert s l. induction Hnd as [|k ks Hk Hnd IH]; intros s l; [done|].
  cbn [foldl]. specialize (step_here s l k) as Hh. pose proof (step_else s l k j) as He.
  destruct (step (s, l) k) as [s' l']. cbn [fst] in *. rewrite IH. clear IH.
  destruct (decide (j = k)) as [->|Hj].
  - rewrite decide_False by done. rewrite decide_True by left. done.
  - rewrite He by done. repeat case_decide; set_solver.
Qed.

Lemma local_loop_out ks s l :
  NoDup ks →
  (foldl step (s, l) ks).2 = l ++ (ks ≫= fun k => out k (get k s)).
Proof.
  intros Hnd. revert s l. induction Hnd as [|k ks Hk Hnd IH]; intros s l;
    [by cbn; rewrite app_nil_r|].
  cbn [foldl]. pose proof (step_else s l k) as He. pose proof (step_out s l k) as Ho.
  destruct (step (s, l) k) as [s' l']. cbn [fst snd] in *. rewrite IH. subst l'.
  cbn [mbind list_bind]. rewrite <- app_assoc. f_equal. f_equal.
  apply Forall_bind_ext, Forall_forall. intros j Hj. rewrite He; [done|]. by intros ->.
Qed.
End local_loop.
