(* ===== verification/Domain.v ===== *)
(** * Domain values: [internal/domain], [internal/core]

    Typed identifiers and their UUID text form ([id.go]), capabilities and
    entity records ([entity.go]), quantities and measurements
    ([measurement.go]) and canonical scalar values ([value.go]).

    An enumeration of the source is a Go [string] type with named constants.
    It is an inductive type with one constructor per constant; where the code
    has a branch for values outside the constants the type has a further
    constructor [..Other s], which stands for every string [s] that is none of
    them. A [float64] is an IEEE 754 datum of [SpecFloat] at precision 53 and
    maximal exponent 1024. *)

From Stdlib Require Import ZArith Lia String Ascii SpecFloat.
From stdpp Require Import base gmap strings list.
From S2P Require Import Prelude.

(** ** Identifiers ([id.go]) *)
Abbreviation DeviceID := string (only parsing).
Abbreviation SensorID := string (only parsing).
Abbreviation EquipmentID := string (only parsing).
Abbreviation EndpointID := string (only parsing).
Abbreviation EntityID := string (only parsing).
Abbreviation AlarmID := string (only parsing).
Abbreviation RuleID := string (only parsing).
Abbreviation CommandID := string (only parsing).
Abbreviation OverrideID := string (only parsing).
Abbreviation CorrelationID := string (only parsing).
Abbreviation Revision := Z (only parsing).

Definition bytes_of (s : string) : list ascii := list_ascii_of_string s.

(** [encoding/hex]: the digit of a nibble, and the nibble of a digit. *)
Definition hex_digit (n : Z) : ascii :=
  ascii_of_N (Z.to_N (if n <? 10 then 48 + n else 87 + n)).

Definition fromHexChar (c : ascii) : option Z :=
  let n := Z.of_N (N_of_ascii c) in
  if (48 <=? n) && (n <=? 57) then Some (n - 48)
  else if (97 <=? n) && (n <=? 102) then Some (n - 87)
  else if (65 <=? n) && (n <=? 70) then Some (n - 55)
  else None.

Definition hex_byte (b : Z) : list ascii :=
  [hex_digit (Z.shiftr b 4); hex_digit (Z.land b 15)].

Definition hex_Encode (bs : list Z) : list ascii := mjoin (hex_byte <$> bs).

Fixpoint hex_DecodeString (cs : list ascii) : option (list Z) :=
  match cs with
  | [] => Some []
  | [_] => None
  | a :: b :: rest =>
      match fromHexChar a, fromHexChar b, hex_DecodeString rest with
      | Some x, Some y, Some bs => Some (Z.lor (Z.shiftl x 4) y :: bs)
      | _, _, _ => None
      end
  end.

Definition slice {A} (i j : nat) (l : list A) : list A := take (j - i) (drop i l).

Definition dash : ascii := "-"%char.

(** The two stamped bytes: version 4 in byte 6, RFC 4122 variant in byte 8. *)
Definition stamp_uuid (value : list Z) : list Z :=
  alter (fun b => Z.lor (Z.land b 63) 128) 8%nat
    (alter (fun b => Z.lor (Z.land b 15) 64) 6%nat value).

Definition uuid_text (value : list Z) : list ascii :=
  hex_Encode (slice 0 4 value) ++ [dash] ++ hex_Encode (slice 4 6 value) ++ [dash] ++
  hex_Encode (slice 6 8 value) ++ [dash] ++ hex_Encode (slice 8 10 value) ++ [dash] ++
  hex_Encode (slice 10 16 value).

(** [rand.Read] fills the 16 bytes or fails. *)
Definition newUUID (rand : error + list Z) : string * option error :=
  match rand with
  | inl err => ("", Some err)
  | inr value => (string_of_list_ascii (uuid_text (stamp_uuid value)), None)
  end.

Definition ErrUUID : error := ErrNew "must be a canonical RFC 4122 UUID".

Definition dash_at (cs : list ascii) (i : nat) : bool := bool_decide (cs !! i = Some dash).

Definition strip_dashes (cs : list ascii) : list ascii := filter (fun c => c ≠ dash) cs.

Definition validateUUID (value : string) : option error :=
  let cs := bytes_of value in
  when negb (bool_decide (length cs = 36%nat)) || negb (dash_at cs 8) || negb (dash_at cs 13)
       || negb (dash_at cs 18) || negb (dash_at cs 23) yield Some ErrUUID;;
  match hex_DecodeString (strip_dashes cs) with
  | None => Some ErrUUID
  | Some _ => None
  end.

(** ** [internal/core]: the shared [ID] type *)
Definition NewID (rand : error + list Z) : string * option error :=
  match rand with
  | inl err => ("", Some err)
  | inr value => (string_of_list_ascii (uuid_text (stamp_uuid value)), None)
  end.

Definition ID_Validate (id : string) : option error :=
  let cs := bytes_of id in
  when negb (bool_decide (length cs = 36%nat)) || negb (dash_at cs 8) || negb (dash_at cs 13)
       || negb (dash_at cs 18) || negb (dash_at cs 23)
  yield Some (ErrNew "ID must be an RFC 4122 UUID");;
  match hex_DecodeString (strip_dashes cs) with
  | None => Some (ErrNew "ID must be an RFC 4122 UUID")
  | Some _ => None
  end.

(** ** Capabilities and entities ([entity.go]) *)
Inductive Capability :=
| CapabilityObserve
| CapabilitySwitch
| CapabilityVariableOutput
| CapabilityCommandAcknowledgement
| CapabilityReportedState
| CapabilityPowerTelemetry
| CapabilityOther (s : string).

#[export] Instance Capability_eq_dec : EqDecision Capability.
Proof. solve_decision. Defined.

Definition Capability_Validate (c : Capability) : option error :=
  match c with
  | CapabilityOther s => Some (ErrNew ("unsupported capability " +:+ s))
  | _ => None
  end.

Abbreviation Metadata := (option (gmap string string)).

Record Device := mkDevice {
  dev_ID : DeviceID;
  dev_Name : string;
  dev_Capabilities : list Capability;
  dev_Metadata : Metadata
}.

Record Endpoint := mkEndpoint {
  ep_ID : EndpointID;
  ep_DeviceID : DeviceID;
  ep_Name : string;
  ep_Capabilities : list Capability
}.

(** The loop of [ValidateCapabilities] with its [seen] set. *)
Fixpoint validate_capabilities_from (seen values : list Capability) : option error :=
  match values with
  | [] => None
  | capability :: rest =>
      iferr Capability_Validate capability as err yield Some err;;
      when bool_decide (capability ∈ seen) yield Some (ErrNew "duplicate capability");;
      validate_capabilities_from (capability :: seen) rest
  end.

Definition ValidateCapabilities (values : list Capability) : option error :=
  match values with
  | [] => Some (ErrNew "at least one capability is required")
  | _ => validate_capabilities_from [] values
  end.

Definition SupportsAll (available required : list Capability) : bool :=
  forallb (fun value => bool_decide (value ∈ available)) required.

(** ** Quantities ([measurement.go]) *)
Abbreviation float64 := spec_float (only parsing).

Definition F64 (z : Z) : float64 := binary_normalize 53 1024 z 0 false.
Definition F64_mul : float64 → float64 → float64 := SFmul 53 1024.
Definition F64_add : float64 → float64 → float64 := SFadd 53 1024.
Definition F64_sub : float64 → float64 → float64 := SFsub 53 1024.
Definition F64_div : float64 → float64 → float64 := SFdiv 53 1024.
Definition F64_eq : float64 → float64 → bool := SFeqb.
Definition F64_le : float64 → float64 → bool := SFleb.
Definition F64_lt : float64 → float64 → bool := SFltb.
Definition IsNaN (f : float64) : bool := match f with S754_nan => true | _ => false end.
Definition IsInf (f : float64) : bool := match f with S754_infinity _ => true | _ => false end.

#[export] Instance spec_float_eq_dec : EqDecision spec_float.
Proof. solve_decision. Defined.

Inductive QuantityKind :=
| QuantityTemperature | QuantityPH | QuantitySalinity | QuantityFlow
| QuantityLevel | QuantityPower | QuantityVoltage | QuantityCurrent
| QuantityKindOther (s : string).

Inductive Unit :=
| UnitCelsius | UnitPH | UnitPPT | UnitLitersPerHour
| UnitPercent | UnitWatts | UnitVolts | UnitAmperes
| UnitOther (s : string).

Inductive Quality :=
| QualityGood | QualitySuspect | QualityStale | QualityInvalid | QualityUnavailable
| QualityOther (s : string).

#[export] Instance QuantityKind_eq_dec : EqDecision QuantityKind.
Proof. solve_decision. Defined.
#[export] Instance Unit_eq_dec : EqDecision Unit.
Proof. solve_decision. Defined.
#[export] Instance Quality_eq_dec : EqDecision Quality.
Proof. solve_decision. Defined.

Record Quantity := mkQuantity {
  q_Kind : QuantityKind;
  q_Value : float64;
  q_Unit : Unit
}.

#[export] Instance Quantity_eq_dec : EqDecision Quantity.
Proof. solve_decision. Defined.

(** The [want] table of [Quantity.Validate]. *)
Definition want_unit (k : QuantityKind) : option Unit :=
  match k with
  | QuantityTemperature => Some UnitCelsius
  | QuantityPH => Some UnitPH
  | QuantitySalinity => Some UnitPPT
  | QuantityFlow => Some UnitLitersPerHour
  | QuantityLevel => Some UnitPercent
  | QuantityPower => Some UnitWatts
  | QuantityVoltage => Some UnitVolts
  | QuantityCurrent => Some UnitAmperes
  | QuantityKindOther _ => None
  end.

Definition Quantity_Validate (q : Quantity) : option error :=
  when IsNaN (q_Value q) || IsInf (q_Value q) yield Some (ErrNew "quantity value must be finite");;
  match want_unit (q_Kind q) with
  | None => Some (ErrNew "unsupported quantity kind")
  | Some unit =>
      when bool_decide (q_Unit q ≠ unit) yield
        Some (ErrNew "unit is incompatible with quantity kind");;
      when bool_decide (q_Kind q = QuantityPH)
           && (F64_lt (q_Value q) (F64 0) || F64_lt (F64 14) (q_Value q)) yield
        Some (ErrNew "pH must be between 0 and 14");;
      when bool_decide (q_Kind q = QuantityLevel)
           && (F64_lt (q_Value q) (F64 0) || F64_lt (F64 100) (q_Value q)) yield
        Some (ErrNew "level percent must be between 0 and 100");;
      None
  end.

Definition zero_Quantity : Quantity := mkQuantity (QuantityKindOther "") (F64 0) (UnitOther "").

Definition NewQuantity (kind : QuantityKind) (value : float64) (unit : Unit) :
    Quantity * option error :=
  let quantity := mkQuantity kind value unit in
  iferr Quantity_Validate quantity as err yield (zero_Quantity, Some err);;
  (quantity, None).

Definition validQuality (value : Quality) : bool :=
  bool_decide (value = QualityGood) || bool_decide (value = QualitySuspect)
  || bool_decide (value = QualityStale) || bool_decide (value = QualityInvalid)
  || bool_decide (value = QualityUnavailable).

Record Measurement := mkMeasurement {
  m_SensorID : SensorID;
  m_Value : Quantity;
  m_Quality : Quality;
  m_ObservedAt : Time;
  m_ReceivedAt : Time;
  m_FreshFor : Duration
}.

Definition Measurement_Validate (m : Measurement) : option error :=
  iferr validateUUID (m_SensorID m) as err yield Some (ErrWrap "sensor ID" err);;
  iferr Quantity_Validate (m_Value m) as err yield Some (ErrWrap "value" err);;
  when negb (validQuality (m_Quality m)) yield Some (ErrNew "unsupported quality");;
  when IsZero (m_ObservedAt m) || IsZero (m_ReceivedAt m) yield
    Some (ErrNew "observedAt and receivedAt are required");;
  when After (m_ObservedAt m) (m_ReceivedAt m) yield
    Some (ErrNew "observedAt must not be after receivedAt");;
  when m_FreshFor m <=? 0 yield Some (ErrNew "freshFor must be positive");;
  None.

Definition EffectiveQuality (m : Measurement) (now : Time) : Quality :=
  when bool_decide (m_Quality m = QualityInvalid)
       || bool_decide (m_Quality m = QualityUnavailable) yield m_Quality m;;
  when negb (Before now (Add (m_ObservedAt m) (m_FreshFor m))) yield QualityStale;;
  m_Quality m.

(** ** Sensors and equipment ([entity.go]) *)
Record Sensor := mkSensor {
  sen_ID : SensorID;
  sen_DeviceID : DeviceID;
  sen_EndpointID : EndpointID;
  sen_Name : string;
  sen_Quantity : QuantityKind;
  sen_Unit : Unit;
  sen_Capabilities : list Capability;
  sen_Metadata : Metadata
}.

Record Equipment := mkEquipment {
  eq_ID : EquipmentID;
  eq_DeviceID : DeviceID;
  eq_EndpointID : EndpointID;
  eq_Name : string;
  eq_Capabilities : list Capability;
  eq_Metadata : Metadata
}.

(** ** Canonical scalar values ([value.go]) *)
Inductive ValueKind := ValueQuantity | ValueBoolean | ValueText | ValueKindOther (s : string).

#[export] Instance ValueKind_eq_dec : EqDecision ValueKind.
Proof. solve_decision. Defined.

Record Value := mkValue {
  v_Kind : ValueKind;
  v_Quantity : option Quantity;
  v_Boolean : option bool;
  v_Text : option string
}.

#[export] Instance Value_eq_dec : EqDecision Value.
Proof. solve_decision. Defined.

Definition NewQuantityValue (q : Quantity) : Value := mkValue ValueQuantity (Some q) None None.
Definition NewBooleanValue (b : bool) : Value := mkValue ValueBoolean None (Some b) None.
Definition NewTextValue (t : string) : Value := mkValue ValueText None None (Some t).

Definition present {A} (o : option A) : nat := match o with Some _ => 1 | None => 0 end.

Definition Value_Validate (v : Value) : option error :=
  let count := (present (v_Quantity v) + present (v_Boolean v) + present (v_Text v))%nat in
  when negb (bool_decide (count = 1%nat)) yield
    Some (ErrNew "canonical value must contain exactly one member");;
  match v_Kind v with
  | ValueQuantity =>
      match v_Quantity v with
      | None => Some (ErrNew "quantity value is required")
      | Some q => Quantity_Validate q
      end
  | ValueBoolean =>
      match v_Boolean v with
      | None => Some (ErrNew "boolean value is required")
      | Some _ => None
      end
  | ValueText =>
      match v_Text v with
      | None => Some (ErrNew "text value is required")
      | Some _ => None
      end
  | ValueKindOther _ => Some (ErrNew "unsupported canonical value kind")
  end.

Definition Value_Clone (v : Value) : Value :=
  let result := v in
  let result := match v_Quantity v with
    | Some item => mkValue (v_Kind result) (Some item) (v_Boolean result) (v_Text result)
    | None => result end in
  let result := match v_Boolean v with
    | Some item => mkValue (v_Kind result) (v_Quantity result) (Some item) (v_Text result)
    | None => result end in
  match v_Text v with
  | Some item => mkValue (v_Kind result) (v_Quantity result) (v_Boolean result) (Some item)
  | None => result
  end.

(** Copies of the sources are pointer-independent; on values they are the
    identity. Each component adds its own copies to this database. *)
Create Rewrite HintDb clone.

Lemma Value_Clone_id v : Value_Clone v = v.
Proof. by destruct v as [k [] [] []]. Qed.
#[export] Hint Rewrite Value_Clone_id : clone.

(** ** Theorems: identifiers *)

Definition is_byte (b : Z) : Prop := 0 ≤ b < 256.

(** A decidable statement on a byte is checked on the 256 bytes. *)
Lemma byte_cases (P : Z → bool) :
  forallb P (Z.of_nat <$> seq 0 256) = true → ∀ b, is_byte b → P b = true.
Proof.
  rewrite forallb_forall. intros HP b [H0 H1]. apply HP, list_elem_of_In, list_elem_of_fmap.
  exists (Z.to_nat b). split; [lia|]. apply elem_of_seq. lia.
Qed.

Ltac check_bytes P b Hb :=
  let H := fresh "Hbyte" in
  assert (P b = true) as H by (apply (byte_cases P); [vm_compute; reflexivity | exact Hb]);
  cbv beta in H.

Lemma hex_digit_nibble n : 0 ≤ n < 16 → fromHexChar (hex_digit n) = Some n ∧ hex_digit n ≠ dash.
Proof.
  intros Hn.
  check_bytes (fun n => implb (n <? 16)
    (bool_decide (fromHexChar (hex_digit n) = Some n) && bool_decide (hex_digit n ≠ dash)))
    n (conj (proj1 Hn) (Z.lt_trans n 16 256 (proj2 Hn) eq_refl)).
  destruct (n <? 16) eqn:E; [|lia]. simpl in *. by go_bool.
Qed.

Lemma byte_nibbles b : is_byte b →
  0 ≤ Z.shiftr b 4 < 16 ∧ 0 ≤ Z.land b 15 < 16
  ∧ Z.lor (Z.shiftl (Z.shiftr b 4) 4) (Z.land b 15) = b.
Proof.
  intros Hb.
  check_bytes (fun b => (0 <=? Z.shiftr b 4) && (Z.shiftr b 4 <? 16)
    && (0 <=? Z.land b 15) && (Z.land b 15 <? 16)
    && (Z.lor (Z.shiftl (Z.shiftr b 4) 4) (Z.land b 15) =? b))
    b Hb. go_bool. lia.
Qed.

Lemma hex_Encode_cons b bs :
  hex_Encode (b :: bs) = hex_digit (Z.shiftr b 4) :: hex_digit (Z.land b 15) :: hex_Encode bs.
Proof. done. Qed.

Lemma hex_decode_encode bs : Forall is_byte bs → hex_DecodeString (hex_Encode bs) = Some bs.
Proof.
  induction 1 as [|b bs Hb _ IH]; [done|].
  apply byte_nibbles in Hb as (Hh & Hl & Heq).
  rewrite hex_Encode_cons. cbn [hex_DecodeString].
  rewrite (proj1 (hex_digit_nibble _ Hh)), (proj1 (hex_digit_nibble _ Hl)), IH. by rewrite Heq.
Qed.

Lemma strip_dashes_cons c cs : c ≠ dash → strip_dashes (c :: cs) = c :: strip_dashes cs.
Proof. intros. unfold strip_dashes. by rewrite filter_cons_True. Qed.

Lemma strip_dashes_encode bs : Forall is_byte bs → strip_dashes (hex_Encode bs) = hex_Encode bs.
Proof.
  induction 1 as [|b bs Hb _ IH]; [done|].
  apply byte_nibbles in Hb as (Hh & Hl & _). rewrite hex_Encode_cons.
  by rewrite !strip_dashes_cons, IH by (by apply hex_digit_nibble).
Qed.

Lemma hex_Encode_app l k : hex_Encode (l ++ k) = hex_Encode l ++ hex_Encode k.
Proof. unfold hex_Encode. by rewrite fmap_app, join_app. Qed.

Lemma slices_16 {A} (l : list A) : length l = 16%nat →
  slice 0 4 l ++ slice 4 6 l ++ slice 6 8 l ++ slice 8 10 l ++ slice 10 16 l = l.
Proof. intros H. do 16 (destruct l as [|? l]; [done|]). by destruct l. Qed.

Lemma strip_dashes_uuid_text value :
  length value = 16%nat → Forall is_byte value →
  strip_dashes (uuid_text value) = hex_Encode value.
Proof.
  intros Hlen Hb.
  assert (∀ i j, Forall is_byte (slice i j value)) as Hs
    by (intros; unfold slice; by apply Forall_take, Forall_drop).
  unfold uuid_text, strip_dashes. rewrite !filter_app.
  change (filter (λ c, c ≠ dash) [dash]) with (@nil ascii).
  rewrite !app_nil_l. fold (strip_dashes (hex_Encode (slice 0 4 value))).
  fold (strip_dashes (hex_Encode (slice 4 6 value))). fold (strip_dashes (hex_Encode (slice 6 8 value))).
  fold (strip_dashes (hex_Encode (slice 8 10 value))). fold (strip_dashes (hex_Encode (slice 10 16 value))).
  rewrite !strip_dashes_encode by done. rewrite <- !hex_Encode_app. by rewrite slices_16.
Qed.

Lemma stamped_bytes b : is_byte b →
  is_byte (Z.lor (Z.land b 15) 64) ∧ is_byte (Z.lor (Z.land b 63) 128)
  ∧ hex_digit (Z.shiftr (Z.lor (Z.land b 15) 64) 4) = "4"%char
  ∧ hex_digit (Z.shiftr (Z.lor (Z.land b 63) 128) 4) ∈ ["8"; "9"; "a"; "b"]%char.
Proof.
  intros Hb.
  check_bytes (fun b => (0 <=? Z.lor (Z.land b 15) 64) && (Z.lor (Z.land b 15) 64 <? 256)
    && (0 <=? Z.lor (Z.land b 63) 128) && (Z.lor (Z.land b 63) 128 <? 256)
    && bool_decide (hex_digit (Z.shiftr (Z.lor (Z.land b 15) 64) 4) = "4"%char)
    && bool_decide (hex_digit (Z.shiftr (Z.lor (Z.land b 63) 128) 4) ∈ ["8"; "9"; "a"; "b"]%char))
    b Hb.
  go_bool. unfold is_byte. intuition lia.
Qed.

Lemma stamp_uuid_ok value : length value = 16%nat → Forall is_byte value →
  length (stamp_uuid value) = 16%nat ∧ Forall is_byte (stamp_uuid value).
Proof.
  intros Hlen Hb. unfold stamp_uuid. split; [by rewrite !length_alter|].
  do 2 (apply Forall_alter; [|intros; by apply stamped_bytes]). done.
Qed.

Lemma bytes_of_string_of l : bytes_of (string_of_list_ascii l) = l.
Proof. apply list_ascii_of_string_of_list_ascii. Qed.

Lemma uuid_text_decodes value : length value = 16%nat → Forall is_byte value →
  hex_DecodeString (strip_dashes (uuid_text (stamp_uuid value))) = Some (stamp_uuid value).
Proof.
  intros Hlen Hb. pose proof (stamp_uuid_ok value Hlen Hb) as [Hlen' Hb'].
  rewrite strip_dashes_uuid_text by done. by apply hex_decode_encode.
Qed.

Lemma uuid_text_valid value : length value = 16%nat → Forall is_byte value →
  validateUUID (string_of_list_ascii (uuid_text (stamp_uuid value))) = None.
Proof.
  intros Hlen Hb. pose proof (uuid_text_decodes value Hlen Hb) as Hdec.
  unfold validateUUID. rewrite bytes_of_string_of, Hdec.
  do 16 (destruct value as [|? value]; [done|]). by destruct value.
Qed.

(** The canonical text of a version-4 UUID of RFC 4122: five groups of
    lower-case hexadecimal digits with a dash between them, the third group
    opening with the version and the fourth with the variant. *)
Definition lower_hex (c : ascii) : Prop := c ∈ bytes_of "0123456789abcdef".

Definition canonical_v4 (id : string) : Prop := ∃ a b c d e,
  bytes_of id = a ++ [dash] ++ b ++ [dash] ++ c ++ [dash] ++ d ++ [dash] ++ e
  ∧ length <$> [a; b; c; d; e] = [8; 4; 4; 4; 12]%nat
  ∧ Forall lower_hex (a ++ b ++ c ++ d ++ e)
  ∧ head c = Some "4"%char
  ∧ ∃ v, head d = Some v ∧ v ∈ ["8"; "9"; "a"; "b"]%char.

Lemma hex_byte_lower b : is_byte b → Forall lower_hex (hex_byte b).
Proof.
  intros Hb. unfold hex_byte, lower_hex.
  check_bytes (fun b => bool_decide (hex_digit (Z.shiftr b 4) ∈ bytes_of "0123456789abcdef")
    && bool_decide (hex_digit (Z.land b 15) ∈ bytes_of "0123456789abcdef")) b Hb.
  go_bool. rewrite !Forall_cons, Forall_nil. tauto.
Qed.

Lemma hex_Encode_lower l : Forall is_byte l → Forall lower_hex (hex_Encode l).
Proof.
  induction 1 as [|b l Hb _ IH]; [constructor|].
  apply Forall_app. split; [by apply hex_byte_lower|done].
Qed.

Lemma uuid_text_canonical value : length value = 16%nat → Forall is_byte value →
  canonical_v4 (string_of_list_ascii (uuid_text (stamp_uuid value))).
Proof.
  intros Hlen Hb. pose proof (stamp_uuid_ok value Hlen Hb) as [Hlen' Hs].
  unfold canonical_v4. rewrite bytes_of_string_of. eexists _, _, _, _, _. split; [reflexivity|].
  rewrite <- !hex_Encode_app, slices_16 by done. split; [|split; [by apply hex_Encode_lower|]].
  all: do 16 (destruct value as [|? value]; [done|]); (destruct value; [|done]).
  { reflexivity. }
  rewrite !Forall_cons in Hb. simpl. split; [f_equal; apply stamped_bytes; tauto|].
  eexists. split; [reflexivity|]. apply stamped_bytes. tauto.
Qed.

(** From sixteen random bytes a new identifier is accepted by validation,
    decodes to the stamped bytes, and has the version-4 and variant digits in
    their places. *)
Theorem newUUID_canonical value :
  length value = 16%nat → Forall is_byte value →
  let '(id, err) := newUUID (inr value) in
  err = None ∧ validateUUID id = None
  ∧ hex_DecodeString (strip_dashes (bytes_of id)) = Some (stamp_uuid value)
  ∧ bytes_of id !! 14%nat = Some "4"%char
  ∧ (∃ c, bytes_of id !! 19%nat = Some c ∧ c ∈ ["8"; "9"; "a"; "b"]%char).
Proof.
  intros Hlen Hb. simpl. rewrite bytes_of_string_of.
  split_and!; [done|by apply uuid_text_valid|by apply uuid_text_decodes| |].
  - do 16 (destruct value as [|? value]; [done|]). destruct value; [|done].
    rewrite !Forall_cons in Hb. simpl. f_equal. apply stamped_bytes. tauto.
  - do 16 (destruct value as [|? value]; [done|]). destruct value; [|done].
    rewrite !Forall_cons in Hb. eexists. split; [reflexivity|]. apply stamped_bytes. tauto.
Qed.

(** What acceptance means, character by character. *)
Lemma hex_DecodeString_spec cs :
  (∃ bs, hex_DecodeString cs = Some bs)
  ↔ (∃ n, length cs = (2 * n)%nat) ∧ Forall (fun c => is_Some (fromHexChar c)) cs.
Proof.
  split.
  - intros [bs Hbs]. revert bs Hbs.
    induction cs as [cs IH] using (induction_ltof1 _ length). unfold ltof in IH.
    destruct cs as [|a [|b rest]]; intros bs Hbs; [|done|].
    { split; [by exists 0%nat|constructor]. }
    simpl in Hbs. destruct (fromHexChar a) eqn:Ha, (fromHexChar b) eqn:Hb; try done.
    destruct (hex_DecodeString rest) as [bs'|] eqn:Hr; [|done].
    destruct (IH rest ltac:(simpl; lia) bs' Hr) as [[n Hn] Hall].
    split; [exists (S n); simpl; lia|]. by repeat constructor; rewrite ?Ha, ?Hb; eauto.
  - intros [[n Hn] Hall]. revert cs Hn Hall.
    induction n as [|n IH]; intros cs Hn Hall.
    { destruct cs; [by exists []|done]. }
    destruct cs as [|a [|b rest]]; [simpl in *; lia..|].
    apply Forall_cons in Hall as [[x Hx] Hall]. apply Forall_cons in Hall as [[y Hy] Hall].
    destruct (IH rest) as [bs Hbs]; [simpl in *; lia|done|].
    simpl. rewrite Hx, Hy, Hbs. eauto.
Qed.

Lemma validateUUID_spec id :
  validateUUID id = None ↔
    length (bytes_of id) = 36%nat
    ∧ Forall (fun i => bytes_of id !! i = Some dash) [8; 13; 18; 23]%nat
    ∧ (∃ n, length (strip_dashes (bytes_of id)) = (2 * n)%nat)
    ∧ Forall (fun c => is_Some (fromHexChar c)) (strip_dashes (bytes_of id)).
Proof.
  unfold validateUUID, dash_at. rewrite !Forall_cons, Forall_nil.
  pose proof (hex_DecodeString_spec (strip_dashes (bytes_of id))) as Hdec.
  destruct (hex_DecodeString _) as [bs|].
  - destruct (proj1 Hdec (ex_intro _ bs eq_refl)) as [Hn Hall]. clear Hdec.
    repeat case_bool_decide; simpl; (split; [try done; tauto|]); tauto.
  - destruct (_ || _); (split; [done|]); intros (_ & _ & Hn & Hall);
      destruct (proj2 Hdec (conj Hn Hall)); done.
Qed.

Lemma validateUUID_chars id c :
  validateUUID id = None → c ∈ bytes_of id → c = dash ∨ is_Some (fromHexChar c).
Proof.
  intros (_ & _ & _ & Hall)%validateUUID_spec Hin.
  destruct (decide (c = dash)) as [->|Hne]; [by left|right].
  rewrite Forall_forall in Hall. apply Hall. unfold strip_dashes. by apply list_elem_of_filter.
Qed.

(** The validation strips every dash before decoding, so a string of 36 dashes
    is accepted, although the comment speaks of canonical RFC 4122 form. *)
Theorem validateUUID_accepts_dashes :
  ∃ id, validateUUID id = None ∧ Forall (fun c => c = dash) (bytes_of id).
Proof.
  exists "------------------------------------". split; [reflexivity|].
  repeat constructor.
Qed.

(** ** Theorems: capabilities *)

Definition known_capability (c : Capability) : Prop := Capability_Validate c = None.

Lemma validate_capabilities_from_spec seen values :
  validate_capabilities_from seen values = None ↔
    Forall known_capability values ∧ NoDup values ∧ (∀ c, c ∈ values → c ∉ seen).
Proof.
  revert seen. induction values as [|c values IH]; intros seen; simpl.
  - split; [|done]. intros _. split_and!; [constructor..|]. by intros ? ?%elem_of_nil.
  - rewrite Forall_cons, NoDup_cons. unfold known_capability at 1.
    destruct (Capability_Validate c); [naive_solver|].
    case_bool_decide as Hseen; [split; [done|]|].
    + intros (_ & _ & Hdisj). exfalso. by apply (Hdisj c); [left|].
    + rewrite IH. setoid_rewrite elem_of_cons. split.
      * intros (Hk & Hnd & Hdisj). split_and!; try done; [naive_solver|].
        intros d [->|Hd]; naive_solver.
      * intros ([_ Hk] & [Hni Hnd] & Hdisj). split_and!; try done.
        intros d Hd [->|Hin]; naive_solver.
Qed.

(** Validation accepts exactly the nonempty duplicate-free lists of known
    capabilities. *)
Theorem ValidateCapabilities_spec values :
  ValidateCapabilities values = None ↔
    values ≠ [] ∧ NoDup values ∧ Forall known_capability values.
Proof.
  destruct values as [|c values]; [naive_solver|].
  unfold ValidateCapabilities. rewrite validate_capabilities_from_spec.
  split; [naive_solver|]. intros (_ & Hnd & Hk). split_and!; try done.
  by intros ? _ ?%elem_of_nil.
Qed.

Lemma SupportsAll_spec available required :
  SupportsAll available required = true ↔ required ⊆ available.
Proof.
  unfold SupportsAll. rewrite forallb_forall. split.
  - intros H c Hc%list_elem_of_In. apply H in Hc. by go_bool.
  - intros H c Hc%list_elem_of_In. apply bool_decide_eq_true. by apply H.
Qed.

Lemma SupportsAll_trans a b c :
  SupportsAll a b = true → SupportsAll b c = true → SupportsAll a c = true.
Proof. rewrite !SupportsAll_spec. intros; by etrans. Qed.

(** ** Theorems: quantities, measurements and values *)

Lemma Quantity_Validate_finite q :
  Quantity_Validate q = None → IsNaN (q_Value q) = false ∧ IsInf (q_Value q) = false.
Proof. unfold Quantity_Validate. destruct (IsNaN _), (IsInf _); done. Qed.

(** Validation accepts exactly the values the three constructors build from
    valid data. *)
Theorem Value_Validate_spec v :
  Value_Validate v = None ↔
    (∃ q, v = NewQuantityValue q ∧ Quantity_Validate q = None)
    ∨ (∃ b, v = NewBooleanValue b) ∨ (∃ t, v = NewTextValue t).
Proof.
  split.
  - destruct v as [k [q|] [b|] [t|]]; destruct k; simpl; naive_solver.
  - intros [(q & -> & Hq)|[[b ->]|[t ->]]]; done.
Qed.

(** The effective quality is good exactly for a good measurement within its
    freshness. *)
Theorem EffectiveQuality_good m now :
  EffectiveQuality m now = QualityGood ↔
    m_Quality m = QualityGood ∧ now < m_ObservedAt m + m_FreshFor m.
Proof.
  unfold EffectiveQuality. repeat case_bool_decide; simpl; go_crush; intuition (try congruence; lia).
Qed.
