(* ===== verification/Health.v ===== *)
(** * Component health: [internal/health], [internal/subsystem]

    The status record, the component interface, the aggregating manager and
    the placeholder component. *)

From Stdlib Require Import ZArith Lia String.
From stdpp Require Import base gmap strings list.
From S2P Require Import Prelude.

Inductive HealthState := StateHealthy | StateDegraded | StateUnhealthy | StateOther (s : string).

#[export] Instance HealthState_eq_dec : EqDecision HealthState.
Proof. solve_decision. Defined.

Record Status := mkStatus {
  st_Name : string;
  st_State : HealthState;
  st_Healthy : bool;
  st_Message : string;
  st_CheckedAt : Time
}.

Definition NewStatus (name : string) (state : HealthState) (message : string) (checkedAt : Time) : Status :=
  mkStatus name state (bool_decide (state = StateHealthy)) message checkedAt.

(** The lifecycle contract implemented by every long-running subsystem. *)
Class Component (C : Type) := {
  comp_Name : C → string;
  comp_Start : Context → C → C * option error;
  comp_Stop : Context → C → C * option error;
  comp_Health : Time → C → Status
}.

(** The health of a component that only reports whether it was started. *)
Definition lifecycle_status (name : string) (started : bool) (now : Time) : Status :=
  let state := if started then StateHealthy else StateUnhealthy in
  NewStatus name state "" (UTC now).

(** What the components whose [Start] and [Stop] only move a flag promise. *)
Class FlagComponent (C : Type) `{Component C} := {
  flag_started : C → bool;
  flag_start : ∀ ctx c, flag_started (comp_Start ctx c).1 = true ∧ (comp_Start ctx c).2 = None;
  flag_stop : ∀ ctx c, flag_started (comp_Stop ctx c).1 = false ∧ (comp_Stop ctx c).2 = None;
  flag_health : ∀ now c, comp_Health now c = lifecycle_status (comp_Name c) (flag_started c) now
}.

Lemma flag_component_cycle `{FlagComponent C} ctx now (c : C) :
  st_Healthy (comp_Health now (comp_Start ctx c).1) = true
  ∧ st_Healthy (comp_Health now (comp_Stop ctx c).1) = false.
Proof.
  rewrite !flag_health, (proj1 (flag_start ctx c)), (proj1 (flag_stop ctx c)). done.
Qed.

(** ** The placeholder component ([passive.go]) *)
Record Passive := mkPassive { p_name : string; p_started : bool }.

Definition NewPassive (name : string) : Passive := mkPassive name false.
Definition Passive_Start (ctx : Context) (p : Passive) : Passive * option error :=
  (mkPassive (p_name p) true, None).
Definition Passive_Stop (ctx : Context) (p : Passive) : Passive * option error :=
  (mkPassive (p_name p) false, None).
Definition Passive_Health (now : Time) (p : Passive) : Status :=
  lifecycle_status (p_name p) (p_started p) now.

#[export] Instance Passive_Component : Component Passive := {
  comp_Name := p_name; comp_Start := Passive_Start;
  comp_Stop := Passive_Stop; comp_Health := Passive_Health }.
#[export] Instance Passive_Flag : FlagComponent Passive.
Proof. by refine {| flag_started := p_started |}. Defined.

(** ** The aggregating manager

    A registered component is represented by what its [Health] method returns
    when the report is taken. *)
Record registration := mkRegistration { r_status : Status; r_required : bool }.

Record Report := mkReport {
  rep_Live : bool;
  rep_Ready : bool;
  rep_State : HealthState;
  rep_Components : list Status
}.

Record HealthManager := mkHealthManager {
  hm_components : list registration;
  hm_started : bool
}.

Definition NewHealthManager : HealthManager := mkHealthManager [] false.

Definition RegisterComponent (component : Status) (required : bool) (m : HealthManager) : HealthManager :=
  mkHealthManager (hm_components m ++ [mkRegistration component required]) (hm_started m).

(** [Register] of several required components. *)
Definition RegisterAll (components : list Status) (m : HealthManager) : HealthManager :=
  foldl (fun m component => RegisterComponent component true m) m components.

Definition HealthManager_Start (ctx : Context) (m : HealthManager) : HealthManager * option error :=
  (mkHealthManager (hm_components m) true, None).
Definition HealthManager_Stop (ctx : Context) (m : HealthManager) : HealthManager * option error :=
  (mkHealthManager (hm_components m) false, None).
Definition HealthManager_Health (now : Time) (m : HealthManager) : Status :=
  lifecycle_status "health" (hm_started m) now.

#[export] Instance HealthManager_Component : Component HealthManager := {
  comp_Name := fun _ => "health"; comp_Start := HealthManager_Start;
  comp_Stop := HealthManager_Stop; comp_Health := HealthManager_Health }.
#[export] Instance HealthManager_Flag : FlagComponent HealthManager.
Proof. by refine {| flag_started := hm_started |}. Defined.

Definition normalize (status : Status) : Status :=
  let state :=
    if bool_decide (st_State status = StateOther "")
    then (if st_Healthy status then StateHealthy else StateUnhealthy)
    else st_State status in
  mkStatus (st_Name status) state (bool_decide (state = StateHealthy))
    (st_Message status) (st_CheckedAt status).

(** One turn of the loop of [Report] on [(ready, state, statuses)]. *)
Definition report_step (acc : bool * HealthState * list Status) (registered : registration) :
    bool * HealthState * list Status :=
  let '(ready, state, statuses) := acc in
  let status := normalize (r_status registered) in
  let statuses := statuses ++ [status] in
  if bool_decide (st_State status ≠ StateHealthy) then
    if r_required registered then (false, StateUnhealthy, statuses)
    else if bool_decide (state = StateHealthy) then (ready, StateDegraded, statuses)
    else (ready, state, statuses)
  else (ready, state, statuses).

Definition HealthManager_Report (now : Time) (m : HealthManager) : Report :=
  let '(ready, state, statuses) :=
    foldl report_step (hm_started m, StateHealthy, [HealthManager_Health now m]) (hm_components m) in
  let state := if negb (hm_started m) then StateUnhealthy else state in
  mkReport true ready state statuses.

Definition HealthManager_Healthy (now : Time) (m : HealthManager) : bool :=
  rep_Ready (HealthManager_Report now m).

(** ** Theorems *)

Definition is_healthy (s : Status) : Prop := st_State (normalize s) = StateHealthy.
#[export] Instance is_healthy_dec s : Decision (is_healthy s).
Proof. unfold is_healthy. apply _. Defined.

Definition all_required_healthy (cs : list registration) : Prop :=
  Forall (fun r => r_required r = true → is_healthy (r_status r)) cs.
Definition all_healthy (cs : list registration) : Prop :=
  Forall (fun r => is_healthy (r_status r)) cs.

Ltac use_fold IH Hreqs Hall :=
  match goal with
  | |- context [foldl report_step (?r, ?s, ?l) ?cs] =>
      specialize (IH r s l); destruct (foldl report_step (r, s, l) cs) as [[? ?] ?];
      destruct IH as (IH1 & IH2 & IH3 & IH4); rewrite IH1, IH2, IH3, IH4, Hreqs, Hall;
      split_and!; [intuition (try done)..|simpl; by rewrite <- app_assoc]
  end.

(** The accumulator after the loop, from any starting point. *)
Lemma report_fold cs ready state statuses :
  let '(ready', state', statuses') := foldl report_step (ready, state, statuses) cs in
  (ready' = true ↔ ready = true ∧ all_required_healthy cs)
  ∧ (state' = StateHealthy ↔ state = StateHealthy ∧ all_healthy cs)
  ∧ (state' = StateUnhealthy ↔
      state = StateUnhealthy ∨ ¬ all_required_healthy cs)
  ∧ statuses' = statuses ++ (normalize ∘ r_status <$> cs).
Proof.
  revert ready state statuses.
  induction cs as [|r cs IH]; intros ready state statuses; simpl.
  { rewrite app_nil_r. assert (all_required_healthy []) by constructor.
    assert (all_healthy []) by constructor. tauto. }
  assert (all_required_healthy (r :: cs) ↔
    (r_required r = true → is_healthy (r_status r)) ∧ all_required_healthy cs) as Hreqs
    by (unfold all_required_healthy, all_healthy; by rewrite Forall_cons).
  assert (all_healthy (r :: cs) ↔ is_healthy (r_status r) ∧ all_healthy cs) as Hall
    by (unfold all_required_healthy, all_healthy; by rewrite Forall_cons).
  unfold is_healthy in Hreqs, Hall.
  destruct (decide (st_State (normalize (r_status r)) = StateHealthy)) as [Hh|Hh].
  - rewrite (bool_decide_eq_false_2 (_ ≠ _)) by auto. use_fold IH Hreqs Hall.
  - rewrite (bool_decide_eq_true_2 (_ ≠ _)) by auto.
    destruct (r_required r) eqn:Hreq; [use_fold IH Hreqs Hall|].
    case_bool_decide; subst; use_fold IH Hreqs Hall.
Qed.

(** A report is live, ready exactly when the manager is started and every
    required component is healthy, healthy exactly when it is started and all
    components are, unhealthy exactly when not ready, and lists the manager
    and every component. *)
Theorem HealthManager_Report_spec now m :
  let r := HealthManager_Report now m in
  rep_Live r = true
  ∧ (rep_Ready r = true ↔ hm_started m = true ∧ all_required_healthy (hm_components m))
  ∧ (rep_State r = StateHealthy ↔ hm_started m = true ∧ all_healthy (hm_components m))
  ∧ (rep_State r = StateUnhealthy ↔ rep_Ready r = false)
  ∧ length (rep_Components r) = S (length (hm_components m)).
Proof.
  unfold HealthManager_Report.
  pose proof (report_fold (hm_components m) (hm_started m) StateHealthy [HealthManager_Health now m]) as Hf.
  destruct (foldl _ _ _) as [[ready state] statuses]. destruct Hf as (Hr & Hh & Hu & ->). simpl.
  rewrite length_fmap. rewrite <- not_true_iff_false.
  destruct (hm_started m); simpl; split_and!; intuition (try done).
Qed.
