(* ===== verification/Lifecycle.v ===== *)
(** * Ordered startup and shutdown: [internal/lifecycle]

    A component is a number; what its methods return, and whether the manager
    stopped waiting for its [Start] (context done or a deadline passed) are
    the parameters [start], [stop] and [interrupted]. The model records every
    call of a component method in the log [lc_log]. *)

From Stdlib Require Import ZArith Lia String.
From stdpp Require Import base gmap strings list.
From S2P Require Import Prelude Health.

Inductive action := Started (c : nat) | Stopped (c : nat).

#[export] Instance action_eq_dec : EqDecision action.
Proof. solve_decision. Defined.

Record Lifecycle := mkLifecycle {
  lc_components : list nat;
  lc_started : list nat;
  lc_log : list action
}.

Definition NewConfigured (components : list nat) : Lifecycle := mkLifecycle components [] [].

Section lifecycle.
Context (name : nat → string).
Context (start stop : nat → option error).
(** The error the [select] contributes when it does not choose the result. *)
Context (interrupted : nat → option error).

(** The error with which [component.Start] ends: its result alone, or joined
    with the context or deadline error after cancellation. The result is
    received on every path. *)
Definition start_error (c : nat) : option error :=
  match interrupted c with
  | None => start c
  | Some e => errors_Join [Some e; start c]
  end.

Definition stop_errors (cs : list nat) : list (option error) :=
  (fun c => (fun err => ErrWrap ("stop " +:+ name c) err) <$> stop c) <$> cs.

(** The loop from the last started component to the first. *)
Definition stopLocked (m : Lifecycle) : Lifecycle * option error :=
  let order := rev (lc_started m) in
  (mkLifecycle (lc_components m) [] (lc_log m ++ (Stopped <$> order)),
   errors_Join (stop_errors order)).

Fixpoint start_from (components : list nat) (m : Lifecycle) : Lifecycle * option error :=
  match components with
  | [] => (m, None)
  | c :: rest =>
      let m := mkLifecycle (lc_components m) (lc_started m) (lc_log m ++ [Started c]) in
      match start_error c with
      | Some err =>
          let '(m, rollbackErr) := stopLocked m in
          (m, errors_Join [Some (ErrWrap ("start " +:+ name c) err); rollbackErr])
      | None =>
          start_from rest (mkLifecycle (lc_components m) (lc_started m ++ [c]) (lc_log m))
      end
  end.

Definition Lifecycle_Start (m : Lifecycle) : Lifecycle * option error :=
  when negb (bool_decide (lc_started m = [])) yield
    (m, Some (ErrNew "lifecycle already started"));;
  start_from (lc_components m) m.

Definition Lifecycle_Stop (m : Lifecycle) : Lifecycle * option error := stopLocked m.

(** ** Theorems *)

Lemma errors_Join_cons e es : errors_Join (Some e :: es) ≠ None.
Proof. done. Qed.

Lemma start_from_ok components m :
  Forall (fun c => start_error c = None) components →
  start_from components m =
    (mkLifecycle (lc_components m) (lc_started m ++ components)
       (lc_log m ++ (Started <$> components)), None).
Proof.
  intros Hok. revert m. induction Hok as [|c cs Hc _ IH]; intros m; simpl.
  { rewrite !app_nil_r. by destruct m. }
  rewrite Hc, IH. simpl. by rewrite <- !app_assoc.
Qed.

Lemma start_from_fail before c after err m :
  Forall (fun c => start_error c = None) before → start_error c = Some err →
  ∃ err', start_from (before ++ c :: after) m =
    (mkLifecycle (lc_components m) []
       (lc_log m ++ (Started <$> before) ++ [Started c]
         ++ (Stopped <$> rev (lc_started m ++ before))), Some err').
Proof.
  intros Hok Hc. revert m. induction Hok as [|d ds Hd _ IH]; intros m; simpl.
  - rewrite Hc. simpl. eexists. rewrite app_nil_r, <- app_assoc. done.
  - rewrite Hd. destruct (IH (mkLifecycle (lc_components m) (lc_started m ++ [d])
      (lc_log m ++ [Started d]))) as [err' Herr]. exists err'. rewrite Herr. simpl.
    by rewrite <- !app_assoc.
Qed.

Lemma first_failure cs :
  Forall (fun c => start_error c = None) cs
  ∨ ∃ before c after err, cs = before ++ c :: after
      ∧ Forall (fun c => start_error c = None) before ∧ start_error c = Some err.
Proof.
  induction cs as [|d ds IH]; [left; constructor|].
  destruct (start_error d) as [err|] eqn:Hd.
  { right. exists [], d, ds, err. split_and!; [done|constructor|done]. }
  destruct IH as [Hok|(b & c & a & err & -> & Hb & Hc)]; [left; by constructor|].
  right. exists (d :: b), c, a, err. split_and!; [done|by constructor|done].
Qed.

(** Starting a stopped manager either starts every component in order, or
    stops at the first that fails and stops those started before it in reverse
    order, leaving none started. *)
Theorem Lifecycle_Start_all_or_nothing m :
  lc_started m = [] →
  (Lifecycle_Start m =
     (mkLifecycle (lc_components m) (lc_components m)
        (lc_log m ++ (Started <$> lc_components m)), None)
   ∧ Forall (fun c => start_error c = None) (lc_components m))
  ∨ (∃ before c after err,
       lc_components m = before ++ c :: after ∧ Forall (fun c => start_error c = None) before
       ∧ is_Some (start_error c) ∧
       Lifecycle_Start m =
         (mkLifecycle (lc_components m) []
            (lc_log m ++ (Started <$> before) ++ [Started c] ++ (Stopped <$> rev before)), Some err)).
Proof.
  intros Hs. unfold Lifecycle_Start. rewrite Hs, bool_decide_eq_true_2 by done. simpl.
  destruct (first_failure (lc_components m)) as [Hok|(before & c & after & err & Heq & Hok & Herr)].
  - left. rewrite start_from_ok by done. by rewrite Hs.
  - right. destruct (start_from_fail before c after err m Hok Herr) as [err' Hrun].
    exists before, c, after, err'. split_and!; [done|done|by rewrite Herr|].
    by rewrite Heq, Hrun, Hs, Heq.
Qed.

Lemma stop_errors_none cs :
  errors_Join (stop_errors cs) = None ↔ Forall (fun c => stop c = None) cs.
Proof.
  unfold errors_Join. induction cs as [|c cs IH]; simpl.
  { split; [constructor|done]. }
  rewrite Forall_cons. destruct (stop c); simpl; [naive_solver|].
  unfold stop_errors in *. simpl. rewrite IH. naive_solver.
Qed.

(** Stopping stops exactly the started components in reverse order, whether or
    not some fail, leaves none started and answers an error exactly when one
    of them failed. *)
Theorem Lifecycle_Stop_reverse m :
  let '(m', err) := Lifecycle_Stop m in
  lc_started m' = []
  ∧ lc_log m' = lc_log m ++ (Stopped <$> rev (lc_started m))
  ∧ (err = None ↔ Forall (fun c => stop c = None) (lc_started m)).
Proof.
  simpl. split_and!; [done..|]. rewrite stop_errors_none.
  by rewrite <- (Permutation_rev (lc_started m)).
Qed.
End lifecycle.

(** ** Optional components ([optional.go]) *)
Section optional.
Context {C : Type} `{Component C}.

Record Optional := mkOptional { o_component : C; o_started : bool }.

Definition NewOptional (c : C) : Optional := mkOptional c false.

Definition Optional_Start (ctx : Context) (o : Optional) : Optional * option error :=
  let '(c, err) := comp_Start ctx (o_component o) in
  (mkOptional c (match err with None => true | Some _ => false end), None).

Definition Optional_Stop (ctx : Context) (o : Optional) : Optional * option error :=
  when negb (o_started o) yield (mkOptional (o_component o) false, None);;
  let '(c, err) := comp_Stop ctx (o_component o) in
  (mkOptional c false, err).

#[export] Instance Optional_Component : Component Optional := {
  comp_Name := fun o => comp_Name (o_component o);
  comp_Start := Optional_Start; comp_Stop := Optional_Stop;
  comp_Health := fun now o => comp_Health now (o_component o) }.

(** An optional component never fails the start; one that did not start is not
    stopped. *)
Theorem Optional_never_fails ctx (o : Optional) :
  let '(o', err) := Optional_Start ctx o in
  err = None
  ∧ (o_started o' = true ↔ (comp_Start ctx (o_component o)).2 = None)
  ∧ o_component o' = (comp_Start ctx (o_component o)).1
  ∧ (o_started o' = false → Optional_Stop ctx o' = (o', None)).
Proof.
  unfold Optional_Start. destruct (comp_Start ctx (o_component o)) as [c [e|]]; simpl;
    split_and!; try done; naive_solver.
Qed.
End optional.
