(* ===== verification/Events.v ===== *)
(** * Event envelopes: [internal/events/event.go]

    Event codes, severities, the envelope with its validation, and the
    factory. JSON is the interface [JSON]/[Marshaler]: a raw message is its
    text, and the only law used of [encoding/json] is its documented one, that
    a successful [Marshal] yields valid JSON. The interface [Publisher] is the
    [Publish] method through which every component emits events. *)

From Stdlib Require Import ZArith Lia String.
From stdpp Require Import base gmap strings list.
From S2P Require Import Prelude Domain.

(** Stable event codes. *)
Abbreviation EventType := string (only parsing).
Definition DeviceRegistered : EventType := "device.registered".
Definition DeviceUpdated : EventType := "device.updated".
Definition DeviceRemoved : EventType := "device.removed".
Definition SensorRegistered : EventType := "sensor.registered".
Definition SensorUpdated : EventType := "sensor.updated".
Definition SensorRemoved : EventType := "sensor.removed".
Definition EquipmentRegistered : EventType := "equipment.registered".
Definition EquipmentUpdated : EventType := "equipment.updated".
Definition EquipmentRemoved : EventType := "equipment.removed".
Definition StateChanged : EventType := "state.changed".
Definition AlarmRaised : EventType := "alarm.raised".
Definition AlarmAcknowledged : EventType := "alarm.acknowledged".
Definition AlarmCleared : EventType := "alarm.cleared".
Definition AlarmEscalated : EventType := "alarm.escalated".
Definition CommandValidated : EventType := "command.validated".
Definition CommandRejected : EventType := "command.rejected".
Definition CommandDispatched : EventType := "command.dispatched".
Definition CommandAcknowledged : EventType := "command.acknowledged".
Definition CommandReconciled : EventType := "command.reconciled".
Definition CommandExpired : EventType := "command.expired".

Inductive Severity :=
| SeverityDebug | SeverityInfo | SeverityWarning | SeverityCritical
| SeverityOther (s : string).

#[export] Instance Severity_eq_dec : EqDecision Severity.
Proof. solve_decision. Defined.

Definition Rank (s : Severity) : Z :=
  match s with
  | SeverityDebug => 1
  | SeverityInfo => 2
  | SeverityWarning => 3
  | SeverityCritical => 4
  | SeverityOther _ => 0
  end.

(** ** JSON *)
Class JSON := { json_Valid : string → bool }.
Class Marshaler `{JSON} (A : Type) := {
  json_Marshal : A → error + string;
  json_Marshal_valid : ∀ a s, json_Marshal a = inr s → json_Valid s = true
}.

(** ** The envelope *)
Record Event := mkEvent {
  ev_Timestamp : Time;
  ev_Source : string;
  ev_EventType : EventType;
  ev_Severity : Severity;
  ev_Payload : string;
  ev_CorrelationID : CorrelationID
}.

Definition zero_Event : Event := mkEvent 0 "" "" (SeverityOther "") "" "".

Definition Event_Validate `{JSON} (e : Event) : option error :=
  when IsZero (ev_Timestamp e) || bool_decide (ev_Source e = "")
       || bool_decide (ev_EventType e = "") yield
    Some (ErrNew "event timestamp, source, and type are required");;
  when Rank (ev_Severity e) =? 0 yield Some (ErrNew "event severity is invalid");;
  iferr validateUUID (ev_CorrelationID e) as err yield
    Some (ErrWrap "invalid correlation ID" err);;
  when negb (json_Valid (ev_Payload e)) yield
    Some (ErrNew "event payload must be valid JSON");;
  None.

(** [Factory.New]. [now] is what the factory's clock reads and [fresh] what its
    ID generator returns, should the call consult them. *)
Definition Factory_New `{JSON} {A} `{!Marshaler A} (now : Time) (fresh : CorrelationID * option error)
    (source : string) (eventType : EventType) (severity : Severity) (payload : A)
    (correlationID : CorrelationID) : Event * option error :=
  match json_Marshal payload with
  | inl err => (zero_Event, Some (ErrWrap "encode event payload" err))
  | inr encoded =>
      let '(correlationID, err) :=
        if bool_decide (correlationID = "") then fresh else (correlationID, None) in
      iferr err as err yield (zero_Event, Some (ErrWrap "create correlation ID" err));;
      let event := mkEvent (UTC now) source eventType severity encoded correlationID in
      (event, Event_Validate event)
  end.

(** [NewFactory] on a clock and a generator that are there or nil; the package's
    [New] draws on the system's. *)
Definition NewFactory (clock newID : bool) : option error :=
  when negb clock || negb newID yield Some (ErrNew "event clock and correlation ID generator are required");;
  None.

Definition events_New `{JSON} {A} `{!Marshaler A} (systemNow : Time) (generated : CorrelationID * option error)
    (source : string) (eventType : EventType) (severity : Severity) (payload : A)
    (correlationID : CorrelationID) : Event * option error :=
  Factory_New systemNow generated source eventType severity payload correlationID.

(** The causal identity that a context carries. *)
Definition WithCorrelationID (ctx : Context) (id : CorrelationID) : Context := mkContext (ctx_Err ctx) id.
Definition CorrelationIDFromContext (ctx : Context) : CorrelationID := ctx_CorrelationID ctx.

(** ** Publishers *)
Class Publisher (W : Type) := { Publish : Context → Event → W → option error * W }.

(** What the clock and the ID generator of a component's event factory return
    during one call. *)
Record FactoryEnv := mkFactoryEnv {
  fe_now : Time;
  fe_fresh : CorrelationID * option error
}.

(** The body shared by the [emit] methods: nothing without a publisher,
    otherwise build the event and publish it. *)
Definition emit_with `{JSON} {A} `{!Marshaler A} {W} `{!Publisher W} (env : FactoryEnv) (ctx : Context)
    (source : string) (eventType : EventType) (severity : Severity) (payload : A)
    (correlationID : CorrelationID) (publisher : option W) : option error * option W :=
  match publisher with
  | None => (None, None)
  | Some w =>
      let '(event, err) :=
        Factory_New (fe_now env) (fe_fresh env) source eventType severity payload correlationID in
      iferr err as err yield (Some err, Some w);;
      let '(err, w) := Publish ctx event w in (err, Some w)
  end.

(** ** Theorems *)

(** An accepted event is fully attributed; a factory event carries the
    caller's correlation ID when there is one. *)
Lemma Event_Validate_spec `{JSON} e :
  Event_Validate e = None ↔
    ev_Timestamp e ≠ 0 ∧ ev_Source e ≠ "" ∧ ev_EventType e ≠ "" ∧ Rank (ev_Severity e) ≠ 0
    ∧ validateUUID (ev_CorrelationID e) = None ∧ json_Valid (ev_Payload e) = true.
Proof.
  unfold Event_Validate, IsZero.
  destruct (Z.eqb_spec (ev_Timestamp e) 0), (Z.eqb_spec (Rank (ev_Severity e)) 0);
    repeat case_bool_decide; simpl; destruct (validateUUID _), (json_Valid _); simpl; naive_solver.
Qed.

Lemma emit_with_none `{JSON} {A} `{!Marshaler A} {W} `{!Publisher W} env ctx source ty sev (a : A) corr
    (p : option W) :
  p = None → emit_with env ctx source ty sev a corr p = (None, None).
Proof. by intros ->. Qed.

(** An event the factory builds is valid and carries what it was built from.
    *)
Theorem Factory_New_valid `{JSON} {A} `{!Marshaler A} now fresh source ty sev (a : A) corr event :
  Factory_New now fresh source ty sev a corr = (event, None) →
  Event_Validate event = None
  ∧ ev_Timestamp event = now ∧ ev_EventType event = ty ∧ ev_Severity event = sev
  ∧ json_Marshal a = inr (ev_Payload event)
  ∧ ev_CorrelationID event = (if decide (corr = "") then fresh.1 else corr).
Proof.
  unfold Factory_New. destruct (json_Marshal a) as [err|enc]; [done|].
  destruct fresh as [fid ferr]; simpl. case_bool_decide; case_decide; try done.
  - destruct ferr; [done|]. intros [= <- Hv]. done.
  - intros [= <- Hv]. done.
Qed.
