(* ===== verification/Bus.v ===== *)
(** * The event bus: [internal/events/bus.go]

    Subscriptions are pointers in the source, shared between the handler lists
    and the callers who unsubscribe, so they live in a store [b_subs] and the
    lists hold their addresses. A handler is a number interpreted by [invoke],
    which may change the world and the bus itself (unsubscribe, publish again).
    The slot channel is its occupancy [b_slots] against [b_capacity]. *)

From Stdlib Require Import ZArith Lia String.
From stdpp Require Import base gmap strings list.
From S2P Require Import Prelude Domain Health Events.

Definition ErrClosed : error := ErrVar "events.ErrClosed".
Definition ErrBackpressure : error := ErrVar "events.ErrBackpressure".

Record subscription := mkSubscription {
  s_topic : EventType;
  s_handler : nat;
  s_active : bool
}.

Record Bus := mkBus {
  b_handlers : gmap string (list nat);
  b_subs : gmap nat subscription;
  b_next : nat;
  b_closed : bool;
  b_slots : nat;
  b_capacity : nat
}.

Definition NewBus (capacities : list Z) : Bus :=
  let capacity := match capacities with [] => 64 | c :: _ => c end in
  let capacity := if capacity <? 1 then 1 else capacity in
  mkBus ∅ ∅ 0 false 0 (Z.to_nat capacity).

Definition Bus_Start (b : Bus) : option error :=
  when b_closed b yield Some ErrClosed;; None.

Definition Bus_Stop (b : Bus) : Bus :=
  mkBus ∅ (b_subs b) (b_next b) true (b_slots b) (b_capacity b).

Definition Bus_Health (now : Time) (b : Bus) : Status :=
  NewStatus "events" (if b_closed b then StateUnhealthy else StateHealthy)
    (if b_closed b then "event bus is closed" else "") (UTC now).

Definition set_slots (n : nat) (b : Bus) : Bus :=
  mkBus (b_handlers b) (b_subs b) (b_next b) (b_closed b) n (b_capacity b).

(** A nil handler is [None]. *)
Definition Subscribe (topic : EventType) (handler : option nat) (b : Bus) :
    Bus * (option nat * option error) :=
  match handler with
  | None => (b, (None, Some (ErrNew "event type and handler are required")))
  | Some h =>
      when bool_decide (topic = "") yield
        (b, (None, Some (ErrNew "event type and handler are required")));;
      when b_closed b yield (b, (None, Some ErrClosed));;
      let s := b_next b in
      (mkBus (<[topic := default [] (b_handlers b !! topic) ++ [s]]> (b_handlers b))
             (<[s := mkSubscription topic h true]> (b_subs b))
             (S s) (b_closed b) (b_slots b) (b_capacity b),
       (Some s, None))
  end.

Definition deactivate (s : subscription) : subscription :=
  mkSubscription (s_topic s) (s_handler s) false.

Definition Unsubscribe (s : nat) (b : Bus) : Bus :=
  mkBus (b_handlers b) (alter deactivate s (b_subs b)) (b_next b) (b_closed b)
        (b_slots b) (b_capacity b).

Section bus.
Context `{JSON} {W : Type}.
Context (invoke : nat → Context → Event → Bus * W → option error * (Bus * W)).

(** The delivery loop of [Publish] over the handlers it copied. *)
Fixpoint deliver (ctx : Context) (event : Event) (handlers : list nat) (failures : list error)
    (st : Bus * W) : option error * (Bus * W) :=
  match handlers with
  | [] => (errors_Join (Some <$> failures), st)
  | s :: rest =>
      iferr ctx_Err ctx as err yield (errors_Join (Some <$> (failures ++ [err])), st);;
      match b_subs st.1 !! s with
      | None => deliver ctx event rest failures st
      | Some sub =>
          when negb (s_active sub) yield deliver ctx event rest failures st;;
          let '(err, st) := invoke (s_handler sub) ctx event st in
          match err with
          | Some err =>
              deliver ctx event rest
                (failures ++ [ErrWrap ("handler for " +:+ s_topic sub) err]) st
          | None => deliver ctx event rest failures st
          end
      end
  end.

Definition Bus_Publish (ctx : Context) (event : Event) (st : Bus * W) : option error * (Bus * W) :=
  let '(b, w) := st in
  when b_closed b yield (Some ErrClosed, st);;
  iferr Event_Validate event as err yield (Some err, st);;
  when negb (Nat.ltb (b_slots b) (b_capacity b)) yield (Some ErrBackpressure, st);;
  let b := set_slots (S (b_slots b)) b in
  when b_closed b yield (Some ErrClosed, (set_slots (pred (b_slots b)) b, w));;
  let handlers := default [] (b_handlers b !! ev_EventType event) in
  let '(err, (b, w)) := deliver ctx event handlers [] (b, w) in
  (err, (set_slots (pred (b_slots b)) b, w)).

#[export] Instance Bus_Publisher : Publisher (Bus * W) := { Publish := Bus_Publish }.
End bus.

(** ** Well-formed buses *)

(** Every address in a handler list is a live subscription of that topic, a
    closed bus has no registrations, and the slots are within capacity. *)
Record bus_wf (b : Bus) : Prop := {
  wf_subs : ∀ topic l s, b_handlers b !! topic = Some l → s ∈ l →
    ∃ sub, b_subs b !! s = Some sub ∧ s_topic sub = topic;
  wf_nodup : ∀ topic l, b_handlers b !! topic = Some l → NoDup l;
  wf_fresh : ∀ s, is_Some (b_subs b !! s) → (s < b_next b)%nat;
  wf_closed : b_closed b = true → b_handlers b = ∅;
  wf_slots : (b_slots b ≤ b_capacity b)%nat;
  wf_capacity : (1 ≤ b_capacity b)%nat
}.

Lemma NewBus_wf capacities : bus_wf (NewBus capacities).
Proof.
  unfold NewBus. split; simpl; try done.
  - intros s [? Hs]. by rewrite lookup_empty in Hs.
  - lia.
  - destruct (match _ with [] => _ | _ => _ end <? 1) eqn:E; go_bool; lia.
Qed.

Lemma Bus_Stop_wf b : bus_wf b → bus_wf (Bus_Stop b).
Proof. intros []. split; simpl; try done. Qed.

Lemma Unsubscribe_wf s b : bus_wf b → bus_wf (Unsubscribe s b).
Proof.
  intros []. split; simpl; try done.
  - intros topic l i Hl Hi. destruct (wf_subs0 topic l i Hl Hi) as (sub & Hsub & Ht).
    rewrite lookup_alter. case_decide; subst; rewrite Hsub; simpl; eauto.
  - intros i. rewrite lookup_alter. case_decide; subst; rewrite ?fmap_is_Some; eauto.
Qed.

Lemma Subscribe_wf topic h b : bus_wf b → bus_wf (Subscribe topic h b).1.
Proof.
  intros Hwf. pose proof Hwf as []. unfold Subscribe.
  destruct h as [h|]; [|done]. case_bool_decide; [done|].
  destruct (b_closed b) eqn:Hc; [done|].
  assert (∀ t l i, b_handlers b !! t = Some l → i ∈ l → i ≠ b_next b) as Hlt.
  { intros t l i Hl Hi ->. destruct (wf_subs0 _ _ _ Hl Hi) as (sub & Hsub & _).
    pose proof (wf_fresh0 (b_next b) ltac:(eauto)). lia. }
  split; simpl; try done.
  - intros t l i. rewrite lookup_insert_Some. intros [[<- <-]|[Hne Hl]] Hi.
    + rewrite elem_of_app, list_elem_of_singleton in Hi. destruct Hi as [Hi| ->].
      * destruct (b_handlers b !! topic) as [l|] eqn:Hl; simpl in Hi; [|by apply elem_of_nil in Hi].
        rewrite lookup_insert_ne by (symmetry; eauto). eauto.
      * rewrite lookup_insert_eq. eauto.
    + rewrite lookup_insert_ne by (symmetry; eauto). eauto.
  - intros t l. rewrite lookup_insert_Some. intros [[<- <-]|[Hne Hl]]; [|eauto].
    destruct (b_handlers b !! topic) as [l|] eqn:Hl; simpl; [|apply NoDup_singleton].
    apply NoDup_app. split_and!; [eauto| |apply NoDup_singleton].
    intros i Hi ->%list_elem_of_singleton. by eapply Hlt.
  - intros i. rewrite lookup_insert. case_decide; [lia|]. intros Hi. apply wf_fresh0 in Hi. lia.
Qed.

(** ** Delivery as a reference fold

    A handler [eff h] that does not touch the bus acts on the world only; the
    reference runs the subscriptions active at publication, in registration
    order, and collects the failures. *)
Section delivery.
Context `{JSON} {W : Type} (eff : nat → Event → W → option error * W).

Definition invoke_eff (h : nat) (ctx : Context) (event : Event) (st : Bus * W) :
    option error * (Bus * W) :=
  let '(err, w) := eff h event st.2 in (err, (st.1, w)).

Definition active_subs (b : Bus) (topic : EventType) : list subscription :=
  filter (fun s => s_active s = true)
    (omap (fun s => b_subs b !! s) (default [] (b_handlers b !! topic))).

Fixpoint run_subs (event : Event) (subs : list subscription) (w : W) : list error * W :=
  match subs with
  | [] => ([], w)
  | s :: rest =>
      let '(err, w) := eff (s_handler s) event w in
      let '(errs, w) := run_subs event rest w in
      (match err with
       | Some e => ErrWrap ("handler for " +:+ s_topic s) e :: errs
       | None => errs
       end, w)
  end.

Lemma deliver_run ctx event hs failures (b : Bus) w :
  ctx_Err ctx = None →
  deliver invoke_eff ctx event hs failures (b, w) =
    let '(errs, w') :=
      run_subs event (filter (fun s => s_active s = true) (omap (fun s => b_subs b !! s) hs)) w in
    (errors_Join (Some <$> (failures ++ errs)), (b, w')).
Proof.
  intros Hctx. revert failures w.
  induction hs as [|s hs IH]; intros failures w; simpl.
  { by rewrite app_nil_r. }
  rewrite Hctx. destruct (b_subs b !! s) as [sub|]; simpl; [|by rewrite IH].
  rewrite filter_cons. destruct (s_active sub); simpl; [|by rewrite IH].
  unfold invoke_eff at 1. simpl.
  destruct (eff (s_handler sub) event w) as [[err|] w']; rewrite IH;
    destruct (run_subs event _ w') as [errs w'']; [|done].
  by rewrite <- (assoc_L (++)).
Qed.

Lemma set_slots_back b : set_slots (b_slots b) (set_slots (S (b_slots b)) b) = b.
Proof. by destruct b. Qed.

(** Publishing a valid event on an open bus with a free slot runs the handler
    of every subscription of its type that is still active, in subscription
    order and whether or not earlier ones fail, and answers the join of their
    failures. *)
Theorem Bus_Publish_delivers_all ctx event (b : Bus) (w : W) :
  ctx_Err ctx = None → b_closed b = false → Event_Validate event = None →
  (b_slots b < b_capacity b)%nat →
  Bus_Publish invoke_eff ctx event (b, w) =
    let '(errs, w') := run_subs event (active_subs b (ev_EventType event)) w in
    (errors_Join (Some <$> errs), (b, w')).
Proof.
  intros Hctx Hopen Hv Hslot. unfold Bus_Publish. simpl.
  rewrite Hopen, Hv. apply Nat.ltb_lt in Hslot as ->. simpl. rewrite ?Hopen.
  rewrite deliver_run by done. unfold active_subs. simpl.
  destruct (run_subs event _ w) as [errs w']. simpl. by rewrite set_slots_back.
Qed.
End delivery.

(** ** Refusals and bounds, for arbitrary handlers *)
Section refusals.
Context `{JSON} {W : Type}.
Context (invoke : nat → Context → Event → Bus * W → option error * (Bus * W)).

(** A closed bus, an invalid event or a bus whose slots are all taken refuses
    a publication with an error, without running any handler and without
    changing the bus. *)
Theorem Bus_Publish_refusals ctx event (b : Bus) (w : W) :
  b_closed b = true ∨ Event_Validate event ≠ None ∨ (b_capacity b ≤ b_slots b)%nat →
  ∃ err, Bus_Publish invoke ctx event (b, w) = (Some err, (b, w))
    ∧ (b_closed b = true → err = ErrClosed)
    ∧ (b_closed b = false → Event_Validate event = None → err = ErrBackpressure).
Proof.
  intros Hor. unfold Bus_Publish. destruct (b_closed b) eqn:Hc.
  { eexists. by split_and!. }
  destruct (Event_Validate event) eqn:Hv.
  { eexists. by split_and!. }
  destruct (Nat.ltb_spec (b_slots b) (b_capacity b)); simpl.
  2: { eexists. by split_and!. }
  destruct Hor as [?|[?|?]]; [done|done|lia].
Qed.

Lemma deliver_slots ctx event hs failures (st : Bus * W) :
  (∀ h st, b_slots (invoke h ctx event st).2.1 = b_slots st.1
           ∧ b_capacity (invoke h ctx event st).2.1 = b_capacity st.1) →
  b_slots (deliver invoke ctx event hs failures st).2.1 = b_slots st.1
  ∧ b_capacity (deliver invoke ctx event hs failures st).2.1 = b_capacity st.1.
Proof.
  intros Hbal. revert failures st. induction hs as [|s hs IH]; intros failures st; simpl; [done|].
  destruct (ctx_Err ctx); [done|]. destruct (b_subs st.1 !! s) as [sub|]; [|apply IH].
  destruct (s_active sub); simpl; [|apply IH].
  pose proof (Hbal (s_handler sub) st) as [Hs Hc].
  destruct (invoke (s_handler sub) ctx event st) as [[err|] st']; simpl in *;
    rewrite <- Hs, <- Hc; apply IH.
Qed.

(** A publication gives back the slot it takes, when the handlers do. *)
Theorem Bus_Publish_slots ctx event (st : Bus * W) :
  (∀ h st, b_slots (invoke h ctx event st).2.1 = b_slots st.1
           ∧ b_capacity (invoke h ctx event st).2.1 = b_capacity st.1) →
  b_slots (Bus_Publish invoke ctx event st).2.1 = b_slots st.1
  ∧ b_capacity (Bus_Publish invoke ctx event st).2.1 = b_capacity st.1.
Proof.
  intros Hbal. destruct st as [b w]. unfold Bus_Publish. simpl.
  destruct (b_closed b) eqn:Hc; [done|]. destruct (Event_Validate event); [done|].
  destruct (Nat.ltb _ _); simpl; [|done]. rewrite ?Hc.
  pose proof (deliver_slots ctx event (default [] (b_handlers b !! ev_EventType event)) []
    (set_slots (S (b_slots b)) b, w) Hbal) as [Hs Hcap].
  simpl in Hs, Hcap. destruct (deliver _ _ _ _ _ _) as [err [b' w']]. simpl in *.
  rewrite Hs. done.
Qed.
End refusals.
