(* ===== verification/State.v ===== *)
(** * Canonical state: [internal/state/manager.go]

    The revisioned store with its bounded subscriptions. A subscription is a
    pointer in the source: its channel lives in [m_channels], and
    [m_subscribers] is the set of registered addresses. A channel records its
    buffer, its capacity, whether it is open, and two histories used only in
    statements: what its consumer has received, and how many updates were
    offered to it. A consumer may receive while an offer is in progress;
    [taken] says how many updates it takes between the two [select]s. *)

From Stdlib Require Import ZArith Lia String.
From stdpp Require Import base gmap strings list sorting.
From S2P Require Import Prelude Domain Health Events.

Definition ErrStateNotFound : error := ErrVar "state.ErrNotFound".

Inductive EntityKind := EntitySensor | EntityEquipment | EntityKindOther (s : string).
Inductive Plane := PlaneObservation | PlaneDesired | PlaneReported | PlaneOther (s : string).

#[export] Instance EntityKind_eq_dec : EqDecision EntityKind.
Proof. solve_decision. Defined.
#[export] Instance Plane_eq_dec : EqDecision Plane.
Proof. solve_decision. Defined.

#[export] Program Instance EntityKind_countable : Countable EntityKind :=
  inj_countable' (A := option bool + string)
    (fun k => match k with EntitySensor => inl None | EntityEquipment => inl (Some true)
              | EntityKindOther s => inr s end)
    (fun x => match x with inl None => EntitySensor | inl (Some _) => EntityEquipment
              | inr s => EntityKindOther s end) _.
Next Obligation. by intros []. Qed.
#[export] Program Instance Plane_countable : Countable Plane :=
  inj_countable' (A := option bool + string)
    (fun p => match p with PlaneObservation => inl None | PlaneDesired => inl (Some true)
              | PlaneReported => inl (Some false) | PlaneOther s => inr s end)
    (fun x => match x with inl None => PlaneObservation | inl (Some true) => PlaneDesired
              | inl (Some false) => PlaneReported | inr s => PlaneOther s end) _.
Next Obligation. by intros []. Qed.

Record Key := mkKey {
  k_EntityKind : EntityKind;
  k_EntityID : EntityID;
  k_Plane : Plane;
  k_Attribute : string
}.

#[export] Instance Key_eq_dec : EqDecision Key.
Proof. solve_decision. Defined.
#[export] Program Instance Key_countable : Countable Key :=
  inj_countable' (fun k => (k_EntityKind k, k_EntityID k, k_Plane k, k_Attribute k))
    (fun '(a, b, c, d) => mkKey a b c d) _.
Next Obligation. by intros []. Qed.

Record StateValue := mkStateValue {
  sv_Key : Key;
  sv_Value : Value;
  sv_Quality : Quality;
  sv_ObservedAt : Time;
  sv_ReceivedAt : Time;
  sv_FreshFor : Duration;
  sv_Source : EndpointID;
  sv_Revision : Revision
}.

Definition zero_Key : Key := mkKey (EntityKindOther "") "" (PlaneOther "") "".
Definition zero_Value : Value := mkValue (ValueKindOther "") None None None.
Definition zero_StateValue : StateValue :=
  mkStateValue zero_Key zero_Value (QualityOther "") 0 0 0 "" 0.

Record Snapshot := mkSnapshot { snap_Revision : Revision; snap_Values : list StateValue }.
Record Update := mkUpdate { u_Snapshot : Snapshot; u_Dropped : Z }.

Record Channel := mkChannel {
  ch_buffer : list Update;
  ch_capacity : nat;
  ch_open : bool;
  ch_received : list Update;
  ch_offered : Z
}.

Record StateManager := mkStateManager {
  m_values : gmap Key StateValue;
  m_started : bool;
  m_revision : Revision;
  m_subscribers : gset Z;
  m_channels : gmap Z Channel;
  m_nextSubscriber : Z
}.

Definition NewStateManager : StateManager := mkStateManager ∅ false 0 ∅ ∅ 0.

(** ** Helpers *)
Definition EntityKind_string (k : EntityKind) : string :=
  match k with EntitySensor => "sensor" | EntityEquipment => "equipment" | EntityKindOther s => s end.
Definition Plane_string (p : Plane) : string :=
  match p with PlaneObservation => "observation" | PlaneDesired => "desired"
  | PlaneReported => "reported" | PlaneOther s => s end.

Definition keyString (key : Key) : string :=
  EntityKind_string (k_EntityKind key) +:+ "/" +:+ k_EntityID key +:+ "/"
  +:+ Plane_string (k_Plane key) +:+ "/" +:+ k_Attribute key.

Definition set_quality (q : Quality) (v : StateValue) : StateValue :=
  mkStateValue (sv_Key v) (sv_Value v) q (sv_ObservedAt v) (sv_ReceivedAt v) (sv_FreshFor v)
    (sv_Source v) (sv_Revision v).
Definition set_revision (r : Revision) (v : StateValue) : StateValue :=
  mkStateValue (sv_Key v) (sv_Value v) (sv_Quality v) (sv_ObservedAt v) (sv_ReceivedAt v)
    (sv_FreshFor v) (sv_Source v) r.

Definition clone (v : StateValue) : StateValue :=
  mkStateValue (sv_Key v) (Value_Clone (sv_Value v)) (sv_Quality v) (sv_ObservedAt v)
    (sv_ReceivedAt v) (sv_FreshFor v) (sv_Source v) (sv_Revision v).
Definition cloneSnapshot (s : Snapshot) : Snapshot :=
  mkSnapshot (snap_Revision s) (clone <$> snap_Values s).

(** Freshness at [now], as [Get] and [snapshotLocked] apply it. *)
Definition freshen (now : Time) (v : StateValue) : StateValue :=
  if negb (Before now (Add (sv_ObservedAt v) (sv_FreshFor v)))
  then set_quality QualityStale v else v.

Definition validate (value : StateValue) : option error :=
  let key := sv_Key value in
  when negb (bool_decide (k_EntityKind key = EntitySensor))
       && negb (bool_decide (k_EntityKind key = EntityEquipment)) yield
    Some (ErrNew "unsupported entity kind");;
  when negb (bool_decide (k_Plane key = PlaneObservation))
       && negb (bool_decide (k_Plane key = PlaneDesired))
       && negb (bool_decide (k_Plane key = PlaneReported)) yield
    Some (ErrNew "unsupported state plane");;
  when bool_decide (k_EntityKind key = EntitySensor)
       && negb (bool_decide (k_Plane key = PlaneObservation)) yield
    Some (ErrNew "sensor state must use observation plane");;
  when bool_decide (k_EntityKind key = EntityEquipment)
       && bool_decide (k_Plane key = PlaneObservation) yield
    Some (ErrNew "equipment state must use desired or reported plane");;
  iferr validateUUID (k_EntityID key) as err yield Some (ErrWrap "entity ID" err);;
  when bool_decide (k_Attribute key = "") yield Some (ErrNew "state attribute is required");;
  iferr Value_Validate (sv_Value value) as err yield Some err;;
  when negb (validQuality (sv_Quality value)) yield Some (ErrNew "unsupported state quality");;
  when IsZero (sv_ObservedAt value) || IsZero (sv_ReceivedAt value)
       || After (sv_ObservedAt value) (sv_ReceivedAt value) yield
    Some (ErrNew "invalid state timestamps");;
  when sv_FreshFor value <=? 0 yield Some (ErrNew "freshness duration must be positive");;
  iferr validateUUID (sv_Source value) as err yield Some (ErrWrap "source endpoint" err);;
  None.

(** ** Snapshots and fan-out *)
Definition snapshotLocked (now : Time) (m : StateManager) : Snapshot :=
  mkSnapshot (m_revision m)
    (sort_by (keyString ∘ sv_Key) ((freshen now ∘ clone) <$> values (m_values m))).

(** One subscriber of [deliverLocked]. *)
Definition offer (taken : nat) (snapshot : Snapshot) (c : Channel) : Channel :=
  let update := mkUpdate (cloneSnapshot snapshot) 0 in
  let offered := ch_offered c + 1 in
  if Nat.ltb (length (ch_buffer c)) (ch_capacity c) then
    mkChannel (ch_buffer c ++ [update]) (ch_capacity c) (ch_open c) (ch_received c) offered
  else
    let received := ch_received c ++ take taken (ch_buffer c) in
    match drop taken (ch_buffer c) with
    | previous :: buffer =>
        let update := mkUpdate (u_Snapshot update) (wrap_uint64 (u_Dropped previous + 1)) in
        mkChannel (buffer ++ [update]) (ch_capacity c) (ch_open c) received offered
    | [] => mkChannel [update] (ch_capacity c) (ch_open c) received offered
    end.

Definition deliverLocked (taken : Z → nat) (snapshot : Snapshot) (m : StateManager) : StateManager :=
  mkStateManager (m_values m) (m_started m) (m_revision m) (m_subscribers m)
    (map_imap (fun id c =>
       Some (if bool_decide (id ∈ m_subscribers m) then offer (taken id) snapshot c else c))
       (m_channels m))
    (m_nextSubscriber m).

(** ** Operations *)
Definition StateManager_Start (ctx : Context) (m : StateManager) : StateManager * option error :=
  (mkStateManager (m_values m) true (m_revision m) (m_subscribers m) (m_channels m)
     (m_nextSubscriber m), None).

Definition close_channel (c : Channel) : Channel :=
  mkChannel (ch_buffer c) (ch_capacity c) false (ch_received c) (ch_offered c).

Definition StateManager_Stop (ctx : Context) (m : StateManager) : StateManager * option error :=
  (mkStateManager (m_values m) false (m_revision m) ∅
     (map_imap (fun id c =>
        Some (if bool_decide (id ∈ m_subscribers m) then close_channel c else c)) (m_channels m))
     (m_nextSubscriber m), None).

Definition StateManager_Health (now : Time) (m : StateManager) : Status :=
  lifecycle_status "state" (m_started m) now.

#[export] Instance StateManager_Component : Component StateManager := {
  comp_Name := fun _ => "state"; comp_Start := StateManager_Start;
  comp_Stop := StateManager_Stop; comp_Health := StateManager_Health }.
#[export] Instance StateManager_Flag : FlagComponent StateManager.
Proof. by refine {| flag_started := m_started |}. Defined.

(** The locked part of [Set]: the value it stores and the new manager. *)
Definition set_locked (now : Time) (taken : Z → nat) (value : StateValue) (m : StateManager) :
    StateValue * StateManager :=
  let revision := wrap_uint64 (m_revision m + 1) in
  let value := set_revision revision (clone value) in
  let m := mkStateManager (<[sv_Key value := value]> (m_values m)) (m_started m) revision
             (m_subscribers m) (m_channels m) (m_nextSubscriber m) in
  (value, deliverLocked taken (snapshotLocked now m) m).

Section publish.
Context `{JSON} `{!Marshaler StateValue} {W : Type} `{!Publisher W}.

Definition StateManager_Set (env : FactoryEnv) (ctx : Context) (now : Time) (taken : Z → nat)
    (value : StateValue) (m : StateManager) (publisher : option W) :
    StateManager * option W * (StateValue * option error) :=
  iferr ctx_Err ctx as err yield (m, publisher, (zero_StateValue, Some err));;
  iferr validate value as err yield (m, publisher, (zero_StateValue, Some err));;
  let '(value, m) := set_locked now taken value m in
  let '(err, publisher) :=
    emit_with env ctx "state" StateChanged SeverityInfo value (ctx_CorrelationID ctx) publisher in
  iferr err as err yield (m, publisher, (zero_StateValue, Some err));;
  (m, publisher, (clone value, None)).
End publish.

Definition StateManager_Get (ctx : Context) (now : Time) (key : Key) (m : StateManager) :
    StateValue * option error :=
  iferr ctx_Err ctx as err yield (zero_StateValue, Some err);;
  match m_values m !! key with
  | None => (zero_StateValue, Some ErrStateNotFound)
  | Some value => (freshen now (clone value), None)
  end.

Definition StateManager_Snapshot (ctx : Context) (now : Time) (m : StateManager) :
    Snapshot * option error :=
  iferr ctx_Err ctx as err yield (mkSnapshot 0 [], Some err);;
  (snapshotLocked now m, None).

Definition StateManager_Delete (ctx : Context) (now : Time) (taken : Z → nat) (key : Key)
    (m : StateManager) : StateManager * option error :=
  iferr ctx_Err ctx as err yield (m, Some err);;
  match m_values m !! key with
  | None => (m, Some ErrStateNotFound)
  | Some _ =>
      let m := mkStateManager (delete key (m_values m)) (m_started m)
                 (wrap_uint64 (m_revision m + 1)) (m_subscribers m) (m_channels m)
                 (m_nextSubscriber m) in
      (deliverLocked taken (snapshotLocked now m) m, None)
  end.

Definition StateManager_Subscribe (ctx : Context) (now : Time) (capacity : Z) (m : StateManager) :
    StateManager * (option Z * option error) :=
  iferr ctx_Err ctx as err yield (m, (None, Some err));;
  when (capacity <? 1) || (1024 <? capacity) yield
    (m, (None, Some (ErrNew "subscription capacity must be between 1 and 1024")));;
  let id := wrap_uint64 (m_nextSubscriber m + 1) in
  let channel := mkChannel [mkUpdate (snapshotLocked now m) 0] (Z.to_nat capacity) true [] 1 in
  (mkStateManager (m_values m) (m_started m) (m_revision m) ({[id]} ∪ m_subscribers m)
     (<[id := channel]> (m_channels m)) id, (Some id, None)).

(** [Close] of a subscription, through [removeSubscription]. *)
Definition removeSubscription (id : Z) (m : StateManager) : StateManager :=
  if bool_decide (id ∈ m_subscribers m) then
    mkStateManager (m_values m) (m_started m) (m_revision m) (m_subscribers m ∖ {[id]})
      (alter close_channel id (m_channels m)) (m_nextSubscriber m)
  else m.

(** The consumer side: one receive from [Updates()]. *)
Definition receive (c : Channel) : option (Update * Channel) :=
  match ch_buffer c with
  | [] => None
  | u :: buffer =>
      Some (u, mkChannel buffer (ch_capacity c) (ch_open c) (ch_received c ++ [u]) (ch_offered c))
  end.

(** ** Copies are identities on values *)
Lemma clone_id v : clone v = v.
Proof. destruct v. unfold clone. simpl. by rewrite Value_Clone_id. Qed.
Lemma cloneSnapshot_id s : cloneSnapshot s = s.
Proof.
  destruct s as [r vs]. unfold cloneSnapshot. simpl. f_equal.
  induction vs as [|v vs IH]; [done|]. by rewrite fmap_cons, clone_id, IH.
Qed.
#[export] Hint Rewrite clone_id cloneSnapshot_id : clone.

Lemma freshen_key now v : sv_Key (freshen now v) = sv_Key v.
Proof. unfold freshen. by destruct (negb _). Qed.

Lemma freshen_good now v :
  sv_Quality (freshen now v) = QualityGood ↔
    sv_Quality v = QualityGood ∧ now < sv_ObservedAt v + sv_FreshFor v.
Proof.
  unfold freshen, Before, Add. destruct (Z.ltb_spec now (sv_ObservedAt v + sv_FreshFor v));
    simpl; intuition (try discriminate; lia).
Qed.

(** ** The rendered key identifies a valid key *)
Lemma string_app_inj_length (a b c d : string) :
  String.length a = String.length b → a +:+ c = b +:+ d → a = b ∧ c = d.
Proof.
  revert b. induction a as [|x a IH]; intros [|y b] Hlen Heq; simplify_eq/=; [done|].
  destruct (IH b ltac:(lia) ltac:(done)) as [-> ->]. done.
Qed.

Lemma length_bytes_of s : length (bytes_of s) = String.length s.
Proof. induction s; simpl; congruence. Qed.

Definition valid_key (k : Key) : Prop :=
  (k_EntityKind k = EntitySensor ∧ k_Plane k = PlaneObservation
   ∨ k_EntityKind k = EntityEquipment ∧ (k_Plane k = PlaneDesired ∨ k_Plane k = PlaneReported))
  ∧ validateUUID (k_EntityID k) = None ∧ k_Attribute k ≠ "".

Lemma validate_valid_key v : validate v = None → valid_key (sv_Key v).
Proof.
  unfold validate, valid_key. destruct (sv_Key v) as [[] id [] attr]; simpl;
    try done; destruct (validateUUID id); try done; case_bool_decide; naive_solver.
Qed.

(** Valid keys with the same rendering are equal: kinds and planes are fixed
    texts, identifiers have one length, and the attribute comes last. *)
Lemma keyString_injective k1 k2 :
  valid_key k1 → valid_key k2 → keyString k1 = keyString k2 → k1 = k2.
Proof.
  intros (Hk1 & Hid1 & _) (Hk2 & Hid2 & _) Heq.
  apply validateUUID_spec in Hid1 as [Hl1 _]. apply validateUUID_spec in Hid2 as [Hl2 _].
  rewrite length_bytes_of in Hl1, Hl2.
  destruct k1 as [ek1 id1 p1 a1], k2 as [ek2 id2 p2 a2]; simpl in *.
  assert (ek1 = ek2) as ->.
  { destruct Hk1 as [[-> _]|[-> _]], Hk2 as [[-> _]|[-> _]]; done. }
  unfold keyString in Heq. simpl in Heq.
  apply (inj (String.append _)), (inj (String.append "/")) in Heq.
  apply string_app_inj_length in Heq as [-> Heq]; [|congruence].
  apply (inj (String.append "/")) in Heq.
  assert (p1 = p2) as ->.
  { destruct Hk1 as [[-> ->]|[-> [-> | ->]]], Hk2 as [[? ->]|[? [-> | ->]]]; done. }
  apply (inj (String.append _)), (inj (String.append "/")) in Heq as ->. done.
Qed.

(** ** Channels *)

(** Updates delivered stand for themselves and for those they superseded. *)
Definition tally (us : list Update) : Z := foldr (fun u n => u_Dropped u + 1 + n) 0 us.

Lemma tally_cons u us : tally (u :: us) = u_Dropped u + 1 + tally us.
Proof. done. Qed.
Lemma tally_app us vs : tally (us ++ vs) = tally us + tally vs.
Proof. unfold tally. induction us; simpl; lia. Qed.

Record channel_ok (c : Channel) : Prop := {
  co_capacity : (1 ≤ ch_capacity c ≤ 1024)%nat;
  co_bounded : (length (ch_buffer c) ≤ ch_capacity c)%nat;
  co_dropped : Forall (fun u => 0 ≤ u_Dropped u) (ch_received c ++ ch_buffer c);
  co_tally : ch_offered c < 2 ^ 64 → tally (ch_received c ++ ch_buffer c) = ch_offered c
}.

Lemma tally_nonneg us : Forall (fun u => 0 ≤ u_Dropped u) us → 0 ≤ tally us.
Proof. induction 1; unfold tally in *; simpl in *; lia. Qed.

(** Offering never blocks, keeps the count of superseded updates exact and
    leaves the offered snapshot newest. *)
Lemma offer_ok taken snapshot c :
  channel_ok c →
  channel_ok (offer taken snapshot c)
  ∧ u_Snapshot <$> last (ch_buffer (offer taken snapshot c)) = Some snapshot
  ∧ ch_offered (offer taken snapshot c) = ch_offered c + 1.
Proof.
  intros [Hcap Hlen Hdrop Htally]. unfold offer. autorewrite with clone.
  destruct (Nat.ltb_spec (length (ch_buffer c)) (ch_capacity c)).
  - split_and!; [|cbn [ch_buffer]; by rewrite last_snoc|done]. split; simpl; try lia.
    + rewrite length_app. simpl. lia.
    + rewrite (assoc_L (++)). apply Forall_app_2; [done|]. by constructor.
    + intros. rewrite (assoc_L (++)), tally_app, Htally by lia. done.
  - rewrite <- (take_drop taken (ch_buffer c)) in Hdrop, Htally, Hlen.
    rewrite length_app in Hlen. rewrite (assoc_L (++)) in Hdrop, Htally.
    apply Forall_app in Hdrop as [Hd1 Hd2]. pose proof (tally_nonneg _ Hd1).
    destruct (drop taken (ch_buffer c)) as [|previous buffer].
    + split_and!; [|done..]. split; simpl; try lia;
        [apply Forall_app_2; [done|by constructor]|].
      intros. rewrite app_nil_r in Htally. rewrite tally_app, Htally by lia. done.
    + split_and!; [|cbn [ch_buffer]; by rewrite last_snoc|done]. simpl in Hlen.
      apply Forall_cons in Hd2 as [Hp Hb]. pose proof (tally_nonneg _ Hb).
      split; simpl; try lia.
      * rewrite length_app. simpl. lia.
      * apply Forall_app_2; [done|]. apply Forall_app_2; [done|]. constructor; [|done].
        apply wrap_uint64_range.
      * intros. specialize (Htally ltac:(lia)).
        rewrite tally_app, tally_cons in Htally.
        rewrite tally_app, (tally_app buffer), tally_cons. simpl.
        rewrite wrap_uint64_id; unfold in_uint64; lia.
Qed.

Lemma receive_ok u c c' : channel_ok c → receive c = Some (u, c') → channel_ok c'.
Proof.
  intros [Hcap Hlen Hdrop Htally] Hr. unfold receive in Hr.
  destruct (ch_buffer c) as [|v buffer]; [done|]. injection Hr as <- <-.
  split; simpl in *; [lia..| |]; rewrite <- (assoc_L (++)); done.
Qed.

(** ** The manager invariant *)

Record manager_ok (m : StateManager) : Prop := {
  mo_keyed : keyed sv_Key (m_values m);
  mo_valid : ∀ k v, m_values m !! k = Some v → validate v = None;
  mo_revision : in_uint64 (m_revision m);
  mo_subscribers : ∀ id, id ∈ m_subscribers m →
    ∃ c, m_channels m !! id = Some c ∧ ch_open c = true;
  mo_channels : ∀ id c, m_channels m !! id = Some c → channel_ok c;
  mo_fresh : ∀ id, is_Some (m_channels m !! id) → id ≤ m_nextSubscriber m
}.

Lemma NewStateManager_ok : manager_ok NewStateManager.
Proof.
  split; simpl; unfold keyed, in_uint64; try lia; try set_solver;
    intros; simplify_map_eq; by destruct_and?; naive_solver.
Qed.

(** A per-channel update that keeps registered channels open keeps the
    channel part of the invariant. *)
Lemma channels_imap_ok (f : Z → Channel → Channel) (m : StateManager) values started revision subs :
  manager_ok m → keyed sv_Key values → (∀ k v, values !! k = Some v → validate v = None) →
  in_uint64 revision →
  (∀ id c, m_channels m !! id = Some c → channel_ok (f id c)) →
  subs ⊆ m_subscribers m →
  (∀ id c, id ∈ subs → ch_open (f id c) = ch_open c) →
  manager_ok (mkStateManager values started revision subs
    (map_imap (fun id c => Some (f id c)) (m_channels m)) (m_nextSubscriber m)).
Proof.
  intros [] Hkey Hval Hrev Hok Hsub Hopen.
  split; simpl; try done.
  - intros id Hid. destruct (mo_subscribers0 id (Hsub id Hid)) as (c & Hc & Ho).
    exists (f id c). rewrite map_lookup_imap, Hc. simpl. by rewrite Hopen.
  - intros id c. rewrite map_lookup_imap. destruct (m_channels m !! id) eqn:Hc; [|done].
    intros [= <-]. eauto.
  - intros id. rewrite map_lookup_imap. destruct (m_channels m !! id) eqn:Hc; simpl; [eauto|].
    by intros [? ?].
Qed.

Lemma offer_open taken s c : ch_open (offer taken s c) = ch_open c.
Proof.
  unfold offer. destruct (Nat.ltb _ _); [done|]. by destruct (drop taken (ch_buffer c)).
Qed.

Lemma deliverLocked_ok taken s m : manager_ok m → manager_ok (deliverLocked taken s m).
Proof.
  intros Hm. pose proof Hm as []. unfold deliverLocked.
  apply (channels_imap_ok (fun id c =>
    if bool_decide (id ∈ m_subscribers m) then offer (taken id) s c else c)); try done.
  - intros id c Hc. case_bool_decide; [|eauto]. apply offer_ok. eauto.
  - intros id c _. case_bool_decide; [|done]. apply offer_open.
Qed.

Lemma manager_ok_values m values revision :
  manager_ok m → keyed sv_Key values → (∀ k v, values !! k = Some v → validate v = None) →
  in_uint64 revision →
  manager_ok (mkStateManager values (m_started m) revision (m_subscribers m) (m_channels m)
                (m_nextSubscriber m)).
Proof. by intros [] ???; split. Qed.

Lemma set_locked_ok now taken v m :
  manager_ok m → validate v = None → manager_ok (set_locked now taken v m).2.
Proof.
  intros Hm Hv. unfold set_locked. simpl. rewrite clone_id.
  set (v' := set_revision _ v). apply deliverLocked_ok, manager_ok_values; [done|..].
  - change (sv_Key v) with (sv_Key v'). apply keyed_insert, Hm.
  - intros k w. rewrite lookup_insert_Some. intros [[_ <-]|[_ Hw]]; [done|].
    by eapply mo_valid.
  - apply wrap_uint64_range.
Qed.

Lemma Delete_ok ctx now taken k m : manager_ok m → manager_ok (StateManager_Delete ctx now taken k m).1.
Proof.
  intros Hm. unfold StateManager_Delete. destruct (ctx_Err ctx); [done|].
  destruct (m_values m !! k); [|done]. apply deliverLocked_ok, manager_ok_values; [done|..].
  - apply keyed_delete, Hm.
  - intros j w. rewrite lookup_delete_Some. intros [_ Hw]. by eapply mo_valid.
  - apply wrap_uint64_range.
Qed.

Lemma Subscribe_ok ctx now capacity m :
  m_nextSubscriber m < 2 ^ 64 - 1 → 0 ≤ m_nextSubscriber m →
  manager_ok m → manager_ok (StateManager_Subscribe ctx now capacity m).1.
Proof.
  intros Hlt Hge Hm. pose proof Hm as []. unfold StateManager_Subscribe.
  destruct (ctx_Err ctx); [done|]. destruct (_ || _) eqn:Hcap; [done|]. go_bool.
  rewrite wrap_uint64_id by (unfold in_uint64; lia).
  split; simpl; try done.
  - intros id. rewrite elem_of_union, elem_of_singleton. intros Hid. rewrite lookup_insert.
    case_decide as Heq; [eauto|]. destruct Hid; [congruence|eauto].
  - intros id c. rewrite lookup_insert_Some. intros [[_ <-]|[_ Hc]]; [|eauto].
    split; simpl; try lia. by repeat constructor.
  - intros id. rewrite lookup_insert. case_decide; [lia|]. intros Hs%mo_fresh0. lia.
Qed.

Lemma removeSubscription_ok id m : manager_ok m → manager_ok (removeSubscription id m).
Proof.
  intros Hm. pose proof Hm as []. unfold removeSubscription. case_bool_decide; [|done].
  split; simpl; try done.
  - intros i. rewrite elem_of_difference, elem_of_singleton. intros [Hi Hne].
    rewrite lookup_alter_ne by done. eauto.
  - intros i c. rewrite lookup_alter. case_decide; [|eauto]. subst.
    destruct (m_channels m !! i) as [d|] eqn:Hd; [|done]. intros [= <-].
    destruct (mo_channels0 i d Hd). by split.
  - intros i. rewrite lookup_alter. case_decide; subst; rewrite ?fmap_is_Some; eauto.
Qed.

Lemma Stop_ok ctx m : manager_ok m → manager_ok (StateManager_Stop ctx m).1.
Proof.
  intros Hm. pose proof Hm as []. unfold StateManager_Stop. simpl.
  apply (channels_imap_ok (fun id c =>
    if bool_decide (id ∈ m_subscribers m) then close_channel c else c)); try done.
  intros id c Hc. case_bool_decide; [|eauto]. destruct (mo_channels0 id c Hc). by split.
Qed.

(** ** Histories of the store *)
Section steps.
Context `{JSON} `{!Marshaler StateValue} {W : Type} `{!Publisher W}.

(** Every operation of the manager, and a consumer's receive. A subscription
    identifier is not reused before the 64-bit counter wraps. *)
Inductive state_step : StateManager → StateManager → Prop :=
| step_start ctx m : state_step m (StateManager_Start ctx m).1
| step_stop ctx m : state_step m (StateManager_Stop ctx m).1
| step_set env ctx now taken v m (w : option W) :
    state_step m (StateManager_Set env ctx now taken v m w).1.1
| step_delete ctx now taken k m : state_step m (StateManager_Delete ctx now taken k m).1
| step_subscribe ctx now capacity m :
    0 ≤ m_nextSubscriber m < 2 ^ 64 - 1 →
    state_step m (StateManager_Subscribe ctx now capacity m).1
| step_close id m : state_step m (removeSubscription id m)
| step_receive id c u c' m :
    m_channels m !! id = Some c → receive c = Some (u, c') →
    state_step m (mkStateManager (m_values m) (m_started m) (m_revision m) (m_subscribers m)
      (<[id := c']> (m_channels m)) (m_nextSubscriber m)).

Lemma Set_manager env ctx now taken v m (w : option W) :
  (StateManager_Set env ctx now taken v m w).1.1 =
    if decide (ctx_Err ctx = None ∧ validate v = None)
    then (set_locked now taken v m).2 else m.
Proof.
  unfold StateManager_Set. case_decide as Hd.
  - destruct Hd as [-> ->]. destruct (set_locked now taken v m) as [v' m']. simpl.
    destruct (emit_with _ _ _ _ _ _ _ _) as [[e|] p]; done.
  - destruct (ctx_Err ctx); [done|]. destruct (validate v); [done|]. naive_solver.
Qed.

Lemma state_step_ok m m' : state_step m m' → manager_ok m → manager_ok m'.
Proof.
  intros [ | | | | | |id c u c' m0 Hc Hr] Hm.
  - by destruct Hm.
  - by apply Stop_ok.
  - rewrite Set_manager. case_decide as Hd; [|done]. destruct Hd. by apply set_locked_ok.
  - by apply Delete_ok.
  - apply Subscribe_ok; [lia..|done].
  - by apply removeSubscription_ok.
  - pose proof Hm as []. assert (ch_open c' = ch_open c) as Hopen.
    { unfold receive in Hr. by destruct (ch_buffer c); simplify_eq. }
    split; simpl; try done.
    + intros i Hi. destruct (mo_subscribers0 i Hi) as (d & Hd & Ho). rewrite lookup_insert.
      case_decide; [|eauto]. subst. rewrite Hc in Hd. simplify_eq. eauto.
    + intros i d. rewrite lookup_insert_Some. intros [[_ <-]|[_ Hd]]; [|eauto].
      eapply receive_ok; eauto.
    + intros i. rewrite lookup_insert. case_decide; [subst; eauto|eauto].
Qed.

(** C29: in every state the manager's operations reach, values are valid and
    filed under their own key, the revision is a 64-bit counter, every
    registered subscriber has an open channel, no channel holds more updates
    than its capacity, and no channel number exceeds the last one issued. *)
Theorem state_reachable_ok m : rtc state_step NewStateManager m → manager_ok m.
Proof.
  apply rtc_invariant; [apply state_step_ok|apply NewStateManager_ok].
Qed.
End steps.

(** ** What the operations do *)
Section operations.
Context `{JSON} `{!Marshaler StateValue} {W : Type} `{!Publisher W}.

Lemma deliverLocked_snapshot taken s now m :
  snapshotLocked now (deliverLocked taken s m) = snapshotLocked now m.
Proof. done. Qed.

(** Setting a valid value advances the revision by one modulo 2^64, stores the
    value with that revision under its key and nothing else, answers the
    stored value unless publication failed, and leaves the new snapshot last
    in every subscriber's channel, within its capacity. *)
Theorem Set_commits env ctx now taken v m (w : option W) :
  manager_ok m → ctx_Err ctx = None → validate v = None →
  let '(m', _, (stored, err)) := StateManager_Set env ctx now taken v m w in
  m_revision m' = wrap_uint64 (m_revision m + 1)
  ∧ m_values m' = <[sv_Key v := set_revision (m_revision m') v]> (m_values m)
  ∧ (err = None → stored = set_revision (m_revision m') v)
  ∧ (∀ id, id ∈ m_subscribers m → ∃ c u, m_channels m' !! id = Some c
       ∧ last (ch_buffer c) = Some u ∧ u_Snapshot u = snapshotLocked now m'
       ∧ (length (ch_buffer c) ≤ ch_capacity c)%nat).
Proof.
  intros Hm Hctx Hv. pose proof (set_locked_ok now taken v m Hm Hv) as Hm'.
  pose proof (Set_manager env ctx now taken v m w) as Hmgr.
  rewrite decide_True in Hmgr by done.
  assert (∀ m1 w1 r, StateManager_Set env ctx now taken v m w = (m1, w1, r) →
    r.2 = None → r.1 = (set_locked now taken v m).1) as Hret.
  { unfold StateManager_Set. rewrite Hctx, Hv. destruct (set_locked now taken v m) as [v1 m1].
    destruct (emit_with _ _ _ _ _ _ _ _) as [[e|] p]; intros ? ? ? [= <- <- <-]; [done|].
    intros _. simpl. apply clone_id. }
  destruct (StateManager_Set env ctx now taken v m w) as [[m1 w1] [stored err]] eqn:HS.
  specialize (Hret m1 w1 (stored, err) eq_refl). simpl in Hmgr, Hret. subst m1.
  unfold set_locked in *. rewrite clone_id in *. simpl in *.
  split_and!; [done|done|by intros ->%Hret|].
  intros id Hid. destruct Hm. destruct (mo_subscribers0 id Hid) as (c & Hc & Ho).
  rewrite map_lookup_imap, Hc. simpl. rewrite bool_decide_eq_true_2 by done.
  eexists. pose proof (offer_ok (taken id) (snapshotLocked now
    (mkStateManager (<[sv_Key v := set_revision (wrap_uint64 (m_revision m + 1)) v]> (m_values m))
      (m_started m) (wrap_uint64 (m_revision m + 1)) (m_subscribers m) (m_channels m)
      (m_nextSubscriber m))) c (mo_channels0 id c Hc)) as ([] & Hlast & _).
  apply fmap_Some in Hlast as (u & Hu & Hsnap). exists u. split_and!; [done|exact Hu|by rewrite <- Hsnap|done].
Qed.

(** After setting a valid value, reading its key answers it with the new
    revision and its quality at the time of reading, and reading any other key
    answers as before. *)
Theorem Set_Get env ctx ctx' now taken v m (w : option W) k t :
  ctx_Err ctx = None → ctx_Err ctx' = None → validate v = None →
  let m' := (StateManager_Set env ctx now taken v m w).1.1 in
  StateManager_Get ctx' t k m' =
    if decide (k = sv_Key v) then (freshen t (set_revision (m_revision m') v), None)
    else StateManager_Get ctx' t k m.
Proof.
  intros Hctx Hctx' Hv. simpl. rewrite Set_manager, decide_True by done.
  unfold StateManager_Get, set_locked. rewrite Hctx'. simpl. rewrite clone_id. simpl.
  rewrite lookup_insert. case_decide as H1; case_decide; try congruence. by rewrite clone_id.
Qed.

(** A cancelled context or an invalid value leaves manager and publisher
    untouched. *)
Theorem Set_refused env ctx now taken v m (w : option W) :
  ctx_Err ctx ≠ None ∨ validate v ≠ None →
  ∃ err, StateManager_Set env ctx now taken v m w = (m, w, (zero_StateValue, Some err)).
Proof.
  unfold StateManager_Set. intros Hor. destruct (ctx_Err ctx); [by eauto|].
  destruct (validate v); [by eauto|]. naive_solver.
Qed.
End operations.

(** Reading a good value means that the stored value is good and still fresh:
    the canonical store never presents an expired observation as good. *)
(** A good answer is a stored good value that has not expired. *)
Lemma Get_good_is_fresh ctx now key m value :
  StateManager_Get ctx now key m = (value, None) → sv_Quality value = QualityGood →
  ∃ stored, m_values m !! key = Some stored ∧ sv_Quality stored = QualityGood
    ∧ now < sv_ObservedAt stored + sv_FreshFor stored ∧ value = stored.
Proof.
  unfold StateManager_Get. destruct (ctx_Err ctx); [done|].
  destruct (m_values m !! key) as [stored|]; [|done]. rewrite clone_id.
  intros [= <-] Hgood. exists stored. apply freshen_good in Hgood as [Hq Hfresh].
  split_and!; try done. unfold freshen, Before, Add.
  by destruct (Z.ltb_spec now (sv_ObservedAt stored + sv_FreshFor stored)); [|lia].
Qed.

Lemma snapshot_elem now m v :
  v ∈ snap_Values (snapshotLocked now m) ↔ ∃ k s, m_values m !! k = Some s ∧ v = freshen now s.
Proof.
  unfold snapshotLocked. simpl. rewrite sort_by_perm, list_elem_of_fmap.
  setoid_rewrite elem_of_values. simpl. setoid_rewrite clone_id. naive_solver.
Qed.

(** Whatever order the map is ranged in, and although sort.Slice is unstable,
    the snapshot's values are the one list sorted by key string: any sorted
    permutation of the freshened values is it. *)
Theorem Snapshot_order_independent now m l :
  manager_ok m →
  l ≡ₚ ((freshen now ∘ clone) <$> values (m_values m)) →
  Sorted (le_by (keyString ∘ sv_Key)) l →
  l = snap_Values (snapshotLocked now m).
Proof.
  intros [] Hl Hs. apply sort_by_unique; [|done|done].
  intros x y (x' & -> & Hx)%list_elem_of_fmap (y' & -> & Hy)%list_elem_of_fmap. simpl.
  rewrite !clone_id, !freshen_key. intros Heq.
  pose proof (keyed_values_inj _ _ mo_keyed0 x' y' Hx Hy) as Hinj.
  apply elem_of_values in Hx as [i Hi]. apply elem_of_values in Hy as [j Hj].
  rewrite Hinj; [done|]. apply keyString_injective; eauto using validate_valid_key.
Qed.
