(* ===== verification/Devices.v ===== *)
(** * Device and endpoint registry: [internal/devices/registry.go]

    The maps of devices and of adapter endpoints, with the ownership checks
    that tie an endpoint to its device. The random identifier a call would
    draw is the argument [fresh]; a loop over a Go map that only looks for an
    offending entry does not depend on the iteration order. *)

From Stdlib Require Import ZArith Lia String.
From stdpp Require Import base gmap strings list sorting.
From S2P Require Import Prelude Domain Health Events.

Definition ErrNotFound : error := ErrVar "devices.ErrNotFound".
Definition ErrExists : error := ErrVar "devices.ErrExists".
Definition ErrOwned : error := ErrVar "devices.ErrOwned".

Record Registry := mkRegistry {
  r_devices : gmap string Device;
  r_endpoints : gmap string Endpoint;
  r_started : bool
}.

Definition NewRegistry : Registry := mkRegistry ∅ ∅ false.

Definition zero_Device : Device := mkDevice "" "" [] None.
Definition zero_Endpoint : Endpoint := mkEndpoint "" "" "" [].

Definition Start (ctx : Context) (r : Registry) : Registry * option error :=
  (mkRegistry (r_devices r) (r_endpoints r) true, None).
Definition Stop (ctx : Context) (r : Registry) : Registry * option error :=
  (mkRegistry (r_devices r) (r_endpoints r) false, None).
Definition Health (now : Time) (r : Registry) : Status :=
  lifecycle_status "devices" (r_started r) now.

#[export] Instance Registry_Component : Component Registry := {
  comp_Name := fun _ => "devices"; comp_Start := Start; comp_Stop := Stop; comp_Health := Health }.
#[export] Instance Registry_Flag : FlagComponent Registry.
Proof. by refine {| flag_started := r_started |}. Defined.

Definition cloneMetadata (source : Metadata) : Metadata :=
  match source with
  | None => None
  | Some m => Some (map_fold (fun key value result => <[key := value]> result) ∅ m)
  end.

Definition cloneDevice (value : Device) : Device :=
  mkDevice (dev_ID value) (dev_Name value) ([] ++ dev_Capabilities value)
    (cloneMetadata (dev_Metadata value)).
Definition cloneEndpoint (value : Endpoint) : Endpoint :=
  mkEndpoint (ep_ID value) (ep_DeviceID value) (ep_Name value) ([] ++ ep_Capabilities value).

Definition validateDevice (value : Device) : option error :=
  iferr validateUUID (dev_ID value) as err yield Some (ErrWrap "device ID" err);;
  when bool_decide (dev_Name value = "") yield Some (ErrNew "device name is required");;
  ValidateCapabilities (dev_Capabilities value).

Definition set_dev_ID (id : DeviceID) (d : Device) : Device :=
  mkDevice id (dev_Name d) (dev_Capabilities d) (dev_Metadata d).
Definition set_ep_ID (id : EndpointID) (e : Endpoint) : Endpoint :=
  mkEndpoint id (ep_DeviceID e) (ep_Name e) (ep_Capabilities e).

Section registry.
Context `{JSON} `{!Marshaler Device} `{!Marshaler (gmap string string)}.
Context {W : Type} `{!Publisher W}.

Definition emit {A} `{!Marshaler A} (env : FactoryEnv) (ctx : Context) (eventType : EventType)
    (payload : A) (publisher : option W) : option error * option W :=
  emit_with env ctx "devices" eventType SeverityInfo payload (ctx_CorrelationID ctx) publisher.

Definition Register (env : FactoryEnv) (ctx : Context) (fresh : DeviceID * option error)
    (device : Device) (r : Registry) (publisher : option W) :
    Registry * option W * (Device * option error) :=
  iferr ctx_Err ctx as err yield (r, publisher, (zero_Device, Some err));;
  let '(id, err) := if bool_decide (dev_ID device = "") then fresh else (dev_ID device, None) in
  iferr err as err yield (r, publisher, (zero_Device, Some err));;
  let device := set_dev_ID id device in
  iferr validateDevice device as err yield (r, publisher, (zero_Device, Some err));;
  let device := cloneDevice device in
  when bool_decide (is_Some (r_devices r !! dev_ID device)) yield
    (r, publisher, (zero_Device, Some ErrExists));;
  let r := mkRegistry (<[dev_ID device := device]> (r_devices r)) (r_endpoints r) (r_started r) in
  let '(err, publisher) := emit env ctx DeviceRegistered device publisher in
  (r, publisher, (cloneDevice device, err)).

Definition Update (env : FactoryEnv) (ctx : Context) (device : Device) (r : Registry)
    (publisher : option W) : Registry * option W * option error :=
  iferr ctx_Err ctx as err yield (r, publisher, Some err);;
  iferr validateDevice device as err yield (r, publisher, Some err);;
  let device := cloneDevice device in
  when bool_decide (r_devices r !! dev_ID device = None) yield (r, publisher, Some ErrNotFound);;
  when existsb (fun endpoint => bool_decide (ep_DeviceID endpoint = dev_ID device)
         && negb (SupportsAll (dev_Capabilities device) (ep_Capabilities endpoint)))
         (values (r_endpoints r)) yield
    (r, publisher, Some (ErrNew "device update would orphan endpoint capabilities"));;
  let r := mkRegistry (<[dev_ID device := device]> (r_devices r)) (r_endpoints r) (r_started r) in
  let '(err, publisher) := emit env ctx DeviceUpdated device publisher in
  (r, publisher, err).

Definition Get (ctx : Context) (id : DeviceID) (r : Registry) : Device * option error :=
  iferr ctx_Err ctx as err yield (zero_Device, Some err);;
  match r_devices r !! id with
  | None => (zero_Device, Some ErrNotFound)
  | Some value => (cloneDevice value, None)
  end.

Definition List (ctx : Context) (r : Registry) : list Device * option error :=
  iferr ctx_Err ctx as err yield ([], Some err);;
  (sort_by dev_ID (cloneDevice <$> values (r_devices r)), None).

Definition Remove (env : FactoryEnv) (ctx : Context) (id : DeviceID) (r : Registry)
    (publisher : option W) : Registry * option W * option error :=
  iferr ctx_Err ctx as err yield (r, publisher, Some err);;
  when bool_decide (r_devices r !! id = None) yield (r, publisher, Some ErrNotFound);;
  when existsb (fun endpoint => bool_decide (ep_DeviceID endpoint = id)) (values (r_endpoints r)) yield
    (r, publisher, Some ErrOwned);;
  let r := mkRegistry (delete id (r_devices r)) (r_endpoints r) (r_started r) in
  let '(err, publisher) := emit env ctx DeviceRemoved ({["id" := id]} : gmap string string) publisher in
  (r, publisher, err).
End registry.

Definition RegisterEndpoint (ctx : Context) (fresh : EndpointID * option error)
    (endpoint : Endpoint) (r : Registry) : Registry * (Endpoint * option error) :=
  iferr ctx_Err ctx as err yield (r, (zero_Endpoint, Some err));;
  let '(id, err) := if bool_decide (ep_ID endpoint = "") then fresh else (ep_ID endpoint, None) in
  iferr err as err yield (r, (zero_Endpoint, Some err));;
  let endpoint := set_ep_ID id endpoint in
  iferr validateUUID (ep_ID endpoint) as err yield
    (r, (zero_Endpoint, Some (ErrWrap "endpoint ID" err)));;
  when bool_decide (ep_Name endpoint = "") yield
    (r, (zero_Endpoint, Some (ErrNew "endpoint name is required")));;
  iferr ValidateCapabilities (ep_Capabilities endpoint) as err yield (r, (zero_Endpoint, Some err));;
  match r_devices r !! ep_DeviceID endpoint with
  | None => (r, (zero_Endpoint, Some (ErrWrap "device ownership" ErrNotFound)))
  | Some device =>
      when bool_decide (is_Some (r_endpoints r !! ep_ID endpoint)) yield
        (r, (zero_Endpoint, Some ErrExists));;
      when negb (SupportsAll (dev_Capabilities device) (ep_Capabilities endpoint)) yield
        (r, (zero_Endpoint, Some (ErrNew "endpoint capabilities exceed owning device capabilities")));;
      let endpoint := cloneEndpoint endpoint in
      (mkRegistry (r_devices r) (<[ep_ID endpoint := endpoint]> (r_endpoints r)) (r_started r),
       (cloneEndpoint endpoint, None))
  end.

Definition EndpointOf (ctx : Context) (id : EndpointID) (r : Registry) : Endpoint * option error :=
  iferr ctx_Err ctx as err yield (zero_Endpoint, Some err);;
  match r_endpoints r !! id with
  | None => (zero_Endpoint, Some ErrNotFound)
  | Some value => (cloneEndpoint value, None)
  end.

(** The lookup boundary the sensor and equipment registries consume, and what
    it promises them: an answer is an endpoint registered under that ID. *)
Class EndpointLookup (O : Type) := {
  lookup_Endpoint : Context → EndpointID → O → Endpoint * option error;
  owned : O → EndpointID → Endpoint → Prop;
  lookup_Endpoint_owned : ∀ ctx id o e, lookup_Endpoint ctx id o = (e, None) → owned o id e
}.

(** ** Copies *)
Lemma cloneMetadata_id m : cloneMetadata m = m.
Proof.
  destruct m as [m|]; [|done]. unfold cloneMetadata. f_equal.
  apply (map_fold_weak_ind (fun r m => r = m)); [done|]. by intros ? ? ? ? _ ->.
Qed.
Lemma cloneDevice_id d : cloneDevice d = d.
Proof. destruct d. unfold cloneDevice. simpl. by rewrite cloneMetadata_id. Qed.
Lemma cloneEndpoint_id e : cloneEndpoint e = e.
Proof. by destruct e. Qed.
#[export] Hint Rewrite cloneMetadata_id cloneDevice_id cloneEndpoint_id : clone.

Lemma fmap_clone {A} (f : A → A) (l : list A) : (∀ x, f x = x) → f <$> l = l.
Proof. intros Hf. induction l as [|x l IH]; [done|]. by rewrite fmap_cons, Hf, IH. Qed.

#[export] Instance Registry_EndpointLookup : EndpointLookup Registry.
Proof.
  refine {| lookup_Endpoint := EndpointOf; owned := fun r id e => r_endpoints r !! id = Some e |}.
  intros ctx id r e. unfold EndpointOf. destruct (ctx_Err ctx); [done|].
  destruct (r_endpoints r !! id) as [v|]; [|done]. rewrite cloneEndpoint_id. congruence.
Defined.

(** ** Ownership *)

(** Devices and endpoints are filed under their own identifiers, are valid,
    and every endpoint belongs to a registered device that supports all of its
    capabilities. *)
Record registry_ok (r : Registry) : Prop := {
  ro_devices : keyed dev_ID (r_devices r);
  ro_endpoints : keyed ep_ID (r_endpoints r);
  ro_valid : ∀ id d, r_devices r !! id = Some d → validateDevice d = None;
  ro_owned : ∀ id e, r_endpoints r !! id = Some e →
    ∃ d, r_devices r !! ep_DeviceID e = Some d
      ∧ SupportsAll (dev_Capabilities d) (ep_Capabilities e) = true
}.

Lemma NewRegistry_ok : registry_ok NewRegistry.
Proof. split; simpl; unfold keyed; intros; simplify_map_eq. Qed.

(** Storing a valid device that keeps supporting the endpoints it owns. *)
Lemma insert_device_ok r d :
  registry_ok r → validateDevice d = None →
  (∀ id e, r_endpoints r !! id = Some e → ep_DeviceID e = dev_ID d →
     SupportsAll (dev_Capabilities d) (ep_Capabilities e) = true) →
  registry_ok (mkRegistry (<[dev_ID d := d]> (r_devices r)) (r_endpoints r) (r_started r)).
Proof.
  intros [] Hv Hsup. split; simpl; [by apply keyed_insert|done| |].
  - intros id e. rewrite lookup_insert_Some. intros [[_ <-]|[_ He]]; eauto.
  - intros id e He. rewrite lookup_insert. case_decide as Heq; [|eauto].
    exists d. split; [done|]. by eapply Hsup.
Qed.

Lemma existsb_values_false {V} (f : V → bool) (m : gmap string V) :
  existsb f (values m) = false → ∀ k v, m !! k = Some v → f v = false.
Proof.
  intros Hf k v Hv. destruct (f v) eqn:E; [|done].
  assert (existsb f (values m) = true); [|congruence].
  apply existsb_exists. exists v. split; [|done]. apply list_elem_of_In, elem_of_values. eauto.
Qed.

Section preservation.
Context `{JSON} `{!Marshaler Device} `{!Marshaler (gmap string string)}.
Context {W : Type} `{!Publisher W}.

Lemma Register_ok env ctx fresh d r (p : option W) :
  registry_ok r → registry_ok (Register env ctx fresh d r p).1.1.
Proof.
  intros Hr. unfold Register. destruct (ctx_Err ctx); [done|].
  destruct (if bool_decide _ then _ else _) as [id [e|]]; [done|].
  destruct (validateDevice (set_dev_ID id d)) eqn:Hv; [done|].
  rewrite !cloneDevice_id. case_bool_decide as Hin; [done|].
  destruct (emit env ctx DeviceRegistered _ p) as [err p']. simpl.
  apply insert_device_ok; [done|done|].
  intros i e He Heq. destruct (ro_owned r Hr i e He) as (d' & Hd' & _).
  rewrite Heq in Hd'. simpl in *. destruct Hin. by rewrite Hd'.
Qed.

Lemma Update_ok env ctx d r (p : option W) :
  registry_ok r → registry_ok (Update env ctx d r p).1.1.
Proof.
  intros Hr. unfold Update. destruct (ctx_Err ctx); [done|].
  destruct (validateDevice d) eqn:Hv; [done|]. rewrite !cloneDevice_id.
  case_bool_decide; [done|]. destruct (existsb _ _) eqn:Hex; [done|].
  destruct (emit env ctx DeviceUpdated _ p) as [err p']. simpl.
  apply insert_device_ok; [done|done|].
  intros i e He Heq. pose proof (existsb_values_false _ _ Hex i e He) as Hf. simpl in Hf.
  rewrite bool_decide_eq_true_2 in Hf by done. by apply negb_false_iff.
Qed.

Lemma Remove_ok env ctx id r (p : option W) :
  registry_ok r → registry_ok (Remove env ctx id r p).1.1.
Proof.
  intros Hr. unfold Remove. destruct (ctx_Err ctx); [done|].
  case_bool_decide; [done|]. destruct (existsb _ _) eqn:Hex; [done|].
  destruct (emit env ctx DeviceRemoved _ p) as [err p']. destruct Hr. simpl.
  split; simpl; [by apply keyed_delete|done| |].
  - intros i d. rewrite lookup_delete_Some. intros [_ Hd]; eauto.
  - intros i e He. destruct (ro_owned0 i e He) as (d & Hd & Hs). exists d. split; [|done].
    apply lookup_delete_Some. split; [|done].
    pose proof (existsb_values_false _ _ Hex i e He) as Hf. simpl in Hf. go_bool. congruence.
Qed.

Lemma RegisterEndpoint_ok ctx fresh e r :
  registry_ok r → registry_ok (RegisterEndpoint ctx fresh e r).1.
Proof.
  intros Hr. unfold RegisterEndpoint. destruct (ctx_Err ctx); [done|].
  destruct (if bool_decide _ then _ else _) as [id [err|]]; [done|].
  destruct (validateUUID _); [done|]. case_bool_decide; [done|].
  destruct (ValidateCapabilities _); [done|]. simpl.
  destruct (r_devices r !! ep_DeviceID e) as [d|] eqn:Hd; [|done].
  case_bool_decide; [done|]. destruct (SupportsAll _ _) eqn:Hs; [|done]. destruct Hr.
  split; simpl; [done| |done|].
  - apply (keyed_insert ep_ID _ (cloneEndpoint (set_ep_ID id e))). done.
  - intros i e'. rewrite lookup_insert_Some. intros [[_ <-]|[_ He]]; [|eauto]. simpl. eauto.
Qed.

(** Every operation of the registry. *)
Inductive registry_step : Registry → Registry → Prop :=
| step_start ctx r : registry_step r (Start ctx r).1
| step_stop ctx r : registry_step r (Stop ctx r).1
| step_register env ctx fresh d r (p : option W) :
    registry_step r (Register env ctx fresh d r p).1.1
| step_update env ctx d r (p : option W) : registry_step r (Update env ctx d r p).1.1
| step_remove env ctx id r (p : option W) : registry_step r (Remove env ctx id r p).1.1
| step_register_endpoint ctx fresh e r : registry_step r (RegisterEndpoint ctx fresh e r).1.

Lemma registry_step_ok r r' : registry_step r r' → registry_ok r → registry_ok r'.
Proof.
  intros []; eauto using Register_ok, Update_ok, Remove_ok, RegisterEndpoint_ok.
  - by intros [].
  - by intros [].
Qed.

(** Endpoints are never replaced or removed. *)
Lemma endpoint_persists r r' id e :
  registry_step r r' → r_endpoints r !! id = Some e → r_endpoints r' !! id = Some e.
Proof.
  intros [] He; simpl; try done;
    [unfold Register|unfold Update|unfold Remove|unfold RegisterEndpoint];
    repeat first [case_bool_decide | go_case]; simpl in *; simplify_eq/=; try done.
  all: rewrite lookup_insert; case_decide as Heq; [|done]; simpl in Heq; subst;
    match goal with Hn : ¬ is_Some _ |- _ => destruct Hn; eauto end.
Qed.

(** In every state the registry's operations reach, devices and endpoints are
    filed by ID, devices are valid, and every endpoint belongs to a registered
    device that supports all its capabilities. *)
Theorem device_ownership r :
  rtc registry_step NewRegistry r → registry_ok r.
Proof. apply rtc_invariant; [apply registry_step_ok|apply NewRegistry_ok]. Qed.

(** A device that owns an endpoint is not removed. *)
Theorem Remove_refuses_owner env ctx id r (p : option W) eid e :
  registry_ok r → ctx_Err ctx = None →
  r_endpoints r !! eid = Some e → ep_DeviceID e = id →
  Remove env ctx id r p = (r, p, Some ErrOwned).
Proof.
  intros Hr Hctx He Hid. unfold Remove. rewrite Hctx.
  destruct (ro_owned r Hr eid e He) as (d & Hd & _). rewrite Hid in Hd.
  rewrite bool_decide_eq_false_2 by (by rewrite Hd).
  destruct (existsb _ _) eqn:Hex; [done|].
  pose proof (existsb_values_false _ _ Hex eid e He) as Hf. simpl in Hf. by go_bool.
Qed.
End preservation.

Lemma List_sorted ctx r :
  ctx_Err ctx = None → List ctx r = (sort_by dev_ID (values (r_devices r)), None).
Proof.
  intros Hctx. unfold List. rewrite Hctx. by rewrite (fmap_clone cloneDevice) by apply cloneDevice_id.
Qed.

(** Any listing of the devices sorted by ID is the one [List] answers. *)
Theorem List_stable ctx r l :
  registry_ok r → ctx_Err ctx = None →
  l ≡ₚ values (r_devices r) → Sorted (le_by dev_ID) l →
  List ctx r = (l, None).
Proof.
  intros [] Hctx Hl Hs. rewrite List_sorted by done. f_equal. symmetry.
  apply sort_by_unique; [|done..]. by apply keyed_values_inj.
Qed.
