(* ===== verification/Sensors.v ===== *)
(** * Sensor registry: [internal/sensors/registry.go]

    Sensor definitions validated against the endpoint that owns them. The
    owner is any implementation of [EndpointLookup]; the theorems use only
    what that interface promises. *)

From Stdlib Require Import ZArith Lia String.
From stdpp Require Import base gmap strings list sorting.
From S2P Require Import Prelude Domain Health Events Devices.

Definition ErrSensorNotFound : error := ErrVar "sensors.ErrNotFound".
Definition ErrSensorExists : error := ErrVar "sensors.ErrExists".

Record SensorRegistry := mkSensorRegistry {
  sr_sensors : gmap string Sensor;
  sr_started : bool
}.

Definition NewSensorRegistry : SensorRegistry := mkSensorRegistry ∅ false.
Definition zero_Sensor : Sensor := mkSensor "" "" "" "" (QuantityKindOther "") (UnitOther "") [] None.

Definition SensorRegistry_Start (ctx : Context) (r : SensorRegistry) : SensorRegistry * option error :=
  (mkSensorRegistry (sr_sensors r) true, None).
Definition SensorRegistry_Stop (ctx : Context) (r : SensorRegistry) : SensorRegistry * option error :=
  (mkSensorRegistry (sr_sensors r) false, None).
Definition SensorRegistry_Health (now : Time) (r : SensorRegistry) : Status :=
  lifecycle_status "sensors" (sr_started r) now.

#[export] Instance SensorRegistry_Component : Component SensorRegistry := {
  comp_Name := fun _ => "sensors"; comp_Start := SensorRegistry_Start;
  comp_Stop := SensorRegistry_Stop; comp_Health := SensorRegistry_Health }.
#[export] Instance SensorRegistry_Flag : FlagComponent SensorRegistry.
Proof. by refine {| flag_started := sr_started |}. Defined.

Definition cloneSensor (value : Sensor) : Sensor :=
  mkSensor (sen_ID value) (sen_DeviceID value) (sen_EndpointID value) (sen_Name value)
    (sen_Quantity value) (sen_Unit value) ([] ++ sen_Capabilities value)
    (cloneMetadata (sen_Metadata value)).

Lemma cloneSensor_id v : cloneSensor v = v.
Proof. destruct v. unfold cloneSensor. simpl. by rewrite cloneMetadata_id. Qed.
#[export] Hint Rewrite cloneSensor_id : clone.

Definition set_sen_ID (id : SensorID) (s : Sensor) : Sensor :=
  mkSensor id (sen_DeviceID s) (sen_EndpointID s) (sen_Name s) (sen_Quantity s) (sen_Unit s)
    (sen_Capabilities s) (sen_Metadata s).

Section registry.
Context `{JSON} `{!Marshaler Sensor} `{!Marshaler (gmap string string)}.
Context {W : Type} `{!Publisher W} {O : Type} `{!EndpointLookup O}.

(** A nil lookup is [None]. *)
Definition validate_sensor (ctx : Context) (owners : option O) (value : Sensor) : option error :=
  iferr validateUUID (sen_ID value) as err yield Some (ErrWrap "sensor ID" err);;
  when bool_decide (sen_Name value = "") yield Some (ErrNew "sensor name is required");;
  iferr ValidateCapabilities (sen_Capabilities value) as err yield Some err;;
  when negb (bool_decide (sen_Capabilities value = [CapabilityObserve])) yield
    Some (ErrNew "sensor supports only the observe capability");;
  iferr (NewQuantity (sen_Quantity value) (F64 0) (sen_Unit value)).2 as err yield Some err;;
  match owners with
  | None => Some (ErrNew "sensor ownership lookup is required")
  | Some o =>
      let '(endpoint, err) := lookup_Endpoint ctx (sen_EndpointID value) o in
      iferr err as err yield Some (ErrWrap "endpoint ownership" err);;
      when negb (bool_decide (ep_DeviceID endpoint = sen_DeviceID value)) yield
        Some (ErrNew "sensor device does not own endpoint");;
      when negb (SupportsAll (ep_Capabilities endpoint) (sen_Capabilities value)) yield
        Some (ErrNew "sensor capabilities exceed endpoint capabilities");;
      None
  end.

Definition emit_sensor {A} `{!Marshaler A} (env : FactoryEnv) (ctx : Context) (eventType : EventType)
    (payload : A) (publisher : option W) : option error * option W :=
  emit_with env ctx "sensors" eventType SeverityInfo payload (ctx_CorrelationID ctx) publisher.

Definition SensorRegistry_Register (env : FactoryEnv) (ctx : Context) (fresh : SensorID * option error)
    (owners : option O) (value : Sensor) (r : SensorRegistry) (publisher : option W) :
    SensorRegistry * option W * (Sensor * option error) :=
  iferr ctx_Err ctx as err yield (r, publisher, (zero_Sensor, Some err));;
  let '(id, err) := if bool_decide (sen_ID value = "") then fresh else (sen_ID value, None) in
  iferr err as err yield (r, publisher, (zero_Sensor, Some err));;
  let value := set_sen_ID id value in
  iferr validate_sensor ctx owners value as err yield (r, publisher, (zero_Sensor, Some err));;
  let value := cloneSensor value in
  when bool_decide (is_Some (sr_sensors r !! sen_ID value)) yield
    (r, publisher, (zero_Sensor, Some ErrSensorExists));;
  let r := mkSensorRegistry (<[sen_ID value := value]> (sr_sensors r)) (sr_started r) in
  let '(err, publisher) := emit_sensor env ctx SensorRegistered value publisher in
  (r, publisher, (cloneSensor value, err)).

Definition SensorRegistry_Update (env : FactoryEnv) (ctx : Context) (owners : option O) (value : Sensor)
    (r : SensorRegistry) (publisher : option W) : SensorRegistry * option W * option error :=
  iferr ctx_Err ctx as err yield (r, publisher, Some err);;
  iferr validate_sensor ctx owners value as err yield (r, publisher, Some err);;
  let value := cloneSensor value in
  when bool_decide (sr_sensors r !! sen_ID value = None) yield
    (r, publisher, Some ErrSensorNotFound);;
  let r := mkSensorRegistry (<[sen_ID value := value]> (sr_sensors r)) (sr_started r) in
  let '(err, publisher) := emit_sensor env ctx SensorUpdated value publisher in
  (r, publisher, err).

Definition SensorRegistry_Remove (env : FactoryEnv) (ctx : Context) (id : SensorID)
    (r : SensorRegistry) (publisher : option W) : SensorRegistry * option W * option error :=
  iferr ctx_Err ctx as err yield (r, publisher, Some err);;
  when bool_decide (sr_sensors r !! id = None) yield (r, publisher, Some ErrSensorNotFound);;
  let r := mkSensorRegistry (delete id (sr_sensors r)) (sr_started r) in
  let '(err, publisher) :=
    emit_sensor env ctx SensorRemoved ({["id" := id]} : gmap string string) publisher in
  (r, publisher, err).
End registry.

Definition SensorRegistry_Get (ctx : Context) (id : SensorID) (r : SensorRegistry) :
    Sensor * option error :=
  iferr ctx_Err ctx as err yield (zero_Sensor, Some err);;
  match sr_sensors r !! id with
  | None => (zero_Sensor, Some ErrSensorNotFound)
  | Some value => (cloneSensor value, None)
  end.

Definition SensorRegistry_List (ctx : Context) (r : SensorRegistry) : list Sensor * option error :=
  iferr ctx_Err ctx as err yield ([], Some err);;
  (sort_by sen_ID (cloneSensor <$> values (sr_sensors r)), None).

(** ** Ownership of stored sensors *)
Section ownership.
Context `{JSON} `{!Marshaler Sensor} `{!Marshaler (gmap string string)}.
Context {W : Type} `{!Publisher W} {O : Type} `{!EndpointLookup O}.

(** The endpoint a sensor names belongs to its device and can observe; the
    sensor's unit is the canonical unit of its quantity. *)
Definition sensor_owned (o : O) (s : Sensor) : Prop :=
  (∃ e, owned o (sen_EndpointID s) e ∧ ep_DeviceID e = sen_DeviceID s
        ∧ CapabilityObserve ∈ ep_Capabilities e)
  ∧ sen_Capabilities s = [CapabilityObserve] ∧ want_unit (sen_Quantity s) = Some (sen_Unit s)
  ∧ validateUUID (sen_ID s) = None ∧ sen_Name s ≠ "".

Definition sensors_ok (o : O) (r : SensorRegistry) : Prop :=
  keyed sen_ID (sr_sensors r) ∧ ∀ id s, sr_sensors r !! id = Some s → sensor_owned o s.

Lemma NewQuantity_unit k u : (NewQuantity k (F64 0) u).2 = None → want_unit k = Some u.
Proof.
  unfold NewQuantity, Quantity_Validate. simpl. destruct (want_unit k) as [u'|]; [|done].
  case_bool_decide; [done|]. simpl in *. congruence.
Qed.

Lemma validate_sensor_owned ctx o s : validate_sensor ctx (Some o) s = None → sensor_owned o s.
Proof.
  unfold validate_sensor, sensor_owned. destruct (validateUUID (sen_ID s)); [done|].
  case_bool_decide; [done|]. destruct (ValidateCapabilities _); [done|].
  case_bool_decide as Hcap; [|done].
  destruct (NewQuantity _ _ _).2 eqn:Hq; [done|]. apply NewQuantity_unit in Hq.
  destruct (lookup_Endpoint ctx (sen_EndpointID s) o) as [e [err|]] eqn:He; [done|].
  case_bool_decide; [|done]. destruct (SupportsAll _ _) eqn:Hs; [|done].
  apply SupportsAll_spec in Hs. intros _. split_and!; try done.
  exists e. split_and!; [by eapply lookup_Endpoint_owned|done|].
  apply Hs. rewrite Hcap. by left.
Qed.

Lemma insert_sensor_ok o r s :
  sensors_ok o r → sensor_owned o s →
  sensors_ok o (mkSensorRegistry (<[sen_ID s := s]> (sr_sensors r)) (sr_started r)).
Proof.
  intros [Hk Ho] Hs. split; [by apply keyed_insert|]. simpl.
  intros id s'. rewrite lookup_insert_Some. intros [[_ <-]|[_ ?]]; eauto.
Qed.

(** Registering, updating and removing keep every sensor filed by ID, valid,
    observing a quantity in its canonical unit, and owned by a registered
    endpoint of its device that can be observed. *)
Theorem sensor_registry_ownership env ctx fresh o s id r (p : option W) :
  sensors_ok o r →
  sensors_ok o (SensorRegistry_Register env ctx fresh (Some o) s r p).1.1
  ∧ sensors_ok o (SensorRegistry_Update env ctx (Some o) s r p).1.1
  ∧ sensors_ok o (SensorRegistry_Remove env ctx id r p).1.1.
Proof.
  intros Hr. split_and!.
  - unfold SensorRegistry_Register. destruct (ctx_Err ctx); [done|].
    destruct (if bool_decide _ then _ else _) as [i [e|]]; [done|].
    destruct (validate_sensor _ _ _) eqn:Hv; [done|]. rewrite !cloneSensor_id.
    case_bool_decide; [done|]. destruct (emit_sensor _ _ _ _ _) as [err p']. simpl.
    apply insert_sensor_ok; [done|]. by eapply validate_sensor_owned.
  - unfold SensorRegistry_Update. destruct (ctx_Err ctx); [done|].
    destruct (validate_sensor _ _ _) eqn:Hv; [done|]. rewrite !cloneSensor_id.
    case_bool_decide; [done|]. destruct (emit_sensor _ _ _ _ _) as [err p']. simpl.
    apply insert_sensor_ok; [done|]. by eapply validate_sensor_owned.
  - unfold SensorRegistry_Remove. destruct (ctx_Err ctx); [done|].
    case_bool_decide; [done|]. destruct (emit_sensor _ _ _ _ _) as [err p'].
    destruct Hr as [Hk Ho]. split; simpl; [by apply keyed_delete|].
    intros i s'. rewrite lookup_delete_Some. intros [_ ?]; eauto.
Qed.

(** A registered sensor is read back, and nothing else changes. *)
Lemma sensor_Register_Get env ctx ctx' fresh owners s r (p : option W) stored id :
  (SensorRegistry_Register env ctx fresh (owners : option O) s r p).2 = (stored, None) →
  ctx_Err ctx' = None →
  let r' := (SensorRegistry_Register env ctx fresh owners s r p).1.1 in
  SensorRegistry_Get ctx' id r' =
    if decide (id = sen_ID stored) then (stored, None) else SensorRegistry_Get ctx' id r.
Proof.
  unfold SensorRegistry_Register. intros Hst Hctx'. destruct (ctx_Err ctx); [done|].
  destruct (if bool_decide _ then _ else _) as [i [e|]]; [done|].
  destruct (validate_sensor _ _ _) eqn:Hv; [done|]. rewrite !cloneSensor_id in *.
  case_bool_decide; [done|]. destruct (emit_sensor _ _ _ _ _) as [err p']. simpl in *.
  injection Hst as <- ->. unfold SensorRegistry_Get. rewrite Hctx'. simpl.
  rewrite lookup_insert. case_decide; case_decide; simplify_eq/=; try done. by rewrite cloneSensor_id.
Qed.
End ownership.

(** Any listing of the sensors sorted by ID is the one that is answered. *)
Theorem sensor_List_stable ctx r l :
  keyed sen_ID (sr_sensors r) → ctx_Err ctx = None →
  l ≡ₚ values (sr_sensors r) → Sorted (le_by sen_ID) l →
  SensorRegistry_List ctx r = (l, None).
Proof.
  intros Hk Hctx Hl Hs. unfold SensorRegistry_List. rewrite Hctx.
  rewrite (fmap_clone cloneSensor) by apply cloneSensor_id. f_equal. symmetry.
  apply sort_by_unique; [|done..]. by apply keyed_values_inj.
Qed.
