(* ===== verification/EquipmentRegistry.v ===== *)
(** * Equipment registry: [internal/equipment/registry.go]

    Logical outputs validated against the endpoint that owns them; no commands. The
    owner is any implementation of [EndpointLookup]; the theorems use only
    what that interface promises. *)

From Stdlib Require Import ZArith Lia String.
From stdpp Require Import base gmap strings list sorting.
From S2P Require Import Prelude Domain Health Events Devices.

Definition ErrEquipmentNotFound : error := ErrVar "equipment.ErrNotFound".
Definition ErrEquipmentExists : error := ErrVar "equipment.ErrExists".

Record EquipmentRegistry := mkEquipmentRegistry {
  er_equipment : gmap string Equipment;
  er_started : bool
}.

Definition NewEquipmentRegistry : EquipmentRegistry := mkEquipmentRegistry ∅ false.
Definition zero_Equipment : Equipment := mkEquipment "" "" "" "" [] None.

Definition EquipmentRegistry_Start (ctx : Context) (r : EquipmentRegistry) : EquipmentRegistry * option error :=
  (mkEquipmentRegistry (er_equipment r) true, None).
Definition EquipmentRegistry_Stop (ctx : Context) (r : EquipmentRegistry) : EquipmentRegistry * option error :=
  (mkEquipmentRegistry (er_equipment r) false, None).
Definition EquipmentRegistry_Health (now : Time) (r : EquipmentRegistry) : Status :=
  lifecycle_status "equipment" (er_started r) now.

#[export] Instance EquipmentRegistry_Component : Component EquipmentRegistry := {
  comp_Name := fun _ => "equipment"; comp_Start := EquipmentRegistry_Start;
  comp_Stop := EquipmentRegistry_Stop; comp_Health := EquipmentRegistry_Health }.
#[export] Instance EquipmentRegistry_Flag : FlagComponent EquipmentRegistry.
Proof. by refine {| flag_started := er_started |}. Defined.

Definition cloneEquipment (value : Equipment) : Equipment :=
  mkEquipment (eq_ID value) (eq_DeviceID value) (eq_EndpointID value) (eq_Name value)
    ([] ++ eq_Capabilities value)
    (cloneMetadata (eq_Metadata value)).

Lemma cloneEquipment_id v : cloneEquipment v = v.
Proof. destruct v. unfold cloneEquipment. simpl. by rewrite cloneMetadata_id. Qed.
#[export] Hint Rewrite cloneEquipment_id : clone.

Definition set_eq_ID (id : EquipmentID) (s : Equipment) : Equipment :=
  mkEquipment id (eq_DeviceID s) (eq_EndpointID s) (eq_Name s)
    (eq_Capabilities s) (eq_Metadata s).

Section registry.
Context `{JSON} `{!Marshaler Equipment} `{!Marshaler (gmap string string)}.
Context {W : Type} `{!Publisher W} {O : Type} `{!EndpointLookup O}.

(** A nil lookup is [None]. *)
Definition validate_equipment (ctx : Context) (owners : option O) (value : Equipment) : option error :=
  iferr validateUUID (eq_ID value) as err yield Some (ErrWrap "equipment ID" err);;
  when bool_decide (eq_Name value = "") yield Some (ErrNew "equipment name is required");;
  iferr ValidateCapabilities (eq_Capabilities value) as err yield Some err;;
  when negb (SupportsAll (eq_Capabilities value) [CapabilitySwitch])
       && negb (SupportsAll (eq_Capabilities value) [CapabilityVariableOutput]) yield
    Some (ErrNew "equipment requires switch or variable-output capability");;
  match owners with
  | None => Some (ErrNew "equipment ownership lookup is required")
  | Some o =>
      let '(endpoint, err) := lookup_Endpoint ctx (eq_EndpointID value) o in
      iferr err as err yield Some (ErrWrap "endpoint ownership" err);;
      when negb (bool_decide (ep_DeviceID endpoint = eq_DeviceID value)) yield
        Some (ErrNew "equipment device does not own endpoint");;
      when negb (SupportsAll (ep_Capabilities endpoint) (eq_Capabilities value)) yield
        Some (ErrNew "equipment capabilities exceed endpoint capabilities");;
      None
  end.

Definition emit_equipment {A} `{!Marshaler A} (env : FactoryEnv) (ctx : Context) (eventType : EventType)
    (payload : A) (publisher : option W) : option error * option W :=
  emit_with env ctx "equipment" eventType SeverityInfo payload (ctx_CorrelationID ctx) publisher.

Definition EquipmentRegistry_Register (env : FactoryEnv) (ctx : Context) (fresh : EquipmentID * option error)
    (owners : option O) (value : Equipment) (r : EquipmentRegistry) (publisher : option W) :
    EquipmentRegistry * option W * (Equipment * option error) :=
  iferr ctx_Err ctx as err yield (r, publisher, (zero_Equipment, Some err));;
  let '(id, err) := if bool_decide (eq_ID value = "") then fresh else (eq_ID value, None) in
  iferr err as err yield (r, publisher, (zero_Equipment, Some err));;
  let value := set_eq_ID id value in
  iferr validate_equipment ctx owners value as err yield (r, publisher, (zero_Equipment, Some err));;
  let value := cloneEquipment value in
  when bool_decide (is_Some (er_equipment r !! eq_ID value)) yield
    (r, publisher, (zero_Equipment, Some ErrEquipmentExists));;
  let r := mkEquipmentRegistry (<[eq_ID value := value]> (er_equipment r)) (er_started r) in
  let '(err, publisher) := emit_equipment env ctx EquipmentRegistered value publisher in
  (r, publisher, (cloneEquipment value, err)).

Definition EquipmentRegistry_Update (env : FactoryEnv) (ctx : Context) (owners : option O) (value : Equipment)
    (r : EquipmentRegistry) (publisher : option W) : EquipmentRegistry * option W * option error :=
  iferr ctx_Err ctx as err yield (r, publisher, Some err);;
  iferr validate_equipment ctx owners value as err yield (r, publisher, Some err);;
  let value := cloneEquipment value in
  when bool_decide (er_equipment r !! eq_ID value = None) yield
    (r, publisher, Some ErrEquipmentNotFound);;
  let r := mkEquipmentRegistry (<[eq_ID value := value]> (er_equipment r)) (er_started r) in
  let '(err, publisher) := emit_equipment env ctx EquipmentUpdated value publisher in
  (r, publisher, err).

Definition EquipmentRegistry_Remove (env : FactoryEnv) (ctx : Context) (id : EquipmentID)
    (r : EquipmentRegistry) (publisher : option W) : EquipmentRegistry * option W * option error :=
  iferr ctx_Err ctx as err yield (r, publisher, Some err);;
  when bool_decide (er_equipment r !! id = None) yield (r, publisher, Some ErrEquipmentNotFound);;
  let r := mkEquipmentRegistry (delete id (er_equipment r)) (er_started r) in
  let '(err, publisher) :=
    emit_equipment env ctx EquipmentRemoved ({["id" := id]} : gmap string string) publisher in
  (r, publisher, err).
End registry.

Definition EquipmentRegistry_Get (ctx : Context) (id : EquipmentID) (r : EquipmentRegistry) :
    Equipment * option error :=
  iferr ctx_Err ctx as err yield (zero_Equipment, Some err);;
  match er_equipment r !! id with
  | None => (zero_Equipment, Some ErrEquipmentNotFound)
  | Some value => (cloneEquipment value, None)
  end.

Definition EquipmentRegistry_List (ctx : Context) (r : EquipmentRegistry) : list Equipment * option error :=
  iferr ctx_Err ctx as err yield ([], Some err);;
  (sort_by eq_ID (cloneEquipment <$> values (er_equipment r)), None).

(** ** Ownership of stored equipment *)
Section ownership.
Context `{JSON} `{!Marshaler Equipment} `{!Marshaler (gmap string string)}.
Context {W : Type} `{!Publisher W} {O : Type} `{!EndpointLookup O}.

(** The endpoint an output names belongs to its device and supports all of the
    output's capabilities, one of which actuates. *)
Definition equipment_owned (o : O) (s : Equipment) : Prop :=
  (∃ e, owned o (eq_EndpointID s) e ∧ ep_DeviceID e = eq_DeviceID s
        ∧ eq_Capabilities s ⊆ ep_Capabilities e)
  ∧ (CapabilitySwitch ∈ eq_Capabilities s ∨ CapabilityVariableOutput ∈ eq_Capabilities s)
  ∧ ValidateCapabilities (eq_Capabilities s) = None
  ∧ validateUUID (eq_ID s) = None ∧ eq_Name s ≠ "".

Definition equipments_ok (o : O) (r : EquipmentRegistry) : Prop :=
  keyed eq_ID (er_equipment r) ∧ ∀ id s, er_equipment r !! id = Some s → equipment_owned o s.

Lemma validate_equipment_owned ctx o s : validate_equipment ctx (Some o) s = None → equipment_owned o s.
Proof.
  unfold validate_equipment, equipment_owned. destruct (validateUUID (eq_ID s)); [done|].
  case_bool_decide; [done|]. destruct (ValidateCapabilities _); [done|].
  destruct (negb _ && negb _) eqn:Hact; [done|].
  destruct (lookup_Endpoint ctx (eq_EndpointID s) o) as [e [err|]] eqn:He; [done|].
  case_bool_decide; [|done]. destruct (SupportsAll (ep_Capabilities e) _) eqn:Hs; [|done].
  apply SupportsAll_spec in Hs. intros _. split_and!; try done.
  - exists e. split_and!; [by eapply lookup_Endpoint_owned|done|done].
  - go_bool. rewrite !SupportsAll_spec in Hact. destruct Hact as [Ha|Ha]; [left|right]; apply Ha; by left.
Qed.

Lemma insert_equipment_ok o r s :
  equipments_ok o r → equipment_owned o s →
  equipments_ok o (mkEquipmentRegistry (<[eq_ID s := s]> (er_equipment r)) (er_started r)).
Proof.
  intros [Hk Ho] Hs. split; [by apply keyed_insert|]. simpl.
  intros id s'. rewrite lookup_insert_Some. intros [[_ <-]|[_ ?]]; eauto.
Qed.

(** Registering, updating and removing keep every equipment filed by ID,
    valid, switchable or variable, and owned by a registered endpoint of its
    device that supports its capabilities. *)
Theorem equipment_registry_ownership env ctx fresh o s id r (p : option W) :
  equipments_ok o r →
  equipments_ok o (EquipmentRegistry_Register env ctx fresh (Some o) s r p).1.1
  ∧ equipments_ok o (EquipmentRegistry_Update env ctx (Some o) s r p).1.1
  ∧ equipments_ok o (EquipmentRegistry_Remove env ctx id r p).1.1.
Proof.
  intros Hr. split_and!.
  - unfold EquipmentRegistry_Register. destruct (ctx_Err ctx); [done|].
    destruct (if bool_decide _ then _ else _) as [i [e|]]; [done|].
    destruct (validate_equipment _ _ _) eqn:Hv; [done|]. rewrite !cloneEquipment_id.
    case_bool_decide; [done|]. destruct (emit_equipment _ _ _ _ _) as [err p']. simpl.
    apply insert_equipment_ok; [done|]. by eapply validate_equipment_owned.
  - unfold EquipmentRegistry_Update. destruct (ctx_Err ctx); [done|].
    destruct (validate_equipment _ _ _) eqn:Hv; [done|]. rewrite !cloneEquipment_id.
    case_bool_decide; [done|]. destruct (emit_equipment _ _ _ _ _) as [err p']. simpl.
    apply insert_equipment_ok; [done|]. by eapply validate_equipment_owned.
  - unfold EquipmentRegistry_Remove. destruct (ctx_Err ctx); [done|].
    case_bool_decide; [done|]. destruct (emit_equipment _ _ _ _ _) as [err p'].
    destruct Hr as [Hk Ho]. split; simpl; [by apply keyed_delete|].
    intros i s'. rewrite lookup_delete_Some. intros [_ ?]; eauto.
Qed.

(** A registered output is read back, and nothing else changes. *)
Lemma equipment_Register_Get env ctx ctx' fresh owners s r (p : option W) stored id :
  (EquipmentRegistry_Register env ctx fresh (owners : option O) s r p).2 = (stored, None) →
  ctx_Err ctx' = None →
  let r' := (EquipmentRegistry_Register env ctx fresh owners s r p).1.1 in
  EquipmentRegistry_Get ctx' id r' =
    if decide (id = eq_ID stored) then (stored, None) else EquipmentRegistry_Get ctx' id r.
Proof.
  unfold EquipmentRegistry_Register. intros Hst Hctx'. destruct (ctx_Err ctx); [done|].
  destruct (if bool_decide _ then _ else _) as [i [e|]]; [done|].
  destruct (validate_equipment _ _ _) eqn:Hv; [done|]. rewrite !cloneEquipment_id in *.
  case_bool_decide; [done|]. destruct (emit_equipment _ _ _ _ _) as [err p']. simpl in *.
  injection Hst as <- ->. unfold EquipmentRegistry_Get. rewrite Hctx'. simpl.
  rewrite lookup_insert. case_decide; case_decide; simplify_eq/=; try done. by rewrite cloneEquipment_id.
Qed.
End ownership.

(** Any listing of the equipment sorted by ID is the one that is answered. *)
Theorem equipment_List_stable ctx r l :
  keyed eq_ID (er_equipment r) → ctx_Err ctx = None →
  l ≡ₚ values (er_equipment r) → Sorted (le_by eq_ID) l →
  EquipmentRegistry_List ctx r = (l, None).
Proof.
  intros Hk Hctx Hl Hs. unfold EquipmentRegistry_List. rewrite Hctx.
  rewrite (fmap_clone cloneEquipment) by apply cloneEquipment_id. f_equal. symmetry.
  apply sort_by_unique; [|done..]. by apply keyed_values_inj.
Qed.
