(* ===== verification/Equipment.v ===== *)
(** * Equipment state machine and safety profiles:
      [internal/equipment/machine.go], [internal/equipment/profile.go]

    [Machine] is private to its package and starts in [StateUnknown], so its
    state is a closed enumeration; a transition comes from a caller and may be
    any string. *)

From Stdlib Require Import ZArith Lia String.
From stdpp Require Import base gmap strings list.
From S2P Require Import Prelude Domain State.

(** ** The machine *)
Inductive OperatingState :=
| StateUnknown | StateOff | StateStarting | StateOn | StateStopping | StateFault.

Inductive Transition :=
| TransitionCommandOn | TransitionCommandOff
| TransitionAcknowledgedOn | TransitionAcknowledgedOff
| TransitionReportedOn | TransitionReportedOff
| TransitionFault | TransitionReset
| TransitionOther (s : string).

#[export] Instance OperatingState_eq_dec : EqDecision OperatingState.
Proof. solve_decision. Defined.
#[export] Instance Transition_eq_dec : EqDecision Transition.
Proof. solve_decision. Defined.

Definition ErrInvalidStateTransition : error := ErrVar "equipment.ErrInvalidStateTransition".

Record Machine := mkMachine { mc_state : OperatingState; mc_acknowledged : bool }.

Definition NewMachine : Machine := mkMachine StateUnknown false.

Definition Apply (transition : Transition) (m : Machine) : Machine * option error :=
  let invalid := (m, Some ErrInvalidStateTransition) in
  let ack := mc_acknowledged m in
  match transition with
  | TransitionFault => (mkMachine StateFault false, None)
  | _ =>
      match mc_state m with
      | StateUnknown =>
          match transition with
          | TransitionReportedOn => (mkMachine StateOn ack, None)
          | TransitionReportedOff => (mkMachine StateOff ack, None)
          | _ => invalid
          end
      | StateOff =>
          match transition with
          | TransitionCommandOn => (mkMachine StateStarting false, None)
          | TransitionReportedOn => (mkMachine StateOn ack, None)
          | _ => invalid
          end
      | StateStarting =>
          match transition with
          | TransitionAcknowledgedOn => (mkMachine StateStarting true, None)
          | TransitionReportedOn =>
              if negb ack then invalid else (mkMachine StateOn false, None)
          | TransitionCommandOff => (mkMachine StateStopping false, None)
          | _ => invalid
          end
      | StateOn =>
          match transition with
          | TransitionCommandOff => (mkMachine StateStopping false, None)
          | TransitionReportedOff => (mkMachine StateOff ack, None)
          | _ => invalid
          end
      | StateStopping =>
          match transition with
          | TransitionAcknowledgedOff => (mkMachine StateStopping true, None)
          | TransitionReportedOff =>
              if negb ack then invalid else (mkMachine StateOff false, None)
          | _ => invalid
          end
      | StateFault =>
          match transition with
          | TransitionReset => (mkMachine StateUnknown false, None)
          | _ => invalid
          end
      end
  end.

(** ** Profiles *)
Inductive Kind :=
| KindOutlet | KindHeater | KindReturnPump | KindCirculationPump | KindATO
| KindDosingPump | KindLight | KindOther (s : string).

#[export] Instance Kind_eq_dec : EqDecision Kind.
Proof. solve_decision. Defined.

Record InputRequirement := mkInputRequirement {
  ir_Key : Key;
  ir_RequireBoolean : option bool
}.

Record Limits := mkLimits {
  MaximumOn : Duration;
  MaximumDailyOn : Duration;
  MinimumOff : Duration
}.

Record Profile := mkProfile {
  p_EquipmentID : EquipmentID;
  p_Kind : Kind;
  p_Hazardous : bool;
  p_FailSafeOn : bool;
  p_Capabilities : list Capability;
  p_Limits : Limits;
  p_RequiredInputs : list InputRequirement
}.

#[export] Instance InputRequirement_eq_dec : EqDecision InputRequirement.
Proof. solve_decision. Defined.

(** The loop over the required inputs at the end of [Validate]. *)
Fixpoint validate_inputs (requirements : list InputRequirement) : option error :=
  match requirements with
  | [] => None
  | requirement :: rest =>
      let key := ir_Key requirement in
      when negb (bool_decide (k_EntityKind key = EntitySensor))
           || negb (bool_decide (k_Plane key = PlaneObservation))
           || bool_decide (k_Attribute key = "") yield
        Some (ErrNew "safety inputs must reference a sensor observation attribute");;
      iferr validateUUID (k_EntityID key) as err yield
        Some (ErrNew "safety input entity ID is invalid");;
      validate_inputs rest
  end.

(** The [switch] on the kind. *)
Definition validate_kind (p : Profile) : option error :=
  match p_Kind p with
  | KindOutlet | KindReturnPump | KindCirculationPump | KindLight => None
  | KindHeater | KindATO | KindDosingPump =>
      when negb (p_Hazardous p) yield
        Some (ErrNew "heater, ATO, and dosing profiles must be hazardous");;
      when MaximumOn (p_Limits p) <=? 0 yield
        Some (ErrNew "hazardous equipment requires a positive maximum-on limit");;
      when bool_decide (p_RequiredInputs p = []) yield
        Some (ErrNew "hazardous equipment requires at least one safety input");;
      None
  | KindOther _ => Some (ErrNew "unsupported equipment kind")
  end.

Definition Profile_Validate (p : Profile) : option error :=
  iferr validateUUID (p_EquipmentID p) as err yield Some err;;
  iferr ValidateCapabilities (p_Capabilities p) as err yield Some err;;
  when negb (SupportsAll (p_Capabilities p)
         [CapabilitySwitch; CapabilityCommandAcknowledgement; CapabilityReportedState]) yield
    Some (ErrNew "controlled equipment requires switch, acknowledgement, and reported-state capabilities");;
  iferr validate_kind p as err yield Some err;;
  when (MaximumOn (p_Limits p) <? 0) || (MaximumDailyOn (p_Limits p) <? 0)
       || (MinimumOff (p_Limits p) <? 0) yield
    Some (ErrNew "equipment limits cannot be negative");;
  when (0 <? MaximumDailyOn (p_Limits p))
       && (MaximumDailyOn (p_Limits p) <? MaximumOn (p_Limits p)) yield
    Some (ErrNew "maximum-on cannot exceed maximum-daily-on");;
  when p_FailSafeOn p && p_Hazardous p yield
    Some (ErrNew "hazardous equipment cannot fail safe on");;
  when bool_decide (p_Kind p = KindDosingPump) && (MaximumDailyOn (p_Limits p) <=? 0) yield
    Some (ErrNew "dosing equipment requires a positive maximum-daily-on limit");;
  validate_inputs (p_RequiredInputs p).

Definition clone_requirement (r : InputRequirement) : InputRequirement :=
  mkInputRequirement (ir_Key r) (match ir_RequireBoolean r with Some b => Some b | None => None end).

Definition Profile_Clone (p : Profile) : Profile :=
  mkProfile (p_EquipmentID p) (p_Kind p) (p_Hazardous p) (p_FailSafeOn p)
    ([] ++ p_Capabilities p) (p_Limits p) (clone_requirement <$> p_RequiredInputs p).

Lemma Profile_Clone_id p : Profile_Clone p = p.
Proof.
  destruct p as [i k h f c l rs]. unfold Profile_Clone. simpl. f_equal.
  induction rs as [|[key [b|]] rs IH]; [done|..]; rewrite fmap_cons, IH; done.
Qed.
#[export] Hint Rewrite Profile_Clone_id : clone.

(** ** The machine as the documented protocol

    The states of the documented diagram, with the acknowledged phases of
    starting and stopping as states of their own. *)
Inductive phase := PUnknown | POff | PStarting | PStartingAcked | POn | PStopping | PStoppingAcked | PFault.

Inductive protocol : phase → Transition → phase → Prop :=
| pr_fault p : protocol p TransitionFault PFault
| pr_reset : protocol PFault TransitionReset PUnknown
| pr_unknown_on : protocol PUnknown TransitionReportedOn POn
| pr_unknown_off : protocol PUnknown TransitionReportedOff POff
| pr_command_on : protocol POff TransitionCommandOn PStarting
| pr_manual_on : protocol POff TransitionReportedOn POn
| pr_ack_on p : p = PStarting ∨ p = PStartingAcked → protocol p TransitionAcknowledgedOn PStartingAcked
| pr_reported_on : protocol PStartingAcked TransitionReportedOn POn
| pr_abort p : p = PStarting ∨ p = PStartingAcked → protocol p TransitionCommandOff PStopping
| pr_command_off : protocol POn TransitionCommandOff PStopping
| pr_manual_off : protocol POn TransitionReportedOff POff
| pr_ack_off p : p = PStopping ∨ p = PStoppingAcked → protocol p TransitionAcknowledgedOff PStoppingAcked
| pr_reported_off : protocol PStoppingAcked TransitionReportedOff POff.

Definition phase_of (m : Machine) : phase :=
  match mc_state m with
  | StateUnknown => PUnknown
  | StateOff => POff
  | StateStarting => if mc_acknowledged m then PStartingAcked else PStarting
  | StateOn => POn
  | StateStopping => if mc_acknowledged m then PStoppingAcked else PStopping
  | StateFault => PFault
  end.

(** The flag is only raised while a command is in progress. *)
Definition machine_ok (m : Machine) : Prop :=
  mc_acknowledged m = true → mc_state m = StateStarting ∨ mc_state m = StateStopping.

Lemma Apply_ok t m : machine_ok m → machine_ok (Apply t m).1.
Proof.
  unfold machine_ok. destruct m as [[] []], t; simpl; intuition discriminate.
Qed.

(** The machine's states with its acknowledgement flag are the phases of the
    command protocol, and a transition is accepted exactly when the protocol
    allows it from the machine's phase, and leads to the protocol's next
    phase. *)
Theorem Apply_refines_protocol t m p' :
  protocol (phase_of m) t p' ↔ ∃ m', Apply t m = (m', None) ∧ phase_of m' = p'.
Proof.
  split.
  - destruct m as [[] []], t; simpl; inversion 1; subst;
      try (destruct_or?; discriminate); eexists; (split; [reflexivity|done]).
  - intros (m' & Ha & <-). destruct m as [[] []], t; simplify_eq/=; constructor; tauto.
Qed.

(** An accepted run of transitions from a new machine. *)
Inductive history : list Transition → Machine → Prop :=
| h_new : history [] NewMachine
| h_step ts m t m' : history ts m → Apply t m = (m', None) → history (ts ++ [t]) m'.

Lemma history_starting ts m :
  history ts m → mc_state m = StateStarting →
  ∃ before acks, ts = before ++ TransitionCommandOn :: acks
    ∧ Forall (fun t => t = TransitionAcknowledgedOn) acks
    ∧ (mc_acknowledged m = true ↔ acks ≠ []).
Proof.
  induction 1 as [|ts m t m' _ IH Ha]; [done|]. intros Hs.
  destruct m as [s a]. destruct s, t; simpl in Ha; simplify_eq/=;
    try (destruct a; simplify_eq/=; done).
  - exists ts, []. split_and!; [done|constructor|done].
  - destruct (IH eq_refl) as (before & acks & -> & Hacks & _).
    exists before, (acks ++ [TransitionAcknowledgedOn]).
    rewrite <- app_assoc. split_and!; [done|by apply Forall_app_2; [|constructor]|].
    split; [|done]. by destruct acks.
Qed.

(** A machine that goes from starting to on does so by a report, and its
    history ends in an on command followed by at least one acknowledgement and
    nothing else. *)
Theorem commanded_on_is_acknowledged_and_reported ts m t m' :
  history ts m → mc_state m = StateStarting → Apply t m = (m', None) → mc_state m' = StateOn →
  t = TransitionReportedOn
  ∧ ∃ before acks, ts = before ++ TransitionCommandOn :: acks ∧ acks ≠ []
      ∧ Forall (fun t => t = TransitionAcknowledgedOn) acks.
Proof.
  intros Hh Hs Ha Hon. destruct (history_starting ts m Hh Hs) as (before & acks & Heq & Hacks & Hiff).
  destruct m as [s a]. simpl in Hs. subst s.
  destruct t; simpl in Ha; simplify_eq/=. destruct a; simplify_eq/=.
  split; [done|]. exists before, acks. split_and!; try done. by apply Hiff.
Qed.

Lemma validate_kind_hazardous p :
  validate_kind p = None → p_Kind p = KindHeater ∨ p_Kind p = KindATO ∨ p_Kind p = KindDosingPump →
  p_Hazardous p = true ∧ 0 < MaximumOn (p_Limits p) ∧ p_RequiredInputs p ≠ [].
Proof.
  unfold validate_kind. intros Hk [E|[E|E]]; rewrite E in Hk;
    (destruct (p_Hazardous p); [|done]);
    (destruct (Z.leb_spec (MaximumOn (p_Limits p)) 0); [done|]);
    simpl in Hk; case_bool_decide; done.
Qed.

(** A profile that passes validation never fails safe to on when hazardous;
    heaters, top-offs and dosing pumps are hazardous, limited in continuous on
    time and require inputs; a dosing pump's daily limit is at least its
    continuous one; no limit is negative and every required input is a valid
    sensor key. *)
Theorem Profile_Validate_safe p :
  Profile_Validate p = None →
  (p_Hazardous p = true → p_FailSafeOn p = false)
  ∧ (p_Kind p = KindHeater ∨ p_Kind p = KindATO ∨ p_Kind p = KindDosingPump →
      p_Hazardous p = true ∧ 0 < MaximumOn (p_Limits p) ∧ p_RequiredInputs p ≠ [])
  ∧ (p_Kind p = KindDosingPump →
      0 < MaximumOn (p_Limits p) ≤ MaximumDailyOn (p_Limits p))
  ∧ 0 ≤ MaximumOn (p_Limits p) ∧ 0 ≤ MaximumDailyOn (p_Limits p) ∧ 0 ≤ MinimumOff (p_Limits p)
  ∧ Forall (fun r => valid_key (ir_Key r) ∧ k_EntityKind (ir_Key r) = EntitySensor) (p_RequiredInputs p).
Proof.
  unfold Profile_Validate. destruct (validateUUID _); [done|].
  destruct (ValidateCapabilities _); [done|]. destruct (SupportsAll _ _); [|done]. simpl.
  destruct (validate_kind p) eqn:Hk; [done|].
  destruct (_ || _ || _) eqn:Hneg; [done|]. destruct (_ && (_ <? _)) eqn:Hday; [done|].
  destruct (p_FailSafeOn p && _) eqn:Hfs; [done|]. destruct (_ && (_ <=? _)) eqn:Hdose; [done|].
  intros Hin. go_bool. split_and!; try lia.
  - intros Hz. rewrite Hz in Hfs. by destruct (p_FailSafeOn p), Hfs.
  - by apply validate_kind_hazardous.
  - intros Hd. destruct (validate_kind_hazardous p Hk) as (_ & Hmax & _); [tauto|].
    destruct Hdose as [?|?]; [done|]. lia.
  - clear -Hin. induction (p_RequiredInputs p) as [|r rs IH]; [constructor|]. simpl in Hin.
    destruct (_ || _) eqn:Ho; [done|]. destruct (validateUUID _) eqn:Hu; [done|].
    constructor; [|auto]. go_bool. unfold valid_key. naive_solver.
Qed.
