(* ===== verification/Safety.v ===== *)
(** * Safety engine: [internal/safety/engine.go]

    Operating modes, overrides, hard limits, hazardous-input checks, runtime
    accounting and watchdogs. [now] is what the engine's clock reads when a
    method consults it; the canonical state is any [StateReader]. The calendar
    date [at.UTC().Format("2006-01-02")] is the index of the UTC day, the empty
    initial string is [None]. A [range] over a map visits its keys in an
    arbitrary order: [CheckWatchdogs] takes the two orders as arguments. *)

From Stdlib Require Import ZArith Lia String.
From stdpp Require Import base gmap strings list.
From S2P Require Import Prelude Domain Health State Equipment.

Inductive Mode := ModeNormal | ModeMaintenance | ModeManual | ModeEmergencyStop | ModeOther (s : string).

#[export] Instance Mode_eq_dec : EqDecision Mode.
Proof. solve_decision. Defined.

Definition ReasonAllowed : string := "safety.allowed".
Definition ReasonUnknownEquipment : string := "safety.unknown_equipment".
Definition ReasonEmergencyStop : string := "safety.emergency_stop".
Definition ReasonOverrideRequired : string := "safety.override_required".
Definition ReasonOverrideExpired : string := "safety.override_expired".
Definition ReasonInputMissing : string := "safety.input_missing".
Definition ReasonInputInvalid : string := "safety.input_invalid".
Definition ReasonInputStale : string := "safety.input_stale".
Definition ReasonInputMismatch : string := "safety.input_mismatch".
Definition ReasonMaximumOn : string := "safety.maximum_on".
Definition ReasonMaximumDailyOn : string := "safety.maximum_daily_on".
Definition ReasonMinimumOff : string := "safety.minimum_off".

(** The consumer-owned canonical input boundary. *)
Class StateReader (R : Type) := { reader_Get : Context → Key → R → StateValue * option error }.

(** The canonical store read at a given clock reading. *)
#[export] Instance StateManager_Reader : StateReader (StateManager * Time) :=
  { reader_Get := fun ctx key r => StateManager_Get ctx r.2 key r.1 }.

Record Intent := mkIntent { in_EquipmentID : EquipmentID; in_On : bool; in_IssuedAt : Time }.

Record Decision := mkDecision {
  d_Allowed : bool;
  d_Reason : string;
  d_HardLimit : bool;
  d_OverrideID : OverrideID
}.

Definition zero_Decision : Decision := mkDecision false "" false "".
Definition allow : Decision := mkDecision true ReasonAllowed false "".
Definition deny (reason : string) : Decision := mkDecision false reason false "".
Definition deny_hard (reason : string) : Decision := mkDecision false reason true "".

Record Override := mkOverride {
  ov_ID : OverrideID;
  ov_EquipmentID : EquipmentID;
  ov_Requester : string;
  ov_Reason : string;
  ov_CreatedAt : Time;
  ov_ExpiresAt : Time
}.

Record WatchdogAction := mkWatchdogAction {
  wa_EquipmentID : EquipmentID;
  wa_On : bool;
  wa_Reason : string;
  wa_ObservedAt : Time
}.

Record runtimeState := mkRuntime {
  rt_on : bool;
  rt_onSince : Time;
  rt_offSince : Time;
  rt_dailyOn : Duration;
  rt_dailyDate : option Z;
  rt_lastAccounted : Time;
  rt_watchdogReason : string
}.

Definition zero_runtime : runtimeState := mkRuntime false 0 0 0 None 0 "".

Record Engine := mkEngine {
  e_mode : Mode;
  e_profiles : gmap string Profile;
  e_overrides : gmap string Override;
  e_runtime : gmap string runtimeState;
  e_started : bool
}.

(** ** Accounting *)
Definition nanos_per_day : Z := 86400 * 1000000000.
Definition utc_date (t : Time) : option Z := Some (t / nanos_per_day).

(** The body of [accountLocked] on one record. *)
Definition account (rt : runtimeState) (at_ : Time) : runtimeState :=
  let date := utc_date at_ in
  let rt :=
    if bool_decide (rt_dailyDate rt ≠ date) then
      mkRuntime (rt_on rt) (rt_onSince rt) (rt_offSince rt) 0 date
        (if rt_on rt then at_ else rt_lastAccounted rt) (rt_watchdogReason rt)
    else rt in
  if rt_on rt && negb (IsZero (rt_lastAccounted rt)) && After at_ (rt_lastAccounted rt) then
    mkRuntime (rt_on rt) (rt_onSince rt) (rt_offSince rt)
      (wrap_int64 (rt_dailyOn rt + Sub at_ (rt_lastAccounted rt))) (rt_dailyDate rt)
      at_ (rt_watchdogReason rt)
  else rt.

Definition runtime_of (id : EquipmentID) (e : Engine) : runtimeState :=
  default zero_runtime (e_runtime e !! id).

Definition put_runtime (id : EquipmentID) (rt : runtimeState) (e : Engine) : Engine :=
  mkEngine (e_mode e) (e_profiles e) (e_overrides e) (<[id := rt]> (e_runtime e)) (e_started e).

Definition accountLocked (id : EquipmentID) (at_ : Time) (e : Engine) : runtimeState * Engine :=
  let runtime := account (runtime_of id e) at_ in
  (runtime, put_runtime id runtime e).

Definition delete_override (id : EquipmentID) (e : Engine) : Engine :=
  mkEngine (e_mode e) (e_profiles e) (delete id (e_overrides e)) (e_runtime e) (e_started e).

(** ** Construction and lifecycle *)

(** The loop of [NewEngine] over the supplied profiles. *)
Fixpoint add_profiles (profiles : list Profile) (e : Engine) : Engine + error :=
  match profiles with
  | [] => inl e
  | profile :: rest =>
      iferr Profile_Validate profile as err yield inr (ErrWrap "profile" err);;
      when bool_decide (is_Some (e_profiles e !! p_EquipmentID profile)) yield
        inr (ErrNew "duplicate equipment safety profile");;
      add_profiles rest
        (mkEngine (e_mode e) (<[p_EquipmentID profile := Profile_Clone profile]> (e_profiles e))
           (e_overrides e) (e_runtime e) (e_started e))
  end.

(** [dependencies] says that reader, logger and clock are all non-nil. *)
Definition NewEngine (dependencies : bool) (profiles : list Profile) : Engine + error :=
  when negb dependencies yield inr (ErrNew "safety state reader, logger, and clock are required");;
  add_profiles profiles (mkEngine ModeNormal ∅ ∅ ∅ false).

Definition Engine_Start (ctx : Context) (e : Engine) : Engine * option error :=
  (mkEngine (e_mode e) (e_profiles e) (e_overrides e) (e_runtime e) true, None).
Definition Engine_Stop (ctx : Context) (e : Engine) : Engine * option error :=
  (mkEngine (e_mode e) (e_profiles e) (e_overrides e) (e_runtime e) false, None).
Definition Engine_Health (now : Time) (e : Engine) : Status :=
  lifecycle_status "safety" (e_started e) now.

#[export] Instance Engine_Component : Component Engine := {
  comp_Name := fun _ => "safety"; comp_Start := Engine_Start;
  comp_Stop := Engine_Stop; comp_Health := Engine_Health }.
#[export] Instance Engine_Flag : FlagComponent Engine.
Proof. by refine {| flag_started := e_started |}. Defined.

(** ** Modes and overrides *)
Definition SetMode (ctx : Context) (mode : Mode) (e : Engine) : Engine * option error :=
  iferr ctx_Err ctx as err yield (e, Some err);;
  when negb (bool_decide (mode = ModeNormal)) && negb (bool_decide (mode = ModeMaintenance))
       && negb (bool_decide (mode = ModeManual)) && negb (bool_decide (mode = ModeEmergencyStop)) yield
    (e, Some (ErrNew "unsupported safety mode"));;
  (mkEngine mode (e_profiles e) (e_overrides e) (e_runtime e) (e_started e), None).

Definition set_created (t : Time) (o : Override) : Override :=
  mkOverride (ov_ID o) (ov_EquipmentID o) (ov_Requester o) (ov_Reason o) t (ov_ExpiresAt o).

Definition GrantOverride (ctx : Context) (now : Time) (override : Override) (e : Engine) :
    Engine * option error :=
  iferr ctx_Err ctx as err yield (e, Some err);;
  iferr validateUUID (ov_ID override) as err yield (e, Some err);;
  when bool_decide (ov_Reason override = "") || bool_decide (ov_Requester override = "") yield
    (e, Some (ErrNew "override requester and reason are required"));;
  let override := if IsZero (ov_CreatedAt override) then set_created (UTC now) override else override in
  when negb (After (ov_ExpiresAt override) (ov_CreatedAt override)) yield
    (e, Some (ErrNew "override expiry must follow creation"));;
  when bool_decide (e_profiles e !! ov_EquipmentID override = None) yield
    (e, Some (ErrNew ReasonUnknownEquipment));;
  (mkEngine (e_mode e) (e_profiles e) (<[ov_EquipmentID override := override]> (e_overrides e))
     (e_runtime e) (e_started e), None).

Definition RevokeOverride (ctx : Context) (equipmentID : EquipmentID) (e : Engine) :
    Engine * option error :=
  iferr ctx_Err ctx as err yield (e, Some err);;
  (delete_override equipmentID e, None).

(** ** Evaluation *)
Section evaluate.
Context {R : Type} `{!StateReader R}.

(** The loop of [validateInputs]. *)
Fixpoint validateInputs (ctx : Context) (reader : R) (requirements : list InputRequirement) :
    Decision * option error :=
  match requirements with
  | [] => (allow, None)
  | requirement :: rest =>
      let '(value, err) := reader_Get ctx (ir_Key requirement) reader in
      match err with
      | Some err =>
          if errors_Is err "state.ErrNotFound" then (deny_hard ReasonInputMissing, None)
          else (zero_Decision, Some err)
      | None =>
          match sv_Quality value with
          | QualityStale => (deny_hard ReasonInputStale, None)
          | QualityGood =>
              when match ir_RequireBoolean requirement with
                   | Some required => negb (bool_decide (v_Boolean (sv_Value value) = Some required))
                   | None => false
                   end yield (deny_hard ReasonInputMismatch, None);;
              validateInputs ctx reader rest
          | _ => (deny_hard ReasonInputInvalid, None)
          end
      end
  end.

(** The part of [Evaluate] after the lock is released. *)
Definition decide_on (ctx : Context) (reader : R) (now : Time) (mode : Mode) (profile : Profile)
    (runtime : runtimeState) (override : option Override) : Decision * option error :=
  let limits := p_Limits profile in
  when bool_decide (mode = ModeEmergencyStop) yield (deny_hard ReasonEmergencyStop, None);;
  when rt_on runtime && (0 <? MaximumOn limits)
       && (MaximumOn limits <=? Sub now (rt_onSince runtime)) yield
    (deny_hard ReasonMaximumOn, None);;
  when (0 <? MaximumDailyOn limits) && (MaximumDailyOn limits <=? rt_dailyOn runtime) yield
    (deny_hard ReasonMaximumDailyOn, None);;
  when negb (IsZero (rt_offSince runtime)) && (0 <? MinimumOff limits)
       && (Sub now (rt_offSince runtime) <? MinimumOff limits) yield
    (deny_hard ReasonMinimumOff, None);;
  let '(decision, err) :=
    if p_Hazardous profile then validateInputs ctx reader (p_RequiredInputs profile)
    else (allow, None) in
  when match err with Some _ => true | None => negb (d_Allowed decision) end yield (decision, err);;
  when (bool_decide (mode = ModeMaintenance) || bool_decide (mode = ModeManual))
       && bool_decide (override = None) yield (deny ReasonOverrideRequired, None);;
  (mkDecision true ReasonAllowed false (match override with Some o => ov_ID o | None => "" end), None).

Definition Evaluate (ctx : Context) (clock : Time) (reader : R) (intent : Intent) (e : Engine) :
    Engine * (Decision * option error) :=
  iferr ctx_Err ctx as err yield (e, (zero_Decision, Some err));;
  let now := if IsZero (in_IssuedAt intent) then UTC clock else in_IssuedAt intent in
  let id := in_EquipmentID intent in
  match e_profiles e !! id with
  | None => (e, (deny ReasonUnknownEquipment, None))
  | Some profile =>
      let '(runtime, e) := accountLocked id now e in
      let mode := e_mode e in
      let '(override, e) :=
        match e_overrides e !! id with
        | Some o => if negb (Before now (ov_ExpiresAt o)) then (None, delete_override id e)
                    else (Some o, e)
        | None => (None, e)
        end in
      when negb (in_On intent) yield (e, (allow, None));;
      (e, decide_on ctx reader now mode profile runtime override)
  end.
End evaluate.

(** ** Reported state and watchdogs *)

(** The update of [RecordReported] after accounting. *)
Definition report (rt : runtimeState) (on : bool) (observedAt : Time) : runtimeState :=
  let rt := account rt observedAt in
  if Bool.eqb (rt_on rt) on then rt
  else if on then
    mkRuntime true observedAt (rt_offSince rt) (rt_dailyOn rt) (rt_dailyDate rt) observedAt ""
  else
    mkRuntime false 0 observedAt (rt_dailyOn rt) (rt_dailyDate rt) 0 "".

Definition RecordReported (ctx : Context) (equipmentID : EquipmentID) (on : bool) (observedAt : Time)
    (e : Engine) : Engine * option error :=
  iferr ctx_Err ctx as err yield (e, Some err);;
  when IsZero observedAt yield (e, Some (ErrNew "reported-state timestamp is required"));;
  when bool_decide (e_profiles e !! equipmentID = None) yield
    (e, Some (ErrNew ReasonUnknownEquipment));;
  (put_runtime equipmentID (report (runtime_of equipmentID e) on observedAt) e, None).

Definition set_reason (reason : string) (rt : runtimeState) : runtimeState :=
  mkRuntime (rt_on rt) (rt_onSince rt) (rt_offSince rt) (rt_dailyOn rt) (rt_dailyDate rt)
    (rt_lastAccounted rt) reason.

Definition zero_Profile : Profile :=
  mkProfile "" (KindOther "") false false [] (mkLimits 0 0 0) [].

(** One turn of the loop over the overrides. *)
Definition watchdog_override (now : Time) (acc : Engine * list WatchdogAction) (id : EquipmentID) :
    Engine * list WatchdogAction :=
  let '(e, actions) := acc in
  match e_overrides e !! id with
  | None => acc
  | Some override =>
      if negb (Before now (ov_ExpiresAt override)) then
        let e := delete_override id e in
        let '(runtime, e) := accountLocked id now e in
        if rt_on runtime then
          let profile := default zero_Profile (e_profiles e !! id) in
          if bool_decide (rt_watchdogReason runtime = "") then
            (put_runtime id (set_reason ReasonOverrideExpired runtime) e,
             actions ++ [mkWatchdogAction id (p_FailSafeOn profile) ReasonOverrideExpired now])
          else (e, actions)
        else (e, actions)
      else acc
  end.

(** One turn of the loop over the profiles. *)
Definition watchdog_limits (now : Time) (acc : Engine * list WatchdogAction) (id : EquipmentID) :
    Engine * list WatchdogAction :=
  let '(e, actions) := acc in
  match e_profiles e !! id with
  | None => acc
  | Some profile =>
      let limits := p_Limits profile in
      let '(runtime, e) := accountLocked id now e in
      if negb (bool_decide (rt_watchdogReason runtime = "")) then (e, actions)
      else if rt_on runtime && (0 <? MaximumOn limits)
              && (MaximumOn limits <=? Sub now (rt_onSince runtime)) then
        (put_runtime id (set_reason ReasonMaximumOn runtime) e,
         actions ++ [mkWatchdogAction id (p_FailSafeOn profile) ReasonMaximumOn now])
      else if rt_on runtime && (0 <? MaximumDailyOn limits)
              && (MaximumDailyOn limits <=? rt_dailyOn runtime) then
        (put_runtime id (set_reason ReasonMaximumDailyOn runtime) e,
         actions ++ [mkWatchdogAction id (p_FailSafeOn profile) ReasonMaximumDailyOn now])
      else (e, actions)
  end.

(** [l] is an order in which [range] may visit the keys of [m]. *)
Definition range_order {A} (m : gmap string A) (l : list string) : Prop :=
  l ≡ₚ (map_to_list m).*1.

Definition CheckWatchdogs (ctx : Context) (clock : Time) (overrides profiles : list EquipmentID)
    (e : Engine) : Engine * (list WatchdogAction * option error) :=
  iferr ctx_Err ctx as err yield (e, ([], Some err));;
  let now := UTC clock in
  let '(e, actions) := foldl (watchdog_override now) (e, []) overrides in
  let '(e, actions) := foldl (watchdog_limits now) (e, actions) profiles in
  (e, (actions, None)).

(** ** Theorems: decisions *)
Section decisions.
Context {R : Type} `{!StateReader R}.

(** A required input is satisfied: present, good, and of the required value. *)
Definition input_satisfied (ctx : Context) (reader : R) (r : InputRequirement) : Prop :=
  ∃ value, reader_Get ctx (ir_Key r) reader = (value, None) ∧ sv_Quality value = QualityGood
    ∧ ∀ b, ir_RequireBoolean r = Some b → v_Boolean (sv_Value value) = Some b.

Lemma validateInputs_allowed ctx reader rs d :
  validateInputs ctx reader rs = (d, None) ∧ d_Allowed d = true ↔
    d = allow ∧ Forall (input_satisfied ctx reader) rs.
Proof.
  induction rs as [|r rs IH]; simpl.
  { split; [by intros [[= <-] _]|]. by intros [-> _]. }
  rewrite Forall_cons. unfold input_satisfied at 1.
  destruct (reader_Get ctx (ir_Key r) reader) as [value [err|]].
  { destruct (errors_Is err _); split; naive_solver. }
  destruct (decide (sv_Quality value = QualityGood)) as [Hq|Hq].
  2:{ split; [|naive_solver]. destruct (sv_Quality value); try done; by intros [[= <-] ?]. }
  rewrite Hq.
  destruct (ir_RequireBoolean r) as [b|]; [case_bool_decide|]; simpl.
  - rewrite IH. naive_solver.
  - split; [by intros [[= <-] ?]|]. intros (_ & (v & [= <-] & _ & Hb) & _). exfalso. auto.
  - rewrite IH. naive_solver.
Qed.

(** The hard constraints on switching equipment on at [now]. *)
Record hard_constraints (ctx : Context) (reader : R) (now : Time) (mode : Mode) (p : Profile)
    (rt : runtimeState) : Prop := {
  hc_mode : mode ≠ ModeEmergencyStop;
  hc_maximum_on : rt_on rt = true → 0 < MaximumOn (p_Limits p) →
    Sub now (rt_onSince rt) < MaximumOn (p_Limits p);
  hc_daily : 0 < MaximumDailyOn (p_Limits p) → rt_dailyOn rt < MaximumDailyOn (p_Limits p);
  hc_minimum_off : rt_offSince rt ≠ 0 → 0 < MinimumOff (p_Limits p) →
    MinimumOff (p_Limits p) ≤ Sub now (rt_offSince rt);
  hc_inputs : p_Hazardous p = true → Forall (input_satisfied ctx reader) (p_RequiredInputs p)
}.

(** The mode restriction, which an unexpired override lifts. *)
Definition mode_permits (mode : Mode) (override : option Override) : Prop :=
  mode = ModeMaintenance ∨ mode = ModeManual → override ≠ None.

Lemma decide_on_allowed ctx reader now mode p rt o d :
  decide_on ctx reader now mode p rt o = (d, None) ∧ d_Allowed d = true ↔
    d = mkDecision true ReasonAllowed false (match o with Some o => ov_ID o | None => "" end)
    ∧ hard_constraints ctx reader now mode p rt ∧ mode_permits mode o.
Proof.
  unfold decide_on. split.
  - intros [Hd Ha]. case_bool_decide; [by simplify_eq/=|].
    destruct (_ && (MaximumOn _ <=? _)) eqn:H1; [by simplify_eq/=|].
    destruct (_ && (_ <=? rt_dailyOn _)) eqn:H2; [by simplify_eq/=|].
    destruct (_ && (_ <? MinimumOff _)) eqn:H3; [by simplify_eq/=|].
    destruct (if p_Hazardous p then _ else _) as [d' [err|]] eqn:Hin; [by simplify_eq/=|].
    destruct (d_Allowed d') eqn:Hd'; [|by simplify_eq/=; congruence]. simpl in Hd.
    destruct (_ && bool_decide (o = None)) eqn:H4; simplify_eq/=. go_bool.
    split_and!; [done| |].
    + split; [done|intros; destruct (rt_on rt); intuition (done || lia)|intros; lia|intros; lia|].
      intros Hz. rewrite Hz in Hin. by apply (proj1 (validateInputs_allowed ctx reader _ d')).
    + intros Hm Ho. subst o. naive_solver.
  - intros (-> & [] & Hm). split; [|done]. rewrite bool_decide_eq_false_2 by done.
    assert (rt_on rt && (0 <? MaximumOn (p_Limits p))
      && (MaximumOn (p_Limits p) <=? Sub now (rt_onSince rt)) = false) as ->.
    { destruct (rt_on rt); [|done]. specialize (hc_maximum_on0 eq_refl). simpl. lia. }
    assert ((0 <? MaximumDailyOn (p_Limits p))
      && (MaximumDailyOn (p_Limits p) <=? rt_dailyOn rt) = false) as -> by lia.
    assert (negb (IsZero (rt_offSince rt)) && (0 <? MinimumOff (p_Limits p))
      && (Sub now (rt_offSince rt) <? MinimumOff (p_Limits p)) = false) as ->.
    { unfold IsZero. destruct (Z.eqb_spec (rt_offSince rt) 0); [done|]. simpl. lia. }
    assert ((if p_Hazardous p then validateInputs ctx reader (p_RequiredInputs p) else (allow, None))
      = (allow, None)) as ->.
    { destruct (p_Hazardous p); [|done]. apply (validateInputs_allowed ctx reader _ allow). auto. }
    simpl. destruct ((_ || _) && bool_decide (o = None)) eqn:H4; [|done].
    apply andb_true_iff in H4 as [H4 H5]. apply bool_decide_eq_true in H5.
    exfalso. apply Hm; [|done]. go_bool. tauto.
Qed.

(** The instant a decision is taken for, and the override in force at it. *)
Definition intent_time (clock : Time) (intent : Intent) : Time :=
  if IsZero (in_IssuedAt intent) then clock else in_IssuedAt intent.
Definition active_override (now : Time) (id : EquipmentID) (e : Engine) : option Override :=
  match e_overrides e !! id with
  | Some o => if Before now (ov_ExpiresAt o) then Some o else None
  | None => None
  end.

Lemma Evaluate_decision ctx clock reader intent e p :
  ctx_Err ctx = None → e_profiles e !! in_EquipmentID intent = Some p →
  (Evaluate ctx clock reader intent e).2 =
    let now := intent_time clock intent in
    if in_On intent
    then decide_on ctx reader now (e_mode e) p
           (account (runtime_of (in_EquipmentID intent) e) now)
           (active_override now (in_EquipmentID intent) e)
    else (allow, None).
Proof.
  intros Hctx Hp. unfold Evaluate. rewrite Hctx, Hp. unfold accountLocked, active_override. simpl.
  change (if IsZero (in_IssuedAt intent) then UTC clock else in_IssuedAt intent)
    with (intent_time clock intent).
  destruct (e_overrides e !! in_EquipmentID intent) as [o|];
    [destruct (Before (intent_time clock intent) (ov_ExpiresAt o))|];
    simpl; by destruct (in_On intent).
Qed.

(** C8: an evaluation of an on intent answers an allowing decision exactly
    when the equipment has a profile, every hard constraint holds (no
    emergency stop, maximum on time, daily on time, minimum off time, and the
    required inputs of hazardous equipment) and the mode permits it, and the
    decision then carries the reason of allowance, no hard limit and the ID of
    the override in use. *)
Theorem Evaluate_on_iff ctx clock reader intent e d :
  ctx_Err ctx = None → in_On intent = true →
  let now := intent_time clock intent in
  let id := in_EquipmentID intent in
  (Evaluate ctx clock reader intent e).2 = (d, None) ∧ d_Allowed d = true ↔
    ∃ p, e_profiles e !! id = Some p
      ∧ hard_constraints ctx reader now (e_mode e) p (account (runtime_of id e) now)
      ∧ mode_permits (e_mode e) (active_override now id e)
      ∧ d = mkDecision true ReasonAllowed false
              (match active_override now id e with Some o => ov_ID o | None => "" end).
Proof.
  intros Hctx Hon. simpl. destruct (e_profiles e !! in_EquipmentID intent) as [p|] eqn:Hp.
  - rewrite (Evaluate_decision ctx clock reader intent e p) by done. simpl. rewrite Hon.
    rewrite decide_on_allowed. naive_solver.
  - unfold Evaluate. rewrite Hctx, Hp. split; [|naive_solver]. by intros [[= <-] ?].
Qed.

(** Switching known equipment off is always allowed. *)
Theorem Evaluate_off_always_allowed ctx clock reader intent e :
  ctx_Err ctx = None → in_On intent = false → is_Some (e_profiles e !! in_EquipmentID intent) →
  (Evaluate ctx clock reader intent e).2 = (allow, None).
Proof.
  intros Hctx Hoff [p Hp]. rewrite (Evaluate_decision ctx clock reader intent e p) by done.
  simpl. by rewrite Hoff.
Qed.

(** The same engine under another mode and other overrides. *)
Definition with_policy (mode : Mode) (overrides : gmap string Override) (e : Engine) : Engine :=
  mkEngine mode (e_profiles e) overrides (e_runtime e) (e_started e).

(** An evaluation denied by a hard limit outside emergency stop is denied by a
    hard limit under every other mode and every other set of overrides too,
    with the very same decision unless the mode is emergency stop. *)
Theorem hard_denial_ignores_overrides ctx clock reader intent e d mode overrides :
  ctx_Err ctx = None →
  (Evaluate ctx clock reader intent e).2 = (d, None) → d_Allowed d = false → d_HardLimit d = true →
  e_mode e ≠ ModeEmergencyStop →
  ∃ d', (Evaluate ctx clock reader intent (with_policy mode overrides e)).2 = (d', None)
    ∧ d_Allowed d' = false ∧ d_HardLimit d' = true
    ∧ (mode ≠ ModeEmergencyStop → d' = d).
Proof.
  intros Hctx Hd Hden Hhard Hmode.
  destruct (e_profiles e !! in_EquipmentID intent) as [p|] eqn:Hp.
  2:{ unfold Evaluate in Hd. rewrite Hctx, Hp in Hd. simplify_eq/=. }
  rewrite (Evaluate_decision ctx clock reader intent e p) in Hd by done. simpl in Hd.
  rewrite (Evaluate_decision ctx clock reader intent (with_policy mode overrides e) p) by done. simpl.
  destruct (in_On intent); [|by simplify_eq/=]. unfold decide_on in *.
  change (runtime_of _ (with_policy mode overrides e)) with (runtime_of (in_EquipmentID intent) e).
  rewrite bool_decide_eq_false_2 in Hd by done.
  destruct (decide (mode = ModeEmergencyStop)) as [->|Hm].
  { rewrite bool_decide_eq_true_2 by done. exists (deny_hard ReasonEmergencyStop). by split_and!. }
  rewrite (bool_decide_eq_false_2 (mode = _)) by done.
  exists d. split; [|done].
  repeat (go_case; simplify_eq/=; try done).
Qed.
End decisions.

(** ** Theorems: the engine invariant *)

(** Profiles are the validated ones, overrides are reasoned, bounded in time
    and scoped to known equipment, and only known equipment is accounted. *)
Record engine_ok (e : Engine) : Prop := {
  eo_profiles : keyed p_EquipmentID (e_profiles e);
  eo_valid : ∀ id p, e_profiles e !! id = Some p → Profile_Validate p = None;
  eo_overrides : ∀ id o, e_overrides e !! id = Some o →
    ov_EquipmentID o = id ∧ is_Some (e_profiles e !! id)
    ∧ ov_CreatedAt o < ov_ExpiresAt o ∧ ov_Requester o ≠ "" ∧ ov_Reason o ≠ "";
  eo_runtime : ∀ id, is_Some (e_runtime e !! id) → is_Some (e_profiles e !! id);
  eo_mode : ∀ s, e_mode e ≠ ModeOther s
}.

Lemma NewEngine_ok dependencies profiles e : NewEngine dependencies profiles = inl e → engine_ok e.
Proof.
  unfold NewEngine. destruct dependencies; [|done]. simpl.
  assert (engine_ok (mkEngine ModeNormal ∅ ∅ ∅ false)) as Hok.
  { split; simpl; unfold keyed; intros; simplify_map_eq; try done; by destruct_and?; naive_solver. }
  revert Hok. generalize (mkEngine ModeNormal ∅ ∅ ∅ false) as e0.
  induction profiles as [|p ps IH]; intros e0 Hok; simpl; [congruence|].
  destruct (Profile_Validate p) eqn:Hv; [done|]. case_bool_decide; [done|].
  apply IH. rewrite Profile_Clone_id. destruct Hok. split; simpl; try done.
  - by apply keyed_insert.
  - intros id q. rewrite lookup_insert_Some. intros [[_ <-]|[_ ?]]; eauto.
  - intros id o Ho. destruct (eo_overrides0 id o Ho) as (? & Hs & ?). split_and!; try tauto.
    rewrite lookup_insert. case_decide; [eauto|done].
  - intros id Hr. rewrite lookup_insert. case_decide; eauto.
Qed.

Lemma put_runtime_ok id rt e :
  engine_ok e → is_Some (e_profiles e !! id) → engine_ok (put_runtime id rt e).
Proof.
  intros [] Hp. split; simpl; try done. intros i. rewrite lookup_insert. case_decide; naive_solver.
Qed.

Lemma delete_override_ok id e : engine_ok e → engine_ok (delete_override id e).
Proof.
  intros []. split; simpl; try done. intros i o. rewrite lookup_delete_Some. intros [_ ?]; eauto.
Qed.
Create HintDb safety.
#[export] Hint Resolve put_runtime_ok delete_override_ok : safety.

Lemma watchdog_override_ok now acc id : engine_ok acc.1 → engine_ok (watchdog_override now acc id).1.
Proof.
  destruct acc as [e actions]. intros He. unfold watchdog_override. simpl in *.
  destruct (e_overrides e !! id) as [o|] eqn:Ho; [|done].
  assert (is_Some (e_profiles e !! id)) by (by destruct (eo_overrides e He id o Ho) as (_ & ? & _)).
  unfold accountLocked. simpl. repeat (go_case; simpl); eauto with safety.
Qed.

Lemma watchdog_limits_ok now acc id : engine_ok acc.1 → engine_ok (watchdog_limits now acc id).1.
Proof.
  destruct acc as [e actions]. intros He. unfold watchdog_limits. simpl in *.
  destruct (e_profiles e !! id) as [p|] eqn:Hp; [|done].
  assert (is_Some (e_profiles e !! id)) by eauto.
  unfold accountLocked. simpl. repeat (go_case; simpl); eauto with safety.
Qed.

Lemma CheckWatchdogs_ok ctx clock os ps e :
  engine_ok e → engine_ok (CheckWatchdogs ctx clock os ps e).1.
Proof.
  intros He. unfold CheckWatchdogs. destruct (ctx_Err ctx); [done|].
  pose proof (foldl_invariant (fun a => engine_ok a.1) (watchdog_override (UTC clock)) os (e, [])
    ltac:(intros; by apply watchdog_override_ok) He) as H1.
  destruct (foldl _ _ os) as [e1 a1].
  pose proof (foldl_invariant (fun a => engine_ok a.1) (watchdog_limits (UTC clock)) ps (e1, a1)
    ltac:(intros; by apply watchdog_limits_ok) H1) as H2.
  by destruct (foldl _ _ ps) as [e2 a2].
Qed.

Lemma GrantOverride_ok ctx now o e : engine_ok e → engine_ok (GrantOverride ctx now o e).1.
Proof.
  intros He. unfold GrantOverride. destruct (ctx_Err ctx); [done|].
  destruct (validateUUID _); [done|]. destruct (_ || _) eqn:Hr; [done|].
  apply orb_false_iff in Hr as [Hr1%bool_decide_eq_false Hr2%bool_decide_eq_false].
  set (o' := if IsZero _ then _ else _). destruct (After _ _) eqn:Ha; [|done]. simpl.
  case_bool_decide as Hp; [done|]. destruct He. split; simpl; try done.
  intros i q. rewrite lookup_insert_Some. intros [[<- <-]|[_ Hq]]; [|eauto]. go_bool.
  assert (ov_Requester o' = ov_Requester o ∧ ov_Reason o' = ov_Reason o) as [-> ->]
    by (unfold o'; by destruct (ov_CreatedAt o =? 0)).
  split_and!; try done; try tauto. by apply not_eq_None_Some.
Qed.

Section engine_steps.
Context {R : Type} `{!StateReader R}.

Lemma Evaluate_ok ctx clock (reader : R) intent e :
  engine_ok e → engine_ok (Evaluate ctx clock reader intent e).1.
Proof.
  intros He. unfold Evaluate. destruct (ctx_Err ctx); [done|].
  destruct (e_profiles e !! in_EquipmentID intent) as [p|] eqn:Hp; [|done].
  assert (is_Some (e_profiles e !! in_EquipmentID intent)) by eauto.
  unfold accountLocked. simpl. repeat (go_case; simpl); simplify_eq/=; eauto with safety.
Qed.

(** Every operation of the engine. *)
Inductive engine_step : Engine → Engine → Prop :=
| es_start ctx e : engine_step e (Engine_Start ctx e).1
| es_stop ctx e : engine_step e (Engine_Stop ctx e).1
| es_mode ctx mode e : engine_step e (SetMode ctx mode e).1
| es_grant ctx now o e : engine_step e (GrantOverride ctx now o e).1
| es_revoke ctx id e : engine_step e (RevokeOverride ctx id e).1
| es_evaluate ctx clock (reader : R) intent e : engine_step e (Evaluate ctx clock reader intent e).1
| es_report ctx id on at_ e : engine_step e (RecordReported ctx id on at_ e).1
| es_watchdogs ctx clock os ps e : engine_step e (CheckWatchdogs ctx clock os ps e).1.

Lemma engine_step_ok e e' : engine_step e e' → engine_ok e → engine_ok e'.
Proof.
  intros [] He; eauto using GrantOverride_ok, Evaluate_ok, CheckWatchdogs_ok.
  - by destruct He.
  - by destruct He.
  - unfold SetMode. destruct (ctx_Err _); [done|]. destruct (_ && _) eqn:Hm; [done|].
    destruct He. split; simpl; try done. go_bool. intros s ->. naive_solver.
  - unfold RevokeOverride. destruct (ctx_Err _); eauto with safety.
  - unfold RecordReported. destruct (ctx_Err _); [done|]. destruct (IsZero _); [done|].
    case_bool_decide as Hp; [done|]. apply put_runtime_ok; [done|]. by apply not_eq_None_Some.
Qed.

(** In every state the engine's operations reach, profiles are validated and
    filed by equipment, overrides have a requester, a reason and a bounded
    time and belong to known equipment, only known equipment is accounted and
    the mode is one of the four. *)
Theorem engine_reachable_ok dependencies profiles e0 e :
  NewEngine dependencies profiles = inl e0 → rtc engine_step e0 e → engine_ok e.
Proof.
  intros Hnew. apply rtc_invariant; [apply engine_step_ok|]. by eapply NewEngine_ok.
Qed.
End engine_steps.
