(* ===== verification/Watchdogs.v ===== *)
(** * Watchdogs of the safety engine

    [CheckWatchdogs] of [internal/safety/engine.go] ranges over two maps and
    mutates the runtime records on the way. Here it is refined to a definition
    that treats each equipment on its own, which gives the order independence
    ("deterministic safe-state actions"), exactness and idempotence of a poll. *)

From Stdlib Require Import ZArith Lia String.
From stdpp Require Import base gmap strings list.
From S2P Require Import Prelude Domain Health State Equipment Safety.

(** ** Accounting is idempotent *)
Lemma account_on rt at_ : rt_on (account rt at_) = rt_on rt.
Proof. unfold account. by repeat (go_case; simpl). Qed.
Lemma account_onSince rt at_ : rt_onSince (account rt at_) = rt_onSince rt.
Proof. unfold account. by repeat (go_case; simpl). Qed.
Lemma account_reason rt at_ : rt_watchdogReason (account rt at_) = rt_watchdogReason rt.
Proof. unfold account. by repeat (go_case; simpl). Qed.

Lemma account_date rt at_ : rt_dailyDate (account rt at_) = utc_date at_.
Proof.
  unfold account. case_bool_decide; simpl; repeat (go_case; simpl); try done; by apply dec_stable.
Qed.

Lemma account_idem rt at_ : account (account rt at_) at_ = account rt at_.
Proof.
  pose proof (account_date rt at_) as Hd.
  assert (rt_on (account rt at_) = true → rt_lastAccounted (account rt at_) ≠ 0 →
    at_ ≤ rt_lastAccounted (account rt at_)) as Hl.
  { unfold account. case_bool_decide; simpl;
      (destruct (_ && _) eqn:Hc; simpl; go_bool; [lia|]);
      intros Hon; rewrite ?Hon in *; simpl; intros; intuition (done || lia). }
  revert Hd Hl. generalize (account rt at_) as r. intros r Hd Hl. unfold account at 1.
  rewrite bool_decide_eq_false_2 by (intros H; by apply H).
  destruct (_ && _) eqn:Hc; [|done]. go_bool. destruct Hc as [[Hon Hz] Hlt].
  specialize (Hl Hon Hz). lia.
Qed.

Lemma set_reason_account rt reason at_ :
  account (set_reason reason rt) at_ = set_reason reason (account rt at_).
Proof. unfold account. simpl. by repeat (go_case; simpl). Qed.

(** ** What one poll does to one equipment *)

(** The reason a poll at [now] trips equipment with profile [p], override [o]
    and runtime record [rt]; [None] when it does not. *)
Definition trip (now : Time) (p : Profile) (o : option Override) (rt : runtimeState) : option string :=
  let limits := p_Limits p in
  let rt := account rt now in
  if negb (rt_on rt) || negb (bool_decide (rt_watchdogReason rt = "")) then None
  else if match o with Some o => negb (Before now (ov_ExpiresAt o)) | None => false end
  then Some ReasonOverrideExpired
  else if (0 <? MaximumOn limits) && (MaximumOn limits <=? Sub now (rt_onSince rt))
  then Some ReasonMaximumOn
  else if (0 <? MaximumDailyOn limits) && (MaximumDailyOn limits <=? rt_dailyOn rt)
  then Some ReasonMaximumDailyOn
  else None.

Definition trip_action (now : Time) (id : EquipmentID) (p : Profile) (reason : string) : WatchdogAction :=
  mkWatchdogAction id (p_FailSafeOn p) reason now.

(** The runtime record a poll leaves. *)
Definition polled (now : Time) (p : Profile) (o : option Override) (rt : runtimeState) : runtimeState :=
  match trip now p o rt with
  | Some reason => set_reason reason (account rt now)
  | None => account rt now
  end.

(** The action a poll takes for one equipment, from the engine before the poll. *)
Definition action_for (now : Time) (e : Engine) (id : EquipmentID) : option WatchdogAction :=
  p ← e_profiles e !! id;
  trip_action now id p <$> trip now p (e_overrides e !! id) (runtime_of id e).

(** The poll as a map over the profiles. *)
Definition watchdog_actions (now : Time) (e : Engine) : list WatchdogAction :=
  omap (action_for now e) (map_to_list (e_profiles e)).*1.

Definition watchdog_engine (now : Time) (e : Engine) : Engine :=
  mkEngine (e_mode e) (e_profiles e)
    (filter (fun kv => now < ov_ExpiresAt kv.2) (e_overrides e))
    (map_imap (fun id p => Some (polled now p (e_overrides e !! id) (runtime_of id e))) (e_profiles e))
    (e_started e).

(** ** The two loops are local *)
Abbreviation view := (option Profile * option Override * option runtimeState)%type (only parsing).

Definition view_of (id : EquipmentID) (e : Engine) : view :=
  (e_profiles e !! id, e_overrides e !! id, e_runtime e !! id).

Definition expired (now : Time) (o : option Override) : bool :=
  match o with Some o => negb (Before now (ov_ExpiresAt o)) | None => false end.

(** The loop over the overrides: new view and output. *)
Definition override_turn (now : Time) (id : EquipmentID) (v : view) : view * list WatchdogAction :=
  let '(p, o, r) := v in
  if expired now o then
    let rt := account (default zero_runtime r) now in
    if rt_on rt && bool_decide (rt_watchdogReason rt = "") then
      ((p, None, Some (set_reason ReasonOverrideExpired rt)),
       [trip_action now id (default zero_Profile p) ReasonOverrideExpired])
    else ((p, None, Some rt), [])
  else (v, []).

(** The loop over the profiles. *)
Definition limits_turn (now : Time) (id : EquipmentID) (v : view) : view * list WatchdogAction :=
  let '(p, o, r) := v in
  match p with
  | None => (v, [])
  | Some profile =>
      let rt := default zero_runtime r in
      ((p, o, Some (polled now profile None rt)),
       match trip now profile None rt with
       | Some reason => [trip_action now id profile reason]
       | None => []
       end)
  end.

Ltac view_here := simpl; rewrite ?lookup_insert_eq, ?lookup_delete_eq.
Ltac view_else :=
  simpl; rewrite ?lookup_insert_ne, ?lookup_delete_ne by done.

Lemma watchdog_override_turn now e actions id :
  let r := watchdog_override now (e, actions) id in
  view_of id r.1 = (override_turn now id (view_of id e)).1
  ∧ r.2 = actions ++ (override_turn now id (view_of id e)).2
  ∧ (∀ j, j ≠ id → view_of j r.1 = view_of j e)
  ∧ e_mode r.1 = e_mode e ∧ e_profiles r.1 = e_profiles e ∧ e_started r.1 = e_started e.
Proof.
  unfold watchdog_override, override_turn, expired. unfold view_of. cbn zeta.
  destruct (e_overrides e !! id) as [o|] eqn:Ho; [destruct (Before now (ov_ExpiresAt o))|]; simpl.
  1,3: rewrite ?Ho; simpl; rewrite app_nil_r; by split_and!.
  unfold runtime_of. simpl.
  set (rt := account (default zero_runtime (e_runtime e !! id)) now).
  destruct (rt_on rt); [case_bool_decide|]; simpl;
    (split_and!; [by view_here|by rewrite ?app_nil_r| |done..]; intros j Hj; by view_else).
Qed.

Lemma watchdog_limits_turn now e actions id :
  let r := watchdog_limits now (e, actions) id in
  view_of id r.1 = (limits_turn now id (view_of id e)).1
  ∧ r.2 = actions ++ (limits_turn now id (view_of id e)).2
  ∧ (∀ j, j ≠ id → view_of j r.1 = view_of j e)
  ∧ e_mode r.1 = e_mode e ∧ e_profiles r.1 = e_profiles e ∧ e_started r.1 = e_started e.
Proof.
  unfold watchdog_limits, limits_turn. unfold view_of. cbn zeta.
  destruct (e_profiles e !! id) as [p|] eqn:Hp; simpl.
  2:{ rewrite ?Hp. simpl. rewrite app_nil_r. by split_and!. }
  unfold polled, trip, runtime_of.
  set (rt := account (default zero_runtime (e_runtime e !! id)) now).
  case_bool_decide; [|rewrite orb_true_r]; simpl; [rewrite orb_false_r; destruct (rt_on rt)|]; simpl;
    repeat (go_case; simpl);
    (split_and!; [view_here; by rewrite ?Hp|by rewrite ?app_nil_r| |done..]; intros j Hj; by view_else).
Qed.

(** ** Composition of the two loops *)
Definition opt_list {A} (o : option A) : list A := match o with Some x => [x] | None => [] end.

Lemma turns_compose now id p o r :
  let v := (Some p, o, r) in
  let rt := default zero_runtime r in
  (limits_turn now id (override_turn now id v).1).1
    = (Some p, if expired now o then None else o, Some (polled now p o rt))
  ∧ (override_turn now id v).2 ++ (limits_turn now id (override_turn now id v).1).2
    = opt_list (trip_action now id p <$> trip now p o rt).
Proof.
  cbn zeta. unfold override_turn. set (rt := default zero_runtime r).
  destruct (expired now o) eqn:Hx.
  2:{ assert (trip now p o rt = trip now p None rt) as Ht
        by (unfold trip; fold (expired now o); by rewrite Hx).
      unfold polled. rewrite Ht. split; [done|]. cbn -[trip]. fold rt. by destruct (trip now p None rt). }
  unfold polled, trip. fold (expired now o). rewrite !account_on, !account_reason, Hx.
  destruct (rt_on rt) eqn:Hon; [case_bool_decide as Hr|]; simpl; unfold polled, trip;
    rewrite ?set_reason_account, !account_idem; simpl; rewrite !account_on, ?account_reason, Hon; simpl.
  - done.
  - by rewrite bool_decide_eq_false_2 by done.
  - done.
Qed.

Lemma bind_app_perm {A B} (f g : A → list B) l :
  (l ≫= f) ++ (l ≫= g) ≡ₚ l ≫= (fun x => f x ++ g x).
Proof.
  induction l as [|x l IH]; [done|]. cbn [mbind list_bind]. fold (mbind f l) (mbind g l).
  rewrite <- IH. rewrite <- !app_assoc. f_equiv. rewrite !app_assoc. f_equiv. apply Permutation_app_comm.
Qed.

Lemma bind_extend_perm {A B} `{EqDecision A} (f : A → list B) l l' :
  NoDup l → NoDup l' → l ⊆ l' → (∀ x, x ∉ l → f x = []) → l ≫= f ≡ₚ l' ≫= f.
Proof.
  intros Hl Hl' Hsub Hf.
  destruct (submseteq_Permutation l l') as [k Hk]; [by apply NoDup_submseteq|].
  rewrite Hk in Hl' |- *. apply NoDup_app in Hl' as (_ & Hd & _).
  rewrite bind_app, (Forall_bind_ext f (fun _ => []) k).
  - assert (k ≫= (fun _ : A => @nil B) = []) as -> by (clear; by induction k). by rewrite app_nil_r.
  - apply Forall_forall. intros x Hx. apply Hf. intros Hin. by apply (Hd x).
Qed.

Lemma bind_opt_list {A B} (f : A → option B) l : (l ≫= fun x => opt_list (f x)) = omap f l.
Proof. induction l as [|x l IH]; [done|]. cbn. rewrite <- IH. by destruct (f x). Qed.

(** ** The refinement *)
Lemma range_NoDup {A} (m : gmap string A) l : range_order m l → NoDup l.
Proof. intros ->. apply NoDup_fst_map_to_list. Qed.

Lemma range_elem {A} (m : gmap string A) l id : range_order m l → id ∈ l ↔ is_Some (m !! id).
Proof.
  intros ->. rewrite list_elem_of_fmap. split.
  - intros ([k x] & -> & Hk%elem_of_map_to_list). eauto.
  - intros [x Hx]. exists (id, x). by rewrite elem_of_map_to_list.
Qed.

Lemma override_turn_none now id p r : override_turn now id (p, None, r) = ((p, None, r), []).
Proof. done. Qed.

(** A loop whose turns are [turn], run over distinct keys. *)
Definition is_turn (step : Engine * list WatchdogAction → EquipmentID → Engine * list WatchdogAction)
    (turn : EquipmentID → view → view * list WatchdogAction) : Prop :=
  ∀ e actions id, let r := step (e, actions) id in
  view_of id r.1 = (turn id (view_of id e)).1
  ∧ r.2 = actions ++ (turn id (view_of id e)).2
  ∧ (∀ j, j ≠ id → view_of j r.1 = view_of j e)
  ∧ e_mode r.1 = e_mode e ∧ e_profiles r.1 = e_profiles e ∧ e_started r.1 = e_started e.

Lemma loop_views step turn ks e actions :
  is_turn step turn → NoDup ks → (∀ id, id ∉ ks → (turn id (view_of id e)).1 = view_of id e) →
  let r := foldl step (e, actions) ks in
  (∀ id, view_of id r.1 = (turn id (view_of id e)).1)
  ∧ r.2 = actions ++ (ks ≫= fun id => (turn id (view_of id e)).2)
  ∧ e_mode r.1 = e_mode e ∧ e_profiles r.1 = e_profiles e ∧ e_started r.1 = e_started e.
Proof.
  intros Ht Hnd Hout r. split_and!.
  - intros id. unfold r. rewrite (local_loop_state view_of step (fun k v => (turn k v).1) (fun k v => (turn k v).2));
      [|intros; by apply Ht..|done]. case_decide; [done|]. symmetry; auto.
  - by apply (local_loop_out view_of step (fun k v => (turn k v).2)); [intros; by apply Ht..|].
  - apply (foldl_invariant (fun a => e_mode a.1 = e_mode e)); [|done].
    intros [e' a] id <-. by apply Ht.
  - apply (foldl_invariant (fun a => e_profiles a.1 = e_profiles e)); [|done].
    intros [e' a] id <-. by apply Ht.
  - apply (foldl_invariant (fun a => e_started a.1 = e_started e)); [|done].
    intros [e' a] id <-. by apply Ht.
Qed.

Lemma CheckWatchdogs_views ctx now os ps e :
  ctx_Err ctx = None → range_order (e_overrides e) os → range_order (e_profiles e) ps →
  let turn1 id := override_turn now id (view_of id e) in
  let turn2 id := limits_turn now id (turn1 id).1 in
  let r := CheckWatchdogs ctx now os ps e in
  (∀ id, view_of id r.1 = (turn2 id).1)
  ∧ r.2 = ((os ≫= fun id => (turn1 id).2) ++ (ps ≫= fun id => (turn2 id).2), None)
  ∧ e_mode r.1 = e_mode e ∧ e_profiles r.1 = e_profiles e ∧ e_started r.1 = e_started e.
Proof.
  intros Hctx Hos Hps turn1 turn2. unfold CheckWatchdogs, UTC. rewrite Hctx.
  destruct (loop_views (watchdog_override now) (override_turn now) os e []) as (V1 & O1 & M1 & P1 & S1).
  { intros ???. apply watchdog_override_turn. } { by eapply range_NoDup. }
  { intros id Hin. rewrite (range_elem _ _ id Hos), <- eq_None_not_Some in Hin.
    unfold view_of. by rewrite Hin. }
  destruct (foldl _ _ os) as [e1 a1]. cbn [fst snd app] in *.
  destruct (loop_views (watchdog_limits now) (limits_turn now) ps e1 a1) as (V2 & O2 & M2 & P2 & S2).
  { intros ???. apply watchdog_limits_turn. } { by eapply range_NoDup. }
  { intros id Hin. rewrite (range_elem _ _ id Hps), <- eq_None_not_Some in Hin.
    unfold view_of. by rewrite P1, Hin. }
  destruct (foldl _ _ ps) as [e2 a2]. cbn [fst snd] in *. subst a1 a2.
  split_and!; [|f_equal; f_equal|congruence..].
  - intros id. rewrite V2, V1. done.
  - apply list_bind_ext; [|done]. intros id. by rewrite V1.
Qed.

Lemma CheckWatchdogs_refines ctx now os ps e :
  engine_ok e → ctx_Err ctx = None →
  range_order (e_overrides e) os → range_order (e_profiles e) ps →
  ∃ actions, CheckWatchdogs ctx now os ps e = (watchdog_engine now e, (actions, None))
    ∧ actions ≡ₚ watchdog_actions now e.
Proof.
  intros He Hctx Hos Hps.
  destruct (CheckWatchdogs_views ctx now os ps e) as (V & O & M & P & S); [done..|].
  destruct (CheckWatchdogs ctx now os ps e) as [e' [actions err]]. cbn [fst snd] in *.
  injection O as -> ->. eexists. split; [f_equal|].
  - destruct e' as [m' p' o' r' s']. unfold watchdog_engine. cbn [e_mode e_profiles e_started] in *. subst m' p' s'.
    assert (∀ id, o' !! id = if expired now (e_overrides e !! id) then None else e_overrides e !! id) as Ho.
    { intros id. specialize (V id). unfold view_of in V. cbn [e_profiles e_overrides e_runtime] in V.
      destruct (e_profiles e !! id) as [p|] eqn:Hp.
      - rewrite (proj1 (turns_compose now id p _ _)) in V. by injection V.
      - destruct (e_overrides e !! id) as [o|] eqn:Hov; [|by injection V].
        destruct (eo_overrides e He id o Hov) as (_ & [? ?] & _). congruence. }
    f_equal; apply map_eq; intros id.
    + rewrite Ho, map_lookup_filter. unfold expired.
      destruct (e_overrides e !! id) as [o|]; simpl; [|done].
      unfold Before. destruct (Z.ltb_spec now (ov_ExpiresAt o)); simpl;
        [by rewrite option_guard_True|by rewrite option_guard_False by lia].
    + specialize (V id). unfold view_of in V. cbn [e_profiles e_overrides e_runtime] in V. rewrite map_lookup_imap.
      destruct (e_profiles e !! id) as [p|] eqn:Hp; simpl.
      * rewrite (proj1 (turns_compose now id p _ _)) in V. by injection V.
      * destruct (e_runtime e !! id) as [rt|] eqn:Hr.
        { destruct (eo_runtime e He id) as [? ?]; [eauto|congruence]. }
        destruct (e_overrides e !! id) as [o|] eqn:Hov; [|by injection V].
        destruct (eo_overrides e He id o Hov) as (_ & [? ?] & _). congruence.
  - rewrite (bind_extend_perm _ os ps), bind_app_perm.
    + unfold watchdog_actions.
      rewrite (Forall_bind_ext _ (fun id => opt_list (action_for now e id)) ps).
      { by rewrite bind_opt_list, Hps. }
      apply Forall_forall. intros id [p Hp]%(range_elem _ _ _ Hps).
      etrans; [|etrans; [exact (proj2 (turns_compose now id p (e_overrides e !! id) (e_runtime e !! id)))|]].
      { unfold view_of. by rewrite Hp. }
      unfold action_for. by rewrite Hp.
    + by eapply range_NoDup.
    + by eapply range_NoDup.
    + intros id [o Ho]%(range_elem _ _ _ Hos). apply (range_elem _ _ _ Hps).
      by destruct (eo_overrides e He id o Ho) as (_ & ? & _).
    + intros id Hid. rewrite (range_elem _ _ id Hos), <- eq_None_not_Some in Hid.
      unfold view_of. by rewrite Hid.
Qed.

(** ** Consequences *)

Lemma action_for_id now e id a : action_for now e id = Some a → wa_EquipmentID a = id.
Proof.
  unfold action_for. destruct (e_profiles e !! id) as [p|]; [|done]. simpl.
  destruct (trip _ _ _ _); [|done]. by intros [= <-].
Qed.

Lemma elem_of_actions now e a :
  a ∈ watchdog_actions now e ↔ ∃ id, action_for now e id = Some a.
Proof.
  unfold watchdog_actions. rewrite list_elem_of_omap. split; [naive_solver|].
  intros [id Ha]. exists id. split; [|done]. apply (range_elem (e_profiles e)); [by unfold range_order|].
  unfold action_for in Ha. destruct (e_profiles e !! id); [eauto|simplify_eq/=].
Qed.


Lemma omap_ids now e l :
  NoDup l → NoDup (wa_EquipmentID <$> omap (action_for now e) l)
  ∧ ∀ id, id ∈ wa_EquipmentID <$> omap (action_for now e) l → id ∈ l.
Proof.
  assert (∀ (k : list string) id, id ∈ wa_EquipmentID <$> omap (action_for now e) k → id ∈ k) as Hsub.
  { intros k id (a & -> & (j & Hj & Ha)%list_elem_of_omap)%list_elem_of_fmap.
    by rewrite (action_for_id _ _ _ _ Ha). }
  intros Hnd. split; [|apply Hsub]. induction Hnd as [|id l Hid Hnd IH]; [constructor|]. simpl.
  destruct (action_for now e id) as [a|] eqn:Ha; [|done]. rewrite fmap_cons. constructor; [|done].
  rewrite (action_for_id _ _ _ _ Ha). intros Hin. by apply Hid, Hsub.
Qed.

Lemma length_actions now e : (length (watchdog_actions now e) ≤ size (e_profiles e))%nat.
Proof.
  unfold watchdog_actions. rewrite <- length_map_to_list, <- (length_fmap fst (map_to_list (e_profiles e))).
  generalize (fst <$> map_to_list (e_profiles e)). intros l.
  induction l as [|id l IH]; [done|]. cbn [omap list_omap length].
  destruct (action_for now e id); cbn [length]; lia.
Qed.

Lemma hazardous_fails_off p :
  Profile_Validate p = None → p_Hazardous p = true → p_FailSafeOn p = false.
Proof.
  unfold Profile_Validate. intros Hv Hz. destruct (p_FailSafeOn p) eqn:Hf; [|done].
  rewrite Hz in Hv. by repeat (go_case; try done).
Qed.

(** The conditions a watchdog supervises, for running equipment. *)
Definition limit_exceeded (now : Time) (p : Profile) (o : option Override) (rt : runtimeState) : Prop :=
  (∃ ov, o = Some ov ∧ ov_ExpiresAt ov ≤ now)
  ∨ 0 < MaximumOn (p_Limits p) ≤ Sub now (rt_onSince rt)
  ∨ 0 < MaximumDailyOn (p_Limits p) ≤ rt_dailyOn rt.

Lemma trip_iff now p o rt :
  is_Some (trip now p o rt) ↔
    rt_on rt = true ∧ rt_watchdogReason rt = "" ∧ limit_exceeded now p o (account rt now).
Proof.
  unfold trip, limit_exceeded. rewrite account_on, account_reason.
  destruct (rt_on rt); [case_bool_decide|]; simpl.
  2,3: split; [by intros [? ?]|naive_solver].
  transitivity (expired now o = true ∨ 0 < MaximumOn (p_Limits p) ≤ Sub now (rt_onSince (account rt now))
    ∨ 0 < MaximumDailyOn (p_Limits p) ≤ rt_dailyOn (account rt now)).
  - unfold expired. destruct (match o with Some _ => _ | None => _ end) eqn:Hx; [naive_solver|].
    destruct (_ && _) eqn:H1; go_bool; [naive_solver|].
    destruct (_ && _) eqn:H2; go_bool; [naive_solver|].
    split; [by intros [? ?]|]. intros [?|[?|?]]; [done|lia..].
  - assert (expired now o = true ↔ ∃ ov, o = Some ov ∧ ov_ExpiresAt ov ≤ now) as ->; [|tauto].
    unfold expired. destruct o as [ov|]; [|split; [done|naive_solver]]. go_bool. naive_solver.
Qed.

Lemma action_for_exact now e id p :
  e_profiles e !! id = Some p →
  (is_Some (action_for now e id) ↔ is_Some (trip now p (e_overrides e !! id) (runtime_of id e)))
  ∧ ∀ a, action_for now e id = Some a →
      wa_EquipmentID a = id ∧ wa_On a = p_FailSafeOn p ∧ wa_ObservedAt a = now.
Proof.
  intros Hp. unfold action_for. rewrite Hp. simpl. split; [by rewrite fmap_is_Some|].
  intros a (reason & _ & ->)%fmap_Some. done.
Qed.

(** Equipment whose trip has been reported stays silent until its reported
    state changes. *)
Definition tripped (id : EquipmentID) (e : Engine) : Prop := rt_watchdogReason (runtime_of id e) ≠ "".

Lemma tripped_silent now e id : tripped id e → action_for now e id = None.
Proof.
  intros Ht. unfold action_for. destruct (e_profiles e !! id) as [p|]; [|done]. simpl.
  destruct (trip _ _ _ _) eqn:E; [|done].
  destruct (proj1 (trip_iff now p (e_overrides e !! id) (runtime_of id e)) (mk_is_Some _ _ E)) as (_ & ? & _). done.
Qed.

Lemma polled_tripped now e id a : action_for now e id = Some a → tripped id (watchdog_engine now e).
Proof.
  unfold action_for. intros Ha. destruct (e_profiles e !! id) as [p|] eqn:Hp; [|done]. simpl in Ha.
  apply fmap_Some in Ha as (reason & Hreason & _).
  unfold tripped, runtime_of. simpl. rewrite map_lookup_imap, Hp. simpl.
  unfold polled. rewrite Hreason. simpl. unfold trip in Hreason. repeat (go_case; simplify_eq/=); done.
Qed.

Lemma CheckWatchdogs_member ctx now os ps e a :
  engine_ok e → range_order (e_overrides e) os → range_order (e_profiles e) ps →
  a ∈ (CheckWatchdogs ctx now os ps e).2.1 → action_for now e (wa_EquipmentID a) = Some a.
Proof.
  intros He Hos Hps Hin. destruct (ctx_Err ctx) as [err|] eqn:Hctx.
  { unfold CheckWatchdogs in Hin. rewrite Hctx in Hin. by apply not_elem_of_nil in Hin. }
  destruct (CheckWatchdogs_refines ctx now os ps e) as (acts & E & Ha); [done..|].
  rewrite E in Hin. simpl in Hin. rewrite Ha, elem_of_actions in Hin. destruct Hin as [id Hid].
  by rewrite (action_for_id _ _ _ _ Hid).
Qed.

Section poll.
Context (ctx : Context) (now : Time) (e : Engine) (Hok : engine_ok e) (Hctx : ctx_Err ctx = None).
Context (os ps : list EquipmentID).
Context (Hos : range_order (e_overrides e) os) (Hps : range_order (e_profiles e) ps).

(** C39: Go ranges over the override and profile maps in any order; whatever
    the two orders, in an engine in order, as its operations keep it, and in a
    context that is not cancelled, a poll leaves the same engine and returns
    the same actions up to order, at most one per equipment, and both are
    those of the order-free specification [watchdog_engine] and
    [watchdog_actions]. *)
Theorem CheckWatchdogs_deterministic os' ps' :
  range_order (e_overrides e) os' → range_order (e_profiles e) ps' →
  let r := CheckWatchdogs ctx now os ps e in
  let r' := CheckWatchdogs ctx now os' ps' e in
  r'.1 = r.1 ∧ r'.2.1 ≡ₚ r.2.1 ∧ r.2.2 = None ∧ r'.2.2 = None
  ∧ NoDup (wa_EquipmentID <$> r.2.1)
  ∧ r.1 = watchdog_engine now e ∧ r.2.1 ≡ₚ watchdog_actions now e.
Proof.
  intros Hos' Hps' r r'.
  destruct (CheckWatchdogs_refines ctx now os ps e) as (a & E & Ha); [done..|].
  destruct (CheckWatchdogs_refines ctx now os' ps' e) as (a' & E' & Ha'); [done..|].
  unfold r, r'. rewrite E, E'. simpl. split_and!; try done; [by rewrite Ha, Ha'|].
  rewrite Ha. apply omap_ids, NoDup_fst_map_to_list.
Qed.

(** C23: a poll returns an action for a known equipment exactly when it is on,
    untripped and either an override of it has expired or its continuous or
    daily on time has reached the limit, and the action asks for the fail-safe
    state, which is off for hazardous equipment. *)
Theorem watchdog_trips_exactly id p :
  e_profiles e !! id = Some p →
  let rt := runtime_of id e in
  let actions := (CheckWatchdogs ctx now os ps e).2.1 in
  (id ∈ wa_EquipmentID <$> actions ↔
     rt_on rt = true ∧ rt_watchdogReason rt = ""
     ∧ limit_exceeded now p (e_overrides e !! id) (account rt now))
  ∧ ∀ a, a ∈ actions → wa_EquipmentID a = id →
      wa_On a = p_FailSafeOn p ∧ (p_Hazardous p = true → wa_On a = false).
Proof.
  intros Hp rt actions.
  destruct (CheckWatchdogs_refines ctx now os ps e) as (acts & E & Ha); [done..|].
  unfold actions. rewrite E. simpl. destruct (action_for_exact now e id p Hp) as [Hiff Hact].
  assert (∀ a, a ∈ acts → wa_EquipmentID a = id → action_for now e id = Some a) as Hin.
  { intros a. rewrite Ha, elem_of_actions. intros [j Hj] <-. by rewrite (action_for_id _ _ _ _ Hj). }
  split.
  - unfold rt; rewrite <- trip_iff, <- Hiff, list_elem_of_fmap. split.
    + intros (a & -> & Hmem). exists a. by apply Hin.
    + intros [a Hsome]. exists a. split; [by rewrite (action_for_id _ _ _ _ Hsome)|].
      rewrite Ha. apply elem_of_actions. eauto.
  - intros a Hmem Hid. destruct (Hact a (Hin a Hmem Hid)) as (_ & -> & _). split; [done|].
    apply hazardous_fails_off. by eapply eo_valid.
Qed.

(** Equipment that a poll tripped is not tripped by the next one. *)
Theorem watchdog_trips_once now' os' ps' a a' :
  let e' := (CheckWatchdogs ctx now os ps e).1 in
  range_order (e_overrides e') os' → range_order (e_profiles e') ps' →
  a ∈ (CheckWatchdogs ctx now os ps e).2.1 →
  a' ∈ (CheckWatchdogs ctx now' os' ps' e').2.1 →
  wa_EquipmentID a' ≠ wa_EquipmentID a.
Proof.
  intros e' Hos' Hps' Hin Hin' Heq.
  assert (engine_ok e') as Hok' by (by apply CheckWatchdogs_ok).
  apply CheckWatchdogs_member in Hin; [|done..]. apply CheckWatchdogs_member in Hin'; [|done..].
  destruct (CheckWatchdogs_refines ctx now os ps e) as (acts & E & _); [done..|].
  unfold e' in Hin'. rewrite E in Hin'. simpl in Hin'.
  rewrite Heq, (tripped_silent now') in Hin' by (by eapply polled_tripped). done.
Qed.
End poll.
