(* ===== verification/Accounting.v ===== *)
(** * Daily accounting of the safety engine

    The figure [Evaluate] and [CheckWatchdogs] compare with [MaximumDailyOn] is
    the exact time the equipment was reported on since midnight UTC, whatever
    evaluations and polls happen in between; and what breaks that accounting. *)

From Stdlib Require Import ZArith Lia String.
From stdpp Require Import base gmap strings list.
From S2P Require Import Prelude Domain Health State Equipment Safety Watchdogs.

(** ** A day of observations of one equipment *)
Inductive observation :=
| Reported (on : bool)
| Evaluated (on : bool)
| Polled (overrides profiles : list EquipmentID).

Definition on_after (on : bool) (o : observation) : bool :=
  match o with Reported b => b | _ => on end.

(** The time spent on from [from] to [until], from the reports alone. *)
Fixpoint on_time (on : bool) (from : Time) (trace : list (Time * observation)) (until : Time) : Duration :=
  match trace with
  | [] => if on then until - from else 0
  | (t, o) :: rest => (if on then t - from else 0) + on_time (on_after on o) t rest until
  end.

(** A trace in time order within UTC day [D]. *)
Fixpoint day_trace (D : Z) (from : Time) (trace : list (Time * observation)) (until : Time) : Prop :=
  match trace with
  | [] => from ≤ until ∧ utc_date until = Some D
  | (t, _) :: rest => from ≤ t ∧ utc_date t = Some D ∧ day_trace D t rest until
  end.

Section accounting.
Context {R : Type} `{!StateReader R} (reader : R) (id : EquipmentID).

(** The engine operation each observation stands for. *)
Definition engine_observe (e : Engine) (obs : Time * observation) : Engine :=
  let '(t, o) := obs in
  match o with
  | Reported on => (RecordReported Background id on t e).1
  | Evaluated on => (Evaluate Background t reader (mkIntent id on t) e).1
  | Polled os ps => (CheckWatchdogs Background t os ps e).1
  end.

(** What the runtime record knows of day [D] at [t] when the time on so far is
    [total]: the daily counter plus the time since it was last brought up. *)
Definition accounted (D : Z) (t : Time) (on : bool) (total : Duration) (rt : runtimeState) : Prop :=
  rt_on rt = on ∧ 0 ≤ total ≤ t - D * nanos_per_day ∧
  if on then
    rt_dailyDate rt = Some D ∧ 0 < rt_lastAccounted rt ≤ t
    ∧ D * nanos_per_day ≤ rt_lastAccounted rt
    ∧ 0 ≤ rt_dailyOn rt ∧ rt_dailyOn rt + (t - rt_lastAccounted rt) = total
  else (rt_dailyDate rt = Some D ∧ rt_dailyOn rt = total) ∨ (rt_dailyDate rt ≠ Some D ∧ total = 0).

Lemma utc_date_bounds t D :
  utc_date t = Some D → D * nanos_per_day ≤ t < D * nanos_per_day + nanos_per_day.
Proof.
  intros [= <-]. unfold nanos_per_day in *.
  pose proof (Z.mod_pos_bound t (86400 * 1000000000)). pose proof (Z_div_mod_eq_full t (86400 * 1000000000)). lia.
Qed.

Lemma accounted_advance D t t' on total rt :
  t ≤ t' → accounted D t on total rt → accounted D t' on (total + if on then t' - t else 0) rt.
Proof. unfold accounted. destruct on; intuition lia. Qed.

Lemma accounted_account D t on total rt :
  utc_date t = Some D → 0 < t → accounted D t on total rt →
  accounted D t on total (account rt t) ∧ rt_dailyOn (account rt t) = total
  ∧ rt_dailyDate (account rt t) = Some D ∧ (on = true → rt_lastAccounted (account rt t) = t).
Proof.
  intros Ht Hpos (Hon & Htot & Hrest). pose proof (utc_date_bounds t D Ht) as Hb.
  unfold nanos_per_day in *. unfold accounted. rewrite account_on. unfold account. rewrite Ht.
  destruct on.
  - destruct Hrest as (Hd & Hla & Hlo & Hdn & Hsum).
    rewrite bool_decide_eq_false_2 by (intros H; by apply H). rewrite Hon. unfold IsZero, After.
    destruct (Z.eqb_spec (rt_lastAccounted rt) 0); [lia|]. simpl.
    destruct (Z.ltb_spec (rt_lastAccounted rt) t); simpl.
    + unfold Sub, min_int64, max_int64. rewrite wrap_int64_id; [|unfold in_int64, min_int64, max_int64; lia].
      unfold nanos_per_day. split_and!; done || lia.
    + unfold nanos_per_day. split_and!; done || lia.
  - case_bool_decide as Hd; simpl; rewrite Hon; simpl; unfold nanos_per_day.
    + destruct Hrest as [[? ?]|[? ->]]; [congruence|]. split_and!; try done || lia. by left.
    + destruct Hrest as [[? ->]|[? ?]]; [|done]. split_and!; try done || lia. by left.
Qed.

Lemma accounted_report D t on total rt on' :
  utc_date t = Some D → 0 < t → accounted D t on total rt → accounted D t on' total (report rt on' t).
Proof.
  intros Ht Hpos Ha. destruct (accounted_account D t on total rt Ht Hpos Ha) as (Hb & Hd & Hdate & Hla).
  pose proof (utc_date_bounds t D Ht) as Hr. destruct Ha as (_ & Htot & _).
  unfold report. destruct (Bool.eqb (rt_on (account rt t)) on') eqn:He.
  { apply Bool.eqb_prop in He. destruct Hb as (Hon & ? & ?). rewrite Hon in He. by subst on'. }
  unfold accounted. destruct on'; simpl; rewrite Hd, Hdate; (split; [done|]); (split; [done|]);
    [split_and!; done || lia|by left].
Qed.

(** A loop of the poll keeps what is known of the record when each turn does. *)
Lemma loop_accounted D t on total step turn ks acc :
  is_turn step turn →
  (∀ v, accounted D t on total (default zero_runtime v.2) →
    accounted D t on total (default zero_runtime (turn id v).1.2)) →
  accounted D t on total (runtime_of id acc.1) →
  accounted D t on total (runtime_of id (foldl step acc ks).1).
Proof.
  intros Hstep Hturn. apply (foldl_invariant (fun a => accounted D t on total (runtime_of id a.1))).
  intros [e a] j Ha. destruct (Hstep e a j) as (Hj & _ & Hne & _).
  destruct (decide (id = j)) as [<-|Hn].
  - specialize (Hturn (view_of id e) Ha). by rewrite <- Hj in Hturn.
  - specialize (Hne id Hn). apply (f_equal snd) in Hne. simpl in Hne. unfold runtime_of. by rewrite Hne.
Qed.

Lemma accounted_poll D t on total e os ps :
  utc_date t = Some D → 0 < t → accounted D t on total (runtime_of id e) →
  accounted D t on total (runtime_of id (CheckWatchdogs Background t os ps e).1).
Proof.
  intros Ht Hpos Ha. unfold CheckWatchdogs, UTC. simpl.
  pose proof (loop_accounted D t on total (watchdog_override t) (override_turn t) os (e, [])) as H1.
  destruct (foldl _ _ os) as [e1 a1].
  pose proof (loop_accounted D t on total (watchdog_limits t) (limits_turn t) ps (e1, a1)) as H2.
  destruct (foldl _ _ ps) as [e2 a2]. simpl in *.
  apply H2; [intros ???; apply watchdog_limits_turn| |apply H1; [intros ???; apply watchdog_override_turn| |done]];
    intros [[p o] r] Hv; simpl in Hv.
  - unfold limits_turn. destruct p; [|done]. cbn -[polled account trip]. unfold polled.
    destruct (trip _ _ _ _); by apply accounted_account.
  - unfold override_turn. destruct (expired t o); [|done]. destruct (_ && _); by apply accounted_account.
Qed.

Lemma observe_profiles e obs : e_profiles (engine_observe e obs) = e_profiles e.
Proof.
  destruct obs as [t [on|on|os ps]]; simpl.
  - unfold RecordReported. simpl. by repeat (go_case; simpl).
  - unfold Evaluate. simpl. by repeat (go_case; simplify_eq/=).
  - unfold CheckWatchdogs. simpl.
    assert (∀ step turn ks acc, is_turn step turn →
      e_profiles (foldl step acc ks).1 = e_profiles acc.1) as Hl.
    { intros step turn ks acc Ht. apply (foldl_invariant (fun a => e_profiles a.1 = e_profiles acc.1)); [|done].
      intros [e0 a0] j <-. by apply Ht. }
    pose proof (Hl _ _ os (e, []) (fun a b c => watchdog_override_turn (UTC t) a b c)) as H1.
    destruct (foldl _ _ os) as [e1 a1].
    pose proof (Hl _ _ ps (e1, a1) (fun a b c => watchdog_limits_turn (UTC t) a b c)) as H2.
    destruct (foldl _ _ ps) as [e2 a2]. simpl in *. congruence.
Qed.

Lemma accounted_observe D t on total e o :
  is_Some (e_profiles e !! id) → utc_date t = Some D → 0 < t →
  accounted D t on total (runtime_of id e) →
  accounted D t (on_after on o) total (runtime_of id (engine_observe e (t, o))).
Proof.
  intros [p Hp] Ht Hpos Ha. destruct o as [b|b|os ps]; simpl.
  - unfold RecordReported. simpl. unfold IsZero. destruct (Z.eqb_spec t 0); [lia|].
    rewrite Hp. simpl. unfold runtime_of at 1. simpl. rewrite lookup_insert_eq. simpl.
    by eapply accounted_report.
  - unfold Evaluate. simpl. rewrite Hp. unfold IsZero. destruct (Z.eqb_spec t 0); [lia|].
    assert (accounted D t on total (account (runtime_of id e) t)) as Hacc by (by apply accounted_account).
    repeat (go_case; simplify_eq/=); unfold runtime_of at 1; simpl; by rewrite lookup_insert_eq.
  - by apply accounted_poll.
Qed.

Lemma accounted_trace D from trace until on total e :
  is_Some (e_profiles e !! id) → 0 < from → day_trace D from trace until →
  accounted D from on total (runtime_of id e) →
  rt_dailyOn (account (runtime_of id (foldl engine_observe e trace)) until)
    = total + on_time on from trace until
  ∧ 0 ≤ total + on_time on from trace until ≤ until - D * nanos_per_day.
Proof.
  revert from on total e. induction trace as [|[t o] trace IH]; intros from on total e Hp Hpos Hday Ha; cbn [foldl on_time day_trace] in *.
  - destruct Hday as [Hle Hd]. apply (accounted_advance _ _ until) in Ha; [|done].
    destruct (accounted_account D until on _ _ Hd ltac:(lia) Ha) as (_ & -> & _).
    split; [done|]. by destruct Ha as (_ & ? & _).
  - destruct Hday as (Hle & Hd & Hday). apply (accounted_advance _ _ t) in Ha; [|done].
    rewrite Z.add_assoc. apply IH; [by rewrite observe_profiles|lia|done|].
    apply accounted_observe; done || lia.
Qed.

(** C24: for equipment that is off at the start of a UTC day, over any trace
    of reports, evaluations and polls in time order within the day, the daily
    counter brought up to date equals the time the reports say the equipment
    was on, and lies between zero and the time of day. *)
Theorem daily_accounting_exact D from trace until e :
  is_Some (e_profiles e !! id) →
  rt_on (runtime_of id e) = false → rt_dailyDate (runtime_of id e) ≠ Some D →
  0 < from → utc_date from = Some D → day_trace D from trace until →
  let counted := rt_dailyOn (account (runtime_of id (foldl engine_observe e trace)) until) in
  counted = on_time false from trace until ∧ 0 ≤ counted ≤ until - D * nanos_per_day.
Proof.
  intros Hp Hoff Hdate Hpos Hfrom Hday. cbn zeta.
  destruct (accounted_trace D from trace until false 0 e) as [-> Hb]; try done.
  pose proof (utc_date_bounds from D Hfrom). split; [done|]. split; [lia|]. by right.
Qed.
End accounting.

(** ** The instant of evaluation is the requester's

    [Evaluate] takes the command's [IssuedAt] as the present, and accounts at
    it, without relating it to the clock. *)
Section issued_at.
Context {R : Type} `{!StateReader R}.

Lemma account_other_date rt t now :
  utc_date t ≠ utc_date now → rt_dailyOn (account (account rt t) now) = 0.
Proof.
  intros Hd. pose proof (account_date rt t) as Hdate.
  revert Hdate. generalize (account rt t) as r. intros r Hr. unfold account.
  rewrite bool_decide_eq_true_2 by congruence. simpl.
  destruct (rt_on r) eqn:Hon; simpl; [|done]. unfold After. rewrite Z.ltb_irrefl, andb_false_r. done.
Qed.

(** An evaluation of an intent issued on another UTC date than today leaves
    the equipment's daily on time at zero when it is next brought up to today,
    whatever it was. *)
Theorem evaluation_on_another_date_erases_total ctx clock (reader : R) intent e now :
  ctx_Err ctx = None → is_Some (e_profiles e !! in_EquipmentID intent) →
  in_IssuedAt intent ≠ 0 → utc_date (in_IssuedAt intent) ≠ utc_date now →
  let e' := (Evaluate ctx clock reader intent e).1 in
  rt_dailyOn (account (runtime_of (in_EquipmentID intent) e') now) = 0.
Proof.
  intros Hctx [p Hp] Hz Hd. cbn zeta.
  assert (runtime_of (in_EquipmentID intent) (Evaluate ctx clock reader intent e).1
    = account (runtime_of (in_EquipmentID intent) e) (in_IssuedAt intent)) as ->;
    [|by apply account_other_date].
  unfold Evaluate. rewrite Hctx, Hp. unfold IsZero. destruct (Z.eqb_spec (in_IssuedAt intent) 0); [done|].
  unfold accountLocked. simpl.
  repeat (go_case; simplify_eq/=); unfold runtime_of at 1; simpl; by rewrite lookup_insert_eq.
Qed.
End issued_at.
