(* ===== verification/Output.v ===== *)
(** * The command service: [internal/output/service.go] and [router.go]

    The only authorized path to equipment. The boundaries [Policy],
    [RevisionReader], [Executor] and [Publisher] are classes; their states are
    fields of the service, as in the source. Clock readings and generated IDs
    come from the oracles [now], [newCommandID], [newCorrelationID] and
    [factory], indexed by the number of readings taken so far ([sv_tick]). *)

From Stdlib Require Import ZArith Lia String.
From stdpp Require Import base gmap strings list sorting.
From S2P Require Import Prelude Domain Health Events State Safety.

Inductive CommandStatus :=
| StatusValidated | StatusRejected | StatusDispatched | StatusAcknowledged
| StatusSucceeded | StatusFailed | StatusExpired | StatusOther (s : string).

#[export] Instance CommandStatus_eq_dec : EqDecision CommandStatus.
Proof. solve_decision. Defined.

Definition ReasonValidated : string := "command.validated".
Definition ReasonDispatched : string := "command.dispatched".
Definition ReasonExpired : string := "command.expired".
Definition ReasonRevisionConflict : string := "command.revision_conflict".
Definition ReasonDispatchFailed : string := "command.dispatch_failed".
Definition ReasonAdapterRejected : string := "command.adapter_rejected".
Definition ReasonAcknowledged : string := "command.acknowledged".
Definition ReasonReconciled : string := "command.reconciled".
Definition ReasonReportedMismatch : string := "command.reported_mismatch".

Record Command := mkCommand {
  c_ID : CommandID;
  c_IdempotencyKey : string;
  c_CorrelationID : CorrelationID;
  c_EquipmentID : EquipmentID;
  c_Requester : string;
  c_IssuedAt : Time;
  c_ExpiresAt : Time;
  c_ExpectedRevision : option Revision;
  c_On : bool
}.

Definition zero_Command : Command := mkCommand "" "" "" "" "" 0 0 None false.

Record Result := mkResult {
  r_Command : Command;
  r_Status : CommandStatus;
  r_Reason : string;
  r_UpdatedAt : Time;
  r_AcknowledgedAt : option Time;
  r_ReconciledAt : option Time
}.

Definition zero_Result : Result := mkResult zero_Command (StatusOther "") "" 0 None None.

Record Acknowledgement := mkAcknowledgement {
  ack_Accepted : bool;
  ack_Reason : string;
  ack_AcknowledgedAt : Time
}.

(** ** Boundaries *)
Class Executor (X : Type) :=
  { Dispatch : Context → Command → X → (Acknowledgement * option error) * X }.

Class Policy (P : Type) := {
  policy_Evaluate : Context → Intent → P → (Decision * option error) * P;
  policy_RecordReported : Context → EquipmentID → bool → Time → P → option error * P;
  policy_CheckWatchdogs : Context → P → (list WatchdogAction * option error) * P
}.

Class RevisionReader (V : Type) := { revisions_Snapshot : Context → V → Snapshot * option error }.

Definition ErrCommandNotFound : error := ErrVar "output.ErrNotFound".
Definition ErrConflict : error := ErrVar "output.ErrConflict".
Definition ErrInvalidTransition : error := ErrVar "output.ErrInvalidTransition".

(** ** Validation and copies *)
Definition validateCommand (command : Command) : option error :=
  iferr validateUUID (c_ID command) as err yield Some (ErrWrap "command ID" err);;
  iferr validateUUID (c_CorrelationID command) as err yield Some (ErrWrap "correlation ID" err);;
  iferr validateUUID (c_EquipmentID command) as err yield Some (ErrWrap "equipment ID" err);;
  when bool_decide (c_IdempotencyKey command = "")
       || (128 <? Z.of_nat (String.length (c_IdempotencyKey command))) yield
    Some (ErrNew "idempotency key is required and cannot exceed 128 bytes");;
  when bool_decide (c_Requester command = "") yield
    Some (ErrNew "command requester is required");;
  when IsZero (c_IssuedAt command) || IsZero (c_ExpiresAt command)
       || negb (After (c_ExpiresAt command) (c_IssuedAt command)) yield
    Some (ErrNew "command expiry must follow issue time");;
  None.

Definition equivalent (left right : Command) : bool :=
  bool_decide (c_IdempotencyKey left = c_IdempotencyKey right)
  && bool_decide (c_EquipmentID left = c_EquipmentID right)
  && bool_decide (c_Requester left = c_Requester right)
  && Bool.eqb (c_On left) (c_On right).

Definition cloneTime (value : option Time) : option Time :=
  match value with None => None | Some t => Some t end.

Definition cloneCommand (c : Command) : Command :=
  mkCommand (c_ID c) (c_IdempotencyKey c) (c_CorrelationID c) (c_EquipmentID c) (c_Requester c)
    (c_IssuedAt c) (c_ExpiresAt c)
    (match c_ExpectedRevision c with Some v => Some v | None => None end) (c_On c).

Definition cloneResult (r : Result) : Result :=
  mkResult (cloneCommand (r_Command r)) (r_Status r) (r_Reason r) (r_UpdatedAt r)
    (cloneTime (r_AcknowledgedAt r)) (cloneTime (r_ReconciledAt r)).

Lemma cloneTime_id t : cloneTime t = t.
Proof. by destruct t. Qed.
Lemma cloneCommand_id c : cloneCommand c = c.
Proof. by destruct c as [???????[?|] ?]. Qed.
Lemma cloneResult_id r : cloneResult r = r.
Proof. unfold cloneResult. rewrite !cloneTime_id, cloneCommand_id. by destruct r. Qed.
#[export] Hint Rewrite cloneTime_id cloneCommand_id cloneResult_id : clone.

Definition with_id (id : CommandID) (c : Command) : Command :=
  mkCommand id (c_IdempotencyKey c) (c_CorrelationID c) (c_EquipmentID c) (c_Requester c)
    (c_IssuedAt c) (c_ExpiresAt c) (c_ExpectedRevision c) (c_On c).
Definition with_correlation (id : CorrelationID) (c : Command) : Command :=
  mkCommand (c_ID c) (c_IdempotencyKey c) id (c_EquipmentID c) (c_Requester c)
    (c_IssuedAt c) (c_ExpiresAt c) (c_ExpectedRevision c) (c_On c).

Section service.
Context {P V X W : Type} `{!Policy P, !RevisionReader V, !Executor X, !Publisher W}.
Context `{!JSON, !Marshaler Result}.
Context (now : nat → Time).
Context (newCommandID : nat → CommandID * option error).
Context (newCorrelationID : nat → CorrelationID * option error).
Context (factory : nat → FactoryEnv).

(** ** State *)
Record Service := mkService {
  sv_results : gmap string Result;
  sv_idempotency : gmap string CommandID;
  sv_policy : P;
  sv_revisions : V;
  sv_executor : X;
  sv_publisher : option W;
  sv_started : bool;
  sv_tick : nat
}.

(** [dependencies] says that every required dependency is non-nil. *)
Definition NewServiceWithDependencies (dependencies : bool) (policy : P) (revisions : V) (executor : X)
    (publisher : option W) : Service + error :=
  when negb dependencies yield inr (ErrNew "all command service dependencies are required");;
  inl (mkService ∅ ∅ policy revisions executor publisher false 0).

Definition tick (s : Service) : Service :=
  mkService (sv_results s) (sv_idempotency s) (sv_policy s) (sv_revisions s) (sv_executor s)
    (sv_publisher s) (sv_started s) (S (sv_tick s)).
Definition set_policy (p : P) (s : Service) : Service :=
  mkService (sv_results s) (sv_idempotency s) p (sv_revisions s) (sv_executor s)
    (sv_publisher s) (sv_started s) (sv_tick s).
Definition set_executor (x : X) (s : Service) : Service :=
  mkService (sv_results s) (sv_idempotency s) (sv_policy s) (sv_revisions s) x
    (sv_publisher s) (sv_started s) (sv_tick s).
Definition set_publisher (w : option W) (s : Service) : Service :=
  mkService (sv_results s) (sv_idempotency s) (sv_policy s) (sv_revisions s) (sv_executor s)
    w (sv_started s) (sv_tick s).
Definition set_results (m : gmap string Result) (s : Service) : Service :=
  mkService m (sv_idempotency s) (sv_policy s) (sv_revisions s) (sv_executor s)
    (sv_publisher s) (sv_started s) (sv_tick s).
Definition set_idempotency (m : gmap string CommandID) (s : Service) : Service :=
  mkService (sv_results s) m (sv_policy s) (sv_revisions s) (sv_executor s)
    (sv_publisher s) (sv_started s) (sv_tick s).
Definition set_service_started (b : bool) (s : Service) : Service :=
  mkService (sv_results s) (sv_idempotency s) (sv_policy s) (sv_revisions s) (sv_executor s)
    (sv_publisher s) b (sv_tick s).

(** [s.now()], [s.newCommandID()], [s.newCorrelationID()]. *)
Definition read_now (s : Service) : Time * Service := (UTC (now (sv_tick s)), tick s).
Definition read_commandID (s : Service) : (CommandID * option error) * Service :=
  (newCommandID (sv_tick s), tick s).
Definition read_correlationID (s : Service) : (CorrelationID * option error) * Service :=
  (newCorrelationID (sv_tick s), tick s).

Definition Service_Start (ctx : Context) (s : Service) : Service * option error :=
  (set_service_started true s, None).
Definition Service_Stop (ctx : Context) (s : Service) : Service * option error :=
  (set_service_started false s, None).
Definition Service_Health (clock : Time) (s : Service) : Status :=
  lifecycle_status "output" (sv_started s) clock.

(** ** Recording and transitions *)
Definition command_emit (ctx : Context) (eventType : EventType) (result : Result) (s : Service) :
    option error * Service :=
  let severity :=
    if bool_decide (r_Status result = StatusRejected) || bool_decide (r_Status result = StatusFailed)
       || bool_decide (r_Status result = StatusExpired)
    then SeverityWarning else SeverityInfo in
  let '(err, w) := emit_with (factory (sv_tick s)) ctx "output" eventType severity result
    (c_CorrelationID (r_Command result)) (sv_publisher s) in
  (err, set_publisher w (tick s)).

Definition record (ctx : Context) (command : Command) (status : CommandStatus) (reason : string)
    (eventType : EventType) (s : Service) : (Result * option error) * Service :=
  let '(updatedAt, s) := read_now s in
  let result := mkResult (cloneCommand command) status reason updatedAt None None in
  let s := set_results (<[c_ID command := result]> (sv_results s)) s in
  let s := set_idempotency (<[c_IdempotencyKey command := c_ID command]> (sv_idempotency s)) s in
  let '(err, s) := command_emit ctx eventType result s in
  ((cloneResult result, err), s).

Definition transition (ctx : Context) (id : CommandID) (status : CommandStatus) (reason : string)
    (eventType : EventType) (at_ : option Time) (s : Service) : (Result * option error) * Service :=
  match sv_results s !! id with
  | None => ((zero_Result, Some ErrCommandNotFound), s)
  | Some result =>
      let '(updatedAt, s) := read_now s in
      let result := mkResult (r_Command result) status reason updatedAt
        (if bool_decide (status = StatusAcknowledged) then cloneTime at_ else r_AcknowledgedAt result)
        (if bool_decide (status = StatusSucceeded) then cloneTime at_ else r_ReconciledAt result) in
      let s := set_results (<[id := result]> (sv_results s)) s in
      let '(err, s) := command_emit ctx eventType result s in
      ((cloneResult result, err), s)
  end.

(** ** Submit

    [Submit_check] ends where the source releases the lock after the
    idempotency lookup; another submission may run before [Submit_proceed]. *)
Definition Submit_check (ctx : Context) (command : Command) (s : Service) :
    (Command + Result * option error) * Service :=
  iferr ctx_Err ctx as err yield (inr (zero_Result, Some err), s);;
  let '(id, err, s) :=
    if bool_decide (c_ID command = "") then read_commandID s else (c_ID command, None, s) in
  iferr err as err yield (inr (zero_Result, Some err), s);;
  let command := with_id id command in
  let '(id, err, s) :=
    if bool_decide (c_CorrelationID command = "") then read_correlationID s
    else (c_CorrelationID command, None, s) in
  iferr err as err yield (inr (zero_Result, Some err), s);;
  let command := with_correlation id command in
  iferr validateCommand command as err yield (inr (zero_Result, Some err), s);;
  match sv_idempotency s !! c_IdempotencyKey command with
  | Some id =>
      let existing := default zero_Result (sv_results s !! id) in
      if equivalent (r_Command existing) command
      then (inr (cloneResult existing, None), s)
      else (inr (zero_Result, Some ErrConflict), s)
  | None => (inl command, s)
  end.

(** From [s.executor.Dispatch] on. *)
Definition Submit_dispatch (ctx : Context) (command : Command) (s : Service) :
    (Result * option error) * Service :=
  let '(acknowledgement, dispatchErr, x) := Dispatch ctx command (sv_executor s) in
  let s := set_executor x s in
  match dispatchErr with
  | Some _ => transition ctx (c_ID command) StatusFailed ReasonDispatchFailed CommandRejected None s
  | None =>
      when negb (ack_Accepted acknowledgement) yield
        transition ctx (c_ID command) StatusFailed ReasonAdapterRejected CommandRejected None s;;
      let '(acknowledgedAt, s) :=
        if IsZero (ack_AcknowledgedAt acknowledgement) then read_now s
        else (ack_AcknowledgedAt acknowledgement, s) in
      transition ctx (c_ID command) StatusAcknowledged ReasonAcknowledged CommandAcknowledged
        (Some acknowledgedAt) s
  end.

(** From the safety decision on. *)
Definition Submit_authorize (ctx : Context) (command : Command) (s : Service) :
    (Result * option error) * Service :=
  let '(decision, err, p) := policy_Evaluate ctx
    (mkIntent (c_EquipmentID command) (c_On command) (c_IssuedAt command)) (sv_policy s) in
  let s := set_policy p s in
  iferr err as err yield ((zero_Result, Some err), s);;
  when negb (d_Allowed decision) yield
    record ctx command StatusRejected (d_Reason decision) CommandRejected s;;
  let '(result, err, s) := record ctx command StatusValidated ReasonValidated CommandValidated s in
  iferr err as err yield ((result, Some err), s);;
  let '(result, err, s) :=
    transition ctx (c_ID command) StatusDispatched ReasonDispatched CommandDispatched None s in
  iferr err as err yield ((result, Some err), s);;
  Submit_dispatch ctx command s.

(** From the release of the lock on: expiry, revision, safety, dispatch. *)
Definition Submit_proceed (ctx : Context) (command : Command) (s : Service) :
    (Result * option error) * Service :=
  let '(now, s) := read_now s in
  when negb (Before now (c_ExpiresAt command)) yield
    record ctx command StatusExpired ReasonExpired CommandExpired s;;
  match c_ExpectedRevision command with
  | None => Submit_authorize ctx command s
  | Some expected =>
      let '(snapshot, err) := revisions_Snapshot ctx (sv_revisions s) in
      iferr err as err yield ((zero_Result, Some err), s);;
      when negb (snap_Revision snapshot =? expected) yield
        record ctx command StatusRejected ReasonRevisionConflict CommandRejected s;;
      Submit_authorize ctx command s
  end.

Definition Submit (ctx : Context) (command : Command) (s : Service) :
    (Result * option error) * Service :=
  match Submit_check ctx command s with
  | (inl command, s) => Submit_proceed ctx command s
  | (inr r, s) => (r, s)
  end.

(** ** Reconciliation *)
Definition Reconcile (ctx : Context) (id : CommandID) (reportedOn : bool) (observedAt : Time)
    (s : Service) : (Result * option error) * Service :=
  iferr ctx_Err ctx as err yield ((zero_Result, Some err), s);;
  when IsZero observedAt yield
    ((zero_Result, Some (ErrNew "reconciliation timestamp is required")), s);;
  match sv_results s !! id with
  | None => ((zero_Result, Some ErrCommandNotFound), s)
  | Some result =>
      when negb (bool_decide (r_Status result = StatusAcknowledged)) yield
        ((zero_Result, Some ErrInvalidTransition), s);;
      let '(err, p) := policy_RecordReported ctx (c_EquipmentID (r_Command result)) reportedOn
        observedAt (sv_policy s) in
      let s := set_policy p s in
      iferr err as err yield ((zero_Result, Some err), s);;
      when negb (Bool.eqb reportedOn (c_On (r_Command result))) yield
        transition ctx id StatusFailed ReasonReportedMismatch CommandReconciled None s;;
      transition ctx id StatusSucceeded ReasonReconciled CommandReconciled (Some observedAt) s
  end.

Definition ExpireAcknowledged (ctx : Context) (id : CommandID) (reason : string) (observedAt : Time)
    (s : Service) : (Result * option error) * Service :=
  iferr ctx_Err ctx as err yield ((zero_Result, Some err), s);;
  when bool_decide (reason = "") || IsZero observedAt yield
    ((zero_Result, Some (ErrNew "reconciliation expiry reason and timestamp are required")), s);;
  match sv_results s !! id with
  | None => ((zero_Result, Some ErrCommandNotFound), s)
  | Some result =>
      when negb (bool_decide (r_Status result = StatusAcknowledged)) yield
        ((zero_Result, Some ErrInvalidTransition), s);;
      when Before observedAt (c_ExpiresAt (r_Command result)) yield
        ((zero_Result, Some (ErrNew "cannot expire command before its deadline")), s);;
      transition ctx id StatusExpired reason CommandExpired None s
  end.

(** ** Queries *)
Definition Service_Get (ctx : Context) (id : CommandID) (s : Service) : Result * option error :=
  iferr ctx_Err ctx as err yield (zero_Result, Some err);;
  match sv_results s !! id with
  | None => (zero_Result, Some ErrCommandNotFound)
  | Some result => (cloneResult result, None)
  end.

(** [sort.Slice] by issue time; commands issued at the same instant come in any
    order, here in that of the sort used. *)
Definition issued_le (x y : Result) : Prop := c_IssuedAt (r_Command x) ≤ c_IssuedAt (r_Command y).
#[local] Instance issued_le_dec : RelDecision issued_le.
Proof. intros x y. unfold issued_le. apply _. Defined.

Definition Service_List (ctx : Context) (s : Service) : list Result * option error :=
  iferr ctx_Err ctx as err yield ([], Some err);;
  (merge_sort issued_le (cloneResult <$> values (sv_results s)), None).

(** ** Watchdogs *)
Definition watchdog_command (ttl : Duration) (id : CommandID) (correlationID : CorrelationID)
    (action : WatchdogAction) : Command :=
  mkCommand id ("watchdog/" +:+ id) correlationID (wa_EquipmentID action) "safety-watchdog"
    (wa_ObservedAt action) (Add (wa_ObservedAt action) ttl) None (wa_On action).

(** The loop of [RunWatchdogs] over the actions. *)
Fixpoint run_actions (ctx : Context) (ttl : Duration) (actions : list WatchdogAction)
    (results : list Result) (s : Service) : (list Result * option error) * Service :=
  match actions with
  | [] => ((results, None), s)
  | action :: rest =>
      let '(id, createErr, s) := read_commandID s in
      iferr createErr as err yield ((results, Some err), s);;
      let '(correlationID, createErr, s) := read_correlationID s in
      iferr createErr as err yield ((results, Some err), s);;
      let '(result, submitErr, s) := Submit ctx (watchdog_command ttl id correlationID action) s in
      let results := results ++ [result] in
      iferr submitErr as err yield ((results, Some err), s);;
      run_actions ctx ttl rest results s
  end.

Definition RunWatchdogs (ctx : Context) (ttl : Duration) (s : Service) :
    (list Result * option error) * Service :=
  when ttl <=? 0 yield (([], Some (ErrNew "watchdog command TTL must be positive")), s);;
  let '(actions, err, p) := policy_CheckWatchdogs ctx (sv_policy s) in
  let s := set_policy p s in
  iferr err as err yield (([], Some err), s);;
  run_actions ctx ttl actions [] s.
End service.

#[export] Instance Service_Component {P V X W} : Component (@Service P V X W) := {
  comp_Name := fun _ => "output"; comp_Start := Service_Start;
  comp_Stop := Service_Stop; comp_Health := Service_Health }.
#[export] Instance Service_Flag {P V X W} : FlagComponent (@Service P V X W).
Proof. by refine {| flag_started := sv_started |}. Defined.

(** ** Executors *)
Inductive RejectingExecutor := mkRejectingExecutor.
#[export] Instance Rejecting_Executor : Executor RejectingExecutor := {
  Dispatch := fun _ _ x => ((mkAcknowledgement false "adapter.not_configured" 0, None), x) }.

(** The router maps equipment to its adapter. Several equipment may share one
    adapter object: a route is a reference [A] into the adapters' state [Y]. *)
Class Adapters (A Y : Type) :=
  { adapter_Dispatch : A → Context → Command → Y → (Acknowledgement * option error) * Y }.

Record ExecutorRouter (A Y : Type) :=
  mkRouter { routes : gmap string A; fallback : RejectingExecutor; adapters : Y }.
Arguments mkRouter {A Y}.
Arguments routes {A Y}.
Arguments fallback {A Y}.
Arguments adapters {A Y}.

Definition NewExecutorRouter {A Y} (y : Y) : ExecutorRouter A Y := mkRouter ∅ mkRejectingExecutor y.

(** [executor] is [None] for a nil interface. *)
Definition Router_Register {A Y} (id : EquipmentID) (executor : option A) (r : ExecutorRouter A Y) :
    ExecutorRouter A Y * option error :=
  iferr validateUUID id as err yield (r, Some err);;
  match executor with
  | None => (r, Some (ErrNew "output executor is required"))
  | Some executor =>
      when bool_decide (is_Some (routes r !! id)) yield
        (r, Some (ErrNew "output executor already registered"));;
      (mkRouter (<[id := executor]> (routes r)) (fallback r) (adapters r), None)
  end.

Definition Router_Dispatch {A Y} `{!Adapters A Y} (ctx : Context) (command : Command)
    (r : ExecutorRouter A Y) : (Acknowledgement * option error) * ExecutorRouter A Y :=
  match routes r !! c_EquipmentID command with
  | Some executor =>
      let '(result, y) := adapter_Dispatch executor ctx command (adapters r) in
      (result, mkRouter (routes r) (fallback r) y)
  | None =>
      let '(result, f) := Dispatch ctx command (fallback r) in
      (result, mkRouter (routes r) f (adapters r))
  end.

#[export] Instance Router_Executor {A Y} `{!Adapters A Y} : Executor (ExecutorRouter A Y) :=
  { Dispatch := Router_Dispatch }.
