(* ===== verification/Commands.v ===== *)
(** * Correctness of the command pipeline

    Theorems about the command service of [Output]: what is dispatched and
    when, idempotent replay, the lifecycle of a command record, and three ways
    in which the pipeline loses a command or executes it twice. *)

From Stdlib Require Import ZArith Lia String.
From stdpp Require Import base gmap strings list sorting.
From S2P Require Import Prelude Domain Health Events State Safety Output.

(** An executor that also keeps the list of the commands it was handed. *)
Record Recording (X : Type) := mkRecording { rec_inner : X; rec_log : list Command }.
Arguments mkRecording {X}.
Arguments rec_inner {X}.
Arguments rec_log {X}.

#[export] Instance Recording_Executor {X} `{!Executor X} : Executor (Recording X) := {
  Dispatch := fun ctx command r =>
    let '(result, x) := Dispatch ctx command (rec_inner r) in
    (result, mkRecording x (rec_log r ++ [command])) }.

Section commands.
Context {P V X W : Type} `{!Policy P, !RevisionReader V, !Executor X, !Publisher W}.
Context `{!JSON, !Marshaler Result}.
Context (now : nat → Time).
Context (newCommandID : nat → CommandID * option error).
Context (newCorrelationID : nat → CorrelationID * option error).
Context (factory : nat → FactoryEnv).

Abbreviation Service := (@Service P V X W).
Abbreviation Submit_check := (Submit_check newCommandID newCorrelationID).
Abbreviation Submit_proceed := (Submit_proceed now factory).
Abbreviation Submit := (Submit now newCommandID newCorrelationID factory).
Abbreviation Reconcile := (Reconcile now factory).
Abbreviation ExpireAcknowledged := (ExpireAcknowledged now factory).
Abbreviation RunWatchdogs := (RunWatchdogs now newCommandID newCorrelationID factory).
Abbreviation record := (record now factory).
Abbreviation transition := (transition now factory).

(** ** What the building blocks leave alone *)

(** [s'] differs from [s] at most in results, idempotency keys, publisher and
    clock. *)
Record same_boundary (s s' : Service) : Prop := {
  sb_policy : sv_policy s' = sv_policy s;
  sb_revisions : sv_revisions s' = sv_revisions s;
  sb_executor : sv_executor s' = sv_executor s
}.

#[local] Instance same_boundary_refl : Reflexive same_boundary.
Proof. by split. Qed.
#[local] Instance same_boundary_trans : Transitive same_boundary.
Proof. intros ??? [] []. split; congruence. Qed.

Lemma command_emit_frame ctx ty r (s : Service) :
  let s' := (command_emit factory ctx ty r s).2 in
  sv_results s' = sv_results s ∧ sv_idempotency s' = sv_idempotency s ∧ same_boundary s s'.
Proof. unfold command_emit. destruct (emit_with _ _ _ _ _ _ _ _). by split_and!. Qed.

Lemma record_spec ctx c status reason ty (s : Service) :
  let '(r, err, s') := record ctx c status reason ty s in
  r = mkResult c status reason (now (sv_tick s)) None None
  ∧ sv_results s' = <[c_ID c := r]> (sv_results s)
  ∧ sv_idempotency s' = <[c_IdempotencyKey c := c_ID c]> (sv_idempotency s)
  ∧ same_boundary s s'.
Proof.
  unfold Output.record. cbn -[command_emit].
  match goal with |- context [command_emit ?f ?x ?t ?r ?s0] =>
    pose proof (command_emit_frame x t r s0) as Hf; destruct (command_emit f x t r s0) as [err s'] end.
  autorewrite with clone. simpl in Hf. destruct Hf as (Hr & Hi & [Hp Hv Hx]).
  rewrite cloneCommand_id in Hr. rewrite Hr, Hi. by split_and!.
Qed.

Lemma transition_spec ctx id status reason ty at_ (s : Service) old :
  sv_results s !! id = Some old →
  let '(r, err, s') := transition ctx id status reason ty at_ s in
  r = mkResult (r_Command old) status reason (now (sv_tick s))
        (if decide (status = StatusAcknowledged) then at_ else r_AcknowledgedAt old)
        (if decide (status = StatusSucceeded) then at_ else r_ReconciledAt old)
  ∧ sv_results s' = <[id := r]> (sv_results s)
  ∧ sv_idempotency s' = sv_idempotency s ∧ same_boundary s s'.
Proof.
  intros Hold. unfold Output.transition. rewrite Hold. cbn -[command_emit].
  match goal with |- context [command_emit ?f ?x ?t ?r ?s0] =>
    pose proof (command_emit_frame x t r s0) as Hf; destruct (command_emit f x t r s0) as [err s'] end.
  autorewrite with clone. simpl in Hf. destruct Hf as (Hr & Hi & [Hp Hv Hx]).
  rewrite Hr, Hi, !cloneTime_id. by destruct (decide (status = StatusAcknowledged)) as [->|];
    [|destruct (decide (status = StatusSucceeded)) as [->|];
      rewrite ?bool_decide_eq_false_2 by done].
Qed.

(** ** Outcomes of a submission *)

(** The statuses in which a submission can leave its record. *)
Definition submitted (status : CommandStatus) : bool :=
  match status with StatusSucceeded | StatusOther _ => false | _ => true end.

(** The record a submission leaves: that of the command, without a
    reconciliation, acknowledged only with an acknowledgement time. *)
Definition submission_record (c : Command) (r : Result) : Prop :=
  r_Command r = c ∧ submitted (r_Status r) = true ∧ r_ReconciledAt r = None
  ∧ (is_Some (r_AcknowledgedAt r) ↔ r_Status r = StatusAcknowledged).

(** The effect of a submission that got past its checks. *)
Definition recorded (c : Command) (s s' : Service) (r : Result) : Prop :=
  submission_record c r
  ∧ sv_results s' = <[c_ID c := r]> (sv_results s)
  ∧ sv_idempotency s' = <[c_IdempotencyKey c := c_ID c]> (sv_idempotency s).

Lemma record_recorded ctx c status reason ty (s : Service) :
  submitted status = true → status ≠ StatusAcknowledged →
  let '(r, err, s') := record ctx c status reason ty s in
  recorded c s s' r ∧ same_boundary s s' ∧ r_Status r = status.
Proof.
  intros Hs Ha. pose proof (record_spec ctx c status reason ty s) as Hr.
  destruct (record ctx c status reason ty s) as [[r err] s']. destruct Hr as (-> & Hr & Hi & Hb).
  split_and!; try done.
  split; [split_and!; try done|done]. split; [by intros [? ?]|done].
Qed.

Lemma transition_recorded ctx c status reason ty at_ (s0 s : Service) r0 :
  recorded c s0 s r0 → submitted status = true →
  r_AcknowledgedAt r0 = None → (status = StatusAcknowledged → is_Some at_) →
  let '(r, err, s') := transition ctx (c_ID c) status reason ty at_ s in
  recorded c s0 s' r ∧ same_boundary s s' ∧ r_Status r = status
  ∧ (status ≠ StatusAcknowledged → r_AcknowledgedAt r = None).
Proof.
  intros ((Hc & Hs0 & Hrec & _) & Hr0 & Hi0) Hs Hn Hat.
  pose proof (transition_spec ctx (c_ID c) status reason ty at_ s r0) as Ht.
  rewrite Hr0, lookup_insert_eq in Ht. specialize (Ht eq_refl).
  destruct (transition ctx (c_ID c) status reason ty at_ s) as [[r err] s'].
  destruct Ht as (-> & Hr & Hi & Hb). rewrite insert_insert_eq in Hr. rewrite Hi0 in Hi.
  split; [split; [split|]|]; [done| |done|].
  - simpl. rewrite Hn, (decide_False (P := status = StatusSucceeded)) by (by intros ->).
    split_and!; [done..|]. destruct (decide (status = StatusAcknowledged)); [naive_solver|].
    split; [by intros [? ?]|done].
  - split_and!; try done. simpl. intros ?. by rewrite decide_False.
Qed.

(** What must hold at clock reading [t] for a command to reach the executor. *)
Record authorized (ctx : Context) (c : Command) (t : Time) (s : Service) : Prop := {
  au_unexpired : t < c_ExpiresAt c;
  au_revision : ∀ rev, c_ExpectedRevision c = Some rev →
    ∃ snap, revisions_Snapshot ctx (sv_revisions s) = (snap, None) ∧ snap_Revision snap = rev;
  au_policy : ∃ d p, policy_Evaluate ctx (mkIntent (c_EquipmentID c) (c_On c) (c_IssuedAt c)) (sv_policy s)
      = ((d, None), p) ∧ d_Allowed d = true
}.

Definition dispatch_accepted (ctx : Context) (c : Command) (s : Service) : bool :=
  match Dispatch ctx c (sv_executor s) with
  | (ack, None, _) => ack_Accepted ack
  | _ => false
  end.

Inductive outcome (ctx : Context) (c : Command) (t : Time) (s s' : Service) : Result → option error → Prop :=
| out_refused err :
    sv_results s' = sv_results s → sv_idempotency s' = sv_idempotency s →
    sv_executor s' = sv_executor s → outcome ctx c t s s' zero_Result (Some err)
| out_recorded r err :
    recorded c s s' r → sv_executor s' = sv_executor s →
    r_Status r = StatusRejected ∨ r_Status r = StatusExpired
      ∨ ((r_Status r = StatusValidated ∨ r_Status r = StatusDispatched) ∧ is_Some err) →
    outcome ctx c t s s' r err
| out_dispatched r err :
    recorded c s s' r → sv_executor s' = (Dispatch ctx c (sv_executor s)).2 →
    authorized ctx c t s →
    r_Status r = (if dispatch_accepted ctx c s then StatusAcknowledged else StatusFailed) →
    outcome ctx c t s s' r err.

Lemma Submit_dispatch_spec ctx c (s0 s : Service) r0 :
  recorded c s0 s r0 → r_AcknowledgedAt r0 = None →
  let '(r, err, s') := Submit_dispatch now factory ctx c s in
  recorded c s0 s' r ∧ sv_executor s' = (Dispatch ctx c (sv_executor s)).2
  ∧ r_Status r = (if dispatch_accepted ctx c s then StatusAcknowledged else StatusFailed).
Proof.
  intros Hrec Hack. unfold Submit_dispatch, dispatch_accepted.
  destruct (Dispatch ctx c (sv_executor s)) as [[ack derr] x].
  assert (∀ s1 status reason ty at_, recorded c s0 s1 r0 → sv_executor s1 = x →
    submitted status = true → (status = StatusAcknowledged → is_Some at_) →
    let '(r, err, s') := transition ctx (c_ID c) status reason ty at_ s1 in
    recorded c s0 s' r ∧ sv_executor s' = x ∧ r_Status r = status) as Ht.
  { intros s1 status reason ty at_ Hr1 Hx Hs Hat.
    pose proof (transition_recorded ctx c status reason ty at_ s0 s1 r0 Hr1 Hs Hack Hat) as Ht.
    destruct (transition _ _ _ _ _ _ _) as [[r err] s']. destruct Ht as (? & [? ? Hx'] & ? & _).
    split_and!; try done. congruence. }
  destruct derr; [|destruct (ack_Accepted ack); [destruct (IsZero _)|]]; simpl; by apply Ht.
Qed.

Lemma Submit_authorize_outcome ctx c t (s : Service) :
  t < c_ExpiresAt c →
  (∀ rev, c_ExpectedRevision c = Some rev →
    ∃ snap, revisions_Snapshot ctx (sv_revisions s) = (snap, None) ∧ snap_Revision snap = rev) →
  let '(r, err, s') := Submit_authorize now factory ctx c s in outcome ctx c t s s' r err.
Proof.
  intros Ht Hrev. unfold Submit_authorize.
  destruct (policy_Evaluate _ _ _) as [[d [err|]] p] eqn:Hp; [by apply out_refused|].
  destruct (d_Allowed d) eqn:Hd; simpl.
  2:{ pose proof (record_recorded ctx c StatusRejected (d_Reason d) CommandRejected (set_policy p s)) as Hr.
      destruct (record _ _ _ _ _ _) as [[r err] s1]. destruct Hr as (? & [???] & ?); [done..|].
      apply out_recorded; auto. }
  pose proof (record_recorded ctx c StatusValidated ReasonValidated CommandValidated (set_policy p s)) as Hr.
  destruct (record _ _ _ _ _ _) as [[r1 err1] s1]. destruct Hr as (Hr1 & [?? Hx1] & Hs1); [done..|].
  destruct err1 as [e1|]; [apply out_recorded; eauto 6|].
  pose proof (transition_recorded ctx c StatusDispatched ReasonDispatched CommandDispatched None
    (set_policy p s) s1 r1 Hr1 eq_refl) as Ht2.
  destruct (transition _ _ _ _ _ _ _) as [[r2 err2] s2].
  destruct Ht2 as (Hr2 & [?? Hx2] & Hs2 & Hn2); [|done|].
  { destruct Hr1 as ((_ & _ & _ & Hack) & _). rewrite Hs1 in Hack.
    destruct (r_AcknowledgedAt r1); [|done]. discriminate (proj1 Hack (mk_is_Some _ _ eq_refl)). }
  destruct err2 as [e2|]; [apply out_recorded; [done|by rewrite Hx2, Hx1|eauto 6]|].
  pose proof (Submit_dispatch_spec ctx c (set_policy p s) s2 r2 Hr2 (Hn2 ltac:(done))) as Hd3.
  destruct (Submit_dispatch _ _ _ _ _) as [[r3 err3] s3]. destruct Hd3 as (Hr3 & Hx3 & Hs3).
  assert (sv_executor s2 = sv_executor s) as Hx by (by rewrite Hx2, Hx1).
  apply out_dispatched; [done|by rewrite Hx3, Hx| |].
  - split; eauto.
  - unfold dispatch_accepted in *. by rewrite Hx in Hs3.
Qed.

Lemma outcome_tick ctx c t (s : Service) (x : Result * option error * Service) :
  (let '(r, err, s') := x in outcome ctx c t (tick s) s' r err) →
  let '(r, err, s') := x in outcome ctx c t s s' r err.
Proof.
  destruct x as [[r err] s']. intros [| |r' err' ? ? [] ?]; [by apply out_refused|by apply out_recorded|].
  by apply out_dispatched.
Qed.

Lemma Submit_proceed_outcome ctx c (s : Service) :
  let '(r, err, s') := Submit_proceed ctx c s in outcome ctx c (now (sv_tick s)) s s' r err.
Proof.
  unfold Output.Submit_proceed. cbn [read_now]. unfold UTC.
  change (read_now now s) with (now (sv_tick s), tick s). cbn iota beta.
  destruct (Before (now (sv_tick s)) (c_ExpiresAt c)) eqn:Hb; simpl.
  2:{ pose proof (record_recorded ctx c StatusExpired ReasonExpired CommandExpired (tick s)) as Hr.
      destruct (record _ _ _ _ _ _) as [[r err] s1]. destruct Hr as (? & [???] & ?); [done..|].
      apply out_recorded; auto. }
  go_bool. destruct (c_ExpectedRevision c) as [rev|] eqn:Hrev.
  2:{ apply outcome_tick, (Submit_authorize_outcome ctx c (now (sv_tick s)) (tick s)); [done|]. by rewrite Hrev. }
  destruct (revisions_Snapshot ctx (sv_revisions s)) as [snap [err|]] eqn:Hsnap; [by apply out_refused|].
  destruct (Z.eqb_spec (snap_Revision snap) rev) as [Heq|Hne]; simpl.
  - apply outcome_tick, (Submit_authorize_outcome ctx c (now (sv_tick s)) (tick s)); [done|].
    intros rev' ?. exists snap. split; [done|congruence].
  - pose proof (record_recorded ctx c StatusRejected ReasonRevisionConflict CommandRejected (tick s)) as Hr.
    destruct (record _ _ _ _ _ _) as [[r err] s1]. destruct Hr as (? & [???] & ?); [done..|].
    apply out_recorded; auto.
Qed.

(** [c] is [command] with the IDs the caller left empty filled in. *)
Record fills (command c : Command) : Prop := {
  fi_rest : c = with_correlation (c_CorrelationID c) (with_id (c_ID c) command);
  fi_id : c_ID command ≠ "" → c_ID c = c_ID command;
  fi_correlation : c_CorrelationID command ≠ "" → c_CorrelationID c = c_CorrelationID command
}.

Lemma Submit_check_spec ctx command (s : Service) :
  let '(x, s') := Submit_check ctx command s in
  (sv_results s' = sv_results s ∧ sv_idempotency s' = sv_idempotency s ∧ same_boundary s s'
    ∧ (sv_tick s ≤ sv_tick s')%nat)
  ∧ match x with
    | inl c => fills command c ∧ validateCommand c = None
        ∧ sv_idempotency s !! c_IdempotencyKey command = None
    | inr (r, None) => ∃ id c, fills command c
        ∧ sv_idempotency s !! c_IdempotencyKey command = Some id
        ∧ r = default zero_Result (sv_results s !! id) ∧ equivalent (r_Command r) c = true
    | inr (r, Some err) => r = zero_Result
    end.
Proof.
  unfold Output.Submit_check. destruct (ctx_Err ctx); [done|].
  destruct (if bool_decide (c_ID command = "") then _ else _) as [[id [err|]] s1] eqn:E1;
    assert (sv_results s1 = sv_results s ∧ sv_idempotency s1 = sv_idempotency s ∧ same_boundary s s1
      ∧ (sv_tick s ≤ sv_tick s1)%nat ∧ (c_ID command ≠ "" → id = c_ID command)) as (Hr1 & Hi1 & [Hp1 Hv1 Hx1] & Ht1 & Hid)
    by (case_bool_decide; unfold read_commandID in E1; simplify_eq/=; by split_and!; try lia); [by split_and!|].
  destruct (if bool_decide (c_CorrelationID _ = "") then _ else _) as [[corr [err|]] s2] eqn:E2;
    assert (sv_results s2 = sv_results s1 ∧ sv_idempotency s2 = sv_idempotency s1 ∧ same_boundary s1 s2
      ∧ (sv_tick s1 ≤ sv_tick s2)%nat ∧ (c_CorrelationID command ≠ "" → corr = c_CorrelationID command)) as (Hr2 & Hi2 & [Hp2 Hv2 Hx2] & Ht2 & Hcorr)
    by (case_bool_decide; unfold read_correlationID in E2; simplify_eq/=; by split_and!; try lia);
    rewrite ?Hr1, ?Hi1 in *; [split_and!; try congruence; [split; congruence|lia]|].
  set (c := with_correlation corr (with_id id command)).
  assert (fills command c) as Hf by (split; [by destruct command|done|done]).
  assert (same_boundary s s2) as Hb by (split; congruence).
  assert (sv_tick s ≤ sv_tick s2)%nat as Ht by lia.
  destruct (validateCommand c) as [err|] eqn:Hval; [done|]. rewrite Hi2, Hr2. simpl.
  destruct (sv_idempotency s !! c_IdempotencyKey command) as [eid|] eqn:Hkey; [|done].
  destruct (equivalent _ c) eqn:Heq; [|done]. rewrite cloneResult_id.
  split; [by split_and!|]. exists eid, c. by split_and!.
Qed.

(** A submission either refuses, or replays a record, or runs the pipeline on
    the completed command. *)
Lemma Submit_outcome ctx command (s : Service) :
  let '(r, err, s') := Submit ctx command s in
  (sv_results s' = sv_results s ∧ sv_idempotency s' = sv_idempotency s
    ∧ sv_executor s' = sv_executor s ∧ sv_policy s' = sv_policy s)
  ∨ ∃ c k, fills command c ∧ validateCommand c = None ∧ (sv_tick s ≤ k)%nat
      ∧ sv_idempotency s !! c_IdempotencyKey command = None ∧ outcome ctx c (now k) s s' r err.
Proof.
  unfold Output.Submit. pose proof (Submit_check_spec ctx command s) as Hc.
  destruct (Submit_check ctx command s) as [[c|[r err]] s1]; destruct Hc as ((Hr & Hi & [Hp Hv Hx] & Ht) & Hc).
  2:{ left. by split_and!. }
  destruct Hc as (Hf & Hval & Hkey). pose proof (Submit_proceed_outcome ctx c s1) as Ho.
  destruct (Submit_proceed ctx c s1) as [[r err] s2]. right. exists c, (sv_tick s1).
  split_and!; try done. destruct Ho as [err Ho1 Ho2 Ho3|r err Ho1 Ho2 Ho3|r err Ho1 Ho2 Ho3 Ho4].
  - apply out_refused; congruence.
  - apply out_recorded; [|congruence|done]. unfold recorded in *. by rewrite <- Hr, <- Hi.
  - apply out_dispatched; [unfold recorded in *; by rewrite <- Hr, <- Hi|by rewrite <- Hx| |].
    + destruct Ho3. split; [done|by rewrite <- Hv|by rewrite <- Hp].
    + unfold dispatch_accepted in *. by rewrite <- Hx.
Qed.

(** ** Operations of the service *)
Inductive service_op :=
| OpSubmit (command : Command)
| OpReconcile (id : CommandID) (reportedOn : bool) (observedAt : Time)
| OpExpire (id : CommandID) (reason : string) (observedAt : Time)
| OpWatchdogs (ttl : Duration)
| OpStart
| OpStop.

Definition service_exec (ctx : Context) (op : service_op) (s : Service) : Service :=
  match op with
  | OpSubmit command => (Submit ctx command s).2
  | OpReconcile id on at_ => (Reconcile ctx id on at_ s).2
  | OpExpire id reason at_ => (ExpireAcknowledged ctx id reason at_ s).2
  | OpWatchdogs ttl => (RunWatchdogs ctx ttl s).2
  | OpStart => (Service_Start ctx s).1
  | OpStop => (Service_Stop ctx s).1
  end.

Inductive service_step : Service → Service → Prop :=
| service_step_exec ctx op s : service_step s (service_exec ctx op s).

(** Settling an acknowledged record. *)
Definition settled (old r : Result) : Prop :=
  r_Command r = r_Command old ∧ r_AcknowledgedAt r = r_AcknowledgedAt old
  ∧ ((r_Status r = StatusSucceeded ∧ is_Some (r_ReconciledAt r))
     ∨ ((r_Status r = StatusFailed ∨ r_Status r = StatusExpired) ∧ r_ReconciledAt r = r_ReconciledAt old)).

(** What an operation does to the records, in terms of which the invariants
    are proved. *)
Inductive service_prim (s s' : Service) : Prop :=
| sp_same :
    sv_results s' = sv_results s → sv_idempotency s' = sv_idempotency s →
    sv_executor s' = sv_executor s → service_prim s s'
| sp_submit ctx command c k r err :
    fills command c → validateCommand c = None → (sv_tick s ≤ k)%nat →
    sv_idempotency s !! c_IdempotencyKey c = None →
    outcome ctx c (now k) s s' r err → service_prim s s'
| sp_settle id old r :
    sv_results s !! id = Some old → r_Status old = StatusAcknowledged → settled old r →
    sv_results s' = <[id := r]> (sv_results s) → sv_idempotency s' = sv_idempotency s →
    sv_executor s' = sv_executor s → service_prim s s'.

Lemma fills_key command c : fills command c → c_IdempotencyKey c = c_IdempotencyKey command.
Proof. by intros [-> _ _]. Qed.

Lemma Submit_prim ctx command s : service_prim s (Submit ctx command s).2.
Proof.
  pose proof (Submit_outcome ctx command s) as Ho. destruct (Submit ctx command s) as [[r err] s'].
  destruct Ho as [(? & ? & ? & ?)|(c & k & Hf & Hv & Hk & Hkey & Ho)]; [by apply sp_same|].
  rewrite <- (fills_key _ _ Hf) in Hkey. by eapply sp_submit.
Qed.

Lemma settle_prim ctx id old status reason ty at_ (s s1 : Service) :
  sv_results s !! id = Some old → r_Status old = StatusAcknowledged →
  (status = StatusSucceeded ∧ is_Some at_) ∨ status = StatusFailed ∨ status = StatusExpired →
  sv_results s1 = sv_results s → sv_idempotency s1 = sv_idempotency s → sv_executor s1 = sv_executor s →
  service_prim s (transition ctx id status reason ty at_ s1).2.
Proof.
  intros Hold Hack Hstatus Hr Hi Hx.
  pose proof (transition_spec ctx id status reason ty at_ s1 old) as Ht. rewrite Hr in Ht.
  specialize (Ht Hold). destruct (transition _ _ _ _ _ _ _) as [[r err] s'].
  destruct Ht as (-> & Hr' & Hi' & [_ _ Hx']). simpl.
  eapply sp_settle; [done..| |done|congruence|congruence].
  split_and!; simpl; [done| |];
    destruct Hstatus as [[-> ?]|[->| ->]]; simpl; auto.
Qed.

Lemma Reconcile_prim ctx id on at_ s : service_prim s (Reconcile ctx id on at_ s).2.
Proof.
  unfold Output.Reconcile. destruct (ctx_Err ctx); [by apply sp_same|].
  destruct (IsZero at_); [by apply sp_same|].
  destruct (sv_results s !! id) as [old|] eqn:Hold; [|by apply sp_same].
  case_bool_decide as Hs; [|by apply sp_same]. simpl.
  destruct (policy_RecordReported _ _ _ _ _) as [[err|] p]; [by apply sp_same|].
  destruct (Bool.eqb _ _); simpl; eapply settle_prim; eauto.
Qed.

Lemma ExpireAcknowledged_prim ctx id reason at_ s :
  service_prim s (ExpireAcknowledged ctx id reason at_ s).2.
Proof.
  unfold Output.ExpireAcknowledged. destruct (ctx_Err ctx); [by apply sp_same|].
  destruct (_ || _); [by apply sp_same|].
  destruct (sv_results s !! id) as [old|] eqn:Hold; [|by apply sp_same].
  case_bool_decide as Hs; [|by apply sp_same]. simpl.
  destruct (Before _ _); [by apply sp_same|]. eapply settle_prim; eauto.
Qed.

Lemma run_actions_prims ctx ttl actions results s :
  rtc service_prim s (run_actions now newCommandID newCorrelationID factory ctx ttl actions results s).2.
Proof.
  revert results s. induction actions as [|a actions IH]; intros results s; simpl; [done|].
  destruct (newCommandID (sv_tick s)) as [id [e|]]; [by apply rtc_once, sp_same|]. simpl.
  destruct (newCorrelationID (S (sv_tick s))) as [corr [e|]]; [by apply rtc_once, sp_same|].
  pose proof (Submit_prim ctx (watchdog_command ttl id corr a) (tick (tick s))) as Hs.
  destruct (Submit _ _ _) as [[r err] s1]. simpl in Hs.
  assert (rtc service_prim s s1) as Hr.
  { eapply rtc_l; [by apply (sp_same s (tick (tick s)))|]. by apply rtc_once. }
  destruct err; [done|]. etrans; [done|apply IH].
Qed.

Lemma service_exec_prims ctx op s : rtc service_prim s (service_exec ctx op s).
Proof.
  destruct op; simpl.
  - apply rtc_once, Submit_prim.
  - apply rtc_once, Reconcile_prim.
  - apply rtc_once, ExpireAcknowledged_prim.
  - unfold Output.RunWatchdogs. destruct (ttl <=? 0); [done|].
    destruct (policy_CheckWatchdogs ctx (sv_policy s)) as [[actions [err|]] p];
      [by apply rtc_once, sp_same|].
    eapply rtc_l; [by apply (sp_same s (set_policy p s))|]. apply run_actions_prims.
  - by apply rtc_once, sp_same.
  - by apply rtc_once, sp_same.
Qed.

(** An invariant of the primitive effects is one of the service. *)
Lemma service_invariant (I : Service → Prop) s s' :
  (∀ a b, service_prim a b → I a → I b) → I s → rtc service_step s s' → I s'.
Proof.
  intros Hprim. apply rtc_invariant. intros ? ? [ctx op s0] Hs0.
  eapply rtc_invariant; [exact Hprim|done|apply service_exec_prims].
Qed.

(** ** The record invariant *)
Definition record_ok (r : Result) : Prop :=
  (r_Status r = StatusAcknowledged ∨ r_Status r = StatusSucceeded → is_Some (r_AcknowledgedAt r))
  ∧ (is_Some (r_ReconciledAt r) ↔ r_Status r = StatusSucceeded)
  ∧ ∀ text, r_Status r ≠ StatusOther text.

Record service_ok (s : Service) : Prop := {
  so_keyed : ∀ id r, sv_results s !! id = Some r → c_ID (r_Command r) = id;
  so_record : ∀ id r, sv_results s !! id = Some r →
    validateCommand (r_Command r) = None ∧ record_ok r;
  so_key : ∀ id r, sv_results s !! id = Some r →
    sv_idempotency s !! c_IdempotencyKey (r_Command r) = Some id;
  so_index : ∀ key id, sv_idempotency s !! key = Some id → is_Some (sv_results s !! id)
}.

Lemma submission_record_ok c r : submission_record c r → record_ok r.
Proof.
  intros (_ & Hs & Hrec & Hack). unfold record_ok. rewrite Hrec. split_and!.
  - intros [Ha|Ha]; [by apply Hack|]. by rewrite Ha in Hs.
  - split; [by intros [? ?]|]. intros Ha. by rewrite Ha in Hs.
  - intros text Ha. by rewrite Ha in Hs.
Qed.

Lemma recorded_ok c (s s' : Service) r :
  service_ok s → validateCommand c = None → sv_idempotency s !! c_IdempotencyKey c = None →
  recorded c s s' r → service_ok s'.
Proof.
  intros [] Hv Hkey (Hr & Hres & Hidem). pose proof (submission_record_ok _ _ Hr) as Hok.
  destruct Hr as (Hc & _). split; rewrite ?Hres, ?Hidem.
  - intros id q. rewrite lookup_insert_Some. intros [[<- <-]|[_ ?]]; [by rewrite Hc|eauto].
  - intros id q. rewrite lookup_insert_Some. intros [[<- <-]|[_ ?]]; [by rewrite Hc|eauto].
  - intros id q. rewrite lookup_insert_Some. intros [[<- <-]|[_ Hq]]; [by rewrite Hc, lookup_insert_eq|].
    rewrite lookup_insert_ne; [eauto|]. intros Heq. apply so_key0 in Hq. congruence.
  - intros key id. rewrite lookup_insert_Some. intros [[<- <-]|[_ Hk]].
    + by rewrite lookup_insert_eq.
    + rewrite lookup_insert. case_decide; eauto.
Qed.

Lemma settled_ok id old r (s s' : Service) :
  service_ok s → sv_results s !! id = Some old → r_Status old = StatusAcknowledged → settled old r →
  sv_results s' = <[id := r]> (sv_results s) → sv_idempotency s' = sv_idempotency s → service_ok s'.
Proof.
  intros [] Hold Hack (Hc & Ha & Hs) Hres Hidem.
  assert (record_ok r) as Hok.
  { destruct (so_record0 id old Hold) as (_ & H1 & H2 & _).
    unfold record_ok. rewrite Ha. destruct Hs as [[-> Hr]|[[-> | ->] ->]]; rewrite ?H2, ?Hack; naive_solver. }
  split; rewrite ?Hres, ?Hidem.
  - intros i q. rewrite lookup_insert_Some. intros [[<- <-]|[_ ?]]; [rewrite Hc|]; eauto.
  - intros i q. rewrite lookup_insert_Some. intros [[<- <-]|[_ ?]]; [rewrite Hc; split; [by eapply so_record0|done]|]; eauto.
  - intros i q. rewrite lookup_insert_Some. intros [[<- <-]|[_ ?]]; [rewrite Hc|]; eauto.
  - intros key i Hk. rewrite lookup_insert. case_decide; eauto.
Qed.

Lemma service_prim_ok s s' : service_prim s s' → service_ok s → service_ok s'.
Proof.
  intros [Hr Hi _|ctx command c k r err Hf Hv Hk Hkey Ho|id old r Hold Hack Hs Hr Hi _] Hok.
  - destruct Hok. by split; rewrite ?Hr, ?Hi.
  - destruct Ho as [err Hr Hi _|r err Hrec _ _|r err Hrec _ _ _]; [|by eapply recorded_ok..].
    destruct Hok. by split; rewrite ?Hr, ?Hi.
  - by eapply settled_ok.
Qed.

(** In every state operations run one after another reach from a new service,
    records are filed by command ID, hold valid commands, an acknowledgement
    time where acknowledged or succeeded and a reconciliation time exactly
    where succeeded; the idempotency index maps each record's key to it and
    points at no missing record. *)
Theorem service_reachable_ok dependencies p v x w s0 s :
  NewServiceWithDependencies dependencies p v x w = inl s0 → rtc service_step s0 s → service_ok s.
Proof.
  intros Hnew. apply service_invariant; [apply service_prim_ok|].
  unfold NewServiceWithDependencies in Hnew. destruct dependencies; simplify_eq/=.
  split; simpl; intros ? ?; by rewrite lookup_empty.
Qed.

(** ** Success *)

(** [s'] has no succeeded record that [s] did not have. *)
Definition no_new_success (s s' : Service) : Prop :=
  ∀ id r, sv_results s' !! id = Some r → r_Status r = StatusSucceeded → sv_results s !! id = Some r.

Lemma Submit_no_new_success ctx command s : no_new_success s (Submit ctx command s).2.
Proof.
  intros id r Hres Hs. pose proof (Submit_outcome ctx command s) as Ho.
  destruct (Submit ctx command s) as [[r' err'] s']. simpl in Hres.
  destruct Ho as [(Hr & _)|(c & k & _ & _ & _ & _ & Ho)]; [congruence|].
  destruct Ho as [err Hr _ _|q err (Hrec & Hr & _) _ _|q err (Hrec & Hr & _) _ _ _]; [congruence|..];
    destruct Hrec as (_ & Hsub & _); rewrite Hr, lookup_insert_Some in Hres;
    destruct Hres as [[_ <-]|[_ ?]]; try done; by rewrite Hs in Hsub.
Qed.

Lemma run_actions_no_new_success ctx ttl actions results s :
  no_new_success s (run_actions now newCommandID newCorrelationID factory ctx ttl actions results s).2.
Proof.
  revert results s. induction actions as [|a actions IH]; intros results s; simpl; [by intros ??|].
  destruct (newCommandID (sv_tick s)) as [id [e|]]; [by intros ??|]. simpl.
  destruct (newCorrelationID (S (sv_tick s))) as [corr [e|]]; [by intros ??|].
  pose proof (Submit_no_new_success ctx (watchdog_command ttl id corr a) (tick (tick s))) as Hs.
  destruct (Submit _ _ _) as [[r err] s1]. simpl in Hs.
  destruct err; [done|]. intros i q Hq Hst. by apply Hs; [eapply IH|].
Qed.

Lemma transition_no_new_success ctx id status reason ty at_ s s1 :
  status ≠ StatusSucceeded → sv_results s1 = sv_results s →
  no_new_success s (transition ctx id status reason ty at_ s1).2.
Proof.
  intros Hne Heq i q Hq Hs. unfold Output.transition in Hq.
  destruct (sv_results s1 !! id) as [old|] eqn:Hold; [|simpl in Hq; congruence].
  pose proof (transition_spec ctx id status reason ty at_ s1 old Hold) as Ht.
  unfold Output.transition in Ht. rewrite Hold in Ht. 
  destruct (let '(u, s0) := read_now now s1 in _) as [[r err] s2].
  destruct Ht as (-> & Hr & _). simpl in Hq. rewrite Hr, lookup_insert_Some in Hq.
  destruct Hq as [[_ <-]|[_ ?]]; [done|congruence].
Qed.

(** C14: a command's record becomes succeeded only by a reconciliation of an
    acknowledged command with a reported state equal to the commanded one at a
    nonzero time, which the policy recorded; every other operation leaves
    successes as they were. *)
Theorem success_only_by_reconciliation ctx op s id r :
  sv_results (service_exec ctx op s) !! id = Some r → r_Status r = StatusSucceeded →
  sv_results s !! id = Some r
  ∨ ∃ on at_ old p, op = OpReconcile id on at_ ∧ at_ ≠ 0
      ∧ sv_results s !! id = Some old ∧ r_Status old = StatusAcknowledged
      ∧ r_Command r = r_Command old ∧ c_On (r_Command r) = on ∧ r_ReconciledAt r = Some at_
      ∧ policy_RecordReported ctx (c_EquipmentID (r_Command r)) on at_ (sv_policy s) = (None, p).
Proof.
  intros Hres Hs. destruct op as [command|i on at_|i reason at_|ttl| |]; simpl in Hres.
  - left. by eapply Submit_no_new_success.
  - unfold Output.Reconcile in Hres. destruct (ctx_Err ctx); [by left|].
    unfold IsZero in Hres. destruct (Z.eqb_spec at_ 0); [by left|].
    destruct (sv_results s !! i) as [old|] eqn:Hold; [|by left].
    destruct (decide (r_Status old = StatusAcknowledged)) as [Hack|Hack];
      [rewrite bool_decide_eq_true_2 in Hres by done|rewrite bool_decide_eq_false_2 in Hres by done; by left].
    simpl in Hres. destruct (policy_RecordReported _ _ _ _ _) as [[err|] p] eqn:Hp; [by left|].
    destruct (Bool.eqb on _) eqn:Heq; simpl in Hres.
    + pose proof (transition_spec ctx i StatusSucceeded ReasonReconciled CommandReconciled (Some at_)
        (set_policy p s) old Hold) as Ht.
      destruct (transition _ _ _ _ _ _ _) as [[q err] s']. destruct Ht as (-> & Hr & _).
      simpl in Hres. rewrite Hr, lookup_insert_Some in Hres. destruct Hres as [[<- <-]|[_ ?]]; [|by left].
      right. apply Bool.eqb_prop in Heq. simpl. exists on, at_, old, p. by split_and!.
    + left. by eapply (transition_no_new_success _ _ StatusFailed); [..|exact Hres|].
  - left. unfold Output.ExpireAcknowledged in Hres. destruct (ctx_Err ctx); [done|].
    destruct (_ || _); [done|]. destruct (sv_results s !! i) as [old|]; [|done].
    destruct (negb _); [done|]. destruct (Before _ _); [done|].
    by eapply (transition_no_new_success _ _ StatusExpired); [..|exact Hres|].
  - left. unfold Output.RunWatchdogs in Hres. destruct (ttl <=? 0); [done|].
    destruct (policy_CheckWatchdogs ctx (sv_policy s)) as [[actions [err|]] p]; [done|].
    exact (run_actions_no_new_success ctx ttl actions [] (set_policy p s) id r Hres Hs).
  - by left.
  - by left.
Qed.

(** ** Replay *)
Lemma valid_ids c : validateCommand c = None → c_ID c ≠ "" ∧ c_CorrelationID c ≠ "".
Proof.
  unfold validateCommand. intros Hv. split; intros He; rewrite He in Hv; [done|].
  by destruct (validateUUID (c_ID c)).
Qed.

Lemma valid_check ctx c (s : Service) :
  ctx_Err ctx = None → validateCommand c = None →
  Submit_check ctx c s =
    match sv_idempotency s !! c_IdempotencyKey c with
    | Some id =>
        let existing := default zero_Result (sv_results s !! id) in
        (inr (if equivalent (r_Command existing) c then (existing, None)
              else (zero_Result, Some ErrConflict)), s)
    | None => (inl c, s)
    end.
Proof.
  intros Hctx Hv. destruct (valid_ids c Hv) as [Hid Hcorr]. unfold Output.Submit_check.
  rewrite Hctx, bool_decide_eq_false_2 by done. simpl. rewrite bool_decide_eq_false_2 by done.
  replace (with_correlation (c_CorrelationID c) (with_id (c_ID c) c)) with c by (by destruct c).
  rewrite Hv. destruct (sv_idempotency s !! _); [|done]. simpl. by destruct (equivalent _ _); rewrite ?cloneResult_id.
Qed.

Lemma known_key_replays ctx c (s : Service) id :
  ctx_Err ctx = None → validateCommand c = None →
  sv_idempotency s !! c_IdempotencyKey c = Some id →
  Submit ctx c s =
    (let existing := default zero_Result (sv_results s !! id) in
     if equivalent (r_Command existing) c then (existing, None) else (zero_Result, Some ErrConflict), s).
Proof. intros Hctx Hv Hk. unfold Output.Submit. rewrite valid_check by done. by rewrite Hk. Qed.

(** Once a submission has recorded its command, submitting the same command
    again answers the same record and changes nothing, submitting any valid
    command under the same key changes nothing, and one that is not equivalent
    is refused as a conflict. *)
Theorem Submit_replay ctx c (s s1 : Service) r err :
  ctx_Err ctx = None → validateCommand c = None →
  sv_idempotency s !! c_IdempotencyKey c = None →
  Submit ctx c s = ((r, err), s1) → sv_idempotency s1 !! c_IdempotencyKey c ≠ None →
  r_Command r = c ∧ Submit ctx c s1 = ((r, None), s1)
  ∧ ∀ c', validateCommand c' = None → c_IdempotencyKey c' = c_IdempotencyKey c →
      (Submit ctx c' s1).2 = s1
      ∧ (equivalent c c' = false → (Submit ctx c' s1).1 = (zero_Result, Some ErrConflict)).
Proof.
  intros Hctx Hv Hk Hsub Hk1. pose proof (Submit_outcome ctx c s) as Ho. rewrite Hsub in Ho.
  destruct Ho as [(_ & Hi & _)|(c' & k & Hf & _ & _ & _ & Ho)]; [congruence|].
  assert (c' = c) as ->.
  { destruct Hf as [Hrest Hid Hcorr]. destruct (valid_ids c Hv) as [H1 H2].
    rewrite (Hid H1), (Hcorr H2) in Hrest. rewrite Hrest. by destruct c. }
  assert (recorded c s s1 r) as (Hrec & Hr & Hi) by (destruct Ho; [congruence|done..]).
  destruct Hrec as (Hc & _).
  assert (∀ c', validateCommand c' = None → c_IdempotencyKey c' = c_IdempotencyKey c →
    Submit ctx c' s1 = (if equivalent c c' then (r, None) else (zero_Result, Some ErrConflict), s1)) as Hrep.
  { intros c' Hv' Hk'. rewrite (known_key_replays ctx c' s1 (c_ID c)) by (done || by rewrite Hk', Hi, lookup_insert_eq).
    rewrite Hr, lookup_insert_eq. simpl. by rewrite Hc. }
  split_and!; [done| |].
  - rewrite Hrep by done. unfold equivalent. by rewrite !bool_decide_eq_true_2, Bool.eqb_reflx by done.
  - intros c' Hv' Hk'. rewrite Hrep by done. split; [done|]. by intros ->.
Qed.

(** ** Progress *)

(** How many readings of the clock and of the generators an operation takes. *)
Definition reads (n : nat) (s s' : Service) : Prop := (sv_tick s ≤ sv_tick s' ≤ n + sv_tick s)%nat.

Lemma record_reads ctx c status reason ty (s : Service) : reads 2 s (record ctx c status reason ty s).2.
Proof. unfold reads, Output.record, command_emit. simpl. destruct (emit_with _ _ _ _ _ _ _ _). simpl. lia. Qed.

Lemma transition_reads ctx id status reason ty at_ (s : Service) :
  reads 2 s (transition ctx id status reason ty at_ s).2.
Proof.
  unfold reads, Output.transition, command_emit. destruct (sv_results s !! id); simpl; [|lia].
  destruct (emit_with _ _ _ _ _ _ _ _). simpl. lia.
Qed.

Lemma Submit_dispatch_reads ctx c (s : Service) : reads 3 s (Submit_dispatch now factory ctx c s).2.
Proof.
  unfold Submit_dispatch. destruct (Dispatch _ _ _) as [[ack derr] x].
  assert (∀ s1 status reason ty at_, reads 1 s s1 →
    reads 3 s (transition ctx (c_ID c) status reason ty at_ s1).2) as Ht.
  { intros s1 status reason ty at_ H1. pose proof (transition_reads ctx (c_ID c) status reason ty at_ s1).
    unfold reads in *. lia. }
  destruct derr; [apply Ht; unfold reads; simpl; lia|].
  destruct (ack_Accepted ack); cbn [negb]; [destruct (IsZero _)|]; apply Ht; unfold reads; simpl; lia.
Qed.

(** The times that JSON can write: the years up to 9999. *)
Definition json_date (t : Time) : Prop := 0 ≤ t < 315537897600 * 10 ^ 9.
Definition command_dates (c : Command) : Prop := json_date (c_IssuedAt c) ∧ json_date (c_ExpiresAt c).
Definition result_dates (r : Result) : Prop :=
  command_dates (r_Command r) ∧ json_date (r_UpdatedAt r)
  ∧ (∀ t, r_AcknowledgedAt r = Some t → json_date t) ∧ (∀ t, r_ReconciledAt r = Some t → json_date t).

Section publishing.
Context (ctx : Context).
Hypothesis marshals : ∀ r : Result, result_dates r → ∃ text, json_Marshal r = inr text.
Hypothesis acknowledges : ∀ c x, json_date (ack_AcknowledgedAt (Dispatch ctx c x).1.1).
Hypothesis factory_clock : ∀ k, fe_now (factory k) ≠ 0.
Hypothesis accepts : ∀ event w, Event_Validate event = None → (Publish ctx event w).1 = None.

Lemma command_emit_accepted ty r (s : Service) :
  ty ≠ "" → validateUUID (c_CorrelationID (r_Command r)) = None → result_dates r →
  (command_emit factory ctx ty r s).1 = None.
Proof.
  intros Hty Hc Hdates. unfold command_emit, emit_with. destruct (sv_publisher s) as [w|]; [|done].
  unfold Factory_New. destruct (marshals r Hdates) as [text Hm]. rewrite Hm.
  rewrite (bool_decide_eq_false_2 (c_CorrelationID _ = "")) by (intros He; by rewrite He in Hc).
  match goal with |- context [Event_Validate ?e] => assert (Event_Validate e = None) as Hv end.
  { apply Event_Validate_spec. simpl. split_and!; try done; [apply factory_clock| |by apply (json_Marshal_valid r)].
    by repeat case_bool_decide. }
  rewrite Hv. specialize (accepts _ w Hv). destruct (Publish _ _ _) as [err w']. simpl in *. by subst err.
Qed.

Lemma record_accepted c status reason ty (s : Service) :
  ty ≠ "" → validateUUID (c_CorrelationID c) = None → command_dates c → json_date (now (sv_tick s)) →
  (record ctx c status reason ty s).1.2 = None.
Proof.
  intros Hty Hc Hd Hn. unfold Output.record. rewrite cloneCommand_id. cbn -[command_emit].
  match goal with |- context [command_emit ?f ?x ?t ?r ?s0] =>
    pose proof (command_emit_accepted t r s0 Hty) as He; destruct (command_emit f x t r s0) as [err s'] end.
  simpl in *. apply He; [done|]. by split_and!.
Qed.

Lemma transition_accepted id status reason ty at_ (s : Service) old :
  ty ≠ "" → sv_results s !! id = Some old → validateUUID (c_CorrelationID (r_Command old)) = None →
  command_dates (r_Command old) → r_AcknowledgedAt old = None → r_ReconciledAt old = None → status ≠ StatusSucceeded →
  (∀ t, at_ = Some t → json_date t) → json_date (now (sv_tick s)) →
  (transition ctx id status reason ty at_ s).1.2 = None.
Proof.
  intros Hty Ho Hc Hd Hack Hrec Hsucc Hat Hn. unfold Output.transition. rewrite Ho. cbn -[command_emit].
  match goal with |- context [command_emit ?f ?x ?t ?r ?s0] =>
    pose proof (command_emit_accepted t r s0 Hty) as He; destruct (command_emit f x t r s0) as [err s'] end.
  simpl in *. apply He; [done|]. split_and!; [done|done|..]; cbn [r_AcknowledgedAt r_ReconciledAt].
  - intros t. destruct (bool_decide (status = StatusAcknowledged)); [rewrite cloneTime_id; apply Hat|by rewrite Hack].
  - intros t. rewrite bool_decide_eq_false_2 by done. by rewrite Hrec.
Qed.

Lemma Submit_dispatch_accepted c (s0 s : Service) r0 :
  recorded c s0 s r0 → r_AcknowledgedAt r0 = None → validateUUID (c_CorrelationID c) = None → command_dates c →
  (∀ k, (sv_tick s ≤ k < sv_tick s + 2)%nat → json_date (now k)) →
  let '(r, err, s') := Submit_dispatch now factory ctx c s in err = None ∧ sv_policy s' = sv_policy s.
Proof.
  intros ((Hc & _ & Hrec & _) & Hres & _) Hack Hcorr Hdates Hclock. unfold Submit_dispatch.
  pose proof (acknowledges c (sv_executor s)) as Hackdate.
  destruct (Dispatch ctx c (sv_executor s)) as [[ack derr] x]. cbn in Hackdate.
  assert (∀ (s1 : Service) status reason ty at_, sv_results s1 = sv_results s → sv_policy s1 = sv_policy s → ty ≠ "" →
    status ≠ StatusSucceeded → (∀ t, at_ = Some t → json_date t) → (sv_tick s ≤ sv_tick s1 ≤ S (sv_tick s))%nat →
    let '(r, err, s') := transition ctx (c_ID c) status reason ty at_ s1 in
    err = None ∧ sv_policy s' = sv_policy s) as Ht.
  { intros s1 status reason ty at_ Hr Hp Hty Hsucc Hat Htick.
    assert (sv_results s1 !! c_ID c = Some r0) as Hl by (by rewrite Hr, Hres, lookup_insert_eq).
    pose proof (transition_accepted (c_ID c) status reason ty at_ s1 r0 Hty Hl ltac:(by rewrite Hc) ltac:(by rewrite Hc)
      Hack Hrec Hsucc Hat ltac:(apply Hclock; lia)) as He.
    pose proof (transition_spec ctx (c_ID c) status reason ty at_ s1 r0 Hl) as Hs.
    destruct (transition _ _ _ _ _ _ _) as [[r err] s']. destruct Hs as (_ & _ & _ & [Hp' _ _]).
    split; [done|congruence]. }
  destruct derr; [|destruct (ack_Accepted ack); [destruct (IsZero _)|]]; simpl;
    (apply Ht; [done|done|done|done| |simpl; lia]); try done; intros u [= <-]; [apply Hclock; lia|done].
Qed.

Lemma Submit_authorize_reaches c (s : Service) d p :
  validateUUID (c_CorrelationID c) = None → command_dates c →
  (∀ k, (sv_tick s ≤ k < sv_tick s + 7)%nat → json_date (now k)) →
  policy_Evaluate ctx (mkIntent (c_EquipmentID c) (c_On c) (c_IssuedAt c)) (sv_policy s) = ((d, None), p) →
  d_Allowed d = true →
  let '(r, err, s') := Submit_authorize now factory ctx c s in
  err = None ∧ sv_executor s' = (Dispatch ctx c (sv_executor s)).2 ∧ sv_policy s' = p
  ∧ sv_idempotency s' = <[c_IdempotencyKey c := c_ID c]> (sv_idempotency s) ∧ reads 7 s s'.
Proof.
  intros Hcorr Hdates Hclock Hp Hd. unfold Submit_authorize. rewrite Hp, Hd. cbn [negb].
  pose proof (record_recorded ctx c StatusValidated ReasonValidated CommandValidated (set_policy p s)) as Hr.
  pose proof (record_accepted c StatusValidated ReasonValidated CommandValidated (set_policy p s)) as He.
  pose proof (record_reads ctx c StatusValidated ReasonValidated CommandValidated (set_policy p s)) as Htk.
  destruct (record _ _ _ _ _ _) as [[r1 err1] s1]. cbn [fst snd] in *.
  destruct Hr as (Hr1 & [Hp1 _ Hx1] & Hs1); [done..|]. rewrite (He ltac:(done) Hcorr Hdates ltac:(apply Hclock; simpl; lia)). cbn iota.
  pose proof Hr1 as ((Hc1 & _ & Hrec1 & Hack) & Hres & _).
  assert (sv_results s1 !! c_ID c = Some r1) as Hl1 by (by rewrite Hres, lookup_insert_eq).
  assert (r_AcknowledgedAt r1 = None) as Hn1.
  { destruct (r_AcknowledgedAt r1); [|done]. rewrite Hs1 in Hack. discriminate (proj1 Hack (mk_is_Some _ _ eq_refl)). }
  pose proof (transition_recorded ctx c StatusDispatched ReasonDispatched CommandDispatched None
    (set_policy p s) s1 r1 Hr1 eq_refl Hn1 ltac:(done)) as Ht.
  pose proof (transition_accepted (c_ID c) StatusDispatched ReasonDispatched CommandDispatched None s1 r1) as He2.
  pose proof (transition_reads ctx (c_ID c) StatusDispatched ReasonDispatched CommandDispatched None s1) as Htk2.
  destruct (transition _ _ _ _ _ _ _) as [[r2 err2] s2]. cbn [fst snd] in *.
  destruct Ht as (Hr2 & [Hp2 _ Hx2] & _ & Hn2). rewrite (He2 ltac:(done) Hl1 ltac:(by rewrite Hc1) ltac:(by rewrite Hc1) Hn1 Hrec1 ltac:(done) ltac:(done)
    ltac:(apply Hclock; unfold reads in *; simpl in *; lia)). cbn iota.
  pose proof (Submit_dispatch_spec ctx c (set_policy p s) s2 r2 Hr2 (Hn2 ltac:(done))) as H3.
  pose proof (Submit_dispatch_accepted c (set_policy p s) s2 r2 Hr2 (Hn2 ltac:(done)) Hcorr Hdates
    ltac:(intros; apply Hclock; unfold reads in *; simpl in *; lia)) as H4.
  pose proof (Submit_dispatch_reads ctx c s2) as H5.
  destruct (Submit_dispatch _ _ _ _ _) as [[r3 err3] s3]. destruct H3 as ((_ & _ & Hi3) & Hx3 & _), H4 as [-> Hp3].
  simpl in *. split_and!; [done|by rewrite Hx3, Hx2, Hx1|by rewrite Hp3, Hp2, Hp1|done|unfold reads in *; simpl in *; lia].
Qed.

(** With publications accepted, an allowed, unexpired, unconditional command
    with a new key is handed to the executor. *)
Lemma Submit_reaches_executor c (s : Service) d p :
  ctx_Err ctx = None → validateCommand c = None → c_ExpectedRevision c = None →
  sv_idempotency s !! c_IdempotencyKey c = None → now (sv_tick s) < c_ExpiresAt c →
  command_dates c → (∀ k, (sv_tick s ≤ k < sv_tick s + 8)%nat → json_date (now k)) →
  policy_Evaluate ctx (mkIntent (c_EquipmentID c) (c_On c) (c_IssuedAt c)) (sv_policy s) = ((d, None), p) →
  d_Allowed d = true →
  let '(r, err, s') := Submit ctx c s in
  err = None ∧ sv_executor s' = (Dispatch ctx c (sv_executor s)).2 ∧ sv_policy s' = p
  ∧ sv_idempotency s' = <[c_IdempotencyKey c := c_ID c]> (sv_idempotency s) ∧ reads 8 s s'.
Proof.
  intros Hctx Hv Hrev Hk Hexp Hdates Hclock Hp Hd. unfold Output.Submit. rewrite valid_check, Hk by done.
  assert (validateUUID (c_CorrelationID c) = None) as Hcorr.
  { unfold validateCommand in Hv. destruct (validateUUID (c_ID c)); [done|]. by destruct (validateUUID (c_CorrelationID c)). }
  unfold Output.Submit_proceed. change (read_now now s) with (now (sv_tick s), tick s). cbn iota beta.
  rewrite Hrev. assert (Before (now (sv_tick s)) (c_ExpiresAt c) = true) as -> by (by go_bool). cbn [negb].
  pose proof (Submit_authorize_reaches c (tick s) d p Hcorr Hdates ltac:(intros; apply Hclock; simpl in *; lia) Hp Hd) as Ha.
  destruct (Submit_authorize _ _ _ _ _) as [[r err] s']. destruct Ha as (? & ? & ? & ? & Ht).
  split_and!; try done. unfold reads in *. simpl in Ht. lia.
Qed.
End publishing.

(** ** What a submission does to the policy *)
Lemma record_boundary ctx c status reason ty (s : Service) :
  same_boundary s (record ctx c status reason ty s).2.
Proof.
  pose proof (record_spec ctx c status reason ty s) as Hr.
  destruct (record ctx c status reason ty s) as [[r err] s']. by destruct Hr as (_ & _ & _ & ?).
Qed.

Lemma transition_boundary ctx id status reason ty at_ (s : Service) :
  same_boundary s (transition ctx id status reason ty at_ s).2.
Proof.
  destruct (sv_results s !! id) as [old|] eqn:Hold.
  - pose proof (transition_spec ctx id status reason ty at_ s old Hold) as Ht.
    destruct (transition ctx id status reason ty at_ s) as [[r err] s']. by destruct Ht as (_ & _ & _ & ?).
  - unfold Output.transition. by rewrite Hold.
Qed.

Lemma Submit_dispatch_policy ctx c (s : Service) :
  sv_policy (Submit_dispatch now factory ctx c s).2 = sv_policy s.
Proof.
  unfold Submit_dispatch. destruct (Dispatch _ _ _) as [[ack [e|]] x].
  { by rewrite (sb_policy _ _ (transition_boundary _ _ _ _ _ _ _)). }
  destruct (ack_Accepted ack); cbn [negb]; [destruct (IsZero _)|]; cbn [read_now];
    by rewrite (sb_policy _ _ (transition_boundary _ _ _ _ _ _ _)).
Qed.

(** It consults it through [Evaluate] only. *)
Lemma Submit_policy (I : P → Prop) ctx command (s : Service) :
  (∀ intent p, I p → I (policy_Evaluate ctx intent p).2) →
  I (sv_policy s) → I (sv_policy (Submit ctx command s).2).
Proof.
  intros HI Hs. unfold Output.Submit. pose proof (Submit_check_spec ctx command s) as Hc.
  destruct (Submit_check ctx command s) as [[c|r] s1]; destruct Hc as ((_ & _ & [Hp _ _] & _) & _);
    [|simpl; by rewrite Hp].
  rewrite <- Hp in Hs. clear -HI Hs.
  assert (∀ s2 : Service, I (sv_policy s2) → I (sv_policy (Submit_authorize now factory ctx c s2).2)) as Hau.
  { intros s2 H2. unfold Submit_authorize. specialize (HI (mkIntent (c_EquipmentID c) (c_On c) (c_IssuedAt c)) _ H2).
    destruct (policy_Evaluate _ _ _) as [[d [err|]] p]; [done|]. simpl in HI.
    destruct (d_Allowed d); cbn [negb]; [|by rewrite (sb_policy _ _ (record_boundary _ _ _ _ _ _))].
    pose proof (record_boundary ctx c StatusValidated ReasonValidated CommandValidated (set_policy p s2)) as [Hr _ _].
    destruct (record _ _ _ _ _ _) as [[r [err|]] s3]; simpl in *; [by rewrite Hr|].
    pose proof (transition_boundary ctx (c_ID c) StatusDispatched ReasonDispatched CommandDispatched None s3) as [Ht _ _].
    destruct (transition _ _ _ _ _ _ _) as [[r' [err|]] s4]; simpl in *; [by rewrite Ht, Hr|].
    by rewrite Submit_dispatch_policy, Ht, Hr. }
  unfold Output.Submit_proceed. change (read_now now s1) with (now (sv_tick s1), tick s1). cbn iota beta.
  destruct (negb _).
  { by rewrite (sb_policy _ _ (record_boundary _ _ _ _ _ _)). }
  destruct (c_ExpectedRevision c); [|by apply Hau].
  destruct (revisions_Snapshot _ _) as [snap [err|]]; [done|].
  destruct (negb _); [by rewrite (sb_policy _ _ (record_boundary _ _ _ _ _ _))|by apply Hau].
Qed.

(** ** A publisher that rejects *)
Section rejecting.
Context (ctx : Context) (rejects : ∀ event w, is_Some (Publish ctx event w).1).

Lemma command_emit_rejected ty r (s : Service) :
  is_Some (sv_publisher s) →
  is_Some (command_emit factory ctx ty r s).1 ∧ is_Some (sv_publisher (command_emit factory ctx ty r s).2).
Proof.
  intros [w Hw]. unfold command_emit, emit_with. rewrite Hw.
  destruct (Factory_New _ _ _ _ _ _ _) as [ev [e|]]; [by simpl; eauto|].
  specialize (rejects ev w). destruct (Publish ctx ev w) as [err w']. simpl in *. eauto.
Qed.

Lemma record_rejected c status reason ty (s : Service) :
  is_Some (sv_publisher s) →
  is_Some (record ctx c status reason ty s).1.2 ∧ is_Some (sv_publisher (record ctx c status reason ty s).2).
Proof.
  intros Hw. unfold Output.record. cbn -[command_emit].
  match goal with |- context [command_emit ?f ?x ?t ?r ?s0] =>
    pose proof (command_emit_rejected t r s0 Hw) as He; destruct (command_emit f x t r s0) as [err s'] end. done.
Qed.

(** No command gets past its first publication. *)
Lemma Submit_rejected command (s : Service) :
  is_Some (sv_publisher s) →
  sv_executor (Submit ctx command s).2 = sv_executor s ∧ is_Some (sv_publisher (Submit ctx command s).2).
Proof.
  intros Hw. unfold Output.Submit. pose proof (Submit_check_spec ctx command s) as Hc.
  assert (is_Some (sv_publisher (Submit_check ctx command s).2)) as Hw1.
  { unfold Output.Submit_check. by repeat (go_case; simplify_eq/=). }
  destruct (Submit_check ctx command s) as [[c|r] s1]; destruct Hc as ((_ & _ & [_ _ Hx] & _) & _); [|done].
  rewrite <- Hx. clear Hx Hw. simpl in Hw1.
  assert (∀ (s2 : Service) status reason ty, is_Some (sv_publisher s2) →
    sv_executor (record ctx c status reason ty s2).2 = sv_executor s2
    ∧ is_Some (sv_publisher (record ctx c status reason ty s2).2)) as Hrec.
  { intros. split; [apply (record_boundary ctx c status reason ty s2)|by apply record_rejected]. }
  assert (∀ s2 : Service, is_Some (sv_publisher s2) →
    sv_executor (Submit_authorize now factory ctx c s2).2 = sv_executor s2
    ∧ is_Some (sv_publisher (Submit_authorize now factory ctx c s2).2)) as Hau.
  { intros s2 H2. unfold Submit_authorize. destruct (policy_Evaluate _ _ _) as [[d [err|]] p]; [done|].
    destruct (d_Allowed d); cbn [negb]; [|by apply (Hrec (set_policy p s2))].
    pose proof (Hrec (set_policy p s2) StatusValidated ReasonValidated CommandValidated H2) as Hr.
    pose proof (record_rejected c StatusValidated ReasonValidated CommandValidated (set_policy p s2) H2) as [[e He] _].
    destruct (record _ _ _ _ _ _) as [[r err] s3]. simpl in *. by subst err. }
  unfold Output.Submit_proceed. change (read_now now s1) with (now (sv_tick s1), tick s1). cbn iota beta.
  destruct (negb _); [by apply (Hrec (tick s1))|].
  destruct (c_ExpectedRevision c); [|by apply (Hau (tick s1))].
  destruct (revisions_Snapshot _ _) as [snap [err|]]; [done|].
  destruct (negb _); [by apply (Hrec (tick s1))|by apply (Hau (tick s1))].
Qed.
End rejecting.

(** ** Reused command IDs

    [record] overwrites the record of an earlier command with the same ID. *)

(** When a second command with the same ID and another idempotency key is
    recorded, it takes over the record of the first, and replaying the first
    is refused as a conflict instead of answering its result. *)
Theorem reused_command_id_breaks_replay ctx c1 c2 (s s2 : Service) r2 err2 :
  ctx_Err ctx = None → validateCommand c1 = None → validateCommand c2 = None →
  c_ID c2 = c_ID c1 → c_IdempotencyKey c2 ≠ c_IdempotencyKey c1 →
  sv_idempotency s !! c_IdempotencyKey c1 = Some (c_ID c1) →
  sv_idempotency s !! c_IdempotencyKey c2 = None →
  Submit ctx c2 s = ((r2, err2), s2) → sv_idempotency s2 !! c_IdempotencyKey c2 ≠ None →
  Submit ctx c1 s2 = ((zero_Result, Some ErrConflict), s2).
Proof.
  intros Hctx Hv1 Hv2 Hid Hne Hk1 Hk2 Hsub Hk2'. pose proof (Submit_outcome ctx c2 s) as Ho.
  rewrite Hsub in Ho. destruct Ho as [(_ & Hi & _)|(c' & k & Hf & _ & _ & _ & Ho)]; [congruence|].
  assert (recorded c' s s2 r2) as (Hrec & Hr & Hi) by (destruct Ho; [congruence|done..]).
  destruct Hrec as (Hc & _). pose proof (fills_key _ _ Hf) as Hkey.
  pose proof (fi_id _ _ Hf (proj1 (valid_ids _ Hv2))) as Hid'.
  rewrite (known_key_replays ctx c1 s2 (c_ID c1)); [|done|done|].
  - rewrite Hr, Hid', Hid, lookup_insert_eq. simpl. rewrite Hc. unfold equivalent.
    by rewrite (bool_decide_eq_false_2 (c_IdempotencyKey c' = _)) by congruence.
  - rewrite Hi, lookup_insert_ne by congruence. done.
Qed.

(** ** Lost publications *)

(** When the publication of its validation fails, an allowed command is
    recorded as validated and the executor is never called, and submitting it
    again answers that record without error. *)
Theorem publish_failure_strands_command ctx c (s : Service) d p :
  ctx_Err ctx = None → validateCommand c = None → c_ExpectedRevision c = None →
  sv_idempotency s !! c_IdempotencyKey c = None → now (sv_tick s) < c_ExpiresAt c →
  policy_Evaluate ctx (mkIntent (c_EquipmentID c) (c_On c) (c_IssuedAt c)) (sv_policy s) = ((d, None), p) →
  d_Allowed d = true → is_Some (sv_publisher s) → (∀ event w, is_Some (Publish ctx event w).1) →
  ∃ r e s1, Submit ctx c s = ((r, Some e), s1) ∧ r_Status r = StatusValidated
    ∧ sv_executor s1 = sv_executor s ∧ Submit ctx c s1 = ((r, None), s1).
Proof.
  intros Hctx Hv Hrev Hk Hexp Hp Hd Hw Hpub. unfold Output.Submit at 1. rewrite valid_check, Hk by done.
  unfold Output.Submit_proceed. change (read_now now s) with (now (sv_tick s), tick s). cbn iota beta.
  rewrite Hrev. assert (Before (now (sv_tick s)) (c_ExpiresAt c) = true) as -> by (by go_bool).
  cbn [negb]. unfold Submit_authorize. change (sv_policy (tick s)) with (sv_policy s).
  rewrite Hp, Hd. cbn [negb].
  pose proof (record_spec ctx c StatusValidated ReasonValidated CommandValidated (set_policy p (tick s))) as Hr.
  pose proof (record_rejected ctx Hpub c StatusValidated ReasonValidated CommandValidated
    (set_policy p (tick s)) Hw) as [He _].
  destruct (record _ _ _ _ _ _) as [[r err] s1]. simpl in He. destruct He as [e ->].
  destruct Hr as (Hr & Hres & Hi & [_ _ Hx]). subst r. eexists _, e, s1. split_and!; [done..|].
  rewrite (known_key_replays ctx c s1 (c_ID c)); [|done|done|by rewrite Hi, lookup_insert_eq].
  rewrite Hres, lookup_insert_eq. simpl. unfold equivalent.
  by rewrite !bool_decide_eq_true_2, Bool.eqb_reflx by done.
Qed.
End commands.

(** ** What reaches the executor *)
Section dispatch.
Context {P V X W : Type} `{!Policy P, !RevisionReader V, !Executor X, !Publisher W}.
Context `{!JSON, !Marshaler Result}.
Context (now : nat → Time).
Context (newCommandID : nat → CommandID * option error).
Context (newCorrelationID : nat → CorrelationID * option error).
Context (factory : nat → FactoryEnv).

Abbreviation Service := (@Service P V (Recording X) W).
Abbreviation Submit := (Submit (X := Recording X) now newCommandID newCorrelationID factory).
Abbreviation service_step := (@service_step P V (Recording X) W _ _ _ _ _ _ now newCommandID newCorrelationID factory).

Definition dispatched (s : Service) : list Command := rec_log (sv_executor s).

Lemma Dispatch_recording ctx c (x : Recording X) : rec_log (Dispatch ctx c x).2 = rec_log x ++ [c].
Proof. simpl. by destruct (Dispatch ctx c (rec_inner x)). Qed.

Lemma dispatch_cases ctx command (s : Service) :
  let '(r, err, s') := Submit ctx command s in
  dispatched s' = dispatched s
  ∨ ∃ c k, dispatched s' = dispatched s ++ [c] ∧ fills command c
      ∧ validateCommand c = None ∧ sv_idempotency s !! c_IdempotencyKey command = None
      ∧ (sv_tick s ≤ k)%nat ∧ authorized ctx c (now k) s
      ∧ r_Command r = c ∧ (r_Status r = StatusAcknowledged ∨ r_Status r = StatusFailed).
Proof.
  pose proof (Submit_outcome now newCommandID newCorrelationID factory ctx command s) as Ho.
  destruct (Submit ctx command s) as [[r err] s'].
  destruct Ho as [(_ & _ & Hx & _)|(c & k & Hf & Hv & Hk & Hkey & Ho)];
    [left; unfold dispatched; by rewrite Hx|].
  destruct Ho as [err _ _ Hx|r err _ Hx _|r err Hrec Hx Hau Hs];
    [left; unfold dispatched; by rewrite Hx..|right].
  exists c, k. unfold dispatched. rewrite Hx, Dispatch_recording. split_and!; try done.
  - by destruct Hrec as ((? & _) & _).
  - rewrite Hs. destruct (dispatch_accepted _ _ _); auto.
Qed.

(** A submission hands at most one command to the executor, and only the
    submitted command (with an ID, a correlation and an issue time filled in
    where missing), valid, under an idempotency key not used before, unexpired
    at a reading of the clock within the submission, at its expected revision
    and allowed by the policy; its record then ends acknowledged or failed. *)
Theorem dispatch_requires_authorization ctx command (s : Service) :
  let '(r, err, s') := Submit ctx command s in
  dispatched s' = dispatched s
  ∨ ∃ c k, dispatched s' = dispatched s ++ [c] ∧ fills command c
      ∧ validateCommand c = None ∧ sv_idempotency s !! c_IdempotencyKey command = None
      ∧ (sv_tick s ≤ k)%nat ∧ authorized ctx c (now k) s
      ∧ r_Command r = c ∧ (r_Status r = StatusAcknowledged ∨ r_Status r = StatusFailed).
Proof. apply dispatch_cases. Qed.

(** Every dispatched command's key is known to the service, and no key was
    dispatched twice. *)
Definition log_ok (s : Service) : Prop :=
  NoDup (c_IdempotencyKey <$> dispatched s)
  ∧ ∀ c, c ∈ dispatched s → is_Some (sv_idempotency s !! c_IdempotencyKey c).

Lemma log_ok_same (s s' : Service) :
  (∀ key, is_Some (sv_idempotency s !! key) → is_Some (sv_idempotency s' !! key)) →
  dispatched s' = dispatched s → log_ok s → log_ok s'.
Proof. intros Hi Hd [Hnd Hk]. split; rewrite Hd; eauto. Qed.

Lemma log_ok_prim s s' : service_prim now s s' → log_ok s → log_ok s'.
Proof.
  intros [_ Hi Hx|ctx command c k r err Hf Hv Hk Hkey Ho|id old r _ _ _ _ Hi Hx] Hok.
  - apply (log_ok_same s); [by rewrite Hi|unfold dispatched; by rewrite Hx|done].
  - assert (∀ key, is_Some (sv_idempotency s !! key) →
      is_Some (<[c_IdempotencyKey c := c_ID c]> (sv_idempotency s) !! key)) as Hext.
    { intros key. rewrite lookup_insert. case_decide; eauto. }
    destruct Ho as [err _ Hi Hx|r err (_ & _ & Hi) Hx _|r err (_ & _ & Hi) Hx _ _].
    + apply (log_ok_same s); [by rewrite Hi|unfold dispatched; by rewrite Hx|done].
    + apply (log_ok_same s); [by rewrite Hi|unfold dispatched; by rewrite Hx|done].
    + destruct Hok as [Hnd Hlog]. unfold log_ok, dispatched. rewrite Hx, Dispatch_recording, Hi.
      split.
      * rewrite fmap_app. apply NoDup_app. split_and!; [done| |apply NoDup_singleton].
        intros key Hin ->%list_elem_of_singleton.
        apply list_elem_of_fmap in Hin as (c' & Heq & Hin%Hlog). rewrite <- Heq, Hkey in Hin.
        by destruct Hin.
      * intros c' [Hin| ->%list_elem_of_singleton]%elem_of_app; [by apply Hext, Hlog|].
        by rewrite lookup_insert_eq.
  - apply (log_ok_same s); [by rewrite Hi|unfold dispatched; by rewrite Hx|done].
Qed.

(** In every state that operations run one after another reach from a new
    service, the idempotency keys of the dispatched commands are pairwise
    distinct, and each is recorded. *)
Theorem at_most_one_dispatch_per_key dependencies p v x w s0 s :
  NewServiceWithDependencies dependencies p v (mkRecording x []) w = inl s0 →
  rtc service_step s0 s →
  NoDup (c_IdempotencyKey <$> dispatched s)
  ∧ ∀ c, c ∈ dispatched s → is_Some (sv_idempotency s !! c_IdempotencyKey c).
Proof.
  intros Hnew Hr. change (log_ok s). revert Hr. apply service_invariant; [apply log_ok_prim|].
  unfold NewServiceWithDependencies in Hnew. destruct dependencies; simplify_eq/=.
  split; [constructor|]. intros c Hin. by apply not_elem_of_nil in Hin.
Qed.
End dispatch.
