(* ===== verification/Alarms.v ===== *)
(** * The alarm manager: [internal/alarms/manager.go]

    Rules, observations and alarms with debounce, hysteresis and latching. A
    rule's state is reached through a pointer in the source and mutated in
    place, also on the error path; here [applyObservation] returns it. Clock
    readings, generated IDs and the event factory's environment are arguments
    of the methods that may consult them. *)

From Stdlib Require Import ZArith Lia String.
From stdpp Require Import base gmap strings list sorting.
From S2P Require Import Prelude Domain Health Events.

Inductive AlarmStatus := AlarmActive | AlarmAcked | AlarmStatusCleared | AlarmStatusOther (s : string).

#[export] Instance AlarmStatus_eq_dec : EqDecision AlarmStatus.
Proof. solve_decision. Defined.

Record Subject := mkSubject { su_Kind : string; su_ID : EntityID }.
Record Evidence := mkEvidence { evd_Code : string; evd_Message : string; evd_Metadata : Metadata }.

Record Rule := mkRule {
  ru_ID : RuleID;
  ru_Code : string;
  ru_Name : string;
  ru_Subject : Subject;
  ru_Severity : Severity;
  ru_Debounce : Duration;
  ru_Hysteresis : Duration;
  ru_Latching : bool
}.

Record Observation := mkObservation {
  ob_RuleID : RuleID;
  ob_Active : bool;
  ob_Severity : Severity;
  ob_ObservedAt : Time;
  ob_Evidence : Evidence;
  ob_CorrelationID : CorrelationID
}.

Record Alarm := mkAlarm {
  al_ID : AlarmID;
  al_RuleID : RuleID;
  al_Code : string;
  al_Subject : Subject;
  al_Severity : Severity;
  al_Status : AlarmStatus;
  al_ConditionActive : bool;
  al_Evidence : list Evidence;
  al_FirstObserved : Time;
  al_LastObserved : Time;
  al_OccurrenceCount : Z;
  al_AcknowledgedAt : option Time;
  al_ClearedAt : option Time;
  al_CorrelationID : CorrelationID
}.

Definition zero_Alarm : Alarm :=
  mkAlarm "" "" "" (mkSubject "" "") (SeverityOther "") (AlarmStatusOther "") false [] 0 0 0 None None "".

Inductive Transition :=
| TransitionNone | TransitionDebouncing | TransitionRaised | TransitionEscalated
| TransitionClearPending | TransitionCleared | TransitionAcknowledged | TransitionIgnoredStale.

#[export] Instance Transition_eq_dec : EqDecision Transition.
Proof. solve_decision. Defined.

(** The event code of a transition. *)
Definition Transition_code (t : Transition) : EventType :=
  match t with
  | TransitionNone => "alarm.no_change"
  | TransitionDebouncing => "alarm.debouncing"
  | TransitionRaised => "alarm.raised"
  | TransitionEscalated => "alarm.escalated"
  | TransitionClearPending => "alarm.clear_pending"
  | TransitionCleared => "alarm.cleared"
  | TransitionAcknowledged => "alarm.acknowledged"
  | TransitionIgnoredStale => "alarm.ignored_stale"
  end.

Definition ErrAlarmNotFound : error := ErrVar "alarms.ErrNotFound".
Definition ErrAlarmDuplicate : error := ErrVar "alarms.ErrDuplicate".
Definition ErrAlarmInvalidTransition : error := ErrVar "alarms.ErrInvalidTransition".
Definition ErrConditionActive : error := ErrVar "alarms.ErrConditionActive".

Record ruleState := mkRuleState {
  rs_rule : Rule;
  rs_pendingActive : option Time;
  rs_pendingClear : option Time;
  rs_lastObservation : Time;
  rs_current : AlarmID
}.

(** ** Validation and copies *)
Definition validateRule (r : Rule) : option error :=
  iferr validateUUID (ru_ID r) as err yield Some (ErrWrap "rule ID" err);;
  when bool_decide (ru_Code r = "") || bool_decide (ru_Name r = "")
       || bool_decide (su_Kind (ru_Subject r) = "") yield
    Some (ErrNew "rule code, name, and subject kind are required");;
  iferr validateUUID (su_ID (ru_Subject r)) as err yield Some (ErrWrap "subject ID" err);;
  when Rank (ru_Severity r) =? 0 yield Some (ErrNew "rule severity is invalid");;
  when (ru_Debounce r <? 0) || (ru_Hysteresis r <? 0) yield
    Some (ErrNew "debounce and hysteresis cannot be negative");;
  None.

(** Copying a map entry by entry. *)
Definition alarm_cloneMetadata (source : Metadata) : Metadata :=
  match source with
  | None => None
  | Some m => Some (list_to_map (map_to_list m))
  end.

Definition clone_evidence (e : Evidence) : Evidence :=
  mkEvidence (evd_Code e) (evd_Message e) (alarm_cloneMetadata (evd_Metadata e)).

Definition appendEvidence (values : list Evidence) (value : Evidence) (limit : nat) : list Evidence :=
  when bool_decide (evd_Code value = "") && bool_decide (evd_Message value = "") yield values;;
  let values := values ++ [clone_evidence value] in
  if (limit <? length values)%nat then last_n limit values else values.

Definition cloneAlarm (a : Alarm) : Alarm :=
  mkAlarm (al_ID a) (al_RuleID a) (al_Code a) (al_Subject a) (al_Severity a) (al_Status a)
    (al_ConditionActive a) (clone_evidence <$> al_Evidence a) (al_FirstObserved a) (al_LastObserved a)
    (al_OccurrenceCount a) (match al_AcknowledgedAt a with Some v => Some v | None => None end)
    (match al_ClearedAt a with Some v => Some v | None => None end) (al_CorrelationID a).

Lemma alarm_cloneMetadata_id m : alarm_cloneMetadata m = m.
Proof. destruct m; [|done]. simpl. by rewrite list_to_map_to_list. Qed.
Lemma clone_evidence_id e : clone_evidence e = e.
Proof. unfold clone_evidence. rewrite alarm_cloneMetadata_id. by destruct e. Qed.
Lemma cloneAlarm_id a : cloneAlarm a = a.
Proof.
  assert (clone_evidence <$> al_Evidence a = al_Evidence a) as He.
  { induction (al_Evidence a) as [|e l IH]; [done|]. by rewrite fmap_cons, IH, clone_evidence_id. }
  unfold cloneAlarm. rewrite He. by destruct a as [???????????[?|] [?|] ?].
Qed.
#[export] Hint Rewrite alarm_cloneMetadata_id clone_evidence_id cloneAlarm_id : clone.

Section manager.
Context {W : Type} `{!Publisher W, !JSON, !Marshaler Alarm}.

Record AlarmManager := mkAlarmManager {
  am_rules : gmap string ruleState;
  am_alarms : gmap string Alarm;
  am_publisher : option W;
  am_evidenceLimit : nat;
  am_started : bool
}.

Definition NewManagerWithDependencies (p : option W) (evidenceLimit : Z) : AlarmManager :=
  let evidenceLimit := if evidenceLimit <? 1 then 1 else evidenceLimit in
  mkAlarmManager ∅ ∅ p (Z.to_nat evidenceLimit) false.

Definition put_rule (id : RuleID) (st : ruleState) (m : AlarmManager) : AlarmManager :=
  mkAlarmManager (<[id := st]> (am_rules m)) (am_alarms m) (am_publisher m) (am_evidenceLimit m) (am_started m).
Definition put_alarm (a : Alarm) (m : AlarmManager) : AlarmManager :=
  mkAlarmManager (am_rules m) (<[al_ID a := a]> (am_alarms m)) (am_publisher m) (am_evidenceLimit m) (am_started m).
Definition put_publisher (w : option W) (m : AlarmManager) : AlarmManager :=
  mkAlarmManager (am_rules m) (am_alarms m) w (am_evidenceLimit m) (am_started m).
Definition put_started (b : bool) (m : AlarmManager) : AlarmManager :=
  mkAlarmManager (am_rules m) (am_alarms m) (am_publisher m) (am_evidenceLimit m) b.

Definition AlarmManager_Start (ctx : Context) (m : AlarmManager) : AlarmManager * option error :=
  (put_started true m, None).
Definition AlarmManager_Stop (ctx : Context) (m : AlarmManager) : AlarmManager * option error :=
  (put_started false m, None).
Definition AlarmManager_Health (now : Time) (m : AlarmManager) : Status :=
  lifecycle_status "alarms" (am_started m) now.

Definition alarm_emit (env : FactoryEnv) (ctx : Context) (transition : Transition) (alarm : Alarm)
    (m : AlarmManager) : option error * AlarmManager :=
  match am_publisher m with
  | None => (None, m)
  | Some w =>
      let '(event, err) := Factory_New (fe_now env) (fe_fresh env) "alarms" (Transition_code transition)
        (al_Severity alarm) alarm (al_CorrelationID alarm) in
      iferr err as err yield (Some err, m);;
      let '(err, w) := Publish ctx event w in
      let m := put_publisher (Some w) m in
      iferr err as err yield (Some (ErrWrap (Transition_code transition) err), m);;
      (None, m)
  end.

Definition RegisterRule (ctx : Context) (rule : Rule) (m : AlarmManager) : AlarmManager * option error :=
  iferr ctx_Err ctx as err yield (m, Some err);;
  iferr validateRule rule as err yield (m, Some err);;
  when bool_decide (is_Some (am_rules m !! ru_ID rule)) yield (m, Some ErrAlarmDuplicate);;
  (put_rule (ru_ID rule) (mkRuleState rule None None 0 "") m, None).

(** [m.alarms[id]], the zero alarm when absent. *)
Definition alarm_at (id : AlarmID) (m : AlarmManager) : Alarm := default zero_Alarm (am_alarms m !! id).

Definition set_pending (active clear : option Time) (current : AlarmID) (st : ruleState) : ruleState :=
  mkRuleState (rs_rule st) active clear (rs_lastObservation st) current.

(** [alarm] is the current one; it stays uncleared. *)
Definition observe_active (limit : nat) (alarm : Alarm) (o : Observation) : Alarm * Transition :=
  let escalate := Rank (al_Severity alarm) <? Rank (ob_Severity o) in
  (mkAlarm (al_ID alarm) (al_RuleID alarm) (al_Code alarm) (al_Subject alarm)
     (if escalate then ob_Severity o else al_Severity alarm)
     (al_Status alarm) true (appendEvidence (al_Evidence alarm) (ob_Evidence o) limit)
     (al_FirstObserved alarm) (ob_ObservedAt o) (wrap_uint64 (al_OccurrenceCount alarm + 1))
     (al_AcknowledgedAt alarm) (al_ClearedAt alarm) (ob_CorrelationID o),
   if escalate then TransitionEscalated else TransitionNone).

Definition observe_inactive (limit : nat) (alarm : Alarm) (o : Observation)
    (status : AlarmStatus) (clearedAt : option Time) : Alarm :=
  mkAlarm (al_ID alarm) (al_RuleID alarm) (al_Code alarm) (al_Subject alarm) (al_Severity alarm)
    status false (appendEvidence (al_Evidence alarm) (ob_Evidence o) limit)
    (al_FirstObserved alarm) (ob_ObservedAt o) (al_OccurrenceCount alarm)
    (al_AcknowledgedAt alarm) clearedAt (ob_CorrelationID o).

Definition applyObservation (newAlarmID : AlarmID * option error) (st : ruleState) (o : Observation)
    (m : AlarmManager) : ruleState * (Alarm * Transition * option error) :=
  let rule := rs_rule st in
  if ob_Active o then
    let st := set_pending (rs_pendingActive st) None (rs_current st) st in
    if bool_decide (rs_current st = "")
       || bool_decide (al_Status (alarm_at (rs_current st) m) = AlarmStatusCleared) then
      let pending := default (ob_ObservedAt o) (rs_pendingActive st) in
      let st := set_pending (Some pending) None (rs_current st) st in
      when Sub (ob_ObservedAt o) pending <? ru_Debounce rule yield
        (st, (zero_Alarm, TransitionDebouncing, None));;
      let '(id, err) := newAlarmID in
      iferr err as err yield (st, (zero_Alarm, TransitionNone, Some err));;
      let severity := if Rank (ru_Severity rule) <? Rank (ob_Severity o) then ob_Severity o
                      else ru_Severity rule in
      let alarm := mkAlarm id (ru_ID rule) (ru_Code rule) (ru_Subject rule) severity AlarmActive true
        (appendEvidence [] (ob_Evidence o) (am_evidenceLimit m)) pending (ob_ObservedAt o) 1
        None None (ob_CorrelationID o) in
      (set_pending None None id st, (alarm, TransitionRaised, None))
    else
      let '(alarm, transition) := observe_active (am_evidenceLimit m) (alarm_at (rs_current st) m) o in
      (st, (alarm, transition, None))
  else
    let st := set_pending None (rs_pendingClear st) (rs_current st) st in
    when bool_decide (rs_current st = "") yield (st, (zero_Alarm, TransitionNone, None));;
    let alarm := alarm_at (rs_current st) m in
    when bool_decide (al_Status alarm = AlarmStatusCleared) yield (st, (alarm, TransitionNone, None));;
    let pending := default (ob_ObservedAt o) (rs_pendingClear st) in
    let st := set_pending None (Some pending) (rs_current st) st in
    when (Sub (ob_ObservedAt o) pending <? ru_Hysteresis rule) || ru_Latching rule yield
      (st, (observe_inactive (am_evidenceLimit m) alarm o (al_Status alarm) (al_ClearedAt alarm),
            TransitionClearPending, None));;
    (set_pending None None (rs_current st) st,
     (observe_inactive (am_evidenceLimit m) alarm o AlarmStatusCleared (Some (ob_ObservedAt o)),
      TransitionCleared, None)).

(** What the generators and the clock return during one [Observe]. *)
Record ObserveEnv := mkObserveEnv {
  oe_now : Time;
  oe_newCorrelationID : CorrelationID * option error;
  oe_newAlarmID : AlarmID * option error;
  oe_factory : FactoryEnv
}.

Definition set_time_and_correlation (t : Time) (id : CorrelationID) (o : Observation) : Observation :=
  mkObservation (ob_RuleID o) (ob_Active o) (ob_Severity o) t (ob_Evidence o) id.

(** The body of [Observe] on a complete observation of a known rule that is not
    stale. *)
Definition observe_rule (env : ObserveEnv) (ctx : Context) (st : ruleState) (o : Observation)
    (m : AlarmManager) : AlarmManager * (Alarm * Transition * option error) :=
  let st := mkRuleState (rs_rule st) (rs_pendingActive st) (rs_pendingClear st) (ob_ObservedAt o) (rs_current st) in
  let '(st, (alarm, transition, err)) := applyObservation (oe_newAlarmID env) st o m in
  let m := put_rule (ob_RuleID o) st m in
  let m := if bool_decide (al_ID alarm = "") then m else put_alarm (cloneAlarm alarm) m in
  when match err with Some _ => true | None => false end || bool_decide (transition = TransitionNone)
       || bool_decide (transition = TransitionDebouncing) || bool_decide (transition = TransitionClearPending) yield
    (m, (cloneAlarm alarm, transition, err));;
  let '(emitErr, m) := alarm_emit (oe_factory env) ctx transition alarm m in
  (m, (cloneAlarm alarm, transition, emitErr)).

Definition Observe (env : ObserveEnv) (ctx : Context) (observation : Observation) (m : AlarmManager) :
    AlarmManager * (Alarm * Transition * option error) :=
  iferr ctx_Err ctx as err yield (m, (zero_Alarm, TransitionNone, Some err));;
  let observedAt := if IsZero (ob_ObservedAt observation) then UTC (oe_now env) else ob_ObservedAt observation in
  let '(id, err) := if bool_decide (ob_CorrelationID observation = "") then oe_newCorrelationID env
                    else (ob_CorrelationID observation, None) in
  iferr err as err yield (m, (zero_Alarm, TransitionNone, Some err));;
  let observation := set_time_and_correlation observedAt id observation in
  match am_rules m !! ob_RuleID observation with
  | None => (m, (zero_Alarm, TransitionNone, Some ErrAlarmNotFound))
  | Some st =>
      when negb (IsZero (rs_lastObservation st))
           && negb (After (ob_ObservedAt observation) (rs_lastObservation st)) yield
        (m, (cloneAlarm (alarm_at (rs_current st) m), TransitionIgnoredStale, None));;
      observe_rule env ctx st observation m
  end.

Definition set_status (status : AlarmStatus) (acknowledgedAt clearedAt : option Time) (a : Alarm) : Alarm :=
  mkAlarm (al_ID a) (al_RuleID a) (al_Code a) (al_Subject a) (al_Severity a) status (al_ConditionActive a)
    (al_Evidence a) (al_FirstObserved a) (al_LastObserved a) (al_OccurrenceCount a) acknowledgedAt clearedAt
    (al_CorrelationID a).

Definition Acknowledge (now : Time) (env : FactoryEnv) (ctx : Context) (id : AlarmID) (m : AlarmManager) :
    AlarmManager * (Alarm * option error) :=
  iferr ctx_Err ctx as err yield (m, (zero_Alarm, Some err));;
  match am_alarms m !! id with
  | None => (m, (zero_Alarm, Some ErrAlarmNotFound))
  | Some alarm =>
      when negb (bool_decide (al_Status alarm = AlarmActive)) yield
        (m, (zero_Alarm, Some ErrAlarmInvalidTransition));;
      let alarm := set_status AlarmAcked (Some (UTC now)) (al_ClearedAt alarm) alarm in
      let m := mkAlarmManager (am_rules m) (<[id := alarm]> (am_alarms m)) (am_publisher m)
        (am_evidenceLimit m) (am_started m) in
      let '(err, m) := alarm_emit env ctx TransitionAcknowledged alarm m in
      (m, (cloneAlarm alarm, err))
  end.

Definition Clear (now : Time) (env : FactoryEnv) (ctx : Context) (id : AlarmID) (m : AlarmManager) :
    AlarmManager * (Alarm * option error) :=
  iferr ctx_Err ctx as err yield (m, (zero_Alarm, Some err));;
  match am_alarms m !! id with
  | None => (m, (zero_Alarm, Some ErrAlarmNotFound))
  | Some alarm =>
      when al_ConditionActive alarm yield (m, (zero_Alarm, Some ErrConditionActive));;
      when bool_decide (al_Status alarm = AlarmStatusCleared) yield
        (m, (zero_Alarm, Some ErrAlarmInvalidTransition));;
      let alarm := set_status AlarmStatusCleared (al_AcknowledgedAt alarm) (Some (UTC now)) alarm in
      let m := mkAlarmManager (am_rules m) (<[id := alarm]> (am_alarms m)) (am_publisher m)
        (am_evidenceLimit m) (am_started m) in
      let '(err, m) := alarm_emit env ctx TransitionCleared alarm m in
      (m, (cloneAlarm alarm, err))
  end.

Definition AlarmManager_Get (ctx : Context) (id : AlarmID) (m : AlarmManager) : Alarm * option error :=
  iferr ctx_Err ctx as err yield (zero_Alarm, Some err);;
  match am_alarms m !! id with
  | None => (zero_Alarm, Some ErrAlarmNotFound)
  | Some a => (cloneAlarm a, None)
  end.

(** [sort.Slice] by first observation; ties come in any order, here in that of
    the sort used. [None] is the empty status, which selects every alarm. *)
Definition first_le (x y : Alarm) : Prop := al_FirstObserved x ≤ al_FirstObserved y.
#[local] Instance first_le_dec : RelDecision first_le.
Proof. intros x y. unfold first_le. apply _. Defined.

Definition AlarmManager_List (ctx : Context) (status : option AlarmStatus) (m : AlarmManager) :
    list Alarm * option error :=
  iferr ctx_Err ctx as err yield ([], Some err);;
  let out := filter (fun a => status = None ∨ status = Some (al_Status a)) (values (am_alarms m)) in
  (merge_sort first_le (cloneAlarm <$> out), None).
End manager.

#[export] Instance AlarmManager_Component {W} : Component (@AlarmManager W) := {
  comp_Name := fun _ => "alarms"; comp_Start := AlarmManager_Start;
  comp_Stop := AlarmManager_Stop; comp_Health := AlarmManager_Health }.
#[export] Instance AlarmManager_Flag {W} : FlagComponent (@AlarmManager W).
Proof. by refine {| flag_started := am_started |}. Defined.
