(* ===== verification/AlarmLifecycle.v ===== *)
(** * Correctness of the alarm manager

    The invariant of every reachable manager (one open episode per rule,
    bounded evidence, cleared alarms are healthy), the temporal meaning of
    debounce, hysteresis and latching, and the operator operations. *)

From Stdlib Require Import ZArith Lia String.
From stdpp Require Import base gmap strings list sorting.
From S2P Require Import Prelude Domain Health Events Alarms.

Section lifecycle.
Context {W : Type} `{!Publisher W, !JSON, !Marshaler Alarm}.
Abbreviation AlarmManager := (@AlarmManager W).

(** ** The invariant *)

(** What holds of an alarm by itself. *)
Record alarm_wf (limit : nat) (a : Alarm) : Prop := {
  aw_id : al_ID a ≠ "";
  aw_evidence : (length (al_Evidence a) ≤ limit)%nat;
  aw_cleared : al_Status a = AlarmStatusCleared ↔ is_Some (al_ClearedAt a);
  aw_healthy : al_Status a = AlarmStatusCleared → al_ConditionActive a = false;
  aw_acked : al_Status a = AlarmAcked → is_Some (al_AcknowledgedAt a);
  aw_status : ∀ text, al_Status a ≠ AlarmStatusOther text;
  aw_order : al_FirstObserved a ≤ al_LastObserved a
}.

(** What relates an alarm to the state of its rule. *)
Record alarm_of (st : ruleState) (a : Alarm) : Prop := {
  af_rule : al_RuleID a = ru_ID (rs_rule st);
  af_severity : Rank (ru_Severity (rs_rule st)) ≤ Rank (al_Severity a);
  af_last : al_LastObserved a ≤ rs_lastObservation st;
  af_open : al_Status a ≠ AlarmStatusCleared → rs_current st = al_ID a
}.

Definition pending_ok (last : Time) (pending : option Time) : Prop :=
  ∀ t, pending = Some t → t ≤ last.

Record rule_wf (m : AlarmManager) (id : RuleID) (st : ruleState) : Prop := {
  rw_id : ru_ID (rs_rule st) = id;
  rw_valid : validateRule (rs_rule st) = None;
  rw_active : pending_ok (rs_lastObservation st) (rs_pendingActive st);
  rw_clear : pending_ok (rs_lastObservation st) (rs_pendingClear st);
  rw_current : rs_current st = "" ∨
    ∃ a, am_alarms m !! rs_current st = Some a ∧ al_RuleID a = id
}.

Record alarms_ok (m : AlarmManager) : Prop := {
  ao_rules : ∀ id st, am_rules m !! id = Some st → rule_wf m id st;
  ao_alarms : ∀ id a, am_alarms m !! id = Some a →
    al_ID a = id ∧ alarm_wf (am_evidenceLimit m) a
    ∧ ∃ st, am_rules m !! al_RuleID a = Some st ∧ alarm_of st a
}.

Lemma alarms_ok_publisher m w : alarms_ok m → alarms_ok (put_publisher w m).
Proof. intros [Hr Ha]. split; [|done]. intros id st Hst. by destruct (Hr id st Hst). Qed.

Lemma alarm_emit_frame env ctx tr a m :
  ∃ err w, alarm_emit env ctx tr a m = (err, put_publisher w m).
Proof.
  unfold alarm_emit. destruct (am_publisher m) as [w|] eqn:Hw.
  - destruct (Factory_New _ _ _ _ _ _ _) as [ev [e|]].
    + exists (Some e), (am_publisher m). by destruct m.
    + destruct (Publish ctx ev w) as [[e|] w']; eauto.
  - exists None, None. destruct m. simpl in Hw. by subst.
Qed.

Lemma alarm_emit_ok env ctx tr a m : alarms_ok m → alarms_ok (alarm_emit env ctx tr a m).2.
Proof.
  intros Hm. destruct (alarm_emit_frame env ctx tr a m) as (err & w & ->). by apply alarms_ok_publisher.
Qed.

Lemma length_appendEvidence values value limit :
  (length values ≤ limit)%nat → (length (appendEvidence values value limit) ≤ limit)%nat.
Proof.
  intros Hl. unfold appendEvidence. destruct (_ && _); [done|].
  destruct (Nat.ltb_spec limit (length (values ++ [clone_evidence value]))); [apply length_last_n|lia].
Qed.

(** The rule state advances, no alarm is stored. *)
Lemma put_rule_ok m id st st' :
  alarms_ok m → am_rules m !! id = Some st →
  rs_rule st' = rs_rule st → rs_current st' = rs_current st →
  rs_lastObservation st ≤ rs_lastObservation st' →
  pending_ok (rs_lastObservation st') (rs_pendingActive st') →
  pending_ok (rs_lastObservation st') (rs_pendingClear st') →
  alarms_ok (put_rule id st' m).
Proof.
  intros [Hr Ha] Hst Hrule Hcur Hlast Hpa Hpc. split; simpl.
  - intros i s. rewrite lookup_insert_Some. intros [[<- <-]|[_ Hs]].
    + destruct (Hr id st Hst) as [? ? _ _ Hc]. split; try done; try congruence. by rewrite Hcur.
    + by destruct (Hr i s Hs).
  - intros i a Hi. destruct (Ha i a Hi) as (Hid & Hwf & s & Hs & Hof). split_and!; [done..|].
    destruct (decide (al_RuleID a = id)) as [Heq|Hne].
    + exists st'. rewrite Heq, lookup_insert_eq. split; [done|].
      assert (s = st) as -> by congruence. destruct Hof. split; try congruence; [lia|].
      intros. rewrite Hcur. auto.
    + exists s. by rewrite lookup_insert_ne.
Qed.

(** The rule state advances and its current alarm is stored: either the same
    episode, or a new one after the last was cleared. *)
Lemma put_alarm_ok m id st st' a :
  alarms_ok m → am_rules m !! id = Some st →
  rs_rule st' = rs_rule st → rs_current st' = al_ID a →
  rs_lastObservation st ≤ rs_lastObservation st' →
  pending_ok (rs_lastObservation st') (rs_pendingActive st') →
  pending_ok (rs_lastObservation st') (rs_pendingClear st') →
  alarm_wf (am_evidenceLimit m) a → alarm_of st' a →
  (rs_current st = al_ID a
   ∨ am_alarms m !! al_ID a = None
     ∧ ∀ b, am_alarms m !! rs_current st = Some b → al_Status b = AlarmStatusCleared) →
  alarms_ok (put_alarm a (put_rule id st' m)).
Proof.
  intros [Hr Ha] Hst Hrule Hcur Hlast Hpa Hpc Hwf Hof Hold.
  destruct (Hr id st Hst) as [Hid Hval _ _ Hc]. pose proof (af_rule _ _ Hof) as Har.
  assert (al_RuleID a = id) as Hrid by congruence.
  assert (∀ b, am_alarms m !! al_ID a = Some b → al_RuleID b = id) as Hsame.
  { intros b Hb. destruct Hold as [Heq|[Hn _]]; [|congruence].
    destruct Hc as [He|(c & Hc & Hcr)]; [|congruence]. destruct Hwf. congruence. }
  split; simpl.
  - intros i s. rewrite lookup_insert_Some. intros [[<- <-]|[Hne Hs]].
    + split; try done; try congruence. right. exists a. simpl. by rewrite Hcur, lookup_insert_eq.
    + destruct (Hr i s Hs) as [? ? ? ? Hcs]. split; try done.
      destruct Hcs as [?|(b & Hb & Hbr)]; [by left|right]. exists b. split; [|done]. simpl.
      rewrite lookup_insert_ne; [done|]. intros Heq. rewrite <- Heq in Hb. apply Hsame in Hb. congruence.
  - intros i b. rewrite lookup_insert_Some. intros [[<- <-]|[Hne Hb]].
    + split_and!; [done..|]. exists st'. by rewrite Hrid, lookup_insert_eq.
    + destruct (Ha i b Hb) as (Hbi & Hbwf & s & Hs & Hbof). split_and!; [done..|].
      destruct (decide (al_RuleID b = id)) as [Heq|Hn'].
      * exists st'. rewrite Heq, lookup_insert_eq. split; [done|].
        assert (s = st) as -> by congruence. destruct Hbof as [? ? ? Hopen]. split; try congruence; [lia|].
        intros Hcl. specialize (Hopen Hcl). destruct Hold as [Heq'|[_ Hcleared]]; [congruence|].
        destruct Hcl. apply Hcleared. congruence.
      * exists s. by rewrite lookup_insert_ne.
Qed.

(** ** Observations preserve it *)
Lemma current_alarm m id st :
  alarms_ok m → am_rules m !! id = Some st → rs_current st ≠ "" →
  let a := alarm_at (rs_current st) m in
  am_alarms m !! rs_current st = Some a ∧ al_ID a = rs_current st
  ∧ alarm_wf (am_evidenceLimit m) a ∧ alarm_of st a.
Proof.
  intros Hm Hst Hne. unfold alarm_at. destruct (rw_current _ _ _ (ao_rules m Hm id st Hst)) as [?|(a & Ha & Hr)]; [done|].
  rewrite Ha. simpl. destruct (ao_alarms m Hm _ _ Ha) as (Hid & Hwf & s & Hs & Hof).
  assert (s = st) as -> by congruence. done.
Qed.

Lemma pending_default_ok t last pending :
  last < t → pending_ok last pending → default t pending ≤ t.
Proof. intros Hlt Hp. destruct pending as [u|]; simpl; [|lia]. specialize (Hp u eq_refl). lia. Qed.

Section observe.
Context (m : AlarmManager) (st : ruleState) (o : Observation) (newID : AlarmID * option error).
Context (Hm : alarms_ok m) (Hst : am_rules m !! ob_RuleID o = Some st).
Context (Htime : rs_lastObservation st < ob_ObservedAt o).
Context (Hfresh : ∀ id, newID = (id, None) → id ≠ "" ∧ am_alarms m !! id = None).

(** The rule state as [Observe] hands it on. *)
Definition stamped : ruleState :=
  mkRuleState (rs_rule st) (rs_pendingActive st) (rs_pendingClear st) (ob_ObservedAt o) (rs_current st).

Lemma alarm_at_id a : al_ID (cloneAlarm a) = al_ID a.
Proof. done. Qed.

Definition stored (r : ruleState * (Alarm * Transition * option error)) : AlarmManager :=
  let '(st', (a, _, _)) := r in
  let m := put_rule (ob_RuleID o) st' m in
  if bool_decide (al_ID a = "") then m else put_alarm a m.

Lemma stored_none st' tr err :
  rs_rule st' = rs_rule st → rs_current st' = rs_current st → rs_lastObservation st' = ob_ObservedAt o →
  pending_ok (ob_ObservedAt o) (rs_pendingActive st') → pending_ok (ob_ObservedAt o) (rs_pendingClear st') →
  alarms_ok (stored (st', (zero_Alarm, tr, err))).
Proof. intros ? ? Hl ? ?. simpl. eapply put_rule_ok; eauto; rewrite ?Hl; done || lia. Qed.

Lemma stored_some st' a tr err :
  rs_rule st' = rs_rule st → rs_current st' = al_ID a → rs_lastObservation st' = ob_ObservedAt o →
  pending_ok (ob_ObservedAt o) (rs_pendingActive st') → pending_ok (ob_ObservedAt o) (rs_pendingClear st') →
  alarm_wf (am_evidenceLimit m) a → alarm_of st' a →
  (rs_current st = al_ID a
   ∨ am_alarms m !! al_ID a = None
     ∧ ∀ b, am_alarms m !! rs_current st = Some b → al_Status b = AlarmStatusCleared) →
  alarms_ok (stored (st', (a, tr, err))).
Proof.
  intros ? ? Hl ? ? Hwf ? ?. simpl. rewrite bool_decide_eq_false_2 by apply Hwf.
  eapply put_alarm_ok; eauto; rewrite ?Hl; done || lia.
Qed.

Lemma pending_later p : pending_ok (rs_lastObservation st) p → pending_ok (ob_ObservedAt o) p.
Proof. intros Hp t Ht. specialize (Hp t Ht). lia. Qed.

Lemma pending_none last : pending_ok last None.
Proof. by intros t. Qed.

Lemma pending_some p : p ≤ ob_ObservedAt o → pending_ok (ob_ObservedAt o) (Some p).
Proof. by intros ? t [= <-]. Qed.

(** A healthy or failing observation keeps the current alarm well formed. *)
Lemma observe_active_wf a : alarm_wf (am_evidenceLimit m) a → al_Status a ≠ AlarmStatusCleared →
  alarm_of st a → let a' := (observe_active (am_evidenceLimit m) a o).1 in
  alarm_wf (am_evidenceLimit m) a' ∧ al_ID a' = al_ID a ∧ al_RuleID a' = al_RuleID a
  ∧ Rank (al_Severity a) ≤ Rank (al_Severity a') ∧ al_LastObserved a' = ob_ObservedAt o.
Proof.
  intros [] Hs [] a'. unfold a', observe_active. simpl. split_and!; try done.
  - split; simpl; try done; [by apply length_appendEvidence|lia].
  - destruct (Z.ltb_spec (Rank (al_Severity a)) (Rank (ob_Severity o))); lia.
Qed.

Lemma observe_inactive_wf a status clearedAt : alarm_wf (am_evidenceLimit m) a → alarm_of st a →
  (status = al_Status a ∧ clearedAt = al_ClearedAt a
   ∨ status = AlarmStatusCleared ∧ is_Some clearedAt) →
  alarm_wf (am_evidenceLimit m) (observe_inactive (am_evidenceLimit m) a o status clearedAt).
Proof.
  intros [] [] [[-> ->]|[-> Hc]]; split; simpl; try done; try (by apply length_appendEvidence); lia.
Qed.

Lemma applyObservation_ok : alarms_ok (stored (applyObservation newID stamped o m)).
Proof.
  destruct (ao_rules m Hm _ _ Hst) as [Hid Hval Hpa%pending_later Hpc%pending_later _].
  pose proof (current_alarm m _ st Hm Hst) as Hcur.
  unfold applyObservation, stamped. cbn [rs_rule rs_pendingActive rs_pendingClear rs_current set_pending].
  assert (default (ob_ObservedAt o) (rs_pendingActive st) ≤ ob_ObservedAt o) as Hda.
  { eapply pending_default_ok; [exact Htime|]. by apply ao_rules in Hst as []. }
  assert (default (ob_ObservedAt o) (rs_pendingClear st) ≤ ob_ObservedAt o) as Hdc.
  { eapply pending_default_ok; [exact Htime|]. by apply ao_rules in Hst as []. }
  destruct (ob_Active o); [destruct (_ || _) eqn:Hq|].
  - (* no open episode *)
    destruct (Sub _ _ <? _); [apply stored_none; simpl; auto using pending_some, pending_none|].
    destruct newID as [nid [err|]]; [apply stored_none; simpl; auto using pending_some, pending_none|].
    destruct (Hfresh nid eq_refl) as [Hn1 Hn2].
    apply stored_some; try done; auto using pending_none.
    + split; simpl; try done. apply length_appendEvidence. simpl. lia.
    + split; simpl; try done. destruct (Z.ltb_spec (Rank (ru_Severity (rs_rule st))) (Rank (ob_Severity o))); lia.
    + right. split; [done|]. intros b Hb. apply orb_true_iff in Hq as [Hq|Hq]; apply bool_decide_eq_true in Hq.
      * rewrite Hq in Hb. destruct (ao_alarms m Hm _ _ Hb) as (? & [] & _). congruence.
      * unfold alarm_at in Hq. by rewrite Hb in Hq.
  - (* the open episode continues *)
    apply orb_false_iff in Hq as [Hne%bool_decide_eq_false Hs%bool_decide_eq_false].
    destruct (Hcur Hne) as (Hlk & Haid & Hwf & Hof).
    destruct (observe_active_wf _ Hwf Hs Hof) as (Hwf' & Hid' & Hrid' & Hsev & Hlast).
    destruct (observe_active _ _ _) as [a' tr]. cbn [fst] in Hwf', Hid', Hrid', Hsev, Hlast.
    apply stored_some; simpl; auto using pending_none; try (left; congruence); try congruence.
    destruct Hof. split; simpl; try congruence; lia.
  - case_bool_decide as Hne; [by apply stored_none; auto using pending_none|].
    destruct (Hcur Hne) as (Hlk & Haid & Hwf & Hof).
    case_bool_decide as Hs.
    + (* already cleared *)
      apply stored_some; try done; auto using pending_none.
      destruct Hof. split; simpl; try done. lia.
    + assert (∀ st' status clearedAt tr, rs_rule st' = rs_rule st → rs_current st' = rs_current st →
        rs_lastObservation st' = ob_ObservedAt o → rs_pendingActive st' = None →
        pending_ok (ob_ObservedAt o) (rs_pendingClear st') →
        (status = al_Status (alarm_at (rs_current st) m) ∧ clearedAt = al_ClearedAt (alarm_at (rs_current st) m)
         ∨ status = AlarmStatusCleared ∧ is_Some clearedAt) →
        alarms_ok (stored (st', (observe_inactive (am_evidenceLimit m) (alarm_at (rs_current st) m) o status clearedAt, tr, None)))) as Hstore.
      { intros st' status clearedAt tr Hr' Hc' Hl' Hp1 Hp2 Hst'.
        apply stored_some; try done; [by rewrite Hc'|by rewrite Hp1|by apply observe_inactive_wf| |by left].
        destruct Hof. split; simpl; rewrite ?Hr', ?Hl'; done || congruence. }
      destruct (_ || _); apply Hstore; simpl; auto using pending_some, pending_none; right; eauto.
Qed.
End observe.

(** The instant [Observe] uses. *)
Definition observe_time (env : ObserveEnv) (o : Observation) : Time :=
  if IsZero (ob_ObservedAt o) then oe_now env else ob_ObservedAt o.

(** [Observe] past its guards stores what [applyObservation] returns. *)
Lemma observe_rule_stored env ctx st o m :
  let r := applyObservation (oe_newAlarmID env) (stamped st o) o m in
  ∃ w err, observe_rule env ctx st o m
    = (put_publisher w (stored m o r), (r.2.1.1, r.2.1.2, err)).
Proof.
  unfold observe_rule, stamped. destruct (applyObservation _ _ _ _) as [st' [[a tr] err]].
  cbn [fst snd]. rewrite !cloneAlarm_id. unfold stored.
  set (m' := if bool_decide (al_ID a = "") then _ else _).
  assert (m' = put_publisher (am_publisher m') m') as Hm' by (by destruct m').
  destruct (_ || _); [exists (am_publisher m'), err; by rewrite <- Hm'|].
  destruct (alarm_emit_frame (oe_factory env) ctx tr a m') as (e & w & ->). eauto.
Qed.

Lemma applyObservation_last newID st o (m : AlarmManager) :
  rs_lastObservation (applyObservation newID st o m).1 = rs_lastObservation st.
Proof. unfold applyObservation, set_pending. by repeat (go_case; simpl). Qed.

(** A complete observation of a known rule. *)
Lemma Observe_known env ctx o m st :
  ctx_Err ctx = None → am_rules m !! ob_RuleID o = Some st → ob_CorrelationID o ≠ "" →
  ob_ObservedAt o ≠ 0 →
  Observe env ctx o m =
    if negb (IsZero (rs_lastObservation st)) && negb (After (ob_ObservedAt o) (rs_lastObservation st))
    then (m, (alarm_at (rs_current st) m, TransitionIgnoredStale, None))
    else observe_rule env ctx st o m.
Proof.
  intros Hctx Hst Hc Ht. unfold Observe. rewrite Hctx, bool_decide_eq_false_2 by done.
  assert (IsZero (ob_ObservedAt o) = false) as -> by (by apply Z.eqb_neq).
  replace (set_time_and_correlation (ob_ObservedAt o) (ob_CorrelationID o) o) with o by (by destruct o).
  by rewrite Hst, cloneAlarm_id.
Qed.

Lemma Observe_current env ctx o m st :
  ctx_Err ctx = None → am_rules m !! ob_RuleID o = Some st → ob_CorrelationID o ≠ "" →
  ob_ObservedAt o ≠ 0 → rs_lastObservation st < ob_ObservedAt o →
  Observe env ctx o m = observe_rule env ctx st o m.
Proof.
  intros Hctx Hst Hc Ht Hlt. rewrite (Observe_known env ctx o m st) by done.
  assert (After (ob_ObservedAt o) (rs_lastObservation st) = true) as -> by (by apply Z.ltb_lt).
  by rewrite andb_false_r.
Qed.

Lemma Observe_ok env ctx o m :
  alarms_ok m → 0 < observe_time env o →
  (∀ id, oe_newAlarmID env = (id, None) → id ≠ "" ∧ am_alarms m !! id = None) →
  alarms_ok (Observe env ctx o m).1.
Proof.
  intros Hm Ht Hf. unfold Observe. destruct (ctx_Err ctx); [done|].
  change (if IsZero (ob_ObservedAt o) then UTC (oe_now env) else ob_ObservedAt o) with (observe_time env o).
  destruct (if bool_decide (ob_CorrelationID o = "") then _ else _) as [corr [err|]]; [done|].
  set (o' := set_time_and_correlation _ _ _).
  destruct (am_rules m !! ob_RuleID o') as [st|] eqn:Hst; [|done].
  destruct (_ && _) eqn:Hstale; [done|].
  assert (rs_lastObservation st < ob_ObservedAt o') as Hlt.
  { simpl. simpl in Hstale. go_bool. lia. }
  destruct (observe_rule_stored env ctx st o' m) as (w & err & ->). simpl.
  apply alarms_ok_publisher. by apply applyObservation_ok.
Qed.

Lemma RegisterRule_ok ctx rule m : alarms_ok m → alarms_ok (RegisterRule ctx rule m).1.
Proof.
  intros Hm. unfold RegisterRule. destruct (ctx_Err ctx); [done|].
  destruct (validateRule rule) eqn:Hv; [done|]. case_bool_decide as Hdup; [done|]. simpl.
  destruct Hm as [Hr Ha]. split; simpl.
  - intros id st. rewrite lookup_insert_Some. intros [[<- <-]|[_ Hs]]; [|by destruct (Hr id st Hs)].
    by split; simpl; auto using pending_none.
  - intros id a Hi. destruct (Ha id a Hi) as (? & ? & st & Hst & Hof). split_and!; [done..|].
    exists st. rewrite lookup_insert_ne; [done|]. intros Heq. apply Hdup. rewrite Heq. eauto.
Qed.

(** An operator operation that changes status and timestamps only. *)
Lemma set_status_ok m id a status ack clr :
  alarms_ok m → am_alarms m !! id = Some a →
  (status = AlarmAcked ∧ al_Status a = AlarmActive ∧ is_Some ack ∧ clr = al_ClearedAt a
   ∨ status = AlarmStatusCleared ∧ al_ConditionActive a = false ∧ is_Some clr) →
  alarms_ok (mkAlarmManager (am_rules m) (<[id := set_status status ack clr a]> (am_alarms m))
    (am_publisher m) (am_evidenceLimit m) (am_started m)).
Proof.
  intros [Hr Ha] Hi Hs. destruct (Ha id a Hi) as (Hid & [? ? Hc ? ? ? ?] & st & Hst & [? ? ? Hopen]). split; simpl.
  - intros i s His. destruct (Hr i s His) as [? ? ? ? Hcur]. split; try done.
    destruct Hcur as [?|(b & Hb & Hbr)]; [by left|right]. simpl.
    destruct (decide (rs_current s = id)) as [Heq|Hne].
    + rewrite Heq, lookup_insert_eq. eexists. split; [done|]. simpl. congruence.
    + exists b. by rewrite lookup_insert_ne.
  - intros i b. rewrite lookup_insert_Some. intros [[<- <-]|[_ Hb]]; [|by apply Ha].
    split; [done|]. split.
    + destruct Hs as [(-> & Hact & ? & ->)|(-> & ? & ?)]; split; simpl; try done.
      rewrite <- Hc, Hact. done.
    + exists st. split; [done|]. split; simpl; try done. intros Hne. apply Hopen.
      destruct Hs as [(-> & Hact & _)|(-> & _)]; [by rewrite Hact|done].
Qed.

Lemma Acknowledge_ok now env ctx id m : alarms_ok m → alarms_ok (Acknowledge now env ctx id m).1.
Proof.
  intros Hm. unfold Acknowledge. destruct (ctx_Err ctx); [done|].
  destruct (am_alarms m !! id) as [a|] eqn:Ha; [|done]. case_bool_decide as Hs; [|done]. simpl.
  match goal with |- context [alarm_emit ?e ?c ?t ?a ?m] =>
    pose proof (alarm_emit_ok e c t a m) as He; destruct (alarm_emit e c t a m) as [err m'] end.
  apply He. apply set_status_ok; [done..|]. left. by split_and!.
Qed.

Lemma Clear_ok now env ctx id m : alarms_ok m → alarms_ok (Clear now env ctx id m).1.
Proof.
  intros Hm. unfold Clear. destruct (ctx_Err ctx); [done|].
  destruct (am_alarms m !! id) as [a|] eqn:Ha; [|done]. destruct (al_ConditionActive a) eqn:Hc; [done|].
  case_bool_decide as Hs; [done|]. simpl.
  match goal with |- context [alarm_emit ?e ?c ?t ?a ?m] =>
    pose proof (alarm_emit_ok e c t a m) as He; destruct (alarm_emit e c t a m) as [err m'] end.
  apply He. apply set_status_ok; [done..|]. right. by split_and!.
Qed.

(** Every operation of the manager. Observation times lie after Go's zero time
    and generated alarm IDs are new, as [domain.NewAlarmID] intends. *)
Inductive alarm_step : AlarmManager → AlarmManager → Prop :=
| ast_start ctx m : alarm_step m (AlarmManager_Start ctx m).1
| ast_stop ctx m : alarm_step m (AlarmManager_Stop ctx m).1
| ast_register ctx rule m : alarm_step m (RegisterRule ctx rule m).1
| ast_observe env ctx o m :
    0 < observe_time env o →
    (∀ id, oe_newAlarmID env = (id, None) → id ≠ "" ∧ am_alarms m !! id = None) →
    alarm_step m (Observe env ctx o m).1
| ast_acknowledge now env ctx id m : alarm_step m (Acknowledge now env ctx id m).1
| ast_clear now env ctx id m : alarm_step m (Clear now env ctx id m).1.

Lemma alarm_step_ok m m' : alarm_step m m' → alarms_ok m → alarms_ok m'.
Proof.
  intros [] Hm; auto using RegisterRule_ok, Observe_ok, Acknowledge_ok, Clear_ok.
  - destruct Hm as [Hr Ha]. split; [|done]. intros id st Hst. by destruct (Hr id st Hst).
  - destruct Hm as [Hr Ha]. split; [|done]. intros id st Hst. by destruct (Hr id st Hst).
Qed.

Lemma NewManager_ok p limit : alarms_ok (NewManagerWithDependencies p limit).
Proof. split; simpl; intros ? ?; by rewrite lookup_empty. Qed.

(** C28: in every state the manager's operations reach, rules are valid and
    filed by ID, pending times lie within the observations seen, a rule's
    current alarm is one of its own, alarms are filed by ID with their
    evidence within the limit, cleared exactly when they carry a clearing time
    and then with a condition that is not active, never below their rule's
    severity; and a rule has at most one alarm that is not cleared. *)
Theorem alarms_reachable_ok p limit m :
  rtc alarm_step (NewManagerWithDependencies p limit) m →
  alarms_ok m
  ∧ ∀ a b, am_alarms m !! al_ID a = Some a → am_alarms m !! al_ID b = Some b →
      al_RuleID a = al_RuleID b →
      al_Status a ≠ AlarmStatusCleared → al_Status b ≠ AlarmStatusCleared → a = b.
Proof.
  intros Hr. assert (alarms_ok m) as Hm.
  { eapply rtc_invariant; [apply alarm_step_ok|apply NewManager_ok|exact Hr]. }
  split; [done|]. intros a b Ha Hb Hrule Hoa Hob.
  destruct (ao_alarms m Hm _ _ Ha) as (_ & _ & s & Hs & Hofa).
  destruct (ao_alarms m Hm _ _ Hb) as (_ & _ & s' & Hs' & Hofb).
  assert (s' = s) as -> by congruence.
  pose proof (af_open _ _ Hofa Hoa). pose proof (af_open _ _ Hofb Hob). congruence.
Qed.

(** ** Duplicate delivery and the operator *)

(** After an observation of a registered rule, the same observation delivered
    again is answered as ignored, raises no event and leaves the manager
    unchanged. *)
Theorem duplicate_observation_ignored env env' ctx o m :
  ctx_Err ctx = None → ob_ObservedAt o ≠ 0 → ob_CorrelationID o ≠ "" →
  is_Some (am_rules m !! ob_RuleID o) →
  let m' := (Observe env ctx o m).1 in
  ∃ a, Observe env' ctx o m' = (m', (a, TransitionIgnoredStale, None)).
Proof.
  intros Hctx Ht Hc [st Hst] m'.
  assert (∃ st', am_rules m' !! ob_RuleID o = Some st' ∧ rs_lastObservation st' ≠ 0
    ∧ ob_ObservedAt o ≤ rs_lastObservation st') as (st' & Hst' & Hz & Hle).
  { unfold m'. rewrite (Observe_known env ctx o m st) by done. destruct (_ && _) eqn:Hs.
    - exists st. apply andb_true_iff in Hs as [Hz Hle]. go_bool. by split_and!.
    - destruct (observe_rule_stored env ctx st o m) as (w & err & ->).
      pose proof (applyObservation_last (oe_newAlarmID env) (stamped st o) o m) as Hlast.
      destruct (applyObservation _ _ _ _) as [s1 [[a tr] e]]. exists s1. simpl in *. rewrite Hlast.
      split; [by case_bool_decide; simpl; rewrite lookup_insert_eq|]. done. }
  exists (alarm_at (rs_current st') m'). rewrite (Observe_known env' ctx o m' st') by done.
  assert (negb (IsZero (rs_lastObservation st')) && negb (After (ob_ObservedAt o) (rs_lastObservation st')) = true)
    as -> by (by go_bool). done.
Qed.

(** While the condition of an alarm is active, clearing it is refused and
    changes nothing, and acknowledging it keeps its condition active and never
    clears it, leaving rules and all other alarms as they were. *)
Theorem operator_never_hides_a_condition now env ctx id m a :
  am_alarms m !! id = Some a → al_ConditionActive a = true →
  Clear now env ctx id m
    = (m, (zero_Alarm, Some (match ctx_Err ctx with Some err => err | None => ErrConditionActive end)))
  ∧ ∃ a', am_alarms (Acknowledge now env ctx id m).1 !! id = Some a'
      ∧ al_ConditionActive a' = true ∧ (al_Status a' = AlarmStatusCleared → al_Status a = AlarmStatusCleared)
      ∧ am_rules (Acknowledge now env ctx id m).1 = am_rules m
      ∧ ∀ j, j ≠ id → am_alarms (Acknowledge now env ctx id m).1 !! j = am_alarms m !! j.
Proof.
  intros Ha Hc. unfold Clear, Acknowledge. destruct (ctx_Err ctx); [split; [done|eauto 8]|].
  rewrite Ha, Hc. split; [done|]. destruct (negb _); [by exists a|].
  match goal with |- context [alarm_emit ?e ?c ?t ?a ?m] =>
    destruct (alarm_emit_frame e c t a m) as (err & w & ->) end. simpl.
  rewrite lookup_insert_eq. eexists. split_and!; [done..|]. intros j Hj. by rewrite lookup_insert_ne.
Qed.
End lifecycle.
