(* ===== verification/AlarmTiming.v ===== *)
(** * Debounce, hysteresis and latching

    An abstract machine per rule keeps only the observation history since the
    last edge and decides by the length of its trailing run; the manager's
    pending timestamps refine it. *)

From Stdlib Require Import ZArith Lia String.
From stdpp Require Import base gmap strings list sorting.
From S2P Require Import Prelude Domain Health Events Alarms AlarmLifecycle.

(** ** The abstract machine *)

(** Observations since the last edge, newest first. *)
Abbreviation history := (list (Time * bool)) (only parsing).

(** When the trailing run of observations equal to [b] began. *)
Fixpoint trailing (b : bool) (h : history) : option Time :=
  match h with
  | [] => None
  | (t, a) :: h => if Bool.eqb a b then Some (default t (trailing b h)) else None
  end.

Inductive phase := Quiet (h : history) | Open (h : history).

(** The rising or falling edge an observation produces. *)
Inductive edge := Rise | Fall.

Definition phase_step (rule : Rule) (ph : phase) (t : Time) (active : bool) : phase * option edge :=
  match ph with
  | Quiet h =>
      let h := (t, active) :: h in
      match trailing true h with
      | Some start => if ru_Debounce rule <=? Sub t start then (Open [], Some Rise) else (Quiet h, None)
      | None => (Quiet h, None)
      end
  | Open h =>
      let h := (t, active) :: h in
      match trailing false h with
      | Some start =>
          if (ru_Hysteresis rule <=? Sub t start) && negb (ru_Latching rule) then (Quiet [], Some Fall)
          else (Open h, None)
      | None => (Open h, None)
      end
  end.

Fixpoint phase_run (rule : Rule) (ph : phase) (run : list (Time * bool)) : list (option edge) :=
  match run with
  | [] => []
  | (t, active) :: rest =>
      let '(ph, e) := phase_step rule ph t active in e :: phase_run rule ph rest
  end.

(** A trailing run: [start] is the time of its oldest observation, everything
    since is [b], and what came before, if anything, was not. *)
Lemma trailing_spec b h start :
  trailing b h = Some start →
  ∃ run rest, h = run ++ rest ∧ last run = Some (start, b) ∧ Forall (fun o => o.2 = b) run
    ∧ ∀ o, head rest = Some o → o.2 ≠ b.
Proof.
  revert start. induction h as [|[t a] h IH]; intros start; simpl; [done|].
  destruct (Bool.eqb a b) eqn:Hab; [|done]. apply Bool.eqb_prop in Hab as ->. intros [= <-].
  destruct (trailing b h) as [s|] eqn:Ht; simpl.
  - destruct (IH s eq_refl) as (run & rest & -> & Hl & Hall & Hr).
    exists ((t, b) :: run), rest. split_and!; [done| |by constructor|done].
    rewrite last_cons, Hl. done.
  - exists [(t, b)], h. split_and!; [done|done|by constructor|]. intros [u c] Hh. destruct h; simplify_eq/=.
    intros ->. by rewrite Bool.eqb_reflx in Ht.
Qed.

(** ** The manager refines it *)
Section timing.
Context {W : Type} `{!Publisher W, !JSON, !Marshaler Alarm}.
Abbreviation AlarmManager := (@AlarmManager W).

Definition phase_of (m : AlarmManager) (st : ruleState) (ph : phase) : Prop :=
  match ph with
  | Quiet h => rs_pendingActive st = trailing true h
      ∧ (rs_current st = "" ∨ al_Status (alarm_at (rs_current st) m) = AlarmStatusCleared)
  | Open h => rs_pendingClear st = trailing false h
      ∧ rs_current st ≠ "" ∧ al_Status (alarm_at (rs_current st) m) ≠ AlarmStatusCleared
  end.

Definition transition_edge (tr : Transition) : option edge :=
  match tr with TransitionRaised => Some Rise | TransitionCleared => Some Fall | _ => None end.

Lemma stored_rule (m : AlarmManager) o st' a tr err : am_rules (stored m o (st', (a, tr, err))) !! ob_RuleID o = Some st'.
Proof. simpl. by case_bool_decide; simpl; rewrite lookup_insert_eq. Qed.

Lemma alarm_at_stored (m : AlarmManager) o st' a tr err id :
  al_ID a = id → id ≠ "" → alarm_at id (stored m o (st', (a, tr, err))) = a.
Proof.
  intros <- Hne. simpl. rewrite bool_decide_eq_false_2 by done. unfold alarm_at. simpl.
  by rewrite lookup_insert_eq.
Qed.

(** The alarm just stored is the current one. *)
Ltac stored_alarm Hid := cbn [rs_current set_pending fst]; rewrite alarm_at_stored; [done|exact Hid|done].

Lemma applyObservation_refines (m : AlarmManager) st o nid ph :
  alarms_ok m → am_rules m !! ob_RuleID o = Some st → nid ≠ "" → phase_of m st ph →
  let r := applyObservation (nid, None) (stamped st o) o m in
  rs_rule r.1 = rs_rule st ∧ rs_lastObservation r.1 = ob_ObservedAt o
  ∧ phase_of (stored m o r) r.1 (phase_step (rs_rule st) ph (ob_ObservedAt o) (ob_Active o)).1
  ∧ transition_edge r.2.1.2 = (phase_step (rs_rule st) ph (ob_ObservedAt o) (ob_Active o)).2.
Proof.
  intros Hm Hst Hnid Hph. pose proof (current_alarm m _ st Hm Hst) as Hcur.
  unfold applyObservation, stamped. cbn [rs_rule rs_pendingActive rs_pendingClear rs_current set_pending].
  unfold phase_step. destruct ph as [h|h]; cbn [trailing] in *.
  - destruct Hph as [Hp Hq]. destruct (ob_Active o); cbn [Bool.eqb].
    + assert (bool_decide (rs_current st = "")
        || bool_decide (al_Status (alarm_at (rs_current st) m) = AlarmStatusCleared) = true) as ->
        by (apply orb_true_iff; rewrite !bool_decide_eq_true; done).
      rewrite Hp. set (start := default _ _).
      destruct (Z.ltb_spec (Sub (ob_ObservedAt o) start) (ru_Debounce (rs_rule st)));
        destruct (Z.leb_spec (ru_Debounce (rs_rule st)) (Sub (ob_ObservedAt o) start)); try lia.
      * split_and!; try done.
      * split_and!; try done. simpl. rewrite bool_decide_eq_false_2 by done.
        split_and!; try done. unfold alarm_at. simpl. by rewrite lookup_insert_eq.
    + case_bool_decide as Hne; [by split_and!; auto|].
      destruct Hq as [?|Hq]; [done|]. rewrite bool_decide_eq_true_2 by done.
      split_and!; try done. split; [done|]. right. destruct (Hcur Hne) as (_ & Hid & _).
      stored_alarm Hid.
  - destruct Hph as (Hp & Hne & Hs). destruct (Hcur Hne) as (_ & Hid & _).
    destruct (ob_Active o); cbn [Bool.eqb].
    + rewrite !bool_decide_eq_false_2 by done. cbn [orb].
      destruct (observe_active (am_evidenceLimit m) (alarm_at (rs_current st) m) o) as [a' tr] eqn:Ha.
      unfold observe_active in Ha. injection Ha as <- <-.
      split_and!; try done; [|by destruct (_ <? _)]. split_and!; try done.
      stored_alarm Hid.
    + rewrite !bool_decide_eq_false_2 by done. rewrite Hp. set (start := default _ _).
      assert ((Sub (ob_ObservedAt o) start <? ru_Hysteresis (rs_rule st)) || ru_Latching (rs_rule st)
        = negb ((ru_Hysteresis (rs_rule st) <=? Sub (ob_ObservedAt o) start) && negb (ru_Latching (rs_rule st)))) as ->.
      { rewrite negb_andb, negb_involutive, Z.leb_antisym, negb_involutive. done. }
      destruct (_ && _); cbn [negb].
      * split_and!; try done. split; [done|]. right. stored_alarm Hid.
      * split_and!; try done. split_and!; try done. stored_alarm Hid.
Qed.

(** ** Runs of observations of one rule *)
Section run.
Context (ctx : Context) (Hctx : ctx_Err ctx = None) (id : RuleID).

Fixpoint observe_run (run : list (ObserveEnv * Observation)) (m : AlarmManager) :
    AlarmManager * list Transition :=
  match run with
  | [] => (m, [])
  | (env, o) :: rest =>
      let '(m, (_, tr, _)) := Observe env ctx o m in
      let '(m, trs) := observe_run rest m in (m, tr :: trs)
  end.

(** Complete observations of the rule, in time order after [from], each with a
    new alarm ID at hand. *)
Fixpoint run_ok (from : Time) (run : list (ObserveEnv * Observation)) (m : AlarmManager) : Prop :=
  match run with
  | [] => True
  | (env, o) :: rest =>
      ob_RuleID o = id ∧ ob_CorrelationID o ≠ "" ∧ from < ob_ObservedAt o
      ∧ (∃ nid, oe_newAlarmID env = (nid, None) ∧ nid ≠ "" ∧ am_alarms m !! nid = None)
      ∧ run_ok (ob_ObservedAt o) rest (Observe env ctx o m).1
  end.

Definition observed (x : ObserveEnv * Observation) : Time * bool := (ob_ObservedAt x.2, ob_Active x.2).

Lemma Observe_refines env o m st ph :
  alarms_ok m → am_rules m !! ob_RuleID o = Some st → ob_CorrelationID o ≠ "" →
  0 < ob_ObservedAt o → rs_lastObservation st < ob_ObservedAt o →
  (∃ nid, oe_newAlarmID env = (nid, None) ∧ nid ≠ "" ∧ am_alarms m !! nid = None) → phase_of m st ph →
  let '(m', (_, tr, _)) := Observe env ctx o m in
  let '(ph', e) := phase_step (rs_rule st) ph (ob_ObservedAt o) (ob_Active o) in
  transition_edge tr = e
  ∧ ∃ st', am_rules m' !! ob_RuleID o = Some st' ∧ rs_rule st' = rs_rule st
      ∧ rs_lastObservation st' = ob_ObservedAt o ∧ phase_of m' st' ph' ∧ alarms_ok m'.
Proof.
  intros Hm Hst Hc Hpos Hlt (nid & Hnid & Hne & Hfresh) Hph.
  assert (alarms_ok (Observe env ctx o m).1) as Hm'.
  { apply Observe_ok; [done| |rewrite Hnid; by intros ? [= <-]].
    unfold observe_time, IsZero. destruct (Z.eqb_spec (ob_ObservedAt o) 0); lia. }
  rewrite (Observe_current env ctx o m st) in * by (done || lia).
  destruct (observe_rule_stored env ctx st o m) as (w & err & Ho). rewrite Ho in *. rewrite Hnid in *.
  destruct (applyObservation_refines m st o nid ph) as (Hr & Hl & Hp & He); [done..|].
  destruct (applyObservation (nid, None) (stamped st o) o m) as [st' [[a tr] e]]. cbn [fst snd] in *.
  destruct (phase_step _ _ _ _) as [ph' e']. cbn [fst snd] in *. split; [done|]. exists st'.
  split_and!; [apply stored_rule|done..].
Qed.

Lemma observe_run_refines run m st ph from :
  alarms_ok m → am_rules m !! id = Some st → rs_lastObservation st ≤ from → 0 ≤ from →
  run_ok from run m → phase_of m st ph →
  transition_edge <$> (observe_run run m).2 = phase_run (rs_rule st) ph (observed <$> run)
  ∧ alarms_ok (observe_run run m).1.
Proof.
  revert m st ph from. induction run as [|[env o] run IH]; intros m st ph from Hm Hst Hl Hpos Hok Hph; [done|].
  destruct Hok as (Hid & Hc & Hlt & Hnew & Hok). rewrite <- Hid in Hst.
  pose proof (Observe_refines env o m st ph Hm Hst Hc ltac:(lia) ltac:(lia) Hnew Hph) as Hs.
  cbn [observe_run phase_run fmap list_fmap observed fst snd].
  destruct (Observe env ctx o m) as [m' [[a tr] err]]. unfold observed at 1. cbn [fst snd].
  destruct (phase_step (rs_rule st) ph (ob_ObservedAt o) (ob_Active o)) as [ph' e].
  destruct Hs as (He & st' & Hst' & Hr & Hl' & Hph' & Hm').
  rewrite Hid in Hst'. destruct (IH m' st' ph' (ob_ObservedAt o)) as [IH1 IH2]; try done; try lia.
  destruct (observe_run run m') as [m'' trs]. cbn [fst snd] in *. split; [|done].
  rewrite fmap_cons, He, IH1, Hr. done.
Qed.

(** C25: over any run of observations in time order, the raise and clear
    transitions the manager answers are those of the abstract phase machine
    that looks only at the trailing run of equal observations: an alarm is
    raised when the condition has held for the debounce time and cleared,
    unless latching, when it has been away for the hysteresis time. *)
Theorem timing_refinement m rule run :
  alarms_ok m → am_rules m !! id = Some (mkRuleState rule None None 0 "") → run_ok 0 run m →
  transition_edge <$> (observe_run run m).2 = phase_run rule (Quiet []) (observed <$> run).
Proof.
  intros Hm Hst Hok.
  eapply (observe_run_refines run m (mkRuleState rule None None 0 "") (Quiet []) 0); try done.
  split; [done|by left].
Qed.

Lemma phase_run_latching rule ph run : ru_Latching rule = true → Some Fall ∉ phase_run rule ph run.
Proof.
  intros Hl. revert ph. induction run as [|[t b] run IH]; intros ph; cbn [phase_run]; [apply not_elem_of_nil|].
  destruct (phase_step rule ph t b) as [ph' e] eqn:Hs. rewrite not_elem_of_cons. split; [|apply IH].
  intros <-. unfold phase_step in Hs. rewrite Hl in Hs. cbn [negb] in Hs. rewrite ?andb_false_r in Hs.
  destruct ph; cbn [trailing] in Hs; repeat (go_case; try discriminate); by rewrite andb_false_r in *.
Qed.

(** No run of observations in time order clears the alarm of a latching rule.
    *)
Theorem latching_never_clears_by_observation m st ph run from :
  alarms_ok m → am_rules m !! id = Some st → ru_Latching (rs_rule st) = true →
  rs_lastObservation st ≤ from → 0 ≤ from → run_ok from run m → phase_of m st ph →
  TransitionCleared ∉ (observe_run run m).2.
Proof.
  intros Hm Hst Hl Hlast Hpos Hok Hph Hin.
  destruct (observe_run_refines run m st ph from) as [He _]; [done..|].
  apply (phase_run_latching (rs_rule st) ph (observed <$> run) Hl). rewrite <- He.
  apply list_elem_of_fmap. by exists TransitionCleared.
Qed.
End run.
End timing.
