(* ===== verification/Evaluator.v ===== *)
(** * The threshold evaluator: [internal/alarms/evaluator.go]

    Translates canonical sensor state events into alarm observations. SHA-256
    and JSON decoding are the classes [SHA256] and [Unmarshaler]; the event bus
    is the class [EventSubscriber]. A nil dereference, which panics in Go, is
    [None]. The scaled reading rounds after the product and after the sum, as
    Go does where the compiler does not fuse them. *)

From Stdlib Require Import ZArith Lia String Ascii SpecFloat.
From stdpp Require Import base gmap strings list.
From S2P Require Import Prelude Domain Health Events State Alarms.

(** ** Boundaries *)

(** [crypto/sha256.Sum256]: a digest of 32 bytes. *)
Class SHA256 := {
  Sum256 : string → list Z;
  Sum256_length : ∀ s, length (Sum256 s) = 32%nat;
  Sum256_bytes : ∀ s, Forall is_byte (Sum256 s)
}.

(** [json.Unmarshal] into a [state.Value]. *)
Class Unmarshaler := { json_Unmarshal : string → error + StateValue }.

(** The subset of the bus the evaluator consumes; a subscription is its
    address. *)
Class EventSubscriber (B : Type) := {
  bus_Subscribe : EventType → B → (nat * option error) * B;
  bus_Unsubscribe : nat → B → B
}.

Record ThresholdRule := mkThresholdRule {
  tr_ID : string;
  tr_Name : string;
  tr_SensorID : SensorID;
  tr_Condition : string;
  tr_Threshold : float64;
  tr_ThresholdHigh : option float64;
  tr_Severity : Severity;
  tr_Delay : Duration;
  tr_ClearDelay : Duration;
  tr_Latching : bool;
  tr_Scale : float64;
  tr_Offset : float64
}.

Definition oneOfCondition (value : string) : bool :=
  bool_decide (value = "above") || bool_decide (value = "below") || bool_decide (value = "outside")
  || bool_decide (value = "true") || bool_decide (value = "false").

(** [rule.Scale == 0] holds of both zeros. *)
Definition is_zero (f : float64) : bool := match f with S754_zero _ => true | _ => false end.

Definition default_scale (r : ThresholdRule) : ThresholdRule :=
  if is_zero (tr_Scale r) then
    mkThresholdRule (tr_ID r) (tr_Name r) (tr_SensorID r) (tr_Condition r) (tr_Threshold r)
      (tr_ThresholdHigh r) (tr_Severity r) (tr_Delay r) (tr_ClearDelay r) (tr_Latching r)
      (F64 1) (tr_Offset r)
  else r.

Definition threshold_invalid (rule : ThresholdRule) : bool :=
  match validateUUID (tr_SensorID rule) with Some _ => true | None => false end
  || bool_decide (tr_ID rule = "") || bool_decide (tr_Name rule = "")
  || negb (oneOfCondition (tr_Condition rule)) || (Rank (tr_Severity rule) =? 0)
  || (tr_Delay rule <? 0) || (tr_ClearDelay rule <? 0).

(** ** Evaluation of one rule *)
Definition threshold_evidence (rule : ThresholdRule) : Evidence :=
  mkEvidence "sensor.threshold" "configured sensor threshold evaluated"
    (Some {[ "condition" := tr_Condition rule ]}).

Definition zero_Evidence : Evidence := mkEvidence "" "" None.

(** The numeric and boolean readings of a value; [None] when it panics. *)
Definition readings (rule : ThresholdRule) (v : Value) : option (error + float64 * bool) :=
  match v_Kind v with
  | ValueQuantity =>
      q ← v_Quantity v;
      Some (inr (F64_add (F64_mul (q_Value q) (tr_Scale rule)) (tr_Offset rule), false))
  | ValueBoolean => b ← v_Boolean v; Some (inr (F64 0, b))
  | _ => Some (inl (ErrNew "alarm threshold requires numeric or boolean state"))
  end.

Definition evaluate (rule : ThresholdRule) (value : StateValue) : option (bool * Evidence * option error) :=
  match readings rule (sv_Value value) with
  | None => None
  | Some (inl err) => Some (false, zero_Evidence, Some err)
  | Some (inr (numeric, boolean)) =>
      let done_ active := Some (active, threshold_evidence rule, None) in
      when bool_decide (tr_Condition rule = "above") yield done_ (F64_lt (tr_Threshold rule) numeric);;
      when bool_decide (tr_Condition rule = "below") yield done_ (F64_lt numeric (tr_Threshold rule));;
      when bool_decide (tr_Condition rule = "outside") yield
        match tr_ThresholdHigh rule with
        | None => Some (false, zero_Evidence, Some (ErrNew "outside alarm threshold requires upper bound"))
        | Some high => done_ (F64_lt numeric (tr_Threshold rule) || F64_lt high numeric)
        end;;
      when bool_decide (tr_Condition rule = "true") yield done_ boolean;;
      when bool_decide (tr_Condition rule = "false") yield done_ (negb boolean);;
      done_ false
  end.

Section evaluator.
Context `{!SHA256, !Unmarshaler}.
Context {B W : Type} `{!EventSubscriber B, !Publisher W, !JSON, !Marshaler Alarm}.

(** The digest stamped and formatted like a UUID. *)
Definition thresholdRuleID (value : string) : RuleID :=
  let sum := stamp_uuid (Sum256 ("aquaos-alarm-rule:" +:+ value)) in
  string_of_list_ascii (uuid_text (take 16 sum)).

Record Evaluator := mkEvaluator {
  ev_bus : B;
  ev_engine : @AlarmManager W;
  ev_rules : gmap string (list ThresholdRule);
  ev_subscription : option nat;
  ev_started : bool
}.

(** The loop of [NewEvaluator]. *)
Fixpoint add_thresholds (rules : list ThresholdRule) (m : gmap string (list ThresholdRule)) :
    gmap string (list ThresholdRule) + error :=
  match rules with
  | [] => inl m
  | rule :: rest =>
      when threshold_invalid rule yield inr (ErrNew "alarm threshold rule is invalid");;
      let rule := default_scale rule in
      add_thresholds rest (<[tr_SensorID rule := default [] (m !! tr_SensorID rule) ++ [rule]]> m)
  end.

Definition NewEvaluator (bus : option B) (engine : option (@AlarmManager W)) (rules : list ThresholdRule) :
    Evaluator + error :=
  match bus, engine with
  | Some bus, Some engine =>
      match add_thresholds rules ∅ with
      | inl m => inl (mkEvaluator bus engine m None false)
      | inr err => inr err
      end
  | _, _ => inr (ErrNew "alarm evaluator dependencies are required")
  end.

(** The rule registered for a threshold. *)
Definition threshold_rule (t : ThresholdRule) : Rule :=
  mkRule (thresholdRuleID (tr_ID t)) ("sensor.threshold." +:+ tr_Condition t) (tr_Name t)
    (mkSubject "sensor" (tr_SensorID t)) (tr_Severity t) (tr_Delay t) (tr_ClearDelay t) (tr_Latching t).

(** The two nested loops of [Start], over the rules of the map in an order. *)
Fixpoint register_all (ctx : Context) (rules : list ThresholdRule) (m : @AlarmManager W) :
    @AlarmManager W * option error :=
  match rules with
  | [] => (m, None)
  | threshold :: rest =>
      let '(m, err) := RegisterRule ctx (threshold_rule threshold) m in
      iferr err as err yield (m, Some (ErrWrap "register configured alarm rule" err));;
      register_all ctx rest m
  end.

(** [order] is an order in which [range] visits the sensors. *)
Definition rules_in (order : list SensorID) (rules : gmap string (list ThresholdRule)) : list ThresholdRule :=
  order ≫= fun sensor => default [] (rules !! sensor).

Definition set_engine (m : @AlarmManager W) (e : Evaluator) : Evaluator :=
  mkEvaluator (ev_bus e) m (ev_rules e) (ev_subscription e) (ev_started e).

Definition Evaluator_Start (ctx : Context) (order : list SensorID) (e : Evaluator) : Evaluator * option error :=
  let '(m, err) := register_all ctx (rules_in order (ev_rules e)) (ev_engine e) in
  let e := set_engine m e in
  iferr err as err yield (e, Some err);;
  let '(subscription, err, bus) := bus_Subscribe StateChanged (ev_bus e) in
  iferr err as err yield
    (mkEvaluator bus (ev_engine e) (ev_rules e) (ev_subscription e) (ev_started e), Some err);;
  (mkEvaluator bus (ev_engine e) (ev_rules e) (Some subscription) true, None).

Definition Evaluator_Stop (ctx : Context) (e : Evaluator) : Evaluator * option error :=
  let bus := match ev_subscription e with Some s => bus_Unsubscribe s (ev_bus e) | None => ev_bus e end in
  (mkEvaluator bus (ev_engine e) (ev_rules e) None false, None).

Definition Evaluator_Health (now : Time) (e : Evaluator) : Status :=
  lifecycle_status "alarm-evaluator" (ev_started e) now.

(** ** Handling a state event *)

(** The guard of [handle]: a good canonical sensor measurement. *)
Definition relevant (value : StateValue) : bool :=
  bool_decide (k_EntityKind (sv_Key value) = EntitySensor)
  && bool_decide (k_Plane (sv_Key value) = PlaneObservation)
  && bool_decide (k_Attribute (sv_Key value) = "measurement")
  && bool_decide (sv_Quality value = QualityGood).

Definition threshold_observation (event : Event) (value : StateValue) (rule : ThresholdRule)
    (active : bool) (evidence : Evidence) : Observation :=
  mkObservation (thresholdRuleID (tr_ID rule)) active (tr_Severity rule) (sv_ObservedAt value) evidence
    (ev_CorrelationID event).

(** The loop of [handle]; the environments are those of its [Observe] calls. *)
Fixpoint handle_rules (envs : nat → ObserveEnv) (ctx : Context) (event : Event) (value : StateValue)
    (rules : list ThresholdRule) (m : @AlarmManager W) : option (@AlarmManager W * option error) :=
  match rules with
  | [] => Some (m, None)
  | rule :: rest =>
      match evaluate rule value with
      | None => None
      | Some (_, _, Some err) => Some (m, Some err)
      | Some (active, evidence, None) =>
          let '(m, (_, _, err)) :=
            Observe (envs 0%nat) ctx (threshold_observation event value rule active evidence) m in
          match err with
          | Some err => Some (m, Some (ErrWrap "observe configured alarm rule" err))
          | None => handle_rules (fun n => envs (S n)) ctx event value rest m
          end
      end
  end.

Definition handle (envs : nat → ObserveEnv) (ctx : Context) (event : Event) (e : Evaluator) :
    option (Evaluator * option error) :=
  match json_Unmarshal (ev_Payload event) with
  | inl err => Some (e, Some (ErrWrap "decode state event" err))
  | inr value =>
      when negb (relevant value) yield Some (e, None);;
      let rules := default [] (ev_rules e !! k_EntityID (sv_Key value)) in
      '(m, err) ← handle_rules envs ctx event value rules (ev_engine e);
      Some (set_engine m e, err)
  end.

(** ** Theorems *)
Lemma stamp_uuid_take value :
  length value = 32%nat → take 16 (stamp_uuid value) = stamp_uuid (take 16 value).
Proof. intros Hl. do 32 (destruct value as [|? value]; [done|]). by destruct value. Qed.

Lemma thresholdRuleID_valid value : validateUUID (thresholdRuleID value) = None.
Proof.
  unfold thresholdRuleID. rewrite stamp_uuid_take by apply Sum256_length.
  apply uuid_text_valid.
  - rewrite length_take, Sum256_length. done.
  - apply Forall_take, Sum256_bytes.
Qed.

Lemma threshold_rule_valid t : threshold_invalid t = false → validateRule (threshold_rule t) = None.
Proof.
  unfold threshold_invalid, validateRule. simpl. intros Hi. rewrite thresholdRuleID_valid.
  destruct (validateUUID (tr_SensorID t)); [done|]. simpl in Hi.
  apply orb_false_iff in Hi as [Hi Hc]. apply orb_false_iff in Hi as [Hi Hd].
  apply orb_false_iff in Hi as [Hi Hs]. apply orb_false_iff in Hi as [Hi _].
  apply orb_false_iff in Hi as [_ Hn]. by rewrite Hn, Hs, Hd, Hc.
Qed.

Lemma default_scale_rule t : threshold_rule (default_scale t) = threshold_rule t.
Proof. unfold default_scale. by destruct (is_zero _). Qed.

(** Every threshold the evaluator holds passed its validation. *)
Definition thresholds_ok (m : gmap string (list ThresholdRule)) : Prop :=
  ∀ sensor rules, m !! sensor = Some rules →
    Forall (fun t => tr_SensorID t = sensor ∧ validateRule (threshold_rule t) = None) rules.

Lemma add_thresholds_ok rules m m' :
  thresholds_ok m → add_thresholds rules m = inl m' → thresholds_ok m'.
Proof.
  revert m. induction rules as [|t rules IH]; intros m Hm; simpl; [by intros [= <-]|].
  destruct (threshold_invalid t) eqn:Hi; [done|]. apply IH.
  intros sensor l. rewrite lookup_insert_Some. intros [[<- <-]|[_ Hl]]; [|by apply Hm].
  apply Forall_app. split.
  - destruct (m !! tr_SensorID (default_scale t)) as [l|] eqn:Hl; [by apply Hm in Hl|constructor].
  - apply Forall_singleton. split; [done|]. rewrite default_scale_rule. by apply threshold_rule_valid.
Qed.

Lemma register_all_ok ctx rules m :
  ctx_Err ctx = None → Forall (fun t => validateRule (threshold_rule t) = None) rules →
  NoDup ((fun t => thresholdRuleID (tr_ID t)) <$> rules) →
  (∀ t, t ∈ rules → am_rules m !! thresholdRuleID (tr_ID t) = None) →
  let r := register_all ctx rules m in
  r.2 = None ∧ am_alarms r.1 = am_alarms m
  ∧ ∀ id, am_rules r.1 !! id =
      match list_find (fun t => thresholdRuleID (tr_ID t) = id) rules with
      | Some (_, t) => Some (mkRuleState (threshold_rule t) None None 0 "")
      | None => am_rules m !! id
      end.
Proof.
  intros Hctx Hv. revert m. induction Hv as [|t rules Ht Hv IH]; intros m Hnd Hfree; [done|].
  rewrite fmap_cons in Hnd. apply NoDup_cons in Hnd as [Hnin Hnd]. cbn [register_all].
  unfold RegisterRule. rewrite Hctx, Ht, bool_decide_eq_false_2.
  2:{ simpl. rewrite Hfree by left. by intros [? ?]. }
  destruct (IH (put_rule (ru_ID (threshold_rule t)) (mkRuleState (threshold_rule t) None None 0 "") m)) as (He & Ha & Hr); [done| |].
  { intros u Hu. simpl. rewrite lookup_insert_ne; [apply Hfree; by right|].
    intros Heq. apply Hnin. rewrite Heq. apply list_elem_of_fmap. eauto. }
  split_and!; [done|done|]. intros id. rewrite Hr. cbn [list_find].
  destruct (decide (thresholdRuleID (tr_ID t) = id)) as [<-|Hne].
  - destruct (list_find _ rules) as [[i u]|] eqn:Hf; simpl.
    + apply list_find_Some in Hf as (Hu & Heq & _). destruct Hnin. rewrite <- Heq.
      apply list_elem_of_fmap. exists u. split; [done|]. by apply list_elem_of_lookup_2 in Hu.
    + by rewrite lookup_insert_eq.
  - destruct (list_find _ rules) as [[i u]|]; simpl; [done|]. by rewrite lookup_insert_ne.
Qed.

Lemma register_all_registered ctx rules m m' :
  register_all ctx rules m = (m', None) →
  (∀ id, is_Some (am_rules m !! id) → is_Some (am_rules m' !! id))
  ∧ ∀ t, t ∈ rules → is_Some (am_rules m' !! thresholdRuleID (tr_ID t))
      ∧ validateRule (threshold_rule t) = None.
Proof.
  revert m. induction rules as [|t rules IH]; intros m; simpl.
  { intros [= <-]. split; [done|]. intros t Ht. by apply not_elem_of_nil in Ht. }
  destruct (RegisterRule ctx (threshold_rule t) m) as [m1 [err|]] eqn:Hr; [done|]. intros Hall.
  destruct (IH m1 Hall) as [Hmono Hin].
  assert (validateRule (threshold_rule t) = None
    ∧ m1 = put_rule (thresholdRuleID (tr_ID t)) (mkRuleState (threshold_rule t) None None 0 "") m) as [Hv ->].
  { unfold RegisterRule in Hr. destruct (ctx_Err ctx); [done|]. destruct (validateRule _); [done|].
    case_bool_decide; simplify_eq/=. done. }
  split.
  - intros id Hid. apply Hmono. simpl. rewrite lookup_insert. case_decide; eauto.
  - intros u [->|Hu]%elem_of_cons; [|by apply Hin]. split; [|done].
    apply Hmono. simpl. rewrite lookup_insert_eq. eauto.
Qed.

(** Starting a new evaluator, when no rule is registered yet and their derived
    identifiers are distinct, registers every threshold rule with the alarm
    manager under its derived identifier and keeps the subscription to state
    changes. *)
Theorem Evaluator_Start_registers_all ctx order bus engine rules e sub bus' :
  NewEvaluator (Some bus) (Some engine) rules = inl e → ctx_Err ctx = None →
  NoDup ((fun t => thresholdRuleID (tr_ID t)) <$> rules_in order (ev_rules e)) →
  (∀ t, t ∈ rules_in order (ev_rules e) → am_rules engine !! thresholdRuleID (tr_ID t) = None) →
  bus_Subscribe StateChanged bus = ((sub, None), bus') →
  let '(e', err) := Evaluator_Start ctx order e in
  err = None ∧ ev_started e' = true ∧ ev_subscription e' = Some sub
  ∧ ∀ t, t ∈ rules_in order (ev_rules e) →
      am_rules (ev_engine e') !! thresholdRuleID (tr_ID t)
        = Some (mkRuleState (threshold_rule t) None None 0 "").
Proof.
  intros Hnew Hctx Hnd Hfree Hsub. unfold NewEvaluator in Hnew.
  destruct (add_thresholds rules ∅) as [m|] eqn:Hm; simplify_eq/=.
  assert (Forall (fun t => validateRule (threshold_rule t) = None) (rules_in order m)) as Hv.
  { apply Forall_forall. intros t (sensor & Ht & _)%list_elem_of_bind.
    destruct (m !! sensor) as [l|] eqn:Hl; [|by apply not_elem_of_nil in Ht].
    apply (add_thresholds_ok rules ∅ m) in Hl; [|by intros ? ?; rewrite lookup_empty|done].
    rewrite Forall_forall in Hl. by apply Hl. }
  unfold Evaluator_Start. simpl.
  destruct (register_all_ok ctx (rules_in order m) engine Hctx Hv Hnd Hfree) as (He & _ & Hr).
  destruct (register_all ctx (rules_in order m) engine) as [m' err]. simpl in *. subst err.
  rewrite Hsub. split_and!; try done. simpl. intros t Ht. rewrite Hr.
  destruct (list_find _ _) as [[i u]|] eqn:Hf.
  - apply list_find_Some in Hf as (Hu & Heq & _).
    apply list_elem_of_lookup in Ht as [j Hj].
    assert (i = j) as ->.
    { eapply (NoDup_lookup _ i j); [exact Hnd| |]; rewrite list_lookup_fmap, ?Hu, ?Hj; simpl; [done|by rewrite Heq]. }
    congruence.
  - apply list_find_None in Hf. rewrite Forall_forall in Hf. by destruct (Hf t Ht).
Qed.

(** An evaluator with rules that was started and stopped cannot be started
    again: registration of its rules fails as a duplicate and it stays
    stopped. *)
Theorem Evaluator_restart_fails ctx ctx' order order' e e' :
  Evaluator_Start ctx order e = (e', None) → ctx_Err ctx' = None →
  rules_in order' (ev_rules e) ≠ [] → rules_in order' (ev_rules e) ⊆ rules_in order (ev_rules e) →
  ∃ e'' err, Evaluator_Start ctx' order' (Evaluator_Stop ctx e').1 = (e'', Some err)
    ∧ errors_Is err "alarms.ErrDuplicate" = true ∧ ev_started e'' = false.
Proof.
  intros Hs Hctx Hne Hsub. unfold Evaluator_Start in Hs.
  destruct (register_all ctx _ _) as [m [err|]] eqn:Hr; [done|].
  destruct (bus_Subscribe _ _) as [[sub [err|]] bus]; [done|]. injection Hs as <-.
  apply register_all_registered in Hr as [_ Hin]. unfold Evaluator_Start, Evaluator_Stop. simpl.
  destruct (rules_in order' (ev_rules e)) as [|t rules] eqn:Hl; [done|].
  destruct (Hin t) as [Hreg Hv]; [apply Hsub; by left|]. cbn [register_all].
  unfold RegisterRule. rewrite Hctx, Hv, bool_decide_eq_true_2 by done. simpl. eauto.
Qed.

Lemma evaluate_total rule value :
  Value_Validate (sv_Value value) = None → is_Some (evaluate rule value).
Proof.
  intros Hv. unfold evaluate.
  assert (is_Some (readings rule (sv_Value value))) as [x ->].
  { unfold readings. destruct (sv_Value value) as [k q b t]. destruct k, q, b, t; simpl in *; discriminate Hv || by eexists. }
  destruct x as [err|[numeric boolean]]; [eauto|]. repeat case_bool_decide; try by eexists.
  destruct (tr_ThresholdHigh rule); by eexists.
Qed.

(** On a well-formed payload the handler returns (it never dereferences an
    absent quantity), and readings that are not good change nothing. *)
Theorem handle_total envs ctx event e value :
  json_Unmarshal (ev_Payload event) = inr value → Value_Validate (sv_Value value) = None →
  ∃ e' err, handle envs ctx event e = Some (e', err) ∧ ev_rules e' = ev_rules e
    ∧ (sv_Quality value ≠ QualityGood → e' = e ∧ err = None).
Proof.
  intros Hu Hv. unfold handle. rewrite Hu. destruct (relevant value) eqn:Hrel; simpl; [|by exists e, None].
  assert (∀ rules envs m, ∃ m' err, handle_rules envs ctx event value rules m = Some (m', err)) as Hall.
  { clear -Hv. induction rules as [|t rules IH]; intros envs m; simpl; [eauto|].
    destruct (evaluate_total t value Hv) as [[[active evd] [err|]] ->]; [eauto|].
    destruct (Observe _ _ _ _) as [m' [[a tr] [err|]]]; eauto. }
  destruct (Hall (default [] (ev_rules e !! k_EntityID (sv_Key value))) envs (ev_engine e)) as (m' & err & ->).
  simpl. exists (set_engine m' e), err. split_and!; [done..|]. intros Hq. unfold relevant in Hrel.
  rewrite (bool_decide_eq_false_2 (sv_Quality value = _)), andb_false_r in Hrel by done. done.
Qed.
End evaluator.
