(* ===== verification/System.v ===== *)
(** * The control core assembled

    The command service of [Output] over the safety engine of [Safety], which
    reads the canonical state of [State]: what [cmd/aquaos-core] wires together
    in [internal/app/container.go]. The theorems here cross components: what
    holds whenever a command reaches an executor, that the watchdogs' shutdown
    commands do, and how they can be lost. *)

From Stdlib Require Import ZArith Lia String.
From stdpp Require Import base gmap strings list sorting.
From S2P Require Import Prelude Domain Health Events State Equipment Safety Watchdogs Output Commands.

(** ** The safety engine as the command policy *)

(** The engine with what it reads: the canonical store, the clock, and the
    order in which the runtime iterates over a map. *)
Record SafetyPolicy := mkSafetyPolicy {
  sp_engine : Engine;
  sp_state : StateManager;
  sp_clock : Time;
  sp_order : gmap string unit → list string
}.

Definition set_sp_engine (e : Engine) (p : SafetyPolicy) : SafetyPolicy :=
  mkSafetyPolicy e (sp_state p) (sp_clock p) (sp_order p).

Definition order_of {A} (p : SafetyPolicy) (m : gmap string A) : list string :=
  sp_order p ((fun _ => tt) <$> m).

#[export] Instance SafetyPolicy_Policy : Policy SafetyPolicy := {
  policy_Evaluate := fun ctx intent p =>
    let '(e, r) := Evaluate ctx (sp_clock p) (sp_state p, sp_clock p) intent (sp_engine p) in
    (r, set_sp_engine e p);
  policy_RecordReported := fun ctx id on at_ p =>
    let '(e, err) := RecordReported ctx id on at_ (sp_engine p) in (err, set_sp_engine e p);
  policy_CheckWatchdogs := fun ctx p =>
    let e := sp_engine p in
    let '(e, r) := CheckWatchdogs ctx (sp_clock p) (order_of p (e_overrides e)) (order_of p (e_profiles e)) e in
    (r, set_sp_engine e p)
}.

#[export] Instance StateManager_Revisions : RevisionReader (StateManager * Time) :=
  { revisions_Snapshot := fun ctx r => StateManager_Snapshot ctx r.2 r.1 }.

(** The iteration order visits every key once. *)
Definition fair_order (p : SafetyPolicy) : Prop := ∀ m, sp_order p m ≡ₚ (map_to_list m).*1.

Lemma order_of_range {A} p (m : gmap string A) : fair_order p → range_order m (order_of p m).
Proof.
  intros Hp. unfold range_order, order_of. rewrite (Hp _).
  assert ((map_to_list ((fun _ : A => tt) <$> m)).*1 = (map_to_list m).*1) as ->; [|done].
  rewrite map_to_list_fmap, <- list_fmap_compose. apply list_fmap_ext. by intros ? [k x].
Qed.

(** ** A command that reaches the executor is safe *)

(** An input as [StateManager] holds it: good, unexpired, of the required value. *)
Definition input_held (m : StateManager) (clock : Time) (r : InputRequirement) : Prop :=
  ∃ v, m_values m !! ir_Key r = Some v ∧ sv_Quality v = QualityGood
    ∧ clock < sv_ObservedAt v + sv_FreshFor v
    ∧ ∀ b, ir_RequireBoolean r = Some b → v_Boolean (sv_Value v) = Some b.

Lemma input_satisfied_held ctx m clock r :
  input_satisfied ctx (m, clock) r → input_held m clock r.
Proof.
  intros (v & Hget & Hq & Hb). simpl in Hget.
  destruct (Get_good_is_fresh ctx clock (ir_Key r) m v Hget Hq) as (w & Hw & Hwq & Hf & ->).
  by exists w.
Qed.

Section assembled.
Context {X W : Type} `{!Executor X, !Publisher W, !JSON, !Marshaler Result}.
Context (now : nat → Time).
Context (newCommandID : nat → CommandID * option error).
Context (newCorrelationID : nat → CorrelationID * option error).
Context (factory : nat → FactoryEnv).

Abbreviation Service := (@Service SafetyPolicy (StateManager * Time) (Recording X) W).
Abbreviation Submit :=
  (@Submit SafetyPolicy (StateManager * Time) (Recording X) W _ _ _ _ _ _ now newCommandID newCorrelationID factory).
Abbreviation RunWatchdogs :=
  (@RunWatchdogs SafetyPolicy (StateManager * Time) (Recording X) W _ _ _ _ _ _ now newCommandID newCorrelationID factory).

Lemma Evaluate_allowed_profile ctx clock (reader : StateManager * Time) intent e d :
  (Evaluate ctx clock reader intent e).2 = (d, None) → d_Allowed d = true → in_IssuedAt intent ≠ 0 →
  ∃ p, e_profiles e !! in_EquipmentID intent = Some p
    ∧ (in_On intent = true →
       hard_constraints ctx reader (in_IssuedAt intent) (e_mode e) p
         (account (runtime_of (in_EquipmentID intent) e) (in_IssuedAt intent))
       ∧ mode_permits (e_mode e) (active_override (in_IssuedAt intent) (in_EquipmentID intent) e)).
Proof.
  intros He Ha Hz. destruct (ctx_Err ctx) as [err|] eqn:Hctx.
  { unfold Evaluate in He. rewrite Hctx in He. simplify_eq/=. }
  destruct (e_profiles e !! in_EquipmentID intent) as [p|] eqn:Hp.
  2:{ unfold Evaluate in He. rewrite Hctx, Hp in He. by simplify_eq/=. }
  exists p. split; [done|]. intros Hon.
  rewrite (Evaluate_decision ctx clock reader intent e p) in He by done. simpl in He. rewrite Hon in He.
  assert (intent_time clock intent = in_IssuedAt intent) as Ht.
  { unfold intent_time, IsZero. by destruct (Z.eqb_spec (in_IssuedAt intent) 0). }
  rewrite Ht in He.
  by destruct (proj1 (decide_on_allowed _ _ _ _ _ _ _ _) (conj He Ha)) as (_ & ? & ?).
Qed.

Lemma valid_issued c : validateCommand c = None → c_IssuedAt c ≠ 0.
Proof.
  unfold validateCommand, IsZero. intros Hv Hz. rewrite Hz in Hv. simpl in Hv. by repeat (go_case; try done).
Qed.

(** What holds of a service and a command that asks for power and reaches the
    executor. *)
Definition power_permitted (s : Service) (c : Command) : Prop :=
  let policy := sv_policy s in
  let e := sp_engine policy in
  ∃ p k, e_profiles e !! c_EquipmentID c = Some p
    ∧ (sv_tick s ≤ k)%nat ∧ now k < c_ExpiresAt c
    ∧ e_mode e ≠ ModeEmergencyStop
    ∧ (e_mode e = ModeMaintenance ∨ e_mode e = ModeManual →
       ∃ o, e_overrides e !! c_EquipmentID c = Some o ∧ c_IssuedAt c < ov_ExpiresAt o)
    ∧ (let rt := account (runtime_of (c_EquipmentID c) e) (c_IssuedAt c) in
       (rt_on rt = true → 0 < MaximumOn (p_Limits p) →
        Sub (c_IssuedAt c) (rt_onSince rt) < MaximumOn (p_Limits p))
       ∧ (0 < MaximumDailyOn (p_Limits p) → rt_dailyOn rt < MaximumDailyOn (p_Limits p))
       ∧ (rt_offSince rt ≠ 0 → 0 < MinimumOff (p_Limits p) →
          MinimumOff (p_Limits p) ≤ Sub (c_IssuedAt c) (rt_offSince rt)))
    ∧ (p_Hazardous p = true → Forall (input_held (sp_state policy) (sp_clock policy)) (p_RequiredInputs p))
    ∧ (∀ rev, c_ExpectedRevision c = Some rev → m_revision (sv_revisions s).1 = rev).

Lemma submission_permitted ctx command (s : Service) c :
  c ∈ dispatched (Submit ctx command s).2 → c ∉ dispatched s → c_On c = true → power_permitted s c.
Proof.
  intros Hin Hnot Hon. unfold power_permitted. cbn zeta.
  pose proof (dispatch_cases now newCommandID newCorrelationID factory ctx command s) as Hd.
  destruct (Submit ctx command s) as [[r err] s']. simpl in Hin.
  destruct Hd as [Hd|(c' & k & Hd & _ & Hv & _ & Hk & Hau & _)]; [by rewrite Hd in Hin|].
  rewrite Hd in Hin. apply elem_of_app in Hin as [Hin| ->%list_elem_of_singleton]; [done|].
  destruct Hau as [Hexp Hrev (d & p' & Hp & Ha)]. simpl in Hp.
  destruct (Evaluate ctx _ _ _ _) as [e' d'] eqn:He. simplify_eq/=.
  destruct (Evaluate_allowed_profile ctx (sp_clock (sv_policy s)) (sp_state (sv_policy s), sp_clock (sv_policy s))
    (mkIntent (c_EquipmentID c') (c_On c') (c_IssuedAt c')) (sp_engine (sv_policy s)) d) as (p & Hprof & Hsafe);
    [by rewrite He|done|by apply valid_issued|]. simpl in *.
  destruct (Hsafe Hon) as [[Hmode Hmax Hdaily Hoff Hinputs] Hperm].
  exists p, k. split_and!; try done.
  - intros Hm. specialize (Hperm Hm). unfold active_override in Hperm.
    destruct (e_overrides (sp_engine (sv_policy s)) !! c_EquipmentID c') as [o|]; [|done].
    destruct (Before _ _) eqn:Hb; [|done]. exists o. split; [done|]. by go_bool.
  - intros Hz. eapply Forall_impl; [by apply Hinputs|]. intros q. apply input_satisfied_held.
  - intros rev Hr. destruct (Hrev rev Hr) as (snap & Hs & <-). unfold StateManager_Snapshot in Hs.
    destruct (ctx_Err ctx); simplify_eq/=. done.
Qed.

(** C1: a command that asks for power and that a submission newly hands to the
    executor, with the safety engine as policy and the state manager as its
    reader, is for a known equipment profile and had not expired when its
    expiry was checked; the engine is not in emergency stop, and in
    maintenance or manual mode holds an override that is unexpired at the time
    the command was issued; at that time the equipment is within its maximum
    on time, its maximum daily on time and past its minimum off time; every
    required input of hazardous equipment is held by the state manager, good,
    unexpired and with the required reading; and an expected revision is the
    revision of the state. *)
Theorem dispatched_on_command_is_safe ctx command (s : Service) c :
  c ∈ dispatched (Submit ctx command s).2 → c ∉ dispatched s → c_On c = true →
  let policy := sv_policy s in
  let e := sp_engine policy in
  ∃ p k, e_profiles e !! c_EquipmentID c = Some p
    ∧ (sv_tick s ≤ k)%nat ∧ now k < c_ExpiresAt c
    ∧ e_mode e ≠ ModeEmergencyStop
    ∧ (e_mode e = ModeMaintenance ∨ e_mode e = ModeManual →
       ∃ o, e_overrides e !! c_EquipmentID c = Some o ∧ c_IssuedAt c < ov_ExpiresAt o)
    ∧ (let rt := account (runtime_of (c_EquipmentID c) e) (c_IssuedAt c) in
       (rt_on rt = true → 0 < MaximumOn (p_Limits p) →
        Sub (c_IssuedAt c) (rt_onSince rt) < MaximumOn (p_Limits p))
       ∧ (0 < MaximumDailyOn (p_Limits p) → rt_dailyOn rt < MaximumDailyOn (p_Limits p))
       ∧ (rt_offSince rt ≠ 0 → 0 < MinimumOff (p_Limits p) →
          MinimumOff (p_Limits p) ≤ Sub (c_IssuedAt c) (rt_offSince rt)))
    ∧ (p_Hazardous p = true → Forall (input_held (sp_state policy) (sp_clock policy)) (p_RequiredInputs p))
    ∧ (∀ rev, c_ExpectedRevision c = Some rev → m_revision (sv_revisions s).1 = rev).
Proof. apply submission_permitted. Qed.

(** ** Watchdog shutdowns reach the executor *)
Section watchdogs.
Context (ctx : Context) (Hctx : ctx_Err ctx = None).
Context (marshals : ∀ r : Result, result_dates r → ∃ text, json_Marshal r = inr text).
Context (acknowledges : ∀ c (x : X), json_date (ack_AcknowledgedAt (Dispatch ctx c x).1.1)).
Context (factory_clock : ∀ k, fe_now (factory k) ≠ 0).
Context (accepts : ∀ event w, Event_Validate event = None → (Publish ctx event w).1 = None).
Context (cid corr : nat → string).
Context (Hcid : ∀ k, newCommandID k = (cid k, None) ∧ validateUUID (cid k) = None).
Context (Hcorr : ∀ k, newCorrelationID k = (corr k, None) ∧ validateUUID (corr k) = None).
Context (ttl : Duration) (Httl : 0 < ttl) (t : Time) (Ht : 0 < t) (Hend : json_date (t + ttl)).

(** The next [n] readings of the clock come before the commands expire. *)
Definition in_time (n : nat) (s : Service) : Prop :=
  ∀ k, (sv_tick s ≤ k < sv_tick s + n)%nat → 0 ≤ now k < t + ttl.

(** The command IDs drawn in the next [n] readings are distinct, and their
    idempotency keys are new to the service. *)
Definition fresh_ids (n : nat) (s : Service) : Prop :=
  (∀ k, (sv_tick s ≤ k < sv_tick s + n)%nat → sv_idempotency s !! ("watchdog/" +:+ cid k) = None)
  ∧ ∀ j k, (sv_tick s ≤ j < sv_tick s + n)%nat → (sv_tick s ≤ k < sv_tick s + n)%nat → cid j = cid k → j = k.

(** A shutdown of known equipment, observed at [t]. *)
Definition shutdown (e : Engine) (a : WatchdogAction) : Prop :=
  wa_On a = false ∧ wa_ObservedAt a = t ∧ is_Some (e_profiles e !! wa_EquipmentID a).

Lemma watchdog_command_valid id c a :
  validateUUID id = None → validateUUID c = None → validateUUID (wa_EquipmentID a) = None →
  wa_ObservedAt a = t → validateCommand (watchdog_command ttl id c a) = None.
Proof.
  intros Hid Hc He Hat. unfold validateCommand. simpl. rewrite Hid, Hc, He, Hat.
  assert (String.length id = 36%nat) as Hl.
  { rewrite <- length_bytes_of. unfold validateUUID in Hid. case_bool_decide; [done|]. simpl in Hid. done. }
  change ("" +:+ id) with id. rewrite Hl. simpl.
  assert (IsZero t = false) as -> by (unfold IsZero; lia).
  unfold IsZero, Add, After. destruct (Z.eqb_spec (t + ttl) 0); [lia|].
  destruct (Z.ltb_spec t (t + ttl)); [done|lia].
Qed.

Lemma known_equipment_valid e id :
  engine_ok e → is_Some (e_profiles e !! id) → validateUUID id = None.
Proof.
  intros He [p Hp]. pose proof (eo_valid e He id p Hp) as Hv. rewrite <- (eo_profiles e He id p Hp).
  unfold Profile_Validate in Hv. by destruct (validateUUID (p_EquipmentID p)).
Qed.

Lemma Evaluate_profiles clock (reader : StateManager * Time) intent e :
  e_profiles (Evaluate ctx clock reader intent e).1 = e_profiles e.
Proof. unfold Evaluate. by repeat (go_case; simplify_eq/=). Qed.

Lemma submit_shutdown (s : Service) a :
  engine_ok (sp_engine (sv_policy s)) → shutdown (sp_engine (sv_policy s)) a →
  let id := cid (sv_tick s) in
  let c := watchdog_command ttl id (corr (S (sv_tick s))) a in
  sv_idempotency s !! ("watchdog/" +:+ id) = None → in_time 10 s →
  let '(r, err, s') := Submit ctx c (tick (tick s)) in
  err = None ∧ dispatched s' = dispatched s ++ [c]
  ∧ sv_idempotency s' = <["watchdog/" +:+ id := id]> (sv_idempotency s)
  ∧ (sv_tick s < sv_tick s' ≤ 10 + sv_tick s)%nat ∧ engine_ok (sp_engine (sv_policy s'))
  ∧ e_profiles (sp_engine (sv_policy s')) = e_profiles (sp_engine (sv_policy s)).
Proof.
  intros He (Hoff & Hat & Hp) id c Hkey Hclock.
  assert (∀ c (x : Recording X), json_date (ack_AcknowledgedAt (Dispatch ctx c x).1.1)) as Hack.
  { intros c0 x. cbn. pose proof (acknowledges c0 (rec_inner x)) as Ha. by destruct (Dispatch ctx c0 (rec_inner x)). }
  assert (validateCommand c = None) as Hv.
  { apply watchdog_command_valid; [apply Hcid|apply Hcorr|by eapply known_equipment_valid|done]. }
  destruct (policy_Evaluate ctx (mkIntent (c_EquipmentID c) (c_On c) (c_IssuedAt c)) (sv_policy s)) as [d p] eqn:Hpol.
  assert (d = (allow, None) ∧ engine_ok (sp_engine p)
    ∧ e_profiles (sp_engine p) = e_profiles (sp_engine (sv_policy s))) as (-> & Hok & Hprof).
  { simpl in Hpol. destruct Hp as [pr Hpr].
    pose proof (Evaluate_decision ctx (sp_clock (sv_policy s)) (sp_state (sv_policy s), sp_clock (sv_policy s))
      (mkIntent (wa_EquipmentID a) (wa_On a) (wa_ObservedAt a)) (sp_engine (sv_policy s)) pr Hctx Hpr) as Hd.
    pose proof (Evaluate_ok ctx (sp_clock (sv_policy s)) (sp_state (sv_policy s), sp_clock (sv_policy s))
      (mkIntent (wa_EquipmentID a) (wa_On a) (wa_ObservedAt a)) _ He) as Hok.
    pose proof (Evaluate_profiles (sp_clock (sv_policy s)) (sp_state (sv_policy s), sp_clock (sv_policy s))
      (mkIntent (wa_EquipmentID a) (wa_On a) (wa_ObservedAt a)) (sp_engine (sv_policy s))) as Hpf.
    destruct (Evaluate _ _ _ _ _) as [e' r]. simpl in Hd, Hok, Hpf. rewrite Hoff in Hd. by simplify_eq/=. }
  pose proof (Submit_reaches_executor now newCommandID newCorrelationID factory ctx marshals Hack factory_clock accepts
    c (tick (tick s)) allow p Hctx Hv eq_refl Hkey) as Hs.
  destruct (Submit ctx c (tick (tick s))) as [[r err] s'].
  destruct Hs as (-> & Hx & Hpol' & Hi & Htk); [simpl; rewrite Hat; specialize (Hclock (S (S (sv_tick s))) ltac:(lia)); unfold Add; lia| | |done|done|].
  { unfold command_dates, json_date in *. simpl. unfold Add. rewrite Hat. lia. }
  { intros k Hk. unfold json_date in *. simpl in Hk. specialize (Hclock k ltac:(lia)). lia. }
  rewrite Hpol'. unfold reads in Htk. simpl in Htk. split_and!; try done; try lia.
  unfold dispatched. rewrite Hx. apply Dispatch_recording.
Qed.

Lemma run_shutdowns actions results (s : Service) :
  engine_ok (sp_engine (sv_policy s)) → Forall (shutdown (sp_engine (sv_policy s))) actions →
  fresh_ids (10 * length actions) s → in_time (10 * length actions) s →
  let '(rs, err, s') := run_actions now newCommandID newCorrelationID factory ctx ttl actions results s in
  err = None ∧ ∃ cmds, dispatched s' = dispatched s ++ cmds
    ∧ Forall2 (fun a c => c_EquipmentID c = wa_EquipmentID a ∧ c_On c = false) actions cmds.
Proof.
  revert results s. induction actions as [|a actions IH]; intros results s He Ha Hkeys Hclock; cbn [run_actions].
  { split; [done|]. exists []. rewrite app_nil_r. by split; [|constructor]. }
  apply Forall_cons in Ha as [Ha Hrest]. unfold read_commandID, read_correlationID.
  rewrite (proj1 (Hcid _)). simpl. rewrite (proj1 (Hcorr _)). cbn iota beta.
  destruct Hkeys as [Hkeys Hinj]. cbn [length] in *.
  pose proof (submit_shutdown s a He Ha (Hkeys (sv_tick s) ltac:(lia)) ltac:(intros k Hk; apply Hclock; lia)) as Hs.
  destruct (Submit _ _ _) as [[r err] s1]. destruct Hs as (-> & Hd & Hi & Htk & He1 & Hp1).
  specialize (IH (results ++ [r]) s1 He1).
  destruct (run_actions _ _ _ _ _ _ _ _ _) as [[rs err'] s2].
  destruct IH as (-> & cmds & Hd2 & Hall).
  - eapply Forall_impl; [done|]. intros b (? & ? & ?). by rewrite <- Hp1 in *.
  - split; [|intros j k ? ?; apply Hinj; lia].
    intros k Hk. rewrite Hi, lookup_insert_ne; [apply Hkeys; lia|].
    intros Heq. apply (inj (String.app _)) in Heq. apply Hinj in Heq; lia.
  - intros k Hk. apply Hclock. lia.
  - split; [done|]. eexists. rewrite Hd2, Hd, <- app_assoc. split; [done|].
    constructor; [|done]. destruct Ha as (Hoff & _). by split.
Qed.

(** C6: one watchdog poll of the command service, undisturbed by other calls,
    succeeds, appends only off commands to what was dispatched, and dispatches
    one for every equipment that is on, has not tripped before and exceeds a
    limit or holds an expired override. This assumes that the poll's context
    is live, that fail-safe means off for every equipment, that the bus
    accepts valid events, that identifiers can be drawn and those drawn in the
    poll are distinct and give new idempotency keys, that acknowledgements are
    dated within the years JSON can write, and that the clock reads less than
    the commands' deadline, the TTL after the engine's reading, in the at most
    ten readings that each command takes. *)
Theorem watchdog_shutdowns_reach_executor (s : Service) :
  let e := sp_engine (sv_policy s) in
  engine_ok e → fair_order (sv_policy s) → sp_clock (sv_policy s) = t →
  (∀ id p, e_profiles e !! id = Some p → p_FailSafeOn p = false) →
  fresh_ids (10 * size (e_profiles e)) s → in_time (10 * size (e_profiles e)) s →
  let '(rs, err, s') := RunWatchdogs ctx ttl s in
  err = None ∧ ∃ cmds, dispatched s' = dispatched s ++ cmds ∧ Forall (fun c => c_On c = false) cmds
    ∧ ∀ id p, e_profiles e !! id = Some p →
        rt_on (runtime_of id e) = true → rt_watchdogReason (runtime_of id e) = "" →
        limit_exceeded t p (e_overrides e !! id) (account (runtime_of id e) t) →
        id ∈ c_EquipmentID <$> cmds.
Proof.
  intros e He Hord Hnow Hfs Hkeys Hclock. unfold Output.RunWatchdogs.
  destruct (Z.leb_spec ttl 0); [lia|]. simpl. rewrite Hnow.
  destruct (CheckWatchdogs_refines ctx t (order_of (sv_policy s) (e_overrides e))
    (order_of (sv_policy s) (e_profiles e)) e He Hctx) as (actions & HC & Hperm);
    [by apply order_of_range..|]. fold e. rewrite HC. cbn iota beta.
  assert (engine_ok (watchdog_engine t e)) as He'.
  { pose proof (CheckWatchdogs_ok ctx t (order_of (sv_policy s) (e_overrides e))
      (order_of (sv_policy s) (e_profiles e)) e He) as Hok. by rewrite HC in Hok. }
  assert (Forall (shutdown (watchdog_engine t e)) actions) as Hall.
  { apply Forall_forall. intros a. rewrite Hperm, elem_of_actions. intros [id Ha].
    destruct (e_profiles e !! id) as [p|] eqn:Hp; [|unfold action_for in Ha; by rewrite Hp in Ha].
    destruct (proj2 (action_for_exact t e id p Hp) a Ha) as (Hid & Hon & Hat).
    unfold shutdown. rewrite Hon, Hid. simpl. rewrite Hp. split_and!; eauto. }
  assert (length actions ≤ size (e_profiles e))%nat as Hlen.
  { rewrite Hperm. apply length_actions. }
  assert (fresh_ids (10 * length actions) s) as Hkeys'.
  { destruct Hkeys as [Hk Hj]. split; [intros k ?; apply Hk; lia|intros j k ? ?; apply Hj; lia]. }
  pose proof (run_shutdowns actions [] (set_policy (set_sp_engine (watchdog_engine t e) (sv_policy s)) s)
    He' Hall Hkeys' ltac:(intros k Hk; apply Hclock; simpl in Hk; lia)) as Hrun.
  destruct (run_actions _ _ _ _ _ _ _ _ _) as [[rs err] s']. destruct Hrun as (-> & cmds & Hd & Hcmds).
  split; [done|]. exists cmds. split; [done|]. split.
  - apply Forall_forall. intros c [k Hk]%list_elem_of_lookup.
    destruct (Forall2_lookup_r _ _ _ _ _ Hcmds Hk) as (a & _ & _ & Hoff). done.
  - intros id p Hp Hon Hreason Hlim.
    assert (is_Some (action_for t e id)) as [a Ha].
    { apply (proj1 (action_for_exact t e id p Hp)). by apply trip_iff. }
    assert (a ∈ actions) as [k Hk]%list_elem_of_lookup by (rewrite Hperm; apply elem_of_actions; eauto).
    destruct (Forall2_lookup_l _ _ _ _ _ Hcmds Hk) as (c & Hc & Heq & _).
    apply list_elem_of_fmap. exists c. rewrite Heq, (action_for_id _ _ _ _ Ha).
    split; [done|]. by apply list_elem_of_lookup_2 in Hc.
Qed.
End watchdogs.

(** ** How a watchdog action is lost *)

Lemma account_tripped id j at_ e : tripped id e → tripped id (accountLocked j at_ e).2.
Proof.
  unfold tripped, runtime_of. simpl. rewrite lookup_insert. case_decide as Hj; [|done]. subst. simpl.
  by rewrite account_reason.
Qed.

Lemma Evaluate_tripped ctx clock (reader : StateManager * Time) intent e id :
  tripped id e → tripped id (Evaluate ctx clock reader intent e).1.
Proof.
  intros Ht. unfold Evaluate. destruct (ctx_Err ctx); [done|].
  destruct (e_profiles e !! _) as [p|]; [|done].
  pose proof (account_tripped id (in_EquipmentID intent)
    (if IsZero (in_IssuedAt intent) then UTC clock else in_IssuedAt intent) e Ht) as Ha.
  destruct (accountLocked _ _ _) as [rt e1]. simpl in Ha.
  by repeat (go_case; simplify_eq/=).
Qed.

Lemma rejected_actions ctx ttl actions results (s : Service) (I : SafetyPolicy → Prop) :
  (∀ event w, is_Some (Publish ctx event w).1) →
  (∀ intent p, I p → I (policy_Evaluate ctx intent p).2) →
  is_Some (sv_publisher s) → I (sv_policy s) →
  let s' := (run_actions now newCommandID newCorrelationID factory ctx ttl actions results s).2 in
  sv_executor s' = sv_executor s ∧ I (sv_policy s').
Proof.
  intros Hrej HI. revert results s.
  induction actions as [|a actions IH]; intros results s Hw Hs; cbn [run_actions]; [done|].
  unfold read_commandID, read_correlationID.
  destruct (newCommandID (sv_tick s)) as [id [e|]]; [done|]. cbn iota beta.
  destruct (newCorrelationID (sv_tick (tick s))) as [corr [e|]]; [done|]. cbn iota beta.
  set (c := watchdog_command ttl id corr a).
  pose proof (Submit_rejected now newCommandID newCorrelationID factory ctx Hrej c (tick (tick s)) Hw) as [Hx Hw'].
  pose proof (Submit_policy now newCommandID newCorrelationID factory I ctx c (tick (tick s)) HI Hs) as Hp.
  destruct (Submit ctx c (tick (tick s))) as [[r [err|]] s1]; simpl in *; [done|].
  destruct (IH (results ++ [r]) s1 Hw' Hp) as [Hx2 Hp2]. by rewrite Hx2, Hx.
Qed.

(** When every publication fails, a watchdog poll dispatches nothing, and no
    later poll of the engine it leaves returns an action for an equipment the
    poll had one for: the shutdown is lost, not delayed. *)
Theorem rejected_publication_loses_watchdog_action ctx ttl (s : Service) a :
  let e := sp_engine (sv_policy s) in
  engine_ok e → fair_order (sv_policy s) → 0 < ttl → is_Some (sv_publisher s) →
  (∀ event w, is_Some (Publish ctx event w).1) →
  a ∈ (policy_CheckWatchdogs ctx (sv_policy s)).1.1 →
  let s' := (RunWatchdogs ctx ttl s).2 in
  let e' := sp_engine (sv_policy s') in
  dispatched s' = dispatched s
  ∧ ∀ ctx' later os ps a',
      range_order (e_overrides e') os → range_order (e_profiles e') ps →
      a' ∈ (CheckWatchdogs ctx' later os ps e').2.1 → wa_EquipmentID a' ≠ wa_EquipmentID a.
Proof.
  intros e He Hord Httl Hw Hrej Hin s' e'.
  pose proof (order_of_range (sv_policy s) (e_overrides e) Hord) as Ho.
  pose proof (order_of_range (sv_policy s) (e_profiles e) Hord) as Hp.
  simpl in Hin. fold e in Hin. destruct (ctx_Err ctx) as [err|] eqn:Hctx.
  { unfold CheckWatchdogs in Hin. rewrite Hctx in Hin. by apply not_elem_of_nil in Hin. }
  destruct (CheckWatchdogs_refines ctx (sp_clock (sv_policy s)) _ _ e He Hctx Ho Hp) as (acts & HC & Hperm).
  rewrite HC in Hin. simpl in Hin. rewrite Hperm, elem_of_actions in Hin. destruct Hin as [id Hid].
  rewrite (action_for_id _ _ _ _ Hid).
  set (I := fun p => tripped id (sp_engine p) ∧ engine_ok (sp_engine p)).
  assert (sv_executor s' = sv_executor s ∧ I (sv_policy s')) as [Hx [Ht Hok]].
  { unfold s', Output.RunWatchdogs. destruct (Z.leb_spec ttl 0); [lia|]. simpl. fold e. rewrite HC. cbn iota beta.
    apply (rejected_actions ctx ttl acts [] (set_policy (set_sp_engine (watchdog_engine (sp_clock (sv_policy s)) e)
      (sv_policy s)) s) I Hrej); [|done|].
    - intros intent p [H1 H2]. unfold I. simpl.
      pose proof (Evaluate_tripped ctx (sp_clock p) (sp_state p, sp_clock p) intent (sp_engine p) id H1) as E1.
      pose proof (Evaluate_ok ctx (sp_clock p) (sp_state p, sp_clock p) intent (sp_engine p) H2) as E2.
      by destruct (Evaluate _ _ _ _ _).
    - split; [by eapply polled_tripped|].
      pose proof (CheckWatchdogs_ok ctx (sp_clock (sv_policy s)) (order_of (sv_policy s) (e_overrides e))
        (order_of (sv_policy s) (e_profiles e)) e He) as Hok. by rewrite HC in Hok. }
  split; [unfold dispatched; by rewrite Hx|].
  intros ctx' later os ps a' Hos Hps Ha' Heq. apply CheckWatchdogs_member in Ha'; [|done..].
  rewrite Heq, tripped_silent in Ha' by done. done.
Qed.
End assembled.
