(* ===== verification/Concurrency.v ===== *)
(** * Concurrent calls of the command service: [internal/output/service.go]

    [Submit], [Reconcile] and [ExpireAcknowledged] hold the service's lock only
    while they read or write its two maps; between those sections, and while
    they call the policy, the publisher and the executor, other calls run. Nor
    does the safety engine hold its lock while it reads its inputs, one by one,
    from the canonical state. Here a call is a thread that advances from one
    such section to the next, and a system is a service with the calls in
    progress and an environment that changes everything the service does not
    own. Run alone, the phases of a call are the function of [Output]. *)

From Stdlib Require Import ZArith Lia String.
From stdpp Require Import base gmap strings list sorting.
From S2P Require Import Prelude Domain Health Events State Equipment Safety Output Commands System.

(** ** Evaluation in sections

    A policy may be interrupted: it answers at once, or holds what it found
    under its lock, to be continued later against what it reads then. *)
Class SteppedPolicy (P K : Type) `{!Policy P} := {
  policy_begin : Context → Intent → P → (K + Decision * option error) * P;
  policy_continue : Context → K → P → K + Decision * option error;
  policy_alone ctx intent p :
    let '(o, p') := policy_begin ctx intent p in
    ∃ n, Nat.iter n (fun o => match o with inl x => policy_continue ctx x p' | inr r => inr r end) o
           = inr (policy_Evaluate ctx intent p).1
         ∧ (policy_Evaluate ctx intent p).2 = p'
}.

(** [Evaluate] of the safety engine, between the release of its lock and its
    answer: the inputs still to be read, and what was read under the lock. *)
Record Pending := mkPending {
  pe_inputs : list InputRequirement; pe_mode : Mode; pe_override : option Override
}.

(** The checks before the first input. *)
Definition decide_limits (now : Time) (mode : Mode) (profile : Profile) (runtime : runtimeState)
    (override : option Override) : Pending + Decision * option error :=
  let limits := p_Limits profile in
  when bool_decide (mode = ModeEmergencyStop) yield inr (deny_hard ReasonEmergencyStop, None);;
  when rt_on runtime && (0 <? MaximumOn limits)
       && (MaximumOn limits <=? Sub now (rt_onSince runtime)) yield
    inr (deny_hard ReasonMaximumOn, None);;
  when (0 <? MaximumDailyOn limits) && (MaximumDailyOn limits <=? rt_dailyOn runtime) yield
    inr (deny_hard ReasonMaximumDailyOn, None);;
  when negb (IsZero (rt_offSince runtime)) && (0 <? MinimumOff limits)
       && (Sub now (rt_offSince runtime) <? MinimumOff limits) yield
    inr (deny_hard ReasonMinimumOff, None);;
  inl (mkPending (if p_Hazardous profile then p_RequiredInputs profile else []) mode override).

(** [Evaluate] up to there, with the section under the engine's lock. *)
Definition Evaluate_begin (ctx : Context) (clock : Time) (intent : Intent) (e : Engine) :
    Engine * (Pending + Decision * option error) :=
  iferr ctx_Err ctx as err yield (e, inr (zero_Decision, Some err));;
  let now := if IsZero (in_IssuedAt intent) then UTC clock else in_IssuedAt intent in
  let id := in_EquipmentID intent in
  match e_profiles e !! id with
  | None => (e, inr (deny ReasonUnknownEquipment, None))
  | Some profile =>
      let '(runtime, e) := accountLocked id now e in
      let mode := e_mode e in
      let '(override, e) :=
        match e_overrides e !! id with
        | Some o => if negb (Before now (ov_ExpiresAt o)) then (None, delete_override id e)
                    else (Some o, e)
        | None => (None, e)
        end in
      when negb (in_On intent) yield (e, inr (allow, None));;
      (e, decide_limits now mode profile runtime override)
  end.

(** The rest, one input at a time. *)
Definition Evaluate_continue {R} `{!StateReader R} (ctx : Context) (reader : R) (pe : Pending) :
    Pending + Decision * option error :=
  match pe_inputs pe with
  | requirement :: rest =>
      let '(value, err) := reader_Get ctx (ir_Key requirement) reader in
      match err with
      | Some err =>
          if errors_Is err "state.ErrNotFound" then inr (deny_hard ReasonInputMissing, None)
          else inr (zero_Decision, Some err)
      | None =>
          match sv_Quality value with
          | QualityStale => inr (deny_hard ReasonInputStale, None)
          | QualityGood =>
              when match ir_RequireBoolean requirement with
                   | Some required => negb (bool_decide (v_Boolean (sv_Value value) = Some required))
                   | None => false
                   end yield inr (deny_hard ReasonInputMismatch, None);;
              inl (mkPending rest (pe_mode pe) (pe_override pe))
          | _ => inr (deny_hard ReasonInputInvalid, None)
          end
      end
  | [] =>
      when (bool_decide (pe_mode pe = ModeMaintenance) || bool_decide (pe_mode pe = ModeManual))
           && bool_decide (pe_override pe = None) yield inr (deny ReasonOverrideRequired, None);;
      inr (mkDecision true ReasonAllowed false (match pe_override pe with Some o => ov_ID o | None => "" end), None)
  end.

Section evaluation.
Context {R : Type} `{!StateReader R}.
Abbreviation resume ctx reader := (fun o : Pending + Decision * option error =>
  match o with inl x => Evaluate_continue ctx reader x | inr r => inr r end).

(** Against one state, the sections decide as [decide_on] does. *)
Lemma inputs_alone ctx (reader : R) inputs mode override :
  ∃ n, Nat.iter n (resume ctx reader) (inl (mkPending inputs mode override)) =
    inr (let '(decision, err) := validateInputs ctx reader inputs in
         when match err with Some _ => true | None => negb (d_Allowed decision) end yield (decision, err);;
         when (bool_decide (mode = ModeMaintenance) || bool_decide (mode = ModeManual))
              && bool_decide (override = None) yield (deny ReasonOverrideRequired, None);;
         (mkDecision true ReasonAllowed false (match override with Some o => ov_ID o | None => "" end), None)).
Proof.
  induction inputs as [|r inputs [n IH]].
  { exists 1%nat. cbn. by destruct (_ && _). }
  cbn [validateInputs]. destruct (reader_Get ctx (ir_Key r) reader) as [value err] eqn:Hr.
  assert (∀ d, Evaluate_continue ctx reader (mkPending (r :: inputs) mode override) = inr d →
    Nat.iter 1 (resume ctx reader) (inl (mkPending (r :: inputs) mode override)) = inr d) as Hone by done.
  unfold Evaluate_continue in Hone. cbn [pe_inputs] in Hone. rewrite Hr in Hone.
  destruct err as [err|]; [exists 1%nat; apply Hone; by destruct (errors_Is err _)|].
  destruct (sv_Quality value) eqn:Hq; try (exists 1%nat; by apply Hone).
  destruct (match ir_RequireBoolean r with Some _ => _ | None => _ end) eqn:Hb; [exists 1%nat; by apply Hone|].
  exists (S n). rewrite Nat.iter_succ_r. unfold Evaluate_continue at 2. cbn [pe_inputs]. by rewrite Hr, Hq, Hb.
Qed.

Lemma Evaluate_alone ctx clock (reader : R) intent e :
  let '(e', o) := Evaluate_begin ctx clock intent e in
  ∃ n, Nat.iter n (resume ctx reader) o = inr (Evaluate ctx clock reader intent e).2
    ∧ (Evaluate ctx clock reader intent e).1 = e'.
Proof.
  unfold Evaluate_begin, Evaluate. destruct (ctx_Err ctx); [by exists 0%nat|].
  destruct (e_profiles e !! in_EquipmentID intent) as [profile|]; [|by exists 0%nat].
  destruct (accountLocked _ _ _) as [runtime e1]. destruct (match e_overrides e1 !! _ with Some _ => _ | None => _ end) as [o e2].
  destruct (negb (in_On intent)); [by exists 0%nat|]. unfold decide_limits, decide_on.
  destruct (bool_decide (_ = ModeEmergencyStop)); [by exists 0%nat|]. do 3 (destruct (_ && _); [by exists 0%nat|]).
  destruct (p_Hazardous profile).
  - destruct (inputs_alone ctx reader (p_RequiredInputs profile) (e_mode e1) o) as [n Hn]. by exists n.
  - destruct (inputs_alone ctx reader [] (e_mode e1) o) as [n Hn]. by exists n.
Qed.
End evaluation.

#[export] Instance SafetyPolicy_Stepped : SteppedPolicy SafetyPolicy Pending.
Proof.
  refine {|
    policy_begin := fun ctx intent p =>
      let '(e, o) := Evaluate_begin ctx (sp_clock p) intent (sp_engine p) in (o, set_sp_engine e p);
    policy_continue := fun ctx pe p => Evaluate_continue ctx (sp_state p, sp_clock p) pe
  |}.
  intros ctx intent p. pose proof (Evaluate_alone ctx (sp_clock p) (sp_state p, sp_clock p) intent (sp_engine p)) as Ha.
  destruct (Evaluate_begin _ _ _ _) as [e' o]. cbn. destruct Ha as (n & Hn & He). exists n.
  destruct (Evaluate ctx _ _ _ _) as [e'' r]. cbn in *. by subst.
Defined.

(** ** Calls *)

(** Where a call stands. [Moving] and [Telling] carry the command that is to be
    dispatched afterwards, if one is. *)
Inductive Phase {K : Type} :=
| Submitting (command : Command)
| Arrived (c : Command)
| Comparing (c : Command) (expected : Revision)
| Evaluating (c : Command)
| Deciding (c : Command) (x : K)
| Recording_ (c : Command) (status : CommandStatus) (reason : string) (eventType : EventType)
| Announcing (c : Command) (result : Result) (eventType : EventType)
| Moving (next : option Command) (id : CommandID) (status : CommandStatus) (reason : string)
    (eventType : EventType) (at_ : option Time)
| Telling (next : option Command) (result : Result) (eventType : EventType)
| Dispatching (c : Command)
| Reconciling (id : CommandID) (reportedOn : bool) (observedAt : Time)
| Noting (id : CommandID) (result : Result) (reportedOn : bool) (observedAt : Time)
| Expiring (id : CommandID) (reason : string) (observedAt : Time)
| Returned (result : Result * option error).
Arguments Phase : clear implicits.

Section phases.
Context {P K V X W : Type} `{!Policy P, !SteppedPolicy P K, !RevisionReader V, !Executor X, !Publisher W}.
Context `{!JSON, !Marshaler Result}.
Context (now : nat → Time).
Context (newCommandID : nat → CommandID * option error).
Context (newCorrelationID : nat → CorrelationID * option error).
Context (factory : nat → FactoryEnv).

Abbreviation Service := (@Service P V X W).
Abbreviation Phase := (Phase K).

(** The first half of [record]: what is written under the lock. *)
Definition record_locked (c : Command) (status : CommandStatus) (reason : string) (s : Service) :
    Result * Service :=
  let '(updatedAt, s) := read_now now s in
  let result := mkResult (cloneCommand c) status reason updatedAt None None in
  let s := set_results (<[c_ID c := result]> (sv_results s)) s in
  (result, set_idempotency (<[c_IdempotencyKey c := c_ID c]> (sv_idempotency s)) s).

(** The first half of [transition]. *)
Definition transition_locked (id : CommandID) (status : CommandStatus) (reason : string) (at_ : option Time)
    (s : Service) : option Result * Service :=
  match sv_results s !! id with
  | None => (None, s)
  | Some result =>
      let '(updatedAt, s) := read_now now s in
      let result := mkResult (r_Command result) status reason updatedAt
        (if bool_decide (status = StatusAcknowledged) then cloneTime at_ else r_AcknowledgedAt result)
        (if bool_decide (status = StatusSucceeded) then cloneTime at_ else r_ReconciledAt result) in
      (Some result, set_results (<[id := result]> (sv_results s)) s)
  end.

(** The call to the executor and what follows from its answer. *)
Definition dispatch_now (ctx : Context) (c : Command) (s : Service) : Phase * Service :=
  let '(acknowledgement, dispatchErr, x) := Dispatch ctx c (sv_executor s) in
  let s := set_executor x s in
  match dispatchErr with
  | Some _ => (Moving None (c_ID c) StatusFailed ReasonDispatchFailed CommandRejected None, s)
  | None =>
      when negb (ack_Accepted acknowledgement) yield
        (Moving None (c_ID c) StatusFailed ReasonAdapterRejected CommandRejected None, s);;
      let '(acknowledgedAt, s) :=
        if IsZero (ack_AcknowledgedAt acknowledgement) then read_now now s
        else (ack_AcknowledgedAt acknowledgement, s) in
      (Moving None (c_ID c) StatusAcknowledged ReasonAcknowledged CommandAcknowledged (Some acknowledgedAt), s)
  end.

(** What an answer of the policy leads to, if it is there. *)
Definition intent_of (c : Command) : Intent := mkIntent (c_EquipmentID c) (c_On c) (c_IssuedAt c).
Definition weigh (c : Command) (o : K + Decision * option error) : Phase :=
  match o with
  | inl x => Deciding c x
  | inr (_, Some err) => Returned (zero_Result, Some err)
  | inr (decision, None) =>
      when negb (d_Allowed decision) yield Recording_ c StatusRejected (d_Reason decision) CommandRejected;;
      Recording_ c StatusValidated ReasonValidated CommandValidated
  end.

Definition phase_step (ctx : Context) (ph : Phase) (s : Service) : Phase * Service :=
  match ph with
  | Submitting command =>
      match Submit_check newCommandID newCorrelationID ctx command s with
      | (inl c, s) => (Arrived c, s)
      | (inr r, s) => (Returned r, s)
      end
  | Arrived c =>
      let '(time, s) := read_now now s in
      when negb (Before time (c_ExpiresAt c)) yield
        (Recording_ c StatusExpired ReasonExpired CommandExpired, s);;
      (match c_ExpectedRevision c with Some expected => Comparing c expected | None => Evaluating c end, s)
  | Comparing c expected =>
      let '(snapshot, err) := revisions_Snapshot ctx (sv_revisions s) in
      iferr err as err yield (Returned (zero_Result, Some err), s);;
      when negb (snap_Revision snapshot =? expected) yield
        (Recording_ c StatusRejected ReasonRevisionConflict CommandRejected, s);;
      (Evaluating c, s)
  | Evaluating c =>
      let '(o, p) := policy_begin ctx (intent_of c) (sv_policy s) in (weigh c o, set_policy p s)
  | Deciding c x => (weigh c (policy_continue ctx x (sv_policy s)), s)
  | Recording_ c status reason eventType =>
      let '(result, s) := record_locked c status reason s in (Announcing c result eventType, s)
  | Announcing c result eventType =>
      let '(err, s) := command_emit factory ctx eventType result s in
      match err with
      | None =>
          when bool_decide (r_Status result = StatusValidated) yield
            (Moving (Some c) (c_ID c) StatusDispatched ReasonDispatched CommandDispatched None, s);;
          (Returned (cloneResult result, None), s)
      | Some err => (Returned (cloneResult result, Some err), s)
      end
  | Moving next id status reason eventType at_ =>
      match transition_locked id status reason at_ s with
      | (None, s) => (Returned (zero_Result, Some ErrCommandNotFound), s)
      | (Some result, s) => (Telling next result eventType, s)
      end
  | Telling next result eventType =>
      let '(err, s) := command_emit factory ctx eventType result s in
      (match err, next with None, Some c => Dispatching c | _, _ => Returned (cloneResult result, err) end, s)
  | Dispatching c => dispatch_now ctx c s
  | Reconciling id reportedOn observedAt =>
      iferr ctx_Err ctx as err yield (Returned (zero_Result, Some err), s);;
      when IsZero observedAt yield
        (Returned (zero_Result, Some (ErrNew "reconciliation timestamp is required")), s);;
      match sv_results s !! id with
      | None => (Returned (zero_Result, Some ErrCommandNotFound), s)
      | Some result =>
          when negb (bool_decide (r_Status result = StatusAcknowledged)) yield
            (Returned (zero_Result, Some ErrInvalidTransition), s);;
          (Noting id result reportedOn observedAt, s)
      end
  | Noting id result reportedOn observedAt =>
      let '(err, p) := policy_RecordReported ctx (c_EquipmentID (r_Command result)) reportedOn
        observedAt (sv_policy s) in
      let s := set_policy p s in
      iferr err as err yield (Returned (zero_Result, Some err), s);;
      when negb (Bool.eqb reportedOn (c_On (r_Command result))) yield
        (Moving None id StatusFailed ReasonReportedMismatch CommandReconciled None, s);;
      (Moving None id StatusSucceeded ReasonReconciled CommandReconciled (Some observedAt), s)
  | Expiring id reason observedAt =>
      iferr ctx_Err ctx as err yield (Returned (zero_Result, Some err), s);;
      when bool_decide (reason = "") || IsZero observedAt yield
        (Returned (zero_Result, Some (ErrNew "reconciliation expiry reason and timestamp are required")), s);;
      match sv_results s !! id with
      | None => (Returned (zero_Result, Some ErrCommandNotFound), s)
      | Some result =>
          when negb (bool_decide (r_Status result = StatusAcknowledged)) yield
            (Returned (zero_Result, Some ErrInvalidTransition), s);;
          when Before observedAt (c_ExpiresAt (r_Command result)) yield
            (Returned (zero_Result, Some (ErrNew "cannot expire command before its deadline")), s);;
          (Moving None id StatusExpired reason CommandExpired None, s)
      end
  | Returned r => (Returned r, s)
  end.

(** ** A call alone *)
Fixpoint run_alone (n : nat) (ctx : Context) (ph : Phase) (s : Service) : Phase * Service :=
  match n with
  | O => (ph, s)
  | S n => let '(ph, s) := phase_step ctx ph s in run_alone n ctx ph s
  end.

(** [ph] run alone from [s] returns what [x] holds and leaves the service of [x]. *)
Definition alone (ctx : Context) (ph : Phase) (s : Service) (x : (Result * option error) * Service) : Prop :=
  ∃ m, ∀ n, (m ≤ n)%nat → run_alone n ctx ph s = (Returned x.1, x.2).

Lemma alone_returned ctx r s : alone ctx (Returned r) s (r, s).
Proof. exists 0%nat. intros n _. induction n as [|n IH]; [done|]. apply IH. Qed.

Lemma alone_step ctx ph s ph' s' x : phase_step ctx ph s = (ph', s') → alone ctx ph' s' x → alone ctx ph s x.
Proof.
  intros Hs [m Ha]. exists (S m). intros [|n] Hn; [lia|]. cbn [run_alone]. rewrite Hs. apply Ha. lia.
Qed.

Lemma alone_telling ctx result ty s :
  alone ctx (Telling None result ty) s
    (let '(err, s) := command_emit factory ctx ty result s in ((cloneResult result, err), s)).
Proof.
  destruct (command_emit factory ctx ty result s) as [err s'] eqn:He.
  eapply alone_step; [cbn [phase_step]; by rewrite He|]. destruct err; apply alone_returned.
Qed.

Lemma alone_moving ctx id status reason ty at_ s :
  alone ctx (Moving None id status reason ty at_) s (transition now factory ctx id status reason ty at_ s).
Proof.
  unfold transition. destruct (sv_results s !! id) as [old|] eqn:Hold.
  - eapply alone_step; [cbn [phase_step]; unfold transition_locked; rewrite Hold; by cbn [read_now]|].
    apply alone_telling.
  - eapply alone_step; [cbn [phase_step]; unfold transition_locked; by rewrite Hold|]. apply alone_returned.
Qed.

Lemma alone_dispatching ctx c s : alone ctx (Dispatching c) s (Submit_dispatch now factory ctx c s).
Proof.
  unfold Submit_dispatch. destruct (Dispatch ctx c (sv_executor s)) as [[ack [err|]] x] eqn:Hd;
    [|destruct (ack_Accepted ack) eqn:Hacc; cbn [negb];
      [destruct (if IsZero (ack_AcknowledgedAt ack) then _ else _) as [t s1] eqn:Ht|]];
    (eapply alone_step; [cbn [phase_step]; unfold dispatch_now; rewrite Hd, ?Hacc; cbn [negb]; by rewrite ?Ht|]);
    apply alone_moving.
Qed.

(** From the transition to dispatched on. *)
Lemma alone_to_dispatch ctx c s :
  alone ctx (Moving (Some c) (c_ID c) StatusDispatched ReasonDispatched CommandDispatched None) s
    (let '(result, err, s) :=
       transition now factory ctx (c_ID c) StatusDispatched ReasonDispatched CommandDispatched None s in
     iferr err as err yield ((result, Some err), s);;
     Submit_dispatch now factory ctx c s).
Proof.
  unfold transition. destruct (sv_results s !! c_ID c) as [old|] eqn:Hold.
  - eapply alone_step; [cbn [phase_step]; unfold transition_locked; rewrite Hold; by cbn [read_now]|].
    cbn [read_now]. destruct (command_emit factory ctx _ _ _) as [[err|] s'] eqn:He;
      (eapply alone_step; [cbn [phase_step]; by rewrite He|]); [apply alone_returned|apply alone_dispatching].
  - eapply alone_step; [cbn [phase_step]; unfold transition_locked; by rewrite Hold|]. apply alone_returned.
Qed.

Lemma record_split ctx c status reason ty s :
  record now factory ctx c status reason ty s =
    (let '(result, s) := record_locked c status reason s in
     let '(err, s) := command_emit factory ctx ty result s in ((cloneResult result, err), s)).
Proof. done. Qed.
Lemma record_locked_status c status reason s : r_Status (record_locked c status reason s).1 = status.
Proof. done. Qed.

Lemma alone_recording ctx c status reason ty s :
  status ≠ StatusValidated →
  alone ctx (Recording_ c status reason ty) s (record now factory ctx c status reason ty s).
Proof.
  intros Hst. rewrite record_split. pose proof (record_locked_status c status reason s) as Hrs.
  destruct (record_locked c status reason s) as [result s1] eqn:Hl. cbn [fst] in Hrs.
  eapply alone_step; [cbn [phase_step]; by rewrite Hl|].
  destruct (command_emit factory ctx ty result s1) as [[err|] s'] eqn:He;
    (eapply alone_step; [cbn [phase_step]; rewrite He, ?Hrs, ?bool_decide_eq_false_2 by done; done|]);
    apply alone_returned.
Qed.

Lemma alone_validated ctx c s :
  alone ctx (Recording_ c StatusValidated ReasonValidated CommandValidated) s
    (let '(result, err, s) := record now factory ctx c StatusValidated ReasonValidated CommandValidated s in
     iferr err as err yield ((result, Some err), s);;
     let '(result, err, s) :=
       transition now factory ctx (c_ID c) StatusDispatched ReasonDispatched CommandDispatched None s in
     iferr err as err yield ((result, Some err), s);;
     Submit_dispatch now factory ctx c s).
Proof.
  rewrite record_split. pose proof (record_locked_status c StatusValidated ReasonValidated s) as Hrs.
  destruct (record_locked c StatusValidated ReasonValidated s) as [result s1] eqn:Hl. cbn [fst] in Hrs.
  eapply alone_step; [cbn [phase_step]; by rewrite Hl|].
  destruct (command_emit factory ctx CommandValidated result s1) as [[err|] s'] eqn:He;
    (eapply alone_step; [cbn [phase_step]; rewrite He, ?Hrs, ?bool_decide_eq_true_2 by done; done|]);
    [apply alone_returned|apply alone_to_dispatch].
Qed.

(** A deliberation that concludes with [r]. *)
Lemma alone_deciding ctx c n o r s :
  Nat.iter n (fun o => match o with inl x => policy_continue ctx x (sv_policy s) | inr r => inr r end) o = inr r →
  alone ctx (weigh c o) s
    (let '(decision, err) := r in
     iferr err as err yield ((zero_Result, Some err), s);;
     when negb (d_Allowed decision) yield
       record now factory ctx c StatusRejected (d_Reason decision) CommandRejected s;;
     let '(result, err, s) := record now factory ctx c StatusValidated ReasonValidated CommandValidated s in
     iferr err as err yield ((result, Some err), s);;
     let '(result, err, s) :=
       transition now factory ctx (c_ID c) StatusDispatched ReasonDispatched CommandDispatched None s in
     iferr err as err yield ((result, Some err), s);;
     Submit_dispatch now factory ctx c s).
Proof.
  revert o. induction n as [|n IH]; intros o; [|rewrite Nat.iter_succ_r]; destruct o as [x|r'].
  - done.
  - cbn. intros [= ->]. destruct r as [d [err|]]; cbn [weigh]; [apply alone_returned|].
    destruct (d_Allowed d); cbn [negb]; [apply alone_validated|by apply alone_recording].
  - intros Hn. eapply alone_step; [done|]. by apply IH.
  - apply IH.
Qed.

Lemma alone_evaluating ctx c s : alone ctx (Evaluating c) s (Submit_authorize now factory ctx c s).
Proof.
  unfold Submit_authorize. change (mkIntent _ _ _) with (intent_of c).
  pose proof (policy_alone ctx (intent_of c) (sv_policy s)) as Ha.
  destruct (policy_begin ctx (intent_of c) (sv_policy s)) as [o p] eqn:Hb. destruct Ha as (n & Hn & Hp).
  destruct (policy_Evaluate _ _ _) as [r p'] eqn:He. cbn in Hn, Hp. subst p'.
  eapply alone_step; [cbn [phase_step]; by rewrite Hb|]. pose proof (alone_deciding ctx c n o r (set_policy p s) Hn) as Hr.
  by destruct r as [d err].
Qed.

Lemma alone_arrived ctx c s : alone ctx (Arrived c) s (Submit_proceed now factory ctx c s).
Proof.
  unfold Submit_proceed. destruct (read_now now s) as [t s1] eqn:Hn.
  destruct (Before t (c_ExpiresAt c)) eqn:Hb; cbn [negb];
    (eapply alone_step; [cbn [phase_step]; rewrite Hn, Hb; by cbn [negb]|]); [|by apply alone_recording].
  destruct (c_ExpectedRevision c) as [expected|]; [|apply alone_evaluating].
  destruct (revisions_Snapshot ctx (sv_revisions s1)) as [snap [err|]] eqn:Hv;
    [|destruct (snap_Revision snap =? expected) eqn:He; cbn [negb]];
    (eapply alone_step; [cbn [phase_step]; rewrite Hv; cbn; by rewrite ?He|]).
  - apply alone_returned.
  - apply alone_evaluating.
  - by apply alone_recording.
Qed.

(** Run alone, the phases of a call are the functions of [Output]. *)
Theorem Submit_alone ctx command s :
  alone ctx (Submitting command) s (Submit now newCommandID newCorrelationID factory ctx command s).
Proof.
  unfold Submit. destruct (Submit_check _ _ _ _ _) as [[c|r] s'] eqn:Hc;
    (eapply alone_step; [cbn [phase_step]; by rewrite Hc|]); [apply alone_arrived|apply alone_returned].
Qed.

Theorem Reconcile_alone ctx id on at_ s :
  alone ctx (Reconciling id on at_) s (Reconcile now factory ctx id on at_ s).
Proof.
  unfold Reconcile. destruct (ctx_Err ctx) as [err|] eqn:Hx;
    [|destruct (IsZero at_) eqn:Hz; [|destruct (sv_results s !! id) as [r|] eqn:Hr; [destruct (bool_decide (r_Status r = _)) eqn:Hs|]]];
    (eapply alone_step; [cbn [phase_step]; rewrite ?Hx, ?Hz, ?Hr; cbn; by rewrite ?Hs|]); try apply alone_returned.
  cbn [negb]. destruct (policy_RecordReported _ _ _ _ _) as [[err|] p] eqn:Hp; [|destruct (Bool.eqb on _) eqn:Ho];
    (eapply alone_step; [cbn [phase_step]; rewrite Hp; cbn; by rewrite ?Ho|]); [apply alone_returned|apply alone_moving..].
Qed.

Theorem ExpireAcknowledged_alone ctx id reason at_ s :
  alone ctx (Expiring id reason at_) s (ExpireAcknowledged now factory ctx id reason at_ s).
Proof.
  unfold ExpireAcknowledged. destruct (ctx_Err ctx) as [err|] eqn:Hx;
    [|destruct (bool_decide (reason = "") || IsZero at_) eqn:Hz;
      [|destruct (sv_results s !! id) as [r|] eqn:Hr;
        [destruct (bool_decide (r_Status r = _)) eqn:Hs; [destruct (Before at_ _) eqn:Hb|]|]]];
    (eapply alone_step; [cbn [phase_step]; rewrite ?Hx, ?Hz, ?Hr; cbn; rewrite ?Hs; cbn; by rewrite ?Hb|]);
    try apply alone_returned; apply alone_moving.
Qed.
End phases.

(** ** Systems *)
Section systems.
Context {P K V X W : Type} `{!Policy P, !SteppedPolicy P K, !RevisionReader V, !Executor X, !Publisher W}.
Context `{!JSON, !Marshaler Result}.
Context (now : nat → Time).
Context (newCommandID : nat → CommandID * option error).
Context (newCorrelationID : nat → CorrelationID * option error).
Context (factory : nat → FactoryEnv).

Abbreviation Service := (@Service P V (Recording X) W).
Abbreviation Phase := (Phase K).
Abbreviation phase_step := (phase_step (X := Recording X) now newCommandID newCorrelationID factory).

(** The service, the calls with their contexts, and, for reference, the service
    as each step of a call found it. *)
Record System := mkSystem {
  sy_service : Service; sy_calls : list (Context * Phase); sy_past : list Service
}.

(** The phases in which a call begins. *)
Definition is_call (ph : Phase) : bool :=
  match ph with Submitting _ | Reconciling _ _ _ | Expiring _ _ _ => true | _ => false end.

(** What others may do at any time: change revisions, publisher, the adapters
    behind the executor and the time, and the policy as far as [rely] says, but
    neither the service's maps nor what was dispatched. *)
Context (rely : P → P → Prop).
Record environment (s s' : Service) : Prop := {
  ev_policy : rely (sv_policy s) (sv_policy s');
  ev_results : sv_results s' = sv_results s;
  ev_idempotency : sv_idempotency s' = sv_idempotency s;
  ev_dispatched : dispatched s' = dispatched s
}.

(** [may_begin] says which calls may begin beside those in progress. *)
Inductive sys_step (may_begin : list Phase → Phase → Prop) (y : System) : System → Prop :=
| step_call ctx ph :
    is_call ph = true → may_begin (sy_calls y).*2 ph →
    sys_step may_begin y (mkSystem (sy_service y) (sy_calls y ++ [(ctx, ph)]) (sy_past y))
| step_phase i ctx ph ph' s' :
    sy_calls y !! i = Some (ctx, ph) → phase_step ctx ph (sy_service y) = (ph', s') →
    sys_step may_begin y (mkSystem s' (<[i := (ctx, ph')]> (sy_calls y)) (sy_past y ++ [sy_service y]))
| step_environment s' :
    environment (sy_service y) s' → sys_step may_begin y (mkSystem s' (sy_calls y) (sy_past y)).

Definition anyone (calls : list Phase) (ph : Phase) : Prop := True.

(** The key a submission in progress may still dispatch. *)
Definition key_of (ph : Phase) : option string :=
  match ph with
  | Submitting c | Arrived c | Comparing c _ | Evaluating c | Deciding c _ | Recording_ c _ _ _ | Announcing c _ _
  | Moving (Some c) _ _ _ _ _ | Telling (Some c) _ _ | Dispatching c => Some (c_IdempotencyKey c)
  | _ => None
  end.

(** One submission at a time for each key. *)
Definition one_per_key (calls : list Phase) (ph : Phase) : Prop :=
  ∀ key, key_of ph = Some key → key ∉ omap key_of calls.

Definition begun (s : Service) : System := mkSystem s [] [].

(** What a step of a call does to the service, by the phase it was in. *)
Lemma Submit_check_frame ctx command (s : Service) :
  let s' := (Submit_check newCommandID newCorrelationID ctx command s).2 in
  sv_results s' = sv_results s ∧ sv_idempotency s' = sv_idempotency s ∧ dispatched s' = dispatched s.
Proof.
  pose proof (Submit_check_spec newCommandID newCorrelationID ctx command s) as Hc.
  destruct (Submit_check _ _ _ _ _) as [x s']. destruct Hc as [(Hr & Hi & [_ _ Hx] & _) _].
  unfold dispatched. cbn. by rewrite Hx.
Qed.
Lemma emit_frame ctx ty r (s : Service) :
  let s' := (command_emit factory ctx ty r s).2 in
  sv_results s' = sv_results s ∧ sv_idempotency s' = sv_idempotency s ∧ dispatched s' = dispatched s.
Proof.
  destruct (command_emit_frame factory ctx ty r s) as (Hr & Hi & [_ _ Hx]). unfold dispatched. cbn. by rewrite Hx.
Qed.

(** Keys enter the table only where a call records its command, and commands
    reach the executor only where a call dispatches its command. *)
Lemma phase_step_effects ctx ph (s : Service) :
  let s' := (phase_step ctx ph s).2 in
  sv_idempotency s' =
    match ph with
    | Recording_ c _ _ _ => <[c_IdempotencyKey c := c_ID c]> (sv_idempotency s)
    | _ => sv_idempotency s
    end
  ∧ dispatched s' = match ph with Dispatching c => dispatched s ++ [c] | _ => dispatched s end.
Proof.
  destruct ph; cbn [Concurrency.phase_step]; try done.
  - destruct (Submit_check_frame ctx command s) as (_ & Hi & Hd).
    by destruct (Submit_check _ _ _ _ _) as [[] ?].
  - cbn [read_now]. by destruct (negb _).
  - destruct (revisions_Snapshot _ _) as [? []]; [done|]. by destruct (negb _).
  - by destruct (policy_begin _ _ _).
  - destruct (emit_frame ctx eventType result s) as (_ & Hi & Hd).
    destruct (command_emit _ _ _ _ _) as [[] ?]; [done|]. by case_bool_decide.
  - unfold transition_locked. by destruct (sv_results s !! id).
  - destruct (emit_frame ctx eventType result s) as (_ & Hi & Hd). by destruct (command_emit _ _ _ _ _) as [[] ?].
  - unfold dispatch_now, dispatched. rewrite <- (Dispatch_recording ctx c (sv_executor s)).
    destruct (Dispatch ctx c (sv_executor s)) as [[ack []] ?]; [done|].
    destruct (negb _); [done|]. by destruct (IsZero _).
  - destruct (ctx_Err ctx); [done|]. destruct (IsZero _); [done|]. destruct (_ !! _); [|done]. by destruct (negb _).
  - destruct (policy_RecordReported _ _ _ _ _) as [[] ?]; [done|]. by destruct (negb _).
  - destruct (ctx_Err ctx); [done|]. destruct (_ || _); [done|]. destruct (_ !! _); [|done].
    destruct (negb _); [done|]. by destruct (Before _ _).
Qed.

(** A step of one call, with the calls beside it. *)
Lemma split_calls {A} (l : list A) i x x' :
  l !! i = Some x → ∃ l1 l2, l = l1 ++ x :: l2 ∧ <[i := x']> l = l1 ++ x' :: l2.
Proof.
  intros Hi. exists (take i l), (drop (S i) l). split; [by rewrite take_drop_middle|].
  rewrite insert_take_drop; [done|]. by apply lookup_lt_Some in Hi.
Qed.

(** *** What a dispatch has behind it *)
Definition found (past : list Service) (k : nat) (Q : Service → Prop) : Prop := ∃ s, past !! k = Some s ∧ Q s.
Definition timely (c : Command) (s : Service) : Prop := now (sv_tick s) < c_ExpiresAt c.
Definition current (ctx : Context) (c : Command) (s : Service) : Prop :=
  ∀ rev, c_ExpectedRevision c = Some rev →
    ∃ snap, revisions_Snapshot ctx (sv_revisions s) = (snap, None) ∧ snap_Revision snap = rev.
(** An evaluation that began against the [k]th of the services and came to [o]
    against the [l]th, each of its sections against one in between. *)
Inductive deliberated (past : list Service) (ctx : Context) (intent : Intent) (k : nat) :
    nat → K + Decision * option error → Prop :=
| deliberated_begin s : past !! k = Some s → deliberated past ctx intent k k (policy_begin ctx intent (sv_policy s)).1
| deliberated_continue l m s x :
    deliberated past ctx intent k l (inl x) → (l < m)%nat → past !! m = Some s →
    deliberated past ctx intent k m (policy_continue ctx x (sv_policy s)).

(** One after another, the command was found unexpired and at its expected
    revision, and an evaluation began and ended with permission. *)
Definition cleared (ctx : Context) (c : Command) (past : list Service) : Prop :=
  ∃ i j k l d, (i ≤ j < k)%nat ∧ found past i (timely c) ∧ found past j (current ctx c)
    ∧ deliberated past ctx (intent_of c) k l (inr (d, None)) ∧ d_Allowed d = true.

Definition evidence (past : list Service) (call : Context * Phase) : Prop :=
  let '(ctx, ph) := call in
  match ph with
  | Arrived c => validateCommand c = None
  | Comparing c expected =>
      validateCommand c = None ∧ c_ExpectedRevision c = Some expected ∧ ∃ i, found past i (timely c)
  | Evaluating c =>
      validateCommand c = None ∧ ∃ i j, (i ≤ j)%nat ∧ found past i (timely c) ∧ found past j (current ctx c)
  | Deciding c x =>
      validateCommand c = None ∧ ∃ i j k l, (i ≤ j < k)%nat ∧ found past i (timely c) ∧ found past j (current ctx c)
        ∧ deliberated past ctx (intent_of c) k l (inl x)
  | Recording_ c status _ _ => status = StatusValidated → validateCommand c = None ∧ cleared ctx c past
  | Announcing c result _ => r_Status result = StatusValidated → validateCommand c = None ∧ cleared ctx c past
  | Moving (Some c) _ _ _ _ _ | Telling (Some c) _ _ | Dispatching c =>
      validateCommand c = None ∧ cleared ctx c past
  | _ => True
  end.

Lemma found_app past more k Q : found past k Q → found (past ++ more) k Q.
Proof. intros (s & Hs & Hq). exists s. split; [by apply lookup_app_l_Some|done]. Qed.
Lemma found_last past s (Q : Service → Prop) : Q s → found (past ++ [s]) (length past) Q.
Proof. intros Hq. exists s. split; [|done]. by rewrite list_lookup_middle. Qed.
Lemma found_lt past k Q : found past k Q → (k < length past)%nat.
Proof. intros (s & Hs & _). by apply lookup_lt_Some in Hs. Qed.
Lemma deliberated_app past more ctx intent k l o :
  deliberated past ctx intent k l o → deliberated (past ++ more) ctx intent k l o.
Proof.
  induction 1 as [s Hs|l m s x _ IH Hlt Hs]; [apply deliberated_begin|eapply deliberated_continue; eauto];
    by apply lookup_app_l_Some.
Qed.
Lemma deliberated_lt past ctx intent k l o : deliberated past ctx intent k l o → (k ≤ l < length past)%nat.
Proof. induction 1 as [s Hs|l m s x _ IH Hlt Hs]; apply lookup_lt_Some in Hs; lia. Qed.
Lemma cleared_app ctx c past more : cleared ctx c past → cleared ctx c (past ++ more).
Proof.
  intros (i & j & k & l & d & Hle & Hi & Hj & Hk & Hd).
  exists i, j, k, l, d. split_and!; eauto using found_app, deliberated_app; lia.
Qed.

(** An evaluation moves on, to more deliberation or to an answer. *)
Lemma weigh_evidence past ctx c i j k l o :
  validateCommand c = None → (i ≤ j < k)%nat → found past i (timely c) → found past j (current ctx c) →
  deliberated past ctx (intent_of c) k l o → evidence past (ctx, weigh c o).
Proof.
  intros Hv Hle Hi Hj Hk. destruct o as [x|[d [err|]]]; cbn [weigh]; [|exact I|].
  - split; [done|]. by exists i, j, k, l.
  - destruct (d_Allowed d) eqn:Hd; cbn [negb evidence]; [|done]. intros _. split; [done|]. by exists i, j, k, l, d.
Qed.
Lemma evidence_app past more call : evidence past call → evidence (past ++ more) call.
Proof.
  destruct call as [ctx []]; simpl; try (destruct next); try done;
    first [naive_solver eauto using found_app, cleared_app
          |intros (? & i & j & k & l & ? & ? & ? & ?); split; [done|]; exists i, j, k, l;
           split_and!; eauto using found_app, deliberated_app; lia].
Qed.

Lemma phase_step_evidence ctx ph (s : Service) past ph' s' :
  phase_step ctx ph s = (ph', s') → evidence past (ctx, ph) → evidence (past ++ [s]) (ctx, ph').
Proof.
  destruct ph; cbn [Concurrency.phase_step evidence]; intros Hs He.
  - pose proof (Submit_check_spec newCommandID newCorrelationID ctx command s) as Hc.
    destruct (Submit_check _ _ _ _ _) as [[c|r] s1]; simplify_eq; [|exact I]. destruct Hc as [_ Hc]. by destruct Hc as (_ & ? & _).
  - unfold read_now in Hs. destruct (Before (UTC (now (sv_tick s))) (c_ExpiresAt c)) eqn:Hb; simplify_eq/=; [|first [exact I|by cbn]].
    assert (timely c s) as Ht by (unfold timely; unfold UTC in Hb; go_bool; lia).
    destruct (c_ExpectedRevision c) as [rev|] eqn:Hrev; cbn [evidence].
    + split_and!; try done. exists (length past). by apply found_last.
    + split; [done|]. exists (length past), (length past). split_and!; [done|by apply found_last|].
      apply found_last. unfold current. by rewrite Hrev.
  - destruct He as (Hv & Hrev & i & Hi). destruct (revisions_Snapshot ctx (sv_revisions s)) as [snap [err|]] eqn:Hsnap; [simplify_eq; exact I|].
    destruct (Z.eqb_spec (snap_Revision snap) expected); simplify_eq/=; [|first [exact I|by cbn]].
    split; [done|]. exists i, (length past). split_and!; [apply found_lt in Hi; lia|by apply found_app|].
    apply found_last. intros rev ?. simplify_eq. eauto.
  - destruct He as (Hv & i & j & Hle & Hi & Hj). destruct (policy_begin _ _ _) as [o p] eqn:Hp. simplify_eq.
    apply (weigh_evidence _ _ _ i j (length past) (length past));
      [done|apply found_lt in Hj; lia|by apply found_app..|].
    replace o with (policy_begin ctx (intent_of c) (sv_policy s)).1 by by rewrite Hp.
    apply deliberated_begin. by rewrite list_lookup_middle.
  - destruct He as (Hv & i & j & k & l & Hle & Hi & Hj & Hk). simplify_eq.
    apply (weigh_evidence _ _ _ i j k (length past)); [done|lia|by apply found_app..|].
    eapply deliberated_continue; [by apply deliberated_app|apply deliberated_lt in Hk; lia|]. by rewrite list_lookup_middle.
  - pose proof (record_locked_status now c status reason s) as Hrs.
    destruct (record_locked now c status reason s) as [r s1]. simplify_eq/=. intros Hst.
    destruct (He Hst). eauto using cleared_app.
  - destruct (command_emit _ _ _ _ _) as [[err|] s1]; [simplify_eq; exact I|].
    case_bool_decide as Hst; simplify_eq/=; [|first [exact I|by cbn]]. destruct (He Hst). eauto using cleared_app.
  - destruct (transition_locked _ _ _ _ _ _) as [[r|] s1]; simplify_eq; [|exact I]. destruct next; [|exact I]. cbn.
    destruct He. eauto using cleared_app.
  - destruct (command_emit _ _ _ _ _) as [[err|] s1]; simplify_eq; [exact I|]. destruct next; [|exact I]. cbn.
    destruct He. eauto using cleared_app.
  - unfold dispatch_now in Hs. destruct (Dispatch ctx c (sv_executor s)) as [[ack [err|]] x]; [simplify_eq; exact I|].
    destruct (ack_Accepted ack); simplify_eq/=; [|first [exact I|by cbn]]. destruct (if IsZero _ then _ else _); simplify_eq; exact I.
  - destruct (ctx_Err ctx); [simplify_eq; exact I|]. destruct (IsZero _); [simplify_eq; exact I|].
    destruct (_ !! _); [|simplify_eq; exact I]. destruct (negb _); simplify_eq; exact I.
  - destruct (policy_RecordReported _ _ _ _ _) as [[] ?]; [simplify_eq; exact I|]. destruct (negb _); simplify_eq; exact I.
  - destruct (ctx_Err ctx); [simplify_eq; exact I|]. destruct (_ || _); [simplify_eq; exact I|].
    destruct (_ !! _); [|simplify_eq; exact I]. destruct (negb _); [simplify_eq; exact I|]. destruct (Before _ _); simplify_eq; exact I.
  - simplify_eq; exact I.
Qed.

Lemma weigh_key c o key : key_of (weigh c o) = Some key → c_IdempotencyKey c = key.
Proof. destruct o as [x|[d [err|]]]; cbn; [by intros [=]|done|]. by destruct (d_Allowed d); intros [=]. Qed.

(** A call never takes on a key it did not have, and gives it up when it
    dispatches. *)
Lemma phase_step_key ctx ph (s : Service) ph' s' :
  phase_step ctx ph s = (ph', s') →
  (∀ key, key_of ph' = Some key → key_of ph = Some key) ∧ (∀ c, ph = Dispatching c → key_of ph' = None).
Proof.
  destruct ph; cbn [Concurrency.phase_step]; intros Hs; (split; [|try discriminate]).
  - intros key. pose proof (Submit_check_spec newCommandID newCorrelationID ctx command s) as Hc.
    destruct (Submit_check _ _ _ _ _) as [[c|r] s1]; simplify_eq; [|done]. destruct Hc as [_ (Hf & _)].
    simpl. by rewrite (fills_key _ _ Hf).
  - unfold read_now in Hs. intros key. destruct (negb _); [by simplify_eq|].
    destruct (c_ExpectedRevision c); by simplify_eq.
  - intros key. destruct (revisions_Snapshot _ _) as [? []]; [by simplify_eq|]. by destruct (negb _); simplify_eq.
  - intros key. destruct (policy_begin _ _ _) as [o ?]. simplify_eq. intros <-%weigh_key. done.
  - intros key. simplify_eq. intros <-%weigh_key. done.
  - intros key. destruct (record_locked _ _ _ _ _). by simplify_eq.
  - intros key. destruct (command_emit _ _ _ _ _) as [[] ?]; [by simplify_eq|]. by case_bool_decide; simplify_eq.
  - intros key. destruct (transition_locked _ _ _ _ _ _) as [[] ?]; simplify_eq; [by destruct next|done].
  - intros key. destruct (command_emit _ _ _ _ _) as [[] ?]; simplify_eq; by destruct next.
  - intros key. unfold dispatch_now in Hs. destruct (Dispatch _ _ _) as [[ack []] ?]; [by simplify_eq|].
    destruct (negb _); [by simplify_eq|]. by destruct (if IsZero _ then _ else _); simplify_eq.
  - intros c' [= <-]. unfold dispatch_now in Hs. destruct (Dispatch _ _ _) as [[ack []] ?]; [by simplify_eq|].
    destruct (negb _); [by simplify_eq|]. by destruct (if IsZero _ then _ else _); simplify_eq.
  - intros key. destruct (ctx_Err ctx); [by simplify_eq|]. destruct (IsZero _); [by simplify_eq|].
    destruct (_ !! _); [|by simplify_eq]. by destruct (negb _); simplify_eq.
  - intros key. destruct (policy_RecordReported _ _ _ _ _) as [[] ?]; [by simplify_eq|]. by destruct (negb _); simplify_eq.
  - intros key. destruct (ctx_Err ctx); [by simplify_eq|]. destruct (_ || _); [by simplify_eq|].
    destruct (_ !! _); [|by simplify_eq]. destruct (negb _); [by simplify_eq|]. by destruct (Before _ _); simplify_eq.
  - by simplify_eq.
Qed.

Definition keys (calls : list (Context * Phase)) : list string := omap key_of calls.*2.

Lemma keys_cons x calls : keys (x :: calls) = (match key_of x.2 with Some key => [key] | None => [] end) ++ keys calls.
Proof. unfold keys. cbn. by destruct (key_of x.2). Qed.
Lemma keys_app l l' : keys (l ++ l') = keys l ++ keys l'.
Proof. unfold keys. by rewrite fmap_app, omap_app. Qed.

(** Everything dispatched was cleared, and by its own call. *)
Record sys_ok (y : System) : Prop := {
  so_calls : Forall (evidence (sy_past y)) (sy_calls y);
  so_log : ∀ c, c ∈ dispatched (sy_service y) → validateCommand c = None ∧ ∃ ctx, cleared ctx c (sy_past y);
  so_count : (length (dispatched (sy_service y)) + length (keys (sy_calls y)) ≤ length (sy_calls y))%nat
}.

Lemma sys_step_ok may_begin y y' : sys_step may_begin y y' → sys_ok y → sys_ok y'.
Proof.
  intros [ctx ph Hc _|i ctx ph ph' s' Hi Hs|s' [_ _ _ Hd]] [Hcalls Hlog Hcount].
  - split; cbn [sy_service sy_calls sy_past]; [|done|].
    + apply Forall_app. split; [done|]. constructor; [|done]. by destruct ph.
    + rewrite keys_app, keys_cons, !length_app. cbn. destruct (key_of ph); cbn; lia.
  - destruct (split_calls _ _ _ (ctx, ph') Hi) as (l1 & l2 & Hl & Hl').
    pose proof (phase_step_effects ctx ph (sy_service y)) as [_ Hd]. rewrite Hs in Hd. cbn [snd] in Hd.
    destruct (phase_step_key _ _ _ _ _ Hs) as [Hk Hdk].
    rewrite Hl, Forall_app, Forall_cons in Hcalls. destruct Hcalls as (H1 & Hph & H2).
    split; cbn [sy_service sy_calls sy_past].
    + rewrite Hl', Forall_app, Forall_cons. split_and!.
      * eapply Forall_impl; [exact H1|]. intros call. apply evidence_app.
      * eauto using phase_step_evidence.
      * eapply Forall_impl; [exact H2|]. intros call. apply evidence_app.
    + intros c Hin. rewrite Hd in Hin.
      assert (c ∈ dispatched (sy_service y) ∨ ph = Dispatching c) as [Hold| ->].
      { destruct ph; auto. apply elem_of_app in Hin as [| ->%list_elem_of_singleton]; auto. }
      * destruct (Hlog c Hold) as [? [ctx' ?]]. eauto using cleared_app.
      * destruct Hph. eauto using cleared_app.
    + rewrite Hl', Hd. rewrite Hl in Hcount. rewrite !keys_app, !keys_cons, !length_app in *. cbn in *.
      destruct ph; rewrite ?length_app; cbn in *;
        try (rewrite (Hdk _ eq_refl); cbn; lia);
        destruct (key_of ph') as [key|] eqn:Hkey; cbn; try lia;
        specialize (Hk _ eq_refl); try discriminate; destruct next; try discriminate; cbn in *; lia.
  - split; cbn [sy_service sy_calls sy_past]; [done|..]; by rewrite Hd.
Qed.

Lemma begun_ok dependencies p v x w s0 :
  NewServiceWithDependencies dependencies p v (mkRecording x []) w = inl s0 →
  sys_ok (begun s0) ∧ sv_idempotency s0 = ∅ ∧ dispatched s0 = [].
Proof.
  unfold NewServiceWithDependencies. destruct dependencies; [|done]. intros [= <-].
  split_and!; [|done..]. split; [constructor| |done]. intros c Hc. by apply elem_of_nil in Hc.
Qed.

(** C9: however calls of the command service interleave, with the locks
    released where the source releases them, and whatever policy, state and
    adapters do in between: every command that was dispatched is valid and was
    found, one after another, unexpired and at its expected revision, and then
    an evaluation of it began and ended with permission; and there are no more
    dispatches than calls. *)
Theorem concurrent_dispatch_is_cleared may_begin dependencies p v x w s0 y :
  NewServiceWithDependencies dependencies p v (mkRecording x []) w = inl s0 →
  rtc (sys_step may_begin) (begun s0) y →
  (∀ c, c ∈ dispatched (sy_service y) → validateCommand c = None ∧ ∃ ctx, cleared ctx c (sy_past y))
  ∧ (length (dispatched (sy_service y)) ≤ length (sy_calls y))%nat.
Proof.
  intros (Hok & _)%begun_ok Hr. assert (sys_ok y) as [_ Hlog Hcount].
  { induction Hr as [|y1 y2 y3 Hs _ IH]; [done|]. eauto using sys_step_ok. }
  split; [done|lia].
Qed.

(** *** What holds of the policy throughout *)
Lemma phase_step_policy (J : P → Prop) ctx ph (s : Service) :
  (∀ intent p, J p → J (policy_Evaluate ctx intent p).2) →
  (∀ id on at_ p, J p → J (policy_RecordReported ctx id on at_ p).2) →
  J (sv_policy s) → J (sv_policy (phase_step ctx ph s).2).
Proof.
  intros He Hr Hj. destruct ph; cbn [Concurrency.phase_step]; try done.
  - pose proof (Submit_check_spec newCommandID newCorrelationID ctx command s) as Hc.
    destruct (Submit_check _ _ _ _ _) as [[] s']; destruct Hc as [(_ & _ & [Hp _ _] & _) _]; cbn in *; by rewrite Hp.
  - cbn [read_now]. by destruct (negb _).
  - destruct (revisions_Snapshot _ _) as [? []]; [done|]. by destruct (negb _).
  - specialize (He (intent_of c) _ Hj). pose proof (policy_alone ctx (intent_of c) (sv_policy s)) as Ha.
    destruct (policy_begin _ _ _) as [o p]. destruct Ha as (_ & _ & Hp). cbn. by rewrite <- Hp.
  - destruct (command_emit_frame factory ctx eventType result s) as (_ & _ & [Hp _ _]).
    destruct (command_emit _ _ _ _ _) as [[] ?]; [|case_bool_decide]; cbn in *; by rewrite Hp.
  - unfold transition_locked. by destruct (sv_results s !! id).
  - destruct (command_emit_frame factory ctx eventType result s) as (_ & _ & [Hp _ _]).
    destruct (command_emit _ _ _ _ _) as [[] ?]; cbn in *; by rewrite Hp.
  - unfold dispatch_now. destruct (Dispatch ctx c (sv_executor s)) as [[ack []] ?]; [done|].
    destruct (negb _); [done|]. by destruct (IsZero _).
  - destruct (ctx_Err ctx); [done|]. destruct (IsZero _); [done|]. destruct (_ !! _); [|done]. by destruct (negb _).
  - specialize (Hr (c_EquipmentID (r_Command result)) reportedOn observedAt _ Hj).
    destruct (policy_RecordReported _ _ _ _ _) as [[] ?]; [done|]. by destruct (negb _).
  - destruct (ctx_Err ctx); [done|]. destruct (_ || _); [done|]. destruct (_ !! _); [|done].
    destruct (negb _); [done|]. by destruct (Before _ _).
Qed.

(** A property of the policy that its operations and the environment keep holds
    of every service that a step of a call found. *)
Lemma policy_throughout (J : P → Prop) may_begin s0 y :
  (∀ ctx intent p, J p → J (policy_Evaluate ctx intent p).2) →
  (∀ ctx id on at_ p, J p → J (policy_RecordReported ctx id on at_ p).2) →
  (∀ p p', rely p p' → J p → J p') → J (sv_policy s0) → rtc (sys_step may_begin) (begun s0) y →
  J (sv_policy (sy_service y)) ∧ Forall (fun s => J (sv_policy s)) (sy_past y).
Proof.
  intros He Hr Hrely H0 Hsteps.
  apply (rtc_invariant (sys_step may_begin) (fun y => J (sv_policy (sy_service y)) ∧ Forall (fun s => J (sv_policy s)) (sy_past y))
    (begun s0)); [|by split|done].
  intros y1 y2 [ctx ph _ _|i ctx ph ph' s' _ Hs|s' [Hp _ _ _]] [Hnow Hpast]; cbn [sy_service sy_past]; [done| |by eauto].
  split; [|apply Forall_app; by repeat constructor]. pose proof (phase_step_policy J ctx ph (sy_service y1)) as Hj. rewrite Hs in Hj. apply Hj; eauto.
Qed.

(** *** One submission at a time for each key *)

(** What the key table and the log say of a call's key. *)
Definition placed (s : Service) (ph : Phase) : Prop :=
  match ph with
  | Arrived c | Comparing c _ | Evaluating c | Deciding c _ | Recording_ c _ _ _ => sv_idempotency s !! c_IdempotencyKey c = None
  | Announcing c _ _ | Moving (Some c) _ _ _ _ _ | Telling (Some c) _ _ | Dispatching c =>
      is_Some (sv_idempotency s !! c_IdempotencyKey c) ∧ c_IdempotencyKey c ∉ c_IdempotencyKey <$> dispatched s
  | _ => True
  end.

Record exclusive (y : System) : Prop := {
  ex_keys : NoDup (keys (sy_calls y));
  ex_placed : Forall (fun call => placed (sy_service y) call.2) (sy_calls y);
  ex_log : log_ok (sy_service y)
}.

(** A call whose key differs stays where it is placed. *)
Lemma placed_other (s s' : Service) c ph :
  (sv_idempotency s' = sv_idempotency s ∨ sv_idempotency s' = <[c_IdempotencyKey c := c_ID c]> (sv_idempotency s)) →
  (dispatched s' = dispatched s ∨ dispatched s' = dispatched s ++ [c]) →
  key_of ph ≠ Some (c_IdempotencyKey c) → placed s ph → placed s' ph.
Proof.
  intros Hi Hd Hk.
  assert (∀ c', c_IdempotencyKey c' ≠ c_IdempotencyKey c →
    sv_idempotency s' !! c_IdempotencyKey c' = sv_idempotency s !! c_IdempotencyKey c') as Hsame.
  { intros c' Hne. destruct Hi as [-> | ->]; [done|]. by rewrite lookup_insert_ne. }
  assert (∀ c', c_IdempotencyKey c' ≠ c_IdempotencyKey c → c_IdempotencyKey c' ∉ c_IdempotencyKey <$> dispatched s →
    c_IdempotencyKey c' ∉ c_IdempotencyKey <$> dispatched s') as Hlog.
  { intros c' Hne Hnot. destruct Hd as [-> | ->]; [done|]. rewrite fmap_app, not_elem_of_app. cbn.
    by rewrite list_elem_of_singleton. }
  destruct ph; cbn [placed key_of] in *; try destruct next as [c'|]; try done;
    first [intros Hn; rewrite Hsame by congruence; done
          |intros [Hsome Hnot]; rewrite Hsame by congruence; split; [done|apply Hlog; [congruence|done]]].
Qed.

Lemma weigh_placed (s : Service) c o : sv_idempotency s !! c_IdempotencyKey c = None → placed s (weigh c o).
Proof. intros Hk. destruct o as [x|[d [err|]]]; cbn; [done|done|]. by destruct (d_Allowed d). Qed.

(** A step takes its own call from one place to the next. *)
Lemma phase_step_placed ctx ph (s : Service) ph' s' :
  phase_step ctx ph s = (ph', s') → (∀ c, c ∈ dispatched s → is_Some (sv_idempotency s !! c_IdempotencyKey c)) →
  placed s ph → placed s' ph'.
Proof.
  intros Hs Hlog. pose proof (phase_step_effects ctx ph s) as [Hi Hd]. rewrite Hs in Hi, Hd. cbn [snd] in Hi, Hd.
  destruct ph; cbn [Concurrency.phase_step] in Hs; cbn [placed].
  - intros _. pose proof (Submit_check_spec newCommandID newCorrelationID ctx command s) as Hc.
    destruct (Submit_check _ _ _ _ _) as [[c|r] s1]; simplify_eq; [|done]. destruct Hc as [_ (Hf & _ & Hk)].
    cbn [placed]. by rewrite Hi, (fills_key _ _ Hf).
  - unfold read_now in Hs. intros Hk. destruct (negb _); [simplify_eq; exact Hk|].
    destruct (c_ExpectedRevision c); simplify_eq; exact Hk.
  - intros Hk. destruct (revisions_Snapshot _ _) as [? []]; [by simplify_eq|].
    destruct (negb _); simplify_eq; exact Hk.
  - intros Hk. destruct (policy_begin _ _ _) as [o ?]. simplify_eq. apply weigh_placed. by rewrite Hi.
  - intros Hk. simplify_eq. by apply weigh_placed.
  - intros Hk. destruct (record_locked _ _ _ _ _). simplify_eq. cbn [placed]. rewrite Hi, Hd, lookup_insert_eq. split; [done|].
    intros (c' & Heq & Hin%Hlog)%list_elem_of_fmap. rewrite <- Heq, Hk in Hin. by destruct Hin.
  - intros Hk. destruct (command_emit _ _ _ _ _) as [[] ?]; [by simplify_eq|].
    case_bool_decide; simplify_eq; [cbn [placed]; by rewrite Hi, Hd|done].
  - destruct (transition_locked _ _ _ _ _ _) as [[] ?]; simplify_eq; [|done]. destruct next; cbn [placed]; [by rewrite Hi, Hd|done].
  - destruct (command_emit _ _ _ _ _) as [[] ?]; simplify_eq; [done|]. destruct next; cbn [placed]; [by rewrite Hi, Hd|done].
  - intros _. unfold dispatch_now in Hs. destruct (Dispatch _ _ _) as [[ack []] ?]; [by simplify_eq|].
    destruct (negb _); [by simplify_eq|]. by destruct (if IsZero _ then _ else _); simplify_eq.
  - intros _. destruct (ctx_Err ctx); [by simplify_eq|]. destruct (IsZero _); [by simplify_eq|].
    destruct (_ !! _); [|by simplify_eq]. by destruct (negb _); simplify_eq.
  - intros _. destruct (policy_RecordReported _ _ _ _ _) as [[] ?]; [by simplify_eq|]. by destruct (negb _); simplify_eq.
  - intros _. destruct (ctx_Err ctx); [by simplify_eq|]. destruct (_ || _); [by simplify_eq|].
    destruct (_ !! _); [|by simplify_eq]. destruct (negb _); [by simplify_eq|]. by destruct (Before _ _); simplify_eq.
  - by simplify_eq.
Qed.

Lemma placed_same (s s' : Service) ph :
  sv_idempotency s' = sv_idempotency s → dispatched s' = dispatched s → placed s ph → placed s' ph.
Proof. intros Hi Hd. unfold placed. by rewrite Hi, Hd. Qed.

(** The calls beside the one that takes a step. *)
Lemma phase_step_beside ctx ph (s : Service) ph' s' l :
  phase_step ctx ph s = (ph', s') →
  (∀ key, key_of ph = Some key → key ∉ keys l) →
  Forall (fun call => placed s call.2) l → Forall (fun call => placed s' call.2) l.
Proof.
  intros Hs Hkey Hl. pose proof (phase_step_effects ctx ph s) as [Hi Hd]. rewrite Hs in Hi, Hd. cbn [snd] in Hi, Hd.
  apply Forall_forall. intros call Hin. rewrite Forall_forall in Hl. specialize (Hl _ Hin).
  assert (∀ c, key_of ph = Some (c_IdempotencyKey c) → key_of call.2 ≠ Some (c_IdempotencyKey c)) as Hne.
  { intros c Hk Hk'. apply (Hkey _ Hk). unfold keys. apply list_elem_of_omap. exists call.2. split; [|done].
    by apply list_elem_of_fmap_2. }
  destruct ph; try (by apply (placed_same s)); apply (placed_other s s' c); auto.
Qed.

Lemma log_ok_dispatch (s s' : Service) c :
  sv_idempotency s' = sv_idempotency s → dispatched s' = dispatched s ++ [c] →
  is_Some (sv_idempotency s !! c_IdempotencyKey c) → c_IdempotencyKey c ∉ c_IdempotencyKey <$> dispatched s →
  log_ok s → log_ok s'.
Proof.
  intros Hi Hd Hs Hn [Hnd Hlog]. split; rewrite Hd.
  - rewrite fmap_app. apply NoDup_app. split_and!; [done| |apply NoDup_singleton].
    intros key Hin ->%list_elem_of_singleton. done.
  - intros c' [Hin| ->%list_elem_of_singleton]%elem_of_app; rewrite Hi; eauto.
Qed.

Lemma phase_step_log ctx ph (s : Service) ph' s' :
  phase_step ctx ph s = (ph', s') → placed s ph → log_ok s → log_ok s'.
Proof.
  intros Hs Hp Hlog. pose proof (phase_step_effects ctx ph s) as [Hi Hd]. rewrite Hs in Hi, Hd. cbn [snd] in Hi, Hd.
  destruct ph; try (apply (log_ok_same s); [by rewrite Hi|done|done]).
  - apply (log_ok_same s); [|done|done]. intros key. rewrite Hi, lookup_insert. case_decide; eauto.
  - destruct Hp. by apply (log_ok_dispatch s s' c).
Qed.

Lemma exclusive_step y y' : sys_step one_per_key y y' → exclusive y → exclusive y'.
Proof.
  intros [ctx ph Hc Hone|i ctx ph ph' s' Hi Hs|s' [_ _ Hi Hd]] [Hkeys Hplaced Hlog].
  - split; cbn [sy_service sy_calls]; [| |done].
    + rewrite keys_app, keys_cons, app_nil_r. apply NoDup_app. split_and!; [done| |].
      * intros key Hin Hk. cbn in Hk. destruct (key_of ph) as [key'|] eqn:Hkey; [|by apply elem_of_nil in Hk].
        apply list_elem_of_singleton in Hk as ->. by apply (Hone key').
      * cbn. destruct (key_of ph); [apply NoDup_singleton|constructor].
    + apply Forall_app. split; [done|]. constructor; [|done]. by destruct ph.
  - destruct (split_calls _ _ _ (ctx, ph') Hi) as (l1 & l2 & Hl & Hl').
    destruct (phase_step_key _ _ _ _ _ Hs) as [Hk _].
    rewrite Hl, keys_app, keys_cons in Hkeys. rewrite Hl, Forall_app, Forall_cons in Hplaced.
    destruct Hplaced as (H1 & Hph & H2). cbn [snd] in *.
    assert (∀ key, key_of ph = Some key → (key ∉ keys l1) ∧ (key ∉ keys l2)) as Hbeside.
    { intros key Hkey. rewrite Hkey in Hkeys. apply NoDup_app in Hkeys as (_ & Hd1 & Hd2).
      apply NoDup_cons in Hd2 as [? _]. split; [|done]. intros Hin. by apply (Hd1 key Hin), list_elem_of_here. }
    split; cbn [sy_service sy_calls].
    + rewrite Hl', keys_app, keys_cons. cbn [snd]. destruct (key_of ph') as [key|] eqn:Hkey.
      * by rewrite (Hk _ eq_refl) in Hkeys.
      * eapply sublist_NoDup; [exact Hkeys|]. apply sublist_app; [done|]. apply sublist_inserts_l. done.
    + rewrite Hl', Forall_app, Forall_cons. cbn [snd]. destruct Hlog as [? Hlog]. split_and!;
        [eapply phase_step_beside|eapply phase_step_placed|eapply phase_step_beside]; eauto; naive_solver.
    + eauto using phase_step_log.
  - split; cbn [sy_service sy_calls]; [done| |].
    + eapply Forall_impl; [exact Hplaced|]. intros call. by apply placed_same.
    + apply (log_ok_same (sy_service y)); [by rewrite Hi|done|done].
Qed.

(** C10: if callers keep to one submission at a time for each idempotency key,
    no key is dispatched twice, however calls interleave otherwise. *)
Theorem serialized_keys_dispatch_once dependencies p v x w s0 y :
  NewServiceWithDependencies dependencies p v (mkRecording x []) w = inl s0 →
  rtc (sys_step one_per_key) (begun s0) y →
  NoDup (c_IdempotencyKey <$> dispatched (sy_service y)).
Proof.
  intros (_ & Hi & Hd)%begun_ok Hr. assert (exclusive y) as [_ _ [? _]]; [|done].
  assert (exclusive (begun s0)) as Hok.
  { split; [constructor|constructor|]. split; cbn; rewrite Hd; [constructor|]. intros c Hc. by apply elem_of_nil in Hc. }
  induction Hr as [|y1 y2 y3 Hs _ IH]; [done|]. eauto using exclusive_step.
Qed.

(** *** Schedules *)

(** A call begins, or the [i]th call takes its next step. *)
Inductive Move := Begin (ctx : Context) (ph : Phase) | Advance (i : nat).

Definition play_move (y : System) (move : Move) : System :=
  match move with
  | Begin ctx ph =>
      if is_call ph then mkSystem (sy_service y) (sy_calls y ++ [(ctx, ph)]) (sy_past y) else y
  | Advance i =>
      match sy_calls y !! i with
      | Some (ctx, ph) =>
          let '(ph', s') := phase_step ctx ph (sy_service y) in
          mkSystem s' (<[i := (ctx, ph')]> (sy_calls y)) (sy_past y ++ [sy_service y])
      | None => y
      end
  end.
Definition play (schedule : list Move) (y : System) : System := foldl play_move y schedule.

(** A move that keeps to what [may_begin] says is a step of the system. *)
Lemma play_move_reaches may_begin move y :
  (∀ ctx ph, move = Begin ctx ph → may_begin (sy_calls y).*2 ph) → rtc (sys_step may_begin) y (play_move y move).
Proof.
  intros Ha. destruct move as [ctx ph|i]; cbn.
  - destruct (is_call ph) eqn:Hc; [|done]. apply rtc_once, step_call; eauto.
  - destruct (sy_calls y !! i) as [[ctx ph]|] eqn:Hi; [|done]. destruct (phase_step ctx ph _) as [ph' s'] eqn:Hs.
    by apply rtc_once, (step_phase _ _ i ctx ph).
Qed.

Fixpoint keeps_to (may_begin : list Phase → Phase → Prop) (schedule : list Move) (y : System) : Prop :=
  match schedule with
  | [] => True
  | move :: rest =>
      match move with Begin _ ph => may_begin (sy_calls y).*2 ph | Advance _ => True end
      ∧ keeps_to may_begin rest (play_move y move)
  end.

Lemma play_reaches may_begin schedule y : keeps_to may_begin schedule y → rtc (sys_step may_begin) y (play schedule y).
Proof.
  revert y. induction schedule as [|move schedule IH]; intros y; cbn; [done|]. intros [Hm Hk].
  eapply rtc_trans; [|by apply IH]. apply play_move_reaches. by intros ctx ph ->.
Qed.
Lemma anyone_keeps_to schedule y : keeps_to anyone schedule y.
Proof. revert y. induction schedule as [|[] schedule IH]; intros y; cbn; [done|split; [done|apply IH]..]. Qed.
End systems.

(** ** The safety engine among other calls *)
Section engine.
Context {V X W : Type}.
Abbreviation Service := (@Service SafetyPolicy V (Recording X) W).

(** What held when the engine looked at its own state, under its lock. *)
Record within_limits (now : Time) (id : EquipmentID) (p : Profile) (e : Engine) : Prop := {
  wl_profile : e_profiles e !! id = Some p;
  wl_mode : e_mode e ≠ ModeEmergencyStop;
  wl_maximum_on : let rt := account (runtime_of id e) now in
    rt_on rt = true → 0 < MaximumOn (p_Limits p) → Sub now (rt_onSince rt) < MaximumOn (p_Limits p);
  wl_daily : 0 < MaximumDailyOn (p_Limits p) →
    rt_dailyOn (account (runtime_of id e) now) < MaximumDailyOn (p_Limits p);
  wl_minimum_off : let rt := account (runtime_of id e) now in
    rt_offSince rt ≠ 0 → 0 < MinimumOff (p_Limits p) → MinimumOff (p_Limits p) ≤ Sub now (rt_offSince rt)
}.

(** An input that was read, at one of the services from the [k]th on, and
    found good, unexpired and of the required value. *)
Definition read_since (past : list Service) (k : nat) (r : InputRequirement) : Prop :=
  ∃ j s, (k ≤ j)%nat ∧ past !! j = Some s ∧ input_held (sp_state (sv_policy s)) (sp_clock (sv_policy s)) r.

Lemma Evaluate_begin_pending ctx clock intent e e' pe :
  Evaluate_begin ctx clock intent e = (e', inl pe) → in_IssuedAt intent ≠ 0 →
  ∃ p, within_limits (in_IssuedAt intent) (in_EquipmentID intent) p e
    ∧ pe_inputs pe = (if p_Hazardous p then p_RequiredInputs p else []).
Proof.
  unfold Evaluate_begin. intros Hb Hz. destruct (ctx_Err ctx); [done|].
  destruct (e_profiles e !! in_EquipmentID intent) as [p|] eqn:Hp; [|done]. cbn [accountLocked] in Hb.
  assert (IsZero (in_IssuedAt intent) = false) as Hnz by (unfold IsZero; lia). rewrite Hnz in Hb.
  destruct (match _ !! _ with Some _ => _ | None => _ end) as [o e2] in Hb.
  destruct (negb (in_On intent)); [done|]. injection Hb as _ Hd. unfold decide_limits in Hd. cbn [e_mode put_runtime] in Hd.
  case_bool_decide as Hm; [done|].
  destruct (_ && (MaximumOn _ <=? _)) eqn:H1; [done|].
  destruct (_ && (_ <=? rt_dailyOn _)) eqn:H2; [done|].
  destruct (_ && (_ <? MinimumOff _)) eqn:H3; [done|]. injection Hd as <-.
  exists p. split; [|done]. split; [done|done|..]; cbn zeta; intros; unfold IsZero in *;
    repeat match goal with H : ?b = true |- _ => rewrite H in * end; cbn in *; lia.
Qed.

Lemma Evaluate_continue_pending ctx (m : StateManager * Time) pe pe' :
  Evaluate_continue ctx m pe = inl pe' →
  ∃ r, pe_inputs pe = r :: pe_inputs pe' ∧ input_satisfied ctx m r.
Proof.
  unfold Evaluate_continue, input_satisfied. destruct (pe_inputs pe) as [|r rest]; [by destruct (_ && _)|].
  destruct (reader_Get ctx (ir_Key r) m) as [value [err|]] eqn:Hget; [by destruct (errors_Is err _)|].
  destruct (sv_Quality value) eqn:Hq; try done.
  destruct (ir_RequireBoolean r) as [b|] eqn:Hb; [case_bool_decide as Hv; [|done]|]; cbn; intros [= <-]; cbn;
    exists r; (split; [done|]); exists value; (split_and!; [done|done|]); intros b' Hb'; simplify_eq; try done; congruence.
Qed.
Lemma Evaluate_continue_allowed ctx (m : StateManager * Time) pe d :
  Evaluate_continue ctx m pe = inr (d, None) → d_Allowed d = true → pe_inputs pe = [].
Proof.
  unfold Evaluate_continue. destruct (pe_inputs pe) as [|r rest]; [done|].
  destruct (reader_Get ctx (ir_Key r) m) as [value [err|]]; [by destruct (errors_Is err _); intros [= <-]|].
  destruct (sv_Quality value); try (by intros [= <-]).
  destruct (match ir_RequireBoolean r with Some _ => _ | None => _ end); [by intros [= <-]|done].
Qed.

(** Permission to switch equipment on: the limits held when the engine looked
    at them, and every input was found to hold then or later. *)
Lemma deliberated_on (past : list Service) ctx intent k l d :
  deliberated past ctx intent k l (inr (d, None)) → d_Allowed d = true →
  in_On intent = true → in_IssuedAt intent ≠ 0 →
  ∃ s p, past !! k = Some s
    ∧ within_limits (in_IssuedAt intent) (in_EquipmentID intent) p (sp_engine (sv_policy s))
    ∧ (p_Hazardous p = true → Forall (read_since past k) (p_RequiredInputs p)).
Proof.
  intros Hd Ha Hon Hz.
  assert (∀ l o, deliberated past ctx intent k l o →
    match o with
    | inl pe => ∃ s p read, past !! k = Some s
        ∧ within_limits (in_IssuedAt intent) (in_EquipmentID intent) p (sp_engine (sv_policy s))
        ∧ (if p_Hazardous p then p_RequiredInputs p else []) = read ++ pe_inputs pe ∧ Forall (read_since past k) read
    | inr (d, None) => d_Allowed d = true → ∃ s p, past !! k = Some s
        ∧ within_limits (in_IssuedAt intent) (in_EquipmentID intent) p (sp_engine (sv_policy s))
        ∧ (p_Hazardous p = true → Forall (read_since past k) (p_RequiredInputs p))
    | inr (_, Some _) => True
    end) as Hinv; [|by apply (Hinv _ _ Hd)].
  clear d l Hd Ha. intros l o. induction 1 as [s Hs|l m s pe Hdel (s0 & p & read & Hs0 & Hlim & Hsplit & Hread) Hlt Hs].
  - cbn. destruct (Evaluate_begin _ _ _ _) as [e [pe|[d [err|]]]] eqn:Hb; [|exact I|].
    + destruct (Evaluate_begin_pending _ _ _ _ _ _ Hb Hz) as (p & Hlim & Hin). exists s, p, []. by rewrite Hin.
    + intros Hall. exfalso. revert Hb Hall. unfold Evaluate_begin, decide_limits. rewrite Hon.
      repeat (case_match; try (intros; simplify_eq; done)).
  - apply deliberated_lt in Hdel. cbn. destruct (Evaluate_continue _ _ _) as [pe'|[d [err|]]] eqn:Hc; [|exact I|].
    + destruct (Evaluate_continue_pending _ _ _ _ Hc) as (r & Hr & Hsat). exists s0, p, (read ++ [r]).
      split_and!; [done|done|by rewrite Hsplit, Hr, <- app_assoc|]. apply Forall_app. split; [done|]. constructor; [|done].
      exists m, s. split_and!; [lia|done|by eapply input_satisfied_held].
    + intros Hall. rewrite (Evaluate_continue_allowed _ _ _ _ Hc Hall), app_nil_r in Hsplit.
      exists s0, p. split_and!; [done|done|]. intros Hh. by rewrite Hh in Hsplit; subst.
Qed.
End engine.
