(* ===== verification/AlarmPath.v ===== *)
(** * From a measurement to an alarm's subscribers

    [state.Manager.Set] publishes a change on the bus; the threshold evaluator
    handles it within that publication and observes its rules with the alarm
    manager, which publishes on the same bus in turn. The bus is the one of
    [Bus], with its slots; a publication within a publication takes a slot of
    its own. *)

From Stdlib Require Import ZArith Lia String.
From stdpp Require Import base gmap strings list.
From S2P Require Import Prelude Domain Health Events Bus State Alarms Evaluator.

(** ** An alarm is raised *)
Section raise.
Context {W : Type} `{!Publisher W, !JSON, !Marshaler Alarm}.

(** The alarm that an active observation of a rule raises when it was pending
    since [since]. *)
Definition first_alarm (aid : AlarmID) (limit : nat) (rule : Rule) (since : Time) (o : Observation) : Alarm :=
  mkAlarm aid (ru_ID rule) (ru_Code rule) (ru_Subject rule)
    (if Rank (ru_Severity rule) <? Rank (ob_Severity o) then ob_Severity o else ru_Severity rule) AlarmActive true
    (appendEvidence [] (ob_Evidence o) limit) since (ob_ObservedAt o) 1 None None (ob_CorrelationID o).

(** The rule has no alarm, or its last one is cleared. *)
Definition idle (m : @AlarmManager W) (st : ruleState) : Prop :=
  rs_current st = "" ∨ al_Status (alarm_at (rs_current st) m) = AlarmStatusCleared.

Lemma Observe_raises env ctx o (m : @AlarmManager W) st aid w event :
  ctx_Err ctx = None → ob_Active o = true → ob_ObservedAt o ≠ 0 → ob_CorrelationID o ≠ "" →
  am_rules m !! ob_RuleID o = Some st → idle m st →
  rs_lastObservation st = 0 ∨ rs_lastObservation st < ob_ObservedAt o →
  let since := default (ob_ObservedAt o) (rs_pendingActive st) in
  ru_Debounce (rs_rule st) ≤ Sub (ob_ObservedAt o) since →
  oe_newAlarmID env = (aid, None) → aid ≠ "" → am_publisher m = Some w →
  let alarm := first_alarm aid (am_evidenceLimit m) (rs_rule st) since o in
  Factory_New (fe_now (oe_factory env)) (fe_fresh (oe_factory env)) "alarms" AlarmRaised (al_Severity alarm) alarm
    (al_CorrelationID alarm) = (event, None) →
  ∃ m' err, Observe env ctx o m = (m', (alarm, TransitionRaised, err))
    ∧ err = ErrWrap AlarmRaised <$> (Publish ctx event w).1
    ∧ am_publisher m' = Some (Publish ctx event w).2 ∧ am_alarms m' !! aid = Some alarm.
Proof.
  intros Hctx Hact Ht Hc Hrule Hidle Hlast since Hdeb Hid Haid Hpub alarm Hev.
  unfold Observe. rewrite Hctx. assert (IsZero (ob_ObservedAt o) = false) as -> by (unfold IsZero; lia).
  rewrite bool_decide_eq_false_2 by done. cbn [set_time_and_correlation ob_RuleID ob_ObservedAt]. rewrite Hrule.
  assert (negb (IsZero (rs_lastObservation st)) && negb (After (ob_ObservedAt o) (rs_lastObservation st)) = false) as ->.
  { unfold IsZero, After. destruct (Z.eqb_spec (rs_lastObservation st) 0); [done|].
    destruct (Z.ltb_spec (rs_lastObservation st) (ob_ObservedAt o)); [done|lia]. }
  unfold observe_rule, applyObservation.
  cbn [set_time_and_correlation ob_Active ob_ObservedAt set_pending rs_current rs_pendingActive rs_rule].
  rewrite Hact, Hid.
  assert (bool_decide (rs_current st = "")
    || bool_decide (al_Status (alarm_at (rs_current st) m) = AlarmStatusCleared) = true) as ->.
  { destruct Hidle as [Hi|Hi]; rewrite (bool_decide_eq_true_2 _ Hi); [done|apply orb_true_r]. }
  fold since. assert ((Sub (ob_ObservedAt o) since <? ru_Debounce (rs_rule st)) = false) as -> by (apply Z.ltb_ge; lia).
  cbn [al_ID set_time_and_correlation ob_Severity ob_Evidence ob_CorrelationID].
  rewrite bool_decide_eq_false_2 by done. change (mkAlarm aid _ _ _ _ _ _ _ _ _ _ _ _ _) with alarm.
  rewrite !bool_decide_eq_false_2 by done. cbn [orb]. rewrite !cloneAlarm_id. unfold alarm_emit.
  cbn [am_publisher put_alarm put_rule]. rewrite Hpub.
  change (Transition_code TransitionRaised) with AlarmRaised. rewrite Hev.
  destruct (Publish ctx event w) as [[err|] w']; eexists _, _; (split; [reflexivity|]); cbn;
    rewrite lookup_insert_eq; done.
Qed.

(** An observation publishes at most once. *)
Lemma Observe_publishes env ctx o (m : @AlarmManager W) :
  am_publisher (Observe env ctx o m).1 = am_publisher m
  ∨ ∃ event w, am_publisher m = Some w ∧ am_publisher (Observe env ctx o m).1 = Some (Publish ctx event w).2.
Proof.
  unfold Observe. destruct (ctx_Err ctx); [by left|].
  destruct (if bool_decide _ then _ else _) as [corr [err|]]; [by left|].
  destruct (am_rules m !! _) as [st|]; [|by left]. destruct (negb _ && negb _); [by left|].
  unfold observe_rule. destruct (applyObservation _ _ _ _) as [st' [[alarm transition] err]].
  set (m' := if bool_decide (al_ID alarm = "") then _ else _).
  assert (am_publisher m' = am_publisher m) as Hp by (subst m'; by destruct (bool_decide _)).
  destruct (_ || _); [by left|]. unfold alarm_emit. rewrite Hp. destruct (am_publisher m) as [w|] eqn:Hw; [|by left].
  destruct (Factory_New _ _ _ _ _ _ _) as [event [ferr|]]; [by left|]. right. exists event, w. split; [done|].
  by destruct (Publish ctx event w) as [[perr|] w'].
Qed.
End raise.

(** ** The path *)
Section path.
Context `{!JSON, !Marshaler StateValue, !Marshaler Alarm, !SHA256, !Unmarshaler} {B W : Type} `{!EventSubscriber B}.
(** What the handlers other than the evaluator's do: they act on the world [W]
    and do not use the bus. *)
Context (eff : nat → Event → W → option error * W).
(** The number of the evaluator's handler, and what the generators and the
    clock of the alarm manager return while it runs. *)
Context (evaluator : nat) (envs : nat → ObserveEnv).

#[local] Instance within : Publisher (Bus * W) := Bus_Publisher (invoke_eff eff).
Abbreviation Listener := (@Evaluator B (Bus * W)).

(** The evaluator's alarm manager publishes on the bus that invokes it. A panic
    of the handler ends the program; here it is an error, and does not occur on
    the values the theorems are about. *)
Definition attach (st : Bus * W) (e : Listener) : Listener := set_engine (put_publisher (Some st) (ev_engine e)) e.
Definition detach (e : Listener) : Listener := set_engine (put_publisher None (ev_engine e)) e.

Definition respond (h : nat) (ctx : Context) (event : Event) (st : Bus * (Listener * W)) :
    option error * (Bus * (Listener * W)) :=
  let '(b, (e, w)) := st in
  if decide (h = evaluator) then
    match handle envs ctx event (attach (b, w) e) with
    | None => (Some (ErrNew "panic"), st)
    | Some (e, err) =>
        let '(b, w) := default (b, w) (am_publisher (ev_engine e)) in (err, (b, (detach e, w)))
    end
  else let '(err, w) := eff h event w in (err, (b, (e, w))).

#[local] Instance outer : Publisher (Bus * (Listener * W)) := Bus_Publisher respond.

Abbreviation active_of b hs := (filter (fun s => s_active s = true) (omap (fun s => b_subs b !! s) hs)).

Lemma handle_rules_app env ctx event v l1 l2 (m : @AlarmManager (Bus * W)) :
  handle_rules env ctx event v (l1 ++ l2) m =
    match handle_rules env ctx event v l1 m with
    | Some (m1, None) => handle_rules (fun n => env (length l1 + n)%nat) ctx event v l2 m1
    | r => r
    end.
Proof.
  revert env m. induction l1 as [|rule l1 IH]; intros env m; [done|]. simpl.
  destruct (evaluate rule v) as [[[active evidence] [err|]]|]; [done| |done].
  destruct (Observe _ _ _ _) as [m' [[alarm transition] [err|]]]; [done|]. by rewrite IH.
Qed.

(** The sinks give back the slot they were run in. *)
Lemma Bus_Publish_keeps_bus ctx event (b : Bus) (w : W) : (Bus_Publish (invoke_eff eff) ctx event (b, w)).2.1 = b.
Proof.
  unfold Bus_Publish. destruct (b_closed b) eqn:Hc; [done|]. destruct (Event_Validate event); [done|].
  destruct (negb _); [done|]. cbn [b_closed set_slots]. rewrite Hc. set (b1 := set_slots _ b).
  assert (∀ hs failures w, (deliver (invoke_eff eff) ctx event hs failures (b1, w)).2.1 = b1) as Hd.
  { induction hs as [|s hs IH]; intros failures w0; simpl; [done|]. destruct (ctx_Err ctx); [done|].
    destruct (b_subs b !! s) as [sub|]; [|by apply IH]. destruct (negb _); [by apply IH|].
    unfold invoke_eff at 1. simpl. destruct (eff _ event w0) as [[err|] w']; apply IH. }
  specialize (Hd (default [] (b_handlers b1 !! ev_EventType event)) [] w).
  destruct (deliver _ _ _ _ _ _) as [err [b2 w2]]. cbn in *. subst b2. apply set_slots_back.
Qed.

Lemma handle_rules_bus env ctx event v rules (m m' : @AlarmManager (Bus * W)) err (b : Bus) w :
  am_publisher m = Some (b, w) → handle_rules env ctx event v rules m = Some (m', err) →
  ∃ w', am_publisher m' = Some (b, w').
Proof.
  revert env m w. induction rules as [|rule rules IH]; intros env m w Hm; simpl; [intros; simplify_eq; eauto|].
  destruct (evaluate rule v) as [[[active evidence] [e1|]]|]; [intros; simplify_eq; eauto| |done].
  set (o := threshold_observation _ _ _ _ _). pose proof (Observe_publishes (env 0%nat) ctx o m) as Hp.
  destruct (Observe (env 0%nat) ctx o m) as [m1 [[alarm transition] oerr]]. cbn [fst] in Hp.
  assert (∃ w1, am_publisher m1 = Some (b, w1)) as [w1 Hw1].
  { destruct Hp as [->|(ev & x & Hx & ->)]; [eauto|]. simplify_eq. 
    pose proof (Bus_Publish_keeps_bus ctx ev b w) as Hb.
    change (Publish ctx ev (b, w)) with (Bus_Publish (invoke_eff eff) ctx ev (b, w)).
    destruct (Bus_Publish _ ctx ev (b, w)) as [? [b' w']]. cbn in *. subst b'. eauto. }
  destruct oerr; [intros; simplify_eq; eauto|]. by apply IH with w1.
Qed.

Lemma deliver_sinks ctx event (b : Bus) (e : Listener) hs rest failures w :
  ctx_Err ctx = None → Forall (fun s => s_handler s ≠ evaluator) (active_of b hs) →
  deliver respond ctx event (hs ++ rest) failures (b, (e, w)) =
    let '(errs, w') := run_subs eff event (active_of b hs) w in
    deliver respond ctx event rest (failures ++ errs) (b, (e, w')).
Proof.
  intros Hctx. revert failures w. induction hs as [|s hs IH]; intros failures w; simpl; [by rewrite app_nil_r|].
  rewrite Hctx. destruct (b_subs b !! s) as [sub|]; simpl; [|by apply IH].
  rewrite filter_cons. destruct (s_active sub); simpl; [|by apply IH].
  intros [Hne Hall]%Forall_cons. rewrite decide_False by done.
  destruct (eff (s_handler sub) event w) as [[err|] w'] eqn:Heff; rewrite IH by done;
    destruct (run_subs eff event _ w') as [errs w'']; [|done]. by rewrite <- (assoc_L (++)).
Qed.

(** The bus on which the evaluator listens to state changes, with the handlers
    before and after it. *)
Record listening (b : Bus) (before after : list nat) (s : nat) (sub : subscription) : Prop := {
  li_open : b_closed b = false;
  li_handlers : b_handlers b !! StateChanged = Some (before ++ s :: after);
  li_sub : b_subs b !! s = Some sub;
  li_active : s_active sub = true;
  li_handler : s_handler sub = evaluator;
  li_others : Forall (fun s => s_handler s ≠ evaluator) (active_of b (before ++ after));
  li_alarms : Forall (fun s => s_handler s ≠ evaluator) (active_subs b AlarmRaised)
}.

(** A measurement that makes a rule of its sensor active. The evaluator goes
    through the rules of the sensor in turn and stops at the first error; the
    rules before this one are [earlier], they have answered none, and [m1] is
    the alarm manager after them. There the rule has no alarm that is not
    cleared, it was not observed at a later time, and its condition has held
    for its delay, at once if it has none. *)
Record breach (ctx : Context) (v : StateValue) (earlier : list ThresholdRule) (rule : ThresholdRule)
    (later : list ThresholdRule) (aid : AlarmID) (st : ruleState) (event : Event) (e : Listener)
    (m1 : @AlarmManager (Bus * W)) : Prop := {
  br_ctx : ctx_Err ctx = None;
  br_relevant : relevant v = true;
  br_time : sv_ObservedAt v ≠ 0;
  br_read : json_Unmarshal (ev_Payload event) = inr v;
  br_event : Event_Validate event = None;
  br_type : ev_EventType event = StateChanged;
  br_rules : ev_rules e !! k_EntityID (sv_Key v) = Some (earlier ++ rule :: later);
  br_rule : am_rules m1 !! thresholdRuleID (tr_ID rule) = Some st;
  br_registered : rs_rule st = threshold_rule rule;
  br_idle : idle m1 st;
  br_newer : rs_lastObservation st = 0 ∨ rs_lastObservation st < sv_ObservedAt v;
  br_delay : tr_Delay rule ≤ Sub (sv_ObservedAt v) (default (sv_ObservedAt v) (rs_pendingActive st));
  br_severity : Rank (tr_Severity rule) ≠ 0;
  br_id : oe_newAlarmID (envs (length earlier)) = (aid, None) ∧ aid ≠ "";
  br_clock : fe_now (oe_factory (envs (length earlier))) ≠ 0;
  br_active : ∃ evidence, evaluate rule v = Some (true, evidence, None)
    ∧ ∃ text, json_Marshal (first_alarm aid (am_evidenceLimit m1) (threshold_rule rule)
        (default (sv_ObservedAt v) (rs_pendingActive st)) (threshold_observation event v rule true evidence)) = inr text
}.

(** The alarm is active in the manager, and [event] tells of it. *)
Definition raised (rule : ThresholdRule) (aid : AlarmID) (m : @AlarmManager (Bus * W)) (event : Event) : Prop :=
  ∃ alarm, am_alarms m !! aid = Some alarm ∧ al_RuleID alarm = thresholdRuleID (tr_ID rule)
    ∧ al_Status alarm = AlarmActive ∧ al_ConditionActive alarm = true
    ∧ ev_EventType event = AlarmRaised ∧ json_Marshal alarm = inr (ev_Payload event) ∧ Event_Validate event = None.

(** The alarm's publication answered [err]: an error ends the evaluator's loop,
    otherwise the rules after this one follow. *)
Definition settle (ctx : Context) (v : StateValue) (event : Event) (n : nat) (later : list ThresholdRule)
    (err : option error) (m : @AlarmManager (Bus * W)) : option (@AlarmManager (Bus * W) * option error) :=
  match err with
  | Some err => Some (m, Some (ErrWrap "observe configured alarm rule" (ErrWrap AlarmRaised err)))
  | None => handle_rules (fun i => envs (n + S i)%nat) ctx event v later m
  end.

Lemma handle_breach ctx v earlier rule later aid st event (b : Bus) e w m1 :
  handle_rules envs ctx event v earlier (put_publisher (Some (b, w)) (ev_engine e)) = Some (m1, None) →
  breach ctx v earlier rule later aid st event e m1 →
  ∃ alarm_event m' w', am_publisher m1 = Some (b, w') ∧ raised rule aid m' alarm_event
    ∧ am_publisher m' = Some (Bus_Publish (invoke_eff eff) ctx alarm_event (b, w')).2
    ∧ handle envs ctx event (attach (b, w) e)
      = (fun r => (set_engine r.1 e, r.2))
        <$> settle ctx v event (length earlier) later (Bus_Publish (invoke_eff eff) ctx alarm_event (b, w')).1 m'.
Proof.
  intros Hm1 []. destruct br_active0 as (evidence & Hactive & text & Htext), br_id0 as [Hid Haid].
  destruct (handle_rules_bus _ _ _ _ _ (put_publisher (Some (b, w)) (ev_engine e)) _ _ b w eq_refl Hm1) as [w' Hw'].
  set (o := threshold_observation event v rule true evidence) in *. set (env := envs (length earlier)) in *.
  apply Event_Validate_spec in br_event0 as (_ & _ & _ & _ & Hcorr & _).
  assert (ev_CorrelationID event ≠ "") as Hne by (intros Hz; rewrite Hz in Hcorr; done).
  set (since := default (sv_ObservedAt v) (rs_pendingActive st)) in *.
  set (alarm := first_alarm aid (am_evidenceLimit m1) (threshold_rule rule) since o) in *.
  assert (∃ ev, Factory_New (fe_now (oe_factory env)) (fe_fresh (oe_factory env)) "alarms" AlarmRaised
    (al_Severity alarm) alarm (al_CorrelationID alarm) = (ev, None)) as [ev Hev].
  { unfold Factory_New. rewrite Htext.
    change (al_CorrelationID alarm) with (ev_CorrelationID event). rewrite bool_decide_eq_false_2 by done.
    eexists. f_equal. apply Event_Validate_spec. split_and!; try done; [|by eapply json_Marshal_valid].
    cbn. by destruct (_ <? _). }
  destruct (Observe_raises env ctx o m1 st aid (b, w') ev) as (m' & err & Hobs & Herr & Hp & Ha);
    rewrite ?br_registered0; try done.
  destruct (Factory_New_valid _ _ _ _ _ _ _ _ Hev) as (Hv & _ & Hty & _ & Hpay & _).
  rewrite br_registered0 in Ha, Hobs. exists ev, m', w'. split_and!; [done|by exists alarm|done|].
  change (Publish ctx ev (b, w')) with (Bus_Publish (invoke_eff eff) ctx ev (b, w')) in *.
  unfold handle. rewrite br_read0, br_relevant0. cbn [negb].
  cbn [attach set_engine ev_rules ev_engine]. rewrite br_rules0. unfold default at 1, id at 1.
  rewrite handle_rules_app, Hm1. cbn [handle_rules]. rewrite Hactive.
  rewrite Nat.add_0_r. fold o. fold env. rewrite Hobs, Herr.
  destruct (Bus_Publish _ ctx ev (b, w')).1 as [perr|]; [done|]. cbn [fmap option_fmap option_map settle].
  destruct (handle_rules (λ n : nat, envs (length earlier + S n)) ctx event v later m') as [[m2 err2]|]; reflexivity.
Qed.

(** A publication of the measurement: the handlers before the evaluator's, the
    evaluator's with what it publishes, and the handlers after. *)
Lemma publish_breach ctx v earlier rule later aid st event (b : Bus) e w before after s sub errs1 w1 m1 :
  listening b before after s sub → (b_slots b < b_capacity b)%nat →
  let b1 := set_slots (S (b_slots b)) b in
  run_subs eff event (active_of b before) w = (errs1, w1) →
  handle_rules envs ctx event v earlier (put_publisher (Some (b1, w1)) (ev_engine e)) = Some (m1, None) →
  breach ctx v earlier rule later aid st event e m1 →
  ∃ alarm_event m' w', am_publisher m1 = Some (b1, w') ∧ raised rule aid m' alarm_event
    ∧ am_publisher m' = Some (Bus_Publish (invoke_eff eff) ctx alarm_event (b1, w')).2
    ∧ ∀ m2 err, settle ctx v event (length earlier) later (Bus_Publish (invoke_eff eff) ctx alarm_event (b1, w')).1 m'
        = Some (m2, err) →
      ∃ w2 errs3 w3, am_publisher m2 = Some (b1, w2)
      ∧ run_subs eff event (active_of b after) w2 = (errs3, w3)
      ∧ Bus_Publish respond ctx event (b, (e, w)) =
          (errors_Join (Some <$> errs1 ++ (match err with
                                           | Some err => [ErrWrap ("handler for " +:+ s_topic sub) err]
                                           | None => []
                                           end) ++ errs3),
           (b, (set_engine (put_publisher None m2) e, w3))).
Proof.
  intros [] Hslot b1 Hw1 Hm1 Hb. pose proof Hb as [].
  destruct (handle_breach ctx v earlier rule later aid st event b1 e w1 m1 Hm1 Hb)
    as (alarm_event & m' & w' & Hp1 & Hraised & Hp' & Hhandle).
  exists alarm_event, m', w'. split_and!; [done..|]. intros m2 err Hset. rewrite Hset in Hhandle.
  assert (∃ w2, am_publisher m2 = Some (b1, w2)) as [w2 Hw2].
  { pose proof (Bus_Publish_keeps_bus ctx alarm_event b1 w') as Hk.
    destruct (Bus_Publish _ ctx alarm_event (b1, w')) as [perr [b2 w2]]. cbn in *. subst b2.
    destruct perr; cbn in Hset; [simplify_eq; eauto|]. by eapply handle_rules_bus. }
  destruct (run_subs eff event (active_of b after) w2) as [errs3 w3] eqn:Hw3.
  exists w2, errs3, w3. split_and!; [done..|].
  unfold Bus_Publish. rewrite li_open0, br_event0. apply Nat.ltb_lt in Hslot as ->. cbn [negb]. fold b1.
  change (b_closed b1) with (b_closed b). change (b_handlers b1) with (b_handlers b).
  rewrite li_open0, br_type0, li_handlers0. unfold default, id.
  rewrite omap_app, filter_app, Forall_app in li_others0. destruct li_others0 as [Ho1 Ho2].
  rewrite (deliver_sinks ctx event b1 e before (s :: after) [] w br_ctx0 Ho1).
  change (active_of b1 before) with (active_of b before). rewrite Hw1. cbn [deliver app].
  rewrite br_ctx0. change (b_subs (b1, (e, w1)).1) with (b_subs b). rewrite li_sub0, li_active0. cbn [negb].
  rewrite li_handler0. unfold respond at 1. rewrite decide_True by done. rewrite Hhandle. cbn [fmap option_fmap option_map].
  cbn [fst snd set_engine ev_engine]. rewrite Hw2.
  change (default (b1, w1) (Some (b1, w2))) with (b1, w2). cbv beta iota.
  change (detach (set_engine m2 e)) with (set_engine (put_publisher None m2) e).
  destruct err as [err|].
  - rewrite <- (app_nil_r after), (deliver_sinks ctx event b1 _ after [] _ w2 br_ctx0 Ho2).
    change (active_of b1 after) with (active_of b after). rewrite Hw3. cbn [deliver]. rewrite <- (assoc_L (++)).
    cbn [b_slots b1 set_slots Nat.pred]. by rewrite <- (set_slots_back b) at 2.
  - rewrite <- (app_nil_r after), (deliver_sinks ctx event b1 _ after [] _ w2 br_ctx0 Ho2).
    change (active_of b1 after) with (active_of b after). rewrite Hw3. cbn [deliver app].
    cbn [b_slots b1 set_slots Nat.pred]. by rewrite <- (set_slots_back b) at 2.
Qed.

Lemma Set_publishes env ctx now taken v m (b : Bus) (e : Listener) w event :
  ctx_Err ctx = None → State.validate v = None →
  Factory_New (fe_now env) (fe_fresh env) "state" StateChanged SeverityInfo (set_locked now taken v m).1
    (ctx_CorrelationID ctx) = (event, None) →
  let '(_, publisher, (_, err)) := StateManager_Set env ctx now taken v m (Some (b, (e, w))) in
  publisher = Some (Bus_Publish respond ctx event (b, (e, w))).2
  ∧ err = (Bus_Publish respond ctx event (b, (e, w))).1.
Proof.
  intros Hctx Hv Hev. unfold StateManager_Set. rewrite Hctx, Hv.
  destruct (set_locked now taken v m) as [v' m']. cbn in Hev. unfold emit_with. rewrite Hev.
  change (Publish ctx event (b, (e, w))) with (Bus_Publish respond ctx event (b, (e, w))).
  by destruct (Bus_Publish respond ctx event (b, (e, w))) as [[err|] st].
Qed.

(** C26: recording a measurement under which a threshold rule is due raises
    the rule's alarm, and every subscriber of raised alarms is told of it
    before the recording returns, provided the bus has two free slots: one for
    the change and one for the alarm. Due means that the measurement is a good
    one and newer than the last the rule observed, that the rule has no alarm
    or a cleared one, and that its condition has held for its delay. The rules
    of the same sensor that come before it must have answered no error, since
    the first error ends the loop; those after it follow unless a subscriber
    of the alarm answers an error. The recording itself answers none unless a
    subscriber or a later rule does. The handlers other than the evaluator's
    are taken not to publish on the bus, the event of the change to decode to
    the value that was recorded, and the clock, a fresh identifier and the
    encoding of the alarm to be at hand. *)
Theorem breach_reaches_alarm_subscribers env ctx now taken v m (b : Bus) e w event earlier rule later aid st before after
    s sub errs1 w1 m1 :
  let v' := (set_locked now taken v m).1 in
  let b1 := set_slots (S (b_slots b)) b in
  State.validate v = None →
  Factory_New (fe_now env) (fe_fresh env) "state" StateChanged SeverityInfo v' (ctx_CorrelationID ctx) = (event, None) →
  listening b before after s sub → (S (b_slots b) < b_capacity b)%nat →
  run_subs eff event (active_of b before) w = (errs1, w1) →
  handle_rules envs ctx event v' earlier (put_publisher (Some (b1, w1)) (ev_engine e)) = Some (m1, None) →
  breach ctx v' earlier rule later aid st event e m1 →
  let '(_, publisher, (_, err)) := StateManager_Set env ctx now taken v m (Some (b, (e, w))) in
  ∃ alarm_event m' w1' errs2 w2, am_publisher m1 = Some (b1, w1')
    ∧ raised rule aid m' alarm_event
    ∧ run_subs eff alarm_event (active_subs b AlarmRaised) w1' = (errs2, w2) ∧ am_publisher m' = Some (b1, w2)
    ∧ ∀ m2 err2, settle ctx v' event (length earlier) later (errors_Join (Some <$> errs2)) m' = Some (m2, err2) →
      ∃ w2' errs3 w3, am_publisher m2 = Some (b1, w2')
        ∧ run_subs eff event (active_of b after) w2' = (errs3, w3)
        ∧ publisher = Some (b, (set_engine (put_publisher None m2) e, w3))
        ∧ (errs1 ++ errs3 = [] → err2 = None → err = None).
Proof.
  intros v' b1 Hv Hev Hli Hslot Hw1 Hm1 Hbr. pose proof (br_ctx _ _ _ _ _ _ _ _ _ _ Hbr) as Hctx.
  pose proof (Set_publishes env ctx now taken v m b e w event Hctx Hv Hev) as Hset.
  destruct (StateManager_Set _ _ _ _ _ _ _) as [[m' publisher] [stored err]]. destruct Hset as [-> ->].
  destruct (publish_breach ctx v' earlier rule later aid st event b e w before after s sub errs1 w1 m1 Hli ltac:(lia)
    Hw1 Hm1 Hbr) as (alarm_event & m2 & w1' & Hp1 & Hraised & Hp2 & Hrest).
  pose proof Hraised as (alarm & _ & _ & _ & _ & Hty & _ & Hvalid).
  assert (Bus_Publish (invoke_eff eff) ctx alarm_event (b1, w1') =
    let '(errs, w') := run_subs eff alarm_event (active_subs b AlarmRaised) w1' in
    (errors_Join (Some <$> errs), (b1, w'))) as Hdeliver.
  { rewrite (Bus_Publish_delivers_all eff ctx alarm_event b1 w1'); [by rewrite Hty|done|apply Hli|done|cbn; lia]. }
  fold b1 in Hp2, Hrest. rewrite Hdeliver in Hp2, Hrest.
  destruct (run_subs eff alarm_event (active_subs b AlarmRaised) w1') as [errs2 w2] eqn:Hw2.
  exists alarm_event, m2, w1', errs2, w2. split_and!; [done..|]. intros m3 err2 Hs.
  destruct (Hrest m3 err2 Hs) as (w2' & errs3 & w3 & Hp3 & Hw3 & ->). exists w2', errs3, w3. split_and!; [done..|].
  intros [-> ->]%app_nil ->. done.
Qed.

(** C27: when the change takes the last free slot of the bus, as it always
    does on a bus with a single slot, the same measurement raises the alarm
    and no subscriber of raised alarms is told: the recording answers an
    error, the rules that come after in the sensor's list are not looked at,
    and what the other subscribers of the change did is all that happened. The
    conditions are those of the alarm that is announced, but for the slot. *)
Theorem last_slot_silences_alarm env ctx now taken v m (b : Bus) e w event earlier rule later aid st before after
    s sub errs1 w1 m1 :
  let v' := (set_locked now taken v m).1 in
  let b1 := set_slots (S (b_slots b)) b in
  State.validate v = None →
  Factory_New (fe_now env) (fe_fresh env) "state" StateChanged SeverityInfo v' (ctx_CorrelationID ctx) = (event, None) →
  listening b before after s sub → S (b_slots b) = b_capacity b →
  run_subs eff event (active_of b before) w = (errs1, w1) →
  handle_rules envs ctx event v' earlier (put_publisher (Some (b1, w1)) (ev_engine e)) = Some (m1, None) →
  breach ctx v' earlier rule later aid st event e m1 →
  let '(_, publisher, (_, err)) := StateManager_Set env ctx now taken v m (Some (b, (e, w))) in
  ∃ alarm_event m' w1' errs3 w3, am_publisher m1 = Some (b1, w1')
    ∧ raised rule aid m' alarm_event
    ∧ run_subs eff event (active_of b after) w1' = (errs3, w3)
    ∧ publisher = Some (b, (set_engine (put_publisher None m') e, w3)) ∧ err ≠ None.
Proof.
  intros v' b1 Hv Hev Hli Hslot Hw1 Hm1 Hbr. pose proof (br_ctx _ _ _ _ _ _ _ _ _ _ Hbr) as Hctx.
  pose proof (Set_publishes env ctx now taken v m b e w event Hctx Hv Hev) as Hset.
  destruct (StateManager_Set _ _ _ _ _ _ _) as [[m' publisher] [stored err]]. destruct Hset as [-> ->].
  destruct (publish_breach ctx v' earlier rule later aid st event b e w before after s sub errs1 w1 m1 Hli ltac:(lia)
    Hw1 Hm1 Hbr) as (alarm_event & m2 & w1' & Hp1 & Hraised & Hp2 & Hrest).
  destruct (Bus_Publish_refusals (invoke_eff eff) ctx alarm_event b1 w1') as (err & Hrefuse & _);
    [right; right; cbn; lia|].
  fold b1 in Hp2, Hrest. rewrite Hrefuse in Hp2, Hrest.
  destruct (Hrest m2 _ eq_refl) as (w2 & errs3 & w3 & Hp3 & Hw3 & ->). cbn [snd] in Hp2. simplify_eq.
  exists alarm_event, m2, w1', errs3, w3. split_and!; [done..|].
  cbn [fst]. rewrite fmap_app. cbn. unfold errors_Join. rewrite omap_app. cbn. by destruct (omap id (Some <$> errs1)).
Qed.
End path.
