(* ===== verification/Topics.v ===== *)
(** * MQTT topics: [internal/mqtt/topics.go] and the topic checks of
    [client.go]

    The registry that generates every public topic from a site ID, the
    subscription filters, and the checks the client makes on publications and
    subscriptions. The two regular expressions are anchored at both ends, so a
    match is a test of all bytes. *)

From Stdlib Require Import ZArith Lia String Ascii.
From stdpp Require Import base strings list.
From S2P Require Import Prelude Domain.

Definition contractMajorVersion : string := "v1".

(** ** Segments *)
Definition in_range (lo hi : Z) (c : ascii) : bool :=
  let n := Z.of_N (N_of_ascii c) in (lo <=? n) && (n <=? hi).
Definition is_lower : ascii → bool := in_range 97 122.
Definition is_digit : ascii → bool := in_range 48 57.

Definition segment_char (extra c : ascii) : bool := is_lower c || is_digit c || Ascii.eqb c extra.

(** [^[a-z][a-z0-9x]{0,62}$] for the extra character [x]. *)
Definition segment_pattern (extra : ascii) (s : string) : bool :=
  match bytes_of s with
  | [] => false
  | c :: cs => is_lower c && forallb (segment_char extra) cs && (length cs <=? 62)%nat
  end.

Definition topicSegmentPattern : string → bool := segment_pattern "-"%char.
Definition haComponentPattern : string → bool := segment_pattern "_"%char.

Definition slash : ascii := "/"%char.

(** [strings.ContainsAny] for ASCII characters. *)
Definition ContainsAny (s : string) (chars : list ascii) : bool :=
  existsb (fun c => existsb (Ascii.eqb c) chars) (bytes_of s).

(** ** Purposes and policies *)
Inductive Purpose :=
| PurposeCoreStatus | PurposeAvailability | PurposeSensorState | PurposeEquipmentReported
| PurposeEquipmentDesired | PurposeCommandRequest | PurposeCommandResult | PurposeAlarmState
| PurposeEventStream | PurposeAIObservation | PurposeHADiscovery | PurposeHACommand
| PurposeOther (s : string).

#[export] Instance Purpose_eq_dec : EqDecision Purpose.
Proof. solve_decision. Defined.

Record TopicPolicy := mkTopicPolicy { tp_Purpose : Purpose; tp_QoS : Z; tp_Retained : bool }.
Definition zero_TopicPolicy : TopicPolicy := mkTopicPolicy (PurposeOther "") 0 false.

Record TopicRegistry := mkTopicRegistry { tg_siteID : string }.

Definition NewTopicRegistry (siteID : string) : TopicRegistry + error :=
  when negb (topicSegmentPattern siteID) yield
    inr (ErrNew "MQTT site ID must be lowercase kebab-case");;
  inl (mkTopicRegistry siteID).

Definition SiteID (r : TopicRegistry) : string := tg_siteID r.

(** ** Topics *)
Definition topic_root (r : TopicRegistry) : string :=
  "aquaos/" +:+ tg_siteID r +:+ "/" +:+ contractMajorVersion.

Definition no_topic (text : string) : string * TopicPolicy * option error :=
  ("", zero_TopicPolicy, Some (ErrNew text)).

Definition Topic (r : TopicRegistry) (purpose : Purpose) (resource : string) :
    string * TopicPolicy * option error :=
  when ContainsAny resource ["+"; "#"; "/"]%char || negb (topicSegmentPattern resource) yield
    no_topic "MQTT resource ID must be one lowercase kebab-case segment";;
  let root := topic_root r in
  let retained topic := (topic, mkTopicPolicy purpose 1 true, None) in
  let transient topic := (topic, mkTopicPolicy purpose 1 false, None) in
  match purpose with
  | PurposeCoreStatus => retained (root +:+ "/system/core/status")
  | PurposeAvailability => retained (root +:+ "/system/core/availability")
  | PurposeSensorState => retained (root +:+ "/sensors/" +:+ resource +:+ "/state")
  | PurposeEquipmentReported => retained (root +:+ "/equipment/" +:+ resource +:+ "/reported")
  | PurposeEquipmentDesired => retained (root +:+ "/equipment/" +:+ resource +:+ "/desired")
  | PurposeCommandRequest => transient (root +:+ "/commands/" +:+ resource +:+ "/request")
  | PurposeCommandResult => transient (root +:+ "/commands/" +:+ resource +:+ "/result")
  | PurposeAlarmState => retained (root +:+ "/alarms/" +:+ resource +:+ "/state")
  | PurposeEventStream => transient (root +:+ "/events/" +:+ resource)
  | PurposeAIObservation | PurposeHADiscovery =>
      no_topic "purpose requires its dedicated multi-segment constructor"
  | PurposeHACommand | PurposeOther _ => no_topic "unknown MQTT topic purpose"
  end.

Definition HACommand (r : TopicRegistry) (equipmentID : string) : string * TopicPolicy * option error :=
  when negb (topicSegmentPattern equipmentID) yield
    no_topic "equipment ID for Home Assistant must be one lowercase kebab-case segment";;
  ("aquaos/" +:+ tg_siteID r +:+ "/" +:+ contractMajorVersion +:+ "/home-assistant/" +:+ equipmentID
     +:+ "/set", mkTopicPolicy PurposeHACommand 1 false, None).

Definition HAStatus (r : TopicRegistry) : string * TopicPolicy :=
  ("aquaos/" +:+ tg_siteID r +:+ "/" +:+ contractMajorVersion +:+ "/home-assistant/status",
   mkTopicPolicy PurposeCoreStatus 1 true).

Definition AIObservation (r : TopicRegistry) (service kind : string) :
    string * TopicPolicy * option error :=
  when negb (topicSegmentPattern service) || negb (topicSegmentPattern kind) yield
    no_topic "AI service and kind must be lowercase kebab-case";;
  ("aquaos/" +:+ tg_siteID r +:+ "/" +:+ contractMajorVersion +:+ "/ai/" +:+ service
     +:+ "/observations/" +:+ kind, mkTopicPolicy PurposeAIObservation 1 false, None).

Definition HADiscovery (component objectID : string) : string * TopicPolicy * option error :=
  when negb (haComponentPattern component) || negb (topicSegmentPattern objectID) yield
    no_topic "component and object ID for Home Assistant must be lowercase kebab-case";;
  ("homeassistant/" +:+ component +:+ "/" +:+ objectID +:+ "/config",
   mkTopicPolicy PurposeHADiscovery 1 true, None).

Definition SubscriptionFilter (r : TopicRegistry) (purpose : Purpose) : string * Z * option error :=
  let root := topic_root r in
  match purpose with
  | PurposeCommandRequest => (root +:+ "/commands/+/request", 1, None)
  | PurposeAIObservation => (root +:+ "/ai/+/observations/+", 1, None)
  | PurposeHACommand => (root +:+ "/home-assistant/+/set", 1, None)
  | _ => ("", 0, Some (ErrNew "purpose has no wildcard subscription contract"))
  end.

(** ** The client's checks ([client.go]) *)
Fixpoint splitTopic (topic : string) : list string :=
  match topic with
  | EmptyString => [""]
  | String c rest =>
      if Ascii.eqb c slash then "" :: splitTopic rest
      else match splitTopic rest with
           | part :: parts => String c part :: parts
           | [] => [String c ""]
           end
  end.

Definition containsSegment (topic segment : string) : bool := bool_decide (segment ∈ splitTopic topic).

Definition containsWildcard (value : string) : bool :=
  existsb (fun c => Ascii.eqb c "#"%char || Ascii.eqb c "+"%char) (bytes_of value).

Definition validSubscription (r : TopicRegistry) (topic : string) : bool :=
  when bool_decide (topic = "") || containsSegment topic "#" || bool_decide (topic = "#") yield false;;
  when negb (containsWildcard topic) yield true;;
  let '(commandFilter, _, commandErr) := SubscriptionFilter r PurposeCommandRequest in
  let '(aiFilter, _, aiErr) := SubscriptionFilter r PurposeAIObservation in
  bool_decide (commandErr = None) && bool_decide (topic = commandFilter)
  || bool_decide (aiErr = None) && bool_decide (topic = aiFilter).

Definition validatePublication (topic : string) (qos : Z) (retained : bool) : option error :=
  when bool_decide (topic = "") || containsWildcard topic yield
    Some (ErrNew "invalid MQTT publication topic");;
  when 1 <? qos yield Some (ErrNew "unsupported MQTT QoS");;
  when retained && (containsSegment topic "commands" || containsSegment topic "events") yield
    Some (ErrNew "commands and events must never be retained");;
  None.

(** ** Lemmas on segments *)
Definition free_of (c : ascii) (s : string) : Prop := c ∉ bytes_of s.

Lemma free_of_cons c d s : free_of c (String d s) ↔ d ≠ c ∧ free_of c s.
Proof. unfold free_of. simpl. rewrite not_elem_of_cons. naive_solver. Qed.

Lemma bytes_of_app a b : bytes_of (a +:+ b) = bytes_of a ++ bytes_of b.
Proof. induction a as [|c a IH]; [done|]. apply (f_equal (cons c)), IH. Qed.

Lemma free_of_app c a b : free_of c (a +:+ b) ↔ free_of c a ∧ free_of c b.
Proof. unfold free_of. rewrite bytes_of_app, not_elem_of_app. done. Qed.

Lemma string_app_assoc (a b c : string) : (a +:+ b) +:+ c = a +:+ b +:+ c.
Proof. induction a as [|x a IH]; [done|]. apply (f_equal (String x)), IH. Qed.

Lemma string_app_cons c (a b : string) : String c a +:+ b = String c (a +:+ b).
Proof. done. Qed.

Lemma string_app_nil (b : string) : "" +:+ b = b.
Proof. done. Qed.

(** A segment avoids every character outside its class. *)
Lemma segment_free extra c s :
  segment_pattern extra s = true → segment_char extra c = false → is_lower c = false → free_of c s.
Proof.
  unfold segment_pattern, free_of. destruct (bytes_of s) as [|d cs]; [done|].
  intros [[Hd Hcs]%andb_true_iff _]%andb_true_iff Hc Hl. rewrite forallb_forall in Hcs.
  apply not_elem_of_cons. split; [by intros ->; congruence|].
  intros Hin%list_elem_of_In. apply Hcs in Hin. congruence.
Qed.

Lemma segment_nonempty extra s : segment_pattern extra s = true → s ≠ "".
Proof. by intros ? ->. Qed.

(** What the client's checks need of a segment. *)
Definition plain (s : string) : Prop :=
  s ≠ "" ∧ free_of slash s ∧ free_of "#"%char s ∧ free_of "+"%char s.

Lemma topic_segment_plain s : topicSegmentPattern s = true → plain s.
Proof.
  intros Hs. split_and!; [by eapply segment_nonempty|by apply (segment_free "-"%char)..].
Qed.

Lemma ha_component_plain s : haComponentPattern s = true → plain s.
Proof.
  intros Hs. split_and!; [by eapply segment_nonempty|by apply (segment_free "_"%char)..].
Qed.

Lemma splitTopic_nonnil t : splitTopic t ≠ [].
Proof. destruct t as [|c t]; simpl; [done|]. destruct (Ascii.eqb c slash); [done|]. by destruct (splitTopic t). Qed.

Lemma splitTopic_plain s : free_of slash s → splitTopic s = [s].
Proof.
  induction s as [|c s IH]; [done|]. intros [Hc Hs]%free_of_cons. simpl.
  apply Ascii.eqb_neq in Hc as ->. by rewrite (IH Hs).
Qed.

Lemma splitTopic_segment s rest :
  free_of slash s → splitTopic (s +:+ String slash rest) = s :: splitTopic rest.
Proof.
  induction s as [|c s IH]; [done|]. intros [Hc Hs]%free_of_cons. simpl.
  apply Ascii.eqb_neq in Hc as ->. by rewrite (IH Hs).
Qed.

(** ** Public contracts *)

(** Every way to generate a topic. *)
Inductive contract :=
| ByPurpose (purpose : Purpose) (resource : string)
| ForHACommand (equipmentID : string)
| ForHAStatus
| ForAI (service kind : string)
| ForDiscovery (component objectID : string).

Definition generated (t : string * TopicPolicy * option error) : option (string * TopicPolicy) :=
  match t with (topic, policy, None) => Some (topic, policy) | _ => None end.

Definition contract_topic (r : TopicRegistry) (c : contract) : option (string * TopicPolicy) :=
  match c with
  | ByPurpose purpose resource => generated (Topic r purpose resource)
  | ForHACommand id => generated (HACommand r id)
  | ForHAStatus => Some (HAStatus r)
  | ForAI service kind => generated (AIObservation r service kind)
  | ForDiscovery component objectID => generated (HADiscovery component objectID)
  end.

(** The contract a topic stands for: the two system topics ignore the
    resource. *)
Definition contract_id (c : contract) : contract :=
  match c with
  | ByPurpose PurposeCoreStatus _ => ByPurpose PurposeCoreStatus ""
  | ByPurpose PurposeAvailability _ => ByPurpose PurposeAvailability ""
  | c => c
  end.

(** The levels of a contract's topic. *)
Definition contract_levels (site : string) (c : contract) : list string :=
  match c with
  | ByPurpose purpose res =>
      ["aquaos"; site; "v1"] ++
      match purpose with
      | PurposeCoreStatus => ["system"; "core"; "status"]
      | PurposeAvailability => ["system"; "core"; "availability"]
      | PurposeSensorState => ["sensors"; res; "state"]
      | PurposeEquipmentReported => ["equipment"; res; "reported"]
      | PurposeEquipmentDesired => ["equipment"; res; "desired"]
      | PurposeCommandRequest => ["commands"; res; "request"]
      | PurposeCommandResult => ["commands"; res; "result"]
      | PurposeAlarmState => ["alarms"; res; "state"]
      | PurposeEventStream => ["events"; res]
      | _ => []
      end
  | ForHACommand id => ["aquaos"; site; "v1"; "home-assistant"; id; "set"]
  | ForHAStatus => ["aquaos"; site; "v1"; "home-assistant"; "status"]
  | ForAI service kind => ["aquaos"; site; "v1"; "ai"; service; "observations"; kind]
  | ForDiscovery component objectID => ["homeassistant"; component; objectID; "config"]
  end.

(** The policy that goes with it. *)
Definition contract_policy (c : contract) : TopicPolicy :=
  match c with
  | ByPurpose purpose _ =>
      mkTopicPolicy purpose 1
        (match purpose with
         | PurposeCommandRequest | PurposeCommandResult | PurposeEventStream => false
         | _ => true
         end)
  | ForHACommand _ => mkTopicPolicy PurposeHACommand 1 false
  | ForHAStatus => mkTopicPolicy PurposeCoreStatus 1 true
  | ForAI _ _ => mkTopicPolicy PurposeAIObservation 1 false
  | ForDiscovery _ _ => mkTopicPolicy PurposeHADiscovery 1 true
  end.

Ltac split_levels :=
  unfold topic_root, contractMajorVersion; rewrite ?string_app_assoc, ?string_app_cons, ?string_app_nil;
  simpl;
  repeat match goal with
  | |- context [splitTopic (?s +:+ String ?c ?rest)] =>
      change (String c rest) with (String slash rest); rewrite (splitTopic_segment s rest) by done; simpl
  end; rewrite ?splitTopic_plain by done.

Ltac plain_levels :=
  repeat (apply Forall_cons; split); first [assumption | by apply Forall_nil | by apply topic_segment_plain].

Lemma contract_topic_levels r c topic policy :
  topicSegmentPattern (tg_siteID r) = true → contract_topic r c = Some (topic, policy) →
  splitTopic topic = contract_levels (tg_siteID r) c
  ∧ Forall plain (contract_levels (tg_siteID r) c).
Proof.
  intros Hsite%topic_segment_plain Hc.
  assert (∀ s, plain s → free_of slash s) as Hplain by (intros s (_ & ? & _); done).
  pose proof (Hplain _ Hsite) as Hs.
  destruct c as [purpose res|id| |service kind|component objectID]; simpl in Hc.
  - unfold Topic in Hc. destruct (ContainsAny res _); [done|]. simpl in Hc.
    destruct (topicSegmentPattern res) eqn:Hres; [|done]. apply topic_segment_plain in Hres.
    pose proof (Hplain _ Hres) as Hr. simpl in Hc.
    destruct purpose; simplify_eq/=; (split; [split_levels; done|plain_levels]).
  - unfold HACommand in Hc. destruct (topicSegmentPattern id) eqn:Hid; [|done].
    apply topic_segment_plain in Hid. pose proof (Hplain _ Hid). simplify_eq/=.
    split; [split_levels; done|plain_levels].
  - unfold HAStatus in Hc. simplify_eq/=. split; [split_levels; done|plain_levels].
  - unfold AIObservation in Hc. destruct (topicSegmentPattern service) eqn:H1; [|done].
    destruct (topicSegmentPattern kind) eqn:H2; [|done].
    apply topic_segment_plain in H1, H2. pose proof (Hplain _ H1). pose proof (Hplain _ H2). simplify_eq/=.
    split; [split_levels; done|plain_levels].
  - unfold HADiscovery in Hc. destruct (haComponentPattern component) eqn:H1; [|done].
    destruct (topicSegmentPattern objectID) eqn:H2; [|done].
    apply ha_component_plain in H1. apply topic_segment_plain in H2.
    pose proof (Hplain _ H1). pose proof (Hplain _ H2). simplify_eq/=.
    split; [split_levels; done|plain_levels].
Qed.

(** The purposes [Topic] serves. *)
Definition contract_supported (c : contract) : Prop :=
  match c with
  | ByPurpose (PurposeAIObservation | PurposeHADiscovery | PurposeHACommand | PurposeOther _) _ => False
  | _ => True
  end.

Lemma contract_topic_policy r c topic policy :
  contract_topic r c = Some (topic, policy) → policy = contract_policy c ∧ contract_supported c.
Proof.
  destruct c as [purpose res|id| |service kind|component objectID]; simpl;
    unfold Topic, HACommand, HAStatus, AIObservation, HADiscovery; intros Hc;
    simplify_eq/=; try done; repeat (go_case; simplify_eq/=; try done).
Qed.

(** ** Theorems *)

(** For a registry of a valid site, two contracts that yield the same topic
    are the same contract with the same policy: no two purposes or resources
    share a topic, the Home Assistant topics included. *)
Theorem contracts_have_distinct_topics r c1 c2 topic p1 p2 :
  topicSegmentPattern (tg_siteID r) = true →
  contract_topic r c1 = Some (topic, p1) → contract_topic r c2 = Some (topic, p2) →
  contract_id c1 = contract_id c2 ∧ p1 = p2.
Proof.
  intros Hsite H1 H2.
  destruct (contract_topic_levels r c1 topic p1 Hsite H1) as [L1 _].
  destruct (contract_topic_levels r c2 topic p2 Hsite H2) as [L2 _].
  rewrite L1 in L2. clear L1 Hsite.
  apply contract_topic_policy in H1 as [-> S1]. apply contract_topic_policy in H2 as [-> S2].
  destruct c1 as [[] ?|?| |? ?|? ?]; try done; destruct c2 as [[] ?|?| |? ?|? ?]; try done;
    by simplify_eq/=.
Qed.

(** An MQTT topic filter, by levels: [+] stands for one level, a final [#] for
    any number. *)
Fixpoint filter_matches (filter topic : list string) : bool :=
  match filter, topic with
  | [], [] => true
  | [], _ :: _ => false
  | f :: rest, [] => bool_decide (f = "#") && bool_decide (rest = [])
  | f :: rest, t :: topic =>
      bool_decide (f = "#") && bool_decide (rest = [])
      || (bool_decide (f = "+") || bool_decide (f = t)) && filter_matches rest topic
  end.

Lemma filter_levels r purpose filter qos :
  topicSegmentPattern (tg_siteID r) = true → SubscriptionFilter r purpose = (filter, qos, None) →
  splitTopic filter = ["aquaos"; tg_siteID r; "v1"] ++
    match purpose with
    | PurposeCommandRequest => ["commands"; "+"; "request"]
    | PurposeAIObservation => ["ai"; "+"; "observations"; "+"]
    | _ => ["home-assistant"; "+"; "set"]
    end.
Proof.
  intros (_ & Hs & _)%topic_segment_plain Hf. destruct purpose; simplify_eq/=; by split_levels.
Qed.

(** A subscription filter the registry answers matches, by the wildcard rules
    of MQTT, exactly those of the registry's topics whose policy has the
    filter's purpose. *)
Theorem filter_matches_exactly r purpose filter qos c topic policy :
  topicSegmentPattern (tg_siteID r) = true →
  SubscriptionFilter r purpose = (filter, qos, None) → contract_topic r c = Some (topic, policy) →
  filter_matches (splitTopic filter) (splitTopic topic) = true ↔ tp_Purpose policy = purpose.
Proof.
  intros Hsite Hf Hc. rewrite (filter_levels r purpose filter qos Hsite Hf).
  destruct (contract_topic_levels r c topic policy Hsite Hc) as [-> _].
  apply contract_topic_policy in Hc as [-> Hsup].
  destruct purpose; try done; destruct c as [[] ?|?| |? ?|? ?]; try done; simpl;
    rewrite ?(bool_decide_eq_true_2 (tg_siteID r = tg_siteID r)), ?andb_false_r, ?orb_true_r by done;
    simpl; naive_solver.
Qed.

(** The filter of Home Assistant commands is not one the client's check knows. *)
Lemma home_assistant_filter_refused r filter qos :
  topicSegmentPattern (tg_siteID r) = true →
  SubscriptionFilter r PurposeHACommand = (filter, qos, None) → validSubscription r filter = false.
Proof.
  intros Hsite Hf.
  pose proof (filter_levels r PurposeHACommand filter qos Hsite Hf) as Hl.
  unfold validSubscription. destruct (_ || _ || _); [done|].
  assert (containsWildcard filter = true) as ->.
  { simpl in Hf. simplify_eq. unfold containsWildcard.
    rewrite bytes_of_app, existsb_app, orb_true_iff. by right. }
  simpl. rewrite !orb_false_iff, !bool_decide_eq_false.
  split; intros ->; simpl in Hf; simplify_eq; split_levels; done.
Qed.

Lemma free_splitTopic c t : Forall (free_of c) (splitTopic t) → c ≠ slash → free_of c t.
Proof.
  intros Ht Hc. induction t as [|d t IH]; [apply not_elem_of_nil|].
  apply free_of_cons. simpl in Ht. destruct (Ascii.eqb_spec d slash) as [->|Hd].
  - apply Forall_cons in Ht as [_ Ht]. auto.
  - pose proof (splitTopic_nonnil t) as Hnil. destruct (splitTopic t) as [|part parts]; [done|].
    apply Forall_cons in Ht as [[? ?]%free_of_cons Ht]. split; [done|]. apply IH. by constructor.
Qed.

(** What the registry generates the client accepts for publication, as long as
    neither the site nor a resource of a retained topic is called "commands"
    or "events". *)
Lemma contract_publishable r c topic policy :
  topicSegmentPattern (tg_siteID r) = true → contract_topic r c = Some (topic, policy) →
  (tp_Retained policy = true →
     ("commands" ∉ contract_levels (tg_siteID r) c) ∧ ("events" ∉ contract_levels (tg_siteID r) c)) →
  validatePublication topic (tp_QoS policy) (tp_Retained policy) = None.
Proof.
  intros Hsite Hc Hret. destruct (contract_topic_levels r c topic policy Hsite Hc) as [Hl Hplain].
  rewrite <- Hl in Hret, Hplain.
  assert (containsWildcard topic = false) as Hw.
  { assert (free_of "#"%char topic ∧ free_of "+"%char topic) as [H1 H2].
    { split; apply free_splitTopic; try done; eapply Forall_impl; try done; by intros ? (_ & _ & ? & ?). }
    unfold containsWildcard. apply not_true_iff_false. rewrite existsb_exists.
    intros (d & Hin%list_elem_of_In & [->%Ascii.eqb_eq| ->%Ascii.eqb_eq]%orb_true_iff); by contradict Hin. }
  unfold validatePublication. rewrite Hw, orb_false_r.
  case_bool_decide as Hnil.
  { subst topic. by apply Forall_cons in Hplain as [(? & _) _]. }
  assert (tp_QoS policy = 1) as ->.
  { by apply contract_topic_policy in Hc as [-> _]; destruct c. }
  simpl. destruct (tp_Retained policy); [|done]. destruct (Hret eq_refl) as [Hcom Hev].
  unfold containsSegment. by rewrite !bool_decide_eq_false_2.
Qed.
