(* ===== verification/Envelope.v ===== *)
(** * MQTT envelopes: [internal/mqtt/envelope.go]

    The codec with its limits and counters, and the consumer with its bounded
    window of message IDs. The JSON stream decoder is an interface: its first
    [Decode] into a type that rejects unknown fields, and its [Decode] of
    whatever follows, which answers [io.EOF] at the end of the input. A payload
    is a string of bytes. The clock reading of a call, taken at most once, is
    an argument of it. *)

From Stdlib Require Import ZArith Lia String Ascii.
From stdpp Require Import base gmap strings list.
From S2P Require Import Prelude Domain Events Topics.

Definition SchemaVersion : string := "1.0".

Definition ErrOversizedPayload : error := ErrVar "mqtt.ErrOversizedPayload".
Definition ErrUnknownVersion : error := ErrVar "mqtt.ErrUnknownVersion".
Definition ErrExpiredMessage : error := ErrVar "mqtt.ErrExpiredMessage".
Definition ErrDuplicateMessage : error := ErrVar "mqtt.ErrDuplicateMessage".

Record Envelope := mkEnvelope {
  en_SchemaVersion : string;
  en_MessageID : string;
  en_CorrelationID : CorrelationID;
  en_Source : string;
  en_SiteID : string;
  en_OccurredAt : Time;
  en_ExpiresAt : option Time;
  en_Revision : option Revision;
  en_Data : string
}.

Definition zero_Envelope : Envelope := mkEnvelope "" "" "" "" "" 0 None None "".

(** ** The JSON stream decoder *)

(** [Decode] of the first value after [DisallowUnknownFields]: the value and
    the input that follows it. *)
Class FirstDecoder (A : Type) := { decode_first : string → error + (A * string) }.

(** [Decode] of a further value into [any]: nil, or the error. *)
Class ExtraDecoder := { decode_extra : string → option error }.

Definition EOF : error := ErrVar "io.EOF".

Definition ensureEOF `{!ExtraDecoder} (rest : string) : option error :=
  match decode_extra rest with
  | Some err =>
      when errors_Is err "io.EOF" yield None;;
      Some (ErrWrap "decode trailing MQTT data" err)
  | None => Some (ErrNew "MQTT envelope contains trailing JSON")
  end.

(** [strings.Cut] at the first dot. *)
Fixpoint major (version : string) : string :=
  match version with
  | EmptyString => ""
  | String c rest => if Ascii.eqb c "."%char then "" else String c (major rest)
  end.

Definition envelope_cloneTime (value : option Time) : option Time :=
  match value with None => None | Some t => Some (UTC t) end.
Definition cloneRevision (value : option Revision) : option Revision :=
  match value with None => None | Some r => Some r end.

(** ** The codec *)
Record CodecMetrics := mkCodecMetrics {
  cm_Decoded : Z;
  cm_Malformed : Z;
  cm_Oversized : Z;
  cm_Expired : Z;
  cm_UnknownVersion : Z;
  cm_Duplicates : Z
}.

Record Codec := mkCodec {
  cd_siteID : string;
  cd_maximumPayload : Z;
  cd_counters : CodecMetrics
}.

(** [atomic.Uint64.Add(1)] on each counter. *)
Inductive counter := Decoded | Malformed | Oversized | Expired | UnknownVersion | Duplicates.

Definition count (k : counter) (c : Codec) : Codec :=
  let '(mkCodecMetrics d m o e u p) := cd_counters c in
  mkCodec (cd_siteID c) (cd_maximumPayload c)
    match k with
    | Decoded => mkCodecMetrics (wrap_uint64 (d + 1)) m o e u p
    | Malformed => mkCodecMetrics d (wrap_uint64 (m + 1)) o e u p
    | Oversized => mkCodecMetrics d m (wrap_uint64 (o + 1)) e u p
    | Expired => mkCodecMetrics d m o (wrap_uint64 (e + 1)) u p
    | UnknownVersion => mkCodecMetrics d m o e (wrap_uint64 (u + 1)) p
    | Duplicates => mkCodecMetrics d m o e u (wrap_uint64 (p + 1))
    end.

Definition NewCodec (siteID : string) (maximumPayload : Z) (hasClock : bool) : Codec + error :=
  when negb (topicSegmentPattern siteID) yield
    inr (ErrNew "codec site ID must be lowercase kebab-case");;
  when (maximumPayload <? 256) || (16 * 1024 * 1024 <? maximumPayload) yield
    inr (ErrNew "MQTT maximum payload must be between 256 bytes and 16 MiB");;
  when negb hasClock yield inr (ErrNew "codec clock is required");;
  inl (mkCodec siteID maximumPayload (mkCodecMetrics 0 0 0 0 0 0)).

Definition Codec_Metrics (c : Codec) : CodecMetrics := cd_counters c.

Definition payload_length (payload : string) : Z := Z.of_nat (String.length payload).

Section codec.
Context `{!JSON, !Marshaler Envelope, !FirstDecoder Envelope, !ExtraDecoder}.

Definition Codec_validate (now : Time) (c : Codec) (envelope : Envelope) : option error :=
  when bool_decide (en_SchemaVersion envelope = "") || bool_decide (en_MessageID envelope = "")
       || (64 <? payload_length (en_MessageID envelope)) || bool_decide (en_Source envelope = "")
       || negb (bool_decide (en_SiteID envelope = cd_siteID c)) || IsZero (en_OccurredAt envelope) yield
    Some (ErrNew "MQTT envelope has invalid required fields");;
  iferr validateUUID (en_CorrelationID envelope) as err yield Some (ErrWrap "MQTT correlation ID" err);;
  when negb (json_Valid (en_Data envelope)) yield
    Some (ErrNew "MQTT envelope data must be valid JSON");;
  match en_ExpiresAt envelope with
  | Some expires => if negb (Before (UTC now) expires) then Some ErrExpiredMessage else None
  | None => None
  end.

Definition Encode {A} `{!Marshaler A} (now : Time) (c : Codec) (messageID source : string)
    (correlationID : CorrelationID) (occurredAt : Time) (expiresAt : option Time)
    (revision : option Revision) (data : A) : error + string :=
  match json_Marshal data with
  | inl err => inl (ErrWrap "encode MQTT data" err)
  | inr encoded =>
      let envelope := mkEnvelope SchemaVersion messageID correlationID source (cd_siteID c)
        (UTC occurredAt) (envelope_cloneTime expiresAt) (cloneRevision revision) encoded in
      iferr Codec_validate now c envelope as err yield inl err;;
      match json_Marshal envelope with
      | inl err => inl err
      | inr payload =>
          when cd_maximumPayload c <? payload_length payload yield inl ErrOversizedPayload;;
          inr payload
      end
  end.

Definition Decode (now : Time) (payload : string) (c : Codec) : (Envelope * option error) * Codec :=
  when cd_maximumPayload c <? payload_length payload yield
    ((zero_Envelope, Some ErrOversizedPayload), count Oversized c);;
  match decode_first payload with
  | inl err => ((zero_Envelope, Some (ErrWrap "decode MQTT envelope" err)), count Malformed c)
  | inr (envelope, rest) =>
      iferr ensureEOF rest as err yield ((zero_Envelope, Some err), count Malformed c);;
      when negb (bool_decide (major (en_SchemaVersion envelope) = major SchemaVersion)) yield
        ((zero_Envelope, Some ErrUnknownVersion), count UnknownVersion c);;
      iferr Codec_validate now c envelope as err yield
        ((zero_Envelope, Some err),
         if errors_Is err "mqtt.ErrExpiredMessage" then count Expired c else count Malformed c);;
      ((envelope, None), count Decoded c)
  end.

(** ** The consumer *)
Record Consumer := mkConsumer {
  cs_codec : Codec;
  cs_capacity : Z;
  cs_seen : gset string;
  cs_order : list string
}.

Definition NewConsumer (codec : option Codec) (capacity : Z) : Consumer + error :=
  match codec with
  | None => inr (ErrNew "MQTT codec is required")
  | Some codec =>
      when (capacity <? 1) || (1000000 <? capacity) yield
        inr (ErrNew "MQTT idempotency capacity must be between 1 and 1000000");;
      inl (mkConsumer codec capacity ∅ [])
  end.

Definition set_codec (codec : Codec) (c : Consumer) : Consumer :=
  mkConsumer codec (cs_capacity c) (cs_seen c) (cs_order c).

(** The first critical section: reserve the ID and evict the oldest, or
    [None] when it is reserved already. *)
Definition reserve (id : string) (c : Consumer) : option Consumer :=
  if bool_decide (id ∈ cs_seen c) then None
  else
    let seen := cs_seen c ∪ {[id]} in
    let order := cs_order c ++ [id] in
    Some (match order with
          | oldest :: rest =>
              if cs_capacity c <? Z.of_nat (length order) then
                mkConsumer (cs_codec c) (cs_capacity c) (seen ∖ {[oldest]}) rest
              else mkConsumer (cs_codec c) (cs_capacity c) seen order
          | [] => mkConsumer (cs_codec c) (cs_capacity c) seen order
          end).

(** The loop that removes the first occurrence of an ID. *)
Fixpoint remove_first (id : string) (order : list string) : list string :=
  match order with
  | [] => []
  | x :: rest => if bool_decide (x = id) then rest else x :: remove_first id rest
  end.

(** The second critical section, after a handler failed. *)
Definition release (id : string) (c : Consumer) : Consumer :=
  mkConsumer (cs_codec c) (cs_capacity c) (cs_seen c ∖ {[id]}) (remove_first id (cs_order c)).

(** [Consume] up to the call of the handler, which runs without the lock, and
    from its return on. *)
Definition Consume_begin (now : Time) (payload : string) (c : Consumer) : (error + Envelope) * Consumer :=
  let '((envelope, err), codec) := Decode now payload (cs_codec c) in
  let c := set_codec codec c in
  iferr err as err yield (inl err, c);;
  match reserve (en_MessageID envelope) c with
  | None => (inl ErrDuplicateMessage, set_codec (count Duplicates (cs_codec c)) c)
  | Some c => (inr envelope, c)
  end.
Definition Consume_end (envelope : Envelope) (err : option error) (c : Consumer) : Consumer :=
  match err with Some _ => release (en_MessageID envelope) c | None => c end.

Definition Consume {T} (now : Time) (payload : string) (handler : option (Envelope → T → option error * T))
    (c : Consumer) (h : T) : option error * (Consumer * T) :=
  match handler with
  | None => (Some (ErrNew "MQTT consumer handler is required"), (c, h))
  | Some handler =>
      match Consume_begin now payload c with
      | (inl err, c) => (Some err, (c, h))
      | (inr envelope, c) => let '(err, h) := handler envelope h in (err, (Consume_end envelope err c, h))
      end
  end.
End codec.

(** ** Theorems: the codec *)
Section codec_theorems.
Context `{!JSON, !Marshaler Envelope, !FirstDecoder Envelope, !ExtraDecoder}.

(** The envelopes a codec accepts at a time. *)
Record acceptable (now : Time) (c : Codec) (e : Envelope) : Prop := {
  ac_version : en_SchemaVersion e ≠ "";
  ac_message : en_MessageID e ≠ "" ∧ (String.length (en_MessageID e) ≤ 64)%nat;
  ac_source : en_Source e ≠ "";
  ac_site : en_SiteID e = cd_siteID c;
  ac_occurred : en_OccurredAt e ≠ 0;
  ac_correlation : validateUUID (en_CorrelationID e) = None;
  ac_data : json_Valid (en_Data e) = true;
  ac_fresh : ∀ t, en_ExpiresAt e = Some t → now < t
}.

Lemma Codec_validate_spec now c e : Codec_validate now c e = None ↔ acceptable now c e.
Proof.
  unfold Codec_validate, payload_length, Before, UTC, IsZero. split.
  - intros Hv. destruct (_ || _) eqn:Hreq; [done|]. go_bool. destruct_and!.
    destruct (validateUUID _) eqn:Hu; [done|]. destruct (json_Valid _) eqn:Hj; [|done]. simpl in Hv.
    split; try done; [split; [done|lia]|]. intros t Ht. rewrite Ht in Hv.
    destruct (Z.ltb_spec now t); [done|done].
  - intros [? [? ?] ? ? ? -> -> Hf].
    assert (∀ b1 b2 b3 b4 b5 b6 : bool, b1 = false → b2 = false → b3 = false → b4 = false → b5 = false →
      b6 = false → b1 || b2 || b3 || b4 || b5 || b6 = false) as Hor by by intros ?????? -> -> -> -> -> ->.
    rewrite Hor; [|go_bool; first [done|lia]..]. simpl.
    destruct (en_ExpiresAt e) as [t|]; [|done]. specialize (Hf t eq_refl).
    by destruct (Z.ltb_spec now t); [|lia].
Qed.

(** What a successful decoding answers. *)
Lemma Decode_accepted now payload c e c' :
  Decode now payload c = ((e, None), c') →
  c' = count Decoded c ∧ acceptable now c e ∧ payload_length payload ≤ cd_maximumPayload c
  ∧ major (en_SchemaVersion e) = major SchemaVersion
  ∧ ∃ rest, decode_first payload = inr (e, rest) ∧ ensureEOF rest = None.
Proof.
  unfold Decode. destruct (Z.ltb_spec (cd_maximumPayload c) (payload_length payload)); [done|].
  destruct (decode_first payload) as [err|[e' rest]] eqn:Hd; [done|].
  destruct (ensureEOF rest) eqn:He; [done|]. case_bool_decide; [|done]. simpl.
  destruct (Codec_validate now c e') eqn:Hv; [done|]. intros [= -> <-].
  apply Codec_validate_spec in Hv. split_and!; eauto.
Qed.

(** A refused payload answers the zero envelope and counts exactly one
    failure. *)
Lemma Decode_refused now payload c e err c' :
  Decode now payload c = ((e, Some err), c') →
  e = zero_Envelope ∧ ∃ k, k ≠ Decoded ∧ k ≠ Duplicates ∧ c' = count k c.
Proof.
  unfold Decode. intros Hd. split; repeat (go_case; simplify_eq/=; try done);
    first [by exists Oversized | by exists Malformed | by exists Expired | by exists UnknownVersion].
Qed.

(** Where encoding/json reads back what it wrote, a payload that [Encode]
    answers is decoded, at any time before its expiry, to the very envelope
    that was encoded, and counted as decoded. *)
Theorem Encode_Decode_roundtrip {A} `{!Marshaler A} now later c messageID source correlationID occurredAt
    expiresAt revision (data : A) encoded payload :
  json_Marshal data = inr encoded →
  let envelope := mkEnvelope SchemaVersion messageID correlationID source (cd_siteID c) occurredAt
                    expiresAt revision encoded in
  (∀ text, json_Marshal envelope = inr text → decode_first text = inr (envelope, "")) →
  decode_extra "" = Some EOF →
  Encode now c messageID source correlationID occurredAt expiresAt revision data = inr payload →
  (∀ t, expiresAt = Some t → later < t) →
  Decode later payload c = ((envelope, None), count Decoded c).
Proof.
  intros Hm envelope Hlaw Heof Henc Hlater. unfold Encode in Henc. rewrite Hm in Henc.
  assert (envelope_cloneTime expiresAt = expiresAt) as Ht by by destruct expiresAt.
  assert (cloneRevision revision = revision) as Hr by by destruct revision.
  unfold UTC in Henc. rewrite Ht, Hr in Henc. change (mkEnvelope _ _ _ _ _ _ _ _ _) with envelope in Henc.
  destruct (Codec_validate now c envelope) eqn:Hv; [done|].
  destruct (json_Marshal envelope) as [err|text] eqn:Hj; [done|].
  destruct (Z.ltb_spec (cd_maximumPayload c) (payload_length text)); simplify_eq.
  unfold Decode. destruct (Z.ltb_spec (cd_maximumPayload c) (payload_length payload)); [lia|].
  rewrite (Hlaw payload eq_refl). unfold ensureEOF. rewrite Heof. simpl.
  assert (Codec_validate later c envelope = None) as ->; [|done].
  apply Codec_validate_spec in Hv as []. by apply Codec_validate_spec; split.
Qed.
End codec_theorems.

(** ** Theorems: the window of message IDs *)
Record consumer_ok (c : Consumer) : Prop := {
  ck_nodup : NoDup (cs_order c);
  ck_seen : ∀ id, id ∈ cs_seen c ↔ id ∈ cs_order c;
  ck_bound : Z.of_nat (length (cs_order c)) ≤ cs_capacity c;
  ck_capacity : 1 ≤ cs_capacity c
}.

Lemma NewConsumer_ok codec capacity c : NewConsumer codec capacity = inl c → consumer_ok c.
Proof.
  unfold NewConsumer. destruct codec; [|done]. destruct (_ || _) eqn:Hb; [done|]. intros [= <-]. go_bool.
  split; simpl; [constructor|set_solver|lia|lia].
Qed.

Lemma set_codec_ok codec c : consumer_ok c → consumer_ok (set_codec codec c).
Proof. by intros []; split. Qed.

Lemma reserve_spec id c c' :
  consumer_ok c → reserve id c = Some c' →
  (id ∉ cs_order c) ∧ cs_codec c' = cs_codec c ∧ cs_capacity c' = cs_capacity c ∧ consumer_ok c'
  ∧ (cs_order c' = cs_order c ++ [id] ∧ Z.of_nat (length (cs_order c)) < cs_capacity c
     ∨ ∃ oldest rest, cs_order c = oldest :: rest ∧ cs_order c' = rest ++ [id]
         ∧ Z.of_nat (length (cs_order c)) = cs_capacity c).
Proof.
  intros [Hnd Hs Hb Hc] Hr. unfold reserve in Hr. case_bool_decide as Hin; [done|]. rewrite Hs in Hin.
  assert (NoDup (cs_order c ++ [id])) as Hnd'.
  { apply NoDup_app. split_and!; [done|set_solver|apply NoDup_singleton]. }
  split; [done|]. destruct (cs_order c) as [|oldest rest] eqn:Ho; simpl in Hr, Hnd'.
  - destruct (Z.ltb_spec (cs_capacity c) (Z.of_nat 1)); [lia|]. simplify_eq/=. split_and!; try done.
    + split; simpl; [done|set_solver|lia|lia].
    + left. simpl. split; [done|lia].
  - rewrite length_app in Hr. simpl in *.
    destruct (Z.ltb_spec (cs_capacity c) (Z.of_nat (S (length rest + 1)))); simplify_eq/=.
    + apply NoDup_cons in Hnd' as [Hold Hnd']. split_and!; try done.
      * split; simpl; [done|set_solver|rewrite length_app; simpl; lia|done].
      * right. exists oldest, rest. split_and!; try done; lia.
    + split_and!; try done.
      * split; simpl; [done|set_solver|rewrite length_app; simpl; lia|done].
      * left. split; [done|lia].
Qed.

Lemma remove_first_sublist id l : remove_first id l `sublist_of` l.
Proof.
  induction l as [|x l IH]; simpl; [done|]. case_bool_decide; [by apply sublist_cons|by apply sublist_skip].
Qed.

Lemma elem_of_remove_first id x l : NoDup l → x ∈ remove_first id l ↔ x ∈ l ∧ x ≠ id.
Proof.
  induction 1 as [|y l Hy Hnd IH]; simpl; [set_solver|]. case_bool_decide as Heq; set_solver.
Qed.

Lemma remove_first_keeps x id l1 l2 :
  id ≠ x → ∃ k1 k2, remove_first x (l1 ++ id :: l2) = k1 ++ id :: k2 ∧ (length k2 ≤ length l2)%nat.
Proof.
  intros Hne. induction l1 as [|y l1 (k1 & k2 & Hk & Hl)]; simpl; case_bool_decide as Heq; [done| | |].
  - exists [], (remove_first x l2). split; [done|]. apply (sublist_length _ _ (remove_first_sublist x l2)).
  - by exists l1, l2.
  - rewrite Hk. by exists (y :: k1), k2.
Qed.

Lemma release_ok id c : consumer_ok c → consumer_ok (release id c).
Proof.
  intros [Hnd Hs Hb Hc]. pose proof (remove_first_sublist id (cs_order c)) as Hsub. split; simpl.
  - by eapply sublist_NoDup.
  - intros x. rewrite elem_of_remove_first by done. set_solver.
  - apply sublist_length in Hsub. lia.
  - done.
Qed.

Section window.
Context `{!JSON, !Marshaler Envelope, !FirstDecoder Envelope, !ExtraDecoder}.
Context {T : Type}.

Abbreviation handler := (Envelope → T → option error * T).

(** The outcomes of a delivery: refused by the codec, suppressed, failed by
    the handler or handled. *)
Lemma Consume_cases now payload (f : handler) c h :
  consumer_ok c →
  let '(err, (c', h')) := Consume now payload (Some f) c h in
  let '((e, derr), codec) := Decode now payload (cs_codec c) in
  consumer_ok c' ∧ cs_capacity c' = cs_capacity c
  ∧ match derr with
    | Some _ => err = derr ∧ h' = h ∧ cs_order c' = cs_order c
    | None =>
        if decide (en_MessageID e ∈ cs_order c) then
          err = Some ErrDuplicateMessage ∧ h' = h ∧ cs_order c' = cs_order c
        else
          (err, h') = f e h ∧ ∃ c1, reserve (en_MessageID e) (set_codec codec c) = Some c1
            ∧ c' = (if decide (err = None) then c1 else release (en_MessageID e) c1)
    end.
Proof.
  intros Hok. unfold Consume, Consume_begin. destruct (Decode now payload (cs_codec c)) as [[e derr] codec].
  destruct derr as [derr|]; [split; [by apply set_codec_ok|done]|].
  pose proof (set_codec_ok codec c Hok) as Hok'.
  destruct (reserve (en_MessageID e) (set_codec codec c)) as [c1|] eqn:Hr.
  - destruct (reserve_spec _ _ _ Hok' Hr) as (Hin & _ & Hcap & Hok1 & _). simpl in Hin, Hcap.
    destruct (f e h) as [[err|] h']; rewrite (decide_False (P:=_ ∈ cs_order c)) by done.
    + split_and!; [by apply release_ok|done|done|]. exists c1. by rewrite decide_False.
    + split_and!; [done..|]. exists c1. by rewrite decide_True.
  - unfold reserve in Hr. case_bool_decide as Hin; [|done]. simpl in Hin.
    apply (ck_seen c Hok) in Hin. rewrite decide_True by done.
    split_and!; try done. by apply set_codec_ok, set_codec_ok.
Qed.

(** A run of deliveries, each with its clock reading and handler; the IDs of
    the messages that were handled, in order. *)
Fixpoint consume_run (ds : list (Time * string * handler)) (c : Consumer) (h : T) : list string :=
  match ds with
  | [] => []
  | (now, payload, f) :: ds =>
      let '(err, (c', h')) := Consume now payload (Some f) c h in
      (if decide (err = None) then [en_MessageID (Decode now payload (cs_codec c)).1.1] else [])
        ++ consume_run ds c' h'
  end.

(** An ID with [l2] younger ones stays in the window for one more delivery. *)
Lemma Consume_keeps now payload (f : handler) c h id l1 l2 :
  consumer_ok c → cs_order c = l1 ++ id :: l2 → Z.of_nat (length l2) + 1 < cs_capacity c →
  ∃ l1' l2', cs_order (Consume now payload (Some f) c h).2.1 = l1' ++ id :: l2'
    ∧ (length l2' ≤ S (length l2))%nat.
Proof.
  intros Hok Ho Hlen. pose proof (Consume_cases now payload f c h Hok) as Hc.
  destruct (Consume now payload (Some f) c h) as [err [c' h']].
  destruct (Decode now payload (cs_codec c)) as [[e derr] codec]. simpl.
  destruct Hc as (_ & _ & Hc). destruct derr; [exists l1, l2; destruct Hc as (_ & _ & ->); auto|].
  case_decide as Hin; [exists l1, l2; destruct Hc as (_ & _ & ->); auto|].
  destruct Hc as (_ & c1 & Hr & Hc').
  destruct (reserve_spec _ _ _ (set_codec_ok codec c Hok) Hr) as (_ & _ & _ & Hok1 & Hord).
  simpl in Hord.
  assert (∃ l1', cs_order c1 = l1' ++ id :: l2 ++ [en_MessageID e]) as [l1' Ho1].
  { destruct Hord as [[-> _]|(oldest & rest & Hold & -> & Hfull)].
    - exists l1. rewrite Ho, <- app_assoc. done.
    - rewrite Ho in Hold. destruct l1 as [|x l1]; simplify_eq/=; [rewrite Ho in Hfull; simpl in Hfull; lia|].
      exists l1. by rewrite <- app_assoc. }
  destruct (decide (err = None)); subst c'.
  - exists l1', (l2 ++ [en_MessageID e]). rewrite length_app. simpl. split; [done|lia].
  - simpl. rewrite Ho1 in *.
    assert (id ≠ en_MessageID e) as Hne. { rewrite Ho in Hin. set_solver. }
    destruct (remove_first_keeps (en_MessageID e) id l1' (l2 ++ [en_MessageID e]) Hne) as (k1 & k2 & -> & Hl).
    exists k1, k2. rewrite length_app in Hl. simpl in Hl. split; [done|lia].
Qed.

Lemma window_run ds c h :
  consumer_ok c → Z.of_nat (length ds) ≤ cs_capacity c →
  NoDup (consume_run ds c h)
  ∧ ∀ id l1 l2, cs_order c = l1 ++ id :: l2 → Z.of_nat (length l2 + length ds) < cs_capacity c →
      id ∉ consume_run ds c h.
Proof.
  revert c h. induction ds as [|[[now payload] f] ds IH]; intros c h Hok Hlen;
    [split; [constructor|set_solver]|].
  cbn [consume_run length] in *. pose proof (Consume_cases now payload f c h Hok) as Hc.
  pose proof (Consume_keeps now payload f c h) as Hkeep.
  destruct (Consume now payload (Some f) c h) as [err [c' h']].
  destruct (Decode now payload (cs_codec c)) as [[e derr] codec].
  destruct Hc as (Hok' & Hcap & Hc). cbn [fst snd] in *.
  destruct (IH c' h' Hok' ltac:(lia)) as [Hnd Hout].
  assert (err = None → ∃ l, cs_order c' = l ++ [en_MessageID e] ∧ (en_MessageID e ∉ cs_order c)) as Hlast.
  { intros ->. destruct derr; [by destruct Hc|]. case_decide as Hin; [by destruct Hc|].
    destruct Hc as (_ & c1 & Hr & ->). rewrite decide_True by done.
    destruct (reserve_spec _ _ _ (set_codec_ok codec c Hok) Hr) as (_ & _ & _ & _ & [[-> _]|(?&?&_&->&_)]); eauto. }
  split.
  - destruct (decide (err = None)) as [->|]; [|done]. simpl.
    destruct (Hlast eq_refl) as (l & Hl & _). constructor; [|done]. apply (Hout _ l []); [done|simpl; lia].
  - intros id l1 l2 Ho Hb. destruct (Hkeep id l1 l2 Hok Ho ltac:(lia)) as (l1' & l2' & Ho' & Hl').
    apply not_elem_of_app. split; [|apply (Hout id l1' l2' Ho'); lia].
    destruct (decide (err = None)) as [->|]; [|set_solver]. destruct (Hlast eq_refl) as (_ & _ & Hni).
    rewrite Ho in Hni. set_solver.
Qed.

(** Over any run of deliveries no longer than the capacity of the consumer's
    window, the message IDs whose handler was run and succeeded are pairwise
    distinct. *)
Theorem duplicates_suppressed_within_window ds c h :
  consumer_ok c → Z.of_nat (length ds) ≤ cs_capacity c → NoDup (consume_run ds c h).
Proof. intros Hok Hlen. by apply window_run. Qed.
End window.

(** ** Deliveries at once *)

(** A message is handed to its handler, or its handling fails. *)
Inductive Handling := Handed (id : string) | Failed (id : string).
#[export] Instance Handling_eq_dec : EqDecision Handling.
Proof. solve_decision. Defined.


Section inbox.
Context `{!JSON, !Marshaler Envelope, !FirstDecoder Envelope, !ExtraDecoder}.

(** The consumer, the messages whose handlers run, and what happened so far. *)
Record Inbox := mkInbox { ib_consumer : Consumer; ib_handling : list Envelope; ib_log : list Handling }.

Inductive inbox_step (y : Inbox) : Inbox → Prop :=
| is_refused now payload err c :
    Consume_begin now payload (ib_consumer y) = (inl err, c) → inbox_step y (mkInbox c (ib_handling y) (ib_log y))
| is_handed now payload e c :
    Consume_begin now payload (ib_consumer y) = (inr e, c) →
    inbox_step y (mkInbox c (ib_handling y ++ [e]) (ib_log y ++ [Handed (en_MessageID e)]))
| is_returned before e after err :
    ib_handling y = before ++ e :: after →
    inbox_step y (mkInbox (Consume_end e err (ib_consumer y)) (before ++ after)
      (ib_log y ++ match err with Some _ => [Failed (en_MessageID e)] | None => [] end)).

Definition handed (l : list Handling) : nat :=
  length (omap (fun h => match h with Handed id => Some id | Failed _ => None end) l).

Lemma handed_snoc l h : handed (l ++ [h]) = (handed l + match h with Handed _ => 1 | Failed _ => 0 end)%nat.
Proof. unfold handed. rewrite omap_app, length_app. by destruct h. Qed.

(** An ID that was handed out and has not failed since is still in the window,
    unless the window has been filled since. *)
Record inbox_ok (capacity : Z) (y : Inbox) : Prop := {
  io_consumer : consumer_ok (ib_consumer y);
  io_capacity : cs_capacity (ib_consumer y) = capacity;
  io_window l1 id l2 :
    ib_log y = l1 ++ Handed id :: l2 → Failed id ∉ l2 → Z.of_nat (handed l2) < capacity →
    ∃ o1 o2, cs_order (ib_consumer y) = o1 ++ id :: o2 ∧ (length o2 ≤ handed l2)%nat;
  io_apart l1 id l2 l3 :
    ib_log y = l1 ++ Handed id :: l2 ++ Handed id :: l3 → Failed id ∈ l2 ∨ capacity ≤ Z.of_nat (handed l2)
}.

Lemma snoc_split {A} (l : list A) x l1 y l2 :
  l ++ [x] = l1 ++ y :: l2 → (l2 = [] ∧ l = l1 ∧ x = y) ∨ ∃ k, l2 = k ++ [x] ∧ l = l1 ++ y :: k.
Proof.
  destruct l2 as [|z l2 _] using rev_ind.
  - intros [-> [= ->]]%app_inj_2; [by left|done].
  - rewrite app_comm_cons, app_assoc. intros [-> [= ->]]%app_inj_2; [|done]. right. by exists l2.
Qed.

Lemma Consume_begin_refused now payload c err c' :
  Consume_begin now payload c = (inl err, c') → consumer_ok c →
  consumer_ok c' ∧ cs_capacity c' = cs_capacity c ∧ cs_order c' = cs_order c.
Proof.
  unfold Consume_begin. destruct (Decode _ _ _) as [[e derr] codec]. intros Hb Hok.
  destruct derr; [simplify_eq; split_and!; [by apply set_codec_ok|done|done]|].
  destruct (reserve _ _); simplify_eq. split_and!; [by apply set_codec_ok, set_codec_ok|done|done].
Qed.
Lemma Consume_begin_handed now payload c e c' :
  Consume_begin now payload c = (inr e, c') → consumer_ok c →
  (en_MessageID e ∉ cs_order c) ∧ cs_capacity c' = cs_capacity c ∧ consumer_ok c'
  ∧ (cs_order c' = cs_order c ++ [en_MessageID e]
     ∨ ∃ oldest rest, cs_order c = oldest :: rest ∧ cs_order c' = rest ++ [en_MessageID e]
         ∧ Z.of_nat (length (cs_order c)) = cs_capacity c).
Proof.
  unfold Consume_begin. destruct (Decode _ _ _) as [[e' derr] codec]. intros Hb Hok. destruct derr; [done|].
  destruct (reserve _ _) as [c1|] eqn:Hr; simplify_eq.
  destruct (reserve_spec _ _ _ (set_codec_ok codec c Hok) Hr) as (? & _ & ? & ? & Ho). split_and!; try done. naive_solver.
Qed.

Lemma handed_ok capacity y now payload e c :
  Consume_begin now payload (ib_consumer y) = (inr e, c) → inbox_ok capacity y →
  inbox_ok capacity (mkInbox c (ib_handling y ++ [e]) (ib_log y ++ [Handed (en_MessageID e)])).
Proof.
  intros Hb [Hok Hcap Hwin Hapart]. destruct (Consume_begin_handed _ _ _ _ _ Hb Hok) as (Hnew & Hc & Hok' & Ho).
  split; cbn; [done|congruence|..].
  - intros l1 id l2 [(-> & <- & [= <-])|(k & -> & Hl)]%snoc_split Hf Hlt.
    + destruct Ho as [->|(oldest & rest & _ & -> & _)]; eexists _, []; split; [done|cbn; lia|done|cbn; lia].
    + rewrite handed_snoc in Hlt. destruct (Hwin l1 id k) as (o1 & o2 & Horder & Hlen); [done|set_solver|lia|].
      rewrite handed_snoc. destruct Ho as [->|(oldest & rest & Hold & -> & Hfull)].
      * exists o1, (o2 ++ [en_MessageID e]). rewrite Horder, length_app, <- app_assoc. cbn. split; [done|lia].
      * rewrite Horder in Hold, Hfull. destruct o1 as [|x o1]; [cbn in Hfull; lia|]. injection Hold as _ <-.
        exists o1, (o2 ++ [en_MessageID e]). rewrite length_app, <- app_assoc. cbn. split; [done|lia].
  - intros l1 id l2 l3 Hl. rewrite app_comm_cons, app_assoc in Hl.
    apply snoc_split in Hl as [(-> & Hl & [= <-])|(k & -> & Hl)].
    + destruct (decide (Failed (en_MessageID e) ∈ l2)) as [|Hf]; [by left|]. right. apply Z.le_ngt. intros Hlt.
      destruct (Hwin l1 (en_MessageID e) l2) as (o1 & o2 & Horder & _); [done..|]. apply Hnew. rewrite Horder. set_solver.
    + apply (Hapart l1 id l2 k). by rewrite Hl, <- app_assoc.
Qed.

Lemma failed_ok capacity y before e after err :
  ib_handling y = before ++ e :: after → inbox_ok capacity y →
  inbox_ok capacity (mkInbox (Consume_end e (Some err) (ib_consumer y)) (before ++ after)
    (ib_log y ++ [Failed (en_MessageID e)])).
Proof.
  intros _ [Hok Hcap Hwin Hapart]. split; cbn; [by apply release_ok|done|..].
  - intros l1 id l2 [(_ & _ & [=])|(k & -> & Hl)]%snoc_split Hf Hlt. rewrite handed_snoc in *.
    destruct (Hwin l1 id k) as (o1 & o2 & -> & Hlen); [done|set_solver|lia|].
    destruct (remove_first_keeps (en_MessageID e) id o1 o2) as (k1 & k2 & -> & ?); [set_solver|].
    exists k1, k2. split; [done|lia].
  - intros l1 id l2 l3 Hl. rewrite app_comm_cons, app_assoc in Hl.
    apply snoc_split in Hl as [(_ & _ & [=])|(k & -> & Hl)]. apply (Hapart l1 id l2 k). by rewrite Hl, <- app_assoc.
Qed.

Lemma inbox_step_ok capacity y y' : inbox_step y y' → inbox_ok capacity y → inbox_ok capacity y'.
Proof.
  intros Hstep Hy. destruct Hstep as [now payload err c Hb|now payload e c Hb|before e after [err|] Ha].
  - destruct Hy as [Hok Hcap Hwin Hapart]. destruct (Consume_begin_refused _ _ _ _ _ Hb Hok) as (? & Hc & Ho).
    split; cbn; [done|congruence|by rewrite Ho|done].
  - by eapply handed_ok.
  - by apply failed_ok.
  - rewrite app_nil_r. by destruct Hy.
Qed.

(** C11: however deliveries of messages interleave, with the lock of the
    duplicate window released while their handlers run: a message ID is handed
    to a handler again only after a handling of it has failed, or after at
    least as many other hand-outs as the window holds; and the window stays
    within its capacity. *)
Theorem redeliveries_are_separated codec capacity consumer y :
  NewConsumer (Some codec) capacity = inl consumer →
  rtc inbox_step (mkInbox consumer [] []) y →
  (∀ l1 id l2 l3, ib_log y = l1 ++ Handed id :: l2 ++ Handed id :: l3 →
     Failed id ∈ l2 ∨ capacity ≤ Z.of_nat (handed l2))
  ∧ Z.of_nat (length (cs_order (ib_consumer y))) ≤ capacity.
Proof.
  intros Hc Hr. assert (inbox_ok capacity y) as [Hok Hcap _ Hapart].
  { eapply rtc_invariant; [intros a b; apply inbox_step_ok| |exact Hr]. pose proof (NewConsumer_ok _ _ _ Hc) as Hok.
    split; cbn; [done| |by intros []..]. cbn in Hc. destruct (_ || _); by simplify_eq. }
  split; [done|]. rewrite <- Hcap. apply Hok.
Qed.
End inbox.
