(* ===== verification/MqttClient.v ===== *)
(** * The MQTT client: [internal/mqtt/client.go]

    Publication, the bounded offline queue, subscriptions and what a connection
    restores. The broker library is an interface; the outcome of waiting for
    one of its tokens, the broker's error, the context's or the timeout, is
    part of the answer of the call. Readings of the clock and of the
    correlation ID generator come from oracles indexed by the number of
    readings taken ([cl_tick]). *)

From Stdlib Require Import ZArith Lia String.
From stdpp Require Import base gmap strings pretty list.
From S2P Require Import Prelude Domain Health Events Topics Envelope.

Class Broker (K : Type) := {
  IsConnected : K → bool;
  broker_Connect : Context → K → option error * K;
  broker_Disconnect : K → K;
  broker_Publish : Context → string → Z → bool → string → K → option error * K;
  broker_Subscribe : Context → string → Z → nat → K → option error * K
}.

Definition ErrDisconnected : error := ErrVar "mqtt.ErrDisconnected".
Definition ErrMqttQueueFull : error := ErrVar "mqtt.ErrQueueFull".

Record Publication := mkPublication {
  pb_Topic : string;
  pb_QoS : Z;
  pb_Retained : bool;
  pb_Payload : string;
  pb_ExpiresAt : option Time
}.

Record TransportMetrics := mkTransportMetrics {
  tm_Connects : Z;
  tm_Reconnects : Z;
  tm_Published : Z;
  tm_Received : Z;
  tm_DecodeErrors : Z;
  tm_DroppedExpired : Z;
  tm_QueueRejected : Z
}.

(** A recorded subscription: its quality of service and the address of its
    handler. *)
Record mqtt_subscription := mkMqttSubscription { sub_qos : Z; sub_handler : nat }.

(** [time.Time.UnixNano]: nanoseconds since 1970, which is 62135596800 seconds
    after Go's zero time. *)
Definition UnixNano (t : Time) : Z := wrap_int64 (t - 62135596800 * 10 ^ 9).

Section client.
Context {K : Type} `{!Broker K}.
Context `{!JSON, !Marshaler Envelope, !Marshaler (gmap string string)}.
Context (now : nat → Time).
Context (newCorrelation : nat → CorrelationID * option error).
(** The installed reconciliation hooks, by address. *)
Context (reconciler : nat → Context → K → option error * K).

Record Client := mkClient {
  cl_client : K;
  cl_registry : TopicRegistry;
  cl_codec : Codec;
  cl_MaximumPayload : Z;
  cl_QueueCapacity : Z;
  cl_lastErr : option error;
  cl_subscriptions : gmap string mqtt_subscription;
  cl_queue : list Publication;
  cl_reconcile : option nat;
  cl_running : bool;
  cl_connects : Z;
  cl_reconnects : Z;
  cl_published : Z;
  cl_received : Z;
  cl_droppedExpired : Z;
  cl_queueRejected : Z;
  cl_tick : nat
}.

Definition newClient (broker : K) (registry : TopicRegistry) (codec : Codec)
    (maximumPayload queueCapacity : Z) : Client :=
  mkClient broker registry codec maximumPayload queueCapacity None ∅ [] None false 0 0 0 0 0 0 0.

(** Assignments to the fields. *)
Definition set_broker (k : K) (c : Client) : Client :=
  mkClient k (cl_registry c) (cl_codec c) (cl_MaximumPayload c) (cl_QueueCapacity c) (cl_lastErr c)
    (cl_subscriptions c) (cl_queue c) (cl_reconcile c) (cl_running c) (cl_connects c) (cl_reconnects c)
    (cl_published c) (cl_received c) (cl_droppedExpired c) (cl_queueRejected c) (cl_tick c).
Definition setError (err : option error) (c : Client) : Client :=
  mkClient (cl_client c) (cl_registry c) (cl_codec c) (cl_MaximumPayload c) (cl_QueueCapacity c) err
    (cl_subscriptions c) (cl_queue c) (cl_reconcile c) (cl_running c) (cl_connects c) (cl_reconnects c)
    (cl_published c) (cl_received c) (cl_droppedExpired c) (cl_queueRejected c) (cl_tick c).
Definition set_subscriptions (m : gmap string mqtt_subscription) (c : Client) : Client :=
  mkClient (cl_client c) (cl_registry c) (cl_codec c) (cl_MaximumPayload c) (cl_QueueCapacity c)
    (cl_lastErr c) m (cl_queue c) (cl_reconcile c) (cl_running c) (cl_connects c) (cl_reconnects c)
    (cl_published c) (cl_received c) (cl_droppedExpired c) (cl_queueRejected c) (cl_tick c).
Definition set_queue (q : list Publication) (c : Client) : Client :=
  mkClient (cl_client c) (cl_registry c) (cl_codec c) (cl_MaximumPayload c) (cl_QueueCapacity c)
    (cl_lastErr c) (cl_subscriptions c) q (cl_reconcile c) (cl_running c) (cl_connects c)
    (cl_reconnects c) (cl_published c) (cl_received c) (cl_droppedExpired c) (cl_queueRejected c) (cl_tick c).
Definition SetReconciler (r : option nat) (c : Client) : Client :=
  mkClient (cl_client c) (cl_registry c) (cl_codec c) (cl_MaximumPayload c) (cl_QueueCapacity c)
    (cl_lastErr c) (cl_subscriptions c) (cl_queue c) r (cl_running c) (cl_connects c) (cl_reconnects c)
    (cl_published c) (cl_received c) (cl_droppedExpired c) (cl_queueRejected c) (cl_tick c).
Definition set_running (b : bool) (c : Client) : Client :=
  mkClient (cl_client c) (cl_registry c) (cl_codec c) (cl_MaximumPayload c) (cl_QueueCapacity c)
    (cl_lastErr c) (cl_subscriptions c) (cl_queue c) (cl_reconcile c) b (cl_connects c) (cl_reconnects c)
    (cl_published c) (cl_received c) (cl_droppedExpired c) (cl_queueRejected c) (cl_tick c).
Definition client_read (c : Client) : Client :=
  mkClient (cl_client c) (cl_registry c) (cl_codec c) (cl_MaximumPayload c) (cl_QueueCapacity c)
    (cl_lastErr c) (cl_subscriptions c) (cl_queue c) (cl_reconcile c) (cl_running c) (cl_connects c)
    (cl_reconnects c) (cl_published c) (cl_received c) (cl_droppedExpired c) (cl_queueRejected c)
    (S (cl_tick c)).

(** [Add(1)] on a counter. *)
Inductive client_counter := Connects | Reconnects | Published | Received | DroppedExpired | QueueRejected.
Definition bump (k : client_counter) (c : Client) : Client :=
  let inc (here : client_counter) (n : Z) : Z :=
    match k, here with
    | Connects, Connects | Reconnects, Reconnects | Published, Published | Received, Received
    | DroppedExpired, DroppedExpired | QueueRejected, QueueRejected => wrap_uint64 (n + 1)
    | _, _ => n
    end in
  mkClient (cl_client c) (cl_registry c) (cl_codec c) (cl_MaximumPayload c) (cl_QueueCapacity c)
    (cl_lastErr c) (cl_subscriptions c) (cl_queue c) (cl_reconcile c) (cl_running c)
    (inc Connects (cl_connects c)) (inc Reconnects (cl_reconnects c)) (inc Published (cl_published c))
    (inc Received (cl_received c)) (inc DroppedExpired (cl_droppedExpired c))
    (inc QueueRejected (cl_queueRejected c)) (cl_tick c).

(** ** Publication *)
Definition Client_Publish (ctx : Context) (topic : string) (qos : Z) (retained : bool) (payload : string)
    (c : Client) : option error * Client :=
  iferr validatePublication topic qos retained as err yield (Some err, c);;
  when negb (IsConnected (cl_client c)) yield (Some ErrDisconnected, c);;
  let '(err, k) := broker_Publish ctx topic qos retained payload (cl_client c) in
  let c := set_broker k c in
  iferr err as err yield (Some err, c);;
  (None, bump Published c).

(** Whether an expiry has passed; the clock is only read when there is one. *)
Definition read_expired (expiresAt : option Time) (c : Client) : bool * Client :=
  match expiresAt with
  | None => (false, c)
  | Some t => (negb (Before (UTC (now (cl_tick c))) t), client_read c)
  end.

(** The section of [PublishPublication] under the lock. *)
Definition enqueue (publication : Publication) (c : Client) : option error * Client :=
  when cl_QueueCapacity c <=? Z.of_nat (length (cl_queue c)) yield
    (Some ErrMqttQueueFull, bump QueueRejected c);;
  let publication := mkPublication (pb_Topic publication) (pb_QoS publication) (pb_Retained publication)
    (pb_Payload publication) (envelope_cloneTime (pb_ExpiresAt publication)) in
  (None, set_queue (cl_queue c ++ [publication]) c).

Definition PublishPublication (ctx : Context) (publication : Publication) (c : Client) :
    option error * Client :=
  iferr ctx_Err ctx as err yield (Some err, c);;
  iferr validatePublication (pb_Topic publication) (pb_QoS publication) (pb_Retained publication) as err
    yield (Some err, c);;
  when cl_MaximumPayload c <? payload_length (pb_Payload publication) yield (Some ErrOversizedPayload, c);;
  let '(expired, c) := read_expired (pb_ExpiresAt publication) c in
  when expired yield (Some ErrExpiredMessage, bump DroppedExpired c);;
  when IsConnected (cl_client c) yield
    Client_Publish ctx (pb_Topic publication) (pb_QoS publication) (pb_Retained publication)
      (pb_Payload publication) c;;
  enqueue publication c.

(** [flush] while nothing else runs: each turn takes the head off the queue, so the loop follows it. *)
Fixpoint flush_queue (ctx : Context) (queue : list Publication) (c : Client) : option error * Client :=
  match queue with
  | [] => (None, set_queue [] c)
  | publication :: rest =>
      let c := set_queue rest c in
      let '(expired, c) := read_expired (pb_ExpiresAt publication) c in
      when expired yield flush_queue ctx rest (bump DroppedExpired c);;
      let '(err, c) := Client_Publish ctx (pb_Topic publication) (pb_QoS publication)
        (pb_Retained publication) (pb_Payload publication) c in
      iferr err as err yield (Some err, set_queue (publication :: cl_queue c) c);;
      flush_queue ctx rest c
  end.
Definition flush (ctx : Context) (c : Client) : option error * Client := flush_queue ctx (cl_queue c) c.

(** [flush] releases the lock while it holds a publication and sends it: where
    a flush stands, and its next section. *)
Inductive Flushing :=
| Taking
| Holding (publication : Publication)
| PuttingBack (publication : Publication) (err : error)
| Flushed (err : option error).

Definition flush_step (ctx : Context) (ph : Flushing) (c : Client) : Flushing * Client :=
  match ph with
  | Taking =>
      match cl_queue c with
      | [] => (Flushed None, c)
      | publication :: rest => (Holding publication, set_queue rest c)
      end
  | Holding publication =>
      let '(expired, c) := read_expired (pb_ExpiresAt publication) c in
      when expired yield (Taking, bump DroppedExpired c);;
      let '(err, c) := Client_Publish ctx (pb_Topic publication) (pb_QoS publication)
        (pb_Retained publication) (pb_Payload publication) c in
      match err with Some err => (PuttingBack publication err, c) | None => (Taking, c) end
  | PuttingBack publication err => (Flushed (Some err), set_queue (publication :: cl_queue c) c)
  | Flushed err => (Flushed err, c)
  end.

(** ** Subscriptions *)
Definition Client_Subscribe (ctx : Context) (topic : string) (qos : Z) (handler : option nat) (c : Client) :
    option error * Client :=
  iferr ctx_Err ctx as err yield (Some err, c);;
  match handler with
  | None => (Some (ErrNew "invalid MQTT subscription"), c)
  | Some handler =>
      when negb (validSubscription (cl_registry c) topic) || (1 <? qos) yield
        (Some (ErrNew "invalid MQTT subscription"), c);;
      let c := set_subscriptions (<[topic := mkMqttSubscription qos handler]> (cl_subscriptions c)) c in
      when negb (IsConnected (cl_client c)) yield (None, c);;
      let '(err, k) := broker_Subscribe ctx topic qos handler (cl_client c) in (err, set_broker k c)
  end.

(** The wrapper around a subscribed handler counts the message first. *)
Definition receive_message (c : Client) : Client := bump Received c.

(** ** Connections *)
Definition availabilityPayload (status : string) (c : Client) : (error + string) * Client :=
  let '(correlationID, err) := newCorrelation (cl_tick c) in
  let c := client_read c in
  iferr err as err yield (inl (ErrWrap "create MQTT availability correlation ID" err), c);;
  let t := UTC (now (cl_tick c)) in
  let c := client_read c in
  (Encode t (cl_codec c) ("availability-" +:+ pretty (UnixNano t)) "aquaos-core" correlationID t None None
     ({[ "status" := status ]} : gmap string string), c).

Definition publishAvailability (ctx : Context) (status : string) (c : Client) : option error * Client :=
  let '(topic, policy, err) := Topic (cl_registry c) PurposeAvailability "core" in
  iferr err as err yield (Some err, c);;
  match availabilityPayload status c with
  | (inl err, c) => (Some err, c)
  | (inr payload, c) => Client_Publish ctx topic (tp_QoS policy) (tp_Retained policy) payload c
  end.

(** The subscriptions again, in the order [topics] the map was ranged in. *)
Fixpoint resubscribe (ctx : Context) (topics : list string) (c : Client) : option error * Client :=
  match topics with
  | [] => (None, c)
  | topic :: topics =>
      match cl_subscriptions c !! topic with
      | None => resubscribe ctx topics c
      | Some item =>
          let '(err, k) := broker_Subscribe ctx topic (sub_qos item) (sub_handler item) (cl_client c) in
          let c := set_broker k c in
          iferr err as err yield (Some (ErrWrap "restore MQTT subscription" err), c);;
          resubscribe ctx topics c
      end
  end.

Definition restore (ctx : Context) (topics : list string) (c : Client) : option error * Client :=
  let '(err, c) := resubscribe ctx topics c in
  iferr err as err yield (Some err, c);;
  let '(err, c) :=
    match cl_reconcile c with
    | None => (None, c)
    | Some hook => let '(err, k) := reconciler hook ctx (cl_client c) in (err, set_broker k c)
    end in
  iferr err as err yield (Some (ErrWrap "reconcile retained MQTT state" err), c);;
  let '(err, c) := publishAvailability ctx "online" c in
  iferr err as err yield (Some err, c);;
  flush ctx c.

Definition connect (ctx : Context) (reconnect : bool) (topics : list string) (c : Client) :
    option error * Client :=
  let '(err, k) := broker_Connect ctx (cl_client c) in
  let c := set_broker k c in
  iferr err as err yield (Some (ErrWrap "connect MQTT" err), setError (Some err) c);;
  let c := bump Connects c in
  let c := if reconnect then bump Reconnects c else c in
  let c := setError None c in
  let '(err, c) := restore ctx topics c in
  iferr err as err yield (Some err, c);;
  (None, c).

(** [Start]; the reconnect loop it launches calls [connect] again. *)
Definition Client_Start (ctx : Context) (topics : list string) (c : Client) : option error * Client :=
  let '(err, c) := connect ctx false topics c in
  iferr err as err yield (Some err, c);;
  (None, set_running true c).

(** [Stop]. [joined] is what waiting for the reconnect loop answers: nil, or
    the error of the caller's context. *)
Definition Client_Stop (ctx : Context) (joined : option error) (c : Client) : option error * Client :=
  let running := cl_running c in
  let c := set_running false c in
  iferr (if running then joined else None) as err yield (Some err, c);;
  when negb (IsConnected (cl_client c)) yield (None, c);;
  let c := (publishAvailability ctx "offline" c).2 in
  (None, set_broker (broker_Disconnect (cl_client c)) c).

Definition Client_Metrics (c : Client) : TransportMetrics :=
  let m := Codec_Metrics (cl_codec c) in
  mkTransportMetrics (cl_connects c) (cl_reconnects c) (cl_published c) (cl_received c)
    (wrap_uint64 (cm_Malformed m + cm_Oversized m + cm_UnknownVersion m + cm_Expired m))
    (cl_droppedExpired c) (cl_queueRejected c).
End client.

(** ** Theorems *)

(** A broker that keeps what it was handed, with the outcome. *)
Record Logged (K : Type) := mkLogged { lg_inner : K; lg_sent : list (string * Z * bool * string) }.
Arguments mkLogged {K}.
Arguments lg_inner {K}.
Arguments lg_sent {K}.

#[export] Instance Logged_Broker {K} `{!Broker K} : Broker (Logged K) := {
  IsConnected l := IsConnected (lg_inner l);
  broker_Connect ctx l := let '(err, k) := broker_Connect ctx (lg_inner l) in (err, mkLogged k (lg_sent l));
  broker_Disconnect l := mkLogged (broker_Disconnect (lg_inner l)) (lg_sent l);
  broker_Publish ctx topic qos retained payload l :=
    let '(err, k) := broker_Publish ctx topic qos retained payload (lg_inner l) in
    (err, mkLogged k (lg_sent l ++ match err with None => [(topic, qos, retained, payload)] | Some _ => [] end));
  broker_Subscribe ctx topic qos handler l :=
    let '(err, k) := broker_Subscribe ctx topic qos handler (lg_inner l) in (err, mkLogged k (lg_sent l))
}.

Section client_theorems.
Context {K : Type} `{!Broker K}.
Context (now : nat → Time).

Abbreviation Client := (@Client (Logged K)).

Definition sent (c : Client) : list (string * Z * bool * string) := lg_sent (cl_client c).
Definition message (p : Publication) : string * Z * bool * string :=
  (pb_Topic p, pb_QoS p, pb_Retained p, pb_Payload p).

Lemma Client_Publish_spec ctx topic qos retained payload (c : Client) :
  let '(err, c') := Client_Publish ctx topic qos retained payload c in
  cl_queue c' = cl_queue c ∧ cl_tick c' = cl_tick c ∧ cl_QueueCapacity c' = cl_QueueCapacity c
  ∧ sent c' = sent c ++ (if decide (err = None) then [(topic, qos, retained, payload)] else [])
  ∧ (err = None → validatePublication topic qos retained = None).
Proof.
  unfold Client_Publish, sent. destruct (validatePublication topic qos retained) as [err|] eqn:Hv.
  { rewrite decide_False by done. by rewrite app_nil_r. }
  destruct (IsConnected _); simpl; [|rewrite app_nil_r; done].
  destruct (broker_Publish _ _ _ _ _ _) as [[err|] k]; simpl; done.
Qed.

(** A head of the queue that is dropped or sent, with its verdict. *)
Definition treated (from to : nat) (x : Publication * bool) : Prop :=
  match pb_ExpiresAt x.1 with
  | None => x.2 = true
  | Some t => ∃ k, (from ≤ k < to)%nat ∧ x.2 = (now k <? t)
  end.

Lemma treated_mono from from' to to' x :
  (from' ≤ from)%nat → (to ≤ to')%nat → treated from to x → treated from' to' x.
Proof.
  unfold treated. destruct (pb_ExpiresAt x.1); [|done]. intros ? ? (k & ? & ?). exists k. split; [lia|done].
Qed.

Lemma flush_queue_spec ctx queue (c : Client) :
  let '(err, c') := flush_queue now ctx queue c in
  ∃ done, queue = done.*1 ++ cl_queue c' ∧ (err = None → cl_queue c' = [])
    ∧ (cl_tick c ≤ cl_tick c')%nat ∧ cl_QueueCapacity c' = cl_QueueCapacity c
    ∧ Forall (treated (cl_tick c) (cl_tick c')) done
    ∧ sent c' = sent c ++ ((fun x => message x.1) <$> filter (fun x => x.2 = true) done).
Proof.
  revert c. induction queue as [|p rest IH]; intros c; cbn [flush_queue].
  { exists []. unfold sent. simpl. rewrite app_nil_r. by split_and!. }
  destruct (read_expired now (pb_ExpiresAt p) (set_queue rest c)) as [expired c1] eqn:Hr.
  assert (cl_queue c1 = rest ∧ sent c1 = sent c ∧ cl_QueueCapacity c1 = cl_QueueCapacity c
    ∧ (cl_tick c ≤ cl_tick c1)%nat ∧ treated (cl_tick c) (cl_tick c1) (p, negb expired)) as (Hq & Hsent & Hcap & Htk & Htr).
  { unfold read_expired in Hr. unfold treated, Before, UTC in *. simpl in *.
    destruct (pb_ExpiresAt p) as [t|]; simplify_eq/=; split_and!; try done; try lia.
    exists (cl_tick c). rewrite negb_involutive. split; [lia|done]. }
  destruct expired.
  - specialize (IH (bump DroppedExpired c1)). destruct (flush_queue _ _ _ _) as [err c'].
    destruct IH as (done_ & -> & Hnil & Htk' & Hcap' & Hall & Hs). simpl in *.
    exists ((p, false) :: done_). simpl. rewrite Hs. change (sent (bump DroppedExpired c1)) with (sent c1).
    rewrite Hsent. split_and!; try done; try lia; try congruence. constructor.
    + by eapply treated_mono; [| |exact Htr]; lia.
    + eapply Forall_impl; [done|]. intros x. apply treated_mono; lia.
  - pose proof (Client_Publish_spec ctx (pb_Topic p) (pb_QoS p) (pb_Retained p) (pb_Payload p) c1) as Hp.
    destruct (Client_Publish _ _ _ _ _ _) as [[err|] c2]; destruct Hp as (Hq2 & Ht2 & Hc2 & Hs2 & _).
    + exists []. rewrite decide_False in Hs2 by done. rewrite app_nil_r in Hs2.
      simpl. unfold sent in *. simpl. rewrite Hs2, Hsent, app_nil_r, Hq2, Hq.
      split_and!; try done; try lia; congruence.
    + specialize (IH c2). destruct (flush_queue _ _ _ _) as [err c'].
      destruct IH as (done_ & -> & Hnil & Htk' & Hcap' & Hall & Hs).
      exists ((p, true) :: done_). simpl. rewrite decide_True in Hs2 by done.
      rewrite Hs, Hs2, Hsent, <- app_assoc. split_and!; try done; try lia; try congruence. constructor.
      * by eapply treated_mono; [| |exact Htr]; lia.
      * eapply Forall_impl; [done|]. intros x. apply treated_mono; lia.
Qed.

(** A flush takes publications from the front of the offline queue only, sends
    those that are unexpired at a reading of the clock during the flush in
    queue order and drops the expired ones, keeps the rest, a publication that
    failed first, in order, and succeeds only with an empty queue. *)
Theorem flush_in_order ctx (c : Client) :
  let '(err, c') := flush now ctx c in
  ∃ done, cl_queue c = done.*1 ++ cl_queue c' ∧ (err = None → cl_queue c' = [])
    ∧ Forall (treated (cl_tick c) (cl_tick c')) done
    ∧ sent c' = sent c ++ ((fun x => message x.1) <$> filter (fun x => x.2 = true) done).
Proof.
  pose proof (flush_queue_spec ctx (cl_queue c) c) as Hf. unfold flush.
  destruct (flush_queue _ _ _ _) as [err c']. destruct Hf as (done_ & ? & ? & _ & _ & ? & ?). eauto.
Qed.
(** Subscribing the client to the Home Assistant command filter that its own
    registry answers is refused and changes nothing, for every valid site. *)
Theorem home_assistant_subscription_refused ctx filter qos handler (c : Client) :
  topicSegmentPattern (tg_siteID (cl_registry c)) = true →
  SubscriptionFilter (cl_registry c) PurposeHACommand = (filter, qos, None) →
  ∃ err, Client_Subscribe ctx filter qos handler c = (Some err, c).
Proof.
  intros Hsite Hf. unfold Client_Subscribe. destruct (ctx_Err ctx) as [err|]; [by exists err|].
  destruct handler as [h|]; [|eauto].
  rewrite (home_assistant_filter_refused (cl_registry c) filter qos Hsite Hf). eauto.
Qed.

(** ** The offline queue while a flush is in progress *)
Section traffic.
Context `{!JSON, !Marshaler Envelope, !Marshaler (gmap string string)}.
Context (newCorrelation : nat → CorrelationID * option error).
Context (reconciler : nat → Context → Logged K → option error * Logged K).

(** With nothing in between, the sections of a flush are [flush]. *)
Lemma flush_alone ctx (c : Client) :
  ∃ m, ∀ n, (m ≤ n)%nat →
    Nat.iter n (fun x => flush_step now ctx x.1 x.2) (Taking, c)
    = (let '(err, c') := flush now ctx c in (Flushed err, c')).
Proof.
  set (f := fun x : Flushing * Client => flush_step now ctx x.1 x.2).
  assert (∀ ph c, f (ph, c) = flush_step now ctx ph c) as Hf by done. clearbody f.
  assert (∀ n err c, Nat.iter n f (Flushed err, c) = (Flushed err, c)) as Hend.
  { intros n err c0. induction n as [|n IH]; [done|]. rewrite Nat.iter_succ_r, Hf. apply IH. }
  assert (∀ c : Client, set_queue (cl_queue c) c = c) as Hsame by by intros [].
  unfold flush. remember (cl_queue c) as queue eqn:Hq. revert c Hq. induction queue as [|p rest IH]; intros c Hq.
  - exists 1%nat. intros [|n] Hn; [lia|]. rewrite Nat.iter_succ_r, Hf. cbn [flush_step flush_queue]. rewrite <- Hq, Hend.
    by rewrite Hq, Hsame.
  - cbn [flush_queue]. destruct (read_expired now (pb_ExpiresAt p) (set_queue rest c)) as [expired c1] eqn:Hr.
    assert (cl_queue c1 = rest) as Hq1 by (unfold read_expired in Hr; destruct (pb_ExpiresAt p); by simplify_eq/=).
    assert (∀ n, Nat.iter (S (S n)) f (Taking, c) = Nat.iter n f (flush_step now ctx (Holding p) (set_queue rest c))) as Htwo.
    { intros n. rewrite !Nat.iter_succ_r, Hf. cbn [flush_step]. rewrite <- Hq. by rewrite Hf. }
    cbn [flush_step] in Htwo. rewrite Hr in Htwo. destruct expired.
    + destruct (IH (bump DroppedExpired c1)) as [m Hm]; [done|].
      exists (S (S m)). intros [|[|n]] Hn; [lia..|]. rewrite Htwo. apply Hm. lia.
    + pose proof (Client_Publish_spec ctx (pb_Topic p) (pb_QoS p) (pb_Retained p) (pb_Payload p) c1) as Hp.
      destruct (Client_Publish _ _ _ _ _ _) as [[err|] c2]; destruct Hp as (Hq2 & _).
      * exists 3%nat. intros [|[|[|n]]] Hn; [lia..|]. rewrite Htwo, Nat.iter_succ_r, Hf. apply Hend.
      * destruct (IH c2) as [m Hm]; [congruence|]. exists (S (S m)). intros [|[|n]] Hn; [lia..|]. rewrite Htwo. apply Hm. lia.
Qed.

(** What an operation does that leaves the queue alone: it may send, and read
    the clock. *)
Record elsewhere (c c' : Client) : Prop := {
  el_queue : cl_queue c' = cl_queue c;
  el_capacity : cl_QueueCapacity c' = cl_QueueCapacity c;
  el_sent : sent c `prefix_of` sent c';
  el_tick : (cl_tick c ≤ cl_tick c')%nat
}.
#[export] Instance elsewhere_preorder : PreOrder elsewhere.
Proof.
  split; [by intros c; split|]. intros c1 c2 c3 [? ? ? ?] [? ? ? ?]. split; [congruence|congruence|by etrans|lia].
Qed.

Lemma Client_Publish_elsewhere ctx topic qos retained payload c :
  elsewhere c (Client_Publish ctx topic qos retained payload c).2.
Proof.
  pose proof (Client_Publish_spec ctx topic qos retained payload c) as Hp.
  destruct (Client_Publish _ _ _ _ _ _). destruct Hp as (? & Ht & ? & Hs & _).
  cbn [snd]. split; [done|done|rewrite Hs; by apply prefix_app_r|by rewrite Ht].
Qed.
Lemma read_expired_elsewhere t c : elsewhere c (read_expired now t c).2.
Proof. destruct t; split; cbn; done || lia. Qed.
Lemma publishAvailability_elsewhere ctx status c :
  elsewhere c (publishAvailability now newCorrelation ctx status c).2.
Proof.
  unfold publishAvailability, availabilityPayload. destruct (Topic _ _ _) as [[topic policy] [err|]]; [done|].
  assert (elsewhere c (client_read c)) as H1 by (split; cbn; done || lia).
  assert (elsewhere (client_read c) (client_read (client_read c))) as H2 by (split; cbn; done || lia).
  destruct (newCorrelation _) as [corr [err|]]; [done|].
  destruct (Encode _ _ _ _ _ _ _ _ _) as [err|payload]; [by etrans|].
  etrans; [exact H1|]. etrans; [exact H2|]. apply Client_Publish_elsewhere.
Qed.
Lemma resubscribe_elsewhere ctx topics c : elsewhere c (resubscribe ctx topics c).2.
Proof.
  revert c. induction topics as [|topic topics IH]; intros c; simpl; [done|].
  destruct (cl_subscriptions c !! topic) as [item|]; [|done].
  destruct (broker_Subscribe _ _ _ _ _) as [[err|] k]; [done|]. etrans; [|apply IH]. done.
Qed.
Lemma Client_Subscribe_elsewhere ctx topic qos handler c :
  elsewhere c (Client_Subscribe ctx topic qos handler c).2.
Proof.
  unfold Client_Subscribe. destruct (ctx_Err ctx), handler; try done. destruct (_ || _); [done|].
  destruct (negb _); [done|]. cbn. by destruct (broker_Subscribe _ _ _ _ _).
Qed.
Lemma Client_Stop_elsewhere ctx joined c : elsewhere c (Client_Stop now newCorrelation ctx joined c).2.
Proof.
  unfold Client_Stop. destruct (if cl_running c then joined else None); [done|]. destruct (negb _); [done|].
  etrans; [|split; cbn; [done|done|done|done]]. etrans; [|apply publishAvailability_elsewhere]. done.
Qed.
(** [PublishPublication] reaches the queue only through [enqueue], with a valid
    publication. *)
Lemma PublishPublication_enqueues ctx p c :
  elsewhere c (PublishPublication now ctx p c).2
  ∨ validatePublication (pb_Topic p) (pb_QoS p) (pb_Retained p) = None
    ∧ ∃ c1, elsewhere c c1 ∧ PublishPublication now ctx p c = enqueue p c1.
Proof.
  unfold PublishPublication. destruct (ctx_Err ctx); [by left|]. destruct (validatePublication _ _ _) eqn:Hv; [by left|].
  destruct (_ <? _); [by left|]. pose proof (read_expired_elsewhere (pb_ExpiresAt p) c) as Hr.
  destruct (read_expired now (pb_ExpiresAt p) c) as [[] c1]; cbn [snd] in Hr; [left; by etrans|].
  destruct (IsConnected _); [left; etrans; [exact Hr|apply Client_Publish_elsewhere]|]. right. eauto.
Qed.

(** The client with the flush in progress, the publications accepted into the
    queue and, of those, the ones that have left it. *)
Record Traffic := mkTraffic {
  tr_client : Client; tr_flush : Flushing; tr_accepted : list Publication; tr_left : list Publication
}.

(** What a flush has taken off the queue and not yet settled. *)
Definition in_hand (ph : Flushing) : list Publication :=
  match ph with Holding p | PuttingBack p _ => [p] | _ => [] end.

Inductive traffic_step (t : Traffic) : Traffic → Prop :=
| ts_enqueued p c :
    validatePublication (pb_Topic p) (pb_QoS p) (pb_Retained p) = None → enqueue p (tr_client t) = (None, c) →
    traffic_step t (mkTraffic c (tr_flush t) (tr_accepted t ++ [p]) (tr_left t))
| ts_rejected p err c :
    enqueue p (tr_client t) = (Some err, c) →
    traffic_step t (mkTraffic c (tr_flush t) (tr_accepted t) (tr_left t))
| ts_begins err :
    tr_flush t = Flushed err → traffic_step t (mkTraffic (tr_client t) Taking (tr_accepted t) (tr_left t))
| ts_flushes ctx ph c :
    flush_step now ctx (tr_flush t) (tr_client t) = (ph, c) →
    traffic_step t (mkTraffic c ph (tr_accepted t)
      (tr_left t ++ match tr_flush t, ph with Holding p, Taking => [p] | _, _ => [] end))
| ts_elsewhere c :
    elsewhere (tr_client t) c → traffic_step t (mkTraffic c (tr_flush t) (tr_accepted t) (tr_left t)).

(** A publication that left the queue was sent, or had expired by a reading of
    the clock. *)
Definition settled (c : Client) (p : Publication) : Prop :=
  message p ∈ sent c ∨ ∃ t k, pb_ExpiresAt p = Some t ∧ (k < cl_tick c)%nat ∧ t ≤ now k.

Record traffic_ok (capacity : Z) (t : Traffic) : Prop := {
  to_capacity : cl_QueueCapacity (tr_client t) = capacity;
  to_order : tr_accepted t = tr_left t ++ in_hand (tr_flush t) ++ cl_queue (tr_client t);
  to_bound : Z.of_nat (length (in_hand (tr_flush t) ++ cl_queue (tr_client t))) ≤ capacity + 1;
  to_valid : Forall (fun p => validatePublication (pb_Topic p) (pb_QoS p) (pb_Retained p) = None) (tr_accepted t);
  to_settled : Forall (settled (tr_client t)) (tr_left t)
}.

Lemma settled_elsewhere (c c' : Client) p :
  sent c `prefix_of` sent c' → (cl_tick c ≤ cl_tick c')%nat → settled c p → settled c' p.
Proof.
  intros [more Hs] Ht [Hin|(t & k & ? & ? & ?)]; [left; rewrite Hs; apply elem_of_app; by left|].
  right. exists t, k. split_and!; [done|lia|done].
Qed.

Lemma holding_step ctx p (c c' : Client) ph :
  flush_step now ctx (Holding p) c = (ph, c') →
  elsewhere c c' ∧ (ph = Taking ∧ settled c' p ∨ ∃ err, ph = PuttingBack p err).
Proof.
  cbn [flush_step]. pose proof (read_expired_elsewhere (pb_ExpiresAt p) c) as Hr.
  destruct (read_expired now (pb_ExpiresAt p) c) as [[] c1] eqn:He; cbn [snd] in Hr.
  - intros [= <- <-]. split; [by etrans; [exact Hr|]|]. left. split; [done|]. right.
    unfold read_expired in He. destruct (pb_ExpiresAt p) as [t|]; [|done]. injection He as Hb <-.
    exists t, (cl_tick c). unfold Before, UTC in Hb. split_and!; [done|cbn; lia|lia].
  - pose proof (Client_Publish_spec ctx (pb_Topic p) (pb_QoS p) (pb_Retained p) (pb_Payload p) c1) as Hp.
    pose proof (Client_Publish_elsewhere ctx (pb_Topic p) (pb_QoS p) (pb_Retained p) (pb_Payload p) c1) as Hel.
    destruct (Client_Publish _ _ _ _ _ _) as [[err|] c2]; cbn [snd] in Hel; intros [= <- <-];
      (split; [by etrans|]); [by eauto|]. left. split; [done|]. left. destruct Hp as (_ & _ & _ & -> & _).
    rewrite decide_True by done. apply elem_of_app. right. by left.
Qed.

Lemma traffic_step_ok capacity t t' : 0 ≤ capacity → traffic_step t t' → traffic_ok capacity t → traffic_ok capacity t'.
Proof.
  intros Hcap Hstep [Hc Ho Hb Hv Hl].
  destruct Hstep as [p c Hp He|p err c He|err Hf|ctx ph c Hf|c [Hq Hc' Hs Ht]].
  - unfold enqueue in He. destruct (Z.leb_spec (cl_QueueCapacity (tr_client t)) (Z.of_nat (length (cl_queue (tr_client t)))));
      [done|]. injection He as <-. split; cbn.
    + done.
    + rewrite Ho, <- !app_assoc. by destruct p as [????[]].
    + rewrite !length_app in *. assert (length (in_hand (tr_flush t)) ≤ 1)%nat by (destruct (tr_flush t); cbn; lia). cbn. lia.
    + apply Forall_app. by auto.
    + done.
  - unfold enqueue in He. destruct (_ <=? _); [|done]. injection He as _ <-. by split.
  - by rewrite Hf in Ho, Hb; split.
  - destruct (tr_flush t) as [|p|p err|err] eqn:Hph.
    + cbn [flush_step] in Hf. destruct (cl_queue (tr_client t)) as [|p rest] eqn:Hq; injection Hf as <- <-; split; cbn in *;
        rewrite ?app_nil_r, ?Hq in *; first [done|by rewrite app_nil_r|lia].
    + destruct (holding_step _ _ _ _ _ Hf) as [[Hq Hc' Hs Ht] [[-> Hp]|[err ->]]]; split; cbn [in_hand tr_client tr_flush tr_accepted tr_left];
        rewrite ?Hq, ?Hc', ?app_nil_r; try done.
      * rewrite Ho. cbn. by rewrite <- app_assoc.
      * cbn in *. lia.
      * apply Forall_app. split; [|by apply Forall_singleton]. eapply Forall_impl; [exact Hl|]. intros q. by apply settled_elsewhere.
      * eapply Forall_impl; [exact Hl|]. intros q. by apply settled_elsewhere.
    + cbn [flush_step] in Hf. injection Hf as <- <-. split; cbn; rewrite ?app_nil_r; done.
    + cbn [flush_step] in Hf. injection Hf as <- <-. split; cbn; rewrite ?app_nil_r; done.
  - split; cbn; rewrite ?Hq, ?Hc'; try done. eapply Forall_impl; [exact Hl|]. intros q. by apply settled_elsewhere.
Qed.

(** C36: while publications are queued at any time, a flush, one at a time as
    the reconnect loop makes them, takes, sends and puts back publications
    with the lock released in between, and whatever else the client does: the
    accepted publications are, in the order in which they were accepted, those
    that have left the queue, then the one the flush holds, then the queue;
    each that left was sent or had expired; and the queue exceeds a capacity
    that is not negative by at most one, which is the publication a flush put
    back. *)
Theorem offline_queue_bounded broker registry codec maximumPayload queueCapacity t :
  0 ≤ queueCapacity →
  rtc traffic_step (mkTraffic (newClient broker registry codec maximumPayload queueCapacity) (Flushed None) [] []) t →
  tr_accepted t = tr_left t ++ in_hand (tr_flush t) ++ cl_queue (tr_client t)
  ∧ Forall (settled (tr_client t)) (tr_left t)
  ∧ Forall (fun p => validatePublication (pb_Topic p) (pb_QoS p) (pb_Retained p) = None) (tr_accepted t)
  ∧ Z.of_nat (length (cl_queue (tr_client t))) ≤ queueCapacity + 1.
Proof.
  intros Hcap Hr. assert (traffic_ok queueCapacity t) as [_ ? Hb ? ?].
  { eapply rtc_invariant; [intros x y; by apply traffic_step_ok| |exact Hr]. split; cbn; try done; lia. }
  split_and!; try done. rewrite length_app in Hb. lia.
Qed.
End traffic.
End client_theorems.
