(* ===== verification/MqttRouter.v ===== *)
(** * MQTT routing: [internal/mqtt/command_router.go] and [exporter.go]

    The router decodes command requests and hands them to the command service;
    the exporter mirrors state and alarm events to MQTT. Both see their
    collaborators through interfaces: the command service, the publisher of
    results and the transport. *)

From Stdlib Require Import ZArith Lia String Ascii.
From stdpp Require Import base gmap strings list.
From S2P Require Import Prelude Domain Events State Alarms Safety Output Commands Evaluator.
From S2P Require Import Topics Envelope MqttClient.

Class CommandSubmitter (S : Type) := {
  router_Submit : Context → Command → S → (Result * option error) * S
}.
Class PublicationPublisher (Q : Type) := {
  router_PublishPublication : Context → Publication → Q → option error * Q
}.

(** The clock readings of one call: the codec's at decoding, the router's, and
    the codec's at encoding. *)
Record HandleEnv := mkHandleEnv { he_decode : Time; he_now : Time; he_encode : Time }.

Section router.
Context {S Q : Type} `{!CommandSubmitter S, !PublicationPublisher Q}.
Context `{!JSON, !Marshaler Envelope, !Marshaler Result}.
Context `{!FirstDecoder Envelope, !FirstDecoder Command, !ExtraDecoder}.

Record CommandRouter := mkCommandRouter {
  cr_consumer : Consumer;
  cr_codec : Codec;
  cr_topics : TopicRegistry;
  cr_commands : S;
  cr_publisher : Q
}.

(** [dependencies] says that every dependency is non-nil. *)
Definition NewCommandRouter (dependencies : bool) (consumer : Consumer) (codec : Codec)
    (topics : TopicRegistry) (commands : S) (publisher : Q) : CommandRouter + error :=
  when negb dependencies yield inr (ErrNew "all MQTT command router dependencies are required");;
  inl (mkCommandRouter consumer codec topics commands publisher).

(** The handler [Handle] passes to the consumer. *)
Definition route_command (env : HandleEnv) (ctx : Context) (target : string) (codec : Codec)
    (topics : TopicRegistry) (envelope : Envelope) (st : S * Q) : option error * (S * Q) :=
  let '(s, q) := st in
  match decode_first (A := Command) (en_Data envelope) with
  | inl err => (Some (ErrWrap "decode MQTT command request" err), st)
  | inr (command, rest) =>
      iferr ensureEOF rest as err yield (Some (ErrWrap "decode trailing MQTT command data" err), st);;
      when negb (bool_decide (c_CorrelationID command = en_CorrelationID envelope)) yield
        (Some (ErrNew "command and envelope correlation IDs differ"), st);;
      when match en_ExpiresAt envelope with None => true | Some t => After (c_ExpiresAt command) t end yield
        (Some (ErrNew "command expiry exceeds envelope expiry"), st);;
      let '((result, submitErr), s) := router_Submit ctx command s in
      iferr submitErr as err yield (Some err, (s, q));;
      let '(topic, policy, err) := Topic topics PurposeCommandResult target in
      iferr err as err yield (Some err, (s, q));;
      match Encode (he_encode env) codec ("result-" +:+ c_ID command) "aquaos-core"
              (en_CorrelationID envelope) (UTC (he_now env)) (en_ExpiresAt envelope)
              (c_ExpectedRevision command) result with
      | inl err => (Some err, (s, q))
      | inr response =>
          when tp_Retained policy yield (Some (ErrNew "command result policy must not retain"), (s, q));;
          let '(err, q) := router_PublishPublication ctx
            (mkPublication topic (tp_QoS policy) false response (en_ExpiresAt envelope)) q in
          (err, (s, q))
      end
  end.

Definition Handle (env : HandleEnv) (ctx : Context) (target payload : string) (r : CommandRouter) :
    option error * CommandRouter :=
  let '(err, (consumer, (s, q))) :=
    Consume (he_decode env) payload (Some (route_command env ctx target (cr_codec r) (cr_topics r)))
      (cr_consumer r) (cr_commands r, cr_publisher r) in
  (err, mkCommandRouter consumer (cr_codec r) (cr_topics r) s q).

(** ** What reaches the command service *)

(** A submission on behalf of a message: the payload is an envelope of this
    site, complete and unexpired, whose data is the command, for the same
    correlation and no longer valid than the message. *)
Record message_command (env : HandleEnv) (payload : string) (r : CommandRouter) (c : Command) : Prop := {
  mc_size : payload_length payload ≤ cd_maximumPayload (cs_codec (cr_consumer r));
  mc_envelope : ∃ e rest t drest,
    decode_first payload = inr (e, rest) ∧ ensureEOF rest = None
    ∧ acceptable (he_decode env) (cs_codec (cr_consumer r)) e
    ∧ (en_MessageID e ∉ cs_order (cr_consumer r))
    ∧ decode_first (A := Command) (en_Data e) = inr (c, drest) ∧ ensureEOF drest = None
    ∧ c_CorrelationID c = en_CorrelationID e
    ∧ en_ExpiresAt e = Some t ∧ c_ExpiresAt c ≤ t ∧ he_decode env < t
}.

Lemma route_command_cases env ctx target codec topics e s q :
  let '(err, (s', q')) := route_command env ctx target codec topics e (s, q) in
  (s' = s ∧ q' = q)
  ∨ ∃ c drest t, decode_first (A := Command) (en_Data e) = inr (c, drest) ∧ ensureEOF drest = None
      ∧ c_CorrelationID c = en_CorrelationID e ∧ en_ExpiresAt e = Some t ∧ c_ExpiresAt c ≤ t
      ∧ s' = (router_Submit ctx c s).2.
Proof.
  unfold route_command. destruct (decode_first (en_Data e)) as [err|[c rest]] eqn:Hd; [by left|].
  destruct (ensureEOF rest) eqn:He; [by left|]. case_bool_decide as Hcorr; [|by left]. simpl.
  destruct (en_ExpiresAt e) as [t|] eqn:Ht; [|by left].
  destruct (After (c_ExpiresAt c) t) eqn:Hexp; [by left|]. go_bool.
  destruct (router_Submit ctx c s) as [[result [err|]] s'] eqn:Hs;
    [right; exists c, rest, t; by rewrite Hs|].
  destruct (Topic _ _ _) as [[topic policy] [err|]]; [right; exists c, rest, t; by rewrite Hs|].
  destruct (Encode _ _ _ _ _ _ _ _ _) as [err|response]; [right; exists c, rest, t; by rewrite Hs|].
  destruct (tp_Retained policy); [right; exists c, rest, t; by rewrite Hs|].
  destruct (router_PublishPublication _ _ _) as [err q']. right. exists c, rest, t. by rewrite Hs.
Qed.

Lemma Handle_cases env ctx target payload (r : CommandRouter) :
  consumer_ok (cr_consumer r) →
  let r' := (Handle env ctx target payload r).2 in
  consumer_ok (cr_consumer r') ∧ cr_codec r' = cr_codec r ∧ cr_topics r' = cr_topics r
  ∧ (cr_commands r' = cr_commands r
     ∨ ∃ c, message_command env payload r c
         ∧ cr_commands r' = (router_Submit ctx c (cr_commands r)).2).
Proof.
  intros Hok. unfold Handle.
  set (f := route_command env ctx target (cr_codec r) (cr_topics r)).
  pose proof (Consume_cases (he_decode env) payload f (cr_consumer r) (cr_commands r, cr_publisher r) Hok) as Hc.
  destruct (Consume _ _ _ _ _) as [err [c' [s q]]].
  destruct (Decode (he_decode env) payload (cs_codec (cr_consumer r))) as [[e derr] codec] eqn:Hd.
  destruct Hc as (Hok' & _ & Hc). simpl. split_and!; try done.
  destruct derr as [derr|]; [left; by destruct Hc as (_ & [= -> _] & _)|].
  case_decide as Hin; [left; by destruct Hc as (_ & [= -> _] & _)|].
  destruct Hc as (Hf & _). pose proof (route_command_cases env ctx target (cr_codec r) (cr_topics r) e
    (cr_commands r) (cr_publisher r)) as Hr. fold f in Hr. rewrite <- Hf in Hr.
  destruct Hr as [[-> _]|(c & drest & t & Hdec & Heof & Hcorr & Ht & Hexp & ->)]; [by left|].
  right. exists c. split; [|done].
  destruct (Decode_accepted _ _ _ _ _ Hd) as (_ & Hacc & Hlen & _ & rest & Hdf & He).
  split; [done|]. exists e, rest, t, drest. split_and!; try done. by apply (ac_fresh _ _ _ Hacc).
Qed.

(** Handling an MQTT request submits at most one command, and only the one in
    a payload within the size limit that is a complete envelope of this site,
    unexpired, not seen in the window, of the same correlation as the command
    and valid at least as long as it. *)
Theorem Handle_submits_message_command env ctx target payload (r : CommandRouter) :
  consumer_ok (cr_consumer r) →
  let r' := (Handle env ctx target payload r).2 in
  consumer_ok (cr_consumer r')
  ∧ (cr_commands r' = cr_commands r
     ∨ ∃ c, message_command env payload r c ∧ cr_commands r' = (router_Submit ctx c (cr_commands r)).2).
Proof. intros Hok. by destruct (Handle_cases env ctx target payload r Hok) as (? & _ & _ & ?). Qed.
End router.

(** ** Deliveries to the command service *)
Section deliveries.
Context {P V X W Q : Type} `{!Policy P, !RevisionReader V, !Executor X, !Publisher W}.
Context `{!JSON, !Marshaler Envelope, !Marshaler Result, !PublicationPublisher Q}.
Context `{!FirstDecoder Envelope, !FirstDecoder Command, !ExtraDecoder}.
Context (now : nat → Time).
Context (newCommandID : nat → CommandID * option error).
Context (newCorrelationID : nat → CorrelationID * option error).
Context (factory : nat → FactoryEnv).

Abbreviation Service := (@Service P V (Recording X) W).

#[local] Instance Service_Submitter : CommandSubmitter Service :=
  { router_Submit := Submit now newCommandID newCorrelationID factory }.

End deliveries.

(** ** The event exporter *)

(** [json.Unmarshal] into an [alarms.Alarm]. *)
Class AlarmUnmarshaler := { json_UnmarshalAlarm : string → error + Alarm }.

(** The transport's immediate publication. *)
Class MQTTClient (Q : Type) := {
  transport_Publish : Context → string → Z → bool → string → Q → option error * Q
}.

#[export] Instance Client_transport {K} `{!Broker K} : MQTTClient (@Client K) :=
  { transport_Publish := Client_Publish }.

Section exporter.
Context {Q : Type} `{!MQTTClient Q}.
Context `{!JSON, !Marshaler Envelope, !Marshaler StateValue, !Marshaler Alarm}.
Context `{!Unmarshaler, !AlarmUnmarshaler}.

Record EventExporter := mkEventExporter {
  ee_transport : Q;
  ee_registry : TopicRegistry;
  ee_codec : Codec
}.

Definition NewEventExporter (siteID : string) (maximumPayload : Z) (transport : option Q) (hasLogger : bool) :
    EventExporter + error :=
  match transport with
  | None => inr (ErrNew "MQTT exporter dependencies are required")
  | Some transport =>
      when negb hasLogger yield inr (ErrNew "MQTT exporter dependencies are required");;
      match NewTopicRegistry siteID with
      | inr err => inr err
      | inl registry =>
          match NewCodec siteID maximumPayload true with
          | inr err => inr err
          | inl codec => inl (mkEventExporter transport registry codec)
          end
      end
  end.

(** [Attach] subscribes the exporter to each type in turn, and undoes it all
    when one subscription fails. *)
Definition exported_types : list EventType :=
  [StateChanged; AlarmRaised; AlarmAcknowledged; AlarmCleared; AlarmEscalated].

Fixpoint attach_from {B} `{!EventSubscriber B} (types : list EventType) (result : list nat) (bus : B) :
    (list nat * option error) * B :=
  match types with
  | [] => ((result, None), bus)
  | eventType :: types =>
      let '((subscription, err), bus) := bus_Subscribe eventType bus in
      iferr err as err yield (([], Some err), foldl (fun b item => bus_Unsubscribe item b) bus result);;
      attach_from types (result ++ [subscription]) bus
  end.
Definition Attach {B} `{!EventSubscriber B} (bus : B) : (list nat * option error) * B :=
  attach_from exported_types [] bus.

(** The publication of an encoded message; a failure is only logged. *)
Definition export_message {A} `{!Marshaler A} (now : Time) (ctx : Context) (event : Event)
    (destination : string * TopicPolicy * option error) (revision : option Revision) (data : A)
    (e : EventExporter) : EventExporter :=
  let '(topic, policy, _) := destination in
  match Encode now (ee_codec e) (ev_CorrelationID event) (ev_Source event) (ev_CorrelationID event)
          (ev_Timestamp event) None revision data with
  | inl _ => e
  | inr payload =>
      let '(_, q) := transport_Publish ctx topic (tp_QoS policy) (tp_Retained policy) payload (ee_transport e) in
      mkEventExporter q (ee_registry e) (ee_codec e)
  end.

Definition is_alarm_event (t : EventType) : bool :=
  bool_decide (t = AlarmRaised) || bool_decide (t = AlarmAcknowledged) || bool_decide (t = AlarmCleared)
  || bool_decide (t = AlarmEscalated).

Definition Exporter_Handle (now : Time) (ctx : Context) (event : Event) (e : EventExporter) :
    option error * EventExporter :=
  when bool_decide (ev_EventType event = StateChanged) yield
    match json_Unmarshal (ev_Payload event) with
    | inl _ => (None, e)
    | inr value =>
        let id := k_EntityID (sv_Key value) in
        match k_EntityKind (sv_Key value) with
        | EntityEquipment =>
            (None, export_message now ctx event
               (Topic (ee_registry e) PurposeEquipmentReported ("equipment-" +:+ id))
               (Some (sv_Revision value)) value e)
        | EntitySensor =>
            (None, export_message now ctx event (Topic (ee_registry e) PurposeSensorState ("sensor-" +:+ id))
               (Some (sv_Revision value)) value e)
        | EntityKindOther _ => (None, e)
        end
    end;;
  when is_alarm_event (ev_EventType event) yield
    match json_UnmarshalAlarm (ev_Payload event) with
    | inl _ => (None, e)
    | inr alarm =>
        (None, export_message now ctx event (Topic (ee_registry e) PurposeAlarmState (al_ID alarm)) None alarm e)
    end;;
  (None, e).
End exporter.

(** ** What the exporter publishes *)
Section exported.
Context {K : Type} `{!Broker K}.
Context `{!JSON, !Marshaler Envelope, !Marshaler StateValue, !Marshaler Alarm}.
Context `{!Unmarshaler, !AlarmUnmarshaler}.

(** An identifier that begins with a digit is no topic segment. *)
Definition digit_first (id : string) : Prop := ∃ c rest, id = String c rest ∧ is_digit c = true.

Lemma digit_first_no_topic r purpose id :
  digit_first id → ∃ err, Topic r purpose id = ("", zero_TopicPolicy, Some err).
Proof.
  intros (c & rest & -> & Hd). unfold Topic.
  assert (topicSegmentPattern (String c rest) = false) as ->.
  { unfold topicSegmentPattern, segment_pattern. simpl.
    assert (is_lower c = false) as ->; [|done].
    unfold is_lower, is_digit, in_range in *. go_bool. lia. }
  rewrite orb_true_r. eauto.
Qed.

(** An alarm event whose alarm has an ID that starts with a digit, as ten in
    sixteen generated IDs do, is never published: the exporter ignores that no
    topic exists for it and the empty topic is refused. *)
Theorem digit_first_alarm_never_exported now ctx event (e : @EventExporter (@Client K)) alarm :
  is_alarm_event (ev_EventType event) = true → json_UnmarshalAlarm (ev_Payload event) = inr alarm →
  digit_first (al_ID alarm) →
  Exporter_Handle now ctx event e = (None, e).
Proof.
  intros Ht Hu Hd. unfold Exporter_Handle. rewrite Ht, Hu.
  assert (ev_EventType event ≠ StateChanged) as Hne by by intros Heq; rewrite Heq in Ht.
  rewrite bool_decide_eq_false_2 by done. f_equal. unfold export_message.
  destruct (digit_first_no_topic (ee_registry e) PurposeAlarmState (al_ID alarm) Hd) as [err ->].
  destruct (Encode _ _ _ _ _ _ _ _ _); [done|]. simpl. by destruct e as [[] ? ?].
Qed.
End exported.
