(* ===== verification/Storage.v ===== *)
(** * Historical storage: [internal/storage/storage.go]

    The bounded queue of points and the writer's loop. The backend is an
    interface. One turn of the loop is a function of the case its [select]
    takes and of what waiting for the backoff answers, so a run of the loop is
    any sequence of turns; a turn is taken with the context done only after
    [Stop] cancelled it. [Start] is modelled when the previous loop has ended,
    which [Stop] waits for. *)

From Stdlib Require Import ZArith Lia String.
From stdpp Require Import base gmap strings list sorting.
From S2P Require Import Prelude Domain Health.

Record Field := mkField { f_Float : option float64; f_Boolean : option bool; f_String : option string }.
Definition FloatField (v : float64) : Field := mkField (Some v) None None.
Definition BooleanField (v : bool) : Field := mkField None (Some v) None.
Definition StringField (v : string) : Field := mkField None None (Some v).

Record Point := mkPoint {
  pt_Measurement : string;
  pt_Tags : gmap string string;
  pt_Fields : gmap string Field;
  pt_Timestamp : Time
}.

Class StorageClient (C : Type) := { client_Write : list Point → C → option error * C }.

Record StorageConfig := mkStorageConfig {
  sc_QueueCapacity : Z;
  sc_BatchSize : Z;
  sc_FlushInterval : Duration;
  sc_RetryMinimum : Duration;
  sc_RetryMaximum : Duration;
  sc_WriteTimeout : Duration
}.

Record Metrics := mkMetrics {
  me_Enqueued : Z;
  me_Written : Z;
  me_Dropped : Z;
  me_Retries : Z;
  me_Failures : Z;
  me_QueueDepth : Z
}.

Definition ErrQueueFull : error := ErrVar "storage.ErrQueueFull".
Definition ErrStopped : error := ErrVar "storage.ErrStopped".

(** ** The disabled implementation *)
Record Disabled := mkDisabled {}.
Definition NewDisabled : Disabled := mkDisabled.
Definition Disabled_Start (ctx : Context) (d : Disabled) : Disabled * option error := (d, None).
Definition Disabled_Stop (ctx : Context) (d : Disabled) : Disabled * option error := (d, None).
Definition Disabled_Health (now : Time) (d : Disabled) : Status :=
  NewStatus "storage" StateHealthy "disabled" (UTC now).
Definition Disabled_Enqueue (p : Point) (d : Disabled) : option error := Some ErrStopped.
Definition Disabled_Metrics (d : Disabled) : Metrics := mkMetrics 0 0 0 0 0 0.

(** ** Points *)
Definition present_fields (f : Field) : nat :=
  (if f_Float f is Some _ then 1 else 0) + (if f_Boolean f is Some _ then 1 else 0)
  + (if f_String f is Some _ then 1 else 0).

Definition tag_ok (kv : string * string) : bool :=
  negb (bool_decide (kv.1 = "") || bool_decide (kv.2 = "")
        || (64 <? String.length kv.1)%nat || (128 <? String.length kv.2)%nat).
Definition field_ok (kv : string * Field) : bool :=
  negb (bool_decide (kv.1 = "") || (64 <? String.length kv.1)%nat
        || negb (present_fields kv.2 =? 1)%nat).

(** Whatever order the maps are ranged in, some entry is refused or none is. *)
Definition validatePoint (point : Point) : option error :=
  when bool_decide (pt_Measurement point = "") || IsZero (pt_Timestamp point)
       || (size (pt_Fields point) =? 0)%nat yield
    Some (ErrNew "measurement, timestamp, and fields are required");;
  when (16 <? size (pt_Tags point))%nat || (32 <? size (pt_Fields point))%nat yield
    Some (ErrNew "point exceeds tag or field count limit");;
  when negb (forallb tag_ok (map_to_list (pt_Tags point))) yield Some (ErrNew "invalid tag");;
  when negb (forallb field_ok (map_to_list (pt_Fields point))) yield Some (ErrNew "invalid field");;
  None.

Definition clone_field (f : Field) : Field :=
  mkField (match f_Float f with Some v => Some v | None => None end)
    (match f_Boolean f with Some v => Some v | None => None end)
    (match f_String f with Some v => Some v | None => None end).
Definition clonePoint (p : Point) : Point :=
  mkPoint (pt_Measurement p) (pt_Tags p) (clone_field <$> pt_Fields p) (pt_Timestamp p).

Definition sortedKeys {V} (values : gmap string V) : list string :=
  merge_sort String.le (map_to_list values).*1.

Lemma clonePoint_id p : clonePoint p = p.
Proof.
  destruct p as [m tags fields t]. unfold clonePoint. simpl. f_equal.
  rewrite <- (map_fmap_id fields) at 2. apply map_fmap_ext. by intros ? [[] [] []] _.
Qed.
#[export] Hint Rewrite clonePoint_id : clone.

(** ** The writer *)
Section writer.
Context {C : Type} `{!StorageClient C}.

(** The locals of the running loop: the batch, the backoff, and whether its
    context is done. *)
Record Loop := mkLoop { lp_batch : list Point; lp_backoff : Duration; lp_cancelled : bool }.

Record Writer := mkWriter {
  w_cfg : StorageConfig;
  w_client : C;
  w_queue : list Point;
  w_loop : option Loop;
  w_running : bool;
  w_lastErr : option error;
  w_enqueued : Z;
  w_written : Z;
  w_dropped : Z;
  w_retries : Z;
  w_failures : Z
}.

Definition New (cfg : StorageConfig) (client : option C) (hasLogger : bool) : Writer + error :=
  match client with
  | None => inr (ErrNew "storage client and logger are required")
  | Some client =>
      when negb hasLogger yield inr (ErrNew "storage client and logger are required");;
      when (sc_QueueCapacity cfg <? 1) || (1000000 <? sc_QueueCapacity cfg) || (sc_BatchSize cfg <? 1)
           || (sc_QueueCapacity cfg <? sc_BatchSize cfg) yield
        inr (ErrNew "storage queue and batch bounds are invalid");;
      when (sc_FlushInterval cfg <=? 0) || (sc_RetryMinimum cfg <=? 0)
           || (sc_RetryMaximum cfg <? sc_RetryMinimum cfg) || (sc_WriteTimeout cfg <=? 0) yield
        inr (ErrNew "storage timing bounds are invalid");;
      inl (mkWriter cfg client [] None false None 0 0 0 0 0)
  end.

Definition set_loop (l : option Loop) (w : Writer) : Writer :=
  mkWriter (w_cfg w) (w_client w) (w_queue w) l (w_running w) (w_lastErr w) (w_enqueued w) (w_written w)
    (w_dropped w) (w_retries w) (w_failures w).
Definition set_points (q : list Point) (w : Writer) : Writer :=
  mkWriter (w_cfg w) (w_client w) q (w_loop w) (w_running w) (w_lastErr w) (w_enqueued w) (w_written w)
    (w_dropped w) (w_retries w) (w_failures w).
Definition set_writer_running (b : bool) (w : Writer) : Writer :=
  mkWriter (w_cfg w) (w_client w) (w_queue w) (w_loop w) b (w_lastErr w) (w_enqueued w) (w_written w)
    (w_dropped w) (w_retries w) (w_failures w).
Definition count_enqueued (w : Writer) : Writer :=
  mkWriter (w_cfg w) (w_client w) (w_queue w) (w_loop w) (w_running w) (w_lastErr w)
    (wrap_uint64 (w_enqueued w + 1)) (w_written w) (w_dropped w) (w_retries w) (w_failures w).
Definition count_dropped (w : Writer) : Writer :=
  mkWriter (w_cfg w) (w_client w) (w_queue w) (w_loop w) (w_running w) (w_lastErr w) (w_enqueued w)
    (w_written w) (wrap_uint64 (w_dropped w + 1)) (w_retries w) (w_failures w).
Definition count_retry (w : Writer) : Writer :=
  mkWriter (w_cfg w) (w_client w) (w_queue w) (w_loop w) (w_running w) (w_lastErr w) (w_enqueued w)
    (w_written w) (w_dropped w) (wrap_uint64 (w_retries w + 1)) (w_failures w).

Definition Writer_Start (ctx : Context) (w : Writer) : Writer * option error :=
  when w_running w yield (w, Some (ErrNew "storage writer already started"));;
  (set_writer_running true (set_loop (Some (mkLoop [] (sc_RetryMinimum (w_cfg w)) false)) w), None).

(** [Stop] cancels the loop's context; the loop ends by turns of its own. *)
Definition Writer_Stop (w : Writer) : Writer :=
  set_writer_running false
    (set_loop ((fun l => mkLoop (lp_batch l) (lp_backoff l) true) <$> w_loop w) w).

Definition Writer_Health (render : error → string) (now : Time) (w : Writer) : Status :=
  NewStatus "storage"
    (if w_running w && bool_decide (w_lastErr w = None) then StateHealthy else StateUnhealthy)
    (match w_lastErr w with Some err => render err | None => "" end) (UTC now).

Definition Enqueue (point : Point) (w : Writer) : option error * Writer :=
  iferr validatePoint point as err yield (Some err, w);;
  when negb (w_running w) yield (Some ErrStopped, w);;
  when sc_QueueCapacity (w_cfg w) <=? Z.of_nat (length (w_queue w)) yield
    (Some ErrQueueFull, count_dropped w);;
  (None, count_enqueued (set_points (w_queue w ++ [clonePoint point]) w)).

Definition Writer_Metrics (w : Writer) : Metrics :=
  mkMetrics (w_enqueued w) (w_written w) (w_dropped w) (w_retries w) (w_failures w)
    (Z.of_nat (length (w_queue w))).

(** [write]: one attempt, its outcome and the counters. *)
Definition write (batch : list Point) (w : Writer) : option error * Writer :=
  let '(err, client) := client_Write batch (w_client w) in
  match err with
  | Some e =>
      (Some e, mkWriter (w_cfg w) client (w_queue w) (w_loop w) (w_running w) (Some e) (w_enqueued w)
         (w_written w) (w_dropped w) (w_retries w) (wrap_uint64 (w_failures w + 1)))
  | None =>
      (None, mkWriter (w_cfg w) client (w_queue w) (w_loop w) (w_running w) None (w_enqueued w)
         (wrap_uint64 (w_written w + Z.of_nat (length batch))) (w_dropped w) (w_retries w) (w_failures w))
  end.

Definition final (batch : list Point) (w : Writer) : Writer :=
  if bool_decide (batch = []) then w else (write batch w).2.

(** The case a turn takes: with a full batch, whether the backoff elapsed
    ([wait]); otherwise which case of the [select] fires. *)
Inductive turn := TurnWaited | TurnInterrupted | TurnDone | TurnReceive | TurnTick.

Definition next_backoff (cfg : StorageConfig) (backoff : Duration) : Duration :=
  let backoff := wrap_int64 (backoff * 2) in
  if sc_RetryMaximum cfg <? backoff then sc_RetryMaximum cfg else backoff.

(** One turn of the loop of [run]. A turn whose case cannot fire changes
    nothing. *)
Definition run_turn (t : turn) (w : Writer) : Writer :=
  match w_loop w with
  | None => w
  | Some (mkLoop batch backoff cancelled) =>
      let cfg := w_cfg w in
      let put batch backoff w := set_loop (Some (mkLoop batch backoff cancelled)) w in
      if Z.of_nat (length batch) =? sc_BatchSize cfg then
        let '(err, w1) := write batch w in
        match err, t with
        | None, _ => put [] (sc_RetryMinimum cfg) w1
        | Some _, TurnInterrupted => if cancelled then set_loop None (final batch w1) else w
        | Some _, TurnWaited => count_retry (put batch (next_backoff cfg backoff) w1)
        | Some _, _ => w
        end
      else
        match t with
        | TurnDone =>
            if cancelled then
              let room := Z.to_nat (sc_BatchSize cfg - Z.of_nat (length batch)) in
              set_loop None (final (batch ++ take room (w_queue w)) (set_points (drop room (w_queue w)) w))
            else w
        | TurnReceive =>
            match w_queue w with
            | point :: queue => put (batch ++ [point]) backoff (set_points queue w)
            | [] => w
            end
        | TurnTick =>
            if bool_decide (batch = []) then w
            else
              let '(err, w) := write batch w in
              match err with
              | None => put [] (sc_RetryMinimum cfg) w
              | Some _ => count_retry w
              end
        | _ => w
        end
  end.
End writer.

(** ** Theorems *)

(** A backend that keeps the points of the batches it took. *)
Record Stored (C : Type) := mkStored { sd_inner : C; sd_log : list Point }.
Arguments mkStored {C}.
Arguments sd_inner {C}.
Arguments sd_log {C}.

#[export] Instance Stored_client {C} `{!StorageClient C} : StorageClient (Stored C) := {
  client_Write batch s :=
    let '(err, c) := client_Write batch (sd_inner s) in
    (err, mkStored c (match err with None => sd_log s ++ batch | Some _ => sd_log s end))
}.

Section history.
Context {C : Type} `{!StorageClient C}.
Abbreviation Writer := (@Writer (Stored C)).

Definition stored (w : Writer) : list Point := sd_log (w_client w).
Definition batch_of (w : Writer) : list Point := match w_loop w with Some l => lp_batch l | None => [] end.

(** Everything the writer still answers for, oldest first. *)
Definition contents (w : Writer) : list Point := stored w ++ batch_of w ++ w_queue w.

Inductive action := ActEnqueue (p : Point) | ActStart (ctx : Context) | ActStop | ActTurn (t : turn).

(** An action, with the points it accepted. *)
Definition exec (a : action) (w : Writer) : Writer * list Point :=
  match a with
  | ActEnqueue p => let '(err, w') := Enqueue p w in (w', if decide (err = None) then [p] else [])
  | ActStart ctx => (if decide (w_loop w = None) then (Writer_Start ctx w).1 else w, [])
  | ActStop => (Writer_Stop w, [])
  | ActTurn t => (run_turn t w, [])
  end.

Fixpoint run_storage (actions : list action) (w : Writer) : Writer * list Point :=
  match actions with
  | [] => (w, [])
  | a :: rest =>
      let '(w, accepted) := exec a w in
      let '(w, more) := run_storage rest w in (w, accepted ++ more)
  end.

(** The turns by which the loop ends. *)
Definition exits (a : action) : Prop := a = ActTurn TurnDone ∨ a = ActTurn TurnInterrupted.

(** Sizes, the backoff, and the counters of what was stored. *)
Record writer_ok (w : Writer) : Prop := {
  wo_queue : Z.of_nat (length (w_queue w)) ≤ sc_QueueCapacity (w_cfg w);
  wo_batch : Z.of_nat (length (batch_of w)) ≤ sc_BatchSize (w_cfg w);
  wo_bounds : 0 ≤ sc_QueueCapacity (w_cfg w) ∧ 1 ≤ sc_BatchSize (w_cfg w)
    ∧ 0 < sc_RetryMinimum (w_cfg w) ≤ sc_RetryMaximum (w_cfg w);
  wo_backoff : ∀ l, w_loop w = Some l → 2 * sc_RetryMaximum (w_cfg w) ≤ max_int64 →
    sc_RetryMinimum (w_cfg w) ≤ lp_backoff l ≤ sc_RetryMaximum (w_cfg w);
  wo_written : w_written w = wrap_uint64 (Z.of_nat (length (stored w)))
}.

Lemma New_ok cfg c hasLogger w : New cfg (Some (mkStored c [])) hasLogger = inl w →
  writer_ok w ∧ contents w = [] ∧ w_enqueued w = 0.
Proof.
  unfold New. destruct hasLogger; [|done]. simpl.
  destruct (_ || _) eqn:H1; [done|]. destruct (_ || _) eqn:H2 in |- *; [done|]. intros [= <-]. go_bool.
  split; [|done]. split; simpl; try done; try lia.
Qed.

(** What an attempt does: the batch is stored, or nothing is. *)
Lemma write_spec batch (w : Writer) :
  let '(err, w') := write batch w in
  stored w' = stored w ++ (if decide (err = None) then batch else [])
  ∧ w_queue w' = w_queue w ∧ w_loop w' = w_loop w ∧ w_cfg w' = w_cfg w ∧ w_enqueued w' = w_enqueued w
  ∧ (w_written w = wrap_uint64 (Z.of_nat (length (stored w))) →
     w_written w' = wrap_uint64 (Z.of_nat (length (stored w')))).
Proof.
  unfold write, stored. simpl. destruct (client_Write batch (sd_inner (w_client w))) as [[err|] c]; simpl.
  - rewrite app_nil_r. by split_and!.
  - split_and!; try done. intros ->. rewrite length_app, Nat2Z.inj_add. unfold wrap_uint64.
    by rewrite Zplus_mod_idemp_l.
Qed.

Lemma final_spec batch (w : Writer) :
  (stored (final batch w) = stored w ++ batch ∨ stored (final batch w) = stored w)
  ∧ w_queue (final batch w) = w_queue w ∧ w_cfg (final batch w) = w_cfg w
  ∧ w_enqueued (final batch w) = w_enqueued w
  ∧ (w_written w = wrap_uint64 (Z.of_nat (length (stored w))) →
     w_written (final batch w) = wrap_uint64 (Z.of_nat (length (stored (final batch w))))).
Proof.
  unfold final. case_bool_decide as Hnil; [by split_and!; auto|].
  pose proof (write_spec batch w) as Hw. destruct (write batch w) as [err w'].
  destruct Hw as (Hs & ? & ? & ? & ? & ?). simpl. split_and!; try done.
  case_decide; [by left|right]. by rewrite app_nil_r in Hs.
Qed.

Lemma next_backoff_range cfg b :
  0 < sc_RetryMinimum cfg ≤ sc_RetryMaximum cfg → 2 * sc_RetryMaximum cfg ≤ max_int64 →
  sc_RetryMinimum cfg ≤ b ≤ sc_RetryMaximum cfg →
  sc_RetryMinimum cfg ≤ next_backoff cfg b ≤ sc_RetryMaximum cfg.
Proof.
  intros. unfold next_backoff. rewrite wrap_int64_id by (unfold in_int64, min_int64; lia).
  destruct (Z.ltb_spec (sc_RetryMaximum cfg) (b * 2)); lia.
Qed.

(** The effect of ending with [batch] and leaving [queue]. *)
Lemma exit_effect batch queue (w : Writer) :
  writer_ok w → batch ++ queue = batch_of w ++ w_queue w → (length queue ≤ length (w_queue w))%nat →
  let w' := set_loop None (final batch (set_points queue w)) in
  writer_ok w' ∧ contents w' `sublist_of` contents w ∧ w_enqueued w' = w_enqueued w.
Proof.
  intros [Hq Hb Hbd Hbk Hw] Heq Hlen w'.
  destruct (final_spec batch (set_points queue w)) as (Hs & Hq' & Hc & He & Hw'). simpl in *.
  split_and!.
  - split; subst w'; simpl; rewrite ?Hq', ?Hc; try done; try lia. by apply Hw'.
  - unfold contents, w', batch_of, stored in *. simpl in *. rewrite Hq'. destruct Hs as [-> | ->].
    + by rewrite <- app_assoc, Heq.
    + rewrite <- Heq. apply sublist_app; [done|]. by apply sublist_inserts_l.
  - done.
Qed.

Lemma write_failed_ok batch (w : Writer) err w1 :
  writer_ok w → write batch w = (Some err, w1) →
  writer_ok w1 ∧ contents w1 = contents w ∧ w_enqueued w1 = w_enqueued w ∧ w_loop w1 = w_loop w
  ∧ w_cfg w1 = w_cfg w ∧ w_queue w1 = w_queue w.
Proof.
  intros [] Hw. pose proof (write_spec batch w) as Hs. rewrite Hw in Hs.
  destruct Hs as (Hs & Hq & Hl & Hc & He & Hwr). rewrite decide_False, app_nil_r in Hs by done.
  split_and!; try done.
  - split; unfold batch_of in *; rewrite ?Hq, ?Hl, ?Hc; auto.
  - unfold contents, batch_of. by rewrite Hs, Hl, Hq.
Qed.

(** A batch that was stored leaves the loop empty-handed. *)
Lemma write_stored_ok (w : Writer) l w1 :
  writer_ok w → w_loop w = Some l → write (lp_batch l) w = (None, w1) →
  let w' := set_loop (Some (mkLoop [] (sc_RetryMinimum (w_cfg w)) (lp_cancelled l))) w1 in
  writer_ok w' ∧ contents w' = contents w ∧ w_enqueued w' = w_enqueued w.
Proof.
  intros [Hq Hb Hbd Hbk Hwr] Hl Hw w'. pose proof (write_spec (lp_batch l) w) as Hs. rewrite Hw in Hs.
  destruct Hs as (Hs & Hq1 & _ & Hc & He & Hwr1). rewrite decide_True in Hs by done. split_and!.
  - split; unfold w', batch_of; simpl; rewrite ?Hq1, ?Hc; try done; try lia.
    + intros l' [= <-] _. simpl. lia.
    + by apply Hwr1.
  - unfold contents, batch_of, stored, w' in *. simpl. by rewrite Hs, Hq1, Hl, <- app_assoc.
  - done.
Qed.

Lemma run_turn_effect t (w : Writer) :
  writer_ok w →
  writer_ok (run_turn t w) ∧ w_enqueued (run_turn t w) = w_enqueued w
  ∧ contents (run_turn t w) `sublist_of` contents w
  ∧ (t ≠ TurnDone → t ≠ TurnInterrupted → contents (run_turn t w) = contents w).
Proof.
  intros Hok. unfold run_turn. destruct (w_loop w) as [[batch backoff cancelled]|] eqn:Hl; [|done].
  pose proof (wo_batch w Hok) as Hb. unfold batch_of in Hb. rewrite Hl in Hb. simpl in Hb.
  destruct (Z.eqb_spec (Z.of_nat (length batch)) (sc_BatchSize (w_cfg w))) as [Hfull|Hroom].
  - destruct (write batch w) as [[err|] w1] eqn:Hw.
    + destruct (write_failed_ok batch w err w1 Hok Hw) as (Hok1 & Hc1 & He1 & Hl1 & Hcf & Hq1).
      destruct t; try done.
      * pose proof Hok1 as [Hq1' Hb1 Hbd1 Hbk1 Hwr1].
        set (w2 := count_retry _). assert (contents w2 = contents w) as Hc2.
        { rewrite <- Hc1. unfold contents, batch_of. by rewrite Hl1, Hl. }
        split_and!; [|done|by rewrite Hc2|done].
        split; simpl; try done; [by rewrite Hcf|].
        intros l [= <-] Hmax. simpl. rewrite <- Hcf. apply next_backoff_range; [tauto|done|].
        by apply (Hbk1 (mkLoop batch backoff cancelled)); [rewrite Hl1|].
      * destruct cancelled; [|done].
        destruct (exit_effect batch (w_queue w1) w1 Hok1) as (Hok2 & Hsub & He2); [|done|].
        { unfold batch_of. by rewrite Hl1, Hl. }
        replace (set_points (w_queue w1) w1) with w1 in * by by destruct w1.
        split_and!; [done|congruence|by rewrite <- Hc1|done].
    + destruct (write_stored_ok w _ w1 Hok Hl Hw) as (Hok1 & Hc1 & He1). simpl in *.
      destruct t; (split_and!; [done|done|by rewrite Hc1|done]).
  - destruct t; try done.
    + destruct cancelled; [|done].
      set (room := Z.to_nat (sc_BatchSize (w_cfg w) - Z.of_nat (length batch))).
      destruct (exit_effect (batch ++ take room (w_queue w)) (drop room (w_queue w)) w Hok)
        as (Hok2 & Hsub & He2); [|rewrite length_drop; lia|done].
      rewrite <- app_assoc, take_drop. unfold batch_of. by rewrite Hl.
    + destruct (w_queue w) as [|p queue] eqn:Hq; [done|].
      destruct Hok as [Hqo Hbo Hbd Hbk Hwr].
      assert (contents (set_loop (Some (mkLoop (batch ++ [p]) backoff cancelled)) (set_points queue w))
        = contents w) as Hc.
      { unfold contents, batch_of, stored. simpl. rewrite Hl, Hq. simpl. by rewrite <- !app_assoc. }
      split_and!; [|done|by rewrite Hc|done].
      rewrite Hq in Hqo. simpl in Hqo. split; simpl; try done; unfold batch_of; simpl; rewrite ?length_app; simpl; try lia.
      intros l [= <-] Hmax. simpl. by apply (Hbk (mkLoop batch backoff cancelled)).
    + case_bool_decide; [done|]. destruct (write batch w) as [[err|] w1] eqn:Hw.
      * destruct (write_failed_ok batch w err w1 Hok Hw) as ([] & Hc1 & He1 & _).
        split_and!; [by split|done|by rewrite <- Hc1|done].
      * destruct (write_stored_ok w _ w1 Hok Hl Hw) as (Hok1 & Hc1 & He1). simpl in *.
        split_and!; [done|done|by rewrite Hc1|done].
Qed.

Lemma exec_effect a (w : Writer) :
  writer_ok w →
  let '(w', accepted) := exec a w in
  writer_ok w' ∧ contents w' `sublist_of` contents w ++ accepted
  ∧ (¬ exits a → contents w' = contents w ++ accepted)
  ∧ w_enqueued w' = (if decide (accepted = []) then w_enqueued w else wrap_uint64 (w_enqueued w + 1))
  ∧ (length accepted ≤ 1)%nat.
Proof.
  intros Hok. destruct a as [p|ctx| |t]; simpl.
  - unfold Enqueue. destruct (validatePoint p).
    { rewrite decide_False, app_nil_r by done. split_and!; try done; simpl; lia. }
    destruct (w_running w); simpl.
    2:{ rewrite app_nil_r. split_and!; try done; simpl; lia. }
    destruct (Z.leb_spec (sc_QueueCapacity (w_cfg w)) (Z.of_nat (length (w_queue w)))).
    { rewrite decide_False, app_nil_r by done. destruct Hok. split_and!; try done; simpl; lia. }
    rewrite decide_True by done. destruct Hok. unfold contents, stored, batch_of in *. simpl.
    rewrite clonePoint_id, !app_assoc. split_and!; try done; try lia.
    split; simpl; try done. rewrite length_app. simpl. lia.
  - rewrite app_nil_r. case_decide as Hl; [|split_and!; try done; simpl; lia].
    unfold Writer_Start. destruct (w_running w); [split_and!; try done; simpl; lia|].
    destruct Hok. assert (contents (set_writer_running true
      (set_loop (Some (mkLoop [] (sc_RetryMinimum (w_cfg w)) false)) w)) = contents w) as Hc.
    { unfold contents, batch_of, stored. simpl. by rewrite Hl. }
    simpl. rewrite Hc. split_and!; try done; try lia. split; simpl; try done; unfold batch_of; simpl; try lia.
    intros l [= <-] _. simpl. lia.
  - rewrite app_nil_r. destruct Hok as [Hq Hb Hbd Hbk Hwr].
    assert (contents (Writer_Stop w) = contents w) as Hc.
    { unfold contents, batch_of, stored. simpl. by destruct (w_loop w). }
    rewrite Hc. split_and!; try done; try lia. split; simpl; try done.
    + unfold batch_of in *. simpl. by destruct (w_loop w).
    + intros l Hl Hmax. destruct (w_loop w) as [l0|]; simplify_eq/=. by apply (Hbk l0).
  - rewrite app_nil_r. destruct (run_turn_effect t w Hok) as (Hok' & He & Hsub & Heq).
    split_and!; try done; try lia. unfold exits. intros Hx. apply Heq; intros ->; apply Hx; auto.
Qed.

Lemma run_storage_effect actions (w : Writer) :
  writer_ok w →
  let '(w', accepted) := run_storage actions w in
  writer_ok w' ∧ contents w' `sublist_of` contents w ++ accepted
  ∧ (Forall (fun a => ¬ exits a) actions → contents w' = contents w ++ accepted)
  ∧ wrap_uint64 (w_enqueued w') = wrap_uint64 (w_enqueued w + Z.of_nat (length accepted)).
Proof.
  revert w. induction actions as [|a actions IH]; intros w Hok; simpl.
  { rewrite app_nil_r, Z.add_0_r. done. }
  pose proof (exec_effect a w Hok) as Ha. destruct (exec a w) as [w1 acc].
  destruct Ha as (Hok1 & Hsub1 & Heq1 & He1 & Hlen).
  specialize (IH w1 Hok1). destruct (run_storage actions w1) as [w2 more].
  destruct IH as (Hok2 & Hsub2 & Heq2 & He2). split_and!.
  - done.
  - etrans; [done|]. rewrite app_assoc. by apply sublist_app.
  - intros [Ha Hrest]%Forall_cons. rewrite (Heq2 Hrest), (Heq1 Ha). by rewrite app_assoc.
  - rewrite He2, He1, length_app, Nat2Z.inj_add. unfold wrap_uint64.
    destruct acc as [|p [|q acc]]; simpl in *; [f_equal; lia| |lia].
    rewrite Zplus_mod_idemp_l. f_equal. lia.
Qed.

(** From a new writer and over any interleaving of enqueues, starts, stops and
    turns of the writing loop, what was written, followed by the current batch
    and the queue, is in order what was accepted, all of it while the loop has
    not exited and a subsequence of it after; queue and batch stay within
    their capacities and the counter counts the accepted points modulo 2^64.
    *)
Theorem storage_keeps_order cfg c hasLogger actions w0 :
  New cfg (Some (mkStored c [])) hasLogger = inl w0 →
  let '(w, accepted) := run_storage actions w0 in
  stored w ++ batch_of w ++ w_queue w `sublist_of` accepted
  ∧ (Forall (fun a => ¬ exits a) actions → stored w ++ batch_of w ++ w_queue w = accepted)
  ∧ writer_ok w ∧ wrap_uint64 (w_enqueued w) = wrap_uint64 (Z.of_nat (length accepted)).
Proof.
  intros (Hok & Hnil & He)%New_ok. pose proof (run_storage_effect actions w0 Hok) as Hr.
  destruct (run_storage actions w0) as [w accepted]. rewrite Hnil, He in Hr.
  by destruct Hr as (? & ? & ? & ?).
Qed.
End history.
