(* ===== verification/Simulator.v ===== *)
(** * The simulator: [internal/adapters/simulator]

    The deterministic tank model ([model.go]), the check of a scenario's
    expectations ([scenario.go]) and the in-memory executor
    ([fake_adapter.go]). Floating-point operations are those of IEEE 754
    doubles, each rounded on its own. The seeded random source is an argument:
    the sequence of normal deviates it draws. *)

From Stdlib Require Import ZArith Lia String SpecFloat.
From stdpp Require Import base gmap strings list sorting.
From S2P Require Import Prelude Domain Health Output.

(** ** Arithmetic of [math] and [time] *)
Definition is_zero_float (f : float64) : bool := match f with S754_zero _ => true | _ => false end.

(** [math.Min] and [math.Max] with their special cases. *)
Definition math_Min (x y : float64) : float64 :=
  match x, y with
  | S754_infinity true, _ | _, S754_infinity true => S754_infinity true
  | S754_nan, _ | _, S754_nan => S754_nan
  | S754_zero s, S754_zero t => if s then x else y
  | _, _ => if F64_lt x y then x else y
  end.
Definition math_Max (x y : float64) : float64 :=
  match x, y with
  | S754_infinity false, _ | _, S754_infinity false => S754_infinity false
  | S754_nan, _ | _, S754_nan => S754_nan
  | S754_zero s, S754_zero t => if s then y else x
  | _, _ => if F64_lt y x then x else y
  end.

(** [math.Round]: to the nearest integer, halves away from zero. *)
Definition math_Round (f : float64) : float64 :=
  match f with
  | S754_finite s m e =>
      if 0 <=? e then f
      else
        let n := Z.shiftr (Z.pos m + Z.shiftl 1 (- e - 1)) (- e) in
        if n =? 0 then S754_zero s else F64 (if s then - n else n)
  | _ => f
  end.

Definition nanos_per_hour : Z := 60 * 60 * 10 ^ 9.

(** [time.Duration.Hours]. *)
Definition Hours (d : Duration) : float64 :=
  F64_add (F64 (Z.quot d nanos_per_hour)) (F64_div (F64 (Z.rem d nanos_per_hour)) (F64 nanos_per_hour)).

(** [round] of the model: four decimals. *)
Definition round (value : float64) : float64 := F64_div (math_Round (F64_mul value (F64 10000))) (F64 10000).

(** ** Scenarios *)
Inductive FaultType :=
| FaultSensorNoise | FaultSensorDrift | FaultSensorStale | FaultRelayStuckOn | FaultAckDelay | FaultAckLoss
| FaultBrokerLoss | FaultStorageLoss | FaultLeak | FaultReturnPumpFailure | FaultOther (s : string).

#[export] Instance FaultType_eq_dec : EqDecision FaultType.
Proof. solve_decision. Defined.

Record Fault := mkFault { fa_At : Z; fa_Duration : Z; fa_Type : FaultType; fa_Value : float64 }.

Record ModelConfig := mkModelConfig {
  mo_InitialTemperatureC : float64;
  mo_AmbientTemperatureC : float64;
  mo_InitialLevelPercent : float64;
  mo_TemperatureLowC : float64;
  mo_TemperatureHighC : float64;
  mo_LevelLowPercent : float64;
  mo_LevelHighPercent : float64;
  mo_AmbientExchangePerHour : float64;
  mo_HeaterInfluenceCPerHour : float64;
  mo_EvaporationPercentPerHour : float64;
  mo_ATOFillPercentPerHour : float64;
  mo_SensorFreshFor : Duration
}.

Record Expectations := mkExpectations { ex_AlarmCodes : list string; ex_SafeTransitions : list string }.

Record Scenario := mkScenario {
  sn_SchemaVersion : Z;
  sn_Name : string;
  sn_Seed : Z;
  sn_Start : Time;
  sn_Step : Duration;
  sn_Steps : Z;
  sn_Model : ModelConfig;
  sn_Faults : list Fault;
  sn_Expected : Expectations
}.

Definition validFault (kind : FaultType) : bool :=
  match kind with FaultOther _ => false | _ => true end.

(** The loop over the faults of [Validate]. *)
Definition fault_error (steps : Z) (fault : Fault) : option error :=
  when (fa_At fault <? 0) || (steps <=? fa_At fault) || (fa_Duration fault <? 0) yield
    Some (ErrNew "fault schedule is outside the scenario");;
  when negb (validFault (fa_Type fault)) yield Some (ErrNew "fault has unsupported type");;
  when bool_decide (fa_Type fault = FaultSensorNoise) && F64_lt (fa_Value fault) (F64 0) yield
    Some (ErrNew "fault sensor noise cannot be negative");;
  None.
Fixpoint faults_error (steps : Z) (faults : list Fault) : option error :=
  match faults with
  | [] => None
  | fault :: rest => iferr fault_error steps fault as err yield Some err;; faults_error steps rest
  end.

Definition model_values (m : ModelConfig) : list float64 :=
  [mo_InitialTemperatureC m; mo_AmbientTemperatureC m; mo_InitialLevelPercent m; mo_TemperatureLowC m;
   mo_TemperatureHighC m; mo_LevelLowPercent m; mo_LevelHighPercent m; mo_AmbientExchangePerHour m;
   mo_HeaterInfluenceCPerHour m; mo_EvaporationPercentPerHour m; mo_ATOFillPercentPerHour m].

Definition Scenario_Validate (s : Scenario) : option error :=
  when negb (sn_SchemaVersion s =? 1) yield Some (ErrNew "scenario schemaVersion must equal 1");;
  when bool_decide (sn_Name s = "") || (128 <? String.length (sn_Name s))%nat || IsZero (sn_Start s) yield
    Some (ErrNew "scenario name and start are required");;
  when (sn_Step s <=? 0) || (nanos_per_hour <? sn_Step s) || (sn_Steps s <? 1) || (100000 <? sn_Steps s) yield
    Some (ErrNew "scenario step must be within (0,1h] and steps within [1,100000]");;
  let m := sn_Model s in
  when existsb (fun v => IsNaN v || IsInf v) (model_values m) yield
    Some (ErrNew "scenario model values must be finite");;
  when F64_le (mo_TemperatureHighC m) (mo_TemperatureLowC m) || F64_le (mo_LevelHighPercent m) (mo_LevelLowPercent m)
       || F64_lt (mo_InitialLevelPercent m) (F64 0) || F64_lt (F64 100) (mo_InitialLevelPercent m)
       || (mo_SensorFreshFor m <=? 0) yield
    Some (ErrNew "scenario model thresholds or initial level are invalid");;
  when F64_lt (mo_AmbientExchangePerHour m) (F64 0) || F64_lt (mo_HeaterInfluenceCPerHour m) (F64 0)
       || F64_lt (mo_EvaporationPercentPerHour m) (F64 0) || F64_le (mo_ATOFillPercentPerHour m) (F64 0) yield
    Some (ErrNew "scenario physical rates are invalid");;
  when 10000 <? Z.of_nat (length (sn_Faults s)) yield
    Some (ErrNew "scenario cannot contain more than 10000 faults");;
  faults_error (sn_Steps s) (sn_Faults s).

(** ** Runs *)
Record EquipmentState := mkEquipmentState {
  es_Heater : bool;
  es_ReturnPump : bool;
  es_CirculationPump : bool;
  es_ATO : bool;
  es_DosingPump : bool
}.
Definition zero_EquipmentState : EquipmentState := mkEquipmentState false false false false false.

#[export] Instance EquipmentState_eq_dec : EqDecision EquipmentState.
Proof. solve_decision. Defined.

Record Trace := mkTrace {
  tc_Step : Z;
  tc_Timestamp : Time;
  tc_TemperatureC : float64;
  tc_ObservedTemperatureC : float64;
  tc_TemperatureQuality : Quality;
  tc_LevelPercent : float64;
  tc_Leak : bool;
  tc_Desired : EquipmentState;
  tc_Reported : EquipmentState;
  tc_Acknowledgement : string;
  tc_BrokerAvailable : bool;
  tc_StorageAvailable : bool;
  tc_AlarmCodes : list string;
  tc_SafeTransitions : list string
}.

Record SimulationResult := mkSimulationResult {
  sr_Name : string;
  sr_Seed : Z;
  sr_Traces : list Trace
}.

(** The runner; [mr_draws] counts the deviates drawn. *)
Record modelRunner := mkModelRunner {
  mr_scenario : Scenario;
  mr_draws : nat;
  mr_temperature : float64;
  mr_level : float64;
  mr_desired : EquipmentState;
  mr_reported : EquipmentState;
  mr_lastObserved : float64;
  mr_lastObservedAt : Time;
  mr_brokerAvailable : bool;
  mr_storageAvailable : bool
}.

Definition activeFaults (step : Z) (r : modelRunner) : list Fault :=
  filter (fun fault => (fa_At fault <=? step)
    && ((fa_Duration fault =? 0) || (step <? wrap_int64 (fa_At fault + fa_Duration fault))) = true)
    (sn_Faults (mr_scenario r)).

Definition hasFault (faults : list Fault) (kind : FaultType) : bool :=
  existsb (fun f => bool_decide (fa_Type f = kind)) faults.
Fixpoint faultValue (faults : list Fault) (kind : FaultType) : float64 :=
  match faults with
  | [] => F64 0
  | f :: rest => if bool_decide (fa_Type f = kind) then fa_Value f else faultValue rest kind
  end.

Definition safeTransitions (previous next : EquipmentState) : list string :=
  (if es_Heater previous && negb (es_Heater next) then ["heater:off"] else [])
  ++ (if es_ReturnPump previous && negb (es_ReturnPump next) then ["return-pump:off"] else [])
  ++ (if es_CirculationPump previous && negb (es_CirculationPump next) then ["circulation-pump:off"] else [])
  ++ (if es_ATO previous && negb (es_ATO next) then ["ato:off"] else [])
  ++ (if es_DosingPump previous && negb (es_DosingPump next) then ["dosing-pump:off"] else []).

Definition advancePhysics (r : modelRunner) : modelRunner :=
  let m := sn_Model (mr_scenario r) in
  let hours := Hours (sn_Step (mr_scenario r)) in
  let temperature := F64_add (mr_temperature r)
    (F64_mul (F64_mul (F64_sub (mo_AmbientTemperatureC m) (mr_temperature r)) (mo_AmbientExchangePerHour m)) hours) in
  let temperature := if es_Heater (mr_reported r) then
      F64_add temperature (F64_mul (mo_HeaterInfluenceCPerHour m) hours) else temperature in
  let level := F64_sub (mr_level r) (F64_mul (mo_EvaporationPercentPerHour m) hours) in
  let level := if es_ATO (mr_reported r) then
      F64_add level (F64_mul (mo_ATOFillPercentPerHour m) hours) else level in
  let level := math_Max (F64 0) (math_Min (F64 100) level) in
  mkModelRunner (mr_scenario r) (mr_draws r) temperature level (mr_desired r) (mr_reported r)
    (mr_lastObserved r) (mr_lastObservedAt r) (mr_brokerAvailable r) (mr_storageAvailable r).

Section run.
(** The deviates the seeded source draws, in order. *)
Context (NormFloat64 : nat → float64).

(** The sensor of a step: the reading, its quality, and the runner with what
    was drawn and remembered. *)
Definition observe (now : Time) (faults : list Fault) (r : modelRunner) : float64 * Quality * modelRunner :=
  let noise := faultValue faults FaultSensorNoise in
  let drift := F64_mul (faultValue faults FaultSensorDrift) (Hours (Sub now (sn_Start (mr_scenario r)))) in
  let observed := F64_add (mr_temperature r) drift in
  let '(observed, quality, draws) :=
    if is_zero_float noise then (observed, QualityGood, mr_draws r)
    else (F64_add observed (F64_mul (NormFloat64 (mr_draws r)) noise), QualitySuspect, S (mr_draws r)) in
  let put draws last lastAt := mkModelRunner (mr_scenario r) draws (mr_temperature r) (mr_level r) (mr_desired r)
    (mr_reported r) last lastAt (mr_brokerAvailable r) (mr_storageAvailable r) in
  if hasFault faults FaultSensorStale then
    let quality :=
      if IsZero (mr_lastObservedAt r)
         || negb (Before now (Add (mr_lastObservedAt r) (mo_SensorFreshFor (sn_Model (mr_scenario r)))))
      then QualityStale else quality in
    (mr_lastObserved r, quality, put draws (mr_lastObserved r) (mr_lastObservedAt r))
  else (observed, quality, put draws observed now).

(** The supervisory decision of a step, with the alarms it raises. *)
Definition decide_desired (observed : float64) (quality : Quality) (leak : bool) (r : modelRunner) :
    EquipmentState * list string :=
  let m := sn_Model (mr_scenario r) in
  let '(heater, alarms) :=
    if bool_decide (quality = QualityStale) then (false, ["sim.alarm.sensor-stale"])
    else if F64_le observed (mo_TemperatureLowC m) then (true, [])
    else if F64_le (mo_TemperatureHighC m) observed then (false, ["sim.alarm.high-temperature"])
    else (es_Heater (mr_desired r), []) in
  let ato :=
    if F64_le (mr_level r) (mo_LevelLowPercent m) then true
    else if F64_le (mo_LevelHighPercent m) (mr_level r) then false
    else es_ATO (mr_desired r) in
  if leak then (zero_EquipmentState, alarms ++ ["sim.alarm.leak"])
  else (mkEquipmentState heater true true ato false, alarms).

(** The acknowledgement of a step. *)
Definition acknowledge_step (faults : list Fault) : string * list string :=
  if hasFault faults FaultAckLoss then ("lost", ["sim.alarm.command-acknowledgement-lost"])
  else if hasFault faults FaultAckDelay then ("delayed", ["sim.alarm.command-acknowledgement-delayed"])
  else ("acknowledged", []).

(** What the faulty hardware reports. *)
Definition report_step (faults : list Fault) (desired : EquipmentState) : EquipmentState * list string :=
  let stuck := hasFault faults FaultRelayStuckOn in
  let failed := hasFault faults FaultReturnPumpFailure in
  (mkEquipmentState (stuck || es_Heater desired) (negb failed && es_ReturnPump desired)
     (es_CirculationPump desired) (es_ATO desired) (es_DosingPump desired),
   if stuck && negb (es_Heater desired) then ["sim.alarm.relay-stuck-on"] else []).

Definition model_tick (step : Z) (r : modelRunner) : Trace * modelRunner :=
  let now := UTC (Add (sn_Start (mr_scenario r)) (wrap_int64 (step * sn_Step (mr_scenario r)))) in
  let faults := activeFaults step r in
  let '(observed, quality, r) := observe now faults r in
  let leak := hasFault faults FaultLeak in
  let previousDesired := mr_desired r in
  let '(desired, alarms) := decide_desired observed quality leak r in
  let alarms := alarms
    ++ (if hasFault faults FaultReturnPumpFailure then ["sim.alarm.return-pump-failure"] else []) in
  let '(ack, acked) := acknowledge_step faults in
  let '(reported, stuck) := report_step faults desired in
  let alarms := alarms ++ acked ++ stuck in
  let broker := negb (hasFault faults FaultBrokerLoss) in
  let storage := negb (hasFault faults FaultStorageLoss) in
  let transitions := safeTransitions previousDesired desired in
  let r := advancePhysics (mkModelRunner (mr_scenario r) (mr_draws r) (mr_temperature r) (mr_level r) desired
    reported (mr_lastObserved r) (mr_lastObservedAt r) broker storage) in
  (mkTrace step now (round (mr_temperature r)) (round observed) quality (round (mr_level r)) leak
     (mr_desired r) (mr_reported r) ack broker storage (sort_by id alarms) (sort_by id transitions), r).

(** The loop of [Run], from step [step] for [n] steps. *)
Fixpoint run_steps (n : nat) (step : Z) (r : modelRunner) : list Trace * modelRunner :=
  match n with
  | O => ([], r)
  | S n =>
      let '(trace, r) := model_tick step r in
      let '(traces, r) := run_steps n (step + 1) r in (trace :: traces, r)
  end.

Definition initial_runner (s : Scenario) : modelRunner :=
  mkModelRunner s 0 (mo_InitialTemperatureC (sn_Model s)) (mo_InitialLevelPercent (sn_Model s))
    (mkEquipmentState false true true false false) (mkEquipmentState false true true false false)
    (F64 0) 0 true true.

Definition Run (s : Scenario) : SimulationResult + error :=
  iferr Scenario_Validate s as err yield inr err;;
  inl (mkSimulationResult (sn_Name s) (sn_Seed s)
         (run_steps (Z.to_nat (sn_Steps s)) 0 (initial_runner s)).1).
End run.

(** ** Expectations ([scenario.go]) *)
Fixpoint all_observed (what : string) (expected observed : list string) : option error :=
  match expected with
  | [] => None
  | e :: rest =>
      when negb (bool_decide (e ∈ observed)) yield Some (ErrNew what);;
      all_observed what rest observed
  end.
Definition Verify (scenario : Scenario) (result : SimulationResult) : option error :=
  let alarms := mjoin (tc_AlarmCodes <$> sr_Traces result) in
  let transitions := mjoin (tc_SafeTransitions <$> sr_Traces result) in
  iferr all_observed "expected alarm was not observed" (ex_AlarmCodes (sn_Expected scenario)) alarms as err
    yield Some err;;
  all_observed "expected safe transition was not observed" (ex_SafeTransitions (sn_Expected scenario)) transitions.

(** ** The lifecycle adapter ([adapter.go]) *)
Record Adapter := mkAdapter { ad_started : bool }.
Definition NewAdapter : Adapter := mkAdapter false.
Definition Adapter_Start (ctx : Context) (a : Adapter) : Adapter * option error := (mkAdapter true, None).
Definition Adapter_Stop (ctx : Context) (a : Adapter) : Adapter * option error := (mkAdapter false, None).
Definition Adapter_Health (now : Time) (a : Adapter) : Status :=
  lifecycle_status "simulator" (ad_started a) now.

(** ** The in-memory executor ([fake_adapter.go]) *)
Definition ErrAcknowledgementLost : error := ErrVar "simulator.ErrAcknowledgementLost".

Class Delay (D : Type) := { Wait : Context → Duration → D → option error * D }.

Record AdapterFaults := mkAdapterFaults {
  af_AcknowledgementDelay : Duration;
  af_LoseAcknowledgement : bool;
  af_RelayStuckOn : bool
}.

Section fake_adapter.
Context {D : Type} `{!Delay D} (now : nat → Time).

(** [fk_reads] counts the readings of the adapter's clock. *)
Record FakeAdapter := mkFakeAdapter {
  fk_delay : D;
  fk_faults : AdapterFaults;
  fk_reported : gmap string bool;
  fk_reads : nat
}.

(** [fallback] is the timer used when no delay is injected. *)
Definition NewFakeAdapter (hasClock : bool) (delay : option D) (fallback : D) : FakeAdapter + error :=
  when negb hasClock yield inr (ErrNew "fake adapter clock is required");;
  inl (mkFakeAdapter (match delay with Some d => d | None => fallback end) (mkAdapterFaults 0 false false) ∅ 0).

Definition SetFaults (faults : AdapterFaults) (a : FakeAdapter) : option error * FakeAdapter :=
  when (af_AcknowledgementDelay faults <? 0) || (nanos_per_hour <? af_AcknowledgementDelay faults) yield
    (Some (ErrNew "fake acknowledgement delay must be between zero and one hour"), a);;
  (None, mkFakeAdapter (fk_delay a) faults (fk_reported a) (fk_reads a)).

Definition zero_Acknowledgement : Acknowledgement := mkAcknowledgement false "" 0.

Definition Fake_Dispatch (ctx : Context) (command : Command) (a : FakeAdapter) :
    (Acknowledgement * option error) * FakeAdapter :=
  iferr ctx_Err ctx as err yield ((zero_Acknowledgement, Some err), a);;
  let faults := fk_faults a in
  let '(err, delay) :=
    if 0 <? af_AcknowledgementDelay faults then Wait ctx (af_AcknowledgementDelay faults) (fk_delay a)
    else (None, fk_delay a) in
  let a := mkFakeAdapter delay (fk_faults a) (fk_reported a) (fk_reads a) in
  iferr err as err yield ((zero_Acknowledgement, Some err), a);;
  let reported := if af_RelayStuckOn faults && negb (c_On command) then true else c_On command in
  let a := mkFakeAdapter delay (fk_faults a) (<[c_EquipmentID command := reported]> (fk_reported a)) (fk_reads a) in
  when af_LoseAcknowledgement faults yield ((zero_Acknowledgement, Some ErrAcknowledgementLost), a);;
  ((mkAcknowledgement true ReasonAcknowledged (UTC (now (fk_reads a))), None),
   mkFakeAdapter (fk_delay a) (fk_faults a) (fk_reported a) (S (fk_reads a))).

Definition Reported (equipmentID : EquipmentID) (a : FakeAdapter) : bool * bool :=
  match fk_reported a !! equipmentID with Some v => (v, true) | None => (false, false) end.

#[export] Instance FakeAdapter_Executor : Executor FakeAdapter := { Dispatch := Fake_Dispatch }.
End fake_adapter.

(** ** Theorems *)
Lemma SFcompare_antisym x y : SFcompare y x = CompOpp <$> SFcompare x y.
Proof.
  destruct x as [[]|[]| |[] m1 e1], y as [[]|[]| |[] m2 e2]; simpl; try done;
    rewrite (Z.compare_antisym e1 e2); destruct (e1 ?= e2)%Z; simpl; try done;
    change (Pos.compare_cont Eq) with Pos.compare;
    rewrite (Pos.compare_antisym m1 m2); by destruct (Pos.compare m1 m2).
Qed.

(** Doubles that are numbers are totally ordered. *)
Lemma F64_not_lt x y : IsNaN x = false → IsNaN y = false → F64_lt x y = false → F64_le y x = true.
Proof.
  unfold F64_lt, F64_le, SFltb, SFleb. rewrite (SFcompare_antisym x y).
  destruct x as [[]|[]| |[] m1 e1], y as [[]|[]| |[] m2 e2]; simpl; try done;
    destruct (e1 ?= e2)%Z; simpl; try done; by destruct (Pos.compare_cont Eq m1 m2).
Qed.

(** The clamp keeps a level between 0 and 100. *)
Definition level_ok (level : float64) : Prop :=
  IsNaN level = true ∨ F64_le (F64 0) level = true ∧ F64_le level (F64 100) = true.

Lemma clamp_ok level : level_ok (math_Max (F64 0) (math_Min (F64 100) level)).
Proof.
  unfold level_ok. change (F64 0) with (S754_zero false).
  destruct level as [s|[]| |s m e]; [by right|by right|by right|by left|].
  right. unfold math_Min. destruct (F64 100) as [| | |s100 m100 e100] eqn:H100; try discriminate H100.
  destruct (F64_lt (S754_finite s100 m100 e100) (S754_finite s m e)) eqn:Hlt.
  - vm_compute in H100. simplify_eq. by vm_compute.
  - unfold math_Max. destruct (F64_lt (S754_finite s m e) (S754_zero false)) eqn:H0.
    + vm_compute in H100. simplify_eq. by vm_compute.
    + split; [by apply F64_not_lt|]. by apply F64_not_lt.
Qed.

Section simulation.
Context (NormFloat64 : nat → float64).

Lemma observe_frame now faults r observed quality r' :
  observe NormFloat64 now faults r = (observed, quality, r') →
  mr_scenario r' = mr_scenario r ∧ mr_desired r' = mr_desired r ∧ mr_level r' = mr_level r.
Proof.
  unfold observe. destruct (is_zero_float _); destruct (hasFault _ _); intros; by simplify_eq/=.
Qed.

(** What every step records. *)
Record trace_ok (s : Scenario) (step : Z) (previous : EquipmentState) (t : Trace) : Prop := {
  to_step : tc_Step t = step;
  to_time : tc_Timestamp t = sn_Start s + wrap_int64 (step * sn_Step s);
  to_leak : tc_Leak t = true → tc_Desired t = zero_EquipmentState ∧ "sim.alarm.leak" ∈ tc_AlarmCodes t;
  to_stale : tc_TemperatureQuality t = QualityStale →
    es_Heater (tc_Desired t) = false ∧ "sim.alarm.sensor-stale" ∈ tc_AlarmCodes t;
  to_dosing : es_DosingPump (tc_Desired t) = false ∧ es_DosingPump (tc_Reported t) = false;
  to_stuck : es_Heater (tc_Reported t) = true → es_Heater (tc_Desired t) = false →
    "sim.alarm.relay-stuck-on" ∈ tc_AlarmCodes t;
  to_off : tc_SafeTransitions t ≡ₚ safeTransitions previous (tc_Desired t)
}.

Lemma elem_of_sorted (x : string) l : x ∈ sort_by id l ↔ x ∈ l.
Proof. by rewrite (sort_by_perm id l). Qed.

(** The supervisory decision is fail-safe. *)
Lemma decide_desired_safe observed quality leak r desired alarms :
  decide_desired observed quality leak r = (desired, alarms) →
  es_DosingPump desired = false
  ∧ (leak = true → desired = zero_EquipmentState ∧ "sim.alarm.leak" ∈ alarms)
  ∧ (quality = QualityStale → es_Heater desired = false ∧ "sim.alarm.sensor-stale" ∈ alarms).
Proof.
  unfold decide_desired. intros Hd.
  destruct (if bool_decide (quality = QualityStale) then _ else _) as [heater raised] eqn:Hh.
  assert (quality = QualityStale → heater = false ∧ "sim.alarm.sensor-stale" ∈ raised) as Hstale.
  { intros Hq. rewrite bool_decide_eq_true_2 in Hh by done. simplify_eq. split; [done|left]. }
  destruct leak; simplify_eq/=; split_and!; try done.
  - intros _. split; [done|]. apply elem_of_app. right. left.
  - intros Hq. split; [done|]. apply elem_of_app. left. by apply Hstale.
Qed.

Lemma report_step_stuck faults desired reported alarms :
  report_step faults desired = (reported, alarms) →
  es_DosingPump reported = es_DosingPump desired
  ∧ (es_Heater reported = true → es_Heater desired = false → "sim.alarm.relay-stuck-on" ∈ alarms).
Proof.
  unfold report_step. intros [= <- <-]. split; [done|]. simpl. intros Hr Hd. rewrite Hd in *.
  rewrite orb_false_r in Hr. rewrite Hr. left.
Qed.

Lemma model_tick_ok step r :
  let '(t, r') := model_tick NormFloat64 step r in
  trace_ok (mr_scenario r) step (mr_desired r) t
  ∧ mr_scenario r' = mr_scenario r ∧ mr_desired r' = tc_Desired t ∧ level_ok (mr_level r').
Proof.
  unfold model_tick. set (now := UTC _). set (faults := activeFaults step r).
  destruct (observe NormFloat64 now faults r) as [[observed quality] r1] eqn:Ho.
  apply observe_frame in Ho as (Hs & Hd & _).
  destruct (decide_desired observed quality (hasFault faults FaultLeak) r1) as [desired alarms] eqn:Hdes.
  apply decide_desired_safe in Hdes as (Hdose & Hleak & Hstale).
  destruct (acknowledge_step faults) as [ack acked].
  destruct (report_step faults desired) as [reported stuck] eqn:Hrep.
  apply report_step_stuck in Hrep as [Hrdose Hstuck].
  set (codes := (alarms ++ _) ++ acked ++ stuck).
  assert (∀ x, x ∈ alarms ∨ x ∈ stuck → x ∈ sort_by id codes) as Hin.
  { intros x Hx. rewrite elem_of_sorted. unfold codes. rewrite !elem_of_app. tauto. }
  clearbody codes. split_and!; [|done|done|apply clamp_ok].
  split; cbn [tc_Step tc_Timestamp tc_Leak tc_Desired tc_Reported tc_TemperatureQuality tc_AlarmCodes
    tc_SafeTransitions mr_desired mr_reported advancePhysics].
  - done.
  - done.
  - intros Hl. destruct (Hleak Hl). auto.
  - intros Hq. destruct (Hstale Hq). auto.
  - by rewrite Hrdose.
  - auto.
  - rewrite <- Hd. apply sort_by_perm.
Qed.

(** The equipment desired before step [i] of a run that began with [d]. *)
Definition desired_before (d : EquipmentState) (ts : list Trace) (i : nat) : EquipmentState :=
  match i with
  | O => d
  | S j => match ts !! j with Some t => tc_Desired t | None => d end
  end.

Lemma run_steps_ok n step r :
  let '(ts, r') := run_steps NormFloat64 n step r in
  length ts = n ∧ (level_ok (mr_level r) → level_ok (mr_level r'))
  ∧ ∀ i t, ts !! i = Some t →
      trace_ok (mr_scenario r) (step + Z.of_nat i) (desired_before (mr_desired r) ts i) t.
Proof.
  revert step r. induction n as [|n IH]; intros step r; simpl; [by split_and!|].
  pose proof (model_tick_ok step r) as Ht. destruct (model_tick NormFloat64 step r) as [t r1].
  destruct Ht as (Htrace & Hs & Hd & Hl). specialize (IH (step + 1) r1).
  destruct (run_steps NormFloat64 n (step + 1) r1) as [ts r2]. destruct IH as (Hlen & Hl2 & Hall).
  split_and!; [simpl; congruence|auto|]. intros [|i] u Hu; simplify_eq/=.
  - by rewrite Z.add_0_r.
  - specialize (Hall i u Hu). rewrite Hs in Hall.
    replace (step + Z.of_nat (S i)) with (step + 1 + Z.of_nat i) by lia.
    destruct i as [|i]; simpl in *; [by rewrite <- Hd|].
    destruct (ts !! i) eqn:Hi; [done|].
    apply lookup_ge_None in Hi. apply lookup_lt_Some in Hu. lia.
Qed.

Lemma Scenario_Validate_bounds s :
  Scenario_Validate s = None →
  0 < sn_Step s ≤ nanos_per_hour ∧ 1 ≤ sn_Steps s ≤ 100000
  ∧ F64_le (F64 0) (mo_InitialLevelPercent (sn_Model s)) = true
  ∧ F64_le (mo_InitialLevelPercent (sn_Model s)) (F64 100) = true.
Proof.
  unfold Scenario_Validate. intros Hv. destruct (negb _); [done|].
  destruct (_ || _) in Hv; [done|]. destruct (_ || _) eqn:Hstep in Hv; [done|].
  destruct (existsb _ _) eqn:Hfin; [done|]. destruct (_ || _) eqn:Hlev in Hv; [done|]. clear Hv.
  autorewrite with go_bool in Hstep, Hlev.
  assert (IsNaN (mo_InitialLevelPercent (sn_Model s)) = false) as Hnan.
  { simpl in Hfin. autorewrite with go_bool in Hfin. tauto. }
  split_and!; try lia; apply F64_not_lt; try done; tauto.
Qed.

(** A run of a valid scenario records exactly its steps at their times, and at
    every step a leak switches everything off and is alarmed, a stale
    temperature switches the heater off and is alarmed, the dosing pump stays
    off, a heater reported on against its command is alarmed and every switch-
    off is listed. *)
Theorem simulation_is_fail_safe s result :
  Run NormFloat64 s = inl result →
  Z.of_nat (length (sr_Traces result)) = sn_Steps s
  ∧ ∀ i t, sr_Traces result !! i = Some t →
      trace_ok s (Z.of_nat i)
        (desired_before (mkEquipmentState false true true false false) (sr_Traces result) i) t
      ∧ tc_Timestamp t = sn_Start s + Z.of_nat i * sn_Step s.
Proof.
  unfold Run. destruct (Scenario_Validate s) eqn:Hv; [done|]. intros [= <-]. simpl.
  apply Scenario_Validate_bounds in Hv as (Hstep & Hsteps & _).
  pose proof (run_steps_ok (Z.to_nat (sn_Steps s)) 0 (initial_runner s)) as Hr.
  destruct (run_steps NormFloat64 _ 0 (initial_runner s)) as [ts r']. destruct Hr as (Hlen & _ & Hall).
  simpl. split; [lia|]. intros i t Ht. specialize (Hall i t Ht). split; [done|].
  rewrite (to_time _ _ _ _ Hall). simpl. apply lookup_lt_Some in Ht.
  rewrite wrap_int64_id; [lia|]. unfold in_int64, min_int64, max_int64, nanos_per_hour in *. nia.
Qed.

(** The water level stays between empty and full through every run. *)
Theorem simulated_level_bounded s n :
  Scenario_Validate s = None →
  level_ok (mr_level (run_steps NormFloat64 n 0 (initial_runner s)).2).
Proof.
  intros (_ & _ & H0 & H100)%Scenario_Validate_bounds.
  pose proof (run_steps_ok n 0 (initial_runner s)) as Hr.
  destruct (run_steps NormFloat64 n 0 (initial_runner s)) as [ts r']. destruct Hr as (_ & Hl & _).
  apply Hl. by right.
Qed.
End simulation.
