(* ===== verification/Config.v ===== *)
(** * Configuration: [internal/config/config.go]

    The configuration snapshot with its defaults, the environment overrides,
    validation, redaction and copying. A slice is an [option (list A)], [None]
    being nil, because [Clone] turns empty slices into nil ones and
    [reflect.DeepEqual] tells them apart; a timestamp keeps its zone for the
    same reason. [net/url], [net] and the YAML decoder are interfaces; the
    order in which Go ranges over a map literal is an argument. *)

From Stdlib Require Import ZArith Lia String Ascii SpecFloat.
From stdpp Require Import base gmap strings list pretty.
From S2P Require Import Prelude Domain Events Topics.

(** ** Slices, timestamps and strings *)
Abbreviation Slice A := (option (list A)) (only parsing).

Definition elems {A} (s : Slice A) : list A := default [] s.

(** [append([]T(nil), s...)]: a copy, nil when there is nothing to copy. *)
Definition copy_slice {A B} (f : A → B) (s : Slice A) : Slice B :=
  match elems s with [] => None | l => Some (f <$> l) end.

Record Timestamp := mkTimestamp { ts_instant : Time; ts_zone : Z }.
Definition zero_Timestamp : Timestamp := mkTimestamp 0 0.

Definition code (c : ascii) : Z := Z.of_N (N_of_ascii c).

(** [strings.ToLower], as far as a comparison with ASCII text can tell: of the
    characters beyond ASCII only U+0130 and U+212A have an ASCII lower case. *)
Fixpoint ToLower (s : string) : string :=
  match s with
  | EmptyString => ""
  | String a rest =>
      let here := String (if in_range 65 90 a then ascii_of_N (Z.to_N (code a + 32)) else a) (ToLower rest) in
      match rest with
      | String b rest1 =>
          if (code a =? 196) && (code b =? 176) then String "i"%char (ToLower rest1)
          else match rest1 with
               | String c rest2 =>
                   if (code a =? 226) && (code b =? 132) && (code c =? 170)
                   then String "k"%char (ToLower rest2) else here
               | EmptyString => here
               end
      | EmptyString => here
      end
  end.

(** [strings.TrimSpace(s) == ""]: every character is white space of Unicode. *)
Fixpoint blank (s : string) : bool :=
  match s with
  | EmptyString => true
  | String a rest =>
      if in_range 9 13 a || (code a =? 32) then blank rest
      else match rest with
           | String b rest1 =>
               if (code a =? 194) && ((code b =? 133) || (code b =? 160)) then blank rest1
               else match rest1 with
                    | String c rest2 =>
                        if (code a =? 225) && (code b =? 154) && (code c =? 128)
                           || (code a =? 226) && (code b =? 128)
                              && (in_range 128 138 c || (code c =? 168) || (code c =? 169) || (code c =? 175))
                           || (code a =? 226) && (code b =? 129) && (code c =? 159)
                           || (code a =? 227) && (code b =? 128) && (code c =? 128)
                        then blank rest2 else false
                    | EmptyString => false
                    end
           | EmptyString => false
           end
  end.

(** [strings.TrimSpace]. *)
Fixpoint trim_left (s : string) : string :=
  match s with
  | EmptyString => ""
  | String a rest =>
      if in_range 9 13 a || (code a =? 32) then trim_left rest
      else match rest with
           | String b rest1 =>
               if blank (String a (String b "")) then trim_left rest1
               else match rest1 with
                    | String c rest2 => if blank (String a (String b (String c ""))) then trim_left rest2 else s
                    | EmptyString => s
                    end
           | EmptyString => s
           end
  end.
Fixpoint trim_right (s : string) : string :=
  if blank s then "" else match s with EmptyString => "" | String a rest => String a (trim_right rest) end.
Definition TrimSpace (s : string) : string := trim_right (trim_left s).

(** [path.Clean]: the elements between the slashes, with dots resolved. *)
Definition clean_step (rooted : bool) (stack : list string) (element : string) : list string :=
  if bool_decide (element = "") || bool_decide (element = ".") then stack
  else if bool_decide (element = "..") then
    match stack with
    | top :: below => if bool_decide (top = "..") then ".." :: stack else below
    | [] => if rooted then [] else [".."]
    end
  else element :: stack.

Definition path_Clean (p : string) : string :=
  let rooted := match p with String c _ => Ascii.eqb c slash | EmptyString => false end in
  let out := String.concat "/" (reverse (foldl (clean_step rooted) [] (splitTopic p))) in
  if rooted then "/" +:+ out else if bool_decide (out = "") then "." else out.

Definition oneOf (value : string) (allowed : list string) : bool := existsb (String.eqb value) allowed.

(** ** The snapshot *)
Record InfluxDB := mkInfluxDB {
  ix_Enabled : bool; ix_URL : string; ix_Organization : string; ix_Bucket : string; ix_TokenFile : string;
  ix_QueueCapacity : Z; ix_BatchSize : Z; ix_FlushInterval : Duration; ix_RetryMinimum : Duration;
  ix_RetryMaximum : Duration; ix_WriteTimeout : Duration
}.

Record Application := mkApplication {
  ap_LogLevel : string; ap_StartupTimeout : Duration; ap_ShutdownTimeout : Duration;
  ap_ComponentTimeout : Duration; ap_EventConcurrency : Z
}.

Record HTTP := mkHTTP {
  ht_Address : string; ht_ReadTimeout : Duration; ht_WriteTimeout : Duration; ht_IdleTimeout : Duration;
  ht_BearerTokenFile : string; ht_MaximumRequestBytes : Z; ht_MutationRate : Z; ht_MutationBurst : Z
}.

Record HomeAssistantTombstone := mkTombstone { tb_Component : string; tb_ObjectID : string }.

Record HomeAssistant := mkHomeAssistant {
  ha_Enabled : bool; ha_CommandTTL : Duration; ha_Tombstones : Slice HomeAssistantTombstone
}.

Record MQTT := mkMQTT {
  mq_Enabled : bool; mq_SiteID : string; mq_Broker : string; mq_ClientID : string; mq_Username : string;
  mq_Password : string; mq_ConnectTimeout : Duration; mq_KeepAlive : Duration;
  mq_DisconnectQuiesce : Duration; mq_RequiredForReady : bool; mq_MaximumPayload : Z; mq_QueueCapacity : Z;
  mq_IdempotencyCapacity : Z; mq_ReconnectMinimum : Duration; mq_ReconnectMaximum : Duration;
  mq_ReconnectJitter : float64; mq_HomeAssistant : HomeAssistant
}.

Record ShellyEndpoint := mkShellyEndpoint {
  sh_ID : string; sh_EquipmentID : string; sh_AlarmRuleID : string; sh_BaseURL : string; sh_Channel : Z;
  sh_PollInterval : Duration; sh_RequestTimeout : Duration; sh_Retries : Z; sh_SafeOn : bool;
  sh_PowerReturnPolicy : string; sh_EquipmentKind : string; sh_MaximumOn : Duration;
  sh_RequiredProbeIDs : Slice string
}.

Record ESP32Endpoint := mkESP32Endpoint {
  ec_ID : string; ec_DeviceID : string; ec_AlarmRuleID : string; ec_BaseURL : string;
  ec_BearerTokenFile : string; ec_ProbeIDs : Slice string; ec_PollInterval : Duration;
  ec_RequestTimeout : Duration; ec_FreshFor : Duration; ec_MaximumClockSkew : Duration;
  ec_MaximumDifference : float64
}.

Record Adapters := mkAdapters {
  ad_ShellyEnabled : bool; ad_ShellyEndpoints : Slice ShellyEndpoint;
  ad_ESP32Enabled : bool; ad_ESP32Endpoints : Slice ESP32Endpoint
}.

Record Bench := mkBench { bn_Enabled : bool; bn_SafeLoadAcknowledged : bool }.

Record DeviceConfig := mkDeviceConfig {
  dc_ID : string; dc_EntityID : string; dc_Name : string; dc_Description : string; dc_Manufacturer : string;
  dc_Model : string; dc_Firmware : string; dc_Metadata : option (gmap string string)
}.

Record Calibration := mkCalibration {
  ca_Enabled : bool; ca_Scale : float64; ca_Offset : float64; ca_Reference : string;
  ca_CalibratedBy : string; ca_CalibratedAt : Timestamp
}.

Record SensorConfig := mkSensorConfig {
  sg_ID : string; sg_EntityID : string; sg_DeviceID : string; sg_Unit : string; sg_Minimum : option float64;
  sg_Maximum : option float64; sg_Name : string; sg_Quantity : string; sg_Calibration : Calibration
}.

Record Commissioning := mkCommissioning {
  cm_Stage : string; cm_SafeTestLoad : bool; cm_FailSafeStateVerified : bool; cm_PowerReturnVerified : bool;
  cm_IndependentSafeguardPresent : bool; cm_VerifiedBy : string; cm_VerifiedAt : Timestamp
}.

Record EquipmentConfig := mkEquipmentConfig {
  qc_ID : string; qc_EntityID : string; qc_DeviceID : string; qc_Name : string; qc_Kind : string;
  qc_Capabilities : Slice Capability; qc_Hazardous : bool; qc_FailSafeOn : bool; qc_MaximumOn : Duration;
  qc_MaximumDaily : Duration; qc_MinimumOff : Duration; qc_RequiredSensorIDs : Slice string;
  qc_Commissioning : Commissioning
}.

Record Inventory := mkInventory {
  iv_Devices : Slice DeviceConfig; iv_Sensors : Slice SensorConfig; iv_Equipment : Slice EquipmentConfig
}.

Record AlarmRule := mkAlarmRule {
  ar_ID : string; ar_Name : string; ar_SensorID : string; ar_Condition : string; ar_Threshold : float64;
  ar_ThresholdHigh : option float64; ar_Severity : string; ar_Delay : Duration; ar_ClearDelay : Duration;
  ar_Latching : bool; ar_Notifications : Slice string
}.

Record Backup := mkBackup { bk_Enabled : bool; bk_Destination : string; bk_RetentionDays : Z }.

Record Config := mkConfig {
  cf_SchemaVersion : Z; cf_Application : Application; cf_HTTP : HTTP; cf_MQTT : MQTT;
  cf_SimulatorEnabled : bool; cf_Adapters : Adapters; cf_Bench : Bench; cf_Storage : InfluxDB;
  cf_Inventory : Inventory; cf_AlarmRules : Slice AlarmRule; cf_Backups : Backup
}.

Definition CurrentSchemaVersion : Z := 1.
Definition redactedSecret : string := "[REDACTED]".
Definition identifierPattern : string → bool := segment_pattern "-"%char.
Definition haIdentifierPattern : string → bool := segment_pattern "_"%char.

(** 0.2 and 0.5, as the compiler rounds the literals. *)
Definition F64_0_2 : float64 := F64_div (F64 2) (F64 10).
Definition F64_0_5 : float64 := F64_div (F64 1) (F64 2).

Definition Defaults : Config :=
  mkConfig CurrentSchemaVersion
    (mkApplication "info" (30 * Second) (15 * Second) (5 * Second) 64)
    (mkHTTP "localhost:8080" (5 * Second) (10 * Second) (60 * Second) "" (64 * 1024) 10 20)
    (mkMQTT false "" "" "" "" "" (10 * Second) (30 * Second) (250 * 10 ^ 6) false (256 * 1024) 256 4096 Second
       Minute F64_0_2 (mkHomeAssistant false (10 * Second) None))
    true
    (mkAdapters false None false None)
    (mkBench false false)
    (mkInfluxDB false "" "" "" "" 4096 200 (5 * Second) Second Minute (5 * Second))
    (mkInventory (Some []) (Some []) (Some []))
    (Some [])
    (mkBackup false "" 0).

(** ** Interfaces *)
Record URL := mkURL {
  url_Scheme : string; url_Host : string; url_User : bool; url_RawQuery : string; url_Fragment : string
}.

(** [url.Parse], with whether user information is present. *)
Class URLParser := { url_Parse : string → option URL }.

(** The host of [net.SplitHostPort], and whether [net.ParseIP] reads a host as
    a loopback address. *)
Class NetParser := { SplitHost : string → option string; LoopbackIP : string → bool }.

(** The order in which Go ranges over a map literal. *)
Class MapRange := {
  map_range : ∀ {A}, list (string * A) → list (string * A);
  map_range_perm : ∀ {A} (l : list (string * A)), map_range l ≡ₚ l
}.

(** ** Loops *)

(** [for index, x := range l] with an early return. *)
Fixpoint first_error {A} (f : Z → A → option error) (index : Z) (l : list A) : option error :=
  match l with
  | [] => None
  | x :: rest => iferr f index x as err yield Some err;; first_error f (index + 1) rest
  end.

(** The same with local variables. *)
Fixpoint range_loop {A T} (f : Z → A → T → error + T) (index : Z) (l : list A) (t : T) : error + T :=
  match l with
  | [] => inr t
  | x :: rest =>
      match f index x t with
      | inl err => inl err
      | inr t => range_loop f (index + 1) rest t
      end
  end.

Definition validationError (path code message : string) : error :=
  ErrStruct "config.ValidationError" [path; code; message].

Definition validateID (path id : string) : option error :=
  when negb (identifierPattern id) yield
    Some (validationError path "invalid_id" "must match ^[a-z][a-z0-9-]{0,62}$");;
  None.

Definition at_index (path : string) (index : Z) : string := path +:+ "[" +:+ pretty index +:+ "]".

Section validation.
Context `{!URLParser, !NetParser, !MapRange}.
(** The text of an error, [err.Error()]. *)
Context (render : error → string).

Definition config_validateUUID (path value : string) : option error :=
  iferr validateUUID value as err yield Some (validationError path "invalid_uuid" (render err));;
  None.

(** The two loops over map literals. *)
Definition validate_timeout (_ : Z) (entry : string * Duration) : option error :=
  when (entry.2 <=? 0) || (10 * Minute <? entry.2) yield
    Some (validationError entry.1 "out_of_range" "must be greater than zero and at most 10m");;
  None.

Definition timeouts (c : Config) : list (string * Duration) :=
  [("application.startup_timeout", ap_StartupTimeout (cf_Application c));
   ("application.shutdown_timeout", ap_ShutdownTimeout (cf_Application c));
   ("application.component_timeout", ap_ComponentTimeout (cf_Application c));
   ("http.read_timeout", ht_ReadTimeout (cf_HTTP c)); ("http.write_timeout", ht_WriteTimeout (cf_HTTP c));
   ("http.idle_timeout", ht_IdleTimeout (cf_HTTP c))].

Definition validate_uuids (base : string) (fields : list (string * string)) : option error :=
  first_error (fun _ entry => config_validateUUID (base +:+ "." +:+ entry.1) entry.2) 0 (map_range fields).

Definition validate_http (c : Config) : option error :=
  let h := cf_HTTP c in
  when blank (ht_Address h) yield Some (validationError "http.address" "required" "is required");;
  match SplitHost (ht_Address h) with
  | None => Some (validationError "http.address" "invalid_address" "must contain a host and port")
  | Some host =>
      let loopback := bool_decide (host = "localhost") || LoopbackIP host in
      when negb loopback && bool_decide (ht_BearerTokenFile h = "") yield
        Some (validationError "http.bearer_token_file" "required" "is required for a non-loopback listener");;
      when (ht_MaximumRequestBytes h <? 1024) || (1024 * 1024 <? ht_MaximumRequestBytes h) yield
        Some (validationError "http.maximum_request_bytes" "out_of_range" "must be between 1024 and 1048576");;
      when (ht_MutationRate h <? 1) || (1000 <? ht_MutationRate h) || (ht_MutationBurst h <? 1)
           || (1000 <? ht_MutationBurst h) yield
        Some (validationError "http.mutation_rate" "out_of_range" "mutation rate and burst must be between 1 and 1000");;
      None
  end.

Definition validate_mqtt (m : MQTT) : option error :=
  when negb (identifierPattern (mq_SiteID m)) yield
    Some (validationError "mqtt.site_id" "invalid_id" "must be lowercase kebab-case when MQTT is enabled");;
  when bool_decide (mq_Broker m = "") yield
    Some (validationError "mqtt.broker" "required" "is required when MQTT is enabled");;
  match url_Parse (mq_Broker m) with
  | None => Some (validationError "mqtt.broker" "invalid_uri" "must be a tcp:// or ssl:// URI with a host")
  | Some parsed =>
      when negb (bool_decide (url_Scheme parsed = "tcp")) && negb (bool_decide (url_Scheme parsed = "ssl"))
           || bool_decide (url_Host parsed = "") yield
        Some (validationError "mqtt.broker" "invalid_uri" "must be a tcp:// or ssl:// URI with a host");;
      when url_User parsed yield
        Some (validationError "mqtt.broker" "secret_inline" "must not contain credentials; use explicit environment overrides");;
      when bool_decide (mq_ClientID m = "") yield
        Some (validationError "mqtt.client_id" "required" "is required when MQTT is enabled");;
      when (mq_ConnectTimeout m <=? 0) || (Minute <? mq_ConnectTimeout m) yield
        Some (validationError "mqtt.connect_timeout" "out_of_range" "must be greater than zero and at most 1m");;
      when (mq_KeepAlive m <? Second) || (10 * Minute <? mq_KeepAlive m) yield
        Some (validationError "mqtt.keep_alive" "out_of_range" "must be between 1s and 10m");;
      when (mq_MaximumPayload m <? 256) || (16 * 1024 * 1024 <? mq_MaximumPayload m) yield
        Some (validationError "mqtt.maximum_payload" "out_of_range" "must be between 256 and 16777216 bytes");;
      when (mq_QueueCapacity m <? 1) || (65536 <? mq_QueueCapacity m) || (mq_IdempotencyCapacity m <? 1)
           || (1000000 <? mq_IdempotencyCapacity m) yield
        Some (validationError "mqtt.queue_capacity" "out_of_range" "queue and idempotency capacities are outside safe bounds");;
      when (mq_ReconnectMinimum m <=? 0) || (mq_ReconnectMaximum m <? mq_ReconnectMinimum m)
           || (10 * Minute <? mq_ReconnectMaximum m) yield
        Some (validationError "mqtt.reconnect_maximum" "out_of_range" "reconnect bounds are invalid");;
      when F64_lt (mq_ReconnectJitter m) (F64 0) || F64_lt F64_0_5 (mq_ReconnectJitter m) yield
        Some (validationError "mqtt.reconnect_jitter" "out_of_range" "must be between 0 and 0.5");;
      None
  end.

Definition validate_home_assistant (m : MQTT) : option error :=
  let ha := mq_HomeAssistant m in
  when ha_Enabled ha && negb (mq_Enabled m) yield
    Some (validationError "mqtt.home_assistant.enabled" "dependency_disabled" "requires MQTT to be enabled");;
  when (ha_CommandTTL ha <=? 0) || (Minute <? ha_CommandTTL ha) yield
    Some (validationError "mqtt.home_assistant.command_ttl" "out_of_range" "must be greater than zero and at most 1m");;
  None.

Definition validate_storage (storage : InfluxDB) : option error :=
  when (ix_QueueCapacity storage <? 1) || (1000000 <? ix_QueueCapacity storage) || (ix_BatchSize storage <? 1)
       || (ix_QueueCapacity storage <? ix_BatchSize storage) yield
    Some (validationError "storage.influxdb.queue_capacity" "out_of_range" "queue and batch bounds are invalid");;
  when (ix_FlushInterval storage <=? 0) || (ix_RetryMinimum storage <=? 0)
       || (ix_RetryMaximum storage <? ix_RetryMinimum storage) || (10 * Minute <? ix_RetryMaximum storage)
       || (ix_WriteTimeout storage <=? 0) || (Minute <? ix_WriteTimeout storage) yield
    Some (validationError "storage.influxdb.retry_maximum" "out_of_range" "storage timing bounds are invalid");;
  when negb (ix_Enabled storage) yield None;;
  match url_Parse (ix_URL storage) with
  | None => Some (validationError "storage.influxdb.url" "invalid_uri" "must be an HTTP or HTTPS origin")
  | Some parsed =>
      when bool_decide (url_Host parsed = "")
           || negb (bool_decide (url_Scheme parsed = "http")) && negb (bool_decide (url_Scheme parsed = "https")) yield
        Some (validationError "storage.influxdb.url" "invalid_uri" "must be an HTTP or HTTPS origin");;
      when url_User parsed yield
        Some (validationError "storage.influxdb.url" "secret_inline" "must not contain credentials");;
      when bool_decide (ix_Organization storage = "") || bool_decide (ix_Bucket storage = "")
           || bool_decide (ix_TokenFile storage = "") yield
        Some (validationError "storage.influxdb" "required" "organization, bucket, and token_file are required when enabled");;
      None
  end.

Definition validate_tombstone (index : Z) (item : HomeAssistantTombstone) : option error :=
  when negb (haIdentifierPattern (tb_Component item)) || negb (identifierPattern (tb_ObjectID item)) yield
    Some (validationError (at_index "mqtt.home_assistant.tombstones" index) "invalid_id" "component or object_id is invalid");;
  None.

(** *** Adapters *)
Definition endpoint_url_ok (schemes : list string) (text : string) : bool :=
  match url_Parse text with
  | None => false
  | Some parsed =>
      oneOf (url_Scheme parsed) schemes && negb (bool_decide (url_Host parsed = "")) && negb (url_User parsed)
      && bool_decide (url_RawQuery parsed = "") && bool_decide (url_Fragment parsed = "")
  end.

(** What the two kinds of equipment require. *)
Definition validate_shelly_kind (base : string) (e : ShellyEndpoint) : option error :=
  if bool_decide (sh_EquipmentKind e = "heater") then
    when sh_SafeOn e yield
      Some (validationError (base +:+ ".safe_on") "unsafe_value" "must be false for heater equipment");;
    when sh_MaximumOn e <=? 0 yield
      Some (validationError (base +:+ ".maximum_on") "out_of_range" "must be positive for heater equipment");;
    match elems (sh_RequiredProbeIDs e) with
    | [first; second] =>
        iferr first_error (fun index probeID =>
                config_validateUUID (at_index (base +:+ ".required_probe_ids") index) probeID) 0 [first; second]
          as err yield Some err;;
        when bool_decide (first = second) yield
          Some (validationError (base +:+ ".required_probe_ids") "duplicate_id" "heater probes must be independent");;
        None
    | _ => Some (validationError (base +:+ ".required_probe_ids") "invalid_count" "must contain both independent probe IDs for heater equipment")
    end
  else
    when (sh_MaximumOn e <? 0) || negb (bool_decide (elems (sh_RequiredProbeIDs e) = [])) yield
      Some (validationError (base +:+ ".maximum_on") "invalid_combination" "outlet equipment cannot declare heater probe requirements and maximum_on cannot be negative");;
    None.

(** The part of an iteration that reads the endpoint alone. *)
Definition validate_shelly_fields (base : string) (e : ShellyEndpoint) : option error :=
  when negb (endpoint_url_ok ["http"] (sh_BaseURL e)) yield
    Some (validationError (base +:+ ".base_url") "invalid_uri" "must be an unauthenticated http URL with a host");;
  when (sh_Channel e <? 0) || (31 <? sh_Channel e) yield
    Some (validationError (base +:+ ".channel") "out_of_range" "must be between 0 and 31");;
  when (sh_PollInterval e <=? 0) || (sh_RequestTimeout e <=? 0) || (sh_PollInterval e <? sh_RequestTimeout e) yield
    Some (validationError (base +:+ ".request_timeout") "out_of_range" "must be positive and no greater than poll_interval");;
  when (sh_Retries e <? 0) || (5 <? sh_Retries e) yield
    Some (validationError (base +:+ ".retries") "out_of_range" "must be between 0 and 5");;
  when negb (bool_decide (sh_PowerReturnPolicy e = "off")) && negb (bool_decide (sh_PowerReturnPolicy e = "restore")) yield
    Some (validationError (base +:+ ".power_return_policy") "invalid_enum" "must be off or restore");;
  when negb (bool_decide (sh_EquipmentKind e = "outlet")) && negb (bool_decide (sh_EquipmentKind e = "heater")) yield
    Some (validationError (base +:+ ".equipment_kind") "invalid_enum" "must be outlet or heater");;
  validate_shelly_kind base e.

(** The sets of identities seen so far. *)
Record Seen := mkSeen {
  sn_endpoints : gset string; sn_equipment : gset string; sn_devices : gset string; sn_probes : gset string
}.

Definition validate_shelly (index : Z) (e : ShellyEndpoint) (seen : Seen) : error + Seen :=
  let base := at_index "adapters.shelly.endpoints" index in
  iferr validate_uuids base [("id", sh_ID e); ("equipment_id", sh_EquipmentID e); ("alarm_rule_id", sh_AlarmRuleID e)]
    as err yield inl err;;
  when bool_decide (sh_ID e ∈ sn_endpoints seen) yield
    inl (validationError (base +:+ ".id") "duplicate_id" ("duplicates endpoint " +:+ sh_ID e));;
  when bool_decide (sh_EquipmentID e ∈ sn_equipment seen) yield
    inl (validationError (base +:+ ".equipment_id") "duplicate_id" "equipment has more than one owning adapter");;
  iferr validate_shelly_fields base e as err yield inl err;;
  inr (mkSeen ({[sh_ID e]} ∪ sn_endpoints seen) ({[sh_EquipmentID e]} ∪ sn_equipment seen) (sn_devices seen)
         (sn_probes seen)).

(** One turn of the loop over the probes of a node. *)
Definition validate_probe (base : string) (index : Z) (probeID : string) (probes : gset string) :
    error + gset string :=
  iferr config_validateUUID (at_index (base +:+ ".probe_ids") index) probeID as err yield inl err;;
  when bool_decide (probeID ∈ probes) yield
    inl (validationError (base +:+ ".probe_ids") "duplicate_id" "probe identity is reused");;
  inr ({[probeID]} ∪ probes).

(** The bounds at the end of an iteration. *)
Definition validate_esp32_bounds (base : string) (e : ESP32Endpoint) : option error :=
  when (ec_PollInterval e <=? 0) || (ec_RequestTimeout e <=? 0) || (ec_PollInterval e <? ec_RequestTimeout e)
       || (ec_FreshFor e <? ec_PollInterval e) yield
    Some (validationError (base +:+ ".fresh_for") "out_of_range" "poll, timeout, and freshness bounds are invalid");;
  when (ec_MaximumClockSkew e <? 0) || (Minute <? ec_MaximumClockSkew e) yield
    Some (validationError (base +:+ ".maximum_clock_skew") "out_of_range" "must be between zero and 1m");;
  when F64_le (ec_MaximumDifference e) (F64 0) || F64_lt (F64 10) (ec_MaximumDifference e) yield
    Some (validationError (base +:+ ".maximum_difference_celsius") "out_of_range" "must be greater than zero and at most 10");;
  None.

Definition validate_esp32 (index : Z) (e : ESP32Endpoint) (seen : Seen) : error + Seen :=
  let base := at_index "adapters.esp32.endpoints" index in
  iferr validate_uuids base [("id", ec_ID e); ("device_id", ec_DeviceID e); ("alarm_rule_id", ec_AlarmRuleID e)]
    as err yield inl err;;
  when bool_decide (ec_ID e ∈ sn_endpoints seen) yield
    inl (validationError (base +:+ ".id") "duplicate_id" ("duplicates endpoint " +:+ ec_ID e));;
  when bool_decide (ec_DeviceID e ∈ sn_devices seen) yield
    inl (validationError (base +:+ ".device_id") "duplicate_id" "device has more than one node endpoint");;
  when negb (endpoint_url_ok ["http"; "https"] (ec_BaseURL e)) yield
    inl (validationError (base +:+ ".base_url") "invalid_uri" "must be an http or https URL with a host and no credentials");;
  when negb (bool_decide (length (elems (ec_ProbeIDs e)) = 2%nat)) yield
    inl (validationError (base +:+ ".probe_ids") "invalid_count" "must contain exactly two probe IDs");;
  match range_loop (validate_probe base) 0 (elems (ec_ProbeIDs e)) (sn_probes seen) with
  | inl err => inl err
  | inr probes =>
      iferr validate_esp32_bounds base e as err yield inl err;;
      inr (mkSeen ({[ec_ID e]} ∪ sn_endpoints seen) (sn_equipment seen) ({[ec_DeviceID e]} ∪ sn_devices seen) probes)
  end.

(** The references from heaters to probes. *)
Definition validate_heater (a : Adapters) (probes : gset string) (index : Z) (e : ShellyEndpoint) : option error :=
  when negb (bool_decide (sh_EquipmentKind e = "heater")) || negb (ad_ShellyEnabled a) yield None;;
  let path := at_index "adapters.shelly.endpoints" index +:+ ".required_probe_ids" in
  when negb (ad_ESP32Enabled a) yield
    Some (validationError path "adapter_dependency" "heater bench equipment requires the direct ESP32 adapter");;
  first_error (fun _ probeID =>
    when negb (bool_decide (probeID ∈ probes)) yield
      Some (validationError path "invalid_reference" ("references an unknown ESP32 probe " +:+ probeID));;
    None) 0 (elems (sh_RequiredProbeIDs e)).

Definition validateAdapters (c : Config) : option error :=
  let a := cf_Adapters c in
  let realEnabled := ad_ShellyEnabled a || ad_ESP32Enabled a in
  when realEnabled && cf_SimulatorEnabled c yield
    Some (validationError "simulator.enabled" "adapter_conflict" "must be false when a real adapter is enabled");;
  when realEnabled && (negb (bn_Enabled (cf_Bench c)) || negb (bn_SafeLoadAcknowledged (cf_Bench c))) yield
    Some (validationError "bench.safe_load_acknowledged" "activation_guard" "must be true with bench.enabled before real adapters can start");;
  when ad_ShellyEnabled a && bool_decide (elems (ad_ShellyEndpoints a) = []) yield
    Some (validationError "adapters.shelly.endpoints" "required" "must contain at least one endpoint when enabled");;
  match range_loop validate_shelly 0 (elems (ad_ShellyEndpoints a)) (mkSeen ∅ ∅ ∅ ∅) with
  | inl err => Some err
  | inr seen =>
      when ad_ESP32Enabled a && bool_decide (elems (ad_ESP32Endpoints a) = []) yield
        Some (validationError "adapters.esp32.endpoints" "required" "must contain at least one endpoint when enabled");;
      match range_loop validate_esp32 0 (elems (ad_ESP32Endpoints a)) seen with
      | inl err => Some err
      | inr seen => first_error (validate_heater a (sn_probes seen)) 0 (elems (ad_ShellyEndpoints a))
      end
  end.

(** *** Inventory *)
Definition validate_entity (path id : string) : option error :=
  when bool_decide (id = "") yield None;; config_validateUUID path id.

Definition validate_device (index : Z) (device : DeviceConfig) (devices : gset string) : error + gset string :=
  let path := at_index "inventory.devices" index +:+ ".id" in
  iferr validateID path (dc_ID device) as err yield inl err;;
  when bool_decide (dc_ID device ∈ devices) yield
    inl (validationError path "duplicate_id" ("duplicates " +:+ dc_ID device));;
  iferr validate_entity (at_index "inventory.devices" index +:+ ".entity_id") (dc_EntityID device) as err yield inl err;;
  inr ({[dc_ID device]} ∪ devices).

Definition not_finite (value : option float64) : bool :=
  match value with Some v => IsNaN v || IsInf v | None => false end.

Definition validate_calibration (base : string) (c : Calibration) : option error :=
  when negb (ca_Enabled c) yield None;;
  when F64_eq (ca_Scale c) (F64 0) || not_finite (Some (ca_Scale c)) || not_finite (Some (ca_Offset c)) yield
    Some (validationError (base +:+ ".calibration") "out_of_range" "scale must be non-zero and calibration values must be finite");;
  when blank (ca_Reference c) || blank (ca_CalibratedBy c) || IsZero (ts_instant (ca_CalibratedAt c)) yield
    Some (validationError (base +:+ ".calibration") "evidence_required" "reference, operator, and calibration time are required");;
  None.

Definition validate_sensor_fields (base : string) (devices : gset string) (s : SensorConfig) : option error :=
  iferr validate_entity (base +:+ ".entity_id") (sg_EntityID s) as err yield Some err;;
  when negb (bool_decide (sg_DeviceID s ∈ devices)) yield
    Some (validationError (base +:+ ".device_id") "invalid_reference" ("references unknown device " +:+ sg_DeviceID s));;
  when negb (oneOf (sg_Unit s) ["celsius"; "fahrenheit"; "pH"; "ppt"; "liters_per_hour"; "boolean"]) yield
    Some (validationError (base +:+ ".unit") "unsupported_unit" "is not a supported canonical unit");;
  when not_finite (sg_Minimum s) yield
    Some (validationError (base +:+ ".minimum") "out_of_range" "must be finite");;
  when not_finite (sg_Maximum s) yield
    Some (validationError (base +:+ ".maximum") "out_of_range" "must be finite");;
  when match sg_Minimum s, sg_Maximum s with Some lo, Some hi => F64_le hi lo | _, _ => false end yield
    Some (validationError (base +:+ ".maximum") "out_of_range" "must be greater than minimum");;
  validate_calibration base (sg_Calibration s).

(** [seen] maps an identity to where it was declared. *)
Definition validate_sensor_item (devices : gset string) (index : Z) (s : SensorConfig)
    (t : gmap string string * gset string) : error + (gmap string string * gset string) :=
  let '(seen, sensorIDs) := t in
  let base := at_index "inventory.sensors" index in
  iferr validateID (base +:+ ".id") (sg_ID s) as err yield inl err;;
  match seen !! sg_ID s with
  | Some previous => inl (validationError (base +:+ ".id") "duplicate_id" ("duplicates " +:+ previous))
  | None =>
      iferr validate_sensor_fields base devices s as err yield inl err;;
      inr (<[sg_ID s := base +:+ ".id"]> seen, {[sg_ID s]} ∪ sensorIDs)
  end.

Definition Commissioning_validate (path : string) (c : Commissioning) : option error :=
  let stage := if bool_decide (cm_Stage c = "") then "uncommissioned" else cm_Stage c in
  when negb (oneOf stage ["uncommissioned"; "discovered"; "mapped"; "configured"; "validated"; "bench-tested";
                          "commissioned"; "disabled"]) yield
    Some (validationError (path +:+ ".stage") "invalid_enum" "is not a supported commissioning stage");;
  None.

Definition validate_equipment_fields (base : string) (devices sensorIDs : gset string) (e : EquipmentConfig) :
    option error :=
  iferr validate_entity (base +:+ ".entity_id") (qc_EntityID e) as err yield Some err;;
  when negb (bool_decide (qc_DeviceID e ∈ devices)) yield
    Some (validationError (base +:+ ".device_id") "invalid_reference" ("references unknown device " +:+ qc_DeviceID e));;
  when negb (bool_decide (qc_Kind e = ""))
       && negb (oneOf (qc_Kind e) ["outlet"; "heater"; "return-pump"; "circulation-pump"; "dosing-pump"; "light"; "ato"]) yield
    Some (validationError (base +:+ ".kind") "invalid_enum" "is not a supported equipment kind");;
  iferr (if bool_decide (qc_Kind e = "") then None else ValidateCapabilities (elems (qc_Capabilities e)))
    as err yield Some (validationError (base +:+ ".capabilities") "invalid_capability" (render err));;
  when (qc_MaximumOn e <? 0) || (qc_MaximumDaily e <? 0) || (qc_MinimumOff e <? 0) yield
    Some (validationError (base +:+ ".maximum_on") "out_of_range" "equipment time limits cannot be negative");;
  when (0 <? qc_MaximumDaily e) && (qc_MaximumDaily e <? qc_MaximumOn e) yield
    Some (validationError (base +:+ ".maximum_daily_on") "out_of_range" "must be at least maximum_on");;
  let hazardousKind := oneOf (qc_Kind e) ["heater"; "dosing-pump"; "ato"] in
  when hazardousKind && (negb (qc_Hazardous e) || qc_FailSafeOn e || (qc_MaximumOn e <=? 0)
         || bool_decide (elems (qc_RequiredSensorIDs e) = [])) yield
    Some (validationError base "unsafe_equipment" "heater, dosing-pump, and ATO equipment must be hazardous, fail safe off, have a positive maximum_on, and require safety sensors");;
  iferr first_error (fun _ sensorID =>
          when negb (bool_decide (sensorID ∈ sensorIDs)) yield
            Some (validationError (base +:+ ".required_sensor_ids") "invalid_reference" ("references unknown sensor " +:+ sensorID));;
          None) 0 (elems (qc_RequiredSensorIDs e))
    as err yield Some err;;
  when bool_decide (qc_Kind e = "dosing-pump") && (qc_MaximumDaily e <=? 0) yield
    Some (validationError (base +:+ ".maximum_daily_on") "required" "is required for dosing equipment");;
  Commissioning_validate (base +:+ ".commissioning") (qc_Commissioning e).

Definition validate_equipment_item (devices sensorIDs : gset string) (index : Z) (e : EquipmentConfig)
    (seen : gmap string string) : error + gmap string string :=
  let base := at_index "inventory.equipment" index in
  iferr validateID (base +:+ ".id") (qc_ID e) as err yield inl err;;
  match seen !! qc_ID e with
  | Some previous => inl (validationError (base +:+ ".id") "duplicate_id" ("duplicates " +:+ previous))
  | None =>
      iferr validate_equipment_fields base devices sensorIDs e as err yield inl err;;
      inr (<[qc_ID e := base +:+ ".id"]> seen)
  end.

Definition Inventory_validate (i : Inventory) : option error :=
  match range_loop validate_device 0 (elems (iv_Devices i)) ∅ with
  | inl err => Some err
  | inr devices =>
      match range_loop (validate_sensor_item devices) 0 (elems (iv_Sensors i)) (∅, ∅) with
      | inl err => Some err
      | inr (seen, sensorIDs) =>
          match range_loop (validate_equipment_item devices sensorIDs) 0 (elems (iv_Equipment i)) seen with
          | inl err => Some err
          | inr _ => None
          end
      end
  end.

(** *** Alarm rules and backups *)

(** Later declarations of an identity replace earlier ones. *)
Definition by_id {A B} (id : A → string) (f : A → B) (l : list A) : gmap string B :=
  foldl (fun m x => <[id x := f x]> m) ∅ l.

Definition validate_rule_fields (base : string) (sensors : gmap string string) (r : AlarmRule) : option error :=
  match sensors !! ar_SensorID r with
  | None =>
      Some (validationError (base +:+ ".sensor_id") "invalid_reference" ("references unknown sensor " +:+ ar_SensorID r))
  | Some entityID =>
      when bool_decide (entityID = "") yield
        Some (validationError (base +:+ ".sensor_id") "runtime_identity_required" "referenced sensor requires entity_id");;
      when blank (ar_Name r) yield Some (validationError (base +:+ ".name") "required" "is required");;
      when negb (oneOf (ar_Condition r) ["above"; "below"; "outside"; "true"; "false"]) yield
        Some (validationError (base +:+ ".condition") "invalid_enum" "must be above, below, outside, true, or false");;
      when not_finite (Some (ar_Threshold r)) || not_finite (ar_ThresholdHigh r) yield
        Some (validationError (base +:+ ".threshold") "out_of_range" "threshold values must be finite");;
      when bool_decide (ar_Condition r = "outside")
           && match ar_ThresholdHigh r with None => true | Some hi => F64_le hi (ar_Threshold r) end yield
        Some (validationError (base +:+ ".threshold_high") "out_of_range" "outside condition requires an upper threshold greater than the lower threshold");;
      when negb (oneOf (ar_Severity r) ["info"; "warning"; "critical"]) yield
        Some (validationError (base +:+ ".severity") "invalid_enum" "must be info, warning, or critical");;
      when (ar_Delay r <? 0) || (24 * Hour <? ar_Delay r) || (ar_ClearDelay r <? 0) || (24 * Hour <? ar_ClearDelay r) yield
        Some (validationError (base +:+ ".delay") "out_of_range" "delay and clear_delay must be between zero and 24h");;
      first_error (fun _ target =>
        when negb (oneOf target ["home-assistant"; "mqtt"; "log"]) yield
          Some (validationError (base +:+ ".notifications") "invalid_enum" "contains an unsupported notification target");;
        None) 0 (elems (ar_Notifications r))
  end.

Definition validate_rule (sensors : gmap string string) (index : Z) (r : AlarmRule) (seen : gset string) :
    error + gset string :=
  let base := at_index "alarms.rules" index in
  iferr validateID (base +:+ ".id") (ar_ID r) as err yield inl err;;
  when bool_decide (ar_ID r ∈ seen) yield
    inl (validationError (base +:+ ".id") "duplicate_id" "alarm rule ID is duplicated");;
  iferr validate_rule_fields base sensors r as err yield inl err;;
  inr ({[ar_ID r]} ∪ seen).

Definition AlarmConfig_validate (inventory : Inventory) (rules : list AlarmRule) : option error :=
  match range_loop (validate_rule (by_id sg_ID sg_EntityID (elems (iv_Sensors inventory)))) 0 rules ∅ with
  | inl err => Some err
  | inr _ => None
  end.

Definition Backup_validate (b : Backup) : option error :=
  when negb (bk_Enabled b) yield None;;
  let clean := path_Clean (bk_Destination b) in
  when negb (String.prefix "/" clean) || bool_decide (clean = "/") yield
    Some (validationError "backups.destination" "invalid_path" "must be a dedicated absolute directory");;
  when (bk_RetentionDays b <? 1) || (3650 <? bk_RetentionDays b) yield
    Some (validationError "backups.retention_days" "out_of_range" "must be between 1 and 3650");;
  None.

Definition Config_Validate (c : Config) : option error :=
  when negb (cf_SchemaVersion c =? CurrentSchemaVersion) yield
    Some (validationError "schema_version" "unsupported_version" ("must equal " +:+ pretty CurrentSchemaVersion));;
  when negb (oneOf (ToLower (ap_LogLevel (cf_Application c))) ["debug"; "info"; "warn"; "error"]) yield
    Some (validationError "application.log_level" "invalid_enum" "must be debug, info, warn, or error");;
  iferr first_error validate_timeout 0 (map_range (timeouts c)) as err yield Some err;;
  iferr validate_http c as err yield Some err;;
  when (ap_EventConcurrency (cf_Application c) <? 1) || (4096 <? ap_EventConcurrency (cf_Application c)) yield
    Some (validationError "application.event_concurrency" "out_of_range" "must be between 1 and 4096");;
  iferr (if mq_Enabled (cf_MQTT c) then validate_mqtt (cf_MQTT c) else None) as err yield Some err;;
  iferr validate_home_assistant (cf_MQTT c) as err yield Some err;;
  iferr validate_storage (cf_Storage c) as err yield Some err;;
  iferr first_error validate_tombstone 0 (elems (ha_Tombstones (mq_HomeAssistant (cf_MQTT c)))) as err yield Some err;;
  iferr validateAdapters c as err yield Some err;;
  iferr Inventory_validate (cf_Inventory c) as err yield Some err;;
  iferr AlarmConfig_validate (cf_Inventory c) (elems (cf_AlarmRules c)) as err yield Some err;;
  Backup_validate (cf_Backups c).
End validation.

(** ** Copies and redaction *)
Definition with_password (p : string) (m : MQTT) : MQTT :=
  mkMQTT (mq_Enabled m) (mq_SiteID m) (mq_Broker m) (mq_ClientID m) (mq_Username m) p (mq_ConnectTimeout m)
    (mq_KeepAlive m) (mq_DisconnectQuiesce m) (mq_RequiredForReady m) (mq_MaximumPayload m) (mq_QueueCapacity m)
    (mq_IdempotencyCapacity m) (mq_ReconnectMinimum m) (mq_ReconnectMaximum m) (mq_ReconnectJitter m)
    (mq_HomeAssistant m).

Definition with_home_assistant (ha : HomeAssistant) (m : MQTT) : MQTT :=
  mkMQTT (mq_Enabled m) (mq_SiteID m) (mq_Broker m) (mq_ClientID m) (mq_Username m) (mq_Password m)
    (mq_ConnectTimeout m) (mq_KeepAlive m) (mq_DisconnectQuiesce m) (mq_RequiredForReady m) (mq_MaximumPayload m)
    (mq_QueueCapacity m) (mq_IdempotencyCapacity m) (mq_ReconnectMinimum m) (mq_ReconnectMaximum m)
    (mq_ReconnectJitter m) ha.

Definition with_mqtt (m : MQTT) (c : Config) : Config :=
  mkConfig (cf_SchemaVersion c) (cf_Application c) (cf_HTTP c) m (cf_SimulatorEnabled c) (cf_Adapters c)
    (cf_Bench c) (cf_Storage c) (cf_Inventory c) (cf_AlarmRules c) (cf_Backups c).

Definition cloneStringMap (source : option (gmap string string)) : option (gmap string string) :=
  match source with None => None | Some m => Some m end.

Definition clone_pointer {A} (p : option A) : option A := match p with None => None | Some v => Some v end.

Definition clone_device (d : DeviceConfig) : DeviceConfig :=
  mkDeviceConfig (dc_ID d) (dc_EntityID d) (dc_Name d) (dc_Description d) (dc_Manufacturer d) (dc_Model d)
    (dc_Firmware d) (cloneStringMap (dc_Metadata d)).

Definition clone_sensor (s : SensorConfig) : SensorConfig :=
  mkSensorConfig (sg_ID s) (sg_EntityID s) (sg_DeviceID s) (sg_Unit s) (clone_pointer (sg_Minimum s))
    (clone_pointer (sg_Maximum s)) (sg_Name s) (sg_Quantity s) (sg_Calibration s).

Definition clone_equipment (e : EquipmentConfig) : EquipmentConfig :=
  mkEquipmentConfig (qc_ID e) (qc_EntityID e) (qc_DeviceID e) (qc_Name e) (qc_Kind e)
    (copy_slice id (qc_Capabilities e)) (qc_Hazardous e) (qc_FailSafeOn e) (qc_MaximumOn e) (qc_MaximumDaily e)
    (qc_MinimumOff e) (copy_slice id (qc_RequiredSensorIDs e)) (qc_Commissioning e).

Definition clone_rule (r : AlarmRule) : AlarmRule :=
  mkAlarmRule (ar_ID r) (ar_Name r) (ar_SensorID r) (ar_Condition r) (ar_Threshold r)
    (clone_pointer (ar_ThresholdHigh r)) (ar_Severity r) (ar_Delay r) (ar_ClearDelay r) (ar_Latching r)
    (copy_slice id (ar_Notifications r)).

Definition clone_shelly (e : ShellyEndpoint) : ShellyEndpoint :=
  mkShellyEndpoint (sh_ID e) (sh_EquipmentID e) (sh_AlarmRuleID e) (sh_BaseURL e) (sh_Channel e)
    (sh_PollInterval e) (sh_RequestTimeout e) (sh_Retries e) (sh_SafeOn e) (sh_PowerReturnPolicy e)
    (sh_EquipmentKind e) (sh_MaximumOn e) (copy_slice id (sh_RequiredProbeIDs e)).

Definition clone_esp32 (e : ESP32Endpoint) : ESP32Endpoint :=
  mkESP32Endpoint (ec_ID e) (ec_DeviceID e) (ec_AlarmRuleID e) (ec_BaseURL e) (ec_BearerTokenFile e)
    (copy_slice id (ec_ProbeIDs e)) (ec_PollInterval e) (ec_RequestTimeout e) (ec_FreshFor e)
    (ec_MaximumClockSkew e) (ec_MaximumDifference e).

Definition Config_Clone (c : Config) : Config :=
  let ha := mq_HomeAssistant (cf_MQTT c) in
  let a := cf_Adapters c in
  let i := cf_Inventory c in
  mkConfig (cf_SchemaVersion c) (cf_Application c) (cf_HTTP c)
    (with_home_assistant
       (mkHomeAssistant (ha_Enabled ha) (ha_CommandTTL ha) (copy_slice id (ha_Tombstones ha))) (cf_MQTT c))
    (cf_SimulatorEnabled c)
    (mkAdapters (ad_ShellyEnabled a) (copy_slice clone_shelly (ad_ShellyEndpoints a)) (ad_ESP32Enabled a)
       (copy_slice clone_esp32 (ad_ESP32Endpoints a)))
    (cf_Bench c) (cf_Storage c)
    (mkInventory (copy_slice clone_device (iv_Devices i)) (copy_slice clone_sensor (iv_Sensors i))
       (copy_slice clone_equipment (iv_Equipment i)))
    (copy_slice clone_rule (cf_AlarmRules c)) (cf_Backups c).

Definition MQTT_Redacted (m : MQTT) : MQTT :=
  if bool_decide (mq_Password m = "") then m else with_password redactedSecret m.

Definition Config_Redacted (c : Config) : Config :=
  let redacted := Config_Clone c in
  if bool_decide (mq_Password (cf_MQTT redacted) = "") then redacted
  else with_mqtt (with_password redactedSecret (cf_MQTT redacted)) redacted.

(** [hex.EncodeToString] of [sha256.Sum256]. *)
Class Digester := { sha256_hex : string → string }.

Definition Config_Digest `{!JSON, !Marshaler Config, !Digester} (c : Config) : error + string :=
  match json_Marshal (Config_Redacted c) with
  | inl err => inl (ErrWrap "encode configuration digest" err)
  | inr encoded => inr (sha256_hex encoded)
  end.

(** ** Loading *)

(** [strconv.ParseBool]. *)
Definition ParseBool (s : string) : option bool :=
  if oneOf s ["1"; "t"; "T"; "true"; "TRUE"; "True"] then Some true
  else if oneOf s ["0"; "f"; "F"; "false"; "FALSE"; "False"] then Some false
  else None.

(** The operating system: [os.LookupEnv], [os.ReadFile], and the text of the
    error [strconv.ParseBool] gives. *)
Record Environment := mkEnvironment {
  LookupEnv : string → option string;
  ReadFile : string → error + string;
  syntax_error : string → string
}.

(** [gopkg.in/yaml.v3]: the schema version of a document, and the strict
    decoding of a document into a snapshot that holds defaults. *)
Class YAML := {
  yaml_SchemaVersion : string → error + option Z;
  yaml_Decode : string → Config → error + Config
}.

Section loading.
Context (env : Environment).

Definition override_string (name target : string) : string := default target (LookupEnv env name).

Definition override_bool (name : string) (target : bool) : error + bool :=
  match LookupEnv env name with
  | None => inr target
  | Some value =>
      match ParseBool value with
      | None => inl (validationError ("environment." +:+ name) "invalid_boolean" (syntax_error env value))
      | Some parsed => inr parsed
      end
  end.

Definition applyEnvironment (c : Config) : error + Config :=
  let a := cf_Application c in
  let h := cf_HTTP c in
  let m := cf_MQTT c in
  match override_bool "AQUAOS_MQTT_ENABLED" (mq_Enabled m) with
  | inl err => inl err
  | inr enabled =>
      match override_bool "AQUAOS_MQTT_REQUIRED_FOR_READY" (mq_RequiredForReady m) with
      | inl err => inl err
      | inr required =>
          match override_bool "AQUAOS_SIMULATOR_ENABLED" (cf_SimulatorEnabled c) with
          | inl err => inl err
          | inr simulator =>
              inr (mkConfig (cf_SchemaVersion c)
                (mkApplication (override_string "AQUAOS_LOG_LEVEL" (ap_LogLevel a)) (ap_StartupTimeout a)
                   (ap_ShutdownTimeout a) (ap_ComponentTimeout a) (ap_EventConcurrency a))
                (mkHTTP (override_string "AQUAOS_HTTP_ADDRESS" (ht_Address h)) (ht_ReadTimeout h)
                   (ht_WriteTimeout h) (ht_IdleTimeout h) (ht_BearerTokenFile h) (ht_MaximumRequestBytes h)
                   (ht_MutationRate h) (ht_MutationBurst h))
                (mkMQTT enabled (override_string "AQUAOS_MQTT_SITE_ID" (mq_SiteID m))
                   (override_string "AQUAOS_MQTT_BROKER" (mq_Broker m))
                   (override_string "AQUAOS_MQTT_CLIENT_ID" (mq_ClientID m))
                   (override_string "AQUAOS_MQTT_USERNAME" (mq_Username m))
                   (override_string "AQUAOS_MQTT_PASSWORD" (mq_Password m)) (mq_ConnectTimeout m) (mq_KeepAlive m)
                   (mq_DisconnectQuiesce m) required (mq_MaximumPayload m) (mq_QueueCapacity m)
                   (mq_IdempotencyCapacity m) (mq_ReconnectMinimum m) (mq_ReconnectMaximum m)
                   (mq_ReconnectJitter m) (mq_HomeAssistant m))
                simulator (cf_Adapters c) (cf_Bench c) (cf_Storage c) (cf_Inventory c) (cf_AlarmRules c)
                (cf_Backups c))
          end
      end
  end.

Context `{!YAML, !URLParser, !NetParser, !MapRange} (render : error → string).

Definition Load (path : string) : error + Config :=
  when bool_decide (path = "") yield inl (ErrNew "configuration file path is required");;
  match ReadFile env path with
  | inl err => inl (ErrWrap "read config" err)
  | inr data =>
      match yaml_SchemaVersion data with
      | inl err => inl (ErrWrap "decode config" err)
      | inr None => inl (validationError "schema_version" "required" "is required")
      | inr (Some _) =>
          match yaml_Decode data Defaults with
          | inl err => inl (ErrWrap "decode config" err)
          | inr cfg =>
              when negb (bool_decide (mq_Password (cf_MQTT cfg) = "")) yield
                inl (validationError "mqtt.password" "secret_inline" "must be supplied through AQUAOS_MQTT_PASSWORD");;
              match applyEnvironment cfg with
              | inl err => inl err
              | inr cfg => iferr Config_Validate render cfg as err yield inl err;; inr (Config_Clone cfg)
              end
          end
      end
  end.

Definition DecodeCandidate (data : string) : error + Config :=
  when (String.length data =? 0)%nat yield inl (ErrNew "candidate configuration is empty");;
  when (1024 * 1024 <? Z.of_nat (String.length data)) yield
    inl (ErrNew "candidate configuration exceeds 1048576 bytes");;
  match yaml_SchemaVersion data with
  | inl err => inl (ErrWrap "decode candidate config" err)
  | inr None => inl (validationError "schema_version" "required" "is required")
  | inr (Some _) =>
      match yaml_Decode data Defaults with
      | inl err => inl (ErrWrap "decode candidate config" err)
      | inr cfg =>
          when negb (bool_decide (mq_Password (cf_MQTT cfg) = "")) yield
            inl (validationError "mqtt.password" "secret_inline" "must not be supplied in candidate configuration");;
          iferr Config_Validate render cfg as err yield inl err;;
          inr (Config_Clone cfg)
      end
  end.
End loading.
