(* ===== verification/ConfigValidation.v ===== *)
(** * What configuration validation promises

    Declarative descriptions of the snapshots [Config_Validate] accepts: the
    loops with their sets of seen identities become statements about
    duplicates and references. The order of Go's maps plays no part in them. *)

From Stdlib Require Import ZArith Lia String Ascii SpecFloat.
From stdpp Require Import base gmap strings list pretty.
From S2P Require Import Prelude Domain Topics Config.

(** ** Loops with early returns *)
Lemma first_error_Forall {A} (P : A → Prop) (f : Z → A → option error) index l :
  (∀ i x, f i x = None ↔ P x) → first_error f index l = None ↔ Forall P l.
Proof.
  intros Hf. revert index. induction l as [|x l IH]; intros index; simpl; [by split|].
  specialize (Hf index x). destruct (f index x); rewrite Forall_cons.
  - naive_solver.
  - rewrite IH. naive_solver.
Qed.

(** A check that succeeds exactly when its subject is in order and brings only
    new keys, which are then held as seen. *)
Definition checked {T K} (seen : K → T → Prop) (keys : list K) (ok : Prop) (t : T) (result : error + T) : Prop :=
  match result with
  | inl _ => ¬ (ok ∧ NoDup keys ∧ ∀ k, k ∈ keys → ¬ seen k t)
  | inr t' => (ok ∧ NoDup keys ∧ ∀ k, k ∈ keys → ¬ seen k t) ∧ ∀ k, seen k t' ↔ k ∈ keys ∨ seen k t
  end.

#[export] Instance checked_proper {T K} (seen : K → T → Prop) keys :
  Proper (iff ==> eq ==> eq ==> iff) (checked seen keys).
Proof. intros p q Hpq t ? <- r ? <-. unfold checked. by destruct r; setoid_rewrite Hpq. Qed.

Lemma range_loop_checked {A T K} (f : Z → A → T → error + T) (seen : K → T → Prop) (keys : A → list K)
    (ok : A → Prop) l i t :
  (∀ i x t, checked seen (keys x) (ok x) t (f i x t)) →
  checked seen (l ≫= keys) (Forall ok l) t (range_loop f i l t).
Proof.
  intros Hf. revert i t. induction l as [|x l IH]; intros i t; simpl.
  { split; [split_and!; [done|constructor|set_solver]|set_solver]. }
  specialize (Hf i x t). destruct (f i x t) as [err|t1]; simpl in Hf.
  { simpl. rewrite Forall_cons, NoDup_app. setoid_rewrite elem_of_app. intros ([? ?] & (? & ? & ?) & Hk).
    apply Hf. split_and!; try done. intros k ?. apply Hk. by left. }
  destruct Hf as ((Hok & Hnd & Hnew) & Hs). specialize (IH (i + 1) t1).
  destruct (range_loop f (i + 1) l t1) as [err|t2]; simpl in *.
  - rewrite Forall_cons, NoDup_app. intros ([_ ?] & (_ & Hd & ?) & Hk). apply IH. split_and!; try done.
    intros k Hin. rewrite Hs. intros [?|?]; [by apply (Hd k)|]. apply (Hk k); [|done]. apply elem_of_app. by right.
  - destruct IH as ((? & ? & Hk) & Hs2). rewrite Forall_cons, NoDup_app. split_and!; try done.
    + intros k Hin Hin2. apply (Hk k Hin2), Hs. by left.
    + intros k [?|Hin]%elem_of_app; [by apply Hnew|]. intros ?. apply (Hk k Hin), Hs. by right.
    + intros k. rewrite Hs2, Hs, elem_of_app. tauto.
Qed.

Lemma bind_single {A B} (f : A → B) l : l ≫= (fun x => [f x]) = f <$> l.
Proof. induction l as [|x l IH]; [done|]. by rewrite bind_cons, IH. Qed.

(** ** Single checks *)
Definition uuid (s : string) : Prop := validateUUID s = None.

Lemma config_validateUUID_spec render path s : config_validateUUID render path s = None ↔ uuid s.
Proof. unfold config_validateUUID, uuid. by destruct (validateUUID s). Qed.

Lemma validate_entity_spec render path s : validate_entity render path s = None ↔ s = "" ∨ uuid s.
Proof.
  unfold validate_entity. case_bool_decide; [by split; [left|]|]. rewrite config_validateUUID_spec. naive_solver.
Qed.

Lemma validateID_spec path s : validateID path s = None ↔ identifierPattern s = true.
Proof. unfold validateID. by destruct (identifierPattern s). Qed.

Lemma oneOf_spec s l : oneOf s l = true ↔ s ∈ l.
Proof.
  unfold oneOf. rewrite existsb_exists. split.
  - intros (x & Hin & ->%String.eqb_eq). by apply list_elem_of_In.
  - intros Hin. exists s. by rewrite <- list_elem_of_In, String.eqb_refl.
Qed.

Lemma validate_uuids_spec `{!MapRange} render base fields :
  validate_uuids render base fields = None ↔ Forall (fun entry => uuid entry.2) fields.
Proof.
  unfold validate_uuids. rewrite (first_error_Forall (fun entry : string * string => uuid entry.2)).
  - by rewrite (map_range_perm fields).
  - intros _ x. apply config_validateUUID_spec.
Qed.

(** A chain of guards as a conjunction. *)
Lemma guard_None (b : bool) (e : error) k : (if b then Some e else k) = None ↔ b = false ∧ k = None.
Proof. destruct b; naive_solver. Qed.

Lemma guard_error (o : option error) (f : error → error) k :
  match o with Some err => Some (f err) | None => k end = None ↔ o = None ∧ k = None.
Proof. destruct o; naive_solver. Qed.

Lemma negb_oneOf s l : negb (oneOf s l) = false ↔ s ∈ l.
Proof. by rewrite negb_false_iff, oneOf_spec. Qed.

(** Rewrites the guards of a validation and their tests. *)
Ltac guards :=
  repeat (rewrite guard_None || setoid_rewrite guard_error);
  repeat (rewrite negb_oneOf || rewrite config_validateUUID_spec || rewrite validate_entity_spec);
  autorewrite with go_bool.

(** ** Adapters *)
Section adapters.
Context `{!URLParser, !NetParser, !MapRange} (render : error → string).

Record shelly_ok (e : ShellyEndpoint) : Prop := {
  so_ids : uuid (sh_ID e) ∧ uuid (sh_EquipmentID e) ∧ uuid (sh_AlarmRuleID e);
  so_url : endpoint_url_ok ["http"] (sh_BaseURL e) = true;
  so_channel : 0 ≤ sh_Channel e ≤ 31;
  so_timing : 0 < sh_RequestTimeout e ≤ sh_PollInterval e ∧ 0 ≤ sh_Retries e ≤ 5;
  so_policy : sh_PowerReturnPolicy e = "off" ∨ sh_PowerReturnPolicy e = "restore";
  so_kind : sh_EquipmentKind e = "outlet" ∧ 0 ≤ sh_MaximumOn e ∧ elems (sh_RequiredProbeIDs e) = []
    ∨ sh_EquipmentKind e = "heater" ∧ sh_SafeOn e = false ∧ 0 < sh_MaximumOn e
      ∧ ∃ p q, elems (sh_RequiredProbeIDs e) = [p; q] ∧ p ≠ q ∧ uuid p ∧ uuid q
}.

Lemma validate_shelly_kind_spec base e :
  validate_shelly_kind render base e = None
  ↔ sh_EquipmentKind e = "heater" ∧ sh_SafeOn e = false ∧ 0 < sh_MaximumOn e
      ∧ (∃ p q, elems (sh_RequiredProbeIDs e) = [p; q] ∧ p ≠ q ∧ uuid p ∧ uuid q)
    ∨ sh_EquipmentKind e ≠ "heater" ∧ 0 ≤ sh_MaximumOn e ∧ elems (sh_RequiredProbeIDs e) = [].
Proof.
  unfold validate_shelly_kind. case_bool_decide; guards; [|naive_solver].
  destruct (elems (sh_RequiredProbeIDs e)) as [|p [|q [|]]]; try naive_solver.
  simpl. guards. naive_solver.
Qed.

Lemma validate_shelly_fields_spec base e :
  validate_shelly_fields render base e = None ∧ uuid (sh_ID e) ∧ uuid (sh_EquipmentID e) ∧ uuid (sh_AlarmRuleID e)
  ↔ shelly_ok e.
Proof.
  unfold validate_shelly_fields. guards. rewrite validate_shelly_kind_spec. split.
  - intros ((? & ? & ? & ? & ? & ? & Hkind) & Hids). split; try done; [lia|].
    destruct Hkind as [?|(? & ? & ?)]; [by right|]. left. naive_solver.
  - intros [? ? ? ? ? Hkind]. split_and?; try done; try lia; destruct Hkind as [(Hk & ? & ?)|(Hk & ? & ? & ?)]; rewrite ?Hk; naive_solver.
Qed.

Record esp32_ok (e : ESP32Endpoint) : Prop := {
  eo_ids : uuid (ec_ID e) ∧ uuid (ec_DeviceID e) ∧ uuid (ec_AlarmRuleID e);
  eo_url : endpoint_url_ok ["http"; "https"] (ec_BaseURL e) = true;
  eo_probes : length (elems (ec_ProbeIDs e)) = 2%nat ∧ Forall uuid (elems (ec_ProbeIDs e));
  eo_timing : 0 < ec_RequestTimeout e ≤ ec_PollInterval e ∧ ec_PollInterval e ≤ ec_FreshFor e;
  eo_skew : 0 ≤ ec_MaximumClockSkew e ≤ Minute;
  eo_difference : F64_le (ec_MaximumDifference e) (F64 0) = false ∧ F64_lt (F64 10) (ec_MaximumDifference e) = false
}.

Lemma validate_esp32_bounds_spec base e :
  validate_esp32_bounds base e = None
  ↔ (0 < ec_RequestTimeout e ≤ ec_PollInterval e ∧ ec_PollInterval e ≤ ec_FreshFor e)
    ∧ 0 ≤ ec_MaximumClockSkew e ≤ Minute
    ∧ F64_le (ec_MaximumDifference e) (F64 0) = false ∧ F64_lt (F64 10) (ec_MaximumDifference e) = false.
Proof. unfold validate_esp32_bounds. guards. intuition lia. Qed.

Lemma validate_probes_checked base i l t :
  checked (fun k (t : gset string) => k ∈ t) l (Forall uuid l) t (range_loop (validate_probe render base) i l t).
Proof.
  rewrite <- (list_fmap_id l) at 1. rewrite <- bind_single. apply range_loop_checked. clear. intros i x t. unfold validate_probe.
  pose proof (config_validateUUID_spec render (at_index (base +:+ ".probe_ids") i) x) as Hu.
  destruct (config_validateUUID _ _ _); [simpl; naive_solver|]. case_bool_decide; simpl.
  - intros (_ & _ & Hk). apply (Hk x); set_solver.
  - split_and!; [naive_solver|apply NoDup_singleton|set_solver..].
Qed.

(** Identities by what they identify. *)
Inductive role := REndpoint | REquip | RNode | RProbe.

Definition seen_as (k : role * string) (t : Seen) : Prop :=
  match k.1 with
  | REndpoint => k.2 ∈ sn_endpoints t
  | REquip => k.2 ∈ sn_equipment t
  | RNode => k.2 ∈ sn_devices t
  | RProbe => k.2 ∈ sn_probes t
  end.

Definition shelly_keys (e : ShellyEndpoint) : list (role * string) :=
  [(REndpoint, sh_ID e); (REquip, sh_EquipmentID e)].
Definition esp32_keys (e : ESP32Endpoint) : list (role * string) :=
  [(REndpoint, ec_ID e); (RNode, ec_DeviceID e)] ++ (pair RProbe <$> elems (ec_ProbeIDs e)).

Lemma validate_shelly_checked i e t :
  checked seen_as (shelly_keys e) (shelly_ok e) t (validate_shelly render i e t).
Proof.
  unfold validate_shelly. rewrite <- (validate_shelly_fields_spec (at_index "adapters.shelly.endpoints" i)).
  pose proof (validate_uuids_spec render (at_index "adapters.shelly.endpoints" i)
    [("id", sh_ID e); ("equipment_id", sh_EquipmentID e); ("alarm_rule_id", sh_AlarmRuleID e)]) as Hu.
  rewrite !Forall_cons in Hu.
  assert (NoDup (shelly_keys e)) as Hnd by (repeat constructor; set_solver).
  destruct (validate_uuids _ _ _); simpl in Hu.
  { intros ((_ & ? & ? & ?) & _). destruct Hu as [_ Hu]. discriminate Hu. auto. }
  destruct Hu as [(? & ? & ? & _) _]; [done|].
  case_bool_decide as He; [intros (_ & _ & Hk); by apply (Hk (REndpoint, sh_ID e)); [left|]|].
  case_bool_decide as Hq; [intros (_ & _ & Hk); by apply (Hk (REquip, sh_EquipmentID e)); [right; left|]|].
  destruct (validate_shelly_fields _ _ _); [by intros ((? & _) & _)|]. split; [split_and!; try done|].
  - intros [r k] Hin. apply elem_of_cons in Hin as [|Hin%list_elem_of_singleton]; by simplify_eq/=.
  - intros [[] k]; unfold seen_as, shelly_keys; simpl; set_solver.
Qed.

Lemma elem_of_tagged (r r2 : role) k (l : list string) : (r, k) ∈ pair r2 <$> l ↔ r = r2 ∧ k ∈ l.
Proof. rewrite list_elem_of_fmap. naive_solver. Qed.

Lemma NoDup_esp32_keys e : NoDup (esp32_keys e) ↔ NoDup (elems (ec_ProbeIDs e)).
Proof.
  unfold esp32_keys. simpl. rewrite !NoDup_cons, NoDup_fmap, elem_of_cons, !elem_of_tagged; [|apply _].
  naive_solver.
Qed.

Lemma esp32_keys_new e t :
  (∀ k, k ∈ esp32_keys e → ¬ seen_as k t)
  ↔ (ec_ID e ∉ sn_endpoints t) ∧ (ec_DeviceID e ∉ sn_devices t)
    ∧ ∀ p, p ∈ elems (ec_ProbeIDs e) → (p ∉ sn_probes t).
Proof.
  unfold esp32_keys. simpl. setoid_rewrite elem_of_cons. setoid_rewrite elem_of_cons. split.
  - intros Hk. split_and!.
    + apply (Hk (REndpoint, _)). by left.
    + apply (Hk (RNode, _)). right. by left.
    + intros p Hp. apply (Hk (RProbe, _)). right. right. by apply elem_of_tagged.
  - intros (? & ? & Hp) [r k] [?|[?|[-> ?]%elem_of_tagged]]; simplify_eq/=; auto. by apply Hp.
Qed.

Lemma validate_esp32_checked i e t :
  checked seen_as (esp32_keys e) (esp32_ok e) t (validate_esp32 render i e t).
Proof.
  unfold validate_esp32. set (base := at_index "adapters.esp32.endpoints" i).
  pose proof (validate_uuids_spec render base
    [("id", ec_ID e); ("device_id", ec_DeviceID e); ("alarm_rule_id", ec_AlarmRuleID e)]) as Hu.
  rewrite !Forall_cons in Hu. destruct (validate_uuids _ _ _); simpl in Hu.
  { intros ([(? & ? & ?)] & _). destruct Hu as [_ Hu]. discriminate Hu. auto. }
  destruct Hu as [(? & ? & ? & _) _]; [done|].
  case_bool_decide as He; [intros (_ & _ & Hk); by apply (Hk (REndpoint, ec_ID e)); [left|]|].
  case_bool_decide as Hq; [intros (_ & _ & Hk); by apply (Hk (RNode, ec_DeviceID e)); [right; left|]|].
  destruct (endpoint_url_ok _ _) eqn:Hurl; simpl; [|intros ([] & _); congruence].
  case_bool_decide as Hlen; simpl; [|intros ([_ _ [? _]] & _); done].
  pose proof (validate_probes_checked base 0 (elems (ec_ProbeIDs e)) (sn_probes t)) as Hp.
  pose proof (validate_esp32_bounds_spec base e) as Hb.
  destruct (range_loop _ _ _ _) as [err|probes]; simpl in Hp.
  { unfold checked. rewrite NoDup_esp32_keys, esp32_keys_new. intros ([_ _ [_ ?]] & ? & _ & _ & ?). by apply Hp. }
  destruct Hp as ((Huuid & Hnd & Hk) & Hs).
  destruct (validate_esp32_bounds base e).
  { intros ([] & _). destruct Hb as [_ Hb]. discriminate Hb. auto. }
  destruct Hb as [(? & ? & ?) _]; [done|]. split; [split_and!|].
  - by split.
  - by apply NoDup_esp32_keys.
  - by apply esp32_keys_new.
  - intros [r k]. unfold esp32_keys. simpl. rewrite !elem_of_cons, elem_of_tagged.
    destruct r; unfold seen_as; simpl; rewrite ?Hs, ?elem_of_union, ?elem_of_singleton; naive_solver.
Qed.

(** Identities must be new among those of the same role. *)
#[local] Instance role_eq_dec : EqDecision role.
Proof. solve_decision. Defined.

Definition with_role (r : role) (l : list (role * string)) : list string :=
  omap (fun k => if decide (k.1 = r) then Some k.2 else None) l.

Lemma elem_of_with_role r k l : k ∈ with_role r l ↔ (r, k) ∈ l.
Proof.
  unfold with_role. rewrite list_elem_of_omap. split.
  - intros ([r2 k2] & Hin & Hk). case_decide; by simplify_eq/=.
  - intros Hin. exists (r, k). split; [done|]. simpl. by rewrite decide_True.
Qed.

Lemma NoDup_by_role l : NoDup l ↔ ∀ r, NoDup (with_role r l).
Proof.
  induction l as [|[r k] l IH]; [by split; intros; constructor|].
  rewrite NoDup_cons, IH, <- elem_of_with_role. split.
  - intros [Hk Hl] r2. unfold with_role. simpl. case_decide; simplify_eq/=; [|apply Hl].
    apply NoDup_cons. split; [done|apply Hl].
  - intros Hl. split.
    + specialize (Hl r). unfold with_role in Hl. simpl in Hl. rewrite decide_True in Hl by done.
      by apply NoDup_cons in Hl as [? _].
    + intros r2. specialize (Hl r2). unfold with_role in Hl. simpl in Hl.
      case_decide; [by apply NoDup_cons in Hl as [_ ?]|done].
Qed.

Lemma with_role_app r l1 l2 : with_role r (l1 ++ l2) = with_role r l1 ++ with_role r l2.
Proof. apply omap_app. Qed.

Lemma with_role_tagged r r2 (l : list string) : with_role r (pair r2 <$> l) = if decide (r2 = r) then l else [].
Proof.
  induction l as [|x l IH]; [by case_decide|]. rewrite fmap_cons. unfold with_role in *. csimpl.
  rewrite IH. by case_decide.
Qed.

Definition probes_of (endpoints : list ESP32Endpoint) : list string := endpoints ≫= fun e => elems (ec_ProbeIDs e).

Lemma with_role_shelly r l :
  with_role r (l ≫= shelly_keys) =
  match r with REndpoint => sh_ID <$> l | REquip => sh_EquipmentID <$> l | _ => [] end.
Proof. induction l as [|x l IH]; [by destruct r|]. rewrite bind_cons, with_role_app, IH. by destruct r. Qed.

Lemma with_role_esp32 r l :
  with_role r (l ≫= esp32_keys) =
  match r with REndpoint => ec_ID <$> l | REquip => [] | RNode => ec_DeviceID <$> l | RProbe => probes_of l end.
Proof.
  induction l as [|x l IH]; [by destruct r|].
  rewrite bind_cons, with_role_app, IH. unfold esp32_keys. rewrite with_role_app, with_role_tagged. by destruct r.
Qed.

Lemma NoDup_adapter_keys shelly esp32 :
  NoDup ((shelly ≫= shelly_keys) ++ (esp32 ≫= esp32_keys))
  ↔ NoDup ((sh_ID <$> shelly) ++ (ec_ID <$> esp32)) ∧ NoDup (sh_EquipmentID <$> shelly)
    ∧ NoDup (ec_DeviceID <$> esp32) ∧ NoDup (probes_of esp32).
Proof.
  rewrite NoDup_by_role. setoid_rewrite with_role_app. setoid_rewrite with_role_shelly.
  setoid_rewrite with_role_esp32. split.
  - intros Hr. pose proof (Hr REndpoint). pose proof (Hr REquip) as Hq. pose proof (Hr RNode). pose proof (Hr RProbe).
    rewrite app_nil_r in Hq. done.
  - intros (? & ? & ? & ?) []; by rewrite ?app_nil_r.
Qed.

Record adapters_ok (c : Config) : Prop := {
  ao_exclusive : ad_ShellyEnabled (cf_Adapters c) = true ∨ ad_ESP32Enabled (cf_Adapters c) = true →
    cf_SimulatorEnabled c = false ∧ bn_Enabled (cf_Bench c) = true ∧ bn_SafeLoadAcknowledged (cf_Bench c) = true;
  ao_present :
    (ad_ShellyEnabled (cf_Adapters c) = true → elems (ad_ShellyEndpoints (cf_Adapters c)) ≠ [])
    ∧ (ad_ESP32Enabled (cf_Adapters c) = true → elems (ad_ESP32Endpoints (cf_Adapters c)) ≠ []);
  ao_shelly : Forall shelly_ok (elems (ad_ShellyEndpoints (cf_Adapters c)));
  ao_esp32 : Forall esp32_ok (elems (ad_ESP32Endpoints (cf_Adapters c)));
  ao_unique :
    NoDup ((sh_ID <$> elems (ad_ShellyEndpoints (cf_Adapters c)))
           ++ (ec_ID <$> elems (ad_ESP32Endpoints (cf_Adapters c))))
    ∧ NoDup (sh_EquipmentID <$> elems (ad_ShellyEndpoints (cf_Adapters c)))
    ∧ NoDup (ec_DeviceID <$> elems (ad_ESP32Endpoints (cf_Adapters c)))
    ∧ NoDup (probes_of (elems (ad_ESP32Endpoints (cf_Adapters c))));
  ao_heaters : ∀ e, e ∈ elems (ad_ShellyEndpoints (cf_Adapters c)) → sh_EquipmentKind e = "heater" →
    ad_ShellyEnabled (cf_Adapters c) = true →
    ad_ESP32Enabled (cf_Adapters c) = true
    ∧ ∀ p, p ∈ elems (sh_RequiredProbeIDs e) → p ∈ probes_of (elems (ad_ESP32Endpoints (cf_Adapters c)))
}.

Lemma validate_heater_spec a probes i e :
  validate_heater a probes i e = None
  ↔ (sh_EquipmentKind e = "heater" → ad_ShellyEnabled a = true →
     ad_ESP32Enabled a = true ∧ ∀ p, p ∈ elems (sh_RequiredProbeIDs e) → p ∈ probes).
Proof.
  unfold validate_heater. case_bool_decide; simpl; [|naive_solver].
  destruct (ad_ShellyEnabled a); simpl; [|naive_solver]. rewrite guard_None, negb_false_iff.
  rewrite (first_error_Forall (fun p => p ∈ probes)), Forall_forall; [naive_solver|].
  intros _ p. guards. naive_solver.
Qed.

Lemma nothing_seen k : ¬ seen_as k (mkSeen ∅ ∅ ∅ ∅).
Proof. destruct k as [[] k]; unfold seen_as; simpl; set_solver. Qed.

(** The two loops one after the other. *)
Lemma adapter_loops_spec shelly esp32 :
  match range_loop (validate_shelly render) 0 shelly (mkSeen ∅ ∅ ∅ ∅) with
  | inl _ => ¬ (Forall shelly_ok shelly ∧ NoDup (shelly ≫= shelly_keys))
  | inr seen =>
      (Forall shelly_ok shelly ∧ NoDup (shelly ≫= shelly_keys))
      ∧ match range_loop (validate_esp32 render) 0 esp32 seen with
        | inl _ => ¬ (Forall esp32_ok esp32 ∧ NoDup ((shelly ≫= shelly_keys) ++ (esp32 ≫= esp32_keys)))
        | inr seen' => (Forall esp32_ok esp32 ∧ NoDup ((shelly ≫= shelly_keys) ++ (esp32 ≫= esp32_keys)))
            ∧ ∀ p, p ∈ sn_probes seen' ↔ p ∈ probes_of esp32
        end
  end.
Proof.
  pose proof (range_loop_checked (validate_shelly render) seen_as shelly_keys shelly_ok shelly 0
    (mkSeen ∅ ∅ ∅ ∅) validate_shelly_checked) as Hs.
  destruct (range_loop (validate_shelly render) 0 shelly _) as [err|t1]; simpl in Hs.
  { intros [? ?]. apply Hs. split_and!; try done. intros k _. apply nothing_seen. }
  destruct Hs as ((? & ? & _) & Hseen). split; [done|].
  assert (∀ k, seen_as k t1 ↔ k ∈ shelly ≫= shelly_keys) as Hseen1.
  { intros k. rewrite Hseen. pose proof (nothing_seen k). tauto. }
  pose proof (range_loop_checked (validate_esp32 render) seen_as esp32_keys esp32_ok esp32 0 t1
    validate_esp32_checked) as He.
  destruct (range_loop (validate_esp32 render) 0 esp32 t1) as [err|t2]; simpl in He.
  { rewrite NoDup_app. intros (? & _ & Hd & ?). apply He. split_and!; try done.
    intros k Hk. rewrite Hseen1. intros ?. by apply (Hd k). }
  destruct He as ((? & ? & Hd) & He). rewrite NoDup_app. split_and!; try done.
  - intros k Hk Hk2. by apply (Hd k Hk2), Hseen1.
  - intros p. specialize (He (RProbe, p)). unfold seen_as in He at 1. simpl in He.
    rewrite He, Hseen1, <- !elem_of_with_role, with_role_shelly, with_role_esp32. set_solver.
Qed.

Lemma validateAdapters_spec c : validateAdapters render c = None ↔ adapters_ok c.
Proof.
  unfold validateAdapters. guards.
  pose proof (adapter_loops_spec (elems (ad_ShellyEndpoints (cf_Adapters c)))
    (elems (ad_ESP32Endpoints (cf_Adapters c)))) as Hl.
  destruct (range_loop (validate_shelly render) _ _ _) as [err|t1].
  { split; [naive_solver|]. intros [_ _ ? _ Hu _]. apply NoDup_adapter_keys, NoDup_app in Hu. naive_solver. }
  destruct Hl as [[Hok Hnd] Hl]. rewrite guard_None. destruct (range_loop (validate_esp32 render) _ _ _) as [err|t2].
  { split; [naive_solver|]. intros [_ _ _ ? Hu _]. apply NoDup_adapter_keys in Hu. naive_solver. }
  destruct Hl as [[? Hu] Hp]. apply NoDup_adapter_keys in Hu as Hu2.
  rewrite (first_error_Forall _ _ _ _ (validate_heater_spec _ _)), Forall_forall. setoid_rewrite Hp.
  autorewrite with go_bool. split.
  - intros (Hsim & Hbench & Hsh & Hesp & Hheat). split; try done.
    + intros Hreal. destruct Hsim as [[? ?]|?], Hbench as [[? ?]|[? ?]]; destruct Hreal; try congruence; done.
    + split; intros ?; [destruct Hsh|destruct Hesp]; congruence.
  - intros [Hreal [Hsh Hesp] _ _ _ Hheat].
    destruct (ad_ShellyEnabled _), (ad_ESP32Enabled _); split_and?; auto; right; by apply Hreal; auto.
Qed.
End adapters.

(** ** Inventory *)
Section inventory.
Context (render : error → string).

Definition device_ok (d : DeviceConfig) : Prop :=
  identifierPattern (dc_ID d) = true ∧ (dc_EntityID d = "" ∨ uuid (dc_EntityID d)).

Definition finite (value : option float64) : Prop := not_finite value = false.

Definition calibration_ok (c : Calibration) : Prop :=
  ca_Enabled c = true →
  F64_eq (ca_Scale c) (F64 0) = false ∧ finite (Some (ca_Scale c)) ∧ finite (Some (ca_Offset c))
  ∧ blank (ca_Reference c) = false ∧ blank (ca_CalibratedBy c) = false ∧ ts_instant (ca_CalibratedAt c) ≠ 0.

Record sensor_ok (device : string → Prop) (s : SensorConfig) : Prop := {
  se_id : identifierPattern (sg_ID s) = true;
  se_entity : sg_EntityID s = "" ∨ uuid (sg_EntityID s);
  se_device : device (sg_DeviceID s);
  se_unit : sg_Unit s ∈ ["celsius"; "fahrenheit"; "pH"; "ppt"; "liters_per_hour"; "boolean"];
  se_finite : finite (sg_Minimum s) ∧ finite (sg_Maximum s);
  se_range : ∀ lo hi, sg_Minimum s = Some lo → sg_Maximum s = Some hi → F64_le hi lo = false;
  se_calibration : calibration_ok (sg_Calibration s)
}.

Definition hazardous_kinds : list string := ["heater"; "dosing-pump"; "ato"].
Definition equipment_kinds : list string :=
  ["outlet"; "heater"; "return-pump"; "circulation-pump"; "dosing-pump"; "light"; "ato"].

Definition commissioning_stages : list string :=
  ["uncommissioned"; "discovered"; "mapped"; "configured"; "validated"; "bench-tested"; "commissioned"; "disabled"].

Record equipment_ok (device sensor : string → Prop) (e : EquipmentConfig) : Prop := {
  qo_id : identifierPattern (qc_ID e) = true;
  qo_entity : qc_EntityID e = "" ∨ uuid (qc_EntityID e);
  qo_device : device (qc_DeviceID e);
  qo_kind : qc_Kind e = "" ∨ qc_Kind e ∈ equipment_kinds ∧ ValidateCapabilities (elems (qc_Capabilities e)) = None;
  qo_limits : 0 ≤ qc_MaximumOn e ∧ 0 ≤ qc_MaximumDaily e ∧ 0 ≤ qc_MinimumOff e
    ∧ (0 < qc_MaximumDaily e → qc_MaximumOn e ≤ qc_MaximumDaily e);
  qo_hazardous : qc_Kind e ∈ hazardous_kinds →
    qc_Hazardous e = true ∧ qc_FailSafeOn e = false ∧ 0 < qc_MaximumOn e ∧ elems (qc_RequiredSensorIDs e) ≠ [];
  qo_dosing : qc_Kind e = "dosing-pump" → 0 < qc_MaximumDaily e;
  qo_sensors : Forall sensor (elems (qc_RequiredSensorIDs e));
  qo_stage : cm_Stage (qc_Commissioning e) = "" ∨ cm_Stage (qc_Commissioning e) ∈ commissioning_stages
}.

Lemma validate_calibration_spec base c : validate_calibration base c = None ↔ calibration_ok c.
Proof.
  unfold validate_calibration, calibration_ok, finite. destruct (ca_Enabled c); simpl; [|naive_solver].
  guards. unfold IsZero. rewrite Z.eqb_neq. tauto.
Qed.

Lemma validate_sensor_fields_spec base devices s :
  identifierPattern (sg_ID s) = true ∧ validate_sensor_fields render base devices s = None
  ↔ sensor_ok (fun d => d ∈ devices) s.
Proof.
  unfold validate_sensor_fields. guards. rewrite validate_calibration_spec. split.
  - intros (? & ? & ? & ? & ? & ? & Hr & ?). split; try done. intros lo hi Hlo Hhi. by rewrite Hlo, Hhi in Hr.
  - intros [? ? ? ? [? ?] Hr ?]. split_and!; try done. destruct (sg_Minimum s), (sg_Maximum s); auto.
Qed.

Lemma Commissioning_validate_spec path c :
  Commissioning_validate path c = None ↔ cm_Stage c = "" ∨ cm_Stage c ∈ commissioning_stages.
Proof.
  unfold Commissioning_validate. case_bool_decide; [simpl; naive_solver|]. guards. naive_solver.
Qed.

Lemma validate_equipment_fields_spec base devices sensors e :
  identifierPattern (qc_ID e) = true ∧ validate_equipment_fields render base devices sensors e = None
  ↔ equipment_ok (fun d => d ∈ devices) (fun s => s ∈ sensors) e.
Proof.
  unfold validate_equipment_fields. guards.
  rewrite (first_error_Forall (fun s => s ∈ sensors)), Commissioning_validate_spec.
  2: { intros _ s. guards. naive_solver. }
  rewrite <- not_true_iff_false, !oneOf_spec. split.
  - intros (? & ? & ? & Hk & Hc & ? & Hd & Hh & ? & Hdose & ?). split; try done.
    + case_bool_decide; [by left|]. right. by destruct Hk.
    + naive_solver lia.
    + intros ?. destruct Hh as [|[[[]]]]; done.
    + intros ?. by destruct Hdose.
  - intros [? ? ? Hk (? & ? & ? & Hd) Hh Hdose ? ?]. split_and!; try done.
    + destruct Hk as [?|[? ?]]; auto.
    + case_bool_decide; [done|]. by destruct Hk as [?|[? ?]].
    + destruct (decide (0 < qc_MaximumDaily e)); [right; auto|left; lia].
    + destruct (decide (qc_Kind e ∈ hazardous_kinds)) as [Hin|]; [right|by left]. by destruct (Hh Hin) as (? & ? & ? & ?).
    + destruct (decide (qc_Kind e = "dosing-pump")); auto.
Qed.

Lemma validate_device_checked i d t :
  checked (fun k (t : gset string) => k ∈ t) [dc_ID d] (device_ok d) t (validate_device render i d t).
Proof.
  unfold validate_device, device_ok.
  rewrite <- (validateID_spec (at_index "inventory.devices" i +:+ ".id")),
    <- (validate_entity_spec render (at_index "inventory.devices" i +:+ ".entity_id")).
  destruct (validateID _ _); [by intros ([? _] & _)|].
  case_bool_decide; [intros (_ & _ & Hk); by apply (Hk (dc_ID d)); [left|]|].
  destruct (validate_entity _ _ _); [by intros ([_ ?] & _)|]. split.
  - split_and!; [done..|apply NoDup_singleton|]. by intros k ->%list_elem_of_singleton.
  - intros k. by rewrite elem_of_union, elem_of_singleton, list_elem_of_singleton.
Qed.

Lemma validate_sensor_checked devices i s t :
  checked (fun k t => is_Some (t.1 !! k)) [sg_ID s] (sensor_ok (fun d => d ∈ devices) s) t
    (validate_sensor_item render devices i s t).
Proof.
  destruct t as [seen ids]. unfold validate_sensor_item.
  rewrite <- (validate_sensor_fields_spec (at_index "inventory.sensors" i)),
    <- (validateID_spec (at_index "inventory.sensors" i +:+ ".id")).
  destruct (validateID _ _); [by intros ([? _] & _)|].
  destruct (seen !! sg_ID s) as [previous|] eqn:Hseen.
  { intros (_ & _ & Hk). apply (Hk (sg_ID s)); [left|]. simpl. by rewrite Hseen. }
  destruct (validate_sensor_fields _ _ _ _); [by intros ([_ ?] & _)|]. split.
  - split_and!; [done..|apply NoDup_singleton|]. intros k ->%list_elem_of_singleton. simpl. rewrite Hseen. by intros [].
  - intros k. simpl. rewrite lookup_insert_is_Some, list_elem_of_singleton. destruct (decide (k = sg_ID s)); naive_solver.
Qed.

Lemma validate_equipment_checked devices sensors i e t :
  checked (fun k (t : gmap string string) => is_Some (t !! k)) [qc_ID e]
    (equipment_ok (fun d => d ∈ devices) (fun s => s ∈ sensors) e) t (validate_equipment_item render devices sensors i e t).
Proof.
  unfold validate_equipment_item.
  rewrite <- (validate_equipment_fields_spec (at_index "inventory.equipment" i)),
    <- (validateID_spec (at_index "inventory.equipment" i +:+ ".id")).
  destruct (validateID _ _); [by intros ([? _] & _)|].
  destruct (t !! qc_ID e) as [previous|] eqn:Hseen.
  { intros (_ & _ & Hk). apply (Hk (qc_ID e)); [left|]. by rewrite Hseen. }
  destruct (validate_equipment_fields _ _ _ _ _); [by intros ([_ ?] & _)|]. split.
  - split_and!; [done..|apply NoDup_singleton|]. intros k ->%list_elem_of_singleton. rewrite Hseen. by intros [].
  - intros k. rewrite lookup_insert_is_Some, list_elem_of_singleton. destruct (decide (k = qc_ID e)); naive_solver.
Qed.

#[export] Instance sensor_ok_proper : Proper (pointwise_relation _ iff ==> eq ==> iff) sensor_ok.
Proof. intros P Q HPQ s ? <-. split; intros []; split; try done; by apply HPQ. Qed.

#[export] Instance equipment_ok_proper :
  Proper (pointwise_relation _ iff ==> pointwise_relation _ iff ==> eq ==> iff) equipment_ok.
Proof.
  intros P Q HPQ P2 Q2 HPQ2 e ? <-.
  split; intros []; split; try done; try (by apply HPQ); by (eapply Forall_impl; [done|]; intros; apply HPQ2).
Qed.

Record inventory_ok (i : Inventory) : Prop := {
  io_devices : Forall device_ok (elems (iv_Devices i)) ∧ NoDup (dc_ID <$> elems (iv_Devices i));
  io_sensors : Forall (sensor_ok (fun d => d ∈ dc_ID <$> elems (iv_Devices i))) (elems (iv_Sensors i));
  io_equipment : Forall (equipment_ok (fun d => d ∈ dc_ID <$> elems (iv_Devices i))
    (fun s => s ∈ sg_ID <$> elems (iv_Sensors i))) (elems (iv_Equipment i));
  io_unique : NoDup ((sg_ID <$> elems (iv_Sensors i)) ++ (qc_ID <$> elems (iv_Equipment i)))
}.

(** The set of sensor identities is that of the map of identities so far. *)
Lemma validate_sensor_ids devices i l t t' :
  range_loop (validate_sensor_item render devices) i l t = inr t' → (∀ k, k ∈ t.2 ↔ is_Some (t.1 !! k)) →
  ∀ k, k ∈ t'.2 ↔ is_Some (t'.1 !! k).
Proof.
  revert i t. induction l as [|s l IH]; intros i t; simpl; [by intros [= ->]|].
  destruct (validate_sensor_item render devices i s t) as [|t1] eqn:Hv; [done|]. intros Hl Ht. apply (IH _ _ Hl).
  destruct t as [seen ids]. unfold validate_sensor_item in Hv. repeat case_match; simplify_eq/=.
  intros k. rewrite elem_of_union, elem_of_singleton, lookup_insert_is_Some, Ht. destruct (decide (k = sg_ID s)); naive_solver.
Qed.

Lemma Inventory_validate_spec i : Inventory_validate render i = None ↔ inventory_ok i.
Proof.
  unfold Inventory_validate.
  pose proof (range_loop_checked _ _ _ _ (elems (iv_Devices i)) 0 ∅ validate_device_checked) as Hd.
  rewrite bind_single in Hd. destruct (range_loop (validate_device render) _ _ _) as [err|devices]; simpl in Hd.
  { split; [done|]. intros [[? ?] _ _ _]. destruct Hd. split_and!; [done..|]. intros k _. apply not_elem_of_empty. }
  destruct Hd as ((? & ? & _) & Hd).
  assert (∀ d, d ∈ devices ↔ d ∈ dc_ID <$> elems (iv_Devices i)) as Hdev by (intros d; rewrite Hd; set_solver).
  pose proof (range_loop_checked _ _ _ _ (elems (iv_Sensors i)) 0 (∅, ∅) (validate_sensor_checked devices)) as Hs.
  pose proof (validate_sensor_ids devices 0 (elems (iv_Sensors i)) (∅, ∅)) as Hids.
  rewrite bind_single in Hs.
  assert (Forall (sensor_ok (fun d => d ∈ devices)) (elems (iv_Sensors i))
    ↔ Forall (sensor_ok (fun d => d ∈ dc_ID <$> elems (iv_Devices i))) (elems (iv_Sensors i))) as HsenF.
  { apply Forall_proper; [|done]. intros s. apply sensor_ok_proper; [exact Hdev|done]. }
  destruct (range_loop (validate_sensor_item render devices) _ _ _) as [err|[seen ids]]; simpl in Hs.
  { split; [done|]. intros [_ ? _ Hu]. apply NoDup_app in Hu as (? & _ & _). destruct Hs. split_and!; try done.
    by apply HsenF. }
  destruct Hs as ((? & ? & _) & Hs). specialize (Hids _ eq_refl). simpl in *.
  assert (∀ s, is_Some (seen !! s) ↔ s ∈ sg_ID <$> elems (iv_Sensors i)) as Hseen.
  { intros s. rewrite Hs, lookup_empty, is_Some_alt. naive_solver. }
  assert (∀ s, s ∈ ids ↔ s ∈ sg_ID <$> elems (iv_Sensors i)) as Hid.
  { intros s. rewrite Hids; [apply Hseen|]. intros k. rewrite lookup_empty, is_Some_alt. set_solver. }
  pose proof (range_loop_checked _ _ _ _ (elems (iv_Equipment i)) 0 seen (validate_equipment_checked devices ids)) as He.
  rewrite bind_single in He.
  assert (Forall (equipment_ok (fun d => d ∈ devices) (fun s => s ∈ ids)) (elems (iv_Equipment i))
    ↔ Forall (equipment_ok (fun d => d ∈ dc_ID <$> elems (iv_Devices i)) (fun s => s ∈ sg_ID <$> elems (iv_Sensors i)))
        (elems (iv_Equipment i))) as HeF.
  { apply Forall_proper; [|done]. intros e. apply equipment_ok_proper; [exact Hdev|exact Hid|done]. }
  destruct (range_loop (validate_equipment_item render devices ids) _ _ _) as [err|last]; simpl in He.
  - split; [done|]. intros [_ _ ? Hu]. apply NoDup_app in Hu as (_ & Hdis & ?). destruct He. split_and!; try done.
    + by apply HeF.
    + intros k Hk Hin%Hseen. by apply (Hdis k).
  - destruct He as ((? & ? & Hnew) & _). split; [|done]. intros _. split; [done|by apply HsenF|by apply HeF|].
    apply NoDup_app. split_and!; try done. intros k Hk%Hseen Hin. by apply (Hnew k).
Qed.
End inventory.

(** ** Alarm rules *)
Lemma by_id_snoc {A B} (id : A → string) (f : A → B) l x : by_id id f (l ++ [x]) = <[id x := f x]> (by_id id f l).
Proof. unfold by_id. by rewrite foldl_app. Qed.

Lemma by_id_lookup {A B} (id : A → string) (f : A → B) l k b :
  NoDup (id <$> l) → by_id id f l !! k = Some b ↔ ∃ x, x ∈ l ∧ id x = k ∧ f x = b.
Proof.
  induction l as [|x l IH] using rev_ind; intros Hnd; [unfold by_id; simpl; set_solver|].
  rewrite fmap_app in Hnd. apply NoDup_app in Hnd as (Hnd & Hdis & _). specialize (IH Hnd).
  rewrite by_id_snoc, lookup_insert_Some, IH. setoid_rewrite elem_of_app. setoid_rewrite list_elem_of_singleton. split.
  - intros [[<- <-]|[Hne (y & ? & ? & ?)]]; [exists x|exists y]; auto.
  - intros (y & [Hin| ->] & <- & <-); [|by left]. right. split; [|by eauto].
    intros Heq. apply (Hdis (id y)); [by apply list_elem_of_fmap_2|]. rewrite <- Heq. left.
Qed.

Definition rule_conditions : list string := ["above"; "below"; "outside"; "true"; "false"].

Record rule_ok (sensors : list SensorConfig) (r : AlarmRule) : Prop := {
  ro_id : identifierPattern (ar_ID r) = true;
  ro_sensor : ∃ s, s ∈ sensors ∧ sg_ID s = ar_SensorID r ∧ sg_EntityID s ≠ "";
  ro_name : blank (ar_Name r) = false;
  ro_condition : ar_Condition r ∈ rule_conditions;
  ro_finite : finite (Some (ar_Threshold r)) ∧ finite (ar_ThresholdHigh r);
  ro_outside : ar_Condition r = "outside" → ∃ hi, ar_ThresholdHigh r = Some hi ∧ F64_le hi (ar_Threshold r) = false;
  ro_severity : ar_Severity r ∈ ["info"; "warning"; "critical"];
  ro_delays : 0 ≤ ar_Delay r ≤ 24 * Hour ∧ 0 ≤ ar_ClearDelay r ≤ 24 * Hour;
  ro_targets : Forall (fun t => t ∈ ["home-assistant"; "mqtt"; "log"]) (elems (ar_Notifications r))
}.

Lemma validate_rule_fields_spec base sensors r :
  NoDup (sg_ID <$> sensors) →
  identifierPattern (ar_ID r) = true ∧ validate_rule_fields base (by_id sg_ID sg_EntityID sensors) r = None
  ↔ rule_ok sensors r.
Proof.
  intros Hnd. unfold validate_rule_fields.
  pose proof (by_id_lookup sg_ID sg_EntityID sensors (ar_SensorID r)) as Hl.
  destruct (by_id sg_ID sg_EntityID sensors !! ar_SensorID r) as [entity|].
  2: { split; [naive_solver|]. intros [_ (s & ? & ? & ?)]. specialize (Hl (sg_EntityID s) Hnd).
       destruct Hl as [_ Hl]. discriminate Hl. by eauto. }
  guards. rewrite (first_error_Forall (fun t => t ∈ ["home-assistant"; "mqtt"; "log"])).
  2: { intros _ t. guards. naive_solver. }
  destruct (Hl entity Hnd) as [Hs _]. destruct Hs as (s & Hin & Hid & Hentity); [done|]. split.
  - intros (? & ? & ? & ? & ? & Ho & ? & ? & ?). split; try done.
    + exists s. split_and!; try done. congruence.
    + intros Hc. destruct Ho as [Ho|Ho]; [congruence|]. destruct (ar_ThresholdHigh r); [by eauto|done].
    + lia.
  - intros [? (s2 & ? & Hid2 & ?) ? ? [? ?] Ho ? ? ?]. split_and!; try done; try lia.
    + specialize (Hl (sg_EntityID s2) Hnd). destruct Hl as [_ Hl]. assert (Some entity = Some (sg_EntityID s2)) by eauto. congruence.
    + destruct (decide (ar_Condition r = "outside")) as [Hc|]; [right|by left]. destruct (Ho Hc) as (hi & -> & ?). done.
Qed.

Lemma AlarmConfig_validate_spec inventory rules :
  NoDup (sg_ID <$> elems (iv_Sensors inventory)) →
  AlarmConfig_validate inventory rules = None
  ↔ Forall (rule_ok (elems (iv_Sensors inventory))) rules ∧ NoDup (ar_ID <$> rules).
Proof.
  intros Hnd. unfold AlarmConfig_validate. set (sensors := elems (iv_Sensors inventory)) in *.
  assert (∀ i r t, checked (fun k (t : gset string) => k ∈ t) [ar_ID r] (rule_ok sensors r) t
    (validate_rule (by_id sg_ID sg_EntityID sensors) i r t)) as Hturn.
  { intros i r t. unfold validate_rule. rewrite <- (validate_rule_fields_spec (at_index "alarms.rules" i) sensors r Hnd),
      <- (validateID_spec (at_index "alarms.rules" i +:+ ".id")).
    destruct (validateID _ _); [by intros ([? _] & _)|].
    case_bool_decide; [intros (_ & _ & Hk); by apply (Hk (ar_ID r)); [left|]|].
    destruct (validate_rule_fields _ _ _); [by intros ([_ ?] & _)|]. split.
    - split_and!; [done..|apply NoDup_singleton|]. by intros k ->%list_elem_of_singleton.
    - intros k. by rewrite elem_of_union, elem_of_singleton, list_elem_of_singleton. }
  pose proof (range_loop_checked _ _ _ _ rules 0 ∅ Hturn) as Hr. rewrite bind_single in Hr.
  destruct (range_loop _ _ _ _); simpl in Hr.
  - split; [done|]. intros [? ?]. destruct Hr. split_and!; [done..|]. intros k _. apply not_elem_of_empty.
  - by destruct Hr as ((? & ? & _) & _).
Qed.

(** ** The whole snapshot *)
Section snapshot.
Context `{!URLParser, !NetParser, !MapRange} (render : error → string).

Record http_ok (h : HTTP) : Prop := {
  ho_address : blank (ht_Address h) = false;
  ho_listener : ∃ host, SplitHost (ht_Address h) = Some host
    ∧ (host = "localhost" ∨ LoopbackIP host = true ∨ ht_BearerTokenFile h ≠ "");
  ho_limits : 1024 ≤ ht_MaximumRequestBytes h ≤ 1024 * 1024 ∧ 1 ≤ ht_MutationRate h ≤ 1000
    ∧ 1 ≤ ht_MutationBurst h ≤ 1000
}.

Record mqtt_ok (m : MQTT) : Prop := {
  mo_site : identifierPattern (mq_SiteID m) = true;
  mo_broker : mq_Broker m ≠ "" ∧ ∃ u, url_Parse (mq_Broker m) = Some u
    ∧ (url_Scheme u = "tcp" ∨ url_Scheme u = "ssl") ∧ url_Host u ≠ "" ∧ url_User u = false;
  mo_client : mq_ClientID m ≠ "";
  mo_timing : 0 < mq_ConnectTimeout m ≤ Minute ∧ Second ≤ mq_KeepAlive m ≤ 10 * Minute
    ∧ 0 < mq_ReconnectMinimum m ≤ mq_ReconnectMaximum m ∧ mq_ReconnectMaximum m ≤ 10 * Minute;
  mo_capacities : 256 ≤ mq_MaximumPayload m ≤ 16 * 1024 * 1024 ∧ 1 ≤ mq_QueueCapacity m ≤ 65536
    ∧ 1 ≤ mq_IdempotencyCapacity m ≤ 1000000;
  mo_jitter : F64_lt (mq_ReconnectJitter m) (F64 0) = false ∧ F64_lt F64_0_5 (mq_ReconnectJitter m) = false
}.

Record storage_ok (s : InfluxDB) : Prop := {
  st_capacities : 1 ≤ ix_BatchSize s ≤ ix_QueueCapacity s ∧ ix_QueueCapacity s ≤ 1000000;
  st_timing : 0 < ix_FlushInterval s ∧ 0 < ix_RetryMinimum s ≤ ix_RetryMaximum s
    ∧ ix_RetryMaximum s ≤ 10 * Minute ∧ 0 < ix_WriteTimeout s ≤ Minute;
  st_enabled : ix_Enabled s = true →
    (∃ u, url_Parse (ix_URL s) = Some u ∧ url_Host u ≠ "" ∧ (url_Scheme u = "http" ∨ url_Scheme u = "https")
       ∧ url_User u = false)
    ∧ ix_Organization s ≠ "" ∧ ix_Bucket s ≠ "" ∧ ix_TokenFile s ≠ ""
}.

Record config_ok (c : Config) : Prop := {
  co_schema : cf_SchemaVersion c = CurrentSchemaVersion;
  co_level : ToLower (ap_LogLevel (cf_Application c)) ∈ ["debug"; "info"; "warn"; "error"];
  co_timeouts : Forall (fun entry => 0 < entry.2 ≤ 10 * Minute) (timeouts c);
  co_http : http_ok (cf_HTTP c);
  co_concurrency : 1 ≤ ap_EventConcurrency (cf_Application c) ≤ 4096;
  co_mqtt : mq_Enabled (cf_MQTT c) = true → mqtt_ok (cf_MQTT c);
  co_home_assistant : (ha_Enabled (mq_HomeAssistant (cf_MQTT c)) = true → mq_Enabled (cf_MQTT c) = true)
    ∧ 0 < ha_CommandTTL (mq_HomeAssistant (cf_MQTT c)) ≤ Minute;
  co_storage : storage_ok (cf_Storage c);
  co_tombstones : Forall (fun t => haIdentifierPattern (tb_Component t) = true ∧ identifierPattern (tb_ObjectID t) = true)
    (elems (ha_Tombstones (mq_HomeAssistant (cf_MQTT c))));
  co_adapters : adapters_ok c;
  co_inventory : inventory_ok (cf_Inventory c);
  co_rules : Forall (rule_ok (elems (iv_Sensors (cf_Inventory c)))) (elems (cf_AlarmRules c))
    ∧ NoDup (ar_ID <$> elems (cf_AlarmRules c));
  co_backups : bk_Enabled (cf_Backups c) = true →
    String.prefix "/" (path_Clean (bk_Destination (cf_Backups c))) = true
    ∧ path_Clean (bk_Destination (cf_Backups c)) ≠ "/" ∧ 1 ≤ bk_RetentionDays (cf_Backups c) ≤ 3650
}.

Lemma validate_http_spec c : validate_http c = None ↔ http_ok (cf_HTTP c).
Proof.
  unfold validate_http. guards. destruct (SplitHost (ht_Address (cf_HTTP c))) as [host|] eqn:Hh.
  - guards. split.
    + intros (? & Hl & ? & ?). split; [done| |lia]. exists host. split; [done|]. tauto.
    + intros [? (h & Hh2 & Hl) ?]. simplify_eq. split_and!; try lia; tauto.
  - split; [naive_solver|]. intros [_ (h & Hh2 & _) _]. congruence.
Qed.

Lemma validate_mqtt_spec m : validate_mqtt m = None ↔ mqtt_ok m.
Proof.
  unfold validate_mqtt. guards. destruct (url_Parse (mq_Broker m)) as [u|] eqn:Hu.
  - guards. split.
    + intros (? & ? & [? ?] & ? & ? & ? & ? & ? & ? & ? & [? _]). split; try done; try lia.
      split; [done|]. exists u. auto.
    + intros [? [? (u2 & Hu2 & ? & ? & ?)] ? (? & ? & ? & ?) (? & ? & ?) [? ?]]. simplify_eq.
      split_and!; try done; lia.
  - split; [naive_solver|]. intros [_ (_ & u & Hu2 & _) _ _ _ _]. congruence.
Qed.

Lemma validate_home_assistant_spec m :
  validate_home_assistant m = None
  ↔ (ha_Enabled (mq_HomeAssistant m) = true → mq_Enabled m = true) ∧ 0 < ha_CommandTTL (mq_HomeAssistant m) ≤ Minute.
Proof.
  unfold validate_home_assistant. guards. destruct (ha_Enabled _), (mq_Enabled m); naive_solver.
Qed.

Lemma validate_storage_spec s : validate_storage s = None ↔ storage_ok s.
Proof.
  unfold validate_storage. guards. destruct (ix_Enabled s) eqn:He; simpl.
  - destruct (url_Parse (ix_URL s)) as [u|] eqn:Hu.
    + guards. split.
      * intros (? & ? & [? ?] & ? & ?). split; [lia..|]. intros _. split; [|tauto]. exists u. auto.
      * intros [? ? Hen]. destruct (Hen He) as [(u2 & Hu2 & ? & ? & ?) ?]. simplify_eq. split_and!; try done; try lia; tauto.
    + split; [naive_solver|]. intros [_ _ Hen]. destruct (Hen He) as [(u & Hu2 & _) _]. congruence.
  - split; [|intros [? ? _]; split_and!; try done; lia]. intros (? & ? & _). split; [lia..|congruence].
Qed.

Lemma Backup_validate_spec b :
  Backup_validate b = None
  ↔ (bk_Enabled b = true → String.prefix "/" (path_Clean (bk_Destination b)) = true
     ∧ path_Clean (bk_Destination b) ≠ "/" ∧ 1 ≤ bk_RetentionDays b ≤ 3650).
Proof. unfold Backup_validate. destruct (bk_Enabled b); simpl; [guards; tauto|naive_solver]. Qed.

Lemma Config_Validate_iff c : Config_Validate render c = None ↔ config_ok c.
Proof.
  unfold Config_Validate. guards.
  rewrite (first_error_Forall (fun entry : string * Duration => 0 < entry.2 ≤ 10 * Minute)).
  2: { intros i entry. unfold validate_timeout. guards. naive_solver. }
  rewrite (first_error_Forall (fun t => haIdentifierPattern (tb_Component t) = true ∧ identifierPattern (tb_ObjectID t) = true)).
  2: { intros i t. unfold validate_tombstone. guards. naive_solver. }
  rewrite map_range_perm, validate_http_spec, validate_home_assistant_spec, validate_storage_spec,
    validateAdapters_spec, Inventory_validate_spec, Backup_validate_spec.
  assert ((if mq_Enabled (cf_MQTT c) then validate_mqtt (cf_MQTT c) else None) = None
    ↔ (mq_Enabled (cf_MQTT c) = true → mqtt_ok (cf_MQTT c))) as Hm.
  { rewrite <- validate_mqtt_spec. destruct (mq_Enabled (cf_MQTT c)); naive_solver. }
  rewrite Hm. split.
  - intros (? & ? & ? & ? & ? & ? & ? & ? & ? & ? & Hi & Hr & ?). split; try done; try lia.
    apply AlarmConfig_validate_spec; [|done]. destruct Hi as [_ _ _ Hu]. by apply NoDup_app in Hu as (? & _).
  - intros [? ? ? ? ? ? ? ? ? ? Hi Hr ?]. repeat (split; [done || lia|]). split; [|done].
    apply AlarmConfig_validate_spec; [|done]. destruct Hi as [_ _ _ Hu]. by apply NoDup_app in Hu as (? & _).
Qed.

(** C19: validation accepts a configuration exactly when it is in order:
    schema, level, time bounds, HTTP, MQTT, storage and Home Assistant
    settings, unique and well-formed adapter identities, guarded heaters, an
    inventory of unique identities with resolved references, alarm rules on
    sensors with runtime identities, and a dedicated backup directory; the
    order in which maps are ranged over plays no part. *)
Theorem Config_Validate_spec c : Config_Validate render c = None ↔ config_ok c.
Proof. apply Config_Validate_iff. Qed.
End snapshot.

(** ** Copies are as valid as what they copy *)
Lemma elems_copy {A B} (f : A → B) s : elems (copy_slice f s) = f <$> elems s.
Proof. unfold copy_slice. by destruct (elems s). Qed.

Lemma elems_copy_id {A} (s : option (list A)) : elems (copy_slice id s) = elems s.
Proof. by rewrite elems_copy, list_fmap_id. Qed.

Lemma first_error_copy {A} (f : Z → A → option error) (g : A → A) i l :
  (∀ i x, f i (g x) = f i x) → first_error f i (g <$> l) = first_error f i l.
Proof. intros Hf. revert i. induction l as [|x l IH]; intros i; simpl; [done|]. rewrite Hf. by destruct (f i x). Qed.

Lemma range_loop_copy {A T} (f : Z → A → T → error + T) (g : A → A) i l t :
  (∀ i x t, f i (g x) t = f i x t) → range_loop f i (g <$> l) t = range_loop f i l t.
Proof.
  intros Hf. revert i t. induction l as [|x l IH]; intros i t; simpl; [done|]. rewrite Hf. by destruct (f i x t).
Qed.

Lemma clone_pointer_id {A} (p : option A) : clone_pointer p = p.
Proof. by destruct p. Qed.

Lemma by_id_copy {A B} (id : A → string) (f : A → B) (g : A → A) l :
  (∀ x, id (g x) = id x ∧ f (g x) = f x) → by_id id f (g <$> l) = by_id id f l.
Proof.
  intros Hg. induction l as [|x l IH] using rev_ind; [done|]. rewrite fmap_app. simpl.
  rewrite !by_id_snoc, IH. by destruct (Hg x) as [-> ->].
Qed.

Section copies.
Context `{!URLParser, !NetParser, !MapRange} (render : error → string).

Lemma validate_clone_shelly i e t : validate_shelly render i (clone_shelly e) t = validate_shelly render i e t.
Proof.
  unfold validate_shelly, validate_shelly_fields, validate_shelly_kind. destruct e. simpl. by rewrite elems_copy_id.
Qed.

Lemma validate_clone_esp32 i e t : validate_esp32 render i (clone_esp32 e) t = validate_esp32 render i e t.
Proof. unfold validate_esp32, validate_esp32_bounds. destruct e. simpl. by rewrite elems_copy_id. Qed.

Lemma validate_clone_heater a probes i e : validate_heater a probes i (clone_shelly e) = validate_heater a probes i e.
Proof. unfold validate_heater. destruct e. simpl. by rewrite elems_copy_id. Qed.

Lemma fmap_nil_decide {A B} (f : A → B) l : bool_decide (f <$> l = []) = bool_decide (l = []).
Proof. by destruct l. Qed.

Lemma validateAdapters_Clone c : validateAdapters render (Config_Clone c) = validateAdapters render c.
Proof.
  unfold validateAdapters, Config_Clone. cbn [cf_Adapters cf_SimulatorEnabled cf_Bench
    ad_ShellyEnabled ad_ShellyEndpoints ad_ESP32Enabled ad_ESP32Endpoints].
  rewrite !elems_copy, !fmap_nil_decide, (range_loop_copy _ clone_shelly) by apply validate_clone_shelly.
  destruct (range_loop (validate_shelly render) _ _ _) as [|t]; [done|].
  rewrite (range_loop_copy _ clone_esp32) by apply validate_clone_esp32.
  destruct (range_loop (validate_esp32 render) _ _ _); [done|].
  rewrite first_error_copy; [done|]. intros. apply validate_clone_heater.
Qed.

Lemma Inventory_validate_Clone c :
  Inventory_validate render (cf_Inventory (Config_Clone c)) = Inventory_validate render (cf_Inventory c).
Proof.
  unfold Inventory_validate, Config_Clone. cbn [cf_Inventory iv_Devices iv_Sensors iv_Equipment].
  rewrite !elems_copy, (range_loop_copy _ clone_device) by (by intros ? []).
  destruct (range_loop (validate_device render) _ _ _) as [|t]; [done|].
  rewrite (range_loop_copy _ clone_sensor).
  2: { intros ? [] [? ?]. unfold validate_sensor_item, validate_sensor_fields. simpl. by rewrite !clone_pointer_id. }
  destruct (range_loop (validate_sensor_item render t) _ _ _) as [|[seen ids]]; [done|].
  rewrite (range_loop_copy _ clone_equipment); [done|].
  intros ? [] ?. unfold validate_equipment_item, validate_equipment_fields. simpl. by rewrite !elems_copy_id.
Qed.

Lemma AlarmConfig_validate_Clone c :
  AlarmConfig_validate (cf_Inventory (Config_Clone c)) (elems (cf_AlarmRules (Config_Clone c)))
  = AlarmConfig_validate (cf_Inventory c) (elems (cf_AlarmRules c)).
Proof.
  unfold AlarmConfig_validate, Config_Clone. cbn [cf_Inventory iv_Sensors cf_AlarmRules].
  rewrite !elems_copy, by_id_copy by done. rewrite (range_loop_copy _ clone_rule); [done|].
  intros ? [] ?. unfold validate_rule, validate_rule_fields. simpl. by rewrite elems_copy_id, clone_pointer_id.
Qed.

(** A copy is validated with the same outcome. *)
Lemma Config_Validate_Clone c : Config_Validate render (Config_Clone c) = Config_Validate render c.
Proof.
  unfold Config_Validate. rewrite validateAdapters_Clone, Inventory_validate_Clone, AlarmConfig_validate_Clone.
  unfold Config_Clone at 1 2 3 4 5 6 7 8 9 10 11 12. simpl. by rewrite elems_copy_id.
Qed.

(** What loading answers has passed validation. *)
Lemma Load_validated env `{!YAML} path c : Load env render path = inr c → Config_Validate render c = None.
Proof. unfold Load. intros Hl. repeat case_match; simplify_eq. by rewrite Config_Validate_Clone. Qed.

Lemma DecodeCandidate_validated `{!YAML} data c :
  DecodeCandidate render data = inr c → Config_Validate render c = None ∧ mq_Password (cf_MQTT c) = "".
Proof.
  unfold DecodeCandidate. intros Hl. repeat case_match; simplify_eq. rewrite Config_Validate_Clone.
  split; [done|]. match goal with Hp : negb _ = false |- _ => by apply negb_false_iff, bool_decide_eq_true in Hp end.
Qed.
End copies.
