(* ===== verification/ConfigManager.v ===== *)
(** * The configuration manager: [internal/config/manager.go]

    The owner of the active snapshot: comparison of snapshots, planning and
    reloading. The loader, the event publisher and the logger's level are
    interfaces. [reflect.DeepEqual] compares floating-point numbers with [==],
    so a NaN is never equal to itself, and tells nil slices from empty ones. *)

From Stdlib Require Import ZArith Lia String SpecFloat.
From stdpp Require Import base gmap strings list.
From S2P Require Import Prelude Domain Health Events Config ConfigValidation.

(** ** Deep equality of the parts of a snapshot *)
#[export] Instance HTTP_eq_dec : EqDecision HTTP.
Proof. solve_decision. Defined.
#[export] Instance Bench_eq_dec : EqDecision Bench.
Proof. solve_decision. Defined.
#[export] Instance InfluxDB_eq_dec : EqDecision InfluxDB.
Proof. solve_decision. Defined.
#[export] Instance Tombstone_eq_dec : EqDecision HomeAssistantTombstone.
Proof. solve_decision. Defined.
#[export] Instance HomeAssistant_eq_dec : EqDecision HomeAssistant.
Proof. solve_decision. Defined.
#[export] Instance MQTT_eq_dec : EqDecision MQTT.
Proof. solve_decision. Defined.
#[export] Instance ShellyEndpoint_eq_dec : EqDecision ShellyEndpoint.
Proof. solve_decision. Defined.
#[export] Instance ESP32Endpoint_eq_dec : EqDecision ESP32Endpoint.
Proof. solve_decision. Defined.
#[export] Instance Timestamp_eq_dec : EqDecision Timestamp.
Proof. solve_decision. Defined.
#[export] Instance Calibration_eq_dec : EqDecision Calibration.
Proof. solve_decision. Defined.
#[export] Instance Commissioning_eq_dec : EqDecision Commissioning.
Proof. solve_decision. Defined.
#[export] Instance DeviceConfig_eq_dec : EqDecision DeviceConfig.
Proof. solve_decision. Defined.
#[export] Instance SensorConfig_eq_dec : EqDecision SensorConfig.
Proof. solve_decision. Defined.
#[export] Instance EquipmentConfig_eq_dec : EqDecision EquipmentConfig.
Proof. solve_decision. Defined.

Definition eq_pointer {A} (eq : A → A → bool) (p q : option A) : bool :=
  match p, q with
  | None, None => true
  | Some x, Some y => eq x y
  | _, _ => false
  end.

Fixpoint eq_list {A} (eq : A → A → bool) (l m : list A) : bool :=
  match l, m with
  | [], [] => true
  | x :: l, y :: m => eq x y && eq_list eq l m
  | _, _ => false
  end.

Definition eq_slice {A} (eq : A → A → bool) : Slice A → Slice A → bool := eq_pointer (eq_list eq).
Definition eq_exact {A} `{!EqDecision A} (x y : A) : bool := bool_decide (x = y).

(** Records with floating-point fields: the fields, and the rest of the
    record. *)
Definition with_jitter (f : float64) (m : MQTT) : MQTT :=
  mkMQTT (mq_Enabled m) (mq_SiteID m) (mq_Broker m) (mq_ClientID m) (mq_Username m) (mq_Password m)
    (mq_ConnectTimeout m) (mq_KeepAlive m) (mq_DisconnectQuiesce m) (mq_RequiredForReady m) (mq_MaximumPayload m)
    (mq_QueueCapacity m) (mq_IdempotencyCapacity m) (mq_ReconnectMinimum m) (mq_ReconnectMaximum m) f
    (mq_HomeAssistant m).

Definition eq_mqtt (a b : MQTT) : bool :=
  F64_eq (mq_ReconnectJitter a) (mq_ReconnectJitter b) && eq_exact (with_jitter (F64 0) a) (with_jitter (F64 0) b).

Definition with_difference (f : float64) (e : ESP32Endpoint) : ESP32Endpoint :=
  mkESP32Endpoint (ec_ID e) (ec_DeviceID e) (ec_AlarmRuleID e) (ec_BaseURL e) (ec_BearerTokenFile e) (ec_ProbeIDs e)
    (ec_PollInterval e) (ec_RequestTimeout e) (ec_FreshFor e) (ec_MaximumClockSkew e) f.

Definition eq_esp32 (a b : ESP32Endpoint) : bool :=
  F64_eq (ec_MaximumDifference a) (ec_MaximumDifference b)
  && eq_exact (with_difference (F64 0) a) (with_difference (F64 0) b).

Definition eq_adapters (a b : Adapters) : bool :=
  eq_exact (ad_ShellyEnabled a) (ad_ShellyEnabled b)
  && eq_slice eq_exact (ad_ShellyEndpoints a) (ad_ShellyEndpoints b)
  && eq_exact (ad_ESP32Enabled a) (ad_ESP32Enabled b)
  && eq_slice eq_esp32 (ad_ESP32Endpoints a) (ad_ESP32Endpoints b).

Definition eq_calibration (a b : Calibration) : bool :=
  eq_exact (ca_Enabled a) (ca_Enabled b) && F64_eq (ca_Scale a) (ca_Scale b) && F64_eq (ca_Offset a) (ca_Offset b)
  && eq_exact (ca_Reference a) (ca_Reference b) && eq_exact (ca_CalibratedBy a) (ca_CalibratedBy b)
  && eq_exact (ca_CalibratedAt a) (ca_CalibratedAt b).

Definition eq_sensor (a b : SensorConfig) : bool :=
  eq_exact (sg_ID a, sg_EntityID a, sg_DeviceID a, sg_Unit a, sg_Name a, sg_Quantity a)
    (sg_ID b, sg_EntityID b, sg_DeviceID b, sg_Unit b, sg_Name b, sg_Quantity b)
  && eq_pointer F64_eq (sg_Minimum a) (sg_Minimum b) && eq_pointer F64_eq (sg_Maximum a) (sg_Maximum b)
  && eq_calibration (sg_Calibration a) (sg_Calibration b).

Definition eq_inventory (a b : Inventory) : bool :=
  eq_slice eq_exact (iv_Devices a) (iv_Devices b) && eq_slice eq_sensor (iv_Sensors a) (iv_Sensors b)
  && eq_slice eq_exact (iv_Equipment a) (iv_Equipment b).

(** ** Planning *)
Record Change := mkChange { ch_Path : string; ch_Reloadable : bool; ch_Reason : string }.
Record ReloadPlan := mkReloadPlan { rp_Digest : string; rp_Changes : list Change }.
Definition zero_ReloadPlan : ReloadPlan := mkReloadPlan "" [].

(** [&ReloadRejectedError{Changes: changes}]: the paths of the changes. *)
Definition ReloadRejectedError (changes : list Change) : error :=
  ErrStruct "config.ReloadRejectedError" (ch_Path <$> changes).

Definition add_change (path : string) (reloadable : bool) (reason : string) (equal : bool) : list Change :=
  if equal then [] else [mkChange path reloadable reason].

Definition changesBetween (current next : Config) : list Change :=
  let a := cf_Application current in
  let b := cf_Application next in
  add_change "schema_version" false "schema changes require migration and restart"
    (eq_exact (cf_SchemaVersion current) (cf_SchemaVersion next))
  ++ add_change "application.log_level" true "logging verbosity is operationally harmless"
    (eq_exact (ap_LogLevel a) (ap_LogLevel b))
  ++ add_change "application.startup_timeout" false "lifecycle bounds are fixed at startup"
    (eq_exact (ap_StartupTimeout a) (ap_StartupTimeout b))
  ++ add_change "application.shutdown_timeout" false "lifecycle bounds are fixed at startup"
    (eq_exact (ap_ShutdownTimeout a) (ap_ShutdownTimeout b))
  ++ add_change "application.component_timeout" false "lifecycle bounds are fixed at startup"
    (eq_exact (ap_ComponentTimeout a) (ap_ComponentTimeout b))
  ++ add_change "http" false "HTTP listeners and timeouts require restart" (eq_exact (cf_HTTP current) (cf_HTTP next))
  ++ add_change "mqtt" false "MQTT connection changes require restart"
    (eq_mqtt (MQTT_Redacted (cf_MQTT current)) (MQTT_Redacted (cf_MQTT next)))
  ++ add_change "simulator" false "adapter activation requires restart"
    (eq_exact (cf_SimulatorEnabled current) (cf_SimulatorEnabled next))
  ++ add_change "adapters" false "direct adapter identity, safety, and connection changes require restart"
    (eq_adapters (cf_Adapters current) (cf_Adapters next))
  ++ add_change "bench" false "bench activation guard changes require restart"
    (eq_exact (cf_Bench current) (cf_Bench next))
  ++ add_change "storage" false "storage pipeline changes require restart"
    (eq_exact (cf_Storage current) (cf_Storage next))
  ++ add_change "inventory" false "inventory changes require validated registry activation"
    (eq_inventory (cf_Inventory current) (cf_Inventory next)).

(** ** The manager *)
Class Loader (L : Type) := { loader_Load : Context → L → (error + Config) * L }.
Class LogLevelSetter (V : Type) := { SetLogLevel : string → V → V }.

Definition ConfigurationChanged : EventType := "configuration.changed".

Section manager.
Context {L W V : Type} `{!Loader L, !Publisher W, !LogLevelSetter V}.
Context `{!URLParser, !NetParser, !MapRange} (render : error → string).
Context `{!JSON, !Marshaler Config, !Marshaler (string * list Change), !Digester}.

Record ConfigManager := mkConfigManager {
  cg_current : Config;
  cg_digest : string;
  cg_loader : option L;
  cg_publisher : option W;
  cg_started : bool;
  cg_levels : option V
}.

Definition NewConfigManager (initial : Config) (loader : option L) (publisher : option W) (levels : option V) :
    ConfigManager :=
  mkConfigManager (Config_Clone initial) (match Config_Digest initial with inl _ => "" | inr d => d end)
    loader publisher false levels.

Definition set_snapshot (c : Config) (digest : string) (m : ConfigManager) : ConfigManager :=
  mkConfigManager c digest (cg_loader m) (cg_publisher m) (cg_started m) (cg_levels m).
Definition set_loader (l : L) (m : ConfigManager) : ConfigManager :=
  mkConfigManager (cg_current m) (cg_digest m) (Some l) (cg_publisher m) (cg_started m) (cg_levels m).
Definition set_publisher (w : W) (m : ConfigManager) : ConfigManager :=
  mkConfigManager (cg_current m) (cg_digest m) (cg_loader m) (Some w) (cg_started m) (cg_levels m).
Definition set_level (level : string) (m : ConfigManager) : ConfigManager :=
  mkConfigManager (cg_current m) (cg_digest m) (cg_loader m) (cg_publisher m) (cg_started m)
    (SetLogLevel level <$> cg_levels m).
Definition set_started (b : bool) (m : ConfigManager) : ConfigManager :=
  mkConfigManager (cg_current m) (cg_digest m) (cg_loader m) (cg_publisher m) b (cg_levels m).

Definition ConfigManager_Start (ctx : Context) (m : ConfigManager) : ConfigManager * option error :=
  (set_started true m, None).
Definition ConfigManager_Stop (ctx : Context) (m : ConfigManager) : ConfigManager * option error :=
  (set_started false m, None).
Definition ConfigManager_Health (now : Time) (m : ConfigManager) : Status :=
  NewStatus "configuration" (if cg_started m then StateHealthy else StateUnhealthy) "" (UTC now).

Definition Current (m : ConfigManager) : Config := Config_Clone (cg_current m).
Definition ConfigManager_Digest (m : ConfigManager) : string := cg_digest m.

Definition Plan (next : Config) (m : ConfigManager) : ReloadPlan * option error :=
  iferr Config_Validate render next as err yield (zero_ReloadPlan, Some err);;
  match Config_Digest next with
  | inl err => (zero_ReloadPlan, Some err)
  | inr digest =>
      let changes := changesBetween (Current m) next in
      let unsafe := filter (fun change => ch_Reloadable change = false) changes in
      let plan := mkReloadPlan digest changes in
      when negb (bool_decide (unsafe = [])) yield (plan, Some (ReloadRejectedError unsafe));;
      (plan, None)
  end.

Definition ErrReloadUnavailable : error := ErrNew "configuration reload is not available".

(** [env] is what [events.New] reads of the clock and the ID generator. *)
Definition Reload (env : FactoryEnv) (ctx : Context) (m : ConfigManager) : option error * ConfigManager :=
  match cg_loader m with
  | None => (Some ErrReloadUnavailable, m)
  | Some loader =>
      let '(loaded, loader) := loader_Load ctx loader in
      let m := set_loader loader m in
      match loaded with
      | inl err => (Some err, m)
      | inr next =>
          let '(plan, err) := Plan next m in
          iferr err as err yield (Some err, m);;
          let changed := negb (bool_decide (rp_Changes plan = [])) in
          when changed && match cg_levels m with None => true | Some _ => false end yield
            (Some (ErrNew "configuration reload rejected: live log-level setter is unavailable"), m);;
          let previous := Current m in
          let previousDigest := ConfigManager_Digest m in
          let '(event, err) := Factory_New (fe_now env) (fe_fresh env) "configuration" ConfigurationChanged
            SeverityInfo (rp_Digest plan, rp_Changes plan) (ctx_CorrelationID ctx) in
          iferr err as err yield (Some (ErrWrap "create configuration reload event" err), m);;
          let m := if changed then set_level (ap_LogLevel (cf_Application next)) m else m in
          let m := set_snapshot (Config_Clone next) (rp_Digest plan) m in
          match cg_publisher m with
          | None => (None, m)
          | Some publisher =>
              let '(err, publisher) := Publish ctx event publisher in
              let m := set_publisher publisher m in
              match err with
              | None => (None, m)
              | Some err =>
                  let m := if changed then set_level (ap_LogLevel (cf_Application previous)) m else m in
                  (Some (ErrWrap "publish configuration reload event" err), set_snapshot previous previousDigest m)
              end
          end
      end
  end.

(** ** Reloading is atomic *)
Lemma unsafe_add_change path reloadable reason equal :
  filter (fun change => ch_Reloadable change = false) (add_change path reloadable reason equal) = []
  ↔ (reloadable = false → equal = true).
Proof. destruct equal, reloadable; unfold add_change, filter; simpl; naive_solver. Qed.

(** The settings a reload must leave as they are. *)
Record fixed_at_startup (current next : Config) : Prop := {
  fx_schema : cf_SchemaVersion next = cf_SchemaVersion current;
  fx_timeouts : ap_StartupTimeout (cf_Application next) = ap_StartupTimeout (cf_Application current)
    ∧ ap_ShutdownTimeout (cf_Application next) = ap_ShutdownTimeout (cf_Application current)
    ∧ ap_ComponentTimeout (cf_Application next) = ap_ComponentTimeout (cf_Application current);
  fx_http : cf_HTTP next = cf_HTTP current;
  fx_mqtt : eq_mqtt (MQTT_Redacted (cf_MQTT current)) (MQTT_Redacted (cf_MQTT next)) = true;
  fx_simulator : cf_SimulatorEnabled next = cf_SimulatorEnabled current;
  fx_adapters : eq_adapters (cf_Adapters current) (cf_Adapters next) = true;
  fx_bench : cf_Bench next = cf_Bench current;
  fx_storage : cf_Storage next = cf_Storage current;
  fx_inventory : eq_inventory (cf_Inventory current) (cf_Inventory next) = true
}.

Lemma changesBetween_safe current next :
  filter (fun change => ch_Reloadable change = false) (changesBetween current next) = [] ↔ fixed_at_startup current next.
Proof.
  unfold changesBetween. rewrite !filter_app, !app_nil, !unsafe_add_change. unfold eq_exact.
  rewrite !bool_decide_eq_true. split.
  - intros (? & _ & ? & ? & ? & ? & ? & ? & ? & ? & ? & ?). split; try split_and!; first [by auto|symmetry; by auto].
  - intros [? (? & ? & ?) ? ? ? ? ? ? ?]. split_and!; auto; done.
Qed.

Lemma changesBetween_level current next :
  changesBetween current next = [] → ap_LogLevel (cf_Application current) = ap_LogLevel (cf_Application next).
Proof.
  unfold changesBetween. rewrite !app_nil. intros (_ & Hl & _). unfold add_change, eq_exact in Hl.
  by case_bool_decide.
Qed.

Lemma copy_slice_idem {A} (f : A → A) s :
  (∀ x, f (f x) = f x) → copy_slice f (copy_slice f s) = copy_slice f s.
Proof.
  intros Hf. unfold copy_slice at 1 3. rewrite elems_copy. destruct (elems s) as [|x l]; [done|]. simpl.
  rewrite Hf, <- list_fmap_compose. do 2 f_equal. apply list_fmap_ext. intros. apply Hf.
Qed.

(** The active snapshot is a copy, so taking a copy of it changes nothing. *)
Lemma Clone_idempotent c : Config_Clone (Config_Clone c) = Config_Clone c.
Proof.
  assert (∀ A (s : option (list A)), copy_slice id (copy_slice id s) = copy_slice id s) as Hid
    by (intros; by apply copy_slice_idem).
  unfold Config_Clone. simpl. rewrite Hid, !copy_slice_idem; [done|..]; intros []; simpl;
    unfold clone_shelly, clone_esp32, clone_device, clone_sensor, clone_equipment, clone_rule; simpl;
    rewrite ?Hid, ?clone_pointer_id; try done; by unfold cloneStringMap; repeat case_match; simplify_eq.
Qed.

Lemma Plan_spec next m plan :
  Plan next m = (plan, None) ↔
  Config_Validate render next = None ∧ Config_Digest next = inr (rp_Digest plan)
  ∧ rp_Changes plan = changesBetween (Current m) next ∧ fixed_at_startup (Current m) next.
Proof.
  unfold Plan. destruct (Config_Validate render next); [naive_solver|].
  destruct (Config_Digest next) as [|digest]; [naive_solver|]. rewrite <- changesBetween_safe.
  destruct plan as [d cs]. case_bool_decide; simpl; naive_solver.
Qed.

(** C22: a reload that fails leaves snapshot and digest as they were and the
    log level either untouched or set back to the old one; a reload that
    succeeds makes exactly the loaded configuration current, which is valid
    and agrees with the old one on everything planning fixes at startup, with
    its digest and, where it changed, its log level. *)
Theorem Reload_atomic env ctx m err m' :
  cg_current m = Config_Clone (cg_current m) → Reload env ctx m = (err, m') →
  match err with
  | Some _ =>
      cg_current m' = cg_current m ∧ cg_digest m' = cg_digest m
      ∧ (cg_levels m' = cg_levels m
         ∨ ∃ level, cg_levels m' =
             SetLogLevel (ap_LogLevel (cf_Application (cg_current m))) <$> (SetLogLevel level <$> cg_levels m))
  | None => ∃ loader loader' next,
      cg_loader m = Some loader ∧ loader_Load ctx loader = (inr next, loader')
      ∧ Config_Validate render next = None ∧ fixed_at_startup (cg_current m) next
      ∧ cg_current m' = Config_Clone next ∧ Config_Digest next = inr (cg_digest m')
      ∧ (ap_LogLevel (cf_Application next) ≠ ap_LogLevel (cf_Application (cg_current m)) →
         ∃ v, cg_levels m = Some v ∧ cg_levels m' = Some (SetLogLevel (ap_LogLevel (cf_Application next)) v))
  end.
Proof.
  intros Hclone. unfold Reload. destruct (cg_loader m) as [loader|] eqn:Hl; [|intros; simplify_eq; auto].
  destruct (loader_Load ctx loader) as [loaded loader'] eqn:Hload.
  destruct loaded as [lerr|next]; [intros; simplify_eq; auto|].
  destruct (Plan next (set_loader loader' m)) as [plan perr] eqn:Hplan.
  destruct perr as [perr|]; [intros; simplify_eq; auto|].
  apply Plan_spec in Hplan as (Hval & Hdig & Hch & Hfix).
  assert (Current (set_loader loader' m) = cg_current m) as Hcur by (unfold Current; simpl; congruence).
  rewrite Hcur in *. unfold Current in *.
  destruct (negb (bool_decide (rp_Changes plan = [])) && _) eqn:Hset; [intros; simplify_eq; auto|].
  destruct (Factory_New _ _ _ _ _ _ _) as [event ferr]. destruct ferr as [ferr|]; [intros; simplify_eq; auto|].
  destruct (negb (bool_decide (rp_Changes plan = []))) eqn:Hchanged; simpl in *.
  - destruct (cg_levels m) as [v|] eqn:Hv; [|done].
    destruct (cg_publisher m) as [w|]; [destruct (Publish ctx event w) as [[werr|] w']|];
      intros; simplify_eq/=; rewrite ?Hv; simpl.
    + split_and!; [congruence|done|right]. by exists (ap_LogLevel (cf_Application next)).
    + exists loader, loader', next. split_and!; try done. by eauto.
    + exists loader, loader', next. split_and!; try done. by eauto.
  - assert (ap_LogLevel (cf_Application next) = ap_LogLevel (cf_Application (cg_current m))) as Hlevel.
    { symmetry. apply changesBetween_level. rewrite <- Hch. by apply negb_false_iff, bool_decide_eq_true in Hchanged. }
    destruct (cg_publisher m) as [w|]; [destruct (Publish ctx event w) as [[werr|] w']|];
      intros; simplify_eq/=; [split_and!; [congruence|done|by left]|..];
      exists loader, loader', next; split_and!; done.
Qed.

(** ** Changes that planning does not see *)
Definition with_unplanned (concurrency : Z) (rules : option (list AlarmRule)) (backups : Backup) (c : Config) : Config :=
  let a := cf_Application c in
  mkConfig (cf_SchemaVersion c)
    (mkApplication (ap_LogLevel a) (ap_StartupTimeout a) (ap_ShutdownTimeout a) (ap_ComponentTimeout a) concurrency)
    (cf_HTTP c) (cf_MQTT c) (cf_SimulatorEnabled c) (cf_Adapters c) (cf_Bench c) (cf_Storage c) (cf_Inventory c)
    rules backups.

Lemma changesBetween_unplanned concurrency rules backups c :
  changesBetween c (with_unplanned concurrency rules backups c) = changesBetween c c.
Proof. done. Qed.

(** A loaded configuration that differs from the current one in its alarm
    rules, backup settings and event concurrency is made current without being
    rejected and without a listed change. *)
Theorem Reload_misses_changes env ctx m loader loader' concurrency rules backups digest :
  let next := with_unplanned concurrency rules backups (Current m) in
  changesBetween (Current m) (Current m) = [] →
  cg_loader m = Some loader → loader_Load ctx loader = (inr next, loader') →
  Config_Validate render next = None → Config_Digest next = inr digest →
  (Factory_New (fe_now env) (fe_fresh env) "configuration" ConfigurationChanged SeverityInfo
     (digest, [] : list Change) (ctx_CorrelationID ctx)).2 = None →
  cg_publisher m = None →
  ∃ m', Reload env ctx m = (None, m') ∧ cf_AlarmRules (Current m') = copy_slice clone_rule rules
    ∧ cf_Backups (Current m') = backups ∧ ap_EventConcurrency (cf_Application (Current m')) = concurrency
    ∧ cg_levels m' = cg_levels m.
Proof.
  intros next Hsame Hl Hload Hval Hdig Hevent Hpub.
  assert (Plan next (set_loader loader' m) = (mkReloadPlan digest [], None)) as Hplan.
  { unfold Plan. rewrite Hval, Hdig. change (Current (set_loader loader' m)) with (Current m).
    subst next. rewrite changesBetween_unplanned, Hsame. done. }
  unfold Reload. rewrite Hl, Hload, Hplan. simpl. destruct (Factory_New _ _ _ _ _ _ _) as [event ferr].
  simpl in Hevent. subst ferr. rewrite Hpub. eexists. split; [done|]. unfold Current. simpl.
  rewrite copy_slice_idem; [done|]. intros []. unfold clone_rule. simpl.
  rewrite copy_slice_idem, !clone_pointer_id; done.
Qed.
End manager.

(** ** The file loader *)
Record FileLoader := mkFileLoader { fl_Path : string }.

Definition FileLoader_Load `{!YAML, !URLParser, !NetParser, !MapRange} (env : Environment)
    (render : error → string) (ctx : Context) (l : FileLoader) : error + Config :=
  iferr ctx_Err ctx as err yield inl err;; Load env render (fl_Path l).

(** Its environment may change between two loads: [env] is a reading each. *)
Lemma FileLoader_validated `{!YAML, !URLParser, !NetParser, !MapRange} env render ctx l c :
  FileLoader_Load env render ctx l = inr c → ctx_Err ctx = None ∧ Config_Validate render c = None.
Proof. unfold FileLoader_Load. destruct (ctx_Err ctx); [done|]. intros. split; [done|by eapply Load_validated]. Qed.
