(* ===== verification/Container.v ===== *)
(** * Composition: [internal/app/container.go]

    What the composition root derives from a validated snapshot: the safety
    profiles of the Shelly equipment, the threshold rules of the alarm
    evaluator, and the registered inventory. [Assembly.v] builds the components
    from them. *)

From Stdlib Require Import ZArith Lia String SpecFloat.
From stdpp Require Import base gmap strings list pretty.
From S2P Require Import Storage Envelope MqttRouter Prelude Domain Health Events State Devices Sensors.
From S2P Require Import EquipmentRegistry Equipment Safety Alarms Evaluator Topics Config.
From S2P Require Import ConfigValidation.

(** ** Safety profiles *)

(** [equipment.Kind(s)]. *)
Definition Kind_of (s : string) : Kind :=
  if bool_decide (s = "outlet") then KindOutlet
  else if bool_decide (s = "heater") then KindHeater
  else if bool_decide (s = "return-pump") then KindReturnPump
  else if bool_decide (s = "circulation-pump") then KindCirculationPump
  else if bool_decide (s = "ato") then KindATO
  else if bool_decide (s = "dosing-pump") then KindDosingPump
  else if bool_decide (s = "light") then KindLight
  else KindOther s.

Definition shelly_capabilities : list Capability :=
  [CapabilitySwitch; CapabilityCommandAcknowledgement; CapabilityReportedState; CapabilityPowerTelemetry].

Definition probe_key (probeID : string) : Key := mkKey EntitySensor probeID PlaneObservation "measurement".

(** A sensor that is not in the map reads as the zero value. *)
Definition sensor_entity (sensors : gmap string SensorConfig) (id : string) : string :=
  match sensors !! id with Some s => sg_EntityID s | None => "" end.

(** The definition of an equipment when it overrides the endpoint's kind. *)
Definition overriding (equipment : gmap string EquipmentConfig) (id : string) : option EquipmentConfig :=
  match equipment !! id with
  | Some d => if bool_decide (qc_Kind d = "") then None else Some d
  | None => None
  end.

Definition shelly_profile (equipment : gmap string EquipmentConfig) (sensors : gmap string SensorConfig)
    (endpoint : ShellyEndpoint) : Profile :=
  let '(kind, hazardous, limits) :=
    match overriding equipment (sh_EquipmentID endpoint) with
    | Some d => (Kind_of (qc_Kind d), qc_Hazardous d, mkLimits (qc_MaximumOn d) (qc_MaximumDaily d) (qc_MinimumOff d))
    | None =>
        if bool_decide (sh_EquipmentKind endpoint = "heater") then (KindHeater, true, mkLimits (sh_MaximumOn endpoint) 0 0)
        else (KindOutlet, false, mkLimits (sh_MaximumOn endpoint) 0 0)
    end in
  let requiredProbeIDs :=
    match equipment !! sh_EquipmentID endpoint with
    | Some d =>
        if bool_decide (elems (qc_RequiredSensorIDs d) = []) then elems (sh_RequiredProbeIDs endpoint)
        else sensor_entity sensors <$> elems (qc_RequiredSensorIDs d)
    | None => elems (sh_RequiredProbeIDs endpoint)
    end in
  mkProfile (sh_EquipmentID endpoint) kind hazardous (sh_SafeOn endpoint) shelly_capabilities limits
    ((fun probeID => mkInputRequirement (probe_key probeID) None) <$> requiredProbeIDs).

Definition equipment_definitions (c : Config) : gmap string EquipmentConfig :=
  by_id qc_EntityID id (elems (iv_Equipment (cf_Inventory c))).
Definition sensor_definitions (c : Config) : gmap string SensorConfig :=
  by_id sg_ID id (elems (iv_Sensors (cf_Inventory c))).

Definition configured_profiles (c : Config) : list Profile :=
  if ad_ShellyEnabled (cf_Adapters c) then
    shelly_profile (equipment_definitions c) (sensor_definitions c) <$> elems (ad_ShellyEndpoints (cf_Adapters c))
  else [].

(** ** Threshold rules *)

(** [events.Severity(s)]. *)
Definition Severity_of (s : string) : Severity :=
  if bool_decide (s = "debug") then SeverityDebug
  else if bool_decide (s = "info") then SeverityInfo
  else if bool_decide (s = "warning") then SeverityWarning
  else if bool_decide (s = "critical") then SeverityCritical
  else SeverityOther s.

Definition zero_Calibration : Calibration := mkCalibration false (F64 0) (F64 0) "" "" zero_Timestamp.

Fixpoint threshold_rules (sensors : gmap string SensorConfig) (rules : list AlarmRule) : error + list ThresholdRule :=
  match rules with
  | [] => inr []
  | configured :: rest =>
      let '(entity, calibration) :=
        match sensors !! ar_SensorID configured with
        | Some s => (sg_EntityID s, sg_Calibration s)
        | None => ("", zero_Calibration)
        end in
      when bool_decide (entity = "") yield
        inl (ErrNew ("alarm " +:+ ar_ID configured +:+ " sensor " +:+ ar_SensorID configured +:+ " has no runtime entity_id"));;
      let '(scale, offset) :=
        if ca_Enabled calibration then (ca_Scale calibration, ca_Offset calibration) else (F64 1, F64 0) in
      match threshold_rules sensors rest with
      | inl err => inl err
      | inr result =>
          inr (mkThresholdRule (ar_ID configured) (ar_Name configured) entity (ar_Condition configured)
                 (ar_Threshold configured) (ar_ThresholdHigh configured) (Severity_of (ar_Severity configured))
                 (ar_Delay configured) (ar_ClearDelay configured) (ar_Latching configured) scale offset :: result)
      end
  end.

Definition configuredThresholdRules (c : Config) : error + list ThresholdRule :=
  threshold_rules (sensor_definitions c) (elems (cf_AlarmRules c)).

(** ** The engine holds the profiles it was built from *)
Lemma add_profiles_holds profiles e0 e :
  add_profiles profiles e0 = inl e →
  (∀ id p, e_profiles e0 !! id = Some p → e_profiles e !! id = Some p)
  ∧ ∀ p, p ∈ profiles → e_profiles e !! p_EquipmentID p = Some p ∧ Profile_Validate p = None.
Proof.
  revert e0. induction profiles as [|p profiles IH]; intros e0; simpl.
  - intros [= ->]. split; [done|]. intros p Hp. by apply elem_of_nil in Hp.
  - destruct (Profile_Validate p) eqn:Hv; [done|]. case_bool_decide as Hd; [done|]. intros He.
    apply IH in He as [Hkeep Hin]. simpl in Hkeep. rewrite Profile_Clone_id in Hkeep.
    split.
    + intros id q Hq. apply Hkeep. rewrite lookup_insert_ne; [done|]. intros <-. by destruct Hd.
    + intros q [->|Hq]%elem_of_cons; [|by apply Hin]. split; [|done]. apply Hkeep. by rewrite lookup_insert_eq.
Qed.

Lemma add_profiles_succeeds profiles e0 :
  Forall (fun p => Profile_Validate p = None) profiles → NoDup (p_EquipmentID <$> profiles) →
  (∀ p, p ∈ profiles → e_profiles e0 !! p_EquipmentID p = None) → ∃ e, add_profiles profiles e0 = inl e.
Proof.
  revert e0. induction profiles as [|p profiles IH]; intros e0 Hv Hnd Hnew; simpl; [by eauto|].
  apply Forall_cons in Hv as [-> Hv]. apply NoDup_cons in Hnd as [Hp Hnd].
  rewrite bool_decide_eq_false_2 by (rewrite Hnew by left; by intros []).
  apply IH; [done..|]. intros q Hq. simpl. rewrite lookup_insert_ne; [apply Hnew; by right|].
  intros Heq. apply Hp. rewrite Heq. by apply list_elem_of_fmap_2.
Qed.

(** A new engine is in normal mode, without overrides and runtime. *)
Lemma NewEngine_initial dependencies profiles e :
  NewEngine dependencies profiles = inl e →
  e_mode e = ModeNormal ∧ e_overrides e = ∅ ∧ e_runtime e = ∅ ∧ e_started e = false.
Proof.
  unfold NewEngine. destruct dependencies; [|done]. simpl. assert (∀ ps e0 e, add_profiles ps e0 = inl e →
    e_mode e = e_mode e0 ∧ e_overrides e = e_overrides e0 ∧ e_runtime e = e_runtime e0 ∧ e_started e = e_started e0) as Hadd.
  { clear. intros ps. induction ps as [|p ps IH]; intros e0 e; simpl; [by intros [= ->]|].
    destruct (Profile_Validate p); [done|]. case_bool_decide; [done|]. intros He. by apply IH in He. }
  apply Hadd.
Qed.

Lemma watchdog_override_profiles now acc id : e_profiles (watchdog_override now acc id).1 = e_profiles acc.1.
Proof. destruct acc. unfold watchdog_override, accountLocked. simpl. by repeat (go_case; simpl). Qed.

Lemma watchdog_limits_profiles now acc id : e_profiles (watchdog_limits now acc id).1 = e_profiles acc.1.
Proof. destruct acc. unfold watchdog_limits, accountLocked. simpl. by repeat (go_case; simpl). Qed.

Lemma CheckWatchdogs_profiles ctx clock os ps e : e_profiles (CheckWatchdogs ctx clock os ps e).1 = e_profiles e.
Proof.
  unfold CheckWatchdogs. destruct (ctx_Err ctx); [done|].
  assert (∀ f (l : list EquipmentID) (acc : Engine * list WatchdogAction), (∀ acc id, e_profiles (f acc id).1 = e_profiles acc.1) →
    e_profiles acc.1 = e_profiles e → e_profiles (foldl f acc l).1 = e_profiles e) as Hfold.
  { intros f l acc Hf Hacc. apply (foldl_invariant (fun acc => e_profiles acc.1 = e_profiles e)); [|done].
    intros a b Ha. by rewrite Hf. }
  pose proof (Hfold _ os (e, []) (watchdog_override_profiles (UTC clock)) eq_refl) as Ho.
  destruct (foldl (watchdog_override _) _ _) as [e1 actions].
  pose proof (Hfold _ ps (e1, actions) (watchdog_limits_profiles (UTC clock)) Ho) as Hl.
  by destruct (foldl (watchdog_limits _) _ _) as [e2 actions2].
Qed.

Lemma engine_step_profiles {R} `{!StateReader R} e e' : engine_step (R := R) e e' → e_profiles e' = e_profiles e.
Proof.
  intros []; try done; [..|apply CheckWatchdogs_profiles];
    unfold SetMode, GrantOverride, RevokeOverride, Evaluate, RecordReported, accountLocked;
    repeat (go_case; simplify_eq/=; try done).
Qed.

(** ** Heaters *)
Lemma overriding_none equipment id : equipment !! id = None → overriding equipment id = None.
Proof. unfold overriding. by intros ->. Qed.

Lemma shelly_capabilities_valid :
  ValidateCapabilities shelly_capabilities = None
  ∧ SupportsAll shelly_capabilities
      [CapabilitySwitch; CapabilityCommandAcknowledgement; CapabilityReportedState] = true.
Proof. by split; vm_compute. Qed.

(** The profile of an endpoint that the inventory does not redefine. *)
Lemma shelly_profile_plain `{!URLParser} equipment sensors e :
  shelly_ok e → equipment !! sh_EquipmentID e = None →
  Profile_Validate (shelly_profile equipment sensors e) = None
  ∧ (sh_EquipmentKind e = "heater" → ∃ p q, p ≠ q ∧ elems (sh_RequiredProbeIDs e) = [p; q]
      ∧ shelly_profile equipment sensors e =
          mkProfile (sh_EquipmentID e) KindHeater true false shelly_capabilities (mkLimits (sh_MaximumOn e) 0 0)
            [mkInputRequirement (probe_key p) None; mkInputRequirement (probe_key q) None]).
Proof.
  intros [(_ & Hid & _) _ _ _ _ Hkind] Hnone. destruct shelly_capabilities_valid as [Hcv Hcs].
  unfold shelly_profile. rewrite overriding_none, Hnone by done.
  destruct Hkind as [(Hk & Hmax & Hp)|(Hk & Hsafe & Hmax & p & q & Hp & Hpq & Hup & Huq)]; rewrite Hk, Hp; simpl.
  - split; [|done]. unfold Profile_Validate. cbn [p_EquipmentID p_Capabilities p_Limits p_Kind p_RequiredInputs p_FailSafeOn p_Hazardous].
    unfold uuid in Hid. rewrite Hid, Hcv, Hcs. simpl. rewrite andb_false_r. destruct (Z.ltb_spec (sh_MaximumOn e) 0); [lia|done].
  - split; [|intros _; exists p, q; by rewrite Hsafe]. unfold Profile_Validate.
    cbn [p_EquipmentID p_Capabilities p_Limits p_Kind p_RequiredInputs p_FailSafeOn p_Hazardous].
    unfold uuid in *. rewrite Hid, Hcv, Hcs, Hsafe. unfold validate_kind. simpl.
    destruct (Z.leb_spec (sh_MaximumOn e) 0); [lia|]. destruct (Z.ltb_spec (sh_MaximumOn e) 0); [lia|]. simpl.
    by rewrite Hup, Huq.
Qed.

Lemma configured_profiles_ids c :
  ad_ShellyEnabled (cf_Adapters c) = true →
  p_EquipmentID <$> configured_profiles c = sh_EquipmentID <$> elems (ad_ShellyEndpoints (cf_Adapters c)).
Proof.
  intros Hen. unfold configured_profiles. rewrite Hen, <- list_fmap_compose. apply list_fmap_ext.
  intros i e _. unfold shelly_profile. simpl. by repeat case_match.
Qed.

Lemma elem_of_configured_profiles c e :
  ad_ShellyEnabled (cf_Adapters c) = true → e ∈ elems (ad_ShellyEndpoints (cf_Adapters c)) →
  shelly_profile (equipment_definitions c) (sensor_definitions c) e ∈ configured_profiles c.
Proof. intros Hen He. unfold configured_profiles. rewrite Hen. by apply list_elem_of_fmap_2. Qed.

Section composition.
Context `{!URLParser, !NetParser, !MapRange} {R : Type} `{!StateReader R}.

(** A snapshot that declares no inventory for its Shelly equipment yields an
    engine. *)
Lemma configured_engine_exists c :
  adapters_ok c →
  (∀ e, e ∈ elems (ad_ShellyEndpoints (cf_Adapters c)) → equipment_definitions c !! sh_EquipmentID e = None) →
  ∃ e, NewEngine true (configured_profiles c) = inl e.
Proof.
  intros [_ _ Hsh _ (_ & Hnd & _) _] Hnone. unfold NewEngine. simpl.
  destruct (ad_ShellyEnabled (cf_Adapters c)) eqn:Hen.
  2: { unfold configured_profiles. rewrite Hen. simpl. by eauto. }
  apply add_profiles_succeeds.
  - unfold configured_profiles. rewrite Hen. apply Forall_fmap, Forall_forall. intros e He. simpl.
    apply shelly_profile_plain; [|by apply Hnone]. by eapply Forall_forall in Hsh.
  - by rewrite configured_profiles_ids.
  - intros p _. simpl. by rewrite lookup_empty.
Qed.

(** In an engine built from a validated configuration, in whatever state its
    operations reach, a heater on a Shelly endpoint that the inventory does
    not redefine is allowed on only while the engine is not in emergency stop,
    the heater is within its positive maximum on time, and two distinct
    configured ESP32 probes both read good. *)
Theorem configured_heater_guarded c e0 e endpoint ctx clock (reader : R) intent d :
  config_ok c → ad_ShellyEnabled (cf_Adapters c) = true →
  endpoint ∈ elems (ad_ShellyEndpoints (cf_Adapters c)) → sh_EquipmentKind endpoint = "heater" →
  equipment_definitions c !! sh_EquipmentID endpoint = None →
  NewEngine true (configured_profiles c) = inl e0 → rtc (engine_step (R := R)) e0 e →
  ctx_Err ctx = None → in_EquipmentID intent = sh_EquipmentID endpoint → in_On intent = true →
  (Evaluate ctx clock reader intent e).2 = (d, None) → d_Allowed d = true →
  ∃ p q, p ≠ q ∧ p ∈ probes_of (elems (ad_ESP32Endpoints (cf_Adapters c)))
    ∧ q ∈ probes_of (elems (ad_ESP32Endpoints (cf_Adapters c)))
    ∧ Forall (fun probe => ∃ v, reader_Get ctx (probe_key probe) reader = (v, None) ∧ sv_Quality v = QualityGood) [p; q]
    ∧ 0 < sh_MaximumOn endpoint
    ∧ let now := intent_time clock intent in
      let rt := account (runtime_of (in_EquipmentID intent) e) now in
      e_mode e ≠ ModeEmergencyStop ∧ (rt_on rt = true → Sub now (rt_onSince rt) < sh_MaximumOn endpoint).
Proof.
  intros Hc Hen Hin Hheater Hnone Hnew Hsteps Hctx Hid Hon Heval Hallowed.
  destruct (co_adapters _ Hc) as [_ _ Hsh _ _ Hheat].
  assert (shelly_ok endpoint) as Hok by (by eapply Forall_forall in Hsh).
  destruct (shelly_profile_plain (equipment_definitions c) (sensor_definitions c) endpoint Hok Hnone) as [_ Hp].
  destruct (Hp Hheater) as (p & q & Hpq & Hprobes & Hprofile).
  assert (0 < sh_MaximumOn endpoint) as Hmax.
  { destruct (so_kind _ Hok) as [(? & _)|(_ & _ & ? & _)]; [congruence|done]. }
  destruct (Hheat endpoint Hin Hheater Hen) as [_ Hknown].
  assert (e_profiles e = e_profiles e0) as Hprofiles.
  { apply (rtc_invariant (engine_step (R := R)) (fun e => e_profiles e = e_profiles e0) e0); [|done..].
    intros a b Hab. by rewrite (engine_step_profiles a b Hab). }
  apply add_profiles_holds in Hnew as [_ Hheld].
  destruct (Hheld _ (elem_of_configured_profiles c endpoint Hen Hin)) as [Hlookup _].
  rewrite Hprofile in Hlookup. simpl in Hlookup. rewrite <- Hprofiles, <- Hid in Hlookup.
  rewrite (Evaluate_decision ctx clock reader intent e _ Hctx Hlookup) in Heval. simpl in Heval. rewrite Hon in Heval.
  destruct (proj1 (decide_on_allowed _ _ _ _ _ _ _ _) (conj Heval Hallowed)) as (_ & [Hmode Hlim _ _ Hinputs] & _).
  exists p, q. split_and!; try done; [by apply Hknown; rewrite Hprobes; set_solver..| |by auto].
  specialize (Hinputs eq_refl). simpl in Hinputs. rewrite !Forall_cons in *. unfold input_satisfied in Hinputs. simpl in Hinputs.
  split_and!; [naive_solver..|done].
Qed.

(** A validated configuration in which the inventory declares the equipment of
    a heater endpoint to be an outlet, not hazardous and without limits,
    yields an engine that allows the heater on whatever its probes read. *)
Theorem inventory_kind_disarms_heater c endpoint definition e ctx clock (reader : R) intent :
  config_ok c → ad_ShellyEnabled (cf_Adapters c) = true →
  endpoint ∈ elems (ad_ShellyEndpoints (cf_Adapters c)) → sh_EquipmentKind endpoint = "heater" →
  equipment_definitions c !! sh_EquipmentID endpoint = Some definition →
  qc_Kind definition = "outlet" → qc_Hazardous definition = false → qc_MaximumOn definition = 0 →
  qc_MaximumDaily definition = 0 → qc_MinimumOff definition = 0 →
  NewEngine true (configured_profiles c) = inl e →
  ctx_Err ctx = None → in_EquipmentID intent = sh_EquipmentID endpoint → in_On intent = true →
  (Evaluate ctx clock reader intent e).2 = (mkDecision true ReasonAllowed false "", None).
Proof.
  intros Hc Hen Hin Hheater Hdef Hkind Hhaz Hmax Hdaily Hoff Hnew Hctx Hid Hon.
  destruct (NewEngine_initial _ _ _ Hnew) as (Hmode & Hover & _).
  apply add_profiles_holds in Hnew as [_ Hheld].
  destruct (Hheld _ (elem_of_configured_profiles c endpoint Hen Hin)) as [Hlookup _].
  set (profile := shelly_profile _ _ endpoint) in Hlookup.
  assert (p_EquipmentID profile = sh_EquipmentID endpoint ∧ p_Hazardous profile = false ∧ p_Limits profile = mkLimits 0 0 0) as (Heq & Hh & Hl).
  { subst profile. unfold shelly_profile, overriding. rewrite Hdef, Hkind. simpl. by rewrite Hhaz, Hmax, Hdaily, Hoff. }
  rewrite Heq, <- Hid in Hlookup. rewrite (Evaluate_decision ctx clock reader intent e _ Hctx Hlookup). simpl. rewrite Hon.
  unfold active_override. rewrite Hover, lookup_empty.
  refine (proj1 (proj2 (decide_on_allowed ctx reader _ _ profile _ _ (mkDecision true ReasonAllowed false "")) _)).
  split; [done|]. split; [|by intros [|]; congruence].
  split; rewrite ?Hl, ?Hmode, ?Hh; simpl; try done; lia.
Qed.
End composition.

(** ** Threshold rules *)
Lemma blank_empty : blank "" = true.
Proof. done. Qed.

Lemma threshold_rules_accepted sensors rules :
  NoDup (sg_ID <$> sensors) → Forall (fun s => sg_EntityID s = "" ∨ uuid (sg_EntityID s)) sensors →
  Forall (rule_ok sensors) rules →
  ∃ result, threshold_rules (by_id sg_ID id sensors) rules = inr result
    ∧ tr_ID <$> result = ar_ID <$> rules ∧ Forall (fun r => threshold_invalid r = false) result.
Proof.
  intros Hnd Hentity Hrules. induction Hrules as [|r rules Hr _ IH]; simpl; [by exists []|].
  destruct Hr as [Hid (s & Hin & Hs & Hne) Hname Hcond _ _ Hsev Hdelay _].
  assert (by_id sg_ID id sensors !! ar_SensorID r = Some s) as -> by (apply by_id_lookup; [done|by exists s]).
  rewrite bool_decide_eq_false_2 by done. destruct IH as (result & -> & Hids & Hall).
  destruct (if ca_Enabled (sg_Calibration s) then _ else _) as [scale offset].
  eexists. split; [done|]. split; [by rewrite !fmap_cons, Hids|]. constructor; [|done].
  unfold threshold_invalid. simpl. eapply Forall_forall in Hentity as Hu; [|done].
  destruct Hu as [?|Hu]; [done|]. unfold uuid in Hu. rewrite Hu. simpl.
  assert (ar_ID r ≠ "") by (intros Hn; by rewrite Hn in Hid).
  assert (ar_Name r ≠ "") by (intros Hn; by rewrite Hn in Hname).
  rewrite !bool_decide_eq_false_2 by done. simpl.
  assert (oneOfCondition (ar_Condition r) = true) as ->.
  { unfold rule_conditions in Hcond. unfold oneOfCondition. go_bool. set_solver. }
  assert ((Rank (Severity_of (ar_Severity r)) =? 0) = false) as ->.
  { rewrite !elem_of_cons, elem_of_nil in Hsev. by destruct Hsev as [->|[->|[->|[]]]]. }
  simpl. unfold Hour, Minute, Second in Hdelay. lia.
Qed.

Lemma add_thresholds_accepts rules m :
  Forall (fun r => threshold_invalid r = false) rules → ∃ m', add_thresholds rules m = inl m'.
Proof. intros Hr. revert m. induction Hr as [|r rules Hr _ IH]; intros m; simpl; [by eauto|]. by rewrite Hr. Qed.

Section rules.
Context `{!SHA256, !Unmarshaler} {B W : Type} `{!EventSubscriber B, !Publisher W, !JSON, !Marshaler Alarm}.
Context `{!URLParser, !NetParser, !MapRange}.

(** The threshold rules derived from a validated configuration are accepted by
    the evaluator, one per configured rule in order. *)
Theorem configured_rules_accepted c (bus : B) (engine : @AlarmManager W) :
  config_ok c →
  ∃ rules e, configuredThresholdRules c = inr rules ∧ tr_ID <$> rules = ar_ID <$> elems (cf_AlarmRules c)
    ∧ NewEvaluator (Some bus) (Some engine) rules = inl e.
Proof.
  intros Hc. destruct (co_inventory _ Hc) as [_ Hs _ Hu]. destruct (co_rules _ Hc) as [Hr _].
  apply NoDup_app in Hu as (Hnd & _).
  destruct (threshold_rules_accepted (elems (iv_Sensors (cf_Inventory c))) (elems (cf_AlarmRules c)) Hnd) as (rules & Hrules & Hids & Hall).
  { eapply Forall_impl; [exact Hs|]. by intros s []. }
  { done. }
  destruct (add_thresholds_accepts rules ∅ Hall) as [m Hm].
  exists rules. eexists. split; [done|]. split; [done|]. unfold NewEvaluator. by rewrite Hm.
Qed.
End rules.

(** ** The registered inventory *)
Section inventory.
Context `{!JSON, !Marshaler Device, !Marshaler Sensor, !Marshaler Equipment, !Marshaler (gmap string string)}.
Context {W : Type} `{!Publisher W}.
(** What the event factory and the ID generators return at each call. *)
Context (factory : nat → FactoryEnv) (fresh : nat → string * option error).

Record Registries := mkRegistries {
  rg_devices : Registry;
  rg_sensors : SensorRegistry;
  rg_equipment : EquipmentRegistry;
  rg_publisher : option W;
  rg_calls : nat
}.

Definition name_or (name fallback : string) : string := if bool_decide (name = "") then fallback else name.

Definition register_device (ctx : Context) (d : Device) (t : Registries) : option error * Registries :=
  let '(devices, publisher, (_, err)) :=
    Register (factory (rg_calls t)) ctx (fresh (rg_calls t)) d (rg_devices t) (rg_publisher t) in
  (err, mkRegistries devices (rg_sensors t) (rg_equipment t) publisher (S (rg_calls t))).

Definition register_endpoint (ctx : Context) (e : Endpoint) (t : Registries) : option error * Registries :=
  let '(devices, (_, err)) := RegisterEndpoint ctx (fresh (rg_calls t)) e (rg_devices t) in
  (err, mkRegistries devices (rg_sensors t) (rg_equipment t) (rg_publisher t) (S (rg_calls t))).

Definition register_sensor (ctx : Context) (s : Sensor) (t : Registries) : option error * Registries :=
  let '(sensors, publisher, (_, err)) :=
    SensorRegistry_Register (factory (rg_calls t)) ctx (fresh (rg_calls t)) (Some (rg_devices t)) s (rg_sensors t)
      (rg_publisher t) in
  (err, mkRegistries (rg_devices t) sensors (rg_equipment t) publisher (S (rg_calls t))).

Definition register_equipment (ctx : Context) (q : Equipment) (t : Registries) : option error * Registries :=
  let '(equipment, publisher, (_, err)) :=
    EquipmentRegistry_Register (factory (rg_calls t)) ctx (fresh (rg_calls t)) (Some (rg_devices t)) q
      (rg_equipment t) (rg_publisher t) in
  (err, mkRegistries (rg_devices t) (rg_sensors t) equipment publisher (S (rg_calls t))).

(** One turn of the loop over the Shelly endpoints. *)
Definition register_shelly (ctx : Context) (devices : gmap string DeviceConfig)
    (equipment : gmap string EquipmentConfig) (configured : ShellyEndpoint) (t : Registries) :
    option error * Registries :=
  let base : gmap string string :=
    {["adapter" := "shelly"; "equipmentKind" := sh_EquipmentKind configured]} in
  let '(deviceName, deviceMetadata) :=
    match devices !! sh_ID configured with
    | Some definition =>
        (name_or (dc_Name definition) ("Shelly " +:+ sh_EquipmentKind configured),
         default ∅ (dc_Metadata definition) ∪ base)
    | None => ("Shelly " +:+ sh_EquipmentKind configured, base)
    end in
  let '(err, t) := register_device ctx
    (mkDevice (sh_ID configured) deviceName shelly_capabilities (Some deviceMetadata)) t in
  iferr err as err yield (Some err, t);;
  let '(err, t) := register_endpoint ctx
    (mkEndpoint (sh_ID configured) (sh_ID configured) "Shelly channel" shelly_capabilities) t in
  iferr err as err yield (Some err, t);;
  let equipmentName :=
    match equipment !! sh_EquipmentID configured with
    | Some definition => name_or (qc_Name definition) (sh_EquipmentKind configured)
    | None => sh_EquipmentKind configured
    end in
  register_equipment ctx
    (mkEquipment (sh_EquipmentID configured) (sh_ID configured) (sh_ID configured) equipmentName
       shelly_capabilities (Some {["adapter" := "shelly"]})) t.

(** The loop over the probes of a node; [index] counts from zero. *)
Fixpoint register_probes (ctx : Context) (sensors : gmap string SensorConfig) (configured : ESP32Endpoint)
    (index : Z) (probes : list string) (t : Registries) : option error * Registries :=
  match probes with
  | [] => (None, t)
  | probeID :: rest =>
      let fallback := "Temperature probe " +:+ pretty (index + 1) in
      let sensorName :=
        match sensors !! probeID with
        | Some definition => name_or (sg_Name definition) fallback
        | None => fallback
        end in
      let '(err, t) := register_sensor ctx
        (mkSensor probeID (ec_DeviceID configured) (ec_ID configured) sensorName QuantityTemperature UnitCelsius
           [CapabilityObserve] (Some {["adapter" := "esp32"]})) t in
      iferr err as err yield (Some err, t);;
      register_probes ctx sensors configured (index + 1) rest t
  end.

(** One turn of the loop over the ESP32 endpoints. *)
Definition register_esp32 (ctx : Context) (devices : gmap string DeviceConfig)
    (sensors : gmap string SensorConfig) (configured : ESP32Endpoint) (t : Registries) : option error * Registries :=
  let deviceName :=
    match devices !! ec_DeviceID configured with
    | Some definition => name_or (dc_Name definition) "ESP32 sensor node"
    | None => "ESP32 sensor node"
    end in
  let '(err, t) := register_device ctx
    (mkDevice (ec_DeviceID configured) deviceName [CapabilityObserve] (Some {["adapter" := "esp32"]})) t in
  iferr err as err yield (Some err, t);;
  let '(err, t) := register_endpoint ctx
    (mkEndpoint (ec_ID configured) (ec_DeviceID configured) "ESP32 dual-probe endpoint" [CapabilityObserve]) t in
  iferr err as err yield (Some err, t);;
  register_probes ctx sensors configured 0 (elems (ec_ProbeIDs configured)) t.

Fixpoint register_each {A} (turn : A → Registries → option error * Registries) (l : list A) (t : Registries) :
    option error * Registries :=
  match l with
  | [] => (None, t)
  | x :: rest =>
      let '(err, t) := turn x t in
      iferr err as err yield (Some err, t);; register_each turn rest t
  end.

Definition registerAdapterInventory (ctx : Context) (c : Config) (t : Registries) : option error * Registries :=
  let devices := by_id dc_EntityID id (elems (iv_Devices (cf_Inventory c))) in
  let sensors := by_id sg_EntityID id (elems (iv_Sensors (cf_Inventory c))) in
  let '(err, t) := register_each (register_shelly ctx devices (equipment_definitions c))
    (elems (ad_ShellyEndpoints (cf_Adapters c))) t in
  iferr err as err yield (Some err, t);;
  register_each (register_esp32 ctx devices sensors) (elems (ad_ESP32Endpoints (cf_Adapters c))) t.

(** *** Registration of a validated snapshot *)
Context (ctx : Context) (ctx_ok : ctx_Err ctx = None).
(** While nobody is subscribed the events of the registrations are published
    without an error, and publishing one keeps the publisher so. *)
Context (quiet : option W → Prop).
Definition published (r : option error * option W) : Prop := r.1 = None ∧ quiet r.2.
Context (emits_device : ∀ n (d : Device) p, quiet p → published (Devices.emit (factory n) ctx DeviceRegistered d p)).
Context (emits_sensor : ∀ n (s : Sensor) p, quiet p → published (emit_sensor (factory n) ctx SensorRegistered s p)).
Context (emits_equipment : ∀ n (q : Equipment) p,
  quiet p → published (emit_equipment (factory n) ctx EquipmentRegistered q p)).

Definition holds (k : role * string) (t : Registries) : Prop :=
  match k.1 with
  | RNode => is_Some (r_devices (rg_devices t) !! k.2)
  | REndpoint => is_Some (r_endpoints (rg_devices t) !! k.2)
  | RProbe => is_Some (sr_sensors (rg_sensors t) !! k.2)
  | REquip => is_Some (er_equipment (rg_equipment t) !! k.2)
  end.

(** A registration succeeds and adds one key. *)
Definition adds (k : role * string) (t : Registries) (r : option error * Registries) : Prop :=
  r.1 = None ∧ quiet (rg_publisher r.2) ∧ ∀ k', holds k' r.2 ↔ k' = k ∨ holds k' t.

Lemma uuid_nonempty s : uuid s → s ≠ "".
Proof. by intros Hs ->. Qed.

Lemma register_device_adds d t :
  uuid (dev_ID d) → dev_Name d ≠ "" → ValidateCapabilities (dev_Capabilities d) = None → quiet (rg_publisher t) →
  ¬ holds (RNode, dev_ID d) t →
  adds (RNode, dev_ID d) t (register_device ctx d t)
  ∧ r_devices (rg_devices (register_device ctx d t).2) !! dev_ID d = Some d
  ∧ r_endpoints (rg_devices (register_device ctx d t).2) = r_endpoints (rg_devices t).
Proof.
  intros Hid Hname Hcap Hpub Hnew. destruct d as [id name caps meta]. simpl in *. pose proof (uuid_nonempty id Hid).
  unfold register_device, Register. rewrite ctx_ok. simpl. rewrite bool_decide_eq_false_2 by done.
  unfold validateDevice, set_dev_ID. simpl. unfold uuid in Hid.
  rewrite Hid, bool_decide_eq_false_2, Hcap, cloneDevice_id by done. simpl. unfold holds in Hnew. simpl in Hnew.
  rewrite bool_decide_eq_false_2 by done.
  destruct (emits_device (rg_calls t) (mkDevice id name caps meta) (rg_publisher t) Hpub) as [He Hpub'].
  destruct (emit _ _ _ _ _) as [err p]. simpl in *. split_and!; [|by rewrite lookup_insert_eq|done].
  split_and!; [done..|]. intros [[] k]; unfold holds; simpl; rewrite ?lookup_insert_is_Some'; naive_solver.
Qed.

Lemma register_endpoint_adds e d t :
  uuid (ep_ID e) → ep_Name e ≠ "" → ValidateCapabilities (ep_Capabilities e) = None →
  r_devices (rg_devices t) !! ep_DeviceID e = Some d → SupportsAll (dev_Capabilities d) (ep_Capabilities e) = true →
  quiet (rg_publisher t) → ¬ holds (REndpoint, ep_ID e) t →
  adds (REndpoint, ep_ID e) t (register_endpoint ctx e t)
  ∧ r_endpoints (rg_devices (register_endpoint ctx e t).2) !! ep_ID e = Some e.
Proof.
  intros Hid Hname Hcap Hdev Hsup Hpub Hnew. destruct e as [id dev name caps]. simpl in *.
  pose proof (uuid_nonempty id Hid).
  unfold register_endpoint, RegisterEndpoint. rewrite ctx_ok. simpl. rewrite bool_decide_eq_false_2 by done.
  unfold set_ep_ID, cloneEndpoint. simpl. unfold uuid in Hid.
  rewrite Hid, bool_decide_eq_false_2, Hcap, Hdev by done. unfold holds in Hnew. simpl in *.
  rewrite bool_decide_eq_false_2, Hsup by done. simpl. split; [|by rewrite lookup_insert_eq].
  split_and!; [done..|]. intros [[] k]; unfold holds; simpl; rewrite ?lookup_insert_is_Some'; naive_solver.
Qed.

Lemma register_sensor_adds id device endpoint name meta e t :
  uuid id → name ≠ "" → r_endpoints (rg_devices t) !! endpoint = Some e → ep_DeviceID e = device →
  ep_Capabilities e = [CapabilityObserve] → quiet (rg_publisher t) → ¬ holds (RProbe, id) t →
  let s := mkSensor id device endpoint name QuantityTemperature UnitCelsius [CapabilityObserve] meta in
  adds (RProbe, id) t (register_sensor ctx s t) ∧ rg_devices (register_sensor ctx s t).2 = rg_devices t.
Proof.
  intros Hid Hname He Hdev Hcap Hpub Hnew s. pose proof (uuid_nonempty id Hid). subst s device.
  unfold register_sensor, SensorRegistry_Register. rewrite ctx_ok. simpl. rewrite bool_decide_eq_false_2 by done.
  unfold set_sen_ID, validate_sensor. simpl. unfold EndpointOf. unfold uuid in Hid.
  rewrite Hid, bool_decide_eq_false_2, ctx_ok, He, cloneEndpoint_id, Hcap, cloneSensor_id by done.
  rewrite (bool_decide_eq_true_2 (ep_DeviceID e = ep_DeviceID e)) by done. simpl. unfold holds in Hnew. simpl in Hnew.
  rewrite bool_decide_eq_false_2 by done.
  destruct (emits_sensor (rg_calls t) (mkSensor id (ep_DeviceID e) endpoint name QuantityTemperature UnitCelsius
    [CapabilityObserve] meta) (rg_publisher t) Hpub) as [Herr Hpub'].
  destruct (emit_sensor _ _ _ _ _) as [err p]. simpl in *. split; [|done]. split_and!; [done..|].
  intros [[] k]; unfold holds; simpl; rewrite ?lookup_insert_is_Some'; naive_solver.
Qed.

Lemma register_equipment_adds id device endpoint name meta e t :
  uuid id → name ≠ "" → r_endpoints (rg_devices t) !! endpoint = Some e → ep_DeviceID e = device →
  ep_Capabilities e = shelly_capabilities → quiet (rg_publisher t) → ¬ holds (REquip, id) t →
  adds (REquip, id) t (register_equipment ctx (mkEquipment id device endpoint name shelly_capabilities meta) t).
Proof.
  intros Hid Hname He Hdev Hcap Hpub Hnew. pose proof (uuid_nonempty id Hid). subst device.
  unfold register_equipment, EquipmentRegistry_Register. rewrite ctx_ok. simpl. rewrite bool_decide_eq_false_2 by done.
  unfold set_eq_ID, validate_equipment. simpl. unfold EndpointOf. unfold uuid in Hid.
  rewrite Hid, bool_decide_eq_false_2, ctx_ok, He, cloneEndpoint_id, Hcap, cloneEquipment_id by done.
  rewrite (bool_decide_eq_true_2 (ep_DeviceID e = ep_DeviceID e)) by done. simpl. unfold holds in Hnew. simpl in Hnew.
  rewrite bool_decide_eq_false_2 by done.
  destruct (emits_equipment (rg_calls t) (mkEquipment id (ep_DeviceID e) endpoint name shelly_capabilities meta)
    (rg_publisher t) Hpub) as [Herr Hpub'].
  destruct (emit_equipment _ _ _ _ _) as [err p]. simpl in *. split_and!; [done..|].
  intros [[] k]; unfold holds; simpl; rewrite ?lookup_insert_is_Some'; naive_solver.
Qed.

Definition adds_all (ks : list (role * string)) (t : Registries) (r : option error * Registries) : Prop :=
  r.1 = None ∧ quiet (rg_publisher r.2) ∧ ∀ k, holds k r.2 ↔ k ∈ ks ∨ holds k t.

Lemma name_or_nonempty name fallback : fallback ≠ "" → name_or name fallback ≠ "".
Proof. unfold name_or. by case_bool_decide. Qed.

Definition shelly_identities (e : ShellyEndpoint) : list (role * string) :=
  [(RNode, sh_ID e); (REndpoint, sh_ID e); (REquip, sh_EquipmentID e)].
Definition esp32_identities (e : ESP32Endpoint) : list (role * string) :=
  [(RNode, ec_DeviceID e); (REndpoint, ec_ID e)] ++ (pair RProbe <$> elems (ec_ProbeIDs e)).

Lemma register_shelly_adds `{!URLParser} devices equipment e t :
  shelly_ok e → quiet (rg_publisher t) → (∀ k, k ∈ shelly_identities e → ¬ holds k t) →
  adds_all (shelly_identities e) t (register_shelly ctx devices equipment e t).
Proof.
  intros [(Hid & Hq & _) _ _ _ _ Hkind] Hpub Hnew. destruct shelly_capabilities_valid as [Hcv _].
  assert (sh_EquipmentKind e ≠ "") as Hk by (by destruct Hkind as [(-> & _)|(-> & _)]).
  unfold register_shelly. destruct (match devices !! sh_ID e with Some _ => _ | None => _ end) as [name meta] eqn:Hm.
  assert (name ≠ "") as Hname.
  { destruct (devices !! sh_ID e); simplify_eq; [apply name_or_nonempty|]; by rewrite string_app_cons. }
  destruct (register_device_adds (mkDevice (sh_ID e) name shelly_capabilities (Some meta)) t) as ((Herr & Hpub1 & Hadd) & Hdev & Hep);
    [done..|apply Hnew; by left|]. simpl in *.
  destruct (register_device ctx _ t) as [err1 t1]. simpl in *. subst err1.
  destruct (register_endpoint_adds (mkEndpoint (sh_ID e) (sh_ID e) "Shelly channel" shelly_capabilities)
    (mkDevice (sh_ID e) name shelly_capabilities (Some meta)) t1) as ((Herr2 & Hpub2 & Hadd2) & Hep2); [done..| |].
  { rewrite Hadd. intros [?|Hh]; [done|]. revert Hh. apply Hnew. right. by left. }
  destruct (register_endpoint ctx _ t1) as [err2 t2]. simpl in *. subst err2.
  match goal with |- context [register_equipment ctx ?q t2] => set (item := q) end.
  destruct (register_equipment_adds (sh_EquipmentID e) (sh_ID e) (sh_ID e) (eq_Name item) (eq_Metadata item)
    (mkEndpoint (sh_ID e) (sh_ID e) "Shelly channel" shelly_capabilities) t2) as (Herr3 & Hpub3 & Hadd3); try done.
  { simpl. destruct (equipment !! sh_EquipmentID e); [by apply name_or_nonempty|done]. }
  { rewrite Hadd2, Hadd. intros [?|[?|Hh]]; [done..|]. revert Hh. apply Hnew. right. right. by left. }
  split_and!; [done..|]. intros k. subst item. simpl in *. rewrite Hadd3, Hadd2, Hadd.
  unfold shelly_identities. rewrite !elem_of_cons, elem_of_nil. tauto.
Qed.

Lemma register_probes_adds sensors e endpoint index probes t :
  Forall uuid probes → NoDup probes → r_endpoints (rg_devices t) !! ec_ID e = Some endpoint →
  ep_DeviceID endpoint = ec_DeviceID e → ep_Capabilities endpoint = [CapabilityObserve] → quiet (rg_publisher t) →
  (∀ p, p ∈ probes → ¬ holds (RProbe, p) t) →
  adds_all (pair RProbe <$> probes) t (register_probes ctx sensors e index probes t).
Proof.
  intros Hu Hnd. revert index t. induction probes as [|p probes IH]; intros index t Hep Hdev Hcap Hpub Hnew; simpl.
  { split_and!; [done..|]. set_solver. }
  apply Forall_cons in Hu as [Hp Hu]. apply NoDup_cons in Hnd as [Hnp Hnd].
  match goal with |- context [register_sensor ctx ?s t] => set (item := s) end.
  destruct (register_sensor_adds p (ec_DeviceID e) (ec_ID e) (sen_Name item) (sen_Metadata item) endpoint t)
    as ((Herr & Hpub1 & Hadd) & Hsame); try done.
  { simpl. destruct (sensors !! p); [apply name_or_nonempty|]; by rewrite string_app_cons. }
  { apply Hnew. left. }
  subst item. simpl in *. destruct (register_sensor ctx _ t) as [err t1].
  simpl in *. subst err. destruct (IH Hu Hnd (index + 1) t1) as (Herr2 & Hpub2 & Hadd2); try done; [by rewrite Hsame| |].
  { intros q Hq. rewrite Hadd. intros [?|Hh]; [by simplify_eq|]. revert Hh. apply Hnew. by right. }
  split_and!; [done..|]. intros k. rewrite Hadd2, Hadd, elem_of_cons. tauto.
Qed.

Lemma register_esp32_adds `{!URLParser} devices sensors e t :
  esp32_ok e → NoDup (elems (ec_ProbeIDs e)) → quiet (rg_publisher t) → (∀ k, k ∈ esp32_identities e → ¬ holds k t) →
  adds_all (esp32_identities e) t (register_esp32 ctx devices sensors e t).
Proof.
  intros [(Hid & Hd & _) _ [_ Hp] _ _ _] Hnd Hpub Hnew. unfold register_esp32.
  match goal with |- context [register_device ctx ?d t] => set (device := d) end.
  destruct (register_device_adds device t) as ((Herr & Hpub1 & Hadd) & Hdev & Hep); try done.
  { simpl. destruct (devices !! ec_DeviceID e); [by apply name_or_nonempty|done]. }
  { apply Hnew. by left. }
  destruct (register_device ctx device t) as [err1 t1]. simpl in *. subst err1.
  set (endpoint := mkEndpoint _ _ _ _).
  destruct (register_endpoint_adds endpoint device t1) as ((Herr2 & Hpub2 & Hadd2) & Hep2); try done.
  { simpl. rewrite Hadd. intros [?|Hh]; [done|]. revert Hh. apply Hnew. right. by left. }
  destruct (register_endpoint ctx endpoint t1) as [err2 t2]. simpl in *. subst err2.
  destruct (register_probes_adds sensors e endpoint 0 (elems (ec_ProbeIDs e)) t2) as (Herr3 & Hpub3 & Hadd3); try done.
  { intros p Hin. rewrite Hadd2, Hadd. intros [?|[?|Hh]]; [done..|]. revert Hh. apply Hnew.
    unfold esp32_identities. right. right. by apply elem_of_tagged. }
  split_and!; [done..|]. intros k. rewrite Hadd3, Hadd2, Hadd. unfold esp32_identities. simpl. rewrite !elem_of_cons. tauto.
Qed.

Lemma register_each_adds {A} (turn : A → Registries → option error * Registries) (keys : A → list (role * string)) l t :
  (∀ x t, x ∈ l → quiet (rg_publisher t) → (∀ k, k ∈ keys x → ¬ holds k t) → adds_all (keys x) t (turn x t)) →
  NoDup (l ≫= keys) → quiet (rg_publisher t) → (∀ k, k ∈ l ≫= keys → ¬ holds k t) → adds_all (l ≫= keys) t (register_each turn l t).
Proof.
  revert t. induction l as [|x l IH]; intros t Hturn Hnd Hpub Hnew; simpl.
  { split_and!; [done..|]. set_solver. }
  rewrite bind_cons in *. apply NoDup_app in Hnd as (_ & Hdis & Hnd). setoid_rewrite elem_of_app in Hnew.
  destruct (Hturn x t) as (Herr & Hpub1 & Hadd); [by left|done|by auto|]. destruct (turn x t) as [err t1]. simpl in *. subst err.
  destruct (IH t1) as (Herr2 & Hpub2 & Hadd2); [by intros; apply Hturn; [right|..]|done..| |].
  { intros k Hk. rewrite Hadd. intros [?|Hh]; [by apply (Hdis k)|]. apply (Hnew k); auto. }
  split_and!; [done..|]. intros k. rewrite Hadd2, Hadd, elem_of_app. tauto.
Qed.

Lemma with_role_shelly_identities r l :
  with_role r (l ≫= shelly_identities) =
  match r with REndpoint | RNode => sh_ID <$> l | REquip => sh_EquipmentID <$> l | RProbe => [] end.
Proof. induction l as [|x l IH]; [by destruct r|]. rewrite bind_cons, with_role_app, IH. by destruct r. Qed.

Lemma with_role_esp32_identities r l :
  with_role r (l ≫= esp32_identities) =
  match r with REndpoint => ec_ID <$> l | REquip => [] | RNode => ec_DeviceID <$> l | RProbe => probes_of l end.
Proof.
  induction l as [|x l IH]; [by destruct r|].
  rewrite bind_cons, with_role_app, IH. unfold esp32_identities. rewrite with_role_app, with_role_tagged. by destruct r.
Qed.

Definition empty_registries (publisher : option W) : Registries :=
  mkRegistries NewRegistry NewSensorRegistry NewEquipmentRegistry publisher 0.

(** Registering the adapters of a validated configuration, in which no Shelly
    endpoint has the identity of an ESP32 device, succeeds and leaves in the
    registries exactly the configured devices, probes and equipment. *)
Theorem validated_inventory_registers `{!URLParser} c publisher :
  adapters_ok c → quiet publisher →
  NoDup ((sh_ID <$> elems (ad_ShellyEndpoints (cf_Adapters c)))
         ++ (ec_DeviceID <$> elems (ad_ESP32Endpoints (cf_Adapters c)))) →
  let '(err, t) := registerAdapterInventory ctx c (empty_registries publisher) in
  err = None
  ∧ (∀ id, is_Some (r_devices (rg_devices t) !! id)
       ↔ id ∈ (sh_ID <$> elems (ad_ShellyEndpoints (cf_Adapters c)))
              ++ (ec_DeviceID <$> elems (ad_ESP32Endpoints (cf_Adapters c))))
  ∧ (∀ id, is_Some (sr_sensors (rg_sensors t) !! id) ↔ id ∈ probes_of (elems (ad_ESP32Endpoints (cf_Adapters c))))
  ∧ ∀ id, is_Some (er_equipment (rg_equipment t) !! id)
       ↔ id ∈ sh_EquipmentID <$> elems (ad_ShellyEndpoints (cf_Adapters c)).
Proof.
  intros [_ _ Hsh Hesp (Hids & Hq & Hn & Hp) _] Hpub Hdev.
  set (S := elems (ad_ShellyEndpoints (cf_Adapters c))) in *. set (E := elems (ad_ESP32Endpoints (cf_Adapters c))) in *.
  assert (NoDup ((S ≫= shelly_identities) ++ (E ≫= esp32_identities))) as Hnd.
  { apply NoDup_by_role. intros r. rewrite with_role_app, with_role_shelly_identities, with_role_esp32_identities.
    destruct r; by rewrite ?app_nil_r. }
  apply NoDup_app in Hnd as (Hnd1 & Hdis & Hnd2).
  assert (∀ k, ¬ holds k (empty_registries publisher)) as Hempty.
  { intros [[] k]; unfold holds; simpl; rewrite lookup_empty; by intros []. }
  unfold registerAdapterInventory. fold S E. set (devices := by_id dc_EntityID id _). set (sensors := by_id sg_EntityID id _).
  destruct (register_each_adds (register_shelly ctx devices (equipment_definitions c)) shelly_identities S
    (empty_registries publisher)) as (Herr & Hpub1 & Hadd); [|done..|by intros; apply Hempty|].
  { intros e t He Ht Hnew. apply register_shelly_adds; [|done..]. by eapply Forall_forall in Hsh. }
  destruct (register_each _ S _) as [err t1]. simpl in *. subst err.
  destruct (register_each_adds (register_esp32 ctx devices sensors) esp32_identities E t1) as (Herr2 & _ & Hadd2); [|done..| |].
  { intros e t He Ht Hnew. apply register_esp32_adds; [by eapply Forall_forall in Hesp| |done..].
    apply list_elem_of_split in He as (l1 & l2 & HE). unfold probes_of in Hp. rewrite HE, bind_app, bind_cons in Hp.
    apply NoDup_app in Hp as (_ & _ & Hp). by apply NoDup_app in Hp as (Hp & _). }
  { intros k Hk. rewrite Hadd. intros [Hin|Hh]; [by apply (Hdis k)|by apply (Hempty k)]. }
  destruct (register_each _ E t1) as [err t2]. simpl in *. split; [done|].
  assert (∀ r id, holds (r, id) t2 ↔ id ∈ with_role r (S ≫= shelly_identities) ++ with_role r (E ≫= esp32_identities)) as Hall.
  { intros r id. rewrite Hadd2, Hadd, elem_of_app, !elem_of_with_role. pose proof (Hempty (r, id)). tauto. }
  split_and!; intros id; [specialize (Hall RNode id)|specialize (Hall RProbe id)|specialize (Hall REquip id)];
    unfold holds in Hall; simpl in Hall; rewrite Hall, with_role_shelly_identities, with_role_esp32_identities;
    by rewrite ?app_nil_r.
Qed.
End inventory.

(** ** The optional integrations *)
Definition storage_config (c : Config) : StorageConfig :=
  let i := cf_Storage c in
  mkStorageConfig (ix_QueueCapacity i) (ix_BatchSize i) (ix_FlushInterval i) (ix_RetryMinimum i) (ix_RetryMaximum i)
    (ix_WriteTimeout i).

(** What a validated snapshot configures can be constructed: the constructors
    repeat no check that validation leaves out. *)
Theorem validated_integrations_construct `{!URLParser, !NetParser, !MapRange} {K Q : Type}
    `{!StorageClient K, !MQTTClient Q} c (client : K) (transport : Q) :
  config_ok c →
  (∃ w, Storage.New (storage_config c) (Some client) true = inl w)
  ∧ (mq_Enabled (cf_MQTT c) = true →
     ∃ r codec consumer exporter,
       NewTopicRegistry (mq_SiteID (cf_MQTT c)) = inl r
       ∧ NewCodec (mq_SiteID (cf_MQTT c)) (mq_MaximumPayload (cf_MQTT c)) true = inl codec
       ∧ NewConsumer (Some codec) (mq_IdempotencyCapacity (cf_MQTT c)) = inl consumer
       ∧ NewEventExporter (mq_SiteID (cf_MQTT c)) (mq_MaximumPayload (cf_MQTT c)) (Some transport) true = inl exporter).
Proof.
  intros Hc. destruct (co_storage _ Hc) as [Hcap Ht _]. split.
  - unfold Storage.New, storage_config. simpl.
    assert (∀ b : bool, b = false → ∀ A (x y : A), (if b then x else y) = y) as Hif by (by intros ? ->).
    rewrite !Hif; [by eauto|lia..].
  - intros Hen. destruct (co_mqtt _ Hc Hen) as [Hsite _ _ _ (Hpay & _ & Hid) _].
    assert (topicSegmentPattern (mq_SiteID (cf_MQTT c)) = true) as Hseg by exact Hsite.
    unfold NewEventExporter, NewTopicRegistry, NewCodec, NewConsumer. rewrite Hseg. simpl.
    assert (∀ b : bool, b = false → ∀ A (x y : A), (if b then x else y) = y) as Hif by (by intros ? ->).
    rewrite (Hif ((mq_MaximumPayload _ <? 256) || _)) by lia.
    do 4 eexists. split_and!; [done..| |done]. rewrite Hif by lia. done.
Qed.
