(* ===== verification/Http.v ===== *)
(** * HTTP exchanges of the adapters' clients

    What [adapters/esp32/client.go] and [adapters/shelly/client.go] use of
    [net/http], [io] and [net/url]: requests and responses as data, the
    transport as a class. A request context is its parent with a timeout; a
    transport answers an error when either ends first. *)

From Stdlib Require Import ZArith Lia String.
From stdpp Require Import base gmap strings list pretty.
From S2P Require Import Prelude Config.

Record Request := mkRequest {
  rq_Method : string; rq_URL : string; rq_Header : list (string * string); rq_Body : string
}.

(** [rs_ReadError] is what reading answers after the bytes of the body, [None]
    for [io.EOF]. *)
Record Response := mkResponse { rs_StatusCode : Z; rs_Body : string; rs_ReadError : option error }.

Class HTTPTransport (T : Type) := {
  http_RequestError : string → option error;
  http_Do : Context → Duration → Request → T → (error + Response) * T
}.

(** The text of a parsed URL after its path has been replaced. *)
Class URLWriter := { url_WithPath : string → string → string }.

(** [json.Unmarshal] into a fresh value. *)
Class JSONDecoder (A : Type) := { json_Decode : string → error + A }.

(** [io.ReadAll(io.LimitReader(body, limit))]. *)
Definition ReadLimited (limit : nat) (r : Response) : error + string :=
  let payload := String.substring 0 limit (rs_Body r) in
  match rs_ReadError r with
  | Some err => if Nat.ltb (String.length payload) limit then inl err else inr payload
  | None => inr payload
  end.

Definition status_ok (r : Response) : bool := negb ((rs_StatusCode r <? 200) || (300 <=? rs_StatusCode r)).

Lemma length_substring n s : String.length (String.substring 0 n s) = Nat.min n (String.length s).
Proof. revert n. induction s as [|c s IH]; intros [|n]; simpl; [done..|]. by rewrite IH. Qed.

Lemma substring_short n s : (String.length s ≤ n)%nat → String.substring 0 n s = s.
Proof. revert n. induction s as [|c s IH]; intros [|n]; simpl; intros; try done; [lia|]. rewrite IH; [done|lia]. Qed.

(** A payload shorter than the limit is the whole body, read without error. *)
Lemma ReadLimited_whole limit r payload :
  ReadLimited limit r = inr payload → (String.length payload < limit)%nat →
  payload = rs_Body r ∧ rs_ReadError r = None.
Proof.
  unfold ReadLimited. rewrite length_substring.
  destruct (rs_ReadError r); [destruct (Nat.ltb_spec (Nat.min limit (String.length (rs_Body r))) limit); [done|]|];
    intros [= <-]; rewrite length_substring; intros; [lia|]. split; [|done]. apply substring_short. lia.
Qed.
