(* ===== verification/Esp32.v ===== *)
(** * The ESP32 sensor adapter: [internal/adapters/esp32]

    The HTTP client, the validation of snapshots and the polling of one node.
    The sinks are classes over the state [S] of what is behind them; they do
    not call back into the adapter. Each poll reads the clock once. *)

From Stdlib Require Import ZArith Lia String SpecFloat.
From stdpp Require Import base gmap strings list pretty sorting.
From S2P Require Import Prelude Domain Health Config Http.

(** ** Data *)
Record Endpoint := mkEndpoint {
  en_ID : EndpointID; en_DeviceID : DeviceID; en_BaseURL : string; en_BearerToken : string;
  en_ProbeIDs : SensorID * SensorID; en_PollInterval : Duration; en_RequestTimeout : Duration;
  en_FreshFor : Duration; en_MaximumClockSkew : Duration; en_MaximumDifference : float64
}.

Record ProbeDTO := mkProbeDTO {
  pd_SensorID : string; pd_Celsius : option float64; pd_Valid : bool; pd_ErrorCode : string
}.

Record SnapshotDTO := mkSnapshotDTO {
  sd_SchemaVersion : string; sd_NodeID : string; sd_Firmware : string; sd_BootID : string;
  sd_Sequence : Z; sd_ObservedAt : Time; sd_Probes : list ProbeDTO
}.

Record sequenceState := mkSequenceState { sq_bootID : string; sq_sequence : Z }.

(** ** Boundaries *)
Class Client (C : Type) :=
  { client_Snapshot : Context → Duration → string → string → C → (error + SnapshotDTO) * C }.
Class MeasurementSink (S : Type) :=
  { ReportESP32 : Context → EndpointID → Measurement → S → option error * S }.
Class FailureSink (S : Type) :=
  { ESP32Failure : Context → Endpoint → bool → string → Time → S → option error * S }.

(** ** The HTTP client *)
Definition maximumSnapshotBytes : Z := 64 * 1024.

Section client.
Context `{!URLParser, !URLWriter}.

Definition snapshotURL (baseURL : string) : error + string :=
  match url_Parse baseURL with
  | None => inl (ErrNew "esp32 base URL must be an http or https URL with a host and no credentials")
  | Some parsed =>
      when negb (bool_decide (url_Scheme parsed = "http")) && negb (bool_decide (url_Scheme parsed = "https"))
           || bool_decide (url_Host parsed = "") || url_User parsed yield
        inl (ErrNew "esp32 base URL must be an http or https URL with a host and no credentials");;
      when negb (bool_decide (url_RawQuery parsed = "")) || negb (bool_decide (url_Fragment parsed = "")) yield
        inl (ErrNew "esp32 base URL must not contain a query or fragment");;
      inr (url_WithPath baseURL "/aquaos/v1/snapshot")
  end.

Context {T : Type} `{!HTTPTransport T, !JSONDecoder SnapshotDTO}.

Record HTTPClient := mkHTTPClient { hc_client : T }.

Definition NewHTTPClient (client : option T) : HTTPClient + error :=
  match client with
  | None => inr (ErrNew "esp32 HTTP client is required")
  | Some client => inl (mkHTTPClient client)
  end.

Definition snapshot_request (endpoint bearerToken : string) : Request :=
  mkRequest "GET" endpoint
    (("Accept", "application/json")
       :: if bool_decide (bearerToken = "") then [] else [("Authorization", "Bearer " +:+ bearerToken)]) "".

Definition HTTPClient_Snapshot (ctx : Context) (timeout : Duration) (baseURL bearerToken : string)
    (c : HTTPClient) : (error + SnapshotDTO) * HTTPClient :=
  match snapshotURL baseURL with
  | inl err => (inl err, c)
  | inr endpoint =>
      iferr http_RequestError endpoint as err yield (inl (ErrWrap "create ESP32 snapshot request" err), c);;
      let '(response, t) := http_Do ctx timeout (snapshot_request endpoint bearerToken) (hc_client c) in
      let c := mkHTTPClient t in
      match response with
      | inl err => (inl (ErrWrap "fetch ESP32 snapshot" err), c)
      | inr response =>
          match ReadLimited (Z.to_nat (maximumSnapshotBytes + 1)) response with
          | inl err => (inl (ErrWrap "read ESP32 snapshot" err), c)
          | inr payload =>
              when maximumSnapshotBytes <? Z.of_nat (String.length payload) yield
                (inl (ErrNew "esp32 snapshot exceeds size limit"), c);;
              when negb (status_ok response) yield
                (inl (ErrNew ("esp32 snapshot returned HTTP status " +:+ pretty (rs_StatusCode response))), c);;
              match json_Decode payload with
              | inl err => (inl (ErrWrap "decode ESP32 snapshot" err), c)
              | inr snapshot => (inr snapshot, c)
              end
          end
      end
  end.

#[export] Instance HTTPClient_Client : Client HTTPClient := { client_Snapshot := HTTPClient_Snapshot }.

(** A snapshot the client answers was decoded from a whole body of at most 64
    KiB that came with a success status for the node's own URL. *)
Lemma HTTPClient_Snapshot_spec ctx timeout baseURL token c dto c' :
  HTTPClient_Snapshot ctx timeout baseURL token c = (inr dto, c') →
  ∃ url response, snapshotURL baseURL = inr url
    ∧ http_Do ctx timeout (snapshot_request url token) (hc_client c) = (inr response, hc_client c')
    ∧ 200 ≤ rs_StatusCode response < 300 ∧ rs_ReadError response = None
    ∧ Z.of_nat (String.length (rs_Body response)) ≤ maximumSnapshotBytes
    ∧ json_Decode (rs_Body response) = inr dto.
Proof.
  unfold HTTPClient_Snapshot. destruct (snapshotURL baseURL) as [|url]; [done|].
  destruct (http_RequestError url); [done|].
  destruct (http_Do ctx timeout _ (hc_client c)) as [[err|response] t] eqn:Hdo; [done|].
  destruct (ReadLimited _ response) as [|payload] eqn:Hread; [done|].
  destruct (Z.ltb_spec maximumSnapshotBytes (Z.of_nat (String.length payload))) as [|Hlen]; [done|].
  apply ReadLimited_whole in Hread as [-> Herr]; [|unfold maximumSnapshotBytes in *; lia].
  unfold status_ok. destruct (negb (negb _)) eqn:Hstatus; [done|].
  destruct (json_Decode (rs_Body response)) eqn:Hd; [done|]. intros [= <- <-].
  exists url, response. split_and!; try done; go_bool; lia.
Qed.
End client.

(** ** The adapter *)
Record Adapter := mkAdapter {
  aa_endpoints : list Endpoint;
  aa_sequences : gmap string sequenceState;
  aa_started : bool;
  aa_workers : list Endpoint;
  aa_errors : gmap string string
}.

Definition set_sequences (m : gmap string sequenceState) (a : Adapter) : Adapter :=
  mkAdapter (aa_endpoints a) m (aa_started a) (aa_workers a) (aa_errors a).
Definition set_errors (m : gmap string string) (a : Adapter) : Adapter :=
  mkAdapter (aa_endpoints a) (aa_sequences a) (aa_started a) (aa_workers a) m.

Section adapter.
Context `{!URLParser, !URLWriter}.

Definition validateEndpoint (e : Endpoint) : option error :=
  iferr validateUUID (en_ID e) as err yield Some (ErrWrap "esp32 endpoint ID" err);;
  iferr validateUUID (en_DeviceID e) as err yield Some (ErrWrap "esp32 device ID" err);;
  when bool_decide ((en_ProbeIDs e).1 = (en_ProbeIDs e).2) yield
    Some (ErrNew "esp32 probes must have independent sensor IDs");;
  iferr first_error (fun _ id => iferr validateUUID id as err yield Some (ErrWrap "esp32 probe ID" err);; None)
          0 [(en_ProbeIDs e).1; (en_ProbeIDs e).2]
    as err yield Some err;;
  match snapshotURL (en_BaseURL e) with
  | inl err => Some err
  | inr _ =>
      when (en_PollInterval e <=? 0) || (en_RequestTimeout e <=? 0) || (en_PollInterval e <? en_RequestTimeout e) yield
        Some (ErrNew "esp32 request timeout must be positive and no greater than poll interval");;
      when (en_FreshFor e <? en_PollInterval e) || (en_MaximumClockSkew e <? 0) || (Minute <? en_MaximumClockSkew e) yield
        Some (ErrNew "esp32 freshness or clock-skew configuration is invalid");;
      when F64_le (en_MaximumDifference e) (F64 0) || F64_lt (F64 10) (en_MaximumDifference e) yield
        Some (ErrNew "esp32 maximum probe difference must be greater than zero and at most 10 celsius");;
      None
  end.

(** One turn of the loop of [NewAdapter]. *)
Definition add_endpoint (_ : Z) (e : Endpoint) (seen : gset string) : error + gset string :=
  iferr validateEndpoint e as err yield inl err;;
  when bool_decide (en_ID e ∈ seen) yield inl (ErrNew ("duplicate ESP32 endpoint " +:+ en_ID e));;
  inr ({[en_ID e]} ∪ seen).

(** [dependencies] says that every dependency is non-nil. *)
Definition NewAdapter (dependencies : bool) (endpoints : list Endpoint) : Adapter + error :=
  when negb dependencies yield inr (ErrNew "all ESP32 adapter dependencies are required");;
  match range_loop add_endpoint 0 endpoints ∅ with
  | inl err => inr err
  | inr _ => inl (mkAdapter endpoints ∅ false [] ∅)
  end.

(** One poller per endpoint; [Stop] cancels and joins them. [after] is what the
    context says once they are joined. *)
Definition Adapter_Start (ctx : Context) (a : Adapter) : Adapter * option error :=
  when aa_started a yield (a, None);;
  (mkAdapter (aa_endpoints a) (aa_sequences a) true (aa_endpoints a) (aa_errors a), None).

Definition Adapter_Stop (ctx : Context) (after : option error) (a : Adapter) : Adapter * option error :=
  iferr ctx_Err ctx as err yield (a, Some err);;
  (mkAdapter (aa_endpoints a) (aa_sequences a) false [] (aa_errors a), after).

Definition Adapter_Health (now : Time) (a : Adapter) : Status :=
  let failureCount := Z.of_nat (size (aa_errors a)) in
  let state := if negb (aa_started a) then StateUnhealthy
               else if 0 <? failureCount then StateDegraded else StateHealthy in
  let message := if 0 <? failureCount then pretty failureCount +:+ " ESP32 endpoint(s) unhealthy" else "" in
  NewStatus "adapter-esp32" state message (UTC now).

Definition setError (endpointID : EndpointID) (message : string) (a : Adapter) : Adapter :=
  set_errors (if bool_decide (message = "") then delete endpointID (aa_errors a)
              else <[endpointID := message]> (aa_errors a)) a.
End adapter.

(** ** Snapshots *)
Definition valueOrZero (value : option float64) : float64 :=
  match value with None => F64 0 | Some v => v end.

Fixpoint probes_by_id (probes : list ProbeDTO) (byID : gmap string ProbeDTO) : error + gmap string ProbeDTO :=
  match probes with
  | [] => inr byID
  | probe :: rest =>
      let id := pd_SensorID probe in
      iferr validateUUID id as _err yield inl (ErrNew "esp32 probe identity is invalid");;
      when bool_decide (is_Some (byID !! id)) yield inl (ErrNew "esp32 probe identity is duplicated");;
      probes_by_id rest (<[id := probe]> byID)
  end.

(** [values[index], valid[index]] after the loop over the configured probes. *)
Definition probe_reading (byID : gmap string ProbeDTO) (id : SensorID) : option float64 :=
  match byID !! id with
  | None => None
  | Some probe =>
      when negb (pd_Valid probe) || negb (bool_decide (is_Some (pd_Celsius probe)))
           || IsNaN (valueOrZero (pd_Celsius probe)) || IsInf (valueOrZero (pd_Celsius probe)) yield None;;
      pd_Celsius probe
  end.

Definition disagree (e : Endpoint) (first second : option float64) : bool :=
  match first, second with
  | Some v0, Some v1 => F64_lt (en_MaximumDifference e) (SFabs (F64_sub v0 v1))
  | _, _ => false
  end.

(** The quality and the condition the loops and the two tests after them leave. *)
Definition snapshot_quality (e : Endpoint) (observedAt now : Time) (first second : option float64) :
    Quality * string :=
  let condition :=
    match first, second with Some _, Some _ => "" | _, _ => "esp32.probe_invalid" end in
  let '(quality, condition) :=
    if disagree e first second then (QualitySuspect, "esp32.probe_disagreement") else (QualityGood, condition) in
  if negb (After (Add observedAt (en_FreshFor e)) now) then (QualityStale, "esp32.snapshot_stale")
  else (quality, condition).

Definition probe_measurement (e : Endpoint) (observedAt now : Time) (quality : Quality) (id : SensorID)
    (reading : option float64) : error + Measurement :=
  let probeQuality := match reading with Some _ => quality | None => QualityInvalid end in
  let '(quantity, err) := NewQuantity QuantityTemperature (valueOrZero reading) UnitCelsius in
  iferr err as err yield inl err;;
  inr (mkMeasurement id quantity probeQuality (UTC observedAt) now (en_FreshFor e)).

(** The second half: measurements, then the sequence check under the lock. *)
Definition accept_sequence (e : Endpoint) (snapshot : SnapshotDTO) (a : Adapter) : bool :=
  let previous := default (mkSequenceState "" 0) (aa_sequences a !! en_ID e) in
  negb (bool_decide (sq_bootID previous = sd_BootID snapshot) && (sd_Sequence snapshot <=? sq_sequence previous)).

Definition validateSnapshot (e : Endpoint) (snapshot : SnapshotDTO) (now : Time) (a : Adapter) :
    (list Measurement * string * option error) * Adapter :=
  when negb (bool_decide (sd_SchemaVersion snapshot = "1.0")) yield
    (([], "esp32.schema_unsupported", Some (ErrNew "unsupported ESP32 snapshot schema")), a);;
  when negb (bool_decide (sd_NodeID snapshot = en_DeviceID e)) || bool_decide (sd_BootID snapshot = "")
       || (128 <? Z.of_nat (String.length (sd_BootID snapshot))) || (sd_Sequence snapshot =? 0) yield
    (([], "esp32.identity_invalid", Some (ErrNew "invalid ESP32 node identity, boot ID, or sequence")), a);;
  when IsZero (sd_ObservedAt snapshot) || After (sd_ObservedAt snapshot) (Add now (en_MaximumClockSkew e)) yield
    (([], "esp32.timestamp_invalid", Some (ErrNew "invalid ESP32 observation timestamp")), a);;
  when negb (length (sd_Probes snapshot) =? 2)%nat yield
    (([], "esp32.probe_count_invalid", Some (ErrNew "esp32 snapshot must contain exactly two probes")), a);;
  match probes_by_id (sd_Probes snapshot) ∅ with
  | inl err => (([], "esp32.probe_identity_invalid", Some err), a)
  | inr byID =>
      let '(id0, id1) := en_ProbeIDs e in
      let first := probe_reading byID id0 in
      let second := probe_reading byID id1 in
      let '(quality, condition) := snapshot_quality e (sd_ObservedAt snapshot) now first second in
      match probe_measurement e (sd_ObservedAt snapshot) now quality id0 first with
      | inl err => (([], "esp32.temperature_invalid", Some err), a)
      | inr m0 =>
          match probe_measurement e (sd_ObservedAt snapshot) now quality id1 second with
          | inl err => (([], "esp32.temperature_invalid", Some err), a)
          | inr m1 =>
              when negb (accept_sequence e snapshot a) yield
                (([], "esp32.sequence_stale", Some (ErrNew "duplicate or out-of-order ESP32 snapshot")), a);;
              (([m0; m1], condition, None),
               set_sequences (<[en_ID e := mkSequenceState (sd_BootID snapshot) (sd_Sequence snapshot)]> (aa_sequences a)) a)
          end
      end
  end.

(** ** Polling *)
Section poll.
Context {C S : Type} `{!Client C, !MeasurementSink S, !FailureSink S}.
(** The text of an error, [err.Error()]. *)
Context (render : error → string).

Definition fail (ctx : Context) (e : Endpoint) (code : string) (err : error) (now : Time) (a : Adapter) (s : S) :
    Adapter * S :=
  let a := setError (en_ID e) (code +:+ ": " +:+ render err) a in
  let '(_, s) := ESP32Failure ctx e true code now s in
  (a, s).

(** The loop over the measurements: a rejection is only logged. *)
Fixpoint report_all (ctx : Context) (id : EndpointID) (measurements : list Measurement) (s : S) : S :=
  match measurements with
  | [] => s
  | m :: rest => let '(_, s) := ReportESP32 ctx id m s in report_all ctx id rest s
  end.

Definition poll (ctx : Context) (clock : Time) (e : Endpoint) (a : Adapter) (c : C) (s : S) : Adapter * C * S :=
  let '(snapshot, c) := client_Snapshot ctx (en_RequestTimeout e) (en_BaseURL e) (en_BearerToken e) c in
  let now := UTC clock in
  match snapshot with
  | inl err => let '(a, s) := fail ctx e "esp32.unreachable" err now a s in (a, c, s)
  | inr snapshot =>
      let '(measurements, condition, err, a) := validateSnapshot e snapshot now a in
      match err with
      | Some err => let '(a, s) := fail ctx e condition err now a s in (a, c, s)
      | None =>
          let a := setError (en_ID e) "" a in
          let '(_, s) := ESP32Failure ctx e (negb (bool_decide (condition = ""))) condition now s in
          (a, c, report_all ctx (en_ID e) measurements s)
      end
  end.
End poll.

(** ** What an accepted snapshot is *)
Lemma first_error_pair {A} (f : A → option error) x y :
  first_error (fun _ => f) 0 [x; y] = None ↔ f x = None ∧ f y = None.
Proof. simpl. destruct (f x), (f y); naive_solver. Qed.

Lemma probe_reading_finite byID id v :
  probe_reading byID id = Some v → IsNaN v = false ∧ IsInf v = false.
Proof.
  unfold probe_reading. destruct (byID !! id) as [p|]; [|done].
  destruct (negb (pd_Valid p)), (pd_Celsius p) as [x|]; simpl; try done.
  destruct (IsNaN x) eqn:?, (IsInf x) eqn:?; try done. by intros [= <-].
Qed.

(** The temperatures that reach the registry of quantities are finite, so the
    constructor accepts them. *)
Lemma probe_measurement_total e observedAt now q id reading :
  (∀ v, reading = Some v → IsNaN v = false ∧ IsInf v = false) →
  probe_measurement e observedAt now q id reading =
    inr (mkMeasurement id (mkQuantity QuantityTemperature (valueOrZero reading) UnitCelsius)
      (match reading with Some _ => q | None => QualityInvalid end) observedAt now (en_FreshFor e)).
Proof.
  intros Hf. unfold probe_measurement, NewQuantity, Quantity_Validate. simpl.
  assert (IsNaN (valueOrZero reading) = false ∧ IsInf (valueOrZero reading) = false) as [-> ->].
  { destruct reading as [v|]; simpl; [by apply Hf|done]. }
  done.
Qed.

Definition readings (e : Endpoint) (snapshot : SnapshotDTO) : option (option float64 * option float64) :=
  match probes_by_id (sd_Probes snapshot) ∅ with
  | inl _ => None
  | inr byID => Some (probe_reading byID (en_ProbeIDs e).1, probe_reading byID (en_ProbeIDs e).2)
  end.

(** What the node must answer, apart from the sequence. *)
Record snapshot_ok (e : Endpoint) (snapshot : SnapshotDTO) (now : Time) : Prop := {
  sk_schema : sd_SchemaVersion snapshot = "1.0";
  sk_node : sd_NodeID snapshot = en_DeviceID e;
  sk_boot : sd_BootID snapshot ≠ "" ∧ Z.of_nat (String.length (sd_BootID snapshot)) ≤ 128;
  sk_sequence : sd_Sequence snapshot ≠ 0;
  sk_time : sd_ObservedAt snapshot ≠ 0 ∧ sd_ObservedAt snapshot ≤ now + en_MaximumClockSkew e;
  sk_probes : length (sd_Probes snapshot) = 2%nat ∧ is_Some (readings e snapshot)
}.

Definition measured (e : Endpoint) (observedAt now : Time) (q : Quality) (id : SensorID) (reading : option float64) :
    Measurement :=
  mkMeasurement id (mkQuantity QuantityTemperature (valueOrZero reading) UnitCelsius)
    (match reading with Some _ => q | None => QualityInvalid end) observedAt now (en_FreshFor e).

(** A refusal with its condition code. *)
Ltac refused := do 2 eexists; split; [|reflexivity]; done.

Lemma validateSnapshot_cases e snapshot now a :
  (∃ r0 r1, snapshot_ok e snapshot now ∧ accept_sequence e snapshot a = true ∧ readings e snapshot = Some (r0, r1)
     ∧ let '(q, condition) := snapshot_quality e (sd_ObservedAt snapshot) now r0 r1 in
       validateSnapshot e snapshot now a =
         (([measured e (sd_ObservedAt snapshot) now q (en_ProbeIDs e).1 r0;
            measured e (sd_ObservedAt snapshot) now q (en_ProbeIDs e).2 r1], condition, None),
          set_sequences (<[en_ID e := mkSequenceState (sd_BootID snapshot) (sd_Sequence snapshot)]> (aa_sequences a)) a))
  ∨ ¬ (snapshot_ok e snapshot now ∧ accept_sequence e snapshot a = true)
    ∧ ∃ condition err, condition ≠ "" ∧ validateSnapshot e snapshot now a = (([], condition, Some err), a).
Proof.
  unfold validateSnapshot. destruct (en_ProbeIDs e) as [id0 id1] eqn:Hids.
  case_bool_decide as Hs; simpl; [|right; split; [by intros [[] _]|refused]].
  destruct (_ || (_ =? 0)) eqn:Hi; simpl.
  { right. split; [|refused]. intros [[_ ? [? ?] ? _ _] _]. go_bool. intuition (try congruence; lia). }
  destruct (IsZero _ || _) eqn:Ht; simpl.
  { right. split; [|refused]. intros [[_ _ _ _ [? ?] _] _]. go_bool. lia. }
  destruct (Nat.eqb_spec (length (sd_Probes snapshot)) 2) as [Hl|Hl]; simpl.
  2: { right. split; [|refused]. by intros [[_ _ _ _ _ [? _]] _]. }
  destruct (probes_by_id (sd_Probes snapshot) ∅) as [perr|byID] eqn:Hp.
  { right. split; [|refused]. intros [[_ _ _ _ _ [_ [r Hr]]] _]. unfold readings in Hr. by rewrite Hp in Hr. }
  assert (readings e snapshot = Some (probe_reading byID id0, probe_reading byID id1)) as Hr
    by (unfold readings; by rewrite Hp, Hids).
  assert (snapshot_ok e snapshot now) as Hok.
  { go_bool. destruct Hi as [[[? ?] ?] ?]. split; rewrite ?Hr; try done; try lia. }
  destruct (snapshot_quality _ _ _ _ _) as [q condition] eqn:Hq.
  rewrite !probe_measurement_total by (intros v; apply probe_reading_finite).
  destruct (accept_sequence e snapshot a) eqn:Ha; simpl.
  - left. do 2 eexists. split_and!; [done..|]. by rewrite Hq.
  - right. split; [by intros [_ ?]|refused].
Qed.

(** ** Sequences *)

(** The snapshots of one endpoint that are accepted in a run of validations
    for any endpoints, in order. *)
Fixpoint accepted (id : EndpointID) (run : list (Endpoint * SnapshotDTO * Time)) (a : Adapter) : list SnapshotDTO :=
  match run with
  | [] => []
  | (e, snapshot, now) :: rest =>
      let '(_, err, a') := validateSnapshot e snapshot now a in
      match err with
      | None => if bool_decide (en_ID e = id) then snapshot :: accepted id rest a' else accepted id rest a'
      | Some _ => accepted id rest a'
      end
  end.

Definition newer (x y : SnapshotDTO) : Prop := sd_BootID x ≠ sd_BootID y ∨ sd_Sequence x < sd_Sequence y.

Lemma accepted_newer id run a x :
  aa_sequences a !! id = Some (mkSequenceState (sd_BootID x) (sd_Sequence x)) →
  Sorted newer (x :: accepted id run a).
Proof.
  revert a x. induction run as [|[[e snapshot] now] run IH]; intros a x Hx; simpl; [by repeat constructor|].
  destruct (validateSnapshot_cases e snapshot now a) as [(r0 & r1 & _ & Ha & _ & Hv)|(_ & c & err & _ & ->)]; [|by apply IH].
  destruct (snapshot_quality _ _ _ _ _) as [q condition]. rewrite Hv.
  case_bool_decide as Hid; subst; [|apply IH; simpl; by rewrite lookup_insert_ne].
  constructor; [apply IH; simpl; by rewrite lookup_insert_eq|]. constructor.
  unfold accept_sequence in Ha. rewrite Hx in Ha. simpl in Ha. go_bool. unfold newer.
  destruct Ha as [?|?]; [by left|by right].
Qed.

(** Of the snapshots that an adapter accepts for one endpoint, over any run of
    validations for any endpoints from a new adapter on, each follows its
    predecessor with another boot ID or a greater sequence number. *)
Theorem accepted_sequences_increase id run a :
  aa_sequences a = ∅ → Sorted newer (accepted id run a).
Proof.
  intros Ha. assert (aa_sequences a !! id = None) as Hnone by (by rewrite Ha, lookup_empty). clear Ha.
  revert a Hnone. induction run as [|[[e snapshot] now] run IH]; intros a Hnone; simpl; [constructor|].
  destruct (validateSnapshot_cases e snapshot now a) as [(r0 & r1 & _ & _ & _ & Hv)|(_ & c & err & _ & ->)]; [|by apply IH].
  destruct (snapshot_quality _ _ _ _ _) as [q condition]. rewrite Hv.
  case_bool_decide as Hid; subst; [|apply IH; simpl; by rewrite lookup_insert_ne].
  apply accepted_newer. simpl. by rewrite lookup_insert_eq.
Qed.

(** ** A difference that is not a number *)
Definition with_difference (d : float64) (e : Endpoint) : Endpoint :=
  mkEndpoint (en_ID e) (en_DeviceID e) (en_BaseURL e) (en_BearerToken e) (en_ProbeIDs e) (en_PollInterval e)
    (en_RequestTimeout e) (en_FreshFor e) (en_MaximumClockSkew e) d.

(** An endpoint whose maximum probe difference is not a number is as valid as
    before, and no two readings of it are ever found to disagree. *)
Theorem nan_difference_disables_agreement `{!URLParser, !URLWriter} e :
  validateEndpoint e = None →
  validateEndpoint (with_difference S754_nan e) = None
  ∧ ∀ v0 v1, disagree (with_difference S754_nan e) (Some v0) (Some v1) = false.
Proof.
  intros Hv. split; [|done]. unfold validateEndpoint in *. simpl in *.
  repeat go_case; simplify_eq/=; try done.
Qed.
