(* ===== verification/Shelly.v ===== *)
(** * The Shelly switch adapter: [internal/adapters/shelly]

    The RPC client, dispatch with bounded retries and the reconciliation poll.
    What the adapter reports may come back to it: the coordinator answers a
    failure with a command, which the command service dispatches through this
    same adapter. So the adapter is a part of the world [Wd] its collaborators
    act on, and [poll] reads it again where the source does. *)

From Stdlib Require Import ZArith Lia String SpecFloat.
From stdpp Require Import base gmap strings list pretty.
From S2P Require Import Prelude Domain Health Events Output Config Http.

(** ** Data *)
Inductive PowerReturnPolicy := PowerReturnOff | PowerReturnRestore | PowerReturnOther (s : string).

#[export] Instance PowerReturnPolicy_eq_dec : EqDecision PowerReturnPolicy.
Proof. solve_decision. Defined.

Record Endpoint := mkEndpoint {
  se_ID : EndpointID; se_EquipmentID : EquipmentID; se_BaseURL : string; se_Channel : Z;
  se_PollInterval : Duration; se_RequestTimeout : Duration; se_Retries : Z; se_SafeOn : bool;
  se_PowerReturnPolicy : PowerReturnPolicy
}.

Record Report := mkReport {
  rp_EndpointID : EndpointID; rp_EquipmentID : EquipmentID; rp_On : bool; rp_APower : float64;
  rp_Voltage : float64; rp_Current : float64; rp_Source : string; rp_ObservedAt : Time;
  rp_DesiredOn : option bool; rp_Pending : bool; rp_Errors : list string
}.

Record pendingCommand := mkPending { pc_id : CommandID; pc_want : bool; pc_expiresAt : Time }.

Record SwitchStatus := mkSwitchStatus {
  ss_ID : Z; ss_Source : string; ss_Output : bool; ss_APower : float64; ss_Voltage : float64;
  ss_Current : float64; ss_Errors : list string; ss_Uptime : Z
}.
Record SetResult := mkSetResult { sr_WasOn : bool }.
Record SwitchConfig := mkSwitchConfig { sc_ID : Z; sc_InitialState : string }.

(** ** Boundaries *)
Class Client (C : Type) := {
  GetSwitchStatus : Context → Duration → string → Z → C → (error + SwitchStatus) * C;
  GetSwitchConfig : Context → Duration → string → Z → C → (error + SwitchConfig) * C;
  SetSwitch : Context → Duration → string → Z → bool → C → (error + SetResult) * C
}.

(** The clock of the world, and what a context answers as time passes. *)
Class Clock (C : Type) := { clock_Now : C → Time * C; context_Err : Context → C → option error }.

Class ReportedSink (Wd : Type) := { ReportShelly : Context → Report → Wd → option error * Wd }.
Class CommandTracker (Wd : Type) := {
  tracker_Reconcile : Context → CommandID → bool → Time → Wd → (Result * option error) * Wd;
  tracker_ExpireAcknowledged : Context → CommandID → string → Time → Wd → (Result * option error) * Wd
}.
Class FailureSink (Wd : Type) :=
  { ShellyFailure : Context → Endpoint → bool → string → Time → Wd → option error * Wd }.

(** ** The HTTP client *)
Definition maximumResponseBytes : Z := 64 * 1024.

Section client.
Context `{!URLParser, !URLWriter}.

Definition rpcURL (baseURL method : string) : error + string :=
  match url_Parse baseURL with
  | None => inl (ErrNew "shelly base URL must be an unauthenticated http URL with a host")
  | Some parsed =>
      when negb (bool_decide (url_Scheme parsed = "http")) || bool_decide (url_Host parsed = "") || url_User parsed yield
        inl (ErrNew "shelly base URL must be an unauthenticated http URL with a host");;
      when negb (bool_decide (url_RawQuery parsed = "")) || negb (bool_decide (url_Fragment parsed = "")) yield
        inl (ErrNew "shelly base URL must not contain a query or fragment");;
      inr (url_WithPath baseURL ("/rpc/" +:+ method))
  end.

(** The parameters of the calls: a channel, or a channel and a state. *)
Record ChannelParams := mkChannelParams { cp_ID : Z }.
Record SetParams := mkSetParams { sp_ID : Z; sp_On : bool }.

Context {T : Type} `{!HTTPTransport T, !JSON, !Marshaler ChannelParams, !Marshaler SetParams}.
Context `{!JSONDecoder SwitchStatus, !JSONDecoder SwitchConfig, !JSONDecoder SetResult}.

Record HTTPClient := mkHTTPClient { hc_client : T }.

Definition NewHTTPClient (client : option T) : HTTPClient + error :=
  match client with
  | None => inr (ErrNew "shelly HTTP client is required")
  | Some client => inl (mkHTTPClient client)
  end.

Definition call {Q A} `{!Marshaler Q, !JSONDecoder A} (ctx : Context) (timeout : Duration) (baseURL method : string)
    (params : Q) (c : HTTPClient) : (error + A) * HTTPClient :=
  match rpcURL baseURL method with
  | inl err => (inl err, c)
  | inr endpoint =>
      match json_Marshal params with
      | inl err => (inl (ErrWrap "encode Shelly RPC request" err), c)
      | inr body =>
          iferr http_RequestError endpoint as err yield (inl (ErrWrap "create Shelly RPC request" err), c);;
          let '(response, t) := http_Do ctx timeout
            (mkRequest "POST" endpoint [("Content-Type", "application/json")] body) (hc_client c) in
          let c := mkHTTPClient t in
          match response with
          | inl err => (inl (ErrWrap "call Shelly RPC" err), c)
          | inr response =>
              match ReadLimited (Z.to_nat (maximumResponseBytes + 1)) response with
              | inl err => (inl (ErrWrap "read Shelly RPC response" err), c)
              | inr payload =>
                  when maximumResponseBytes <? Z.of_nat (String.length payload) yield
                    (inl (ErrNew "shelly RPC response exceeds size limit"), c);;
                  when negb (status_ok response) yield
                    (inl (ErrNew ("shelly RPC returned HTTP status " +:+ pretty (rs_StatusCode response))), c);;
                  match json_Decode payload with
                  | inl err => (inl (ErrWrap "decode Shelly RPC response" err), c)
                  | inr result => (inr result, c)
                  end
              end
          end
      end
  end.

Definition HTTPClient_GetSwitchConfig (ctx : Context) (timeout : Duration) (baseURL : string) (channel : Z)
    (c : HTTPClient) : (error + SwitchConfig) * HTTPClient :=
  let '(r, c) := call ctx timeout baseURL "Switch.GetConfig" (mkChannelParams channel) c in
  match r with
  | inl err => (inl err, c)
  | inr config =>
      when negb (sc_ID config =? channel) yield
        (inl (ErrNew ("shelly config channel " +:+ pretty (sc_ID config) +:+ " does not match requested channel "
                        +:+ pretty channel)), c);;
      (inr config, c)
  end.

Definition HTTPClient_GetSwitchStatus (ctx : Context) (timeout : Duration) (baseURL : string) (channel : Z)
    (c : HTTPClient) : (error + SwitchStatus) * HTTPClient :=
  let '(r, c) := call ctx timeout baseURL "Switch.GetStatus" (mkChannelParams channel) c in
  match r with
  | inl err => (inl err, c)
  | inr status =>
      when negb (ss_ID status =? channel) yield
        (inl (ErrNew ("shelly response channel " +:+ pretty (ss_ID status) +:+ " does not match requested channel "
                        +:+ pretty channel)), c);;
      (inr status, c)
  end.

Definition HTTPClient_SetSwitch (ctx : Context) (timeout : Duration) (baseURL : string) (channel : Z) (on : bool)
    (c : HTTPClient) : (error + SetResult) * HTTPClient :=
  call ctx timeout baseURL "Switch.Set" (mkSetParams channel on) c.

#[export] Instance HTTPClient_Client : Client HTTPClient := {
  GetSwitchStatus := HTTPClient_GetSwitchStatus;
  GetSwitchConfig := HTTPClient_GetSwitchConfig;
  SetSwitch := HTTPClient_SetSwitch
}.

(** An answer was decoded from a whole body of at most 64 KiB that came with a
    success status; a status or configuration is of the channel asked for. *)
Lemma call_spec {Q A} `{!Marshaler Q, !JSONDecoder A} ctx timeout baseURL method (params : Q) c (a : A) c' :
  call ctx timeout baseURL method params c = (inr a, c') →
  ∃ url body response, rpcURL baseURL method = inr url ∧ json_Marshal params = inr body
    ∧ http_Do ctx timeout (mkRequest "POST" url [("Content-Type", "application/json")] body) (hc_client c)
      = (inr response, hc_client c')
    ∧ 200 ≤ rs_StatusCode response < 300 ∧ rs_ReadError response = None
    ∧ Z.of_nat (String.length (rs_Body response)) ≤ maximumResponseBytes
    ∧ json_Decode (rs_Body response) = inr a.
Proof.
  unfold call. destruct (rpcURL baseURL method) as [|url]; [done|].
  destruct (json_Marshal params) as [|body]; [done|]. destruct (http_RequestError url); [done|].
  destruct (http_Do ctx timeout _ (hc_client c)) as [[err|response] t] eqn:Hdo; [done|].
  destruct (ReadLimited _ response) as [|payload] eqn:Hread; [done|].
  destruct (Z.ltb_spec maximumResponseBytes (Z.of_nat (String.length payload))) as [|Hlen]; [done|].
  apply ReadLimited_whole in Hread as [-> Herr]; [|unfold maximumResponseBytes in *; lia].
  unfold status_ok. destruct (negb (negb _)) eqn:Hstatus; [done|].
  destruct (json_Decode (rs_Body response)) eqn:Hd; [done|]. intros [= <- <-].
  exists url, body, response. split_and!; try done; go_bool; lia.
Qed.

Lemma HTTPClient_status_channel ctx timeout baseURL channel c status c' :
  HTTPClient_GetSwitchStatus ctx timeout baseURL channel c = (inr status, c') → ss_ID status = channel.
Proof.
  unfold HTTPClient_GetSwitchStatus. destruct (call _ _ _ _ _ c) as [[|s] c1]; [done|].
  destruct (Z.eqb_spec (ss_ID s) channel); simpl; intros; by simplify_eq.
Qed.
End client.

(** [ChannelString], [strconv.Itoa]. *)
Definition ChannelString (channel : Z) : string := pretty channel.

(** ** The adapter *)
Record Adapter := mkAdapter {
  sa_endpoints : gmap string Endpoint;
  sa_pending : gmap string pendingCommand;
  sa_desired : gmap string bool;
  sa_started : bool;
  sa_workers : list Endpoint;
  sa_errors : gmap string string
}.

Definition set_pending (m : gmap string pendingCommand) (a : Adapter) : Adapter :=
  mkAdapter (sa_endpoints a) m (sa_desired a) (sa_started a) (sa_workers a) (sa_errors a).
Definition set_desired (m : gmap string bool) (a : Adapter) : Adapter :=
  mkAdapter (sa_endpoints a) (sa_pending a) m (sa_started a) (sa_workers a) (sa_errors a).
Definition set_errors (m : gmap string string) (a : Adapter) : Adapter :=
  mkAdapter (sa_endpoints a) (sa_pending a) (sa_desired a) (sa_started a) (sa_workers a) m.

Definition validateEndpoint `{!URLParser, !URLWriter} (e : Endpoint) : option error :=
  iferr validateUUID (se_ID e) as err yield Some (ErrWrap "shelly endpoint ID" err);;
  iferr validateUUID (se_EquipmentID e) as err yield Some (ErrWrap "shelly equipment ID" err);;
  match rpcURL (se_BaseURL e) "Switch.GetStatus" with
  | inl err => Some err
  | inr _ =>
      when (se_Channel e <? 0) || (31 <? se_Channel e) yield Some (ErrNew "shelly channel must be between 0 and 31");;
      when (se_PollInterval e <=? 0) || (se_RequestTimeout e <=? 0) || (se_PollInterval e <? se_RequestTimeout e) yield
        Some (ErrNew "shelly request timeout must be positive and no greater than poll interval");;
      when (se_Retries e <? 0) || (5 <? se_Retries e) yield Some (ErrNew "shelly retries must be between 0 and 5");;
      when negb (bool_decide (se_PowerReturnPolicy e = PowerReturnOff))
           && negb (bool_decide (se_PowerReturnPolicy e = PowerReturnRestore)) yield
        Some (ErrNew "shelly power-return policy must be off or restore");;
      None
  end.

(** One turn of the loop of [NewAdapter]. *)
Definition add_endpoint `{!URLParser, !URLWriter} (_ : Z) (e : Endpoint) (m : gmap string Endpoint) :
    error + gmap string Endpoint :=
  iferr validateEndpoint e as err yield inl err;;
  when bool_decide (is_Some (m !! se_EquipmentID e)) yield
    inl (ErrNew ("duplicate Shelly equipment endpoint " +:+ se_EquipmentID e));;
  inr (<[se_EquipmentID e := e]> m).

(** [dependencies] says that every dependency is non-nil. *)
Definition NewAdapter `{!URLParser, !URLWriter} (dependencies : bool) (endpoints : list Endpoint) : Adapter + error :=
  when negb dependencies yield inr (ErrNew "all Shelly adapter dependencies are required");;
  match range_loop add_endpoint 0 endpoints ∅ with
  | inl err => inr err
  | inr m => inl (mkAdapter m ∅ ∅ false [] ∅)
  end.

(** One worker per endpoint, started in the order of a range over the map;
    [Stop] cancels and joins them, [after] being what the context says then. *)
Definition Adapter_Start (ctx : Context) (order : list Endpoint) (a : Adapter) : Adapter * option error :=
  when sa_started a yield (a, None);;
  (mkAdapter (sa_endpoints a) (sa_pending a) (sa_desired a) true order (sa_errors a), None).

Definition Adapter_Stop (ctx : Context) (after : option error) (a : Adapter) : Adapter * option error :=
  iferr ctx_Err ctx as err yield (a, Some err);;
  (mkAdapter (sa_endpoints a) (sa_pending a) (sa_desired a) false [] (sa_errors a), after).

Definition Adapter_Health (now : Time) (a : Adapter) : Status :=
  let failureCount := Z.of_nat (size (sa_errors a)) in
  let state := if negb (sa_started a) then StateUnhealthy
               else if 0 <? failureCount then StateDegraded else StateHealthy in
  let message := if 0 <? failureCount then pretty failureCount +:+ " Shelly endpoint(s) unhealthy" else "" in
  NewStatus "adapter-shelly" state message (UTC now).

Definition setError (endpointID : EndpointID) (message : string) (a : Adapter) : Adapter :=
  set_errors (if bool_decide (message = "") then delete endpointID (sa_errors a)
              else <[endpointID := message]> (sa_errors a)) a.

(** A world that holds a component. *)
Class Holds (A Wd : Type) := {
  part : Wd → A;
  with_part : A → Wd → Wd;
  part_with_part : ∀ a w, part (with_part a w) = a
}.
#[export] Hint Mode Holds + + : typeclass_instances.

Definition modify {A Wd} `{!Holds A Wd} (f : A → A) (w : Wd) : Wd := with_part (f (part w)) w.

Lemma part_modify {A Wd} `{!Holds A Wd} (f : A → A) (w : Wd) : part (modify f w) = f (part w).
Proof. apply part_with_part. Qed.

(** ** Dispatch *)
Section dispatch.
Context {Wd : Type} `{!Holds Adapter Wd, !Client Wd, !Clock Wd}.

(** The loop with [attempts] attempts left; [last] is the error of the previous
    one, nil before the first. *)
Fixpoint retry_loop (attempts : nat) (ctx : Context) (e : Endpoint) (on : bool) (last : option error) (w : Wd) :
    option error * Wd :=
  match attempts with
  | O =>
      let message := "shelly Switch.Set failed after " +:+ pretty (se_Retries e + 1) +:+ " attempts" in
      (Some (match last with Some err => ErrWrap message err | None => ErrNew message end), w)
  | S attempts =>
      let '(r, w) := SetSwitch ctx (se_RequestTimeout e) (se_BaseURL e) (se_Channel e) on w in
      match r with
      | inr _ => (None, w)
      | inl err => iferr context_Err ctx w as done yield (Some done, w);; retry_loop attempts ctx e on (Some err) w
      end
  end.

Definition setWithRetry (ctx : Context) (e : Endpoint) (on : bool) (w : Wd) : option error * Wd :=
  retry_loop (Z.to_nat (se_Retries e + 1)) ctx e on None w.

Definition remember (command : Command) (a : Adapter) : Adapter :=
  set_desired (<[c_EquipmentID command := c_On command]> (sa_desired a))
    (set_pending (<[c_EquipmentID command := mkPending (c_ID command) (c_On command) (c_ExpiresAt command)]>
       (sa_pending a)) a).

Definition Adapter_Dispatch (ctx : Context) (command : Command) (w : Wd) : (Acknowledgement * option error) * Wd :=
  match sa_endpoints (part w) !! c_EquipmentID command with
  | None => ((mkAcknowledgement false "shelly.endpoint_not_found" 0, None), w)
  | Some endpoint =>
      let '(err, w) := setWithRetry ctx endpoint (c_On command) w in
      iferr err as err yield ((mkAcknowledgement false "" 0, Some err), w);;
      let '(now, w) := clock_Now w in
      let w := modify (remember command) w in
      ((mkAcknowledgement true "shelly.rpc_accepted" (UTC now), None), w)
  end.

(** *** Retries are bounded *)

(** [n] failed attempts that leave the context alive. *)
Inductive failed_attempts (ctx : Context) (e : Endpoint) (on : bool) : nat → Wd → Wd → Prop :=
| no_attempt w : failed_attempts ctx e on 0 w w
| failed_attempt n w err w1 w2 :
    SetSwitch ctx (se_RequestTimeout e) (se_BaseURL e) (se_Channel e) on w = (inl err, w1) →
    context_Err ctx w1 = None → failed_attempts ctx e on n w1 w2 → failed_attempts ctx e on (S n) w w2.

Lemma retry_loop_spec ctx e on attempts last w :
  let '(result, w') := retry_loop attempts ctx e on last w in
  (∃ n w1 r, (n < attempts)%nat ∧ failed_attempts ctx e on n w w1
     ∧ SetSwitch ctx (se_RequestTimeout e) (se_BaseURL e) (se_Channel e) on w1 = (r, w')
     ∧ match r with inr _ => result = None | inl _ => result ≠ None ∧ result = context_Err ctx w' end)
  ∨ failed_attempts ctx e on attempts w w' ∧ result ≠ None.
Proof.
  revert last w. induction attempts as [|k IH]; intros last w; simpl; [right; by split; [constructor|]|].
  destruct (SetSwitch ctx _ _ _ on w) as [[err|ok] w1] eqn:Hset.
  - destruct (context_Err ctx w1) as [done|] eqn:Hctx.
    { left. exists 0%nat, w, (inl err). split_and!; [lia|constructor|done..|congruence]. }
    specialize (IH (Some err) w1). destruct (retry_loop k ctx e on (Some err) w1) as [result w'].
    destruct IH as [(n & w2 & r & Hn & Hf & Hs & Hr)|[Hf Hr]].
    + left. exists (S n), w2, r. split_and!; [lia|by econstructor|done..].
    + right. split; [by econstructor|done].
  - left. exists 0%nat, w, (inr ok). split_and!; [lia|constructor|done..].
Qed.
End dispatch.

(** Switching through a valid endpoint ends after at most one attempt more
    than its retries, six at most: it answers no error exactly when the last
    attempt was accepted, the context's error when the context ended after a
    failed attempt, and an error once every attempt has failed. *)
Theorem setWithRetry_bounded {Wd} `{!Client Wd, !Clock Wd, !URLParser, !URLWriter} ctx e on (w : Wd) :
  validateEndpoint e = None →
  let '(result, w') := setWithRetry ctx e on w in
  (∃ n w1 r, 0 ≤ Z.of_nat n ≤ se_Retries e ∧ se_Retries e ≤ 5 ∧ failed_attempts ctx e on n w w1
     ∧ SetSwitch ctx (se_RequestTimeout e) (se_BaseURL e) (se_Channel e) on w1 = (r, w')
     ∧ match r with inr _ => result = None | inl _ => result ≠ None ∧ result = context_Err ctx w' end)
  ∨ failed_attempts ctx e on (Z.to_nat (se_Retries e + 1)) w w' ∧ result ≠ None.
Proof.
  intros Hv. assert (0 ≤ se_Retries e ≤ 5) as Hr by (unfold validateEndpoint in Hv; repeat go_case; go_bool; try done; lia).
  unfold setWithRetry. pose proof (retry_loop_spec ctx e on (Z.to_nat (se_Retries e + 1)) None w) as Hspec.
  destruct (retry_loop _ _ _ _ _ _) as [result w']. destruct Hspec as [(n & w1 & r & Hn & ?)|?]; [|by right].
  left. exists n, w1, r. split; [lia|]. split; [lia|]. tauto.
Qed.

(** ** Reconciliation *)
Section poll.
Context {Wd : Type} `{!Holds Adapter Wd, !Client Wd, !Clock Wd, !ReportedSink Wd, !CommandTracker Wd, !FailureSink Wd}.
(** [err.Error()] and the verb %q. *)
Context (render : error → string) (quote : string → string).

Definition expireIfNeeded (ctx : Context) (e : Endpoint) (now : Time) (force : bool) (w : Wd) : Wd :=
  match sa_pending (part w) !! se_EquipmentID e with
  | None => w
  | Some pending =>
      when negb force && Before now (pc_expiresAt pending) yield w;;
      let '(_, err, w) := tracker_ExpireAcknowledged ctx (pc_id pending) "shelly.reconciliation_expired" now w in
      let w := match err with
               | None => modify (fun a => set_pending (delete (se_EquipmentID e) (sa_pending a)) a) w
               | Some _ => w
               end in
      (ShellyFailure ctx e true "shelly.reconciliation_expired" now w).2
  end.

Definition failPoll (ctx : Context) (e : Endpoint) (code : string) (err : error) (w : Wd) : Wd :=
  let '(now, w) := clock_Now w in
  let now := UTC now in
  let w := modify (setError (se_ID e) (code +:+ ": " +:+ render err)) w in
  let '(_, w) := ShellyFailure ctx e true code now w in
  expireIfNeeded ctx e now true w.

Definition report_of (e : Endpoint) (status : SwitchStatus) (now : Time) (a : Adapter) : Report :=
  mkReport (se_ID e) (se_EquipmentID e) (ss_Output status) (ss_APower status) (ss_Voltage status)
    (ss_Current status) (ss_Source status) now (sa_desired a !! se_EquipmentID e)
    (bool_decide (is_Some (sa_pending a !! se_EquipmentID e))) (ss_Errors status).

(** What follows the report: the pending command expires, is reconciled or waits. *)
Definition settle (ctx : Context) (e : Endpoint) (status : SwitchStatus) (now : Time) (w : Wd) : Wd :=
  match sa_pending (part w) !! se_EquipmentID e with
  | None => w
  | Some pending =>
      when negb (Before now (pc_expiresAt pending)) yield expireIfNeeded ctx e now false w;;
      if Bool.eqb (ss_Output status) (pc_want pending) then
        let '(_, err, w) := tracker_Reconcile ctx (pc_id pending) (ss_Output status) now w in
        match err with
        | None => modify (fun a => set_pending (delete (se_EquipmentID e) (sa_pending a)) a) w
        | Some _ => w
        end
      else w
  end.

Definition expected_initial_state (e : Endpoint) : string :=
  if bool_decide (se_PowerReturnPolicy e = PowerReturnRestore) then "restore_last" else "off".

Definition poll (ctx : Context) (e : Endpoint) (w : Wd) : Wd :=
  let '(config, w) := GetSwitchConfig ctx (se_RequestTimeout e) (se_BaseURL e) (se_Channel e) w in
  match config with
  | inl configErr => failPoll ctx e "shelly.config_unavailable" configErr w
  | inr config =>
      when negb (bool_decide (sc_InitialState config = expected_initial_state e)) yield
        failPoll ctx e "shelly.power_return_mismatch"
          (ErrNew ("configured initial_state " +:+ quote (sc_InitialState config) +:+ ", expected "
                     +:+ quote (expected_initial_state e))) w;;
      let '(status, w) := GetSwitchStatus ctx (se_RequestTimeout e) (se_BaseURL e) (se_Channel e) w in
      let '(now, w) := clock_Now w in
      let now := UTC now in
      match status with
      | inl err =>
          let w := modify (setError (se_ID e) ("shelly.unreachable: " +:+ render err)) w in
          let '(_, w) := ShellyFailure ctx e true "shelly.unreachable" now w in
          expireIfNeeded ctx e now true w
      | inr status =>
          let w := modify (setError (se_ID e) "") w in
          let '(_, w) := ReportShelly ctx (report_of e status now (part w)) w in
          settle ctx e status now w
      end
  end.
End poll.

(** ** What a poll tells others *)
Inductive PollCall :=
| CalledReport (report : Report)
| CalledFailure (reason : string) (at_ : Time)
| CalledReconcile (id : CommandID) (on : bool) (at_ : Time)
| CalledExpire (id : CommandID) (at_ : Time).

(** The world with the calls made to the sinks and the tracker, oldest first. *)
Definition Traced (Wd : Type) : Type := Wd * list PollCall.

Definition lifted {Wd R} (f : Wd → R * Wd) (t : Traced Wd) : R * Traced Wd :=
  let '(r, w) := f t.1 in (r, (w, t.2)).
Definition logged {Wd R} (c : PollCall) (f : Wd → R * Wd) (t : Traced Wd) : R * Traced Wd :=
  let '(r, w) := f t.1 in (r, (w, t.2 ++ [c])).

Section traced.
Context {Wd : Type} `{!Holds Adapter Wd, !Client Wd, !Clock Wd, !ReportedSink Wd, !CommandTracker Wd, !FailureSink Wd}.

#[export] Instance Traced_Holds : Holds Adapter (Traced Wd).
Proof.
  refine {| part := fun t => part t.1; with_part := fun a t => (with_part a t.1, t.2) |}.
  intros. apply part_with_part.
Defined.
#[export] Instance Traced_Client : Client (Traced Wd) := {
  GetSwitchStatus := fun ctx d url ch => lifted (GetSwitchStatus ctx d url ch);
  GetSwitchConfig := fun ctx d url ch => lifted (GetSwitchConfig ctx d url ch);
  SetSwitch := fun ctx d url ch on => lifted (SetSwitch ctx d url ch on)
}.
#[export] Instance Traced_Clock : Clock (Traced Wd) :=
  { clock_Now := lifted clock_Now; context_Err := fun ctx t => context_Err ctx t.1 }.
#[export] Instance Traced_ReportedSink : ReportedSink (Traced Wd) :=
  { ReportShelly := fun ctx r => logged (CalledReport r) (ReportShelly ctx r) }.
#[export] Instance Traced_FailureSink : FailureSink (Traced Wd) :=
  { ShellyFailure := fun ctx e active reason at_ => logged (CalledFailure reason at_) (ShellyFailure ctx e active reason at_) }.
#[export] Instance Traced_CommandTracker : CommandTracker (Traced Wd) := {
  tracker_Reconcile := fun ctx id on at_ => logged (CalledReconcile id on at_) (tracker_Reconcile ctx id on at_);
  tracker_ExpireAcknowledged := fun ctx id reason at_ =>
    logged (CalledExpire id at_) (tracker_ExpireAcknowledged ctx id reason at_)
}.
End traced.

Section reconciled.
Context {Wd : Type} `{!Holds Adapter Wd, !Client Wd, !Clock Wd, !ReportedSink Wd, !CommandTracker Wd, !FailureSink Wd}.
Context (render : error → string) (quote : string → string).

(** The expiry of a pending command, with the failure that is reported of it. *)
Definition expiry (id : CommandID) (at_ : Time) : list PollCall :=
  [CalledExpire id at_; CalledFailure "shelly.reconciliation_expired" at_].

Lemma expireIfNeeded_calls ctx e now force (w : Wd) calls :
  (expireIfNeeded ctx e now force (w, calls)).2 =
    calls ++ match sa_pending (part w) !! se_EquipmentID e with
             | Some pending => if negb force && Before now (pc_expiresAt pending) then [] else expiry (pc_id pending) now
             | None => []
             end.
Proof.
  unfold expireIfNeeded, expiry. simpl. destruct (sa_pending (part w) !! se_EquipmentID e) as [p|]; [|by rewrite app_nil_r].
  destruct (negb force && Before now (pc_expiresAt p)); [by rewrite app_nil_r|].
  unfold logged, lifted. simpl. destruct (tracker_ExpireAcknowledged _ _ _ _ w) as [[r err] w1].
  destruct err; simpl; destruct (ShellyFailure ctx e true _ now _); simpl; by rewrite <- app_assoc.
Qed.

(** A poll that fails reports the failure, and expires what is pending then. *)
Definition failing (ctx : Context) (e : Endpoint) (calls : list PollCall) : Prop :=
  ∃ reason now (w1 w2 : Wd) err, ShellyFailure ctx e true reason now w1 = (err, w2)
    ∧ calls = CalledFailure reason now ::
        match sa_pending (part w2) !! se_EquipmentID e with Some pending => expiry (pc_id pending) now | None => [] end.

(** Why a poll fails. *)
Definition unverified (ctx : Context) (e : Endpoint) (w : Wd) : Prop :=
  match GetSwitchConfig ctx (se_RequestTimeout e) (se_BaseURL e) (se_Channel e) w with
  | (inl _, _) => True
  | (inr config, w1) =>
      sc_InitialState config ≠ expected_initial_state e
      ∨ ∃ err w2, GetSwitchStatus ctx (se_RequestTimeout e) (se_BaseURL e) (se_Channel e) w1 = (inl err, w2)
  end.

Lemma failPoll_calls ctx e code err (w : Wd) : failing ctx e (failPoll render ctx e code err (w, [])).2.
Proof.
  unfold failPoll, failing. simpl. unfold modify, lifted, logged. simpl. destruct (clock_Now w) as [now w1]. simpl.
  match goal with |- context [ShellyFailure ctx e true code _ ?w0] => destruct (ShellyFailure ctx e true code (UTC now) w0) as [err2 w2] eqn:Hf end.
  eexists code, now, _, w2, err2. split; [exact Hf|]. by rewrite expireIfNeeded_calls.
Qed.

Lemma settle_calls ctx e status now (w : Wd) calls :
  (settle ctx e status now (w, calls)).2 =
    calls ++ match sa_pending (part w) !! se_EquipmentID e with
             | Some pending =>
                 if now <? pc_expiresAt pending then
                   if Bool.eqb (ss_Output status) (pc_want pending)
                   then [CalledReconcile (pc_id pending) (ss_Output status) now] else []
                 else expiry (pc_id pending) now
             | None => []
             end.
Proof.
  unfold settle. simpl. destruct (sa_pending (part w) !! se_EquipmentID e) as [[id want expires]|] eqn:Hp; simpl;
    [|by rewrite app_nil_r].
  unfold Before. destruct (now <? expires) eqn:Hb; simpl.
  - destruct (Bool.eqb (ss_Output status) want); simpl; [|by rewrite app_nil_r]. unfold logged. simpl.
    destruct (tracker_Reconcile ctx id (ss_Output status) now w) as [[r err] w1]. by destruct err.
  - rewrite expireIfNeeded_calls, Hp. simpl. unfold Before. by rewrite Hb.
Qed.

(** C16: everything a poll tells others, in order. When the device's
    configuration or state cannot be read, or its power-return setting is not
    the expected one, that is one failure and, if a command is pending then,
    the expiry of that command and a second failure. Otherwise it is the
    report of the state the device shows and, of a command pending after that
    report, its reconciliation if it is unexpired and wanted the very state
    that was reported, its expiry and a failure if it is expired, and nothing
    if it still waits. Reports and failures may make their receivers submit
    commands, which is not part of this. *)
Theorem poll_reconciles_only_reported ctx e (w : Wd) :
  let calls := (poll render quote ctx e (w, [])).2 in
  (unverified ctx e w ∧ failing ctx e calls)
  ∨ ∃ config w1 status w2 now w3 err w4,
      GetSwitchConfig ctx (se_RequestTimeout e) (se_BaseURL e) (se_Channel e) w = (inr config, w1)
      ∧ sc_InitialState config = expected_initial_state e
      ∧ GetSwitchStatus ctx (se_RequestTimeout e) (se_BaseURL e) (se_Channel e) w1 = (inr status, w2)
      ∧ clock_Now w2 = (now, w3)
      ∧ let w3 := modify (setError (se_ID e) "") w3 in
        let report := report_of e status now (part w3) in
        ReportShelly ctx report w3 = (err, w4) ∧ rp_On report = ss_Output status ∧ rp_ObservedAt report = now
        ∧ calls = CalledReport report ::
            match sa_pending (part w4) !! se_EquipmentID e with
            | Some pending =>
                if now <? pc_expiresAt pending then
                  if Bool.eqb (ss_Output status) (pc_want pending)
                  then [CalledReconcile (pc_id pending) (ss_Output status) now] else []
                else expiry (pc_id pending) now
            | None => []
            end.
Proof.
  unfold poll, unverified. simpl. unfold lifted. simpl.
  destruct (GetSwitchConfig _ _ _ _ w) as [[cerr|config] w1] eqn:Hconfig; simpl; [left; split; [done|apply failPoll_calls]|].
  case_bool_decide as Hinit; simpl; [|left; split; [by left|apply failPoll_calls]].
  destruct (GetSwitchStatus _ _ _ _ w1) as [status w2] eqn:Hstatus. simpl.
  destruct (clock_Now w2) as [now w3] eqn:Hnow. simpl.
  destruct status as [serr|status]; simpl.
  - left. split; [right; eauto|]. unfold logged. simpl.
    match goal with |- context [ShellyFailure ctx e true _ _ ?w0] =>
      destruct (ShellyFailure ctx e true "shelly.unreachable" (UTC now) w0) as [err w4] eqn:Hf end.
    eexists _, now, _, w4, err. split; [exact Hf|]. by rewrite expireIfNeeded_calls.
  - right. unfold logged. simpl. destruct (ReportShelly ctx _ _) as [err w4] eqn:Hreport.
    exists config, w1, status, w2, now, w3, err, w4. split_and!; try done. by rewrite settle_calls.
Qed.
End reconciled.
