(* ===== verification/Polling.v ===== *)
(** * Waiting and polling

    The [select] statements that wait for a timer or the end of a context: the
    delay of the fake adapter ([internal/adapters/simulator/fake_adapter.go]),
    the backoff of the storage writer ([internal/storage/storage.go]) and the
    workers of the adapters ([runEndpoint] of [internal/adapters/shelly] and
    [internal/adapters/esp32]). Which case a [select] takes is an argument. *)

From Stdlib Require Import ZArith Lia String.
From stdpp Require Import base gmap strings list.
From S2P Require Import Prelude Domain Health Events Output.
From S2P Require Config Http Storage Simulator Esp32 Shelly.

(** How a wait ends: the context is done, with its error, or the timer fires. *)
Inductive Woken := Cancelled (err : error) | Fired.

Definition timerDelay_Wait (woken : Woken) : option error :=
  match woken with Cancelled err => Some err | Fired => None end.

Definition wait (woken : Woken) : bool := match woken with Cancelled _ => false | Fired => true end.

(** The writer's turn after a failed write, by how its [wait] for the backoff
    ended. *)
Definition backoff_turn (woken : Woken) : Storage.turn :=
  if wait woken then Storage.TurnWaited else Storage.TurnInterrupted.

(** A timer delay with the ends of its waits to come; a wait without an end
    stays where it is, and is left out. *)
Record TimerDelay := mkTimerDelay { td_next : nat → Woken; td_waits : nat }.
#[export] Instance TimerDelay_Delay : Simulator.Delay TimerDelay := {|
  Simulator.Wait := fun _ _ d => (timerDelay_Wait (td_next d (td_waits d)), mkTimerDelay (td_next d) (S (td_waits d))) |}.

(** ** Workers *)

(** The loop of [runEndpoint] over the ends of its waits; whether it returned. *)
Fixpoint poll_loop {S} (poll : S → S) (wakes : list Woken) (s : S) : S * bool :=
  match wakes with
  | [] => (s, false)
  | Cancelled _ :: _ => (s, true)
  | Fired :: rest => poll_loop poll rest (poll s)
  end.

Definition Shelly_runEndpoint {Wd} `{!Shelly.Holds Shelly.Adapter Wd, !Shelly.Client Wd, !Shelly.Clock Wd, !Shelly.ReportedSink Wd,
    !Shelly.CommandTracker Wd, !Shelly.FailureSink Wd} (render : error → string) (quote : string → string) (ctx : Context)
    (e : Shelly.Endpoint) (wakes : list Woken) (w : Wd) : Wd * bool :=
  let poll := Shelly.poll render quote ctx e in poll_loop poll wakes (poll w).

(** The clock readings of the polls are an argument. *)
Definition Esp32_runEndpoint {N S} `{!Esp32.Client N, !Esp32.MeasurementSink S, !Esp32.FailureSink S}
    (render : error → string) (ctx : Context) (clock : nat → Time) (e : Esp32.Endpoint) (wakes : list Woken)
    (st : Esp32.Adapter * N * S) : (Esp32.Adapter * N * S) * bool :=
  let poll := fun '(k, (a, client, s)) => (Datatypes.S k, Esp32.poll render ctx (clock k) e a client s) in
  let '((_, st), returned) := poll_loop poll wakes (poll (0%nat, st)) in (st, returned).

(** The ticks before the context ends. *)
Fixpoint rounds (wakes : list Woken) : nat :=
  match wakes with Fired :: rest => S (rounds rest) | _ => O end.

Lemma poll_loop_rounds {S} (poll : S → S) wakes s :
  (poll_loop poll wakes s).1 = Nat.iter (rounds wakes) poll s
  ∧ ((poll_loop poll wakes s).2 = true ↔ ∃ err, Cancelled err ∈ wakes).
Proof.
  revert s. induction wakes as [|[err|] wakes IH]; intros s; cbn.
  - split; [done|]. split; [done|]. intros [err Hin]. by apply elem_of_nil in Hin.
  - split; [done|]. split; [|done]. intros _. exists err. left.
  - destruct (IH (poll s)) as [Hs Hr]. split; [by rewrite Hs, <- Nat.iter_succ_r|]. rewrite Hr. set_solver.
Qed.

(** A worker polls once when it starts and once for every tick before the end
    of its context, and returns then. *)
Lemma Shelly_runEndpoint_polls {Wd} `{!Shelly.Holds Shelly.Adapter Wd, !Shelly.Client Wd, !Shelly.Clock Wd, !Shelly.ReportedSink Wd,
    !Shelly.CommandTracker Wd, !Shelly.FailureSink Wd} render quote ctx e wakes (w : Wd) :
  let r := Shelly_runEndpoint render quote ctx e wakes w in
  r.1 = Nat.iter (S (rounds wakes)) (Shelly.poll render quote ctx e) w ∧ (r.2 = true ↔ ∃ err, Cancelled err ∈ wakes).
Proof. cbn zeta. unfold Shelly_runEndpoint. rewrite Nat.iter_succ_r. apply poll_loop_rounds. Qed.

(** An invariant of the polls holds of what a worker leaves. *)
Lemma Esp32_runEndpoint_invariant {N S} `{!Esp32.Client N, !Esp32.MeasurementSink S, !Esp32.FailureSink S}
    render ctx clock e wakes (st : Esp32.Adapter * N * S) (J : Esp32.Adapter → S → Prop) :
  (∀ k a client s, J a s → let '(a', _, s') := Esp32.poll render ctx (clock k) e a client s in J a' s') →
  J st.1.1 st.2 →
  let '((a, _, s), returned) := Esp32_runEndpoint render ctx clock e wakes st in
  J a s ∧ (returned = true ↔ ∃ err, Cancelled err ∈ wakes).
Proof.
  intros HJ Hst. unfold Esp32_runEndpoint. set (poll := fun '(k, (a, client, s)) => _).
  pose proof (poll_loop_rounds poll wakes (poll (0%nat, st))) as [Hs Hr].
  assert (∀ n, J (Nat.iter n poll (poll (0%nat, st))).2.1.1 (Nat.iter n poll (poll (0%nat, st))).2.2) as Hall.
  { assert (∀ x, J x.2.1.1 x.2.2 → J (poll x).2.1.1 (poll x).2.2) as Hpoll.
    { intros [k [[a client] s]] Hj. cbn in *. specialize (HJ k a client s Hj). by destruct (Esp32.poll _ _ _ _ _ _ _) as [[??] ?]. }
    intros n. induction n as [|n IH]; [exact (Hpoll (0%nat, st) Hst)|]. rewrite Nat.iter_succ. by apply Hpoll. }
  specialize (Hall (rounds wakes)). rewrite <- Hs in Hall.
  destruct (poll_loop poll wakes _) as [[k [[a client] s]] returned]. by split.
Qed.
