(* ===== verification/Bench.v ===== *)
(** * Bench coordination: [internal/bench/coordinator.go]

    What the adapters report becomes canonical state, alarm observations and
    safe commands. The canonical store, the alarm engine and the command
    service are parts of one world [U], because a command may come back to an
    adapter and a state change reaches the subscribers of the bus. *)

From Stdlib Require Import ZArith Lia String SpecFloat.
From stdpp Require Import base gmap strings list pretty.
From S2P Require Import Prelude Domain Health Events State Equipment Safety Alarms Output.
From S2P Require MqttClient Config Http Esp32 Shelly.

(** ** Boundaries *)
Class StateWriter (U : Type) := { state_Set : Context → StateValue → U → (StateValue * option error) * U }.
Class AlarmEngine (U : Type) := {
  engine_RegisterRule : Context → Rule → U → option error * U;
  engine_Observe : Context → Observation → U → (Alarm * Transition * option error) * U
}.
Class Commander (U : Type) := { commander_Submit : Context → Command → U → (Result * option error) * U }.

Record ShellyPolicy := mkShellyPolicy { sy_Endpoint : Shelly.Endpoint; sy_RuleID : RuleID }.
Record ESP32Policy := mkESP32Policy { ey_Endpoint : Esp32.Endpoint; ey_RuleID : RuleID }.

Record Coordinator := mkCoordinator {
  cd_shellyRules : gmap string RuleID;
  cd_espRules : gmap string RuleID;
  cd_shellyActive : gmap string bool;
  cd_shellyEndpoints : gmap string Shelly.Endpoint;
  cd_espEndpoints : gmap string Esp32.Endpoint
}.

Definition set_active (id : EndpointID) (active : bool) (c : Coordinator) : Coordinator :=
  mkCoordinator (cd_shellyRules c) (cd_espRules c) (<[id := active]> (cd_shellyActive c)) (cd_shellyEndpoints c)
    (cd_espEndpoints c).

(** ** Construction *)
Fixpoint add_shelly (policies : list ShellyPolicy) (c : Coordinator) : error + Coordinator :=
  match policies with
  | [] => inr c
  | policy :: rest =>
      let id := Shelly.se_ID (sy_Endpoint policy) in
      iferr validateUUID (sy_RuleID policy) as err yield inl (ErrWrap "shelly alarm rule ID" err);;
      when bool_decide (is_Some (cd_shellyRules c !! id)) yield inl (ErrNew "duplicate Shelly bench policy");;
      add_shelly rest (mkCoordinator (<[id := sy_RuleID policy]> (cd_shellyRules c)) (cd_espRules c)
        (cd_shellyActive c) (<[id := sy_Endpoint policy]> (cd_shellyEndpoints c)) (cd_espEndpoints c))
  end.

Fixpoint add_esp32 (policies : list ESP32Policy) (c : Coordinator) : error + Coordinator :=
  match policies with
  | [] => inr c
  | policy :: rest =>
      let id := Esp32.en_ID (ey_Endpoint policy) in
      iferr validateUUID (ey_RuleID policy) as err yield inl (ErrWrap "esp32 alarm rule ID" err);;
      when bool_decide (is_Some (cd_espRules c !! id)) yield inl (ErrNew "duplicate ESP32 bench policy");;
      add_esp32 rest (mkCoordinator (cd_shellyRules c) (<[id := ey_RuleID policy]> (cd_espRules c))
        (cd_shellyActive c) (cd_shellyEndpoints c) (<[id := ey_Endpoint policy]> (cd_espEndpoints c)))
  end.

(** [dependencies] says that every dependency is non-nil. *)
Definition NewCoordinator (dependencies : bool) (shellyPolicies : list ShellyPolicy) (espPolicies : list ESP32Policy) :
    Coordinator + error :=
  when negb dependencies yield inr (ErrNew "all bench coordinator dependencies are required");;
  match add_shelly shellyPolicies (mkCoordinator ∅ ∅ ∅ ∅ ∅) with
  | inl err => inr err
  | inr c => match add_esp32 espPolicies c with inl err => inr err | inr c => inl c end
  end.

(** ** Rules *)
Definition zero_shelly : Shelly.Endpoint := Shelly.mkEndpoint "" "" "" 0 0 0 0 false (Shelly.PowerReturnOther "").
Definition zero_esp32 : Esp32.Endpoint := Esp32.mkEndpoint "" "" "" "" ("", "") 0 0 0 0 (F64 0).

Definition shelly_rule (endpoint : Shelly.Endpoint) (ruleID : RuleID) : Rule :=
  mkRule ruleID "shelly.protection_or_connection_fault" "Shelly protection or connection fault"
    (mkSubject "equipment" (Shelly.se_EquipmentID endpoint)) SeverityCritical 0 0 true.
Definition esp32_rule (endpoint : Esp32.Endpoint) (ruleID : RuleID) : Rule :=
  mkRule ruleID "esp32.node_unhealthy" "ESP32 sensor node unhealthy"
    (mkSubject "device" (Esp32.en_DeviceID endpoint)) SeverityCritical 0 0 true.

Section coordinator.
Context {U : Type} `{!StateWriter U, !AlarmEngine U, !Commander U}.

Fixpoint register_rules (text : string) (ctx : Context) (rules : list Rule) (u : U) : option error * U :=
  match rules with
  | [] => (None, u)
  | rule :: rest =>
      let '(err, u) := engine_RegisterRule ctx rule u in
      iferr err as err yield (Some (ErrWrap text err), u);; register_rules text ctx rest u
  end.

(** [shellyOrder] and [espOrder] are the orders of the two ranges over maps. *)
Definition RegisterRules (ctx : Context) (shellyOrder espOrder : list (string * RuleID)) (c : Coordinator) (u : U) :
    option error * U :=
  let '(err, u) := register_rules "register Shelly alarm" ctx
    ((fun entry => shelly_rule (default zero_shelly (cd_shellyEndpoints c !! entry.1)) entry.2) <$> shellyOrder) u in
  iferr err as err yield (Some err, u);;
  register_rules "register ESP32 alarm" ctx
    ((fun entry => esp32_rule (default zero_esp32 (cd_espEndpoints c !! entry.1)) entry.2) <$> espOrder) u.

(** ** Failures *)
Definition observation (ruleID : RuleID) (active : bool) (observedAt : Time) (reason message : string) : Observation :=
  mkObservation ruleID active (SeverityOther "") observedAt (mkEvidence reason message None) "".

Definition safe_command (endpoint : Shelly.Endpoint) (observedAt : Time) : Command :=
  mkCommand ""
    ("adapter-failure/" +:+ Shelly.se_ID endpoint +:+ "/" +:+ pretty (MqttClient.UnixNano observedAt)) ""
    (Shelly.se_EquipmentID endpoint) "adapter-failure-policy" observedAt
    (Add observedAt (wrap_int64 (2 * Shelly.se_RequestTimeout endpoint))) None (Shelly.se_SafeOn endpoint).

Definition Coordinator_ShellyFailure (ctx : Context) (endpoint : Shelly.Endpoint) (active : bool) (reason : string)
    (observedAt : Time) (c : Coordinator) (u : U) : option error * (Coordinator * U) :=
  match cd_shellyRules c !! Shelly.se_ID endpoint with
  | None => (Some (ErrNew "unknown Shelly failure endpoint"), (c, u))
  | Some ruleID =>
      let '(_, _, alarmErr, u) := engine_Observe ctx
        (observation ruleID active observedAt reason "Shelly reported a protection or connection fault") u in
      let wasActive := default false (cd_shellyActive c !! Shelly.se_ID endpoint) in
      let c := set_active (Shelly.se_ID endpoint) active c in
      when negb active || wasActive yield (alarmErr, (c, u));;
      let '(_, err, u) := commander_Submit ctx (safe_command endpoint observedAt) u in
      (errors_Join [alarmErr; err], (c, u))
  end.

Definition probe_key (probeID : SensorID) : Key := mkKey EntitySensor probeID PlaneObservation "measurement".

Definition unavailable (endpoint : Esp32.Endpoint) (quantity : Quantity) (observedAt : Time) (probeID : SensorID) :
    StateValue :=
  mkStateValue (probe_key probeID) (NewQuantityValue quantity) QualityUnavailable observedAt observedAt
    (Esp32.en_FreshFor endpoint) (Esp32.en_ID endpoint) 0.

(** The loop over the probes; every error is collected. *)
Definition mark_unavailable (ctx : Context) (endpoint : Esp32.Endpoint) (observedAt : Time) (u : U) :
    list (option error) * U :=
  let '(quantity, quantityErr) := NewQuantity QuantityTemperature (F64 0) UnitCelsius in
  match quantityErr with
  | Some err => ([Some err], u)
  | None =>
      let '(_, err0, u) := state_Set ctx (unavailable endpoint quantity observedAt (Esp32.en_ProbeIDs endpoint).1) u in
      let '(_, err1, u) := state_Set ctx (unavailable endpoint quantity observedAt (Esp32.en_ProbeIDs endpoint).2) u in
      ([err0; err1], u)
  end.

Definition Coordinator_ESP32Failure (ctx : Context) (endpoint : Esp32.Endpoint) (active : bool) (reason : string)
    (observedAt : Time) (c : Coordinator) (u : U) : option error * (Coordinator * U) :=
  match cd_espRules c !! Esp32.en_ID endpoint with
  | None => (Some (ErrNew "unknown ESP32 failure endpoint"), (c, u))
  | Some ruleID =>
      let '(stateErrors, u) := if active then mark_unavailable ctx endpoint observedAt u else ([], u) in
      let '(_, _, alarmErr, u) := engine_Observe ctx
        (observation ruleID active observedAt reason "ESP32 node or probe condition") u in
      (errors_Join (stateErrors ++ [alarmErr]), (c, u))
  end.

(** ** Reports *)
Fixpoint quantity_values (items : list (string * QuantityKind * Unit * float64)) : error + list (string * Value) :=
  match items with
  | [] => inr []
  | (attribute, kind, unit, value) :: rest =>
      let '(quantity, err) := NewQuantity kind value unit in
      iferr err as err yield inl err;;
      match quantity_values rest with
      | inl err => inl err
      | inr values => inr ((attribute, NewQuantityValue quantity) :: values)
      end
  end.

Definition reported_value (report : Shelly.Report) (freshFor : Duration) (item : string * Value) : StateValue :=
  mkStateValue (mkKey EntityEquipment (Shelly.rp_EquipmentID report) PlaneReported item.1) item.2 QualityGood
    (Shelly.rp_ObservedAt report) (Shelly.rp_ObservedAt report) freshFor (Shelly.rp_EndpointID report) 0.

Fixpoint set_all (ctx : Context) (values : list StateValue) (u : U) : option error * U :=
  match values with
  | [] => (None, u)
  | value :: rest =>
      let '(_, err, u) := state_Set ctx value u in
      iferr err as err yield (Some err, u);; set_all ctx rest u
  end.

Definition Coordinator_ReportShelly (ctx : Context) (report : Shelly.Report) (c : Coordinator) (u : U) :
    option error * (Coordinator * U) :=
  match cd_shellyEndpoints c !! Shelly.rp_EndpointID report with
  | None => (Some (ErrNew "unknown Shelly report endpoint"), (c, u))
  | Some endpoint =>
      when negb (bool_decide (Shelly.se_EquipmentID endpoint = Shelly.rp_EquipmentID report)) yield
        (Some (ErrNew "unknown Shelly report endpoint"), (c, u));;
      let freshFor := wrap_int64 (Shelly.se_PollInterval endpoint * 2) in
      match quantity_values
              [("power", QuantityPower, UnitWatts, Shelly.rp_APower report);
               ("voltage", QuantityVoltage, UnitVolts, Shelly.rp_Voltage report);
               ("current", QuantityCurrent, UnitAmperes, Shelly.rp_Current report)] with
      | inl err => (Some err, (c, u))
      | inr quantities =>
          let '(err, u) := set_all ctx
            (reported_value report freshFor <$> ("on", NewBooleanValue (Shelly.rp_On report)) :: quantities) u in
          iferr err as err yield (Some err, (c, u));;
          when negb (bool_decide (Shelly.rp_Errors report = [])) yield
            Coordinator_ShellyFailure ctx endpoint true
              ("shelly.protection." +:+ String.concat "+" (Shelly.rp_Errors report)) (Shelly.rp_ObservedAt report) c u;;
          let desired := default (Shelly.se_SafeOn endpoint) (Shelly.rp_DesiredOn report) in
          when negb (Shelly.rp_Pending report) && negb (Bool.eqb (Shelly.rp_On report) desired) yield
            Coordinator_ShellyFailure ctx endpoint true "shelly.reported_divergence" (Shelly.rp_ObservedAt report) c u;;
          if Bool.eqb (Shelly.rp_On report) desired then
            Coordinator_ShellyFailure ctx endpoint false "shelly.reported_converged" (Shelly.rp_ObservedAt report) c u
          else (None, (c, u))
      end
  end.

Definition measurement_value (endpointID : EndpointID) (m : Measurement) : StateValue :=
  mkStateValue (probe_key (m_SensorID m)) (NewQuantityValue (m_Value m)) (m_Quality m) (m_ObservedAt m)
    (m_ReceivedAt m) (m_FreshFor m) endpointID 0.

Definition Coordinator_ReportESP32 (ctx : Context) (endpointID : EndpointID) (m : Measurement) (c : Coordinator)
    (u : U) : option error * (Coordinator * U) :=
  when negb (bool_decide (is_Some (cd_espEndpoints c !! endpointID))) yield
    (Some (ErrNew "unknown ESP32 report endpoint"), (c, u));;
  let '(_, err, u) := state_Set ctx (measurement_value endpointID m) u in
  (err, (c, u)).

(** The coordinator with its world is what the adapters report to. *)
#[export] Instance Coordinator_MeasurementSink : Esp32.MeasurementSink (Coordinator * U) :=
  { ReportESP32 := fun ctx id m s => Coordinator_ReportESP32 ctx id m s.1 s.2 }.
#[export] Instance Coordinator_ESP32FailureSink : Esp32.FailureSink (Coordinator * U) :=
  { ESP32Failure := fun ctx e active reason at_ s => Coordinator_ESP32Failure ctx e active reason at_ s.1 s.2 }.
#[export] Instance Coordinator_ReportedSink : Shelly.ReportedSink (Coordinator * U) :=
  { ReportShelly := fun ctx r s => Coordinator_ReportShelly ctx r s.1 s.2 }.
#[export] Instance Coordinator_ShellyFailureSink : Shelly.FailureSink (Coordinator * U) :=
  { ShellyFailure := fun ctx e active reason at_ s => Coordinator_ShellyFailure ctx e active reason at_ s.1 s.2 }.
End coordinator.

(** ** Safe responses *)

(** The world with the commands submitted to it, oldest first. *)
Definition Submitted (U : Type) : Type := U * list Command.

Section submitted.
Context {U : Type} `{!StateWriter U, !AlarmEngine U, !Commander U}.

#[export] Instance Submitted_StateWriter : StateWriter (Submitted U) :=
  { state_Set := fun ctx v t => let '(r, u) := state_Set ctx v t.1 in (r, (u, t.2)) }.
#[export] Instance Submitted_AlarmEngine : AlarmEngine (Submitted U) := {
  engine_RegisterRule := fun ctx rule t => let '(r, u) := engine_RegisterRule ctx rule t.1 in (r, (u, t.2));
  engine_Observe := fun ctx o t => let '(r, u) := engine_Observe ctx o t.1 in (r, (u, t.2))
}.
#[export] Instance Submitted_Commander : Commander (Submitted U) :=
  { commander_Submit := fun ctx command t =>
      let '(r, u) := commander_Submit ctx command t.1 in (r, (u, t.2 ++ [command])) }.

Record Sighting := mkSighting {
  si_endpoint : Shelly.Endpoint; si_active : bool; si_reason : string; si_at : Time
}.

Fixpoint run_failures (ctx : Context) (run : list Sighting) (c : Coordinator) (t : Submitted U) :
    Coordinator * Submitted U :=
  match run with
  | [] => (c, t)
  | s :: rest =>
      let '(_, (c, t)) := Coordinator_ShellyFailure ctx (si_endpoint s) (si_active s) (si_reason s) (si_at s) c t in
      run_failures ctx rest c t
  end.

(** An endpoint fails when a sighting of it is active and the one before was
    not; none counts as inactive. *)
Definition before (id : EndpointID) (run : list Sighting) (was : bool) : bool :=
  match last (filter (fun s => Shelly.se_ID (si_endpoint s) = id) run) with
  | Some s => si_active s
  | None => was
  end.

Definition onsets (active : EndpointID → bool) (run : list Sighting) : list Sighting :=
  omap (fun i => s ← run !! i;
    if si_active s && negb (before (Shelly.se_ID (si_endpoint s)) (take i run) (active (Shelly.se_ID (si_endpoint s))))
    then Some s else None) (seq 0 (length run)).

Definition active_of (c : Coordinator) (id : EndpointID) : bool := default false (cd_shellyActive c !! id).

Lemma ShellyFailure_submits ctx e active reason at_ c (u : U) commands ruleID :
  cd_shellyRules c !! Shelly.se_ID e = Some ruleID →
  ∃ u', (Coordinator_ShellyFailure ctx e active reason at_ c (u, commands)).2 =
    (set_active (Shelly.se_ID e) active c,
     (u', commands ++ if active && negb (active_of c (Shelly.se_ID e)) then [safe_command e at_] else [])).
Proof.
  intros Hr. unfold Coordinator_ShellyFailure, active_of. rewrite Hr. simpl.
  destruct (engine_Observe ctx _ u) as [[[al tr] err] u1]. simpl.
  destruct active, (default false (cd_shellyActive c !! Shelly.se_ID e)); simpl; try (eexists; by rewrite app_nil_r).
  destruct (commander_Submit ctx _ u1) as [[r err2] u2]. by eexists.
Qed.

Lemma before_cons s id run was :
  before id (s :: run) was = before id run (if bool_decide (Shelly.se_ID (si_endpoint s) = id) then si_active s else was).
Proof.
  unfold before. rewrite filter_cons. case_decide as Hs; [|by rewrite bool_decide_eq_false_2].
  rewrite bool_decide_eq_true_2 by done. rewrite last_cons. by destruct (last (filter _ run)).
Qed.

Lemma omap_seq {A} (f : nat → option A) n k : omap f (seq (S n) k) = omap (fun i => f (S i)) (seq n k).
Proof. revert n. induction k as [|k IH]; intros n; csimpl; [done|]. by rewrite IH. Qed.

Lemma omap_pointwise {A B} (f g : A → option B) (l : list A) : (∀ x, f x = g x) → omap f l = omap g l.
Proof. intros Hfg. induction l as [|x l IH]; csimpl; [done|]. by rewrite Hfg, IH. Qed.

Lemma onsets_cons active s run :
  onsets active (s :: run) =
    (if si_active s && negb (active (Shelly.se_ID (si_endpoint s))) then [s] else [])
    ++ onsets (fun id => if bool_decide (Shelly.se_ID (si_endpoint s) = id) then si_active s else active id) run.
Proof.
  unfold onsets. simpl. unfold before at 1. simpl. rewrite omap_seq. simpl.
  rewrite (omap_pointwise (fun i => s0 ← run !! i; _) (fun i => s0 ← run !! i;
     if si_active s0 && negb (before (Shelly.se_ID (si_endpoint s0)) (take i run)
          (if bool_decide (Shelly.se_ID (si_endpoint s) = Shelly.se_ID (si_endpoint s0)) then si_active s
           else active (Shelly.se_ID (si_endpoint s0))))
     then Some s0 else None)).
  - by destruct (si_active s && _).
  - intros i. destruct (run !! i) as [s0|]; [|done]. simpl. by rewrite before_cons.
Qed.

Lemma onsets_proper active active' run : (∀ id, active id = active' id) → onsets active run = onsets active' run.
Proof. intros Ha. unfold onsets. apply omap_pointwise. intros i. destruct (run !! i); [|done]. simpl. by rewrite Ha. Qed.

(** C38: over any run of Shelly failure reports for known endpoints, whatever
    alarms and command service answer, the commands submitted are, in order,
    the safe commands of the onsets: the active reports whose endpoint was not
    active at its previous report. *)
Theorem safe_response_per_onset ctx run c (u : U) :
  Forall (fun s => is_Some (cd_shellyRules c !! Shelly.se_ID (si_endpoint s))) run →
  (run_failures ctx run c (u, [])).2.2 =
    (fun s => safe_command (si_endpoint s) (si_at s)) <$> onsets (active_of c) run.
Proof.
  change ((fun s => safe_command (si_endpoint s) (si_at s)) <$> onsets (active_of c) run)
    with ([] ++ ((fun s => safe_command (si_endpoint s) (si_at s)) <$> onsets (active_of c) run)).
  generalize (@nil Command) as commands. revert c u.
  induction run as [|s run IH]; intros c u commands Hrun; simpl; [by rewrite app_nil_r|].
  apply Forall_cons in Hrun as [[ruleID Hs] Hrun].
  destruct (ShellyFailure_submits ctx (si_endpoint s) (si_active s) (si_reason s) (si_at s) c u commands ruleID Hs)
    as [u' Hu].
  destruct (Coordinator_ShellyFailure ctx _ _ _ _ _ _) as [err [c1 t1]]. simpl in Hu. simplify_eq.
  rewrite IH by done. rewrite onsets_cons, fmap_app, (assoc_L (++)). f_equal.
  - f_equal. by destruct (si_active s && _).
  - f_equal. apply onsets_proper. intros id. unfold active_of. simpl. case_bool_decide as Hid.
    + by rewrite Hid, lookup_insert_eq.
    + by rewrite lookup_insert_ne.
Qed.
End submitted.

(** ** The canonical store behind the coordinator *)

(** What the store promises: a valid value is stored under its key whatever
    publishing it answers, an invalid one changes nothing. *)
Class StateStore (U : Type) `{!StateWriter U} := {
  stored : U → Key → option StateValue;
  stored_Set : ∀ ctx v u, ctx_Err ctx = None → State.validate v = None →
    ∃ r, ∀ k, stored (state_Set ctx v u).2 k = if decide (k = sv_Key v) then Some (set_revision r v) else stored u k;
  stored_refused : ∀ ctx v u k, State.validate v ≠ None → stored (state_Set ctx v u).2 k = stored u k
}.

(** Observing an alarm condition leaves the store alone. *)
Class AlarmsApart (U : Type) `{!StateWriter U, !StateStore U, !AlarmEngine U} :=
  { stored_Observe : ∀ ctx o u k, stored (engine_Observe ctx o u).2 k = stored u k }.

Section store.
Context {U : Type} `{!StateWriter U, !StateStore U, !AlarmEngine U, !AlarmsApart U, !Commander U}.
Context {url_parser : Config.URLParser} {url_writer : Http.URLWriter}.

Record endpoint_ok (e : Esp32.Endpoint) : Prop := {
  ek_ids : validateUUID (Esp32.en_ID e) = None ∧ validateUUID (Esp32.en_DeviceID e) = None;
  ek_probes : (Esp32.en_ProbeIDs e).1 ≠ (Esp32.en_ProbeIDs e).2
    ∧ validateUUID (Esp32.en_ProbeIDs e).1 = None ∧ validateUUID (Esp32.en_ProbeIDs e).2 = None;
  ek_fresh : 0 < Esp32.en_FreshFor e
}.

Lemma validateEndpoint_ok e : Esp32.validateEndpoint e = None → endpoint_ok e.
Proof.
  unfold Esp32.validateEndpoint. destruct (validateUUID (Esp32.en_ID e)) eqn:?; [done|].
  destruct (validateUUID (Esp32.en_DeviceID e)) eqn:?; [done|]. case_bool_decide; [done|].
  simpl. destruct (validateUUID (Esp32.en_ProbeIDs e).1) eqn:?; [done|].
  destruct (validateUUID (Esp32.en_ProbeIDs e).2) eqn:?; [done|].
  destruct (Esp32.snapshotURL _); [done|]. destruct (_ || (_ <? Esp32.en_RequestTimeout e)) eqn:Hp; [done|].
  destruct (_ || (Minute <? _)) eqn:Hf; [done|]. intros _. go_bool. split; try done. lia.
Qed.

(** A temperature of a probe is a valid value when its times are in order. *)
Lemma validate_probe id q value observedAt receivedAt freshFor source :
  validateUUID id = None → IsNaN value = false → IsInf value = false → validQuality q = true →
  observedAt ≠ 0 → receivedAt ≠ 0 → 0 < freshFor → validateUUID source = None →
  State.validate (mkStateValue (probe_key id) (NewQuantityValue (mkQuantity QuantityTemperature value UnitCelsius)) q
    observedAt receivedAt freshFor source 0) = None ↔ observedAt ≤ receivedAt.
Proof.
  intros Hid Hn Hi Hq Ho Hr Hf Hs. unfold State.validate. simpl. rewrite Hid. simpl. unfold Value_Validate, Quantity_Validate.
  simpl. rewrite Hn, Hi, Hq, Hs. simpl. unfold IsZero, After.
  rewrite (proj2 (Z.eqb_neq observedAt 0)), (proj2 (Z.eqb_neq receivedAt 0)) by done. simpl.
  destruct (Z.ltb_spec receivedAt observedAt), (Z.leb_spec freshFor 0); split; try done; lia.
Qed.

Lemma probe_keys_differ e : endpoint_ok e → probe_key (Esp32.en_ProbeIDs e).1 ≠ probe_key (Esp32.en_ProbeIDs e).2.
Proof. intros [_ (Hne & _) _] Heq. by injection Heq. Qed.

(** Two values stored one after the other under different keys. *)
Lemma stored_Set_two ctx v0 v1 u :
  ctx_Err ctx = None → State.validate v0 = None → State.validate v1 = None → sv_Key v0 ≠ sv_Key v1 →
  let u' := (state_Set ctx v1 (state_Set ctx v0 u).2).2 in
  ∃ r0 r1, stored u' (sv_Key v0) = Some (set_revision r0 v0) ∧ stored u' (sv_Key v1) = Some (set_revision r1 v1)
    ∧ ∀ k, k ≠ sv_Key v0 → k ≠ sv_Key v1 → stored u' k = stored u k.
Proof.
  intros Hctx Hv0 Hv1 Hne. destruct (stored_Set ctx v0 u Hctx Hv0) as [r0 Hs0].
  destruct (stored_Set ctx v1 (state_Set ctx v0 u).2 Hctx Hv1) as [r1 Hs1]. exists r0, r1. split_and!.
  - by rewrite Hs1, decide_False, Hs0, decide_True.
  - by rewrite Hs1, decide_True.
  - intros k ??. by rewrite Hs1, decide_False, Hs0, decide_False.
Qed.

Lemma mark_unavailable_stored ctx e at_ u :
  ctx_Err ctx = None → endpoint_ok e → at_ ≠ 0 →
  let u' := (mark_unavailable ctx e at_ u).2 in
  Forall (fun p => ∃ v, stored u' (probe_key p) = Some v ∧ sv_Quality v = QualityUnavailable)
    [(Esp32.en_ProbeIDs e).1; (Esp32.en_ProbeIDs e).2]
  ∧ ∀ k, k ≠ probe_key (Esp32.en_ProbeIDs e).1 → k ≠ probe_key (Esp32.en_ProbeIDs e).2 → stored u' k = stored u k.
Proof.
  intros Hctx He Hat. pose proof (probe_keys_differ e He) as Hne. destruct He as [[Hid _] (_ & Hp0 & Hp1) Hf].
  unfold mark_unavailable. assert (NewQuantity QuantityTemperature (F64 0) UnitCelsius
    = (mkQuantity QuantityTemperature (F64 0) UnitCelsius, None)) as -> by reflexivity.
  set (v0 := unavailable e _ at_ (Esp32.en_ProbeIDs e).1). set (v1 := unavailable e _ at_ (Esp32.en_ProbeIDs e).2).
  destruct (stored_Set_two ctx v0 v1 u) as (r0 & r1 & Hs0 & Hs1 & Hk); [done|by apply validate_probe..|done|].
  destruct (state_Set ctx v0 u) as [[? ?] u0]. destruct (state_Set ctx v1 u0) as [[? ?] u1] eqn:E1. simpl in *.
  rewrite E1 in *. simpl in *. split; [|done]. repeat constructor; eexists; (split; [by eauto|done]).
Qed.

Definition probes (e : Esp32.Endpoint) : list SensorID := [(Esp32.en_ProbeIDs e).1; (Esp32.en_ProbeIDs e).2].

Definition has_quality (q : Quality) (p : SensorID) (u : U) : Prop :=
  ∃ v, stored u (probe_key p) = Some v ∧ sv_Quality v = q.

Lemma ESP32Failure_stored ctx e active reason at_ c u ruleID :
  ctx_Err ctx = None → endpoint_ok e → at_ ≠ 0 → cd_espRules c !! Esp32.en_ID e = Some ruleID →
  ∃ u', (Coordinator_ESP32Failure ctx e active reason at_ c u).2 = (c, u')
    ∧ if active then Forall (fun p => has_quality QualityUnavailable p u') (probes e)
      else ∀ k, stored u' k = stored u k.
Proof.
  intros Hctx He Hat Hr. unfold Coordinator_ESP32Failure. rewrite Hr.
  pose proof (mark_unavailable_stored ctx e at_ u Hctx He Hat) as [Hu _].
  destruct active.
  - destruct (mark_unavailable ctx e at_ u) as [errs u1]. simpl in Hu.
    pose proof (stored_Observe ctx (observation ruleID true at_ reason "ESP32 node or probe condition") u1) as Ho.
    destruct (engine_Observe ctx _ u1) as [[[al tr] err] u2]. simpl in *. exists u2. split; [done|].
    unfold probes, has_quality. eapply Forall_impl; [exact Hu|]. intros p (v & Hv & Hq). exists v. by rewrite Ho.
  - pose proof (stored_Observe ctx (observation ruleID false at_ reason "ESP32 node or probe condition") u) as Ho.
    destruct (engine_Observe ctx _ u) as [[[al tr] err] u2]. simpl in *. by exists u2.
Qed.

(** The value the coordinator stores for a probe of a snapshot. *)
Definition probe_value (e : Esp32.Endpoint) (observedAt now : Time) (q : Quality) (p : SensorID) (reading : option float64) :
    StateValue :=
  measurement_value (Esp32.en_ID e) (Esp32.measured e observedAt now q p reading).

Lemma probe_value_valid e observedAt now q p reading :
  endpoint_ok e → validateUUID p = None → validQuality q = true → observedAt ≠ 0 → now ≠ 0 →
  (∀ v, reading = Some v → IsNaN v = false ∧ IsInf v = false) →
  State.validate (probe_value e observedAt now q p reading) = None ↔ observedAt ≤ now.
Proof.
  intros [[Hid _] _ Hf] Hp Hq Ho Hn Hr. apply validate_probe; try done; destruct reading as [v|]; simpl; try done;
    by apply Hr.
Qed.

Lemma ReportESP32_state ctx id m c u :
  is_Some (cd_espEndpoints c !! id) →
  (Coordinator_ReportESP32 ctx id m c u).2 = (c, (state_Set ctx (measurement_value id m) u).2).
Proof.
  intros Hc. unfold Coordinator_ReportESP32. rewrite bool_decide_eq_true_2 by done. simpl.
  by destruct (state_Set ctx _ u) as [[v err] u1].
Qed.

Lemma report_all_state ctx id m0 m1 c u :
  is_Some (cd_espEndpoints c !! id) →
  Esp32.report_all ctx id [m0; m1] (c, u) =
    (c, (state_Set ctx (measurement_value id m1) (state_Set ctx (measurement_value id m0) u).2).2).
Proof.
  intros Hc. simpl.
  pose proof (ReportESP32_state ctx id m0 c u Hc) as H0.
  destruct (Coordinator_ReportESP32 ctx id m0 c u) as [err0 [c0 u0]]. simpl in H0. simplify_eq. simpl.
  pose proof (ReportESP32_state ctx id m1 c (state_Set ctx (measurement_value id m0) u).2 Hc) as H1.
  destruct (Coordinator_ReportESP32 ctx id m1 c _) as [err1 [c1 u1]]. simpl in H1. by simplify_eq.
Qed.

Lemma snapshot_quality_spec e observedAt now r0 r1 :
  let q := (Esp32.snapshot_quality e observedAt now r0 r1).1 in
  validQuality q = true
  ∧ (q = QualityGood ↔ Esp32.disagree e r0 r1 = false ∧ now < observedAt + Esp32.en_FreshFor e).
Proof.
  unfold Esp32.snapshot_quality, After, Add.
  destruct (Esp32.disagree e r0 r1), (Z.ltb_spec now (observedAt + Esp32.en_FreshFor e)); simpl;
    (split; [done|]); split; intros; try done; destruct_and?; try done; lia.
Qed.

Lemma readings_finite e snapshot r0 r1 v :
  Esp32.readings e snapshot = Some (r0, r1) → r0 = Some v ∨ r1 = Some v → IsNaN v = false ∧ IsInf v = false.
Proof.
  unfold Esp32.readings. destruct (Esp32.probes_by_id _ _) as [|byID]; [done|]. intros [= <- <-].
  intros [Hv|Hv]; by eapply Esp32.probe_reading_finite.
Qed.

(** A snapshot that is valid, in sequence and not ahead of the clock. *)
Definition taken (e : Esp32.Endpoint) (a : Esp32.Adapter) (now : Time) (snapshot : Esp32.SnapshotDTO) : Prop :=
  Esp32.snapshot_ok e snapshot now ∧ Esp32.accept_sequence e snapshot a = true
  ∧ Esp32.sd_ObservedAt snapshot ≤ now.

Context {C : Type} `{!Esp32.Client C} (render : error → string).
Context (ctx : Context) (e : Esp32.Endpoint) (now : Time) (c : Coordinator) (ruleID : RuleID).
Context (ctx_ok : ctx_Err ctx = None) (e_ok : Esp32.validateEndpoint e = None) (now_ok : now ≠ 0).
Context (known_rule : cd_espRules c !! Esp32.en_ID e = Some ruleID).
Context (known_endpoint : is_Some (cd_espEndpoints c !! Esp32.en_ID e)).

Definition answer (client : C) : error + Esp32.SnapshotDTO :=
  (Esp32.client_Snapshot ctx (Esp32.en_RequestTimeout e) (Esp32.en_BaseURL e) (Esp32.en_BearerToken e) client).1.

Definition after_poll (a : Esp32.Adapter) (client : C) (u : U) : U := (Esp32.poll render ctx now e a client (c, u)).2.2.

Lemma failed_poll_unavailable a client u :
  match answer client with
  | inl _ => True
  | inr snapshot => ¬ (Esp32.snapshot_ok e snapshot now ∧ Esp32.accept_sequence e snapshot a = true)
  end →
  Forall (fun p => has_quality QualityUnavailable p (after_poll a client u)) (probes e).
Proof.
  pose proof (validateEndpoint_ok e e_ok) as He. unfold answer, after_poll, Esp32.poll.
  destruct (Esp32.client_Snapshot _ _ _ _ client) as [[err|snapshot] client']; simpl; intros Hno.
  - unfold Esp32.fail. simpl.
    destruct (ESP32Failure_stored ctx e true "esp32.unreachable" now c u ruleID) as (u' & Hu & Hq); try done.
    destruct (Coordinator_ESP32Failure ctx e true _ _ c u) as [err2 s2]. simpl in *. by subst.
  - destruct (Esp32.validateSnapshot_cases e snapshot now a) as [(r0 & r1 & Hok & Hseq & _)|(_ & cond & err & _ & Hv)].
    { by destruct Hno. }
    unfold UTC. rewrite Hv. unfold Esp32.fail. simpl.
    destruct (ESP32Failure_stored ctx e true cond now c u ruleID) as (u' & Hu & Hq); try done.
    destruct (Coordinator_ESP32Failure ctx e true _ _ c u) as [err2 s2]. simpl in *. by subst.
Qed.

Lemma taken_poll_values a client u snapshot :
  answer client = inr snapshot → taken e a now snapshot →
  ∃ r0 r1 rev0 rev1, Esp32.readings e snapshot = Some (r0, r1)
    ∧ let q := (Esp32.snapshot_quality e (Esp32.sd_ObservedAt snapshot) now r0 r1).1 in
      stored (after_poll a client u) (probe_key (Esp32.en_ProbeIDs e).1) =
        Some (set_revision rev0 (probe_value e (Esp32.sd_ObservedAt snapshot) now q (Esp32.en_ProbeIDs e).1 r0))
      ∧ stored (after_poll a client u) (probe_key (Esp32.en_ProbeIDs e).2) =
        Some (set_revision rev1 (probe_value e (Esp32.sd_ObservedAt snapshot) now q (Esp32.en_ProbeIDs e).2 r1)).
Proof.
  pose proof (validateEndpoint_ok e e_ok) as He. unfold answer, after_poll, Esp32.poll.
  destruct (Esp32.client_Snapshot _ _ _ _ client) as [answered client']; simpl; intros -> (Hok & Hseq & Hle).
  destruct (Esp32.validateSnapshot_cases e snapshot now a) as [(r0 & r1 & _ & _ & Hr & Hv)|(Hno & _)]; [|by destruct Hno].
  destruct (snapshot_quality_spec e (Esp32.sd_ObservedAt snapshot) now r0 r1) as [Hvalid _].
  exists r0, r1. destruct (Esp32.snapshot_quality _ _ _ _ _) as [q condition]. simpl in *. unfold UTC. rewrite Hv.
  destruct (ESP32Failure_stored ctx e (negb (bool_decide (condition = ""))) condition now c u ruleID)
    as (u' & Hu & _); try done.
  destruct (Coordinator_ESP32Failure ctx e _ _ _ c u) as [err2 s2]. simpl in Hu. subst s2.
  rewrite report_all_state by done. simpl.
  destruct (stored_Set_two ctx (probe_value e (Esp32.sd_ObservedAt snapshot) now q (Esp32.en_ProbeIDs e).1 r0)
    (probe_value e (Esp32.sd_ObservedAt snapshot) now q (Esp32.en_ProbeIDs e).2 r1) u') as (rev0 & rev1 & H0 & H1 & _); try done.
  - apply probe_value_valid; try done; [apply He|apply Hok|]. intros v ->. by eapply readings_finite; eauto.
  - apply probe_value_valid; try done; [apply He|apply Hok|]. intros v ->. by eapply readings_finite; eauto.
  - by apply probe_keys_differ.
  - by exists rev0, rev1.
Qed.

Lemma not_good_unless p u (P : Prop) :
  Forall (fun p => has_quality QualityUnavailable p u) (probes e) → ¬ P → p ∈ probes e → (has_quality QualityGood p u ↔ P).
Proof.
  intros Hall Hp Hin. eapply Forall_forall in Hall as (v & Hv & Hq); [|done]. split; [|done].
  intros (v' & Hv' & Hq'). congruence.
Qed.

(** C15: after a poll, in a context that is not cancelled, of a valid node
    whose snapshot is not ahead of the clock, the canonical measurement of a
    probe is good exactly when the node answered a valid snapshot in sequence
    in which the probe has a finite valid reading, the two readings do not
    disagree beyond the maximum difference, and the snapshot is fresh. *)
Theorem probe_good_iff a client u p :
  (∀ snapshot, answer client = inr snapshot → Esp32.sd_ObservedAt snapshot ≤ now) → p ∈ probes e →
  has_quality QualityGood p (after_poll a client u) ↔
  ∃ snapshot r0 r1, answer client = inr snapshot ∧ taken e a now snapshot
    ∧ Esp32.readings e snapshot = Some (r0, r1)
    ∧ is_Some (if decide (p = (Esp32.en_ProbeIDs e).1) then r0 else r1)
    ∧ Esp32.disagree e r0 r1 = false ∧ now < Esp32.sd_ObservedAt snapshot + Esp32.en_FreshFor e.
Proof.
  intros Hskew Hp. destruct (validateEndpoint_ok e e_ok) as [_ (Hne & _) _].
  destruct (answer client) as [err|snapshot] eqn:Ha.
  { apply not_good_unless; [|by intros (? & ? & ? & ? & _)|done]. apply failed_poll_unavailable. by rewrite Ha. }
  specialize (Hskew snapshot eq_refl).
  destruct (Esp32.validateSnapshot_cases e snapshot now a) as [(r0 & r1 & Hok & Hseq & Hr & _)|(Hno & _)].
  2: { apply not_good_unless; [apply failed_poll_unavailable; by rewrite Ha| |done].
       intros (? & ? & ? & ? & (? & ? & _) & _). simplify_eq. by apply Hno. }
  destruct (taken_poll_values a client u snapshot Ha) as (r0' & r1' & rev0 & rev1 & Hr' & Hs0 & Hs1); [done|].
  simplify_eq. destruct (snapshot_quality_spec e (Esp32.sd_ObservedAt snapshot) now r0 r1) as [_ Hq].
  destruct (Esp32.snapshot_quality _ _ _ _ _) as [q condition]. simpl in *.
  trans (is_Some (if decide (p = (Esp32.en_ProbeIDs e).1) then r0 else r1) ∧ q = QualityGood).
  - unfold has_quality. unfold probes in Hp. rewrite !elem_of_cons, elem_of_nil in Hp.
    destruct Hp as [->|[->|[]]]; [rewrite decide_True, Hs0 by done|rewrite decide_False, Hs1 by done];
      [destruct r0|destruct r1]; simpl; (split; [intros (v & [= <-] & Hv); simpl in Hv|intros [[x Hx] Hv]]); try done; eauto.
  - rewrite Hq. split; [intros (? & ? & ?); exists snapshot, r0, r1; by split_and!|].
    intros (s' & ? & ? & ? & _ & ? & ? & ? & ?). by simplify_eq.
Qed.

(** A snapshot that is valid, in sequence and in agreement but observed ahead
    of the clock, within the tolerated skew, is accepted without any condition
    and clears the node's error, yet changes nothing in the canonical state.
    *)
Theorem skewed_snapshot_dropped a client u snapshot v0 v1 :
  answer client = inr snapshot → Esp32.snapshot_ok e snapshot now → Esp32.accept_sequence e snapshot a = true →
  Esp32.readings e snapshot = Some (Some v0, Some v1) → Esp32.disagree e (Some v0) (Some v1) = false →
  now < Esp32.sd_ObservedAt snapshot →
  (∀ k, stored (after_poll a client u) k = stored u k)
  ∧ Esp32.aa_errors (Esp32.poll render ctx now e a client (c, u)).1.1 !! Esp32.en_ID e = None.
Proof.
  intros Ha Hok Hseq Hr Hd Hlt. pose proof (validateEndpoint_ok e e_ok) as He. revert Ha.
  unfold answer, after_poll, Esp32.poll.
  destruct (Esp32.client_Snapshot _ _ _ _ client) as [answered client']; simpl. intros ->.
  destruct (Esp32.validateSnapshot_cases e snapshot now a) as [(r0 & r1 & _ & _ & Hr' & Hv)|(Hno & _)]; [|by destruct Hno].
  rewrite Hr in Hr'. injection Hr' as <- <-. unfold Esp32.snapshot_quality, After, Add in Hv. rewrite Hd in Hv.
  rewrite (proj2 (Z.ltb_lt _ _)) in Hv by (destruct He; lia). simpl in Hv. unfold UTC. rewrite Hv.
  destruct (ESP32Failure_stored ctx e false "" now c u ruleID) as (u' & Hu & Hq); try done.
  rewrite bool_decide_eq_true_2 by done. cbn [negb Esp32.ESP32Failure Coordinator_ESP32FailureSink fst snd].
  destruct (Coordinator_ESP32Failure ctx e false _ _ c u) as [err2 s2]. simpl in Hu. subst s2.
  rewrite report_all_state by done. simpl. split; [|by rewrite lookup_delete_eq].
  intros k. rewrite !stored_refused; [done|..]; intros Hvalid; apply probe_value_valid in Hvalid; try done; try lia;
    try apply He; try apply Hok; intros v [= <-]; eapply readings_finite; eauto.
Qed.
End store.
