(* ===== verification/Plant.v ===== *)
(** * The plant assembled

    The coordinator, the canonical store, the alarm manager, the command
    service with the safety engine as its policy and the Shelly adapter as its
    executor, as [internal/app/container.go] wires them: one world in which a
    failed poll, a safe command and its dispatch happen. The safety engine and
    the revision check read the store the coordinator writes. *)

From Stdlib Require Import ZArith Lia String SpecFloat.
From stdpp Require Import base gmap strings list pretty.
From S2P Require Import Prelude Domain Health Events State Equipment Safety Alarms Output Commands System.
From S2P Require Config Http Esp32 Shelly.
From S2P Require Import Bench.

(** The Shelly adapter with the devices behind its client. *)
Record ShellyUnit (C : Type) := mkShellyUnit { su_adapter : Shelly.Adapter; su_client : C }.
Arguments mkShellyUnit {C}.
Arguments su_adapter {C}.
Arguments su_client {C}.

Section unit.
Context {C : Type} `{!Shelly.Client C, !Shelly.Clock C}.

Definition on_client {R} (f : C → R * C) (x : ShellyUnit C) : R * ShellyUnit C :=
  let '(r, c) := f (su_client x) in (r, mkShellyUnit (su_adapter x) c).

#[export] Instance Unit_Holds : Shelly.Holds Shelly.Adapter (ShellyUnit C) :=
  {| Shelly.part := su_adapter; Shelly.with_part := fun a x => mkShellyUnit a (su_client x);
     Shelly.part_with_part := fun _ _ => eq_refl |}.
#[export] Instance Unit_Client : Shelly.Client (ShellyUnit C) := {|
  Shelly.GetSwitchStatus := fun ctx d url ch => on_client (Shelly.GetSwitchStatus ctx d url ch);
  Shelly.GetSwitchConfig := fun ctx d url ch => on_client (Shelly.GetSwitchConfig ctx d url ch);
  Shelly.SetSwitch := fun ctx d url ch on => on_client (Shelly.SetSwitch ctx d url ch on)
|}.
#[export] Instance Unit_Clock : Shelly.Clock (ShellyUnit C) :=
  {| Shelly.clock_Now := on_client Shelly.clock_Now; Shelly.context_Err := fun ctx x => Shelly.context_Err ctx (su_client x) |}.
#[export] Instance Unit_Executor : Executor (ShellyUnit C) := {| Dispatch := Shelly.Adapter_Dispatch |}.
End unit.

Section plant.
Context {C W : Type} `{!Shelly.Client C, !Shelly.Clock C, !Publisher W, !JSON}.
Context `{!Marshaler StateValue, !Marshaler Alarm, !Marshaler Result}.
(** What the clocks and generators return at each call; [lag] is how many
    updates subscribers have taken while one is delivered. *)
Context (clock : nat → Time) (factory : nat → FactoryEnv) (lag : nat → Z → nat) (observing : nat → ObserveEnv).
Context (now : nat → Time) (newCommandID : nat → CommandID * option error).
Context (newCorrelationID : nat → CorrelationID * option error) (commandFactory : nat → FactoryEnv).

Abbreviation CommandService := (@Service SafetyPolicy (StateManager * Time) (ShellyUnit C) W).

Record Plant := mkPlant {
  pl_state : StateManager;
  pl_publisher : option W;
  pl_alarms : @AlarmManager W;
  pl_service : CommandService;
  pl_tick : nat
}.

(** The service reads the store as it is now. *)
Definition reads_store (p : Plant) : CommandService :=
  let s := pl_service p in
  let policy := sv_policy s in
  let time := clock (pl_tick p) in
  mkService (sv_results s) (sv_idempotency s)
    (mkSafetyPolicy (sp_engine policy) (pl_state p) time (sp_order policy)) (pl_state p, time)
    (sv_executor s) (sv_publisher s) (sv_started s) (sv_tick s).

Definition with_service (s : CommandService) (p : Plant) : Plant :=
  mkPlant (pl_state p) (pl_publisher p) (pl_alarms p) s (S (pl_tick p)).

Definition on_service {R} (f : CommandService → R * CommandService) (p : Plant) : R * Plant :=
  let '(r, s) := f (reads_store p) in (r, with_service s p).

#[export] Instance Plant_StateWriter : StateWriter Plant := {|
  state_Set := fun ctx v p =>
    let t := pl_tick p in
    let '(m, w, r) := StateManager_Set (factory t) ctx (clock t) (lag t) v (pl_state p) (pl_publisher p) in
    (r, mkPlant m w (pl_alarms p) (pl_service p) (S t))
|}.
#[export] Instance Plant_AlarmEngine : AlarmEngine Plant := {|
  engine_RegisterRule := fun ctx rule p =>
    let '(m, err) := RegisterRule ctx rule (pl_alarms p) in
    (err, mkPlant (pl_state p) (pl_publisher p) m (pl_service p) (pl_tick p));
  engine_Observe := fun ctx o p =>
    let '(m, r) := Observe (observing (pl_tick p)) ctx o (pl_alarms p) in
    (r, mkPlant (pl_state p) (pl_publisher p) m (pl_service p) (S (pl_tick p)))
|}.
#[export] Instance Plant_Commander : Commander Plant :=
  {| commander_Submit := fun ctx c => on_service (Submit now newCommandID newCorrelationID commandFactory ctx c) |}.
#[export] Instance Plant_CommandTracker : Shelly.CommandTracker (Coordinator * Plant) := {|
  Shelly.tracker_Reconcile := fun ctx id on at_ s =>
    let '(r, p) := on_service (Reconcile now commandFactory ctx id on at_) s.2 in (r, (s.1, p));
  Shelly.tracker_ExpireAcknowledged := fun ctx id reason at_ s =>
    let '(r, p) := on_service (ExpireAcknowledged now commandFactory ctx id reason at_) s.2 in (r, (s.1, p))
|}.

(** The adapter and its devices, inside the command service. *)
Definition on_unit {R} (f : ShellyUnit C → R * ShellyUnit C) (s : Coordinator * Plant) : R * (Coordinator * Plant) :=
  let '(r, x) := f (sv_executor (pl_service s.2)) in
  (r, (s.1, mkPlant (pl_state s.2) (pl_publisher s.2) (pl_alarms s.2) (set_executor x (pl_service s.2)) (pl_tick s.2))).

#[export] Instance Plant_Holds : Shelly.Holds Shelly.Adapter (Coordinator * Plant) := {|
  Shelly.part := fun s => su_adapter (sv_executor (pl_service s.2));
  Shelly.with_part := fun a s => (on_unit (fun x => (tt, mkShellyUnit a (su_client x))) s).2;
  Shelly.part_with_part := fun _ _ => eq_refl
|}.
#[export] Instance Plant_Client : Shelly.Client (Coordinator * Plant) := {|
  Shelly.GetSwitchStatus := fun ctx d url ch => on_unit (Shelly.GetSwitchStatus ctx d url ch);
  Shelly.GetSwitchConfig := fun ctx d url ch => on_unit (Shelly.GetSwitchConfig ctx d url ch);
  Shelly.SetSwitch := fun ctx d url ch on => on_unit (Shelly.SetSwitch ctx d url ch on)
|}.
#[export] Instance Plant_Clock : Shelly.Clock (Coordinator * Plant) := {|
  Shelly.clock_Now := on_unit Shelly.clock_Now;
  Shelly.context_Err := fun ctx s => Shelly.context_Err ctx (sv_executor (pl_service s.2))
|}.

(** ** The store's promises hold *)
Lemma deliverLocked_values taken snapshot m : m_values (deliverLocked taken snapshot m) = m_values m.
Proof. done. Qed.

#[export] Instance Plant_StateStore : StateStore Plant.
Proof.
  refine {| stored := fun p k => m_values (pl_state p) !! k |}.
  - intros ctx v p Hctx Hv. simpl. unfold StateManager_Set. rewrite Hctx, Hv.
    destruct (set_locked _ _ v (pl_state p)) as [v' m] eqn:Hset. unfold set_locked in Hset. injection Hset as Hv' Hm.
    exists (wrap_uint64 (m_revision (pl_state p) + 1)). intros k.
    assert (m_values m !! k = if decide (k = sv_Key v)
      then Some (set_revision (wrap_uint64 (m_revision (pl_state p) + 1)) v) else m_values (pl_state p) !! k) as Hk.
    { rewrite <- Hm, deliverLocked_values. simpl. rewrite clone_id. case_decide as Heq.
      - subst k. by rewrite lookup_insert_eq.
      - by rewrite lookup_insert_ne. }
    destruct (emit_with _ _ _ _ _ _ _ _) as [[err|] w]; exact Hk.
  - intros ctx v p k Hv. simpl. unfold StateManager_Set. destruct (ctx_Err ctx); [done|].
    by destruct (State.validate v).
Defined.

#[export] Instance Plant_AlarmsApart : AlarmsApart Plant.
Proof. constructor. intros ctx o p k. simpl. by destruct (Observe _ _ _ _). Defined.

(** ** A failed poll blocks what depends on its probes *)
Context {url_parser : Config.URLParser} {url_writer : Http.URLWriter}.
Context {N : Type} `{!Esp32.Client N} (render : error → string).

(** Polling a node touches the store and the alarms only. *)
Lemma Set_keeps_service ctx v (p : Plant) : pl_service (state_Set ctx v p).2 = pl_service p.
Proof. simpl. by destruct (StateManager_Set _ _ _ _ _ _ _) as [[? ?] ?]. Qed.

Lemma Observe_keeps_service ctx o (p : Plant) : pl_service (engine_Observe ctx o p).2 = pl_service p.
Proof. simpl. by destruct (Observe _ _ _ _). Qed.

Lemma mark_unavailable_keeps_service ctx e at_ (p : Plant) :
  pl_service (mark_unavailable ctx e at_ p).2 = pl_service p.
Proof.
  unfold mark_unavailable. destruct (NewQuantity _ _ _) as [q [err|]]; [done|].
  pose proof (Set_keeps_service ctx (unavailable e q at_ (Esp32.en_ProbeIDs e).1) p) as Hs0.
  destruct (state_Set ctx _ p) as [[? ?] p1].
  pose proof (Set_keeps_service ctx (unavailable e q at_ (Esp32.en_ProbeIDs e).2) p1) as Hs1.
  destruct (state_Set ctx _ p1) as [[? ?] p2]. simpl in *. congruence.
Qed.

Lemma ESP32Failure_keeps_service ctx e active reason at_ c (p : Plant) :
  pl_service (Coordinator_ESP32Failure ctx e active reason at_ c p).2.2 = pl_service p.
Proof.
  unfold Coordinator_ESP32Failure. destruct (cd_espRules c !! _) as [r|]; [|done].
  assert (pl_service (if active then mark_unavailable ctx e at_ p else ([], p)).2 = pl_service p) as Hm
    by (destruct active; [apply mark_unavailable_keeps_service|done]).
  destruct (if active then _ else _) as [errs p1].
  pose proof (Observe_keeps_service ctx (observation r active at_ reason "ESP32 node or probe condition") p1) as Ho.
  destruct (engine_Observe ctx _ p1) as [[[? ?] ?] p2]. simpl in *. congruence.
Qed.

Lemma report_all_keeps_service ctx id ms c (p : Plant) :
  pl_service (Esp32.report_all ctx id ms (c, p)).2 = pl_service p.
Proof.
  revert c p. induction ms as [|m ms IH]; intros c p; [done|].
  cbn [Esp32.report_all Esp32.ReportESP32 Coordinator_MeasurementSink fst snd].
  unfold Coordinator_ReportESP32. destruct (negb _); [by rewrite IH|].
  pose proof (Set_keeps_service ctx (measurement_value id m) p) as Hs.
  destruct (state_Set ctx _ p) as [[? ?] p1]. by rewrite IH.
Qed.

Lemma poll_keeps_service ctx at_ e a (client : N) c (p : Plant) :
  pl_service (Esp32.poll render ctx at_ e a client (c, p)).2.2 = pl_service p.
Proof.
  unfold Esp32.poll, Esp32.fail. destruct (Esp32.client_Snapshot _ _ _ _ client) as [[err|snapshot] client'].
  { cbn [Esp32.ESP32Failure Coordinator_ESP32FailureSink fst snd].
    pose proof (ESP32Failure_keeps_service ctx e true "esp32.unreachable" (UTC at_) c p) as Hf.
    by destruct (Coordinator_ESP32Failure _ _ _ _ _ _ _) as [? [? ?]]. }
  destruct (Esp32.validateSnapshot e snapshot (UTC at_) a) as [[[ms cond] [err|]] a'];
    cbn [Esp32.ESP32Failure Coordinator_ESP32FailureSink fst snd].
  - pose proof (ESP32Failure_keeps_service ctx e true cond (UTC at_) c p) as Hf.
    by destruct (Coordinator_ESP32Failure _ _ _ _ _ _ _) as [? [? ?]].
  - pose proof (ESP32Failure_keeps_service ctx e (negb (bool_decide (cond = ""))) cond (UTC at_) c p) as Hf.
    destruct (Coordinator_ESP32Failure _ _ _ _ _ _ _) as [? [c2 p2]]. simpl in *. by rewrite report_all_keeps_service.
Qed.

(** A submission that the policy would deny leaves the executor alone. *)
Lemma denied_not_dispatched ctx command (p : Plant) profile probe v :
  e_profiles (sp_engine (sv_policy (pl_service p))) !! c_EquipmentID command = Some profile →
  p_Hazardous profile = true → mkInputRequirement (probe_key probe) None ∈ p_RequiredInputs profile →
  stored p (probe_key probe) = Some v → sv_Quality v ≠ QualityGood → c_On command = true →
  sv_executor (pl_service (commander_Submit ctx command p).2) = sv_executor (pl_service p).
Proof.
  intros Hprofile Hhaz Hin Hv Hq Hon. simpl. unfold on_service.
  pose proof (Submit_outcome now newCommandID newCorrelationID commandFactory ctx command (reads_store p)) as Ho.
  destruct (Submit _ _ _ _ ctx command (reads_store p)) as [[r err] s']. simpl.
  destruct Ho as [(_ & _ & Hx & _)|(cmd & k & [Hf _ _] & Hval & _ & _ & Ho)]; [done|].
  destruct Ho as [err' _ _ Hx|r' err' _ Hx _|r' err' _ _ [_ _ (d & p' & Hpol & Hallow)] _]; [done..|].
  exfalso. simpl in Hpol. destruct (Evaluate ctx _ _ _ _) as [e' d'] eqn:He. simplify_eq/=.
  assert (c_EquipmentID cmd = c_EquipmentID command ∧ c_On cmd = c_On command) as [Hid Hcon] by (by rewrite Hf).
  destruct (Evaluate_allowed_profile ctx (clock (pl_tick p)) (pl_state p, clock (pl_tick p))
    (mkIntent (c_EquipmentID cmd) (c_On cmd) (c_IssuedAt cmd)) (sp_engine (sv_policy (pl_service p))) d)
    as (profile' & Hp & Hsafe); [by rewrite He|done|by apply valid_issued|].
  simpl in *. rewrite Hid, Hprofile in Hp. injection Hp as <-. destruct (Hsafe ltac:(congruence)) as [[_ _ _ _ Hinputs] _].
  specialize (Hinputs Hhaz). eapply Forall_forall in Hinputs; [|exact Hin].
  apply input_satisfied_held in Hinputs as (v' & Hv' & Hq' & _). simpl in Hv'. simpl in Hv. congruence.
Qed.

(** C4: after a poll, in a context that is not cancelled, of a valid ESP32
    node that answers no snapshot, or one that is invalid or out of sequence,
    a command to switch on hazardous equipment that requires one of the node's
    probes never reaches the Shelly adapter: submitting it, in any context,
    leaves adapter and devices as they were. *)
Theorem failed_poll_blocks_dependents ctx e at_ c ruleID a (client : N) (p : Plant) profile probe ctx' command :
  ctx_Err ctx = None → Esp32.validateEndpoint e = None → at_ ≠ 0 →
  cd_espRules c !! Esp32.en_ID e = Some ruleID →
  match answer ctx e client with
  | inl _ => True
  | inr snapshot => ¬ (Esp32.snapshot_ok e snapshot at_ ∧ Esp32.accept_sequence e snapshot a = true)
  end →
  e_profiles (sp_engine (sv_policy (pl_service p))) !! c_EquipmentID command = Some profile →
  p_Hazardous profile = true → probe ∈ probes e →
  mkInputRequirement (probe_key probe) None ∈ p_RequiredInputs profile → c_On command = true →
  let p' := (Esp32.poll render ctx at_ e a client (c, p)).2.2 in
  sv_executor (pl_service (commander_Submit ctx' command p').2) = sv_executor (pl_service p').
Proof.
  intros Hctx He Hat Hr Hno Hprofile Hhaz Hprobe Hin Hon p'.
  pose proof (failed_poll_unavailable render ctx e at_ c ruleID Hctx He Hat Hr a client p Hno) as Hall.
  eapply Forall_forall in Hall as (v & Hv & Hq); [|exact Hprobe].
  eapply denied_not_dispatched; [|done..|by rewrite Hq|done].
  subst p'. by rewrite poll_keeps_service.
Qed.
End plant.
