(* ===== verification/PlantResponse.v ===== *)
(** * The plant answers power that nobody asked for

    What the assembled plant of [Plant] does when a switch reports a state that
    was not commanded, for instance after a restart of the controller or a press
    of the button on the device. *)

From Stdlib Require Import ZArith Lia String SpecFloat.
From stdpp Require Import base gmap strings list pretty.
From S2P Require Import Prelude Domain Health Events State Equipment Safety Alarms Output Commands System.
From S2P Require Config Http Esp32 Shelly MqttClient.
From S2P Require Import Bench Plant.

(** ** The safe command is valid *)
Lemma string_length_app s t : String.length (s +:+ t) = (String.length s + String.length t)%nat.
Proof. induction s as [|c s IH]; [done|]. change (String c s +:+ t) with (String c (s +:+ t)). cbn. lia. Qed.

Lemma length_pretty_N_go k x s : (x < 10 ^ N.of_nat k)%N → (String.length (pretty_N_go x s) ≤ k + String.length s)%nat.
Proof.
  revert x s. induction k as [|k IH]; intros x s Hx.
  { replace x with 0%N by (cbn in Hx; lia). rewrite pretty_N_go_0. lia. }
  destruct (decide (x = 0%N)) as [->|Hne]; [rewrite pretty_N_go_0; lia|].
  rewrite pretty_N_go_step by lia. etrans; [apply IH|cbn; lia].
  apply N.Div0.div_lt_upper_bound. rewrite Nat2N.inj_succ, N.pow_succ_r' in Hx. lia.
Qed.

Lemma length_pretty_pos p : Z.pos p < 10 ^ 19 → (String.length (pretty (N.pos p)) ≤ 19)%nat.
Proof.
  intros Hp. unfold pretty, pretty_N. rewrite decide_False by done.
  etrans; [apply (length_pretty_N_go 19)|cbn; lia].
  apply N2Z.inj_lt. rewrite N2Z.inj_pow. exact Hp.
Qed.
Lemma length_pretty_Z z : - 10 ^ 19 < z < 10 ^ 19 → (String.length (pretty z) ≤ 20)%nat.
Proof.
  intros Hz. destruct z as [|p|p]; [cbn; lia|..].
  - pose proof (length_pretty_pos p ltac:(lia)). change (pretty (Z.pos p)) with (pretty (N.pos p)). lia.
  - pose proof (length_pretty_pos p ltac:(lia)).
    change (pretty (Z.neg p)) with ("-" +:+ pretty (N.pos p)). rewrite string_length_app. cbn [String.length]. lia.
Qed.

Lemma validateUUID_length id : validateUUID id = None → String.length id = 36%nat.
Proof.
  rewrite <- length_bytes_of. unfold validateUUID. intros Hv. case_bool_decide; [done|]. by simpl in Hv.
Qed.

Definition completed (id : CommandID) (corr : CorrelationID) (c : Command) : Command :=
  with_correlation corr (with_id id c).

Lemma safe_command_valid e at_ id corr :
  validateUUID (Shelly.se_ID e) = None → validateUUID (Shelly.se_EquipmentID e) = None → 0 < at_ →
  0 < Shelly.se_RequestTimeout e → 2 * Shelly.se_RequestTimeout e ≤ max_int64 →
  validateUUID id = None → validateUUID corr = None →
  validateCommand (completed id corr (safe_command e at_)) = None.
Proof.
  intros He Hq Hat Ht Hmax Hid Hcorr. unfold validateCommand. cbn -[String.append pretty String.length].
  rewrite Hid, Hcorr, Hq.
  rewrite (wrap_int64_id (2 * _)) by (unfold in_int64, min_int64, max_int64 in *; lia).
  rewrite bool_decide_eq_false_2 by done.
  pose proof (length_pretty_Z (MqttClient.UnixNano at_)) as Hl.
  pose proof (wrap_int64_range (at_ - 62135596800 * 10 ^ 9)) as Hr. fold (MqttClient.UnixNano at_) in Hr.
  rewrite !string_length_app, (validateUUID_length _ He).
  destruct (Z.ltb_spec 128 (Z.of_nat (String.length "adapter-failure/" + (36 + (String.length "/" + String.length (pretty (MqttClient.UnixNano at_))))))) as [Hlt|_].
  { specialize (Hl ltac:(unfold in_int64, min_int64, max_int64 in *; lia)). cbn in Hlt. lia. }
  cbn. unfold IsZero, Add, After. destruct (Z.eqb_spec at_ 0), (Z.eqb_spec (at_ + 2 * Shelly.se_RequestTimeout e) 0),
    (Z.ltb_spec at_ (at_ + 2 * Shelly.se_RequestTimeout e)); try lia. done.
Qed.

Section response.
Context {C W : Type} `{!Shelly.Client C, !Shelly.Clock C, !Publisher W, !JSON}.
Context `{!Marshaler StateValue, !Marshaler Alarm, !Marshaler Result}.
Context (clock : nat → Time) (factory : nat → FactoryEnv) (lag : nat → Z → nat) (observing : nat → ObserveEnv).
Context (now : nat → Time) (newCommandID : nat → CommandID * option error).
Context (newCorrelationID : nat → CorrelationID * option error) (commandFactory : nat → FactoryEnv).
Context (render : error → string) (quote : string → string).

Abbreviation Plant := (@Plant C W).
#[local] Instance writer : StateWriter Plant := Plant_StateWriter clock factory lag.
#[local] Instance alarming : AlarmEngine Plant := Plant_AlarmEngine observing.
#[local] Instance commander : Commander Plant := Plant_Commander clock now newCommandID newCorrelationID commandFactory.
#[local] Instance tracking : Shelly.CommandTracker (Coordinator * Plant) := Plant_CommandTracker clock now commandFactory.

(** The bus accepts valid events, valid values and results with dates that JSON
    can write are encoded, clocks run, and identifiers can be drawn. *)
Definition value_dates (v : StateValue) : Prop := json_date (sv_ObservedAt v) ∧ json_date (sv_ReceivedAt v).
Context (ctx : Context) (Hctx : ctx_Err ctx = None) (Huncorrelated : ctx_CorrelationID ctx = "").
Context (accepts : ∀ event w, Event_Validate event = None → (Publish ctx event w).1 = None).
Context (marshals_value : ∀ v : StateValue, State.validate v = None → value_dates v → ∃ text, json_Marshal v = inr text).
Context (marshals_result : ∀ r : Result, result_dates r → ∃ text, json_Marshal r = inr text).
Context (device_clock : ∀ c : C, json_date (Shelly.clock_Now c).1).
Context (factory_clock : ∀ k, fe_now (factory k) ≠ 0).
Context (factory_fresh : ∀ k, ∃ id, fe_fresh (factory k) = (id, None) ∧ validateUUID id = None).
Context (command_clock : ∀ k, fe_now (commandFactory k) ≠ 0).
Context (command_ids : ∀ k, ∃ id, newCommandID k = (id, None) ∧ validateUUID id = None).
Context (correlation_ids : ∀ k, ∃ id, newCorrelationID k = (id, None) ∧ validateUUID id = None).

(** *** Reports are recorded *)
Lemma plant_Set_accepted v (p : Plant) : State.validate v = None → value_dates v → (state_Set ctx v p).1.2 = None.
Proof.
  intros Hv Hdates. cbn. unfold StateManager_Set. rewrite Hctx, Hv.
  destruct (set_locked _ _ v (pl_state p)) as [v' m] eqn:Hset.
  assert (State.validate v' = None ∧ value_dates v') as [Hv' Hdates'].
  { unfold set_locked in Hset. rewrite clone_id in Hset. by simplify_eq. }
  unfold emit_with. destruct (pl_publisher p) as [w|]; [|done].
  unfold Factory_New. destruct (marshals_value v' Hv' Hdates') as [text Ht], (factory_fresh (pl_tick p)) as (id & Hf & Hid).
  rewrite Ht, Huncorrelated, Hf. cbn [bool_decide].
  rewrite bool_decide_eq_true_2 by done. cbn iota beta.
  assert (Event_Validate (mkEvent (UTC (fe_now (factory (pl_tick p)))) "state" StateChanged SeverityInfo text id) = None) as He.
  { apply Event_Validate_spec. split_and!; try done; [apply factory_clock|exact (json_Marshal_valid _ _ Ht)]. }
  rewrite He. specialize (accepts _ w He). by destruct (Publish ctx _ w) as [[] w'].
Qed.

Lemma set_all_accepted vs (p : Plant) :
  Forall (fun v => State.validate v = None ∧ value_dates v) vs →
  (set_all ctx vs p).1 = None ∧ pl_service (set_all ctx vs p).2 = pl_service p.
Proof.
  revert p. induction vs as [|v vs IH]; intros p; [done|]. intros [[Hv Hd] Hvs]%Forall_cons. cbn [set_all].
  pose proof (plant_Set_accepted v p Hv Hd) as Hnone. pose proof (Set_keeps_service clock factory lag ctx v p) as Hs.
  destruct (state_Set ctx v p) as [[r err] p']. cbn in Hnone. subst err. destruct (IH p' Hvs) as [He Hp].
  split; [done|]. rewrite Hp. exact Hs.
Qed.

Definition finite (f : float64) : Prop := IsNaN f = false ∧ IsInf f = false.

Lemma reported_value_valid report freshFor item :
  validateUUID (Shelly.rp_EquipmentID report) = None → validateUUID (Shelly.rp_EndpointID report) = None →
  0 < Shelly.rp_ObservedAt report → 0 < freshFor → item.1 ≠ "" → Value_Validate item.2 = None →
  State.validate (reported_value report freshFor item) = None.
Proof.
  intros Hq He Ht Hf Hi Hv. unfold State.validate. cbn. rewrite Hq, He, Hv.
  rewrite (bool_decide_eq_false_2 (item.1 = "")) by done. cbn. unfold IsZero, After.
  destruct (Z.eqb_spec (Shelly.rp_ObservedAt report) 0), (Z.ltb_spec (Shelly.rp_ObservedAt report) (Shelly.rp_ObservedAt report)),
    (Z.leb_spec freshFor 0); cbn; try lia; done.
Qed.

(** *** The safe command reaches the switch *)
Abbreviation Submit := (Submit now newCommandID newCorrelationID commandFactory).

Lemma Submit_completes c (s : @Service SafetyPolicy (StateManager * Time) (ShellyUnit C) W) id corr :
  c_ID c = "" → c_CorrelationID c = "" → newCommandID (sv_tick s) = (id, None) →
  newCorrelationID (S (sv_tick s)) = (corr, None) → validateUUID id = None → validateUUID corr = None →
  Submit ctx c s = Submit ctx (completed id corr c) (tick (tick s)).
Proof.
  intros Hid Hcorr Hn Hc Hv Hv'. unfold Output.Submit.
  assert (Submit_check newCommandID newCorrelationID ctx c s
    = Submit_check newCommandID newCorrelationID ctx (completed id corr c) (tick (tick s))) as ->; [|done].
  unfold Submit_check. rewrite Hctx, Hid. rewrite !bool_decide_eq_true_2 by done. unfold read_commandID. rewrite Hn. cbn iota beta.
  cbn [with_id c_CorrelationID]. rewrite Hcorr, bool_decide_eq_true_2 by done.
  unfold read_correlationID. cbn [tick sv_tick]. rewrite Hc. cbn iota beta.
  rewrite !bool_decide_eq_false_2; [done|..]; unfold completed; cbn; by intros ->.
Qed.

(** The adapter dates what it acknowledges by the device's clock. *)
Lemma dispatch_dated d (x : ShellyUnit C) : json_date (ack_AcknowledgedAt (Dispatch ctx d x).1.1).
Proof.
  assert (json_date 0) as Hzero by (split; [done|reflexivity]).
  cbn. unfold Shelly.Adapter_Dispatch. destruct (Shelly.sa_endpoints _ !! _); [|exact Hzero].
  destruct (Shelly.setWithRetry _ _ _ _) as [[err|] x1]; [exact Hzero|]. cbn. unfold on_client.
  pose proof (device_clock (su_client x1)). by destruct (Shelly.clock_Now (su_client x1)).
Qed.

(** The readings of the service's clock during one submission. *)
Definition readable (s : @Service SafetyPolicy (StateManager * Time) (ShellyUnit C) W) : Prop :=
  ∀ k, (sv_tick s ≤ k < sv_tick s + 10)%nat → json_date (now k).

Definition answered (e : Shelly.Endpoint) (t : Time) (q q' : Plant) : Prop :=
  ∃ d, c_EquipmentID d = Shelly.se_EquipmentID e ∧ c_On d = false ∧ t < c_ExpiresAt d ∧ validateCommand d = None
    ∧ sv_executor (pl_service q') = (Shelly.Adapter_Dispatch ctx d (sv_executor (pl_service q))).2.

Lemma submit_safe e (q : Plant) t :
  validateUUID (Shelly.se_ID e) = None → validateUUID (Shelly.se_EquipmentID e) = None → 0 < t →
  0 < Shelly.se_RequestTimeout e → 2 * Shelly.se_RequestTimeout e ≤ max_int64 → Shelly.se_SafeOn e = false →
  is_Some (e_profiles (sp_engine (sv_policy (pl_service q))) !! Shelly.se_EquipmentID e) →
  sv_idempotency (pl_service q) !! c_IdempotencyKey (safe_command e t) = None →
  now (S (S (sv_tick (pl_service q)))) < t + 2 * Shelly.se_RequestTimeout e →
  json_date (t + 2 * Shelly.se_RequestTimeout e) → readable (pl_service q) →
  answered e t q (commander_Submit ctx (safe_command e t) q).2.
Proof.
  intros Hid Hq Ht Htimeout Hmax Hsafe [profile Hp] Hkey Hclock Hend Hread. cbn [commander_Submit commander Plant_Commander].
  unfold on_service. set (s := reads_store clock q).
  destruct (command_ids (sv_tick s)) as (id & Hn & Hvi), (correlation_ids (S (sv_tick s))) as (corr & Hc & Hvc).
  rewrite (Submit_completes (safe_command e t) s id corr) by done.
  set (d := completed id corr (safe_command e t)).
  assert (validateCommand d = None) as Hv by (by apply safe_command_valid).
  assert (c_ExpiresAt d = t + 2 * Shelly.se_RequestTimeout e) as Hexp.
  { cbn. unfold Add. rewrite wrap_int64_id; [done|]. unfold in_int64, min_int64, max_int64 in *. lia. }
  destruct (policy_Evaluate ctx (mkIntent (c_EquipmentID d) (c_On d) (c_IssuedAt d)) (sv_policy (tick (tick s)))) as [dec pol] eqn:Hpol.
  assert (dec = (allow, None)) as ->.
  { cbn in Hpol. pose proof (Evaluate_off_always_allowed ctx (clock (pl_tick q)) (pl_state q, clock (pl_tick q))
      (mkIntent (Shelly.se_EquipmentID e) (Shelly.se_SafeOn e) t) (sp_engine (sv_policy (pl_service q))) Hctx Hsafe
      ltac:(by eexists)) as Hoff.
    destruct (Evaluate _ _ _ _ _). cbn in Hoff. by simplify_eq/=. }
  pose proof (Submit_reaches_executor now newCommandID newCorrelationID commandFactory ctx marshals_result dispatch_dated command_clock accepts
    d (tick (tick s)) allow pol Hctx Hv eq_refl Hkey) as Hs.
  destruct (Submit ctx d (tick (tick s))) as [[r err] s'].
  destruct Hs as (_ & Hx & _); [rewrite Hexp; exact Hclock| | |done|done|].
  { split; [unfold json_date in *; cbn; lia|by rewrite Hexp]. }
  { intros k Hk. apply Hread. cbn in Hk. lia. }
  exists d. split_and!; try done. rewrite Hexp. lia.
Qed.

Lemma ShellyFailure_answers e c reason (q : Plant) t :
  is_Some (cd_shellyRules c !! Shelly.se_ID e) → default false (cd_shellyActive c !! Shelly.se_ID e) = false →
  validateUUID (Shelly.se_ID e) = None → validateUUID (Shelly.se_EquipmentID e) = None → 0 < t →
  0 < Shelly.se_RequestTimeout e → 2 * Shelly.se_RequestTimeout e ≤ max_int64 → Shelly.se_SafeOn e = false →
  is_Some (e_profiles (sp_engine (sv_policy (pl_service q))) !! Shelly.se_EquipmentID e) →
  sv_idempotency (pl_service q) !! c_IdempotencyKey (safe_command e t) = None →
  now (S (S (sv_tick (pl_service q)))) < t + 2 * Shelly.se_RequestTimeout e →
  json_date (t + 2 * Shelly.se_RequestTimeout e) → readable (pl_service q) →
  answered e t q (Coordinator_ShellyFailure ctx e true reason t c q).2.2.
Proof.
  intros [rule Hrule] Hcalm Hid Hq Ht Htimeout Hmax Hsafe Hp Hkey Hclock Hend Hread. unfold Coordinator_ShellyFailure. rewrite Hrule.
  set (o := observation rule true t reason _).
  pose proof (Observe_keeps_service observing ctx o q) as Ho.
  destruct (engine_Observe ctx o q) as [[[a tr] aerr] q1]. cbn in Ho. rewrite Hcalm. cbn [negb orb].
  rewrite <- Ho in Hp, Hkey, Hclock, Hread.
  pose proof (submit_safe e q1 t Hid Hq Ht Htimeout Hmax Hsafe Hp Hkey Hclock Hend Hread) as (d & Hd & Hon & Hexp & Hv & Hx).
  destruct (commander_Submit ctx (safe_command e t) q1) as [[r err] q2]. exists d. rewrite Ho in Hx. by split_and!.
Qed.

(** A failure of the switch is already active. *)
Definition failing_already (e : Shelly.Endpoint) (c : Coordinator) : bool := default false (cd_shellyActive c !! Shelly.se_ID e).

(** While it is, another failure changes nothing in the switch or its adapter. *)
Lemma ShellyFailure_repeated e c reason (q : Plant) t :
  is_Some (cd_shellyRules c !! Shelly.se_ID e) → failing_already e c = true →
  sv_executor (pl_service (Coordinator_ShellyFailure ctx e true reason t c q).2.2) = sv_executor (pl_service q).
Proof.
  intros [rule Hrule] Hactive. unfold failing_already in Hactive. unfold Coordinator_ShellyFailure. rewrite Hrule.
  set (o := observation rule true t reason _). pose proof (Observe_keeps_service observing ctx o q) as Ho.
  destruct (engine_Observe ctx o q) as [[[a tr] aerr] q1]. cbn in Ho. rewrite Hactive. cbn. by rewrite Ho.
Qed.

(** The switch answers, is as the controller wants it configured, reports no
    errors and shows power, while the controller wants it off, which is its
    safe state, and no command is pending for it. Its endpoint and rule are
    known and well-formed, the engine has a profile of it, the key of the safe
    command is new, and the clock reads less than the command's deadline when
    the service looks at it. *)
Record diverging (e : Shelly.Endpoint) (c : Coordinator) (p : Plant) (status : Shelly.SwitchStatus) (t : Time)
    (client' : C) : Prop := {
  dv_known : cd_shellyEndpoints c !! Shelly.se_ID e = Some e;
  dv_rule : is_Some (cd_shellyRules c !! Shelly.se_ID e);
  dv_ids : validateUUID (Shelly.se_ID e) = None ∧ validateUUID (Shelly.se_EquipmentID e) = None;
  dv_timeout : 0 < Shelly.se_RequestTimeout e ∧ 2 * Shelly.se_RequestTimeout e ≤ max_int64;
  dv_interval : 0 < Shelly.se_PollInterval e ∧ 2 * Shelly.se_PollInterval e ≤ max_int64;
  dv_answers : ∃ config c1 c2,
    Shelly.GetSwitchConfig ctx (Shelly.se_RequestTimeout e) (Shelly.se_BaseURL e) (Shelly.se_Channel e)
      (su_client (sv_executor (pl_service p))) = (inr config, c1)
    ∧ Shelly.sc_InitialState config = Shelly.expected_initial_state e
    ∧ Shelly.GetSwitchStatus ctx (Shelly.se_RequestTimeout e) (Shelly.se_BaseURL e) (Shelly.se_Channel e) c1 = (inr status, c2)
    ∧ Shelly.clock_Now c2 = (t, client');
  dv_time : 0 < t;
  dv_power : finite (Shelly.ss_APower status) ∧ finite (Shelly.ss_Voltage status) ∧ finite (Shelly.ss_Current status);
  dv_errors : Shelly.ss_Errors status = [];
  dv_pending : Shelly.sa_pending (su_adapter (sv_executor (pl_service p))) !! Shelly.se_EquipmentID e = None;
  dv_desired : default false (Shelly.sa_desired (su_adapter (sv_executor (pl_service p))) !! Shelly.se_EquipmentID e) = false;
  dv_safe : Shelly.se_SafeOn e = false;
  dv_on : Shelly.ss_Output status = true;
  dv_profile : is_Some (e_profiles (sp_engine (sv_policy (pl_service p))) !! Shelly.se_EquipmentID e);
  dv_key : sv_idempotency (pl_service p) !! c_IdempotencyKey (safe_command e t) = None;
  dv_clock : now (S (S (sv_tick (pl_service p)))) < t + 2 * Shelly.se_RequestTimeout e;
  dv_dates : json_date (t + 2 * Shelly.se_RequestTimeout e) ∧ readable (pl_service p)
}.

(** The unit as the poll found it, with the failure of the last poll cleared. *)
Definition polled_unit (e : Shelly.Endpoint) (client' : C) (p : Plant) : ShellyUnit C :=
  mkShellyUnit (Shelly.setError (Shelly.se_ID e) "" (su_adapter (sv_executor (pl_service p)))) client'.


Lemma quantity_valid kind value unit :
  finite value → want_unit kind = Some unit → kind ≠ QuantityPH → kind ≠ QuantityLevel →
  NewQuantity kind value unit = (mkQuantity kind value unit, None) ∧ Value_Validate (NewQuantityValue (mkQuantity kind value unit)) = None.
Proof.
  intros [Hn Hi] Hu Hph Hl.
  assert (Quantity_Validate (mkQuantity kind value unit) = None) as Hv.
  { unfold Quantity_Validate. cbn [q_Value q_Kind q_Unit]. rewrite Hn, Hi, Hu. cbn [orb].
    rewrite (bool_decide_eq_false_2 (unit ≠ unit)) by (intros Hz; by apply Hz).
    by rewrite (bool_decide_eq_false_2 (kind = QuantityPH)), (bool_decide_eq_false_2 (kind = QuantityLevel)) by done. }
  split; [unfold NewQuantity; by rewrite Hv|exact Hv].
Qed.

Lemma report_quantities (report : Shelly.Report) :
  finite (Shelly.rp_APower report) → finite (Shelly.rp_Voltage report) → finite (Shelly.rp_Current report) →
  ∃ qs, quantity_values [("power", QuantityPower, UnitWatts, Shelly.rp_APower report);
      ("voltage", QuantityVoltage, UnitVolts, Shelly.rp_Voltage report);
      ("current", QuantityCurrent, UnitAmperes, Shelly.rp_Current report)] = inr qs
    ∧ Forall (fun item => item.1 ≠ "" ∧ Value_Validate item.2 = None) qs.
Proof.
  intros Hp Hv Hc. cbn [quantity_values].
  destruct (quantity_valid QuantityPower _ UnitWatts Hp) as [-> Hw1]; [done..|].
  destruct (quantity_valid QuantityVoltage _ UnitVolts Hv) as [-> Hw2]; [done..|].
  destruct (quantity_valid QuantityCurrent _ UnitAmperes Hc) as [-> Hw3]; [done..|].
  eexists. split; [done|]. by repeat constructor.
Qed.

(** The coordinator takes the report and finds the divergence. *)
Lemma ReportShelly_answers e c (p q : Plant) status t client' :
  diverging e c p status t client' →
  sv_policy (pl_service q) = sv_policy (pl_service p) → sv_idempotency (pl_service q) = sv_idempotency (pl_service p) →
  sv_tick (pl_service q) = sv_tick (pl_service p) → sv_executor (pl_service q) = polled_unit e client' p →
  let q' := (Coordinator_ReportShelly ctx (Shelly.report_of e status t (su_adapter (sv_executor (pl_service q)))) c q).2.2 in
  if failing_already e c then sv_executor (pl_service q') = sv_executor (pl_service q) else answered e t q q'.
Proof.
  cbn zeta. intros [] Hpol Hidem Htick Hx. destruct dv_ids0 as [Hid Hq], dv_timeout0 as [Ht1 Ht2], dv_interval0 as [Hi1 Hi2].
  unfold Coordinator_ReportShelly. set (report := Shelly.report_of e status t _).
  change (Shelly.rp_EndpointID report) with (Shelly.se_ID e). rewrite dv_known0.
  rewrite bool_decide_eq_true_2 by done. cbn [negb].
  destruct dv_power0 as (Hp & Hv & Hc). destruct (report_quantities report Hp Hv Hc) as (qs & -> & Hqs).
  rewrite wrap_int64_id by (unfold in_int64, min_int64, max_int64 in *; lia).
  destruct (set_all_accepted (reported_value report (Shelly.se_PollInterval e * 2) <$>
    ("on", NewBooleanValue (Shelly.rp_On report)) :: qs) q) as [He Hs].
  { apply Forall_fmap. assert (Forall (fun item => item.1 ≠ "" ∧ Value_Validate item.2 = None)
      (("on", NewBooleanValue (Shelly.rp_On report)) :: qs)) as Hall by (by constructor).
    eapply Forall_impl; [exact Hall|]. intros item [? ?]. split; [apply reported_value_valid; try done; lia|].
    destruct dv_dates0 as [Hend _]. unfold value_dates, json_date in *. cbn. lia. }
  destruct (set_all ctx _ q) as [err q1]. cbn [fst snd] in He, Hs. subst err.
  change (Shelly.rp_Errors report) with (Shelly.ss_Errors status). rewrite dv_errors0. cbn [bool_decide negb].
  rewrite bool_decide_eq_true_2 by done. cbn [negb].
  assert (Shelly.rp_Pending report = false) as ->.
  { cbn. rewrite Hx. cbn. rewrite dv_pending0. by apply bool_decide_eq_false_2, is_Some_None. }
  assert (default (Shelly.se_SafeOn e) (Shelly.rp_DesiredOn report) = false) as ->.
  { cbn. rewrite Hx. cbn. rewrite dv_safe0. exact dv_desired0. }
  change (Shelly.rp_On report) with (Shelly.ss_Output status). rewrite dv_on0. cbn [negb andb Bool.eqb].
  change (Shelly.rp_ObservedAt report) with t.
  destruct (failing_already e c) eqn:Hactive; [rewrite ShellyFailure_repeated by done; by rewrite Hs|].
  destruct (ShellyFailure_answers e c "shelly.reported_divergence" q1 t) as (d & Hd); try done.
  - by rewrite Hs, Hpol.
  - by rewrite Hs, Hidem.
  - by rewrite Hs, Htick.
  - apply dv_dates0.
  - destruct dv_dates0 as [_ Hread]. unfold readable in *. by rewrite Hs, Htick.
  - exists d. by rewrite Hs in Hd.
Qed.

(** The plant with another adapter and client. *)
Definition with_unit (x : ShellyUnit C) (p : Plant) : Plant :=
  mkPlant (pl_state p) (pl_publisher p) (pl_alarms p) (set_executor x (pl_service p)) (pl_tick p).

Lemma poll_diverging e c (p : Plant) status t client' :
  diverging e c p status t client' →
  let q := with_unit (polled_unit e client' p) p in
  Shelly.poll render quote ctx e (c, p) =
    Shelly.settle ctx e status t
      (Coordinator_ReportShelly ctx (Shelly.report_of e status t (su_adapter (sv_executor (pl_service q)))) c q).2.
Proof.
  intros [] q. destruct dv_answers0 as (config & c1 & c2 & Hc1 & Hinit & Hc2 & Hnow).
  set (unit_of (c' : C) := mkShellyUnit (su_adapter (sv_executor (pl_service p))) c').
  unfold Shelly.poll.
  assert (Shelly.GetSwitchConfig ctx (Shelly.se_RequestTimeout e) (Shelly.se_BaseURL e) (Shelly.se_Channel e) (c, p)
    = (inr config, (c, with_unit (unit_of c1) p))) as -> by (cbn; unfold on_unit; cbn; unfold on_client; by rewrite Hc1).
  rewrite bool_decide_eq_true_2 by done. cbn [negb].
  assert (Shelly.GetSwitchStatus ctx (Shelly.se_RequestTimeout e) (Shelly.se_BaseURL e) (Shelly.se_Channel e)
    (c, with_unit (unit_of c1) p) = (inr status, (c, with_unit (unit_of c2) p))) as ->
    by (cbn; unfold on_unit; cbn; unfold on_client; cbn; by rewrite Hc2).
  assert (Shelly.clock_Now (c, with_unit (unit_of c2) p) = (t, (c, with_unit (unit_of client') p))) as ->
    by (cbn; unfold on_unit; cbn; unfold on_client; cbn; by rewrite Hnow).
  change (Shelly.modify (Shelly.setError (Shelly.se_ID e) "") (c, with_unit (unit_of client') p)) with (c, q).
  cbn [Shelly.ReportShelly Coordinator_ReportedSink fst snd]. change (UTC t) with t.
  change (Shelly.part (c, q)) with (su_adapter (sv_executor (pl_service q))).
  by destruct (Coordinator_ReportShelly _ _ _ _) as [err w].
Qed.

(** The attempts to switch leave the adapter's tables alone. *)
Lemma retry_keeps_adapter attempts e on last (x : ShellyUnit C) :
  su_adapter (Shelly.retry_loop attempts ctx e on last x).2 = su_adapter x.
Proof.
  revert last x. induction attempts as [|k IH]; intros last x; [done|]. cbn [Shelly.retry_loop].
  cbn [Shelly.SetSwitch Unit_Client]. unfold on_client.
  destruct (Shelly.SetSwitch _ _ _ _ _ (su_client x)) as [[err|ok] c']; [|done].
  destruct (Shelly.context_Err ctx _); [done|]. by rewrite IH.
Qed.

Lemma dispatch_unit d e (x : ShellyUnit C) :
  Shelly.sa_endpoints (su_adapter x) !! c_EquipmentID d = Some e →
  let '(err, x1) := Shelly.setWithRetry ctx e (c_On d) x in
  su_adapter x1 = su_adapter x
  ∧ (Shelly.Adapter_Dispatch ctx d x).2 =
      match err with
      | Some _ => x1
      | None => mkShellyUnit (Shelly.remember d (su_adapter x)) (Shelly.clock_Now (su_client x1)).2
      end.
Proof.
  intros He. unfold Shelly.Adapter_Dispatch. change (Shelly.part x) with (su_adapter x). rewrite He.
  pose proof (retry_keeps_adapter (Z.to_nat (Shelly.se_Retries e + 1)) e (c_On d) None x) as Hk.
  unfold Shelly.setWithRetry in *. destruct (Shelly.retry_loop _ _ _ _ _ x) as [[err|] x1]; cbn in Hk; [done|].
  split; [done|]. cbn [Shelly.clock_Now Unit_Clock]. unfold on_client.
  destruct (Shelly.clock_Now (su_client x1)) as [t c']. cbn. by rewrite Hk.
Qed.

(** C5: a switch whose safe state is off, that shows power while the
    controller wants it off and no command is pending for it, and that reports
    no errors, is answered within the poll that sees it. Unless a failure of
    the switch is already active, in which case nothing is sent, the safe
    command passes the safety engine and the adapter sends it with its retries
    to the device as the poll left it; if the device accepts, the adapter
    wants the switch off from then on and waits for the report of it. This
    assumes that the poll's context is live and without a correlation, that
    the bus accepts valid events, that clocks read dates JSON can write and
    identifiers can be drawn, that the key of the safe command, which names
    the nanosecond of the poll, is new, and that the service looks at its
    clock before that command's deadline, twice the request timeout after the
    poll. *)
Theorem uncommanded_power_is_switched_off e c (p : Plant) status t client' :
  diverging e c p status t client' →
  Shelly.sa_endpoints (su_adapter (sv_executor (pl_service p))) !! Shelly.se_EquipmentID e = Some e →
  let x' := sv_executor (pl_service (Shelly.poll render quote ctx e (c, p)).2) in
  if failing_already e c then x' = polled_unit e client' p
  else
    let '(err, x) := Shelly.setWithRetry ctx e false (polled_unit e client' p) in
    match err with
    | Some _ => x' = x
    | None => su_client x' = (Shelly.clock_Now (su_client x)).2
        ∧ Shelly.sa_desired (su_adapter x') !! Shelly.se_EquipmentID e = Some false
        ∧ ∃ pending, Shelly.sa_pending (su_adapter x') !! Shelly.se_EquipmentID e = Some pending
            ∧ Shelly.pc_want pending = false
    end.
Proof.
  intros Hdv Hend. cbn zeta. rewrite (poll_diverging e c p status t client' Hdv).
  set (q := with_unit (polled_unit e client' p) p). cbn zeta.
  pose proof (ReportShelly_answers e c p q status t client' Hdv eq_refl eq_refl eq_refl eq_refl) as Hans. cbn zeta in Hans.
  destruct (Coordinator_ReportShelly ctx _ c q) as [rerr [c' q']]. cbn [snd] in *.
  change (sv_executor (pl_service q)) with (polled_unit e client' p) in Hans. destruct (failing_already e c).
  { unfold Shelly.settle. change (Shelly.part (c', q')) with (su_adapter (sv_executor (pl_service q'))). rewrite Hans.
    destruct Hdv. change (Shelly.sa_pending (su_adapter (polled_unit e client' p)))
      with (Shelly.sa_pending (su_adapter (sv_executor (pl_service p)))). by rewrite dv_pending0. }
  destruct Hans as (d & Hid & Hon & Hexp & _ & Hx). change (sv_executor (pl_service q)) with (polled_unit e client' p) in Hx.
  pose proof (dispatch_unit d e (polled_unit e client' p)) as Hd. rewrite Hid, Hon in Hd. specialize (Hd Hend).
  destruct (Shelly.setWithRetry ctx e false (polled_unit e client' p)) as [err x1]. destruct Hd as [Hkeep Hd].
  rewrite Hd in Hx. clear Hd. destruct Hdv. unfold Shelly.settle.
  change (Shelly.part (c', q')) with (su_adapter (sv_executor (pl_service q'))). rewrite Hx.
  destruct err as [err|].
  - rewrite Hkeep. change (Shelly.sa_pending (su_adapter (polled_unit e client' p)))
      with (Shelly.sa_pending (su_adapter (sv_executor (pl_service p)))). by rewrite dv_pending0.
  - unfold Shelly.remember. cbn [su_adapter Shelly.set_desired Shelly.set_pending Shelly.sa_pending].
    rewrite <- Hid, lookup_insert_eq. unfold Before. cbn [Shelly.pc_expiresAt Shelly.pc_want].
    destruct (Z.ltb_spec t (c_ExpiresAt d)); [|lia]. cbn [negb]. rewrite dv_on0, Hon. cbn [Bool.eqb].
    cbn [snd]. rewrite Hx. cbn. rewrite !lookup_insert_eq. split_and!; [done|by f_equal|]. eexists. split; [done|exact Hon].
Qed.
End response.
