(* ===== verification/HomeRegistry.v ===== *)
(** * Reading Home Assistant's registries: [integrations/homeassistant/registry.go]

    The WebSocket dialogue of [RegistryClient.Devices] over a connection given
    as a class, and the merge of the three lists it reads. *)

From Stdlib Require Import ZArith Lia String.
From stdpp Require Import base gmap strings list pretty.
From S2P Require Import Prelude Config.

(** ** Data *)
Record RegistryEntity := mkRegistryEntity {
  re_EntityID : string; re_Name : string; re_Platform : string; re_DeviceClass : string; re_Unit : string;
  re_State : string; re_Disabled : bool
}.

Record RegistryDevice := mkRegistryDevice {
  rd_ID : string; rd_Name : string; rd_Manufacturer : string; rd_Model : string; rd_Firmware : string;
  rd_AreaID : string; rd_ConfigurationURL : string; rd_Entities : list RegistryEntity
}.

(** The wire forms. *)
Record registryDevice := mkWireDevice {
  wd_ID : string; wd_Name : string; wd_NameByUser : string; wd_Manufacturer : string; wd_Model : string;
  wd_SWVersion : string; wd_AreaID : string; wd_ConfigurationURL : string
}.

Record registryEntity := mkWireEntity {
  we_EntityID : string; we_DeviceID : string; we_Name : string; we_OriginalName : string;
  we_Platform : string; we_DisabledBy : string
}.

(** An attribute is a text or something a type assertion to [string] refuses. *)
Inductive Attribute := AttributeText (s : string) | AttributeOther.

Record registryState := mkWireState {
  ws_EntityID : string; ws_State : string; ws_Attributes : gmap string Attribute
}.

Definition zero_state : registryState := mkWireState "" "" ∅.

(** [state.Attributes[name].(string)] with the empty text for a failed one. *)
Definition text_attribute (name : string) (s : registryState) : string :=
  match ws_Attributes s !! name with Some (AttributeText t) => t | _ => "" end.

(** ** The merge *)
Definition or_else (s fallback : string) : string := if bool_decide (s = "") then fallback else s.

Definition merged_entity (stateByID : gmap string registryState) (e : registryEntity) : RegistryEntity :=
  let s := default zero_state (stateByID !! we_EntityID e) in
  let name := or_else (text_attribute "friendly_name" s) (or_else (we_Name e) (we_OriginalName e)) in
  mkRegistryEntity (we_EntityID e) name (we_Platform e) (text_attribute "device_class" s)
    (text_attribute "unit_of_measurement" s) (ws_State s) (negb (bool_decide (we_DisabledBy e = ""))).

(** One turn of the loop over the entities. *)
Definition add_entity (stateByID : gmap string registryState) (m : gmap string (list RegistryEntity))
    (e : registryEntity) : gmap string (list RegistryEntity) :=
  if bool_decide (we_DeviceID e = "") then m
  else <[we_DeviceID e := default [] (m !! we_DeviceID e) ++ [merged_entity stateByID e]]> m.

Definition merged_device (entitiesByDevice : gmap string (list RegistryEntity)) (d : registryDevice) : RegistryDevice :=
  mkRegistryDevice (wd_ID d) (or_else (wd_NameByUser d) (wd_Name d)) (wd_Manufacturer d) (wd_Model d)
    (wd_SWVersion d) (wd_AreaID d) (wd_ConfigurationURL d) (default [] (entitiesByDevice !! wd_ID d)).

Definition mergeRegistry (devices : list registryDevice) (entities : list registryEntity) (states : list registryState) :
    list RegistryDevice :=
  let stateByID := by_id ws_EntityID id states in
  let entitiesByDevice := foldl (add_entity stateByID) ∅ entities in
  merged_device entitiesByDevice <$> devices.

(** ** The dialogue *)

(** What the client writes. *)
Inductive Written := Auth (token : string) | Query (id : Z) (kind : string).

Record Answer := mkAnswer {
  an_ID : Z; an_Type : string; an_Success : bool; an_Result : string; an_Message : string
}.

(** A connection after dialling: reading a phase answers its type field, if
    the message has one. The deadlines are the connection's. *)
Class Connection (K : Type) := {
  conn_Dial : string → Context → K → option error * K;
  conn_Write : Written → K → option error * K;
  conn_ReadPhase : K → (error + option string) * K;
  conn_ReadAnswer : K → (error + Answer) * K
}.

Class Decoder (A : Type) := { wire_Decode : string → error + A }.

Record RegistryClient := mkRegistryClient { rc_url : string; rc_token : string; rc_timeout : Duration }.

Definition NewRegistryClient (url token : string) (timeout : Duration) : RegistryClient + error :=
  when blank url || blank token || (timeout <=? 0) yield
    inr (ErrNew "home assistant WebSocket URL, token, and timeout are required");;
  inl (mkRegistryClient url token timeout).

Section dialogue.
Context {K : Type} `{!Connection K}.

Definition command {A} `{!Decoder A} (id : Z) (kind : string) (k : K) : (error + A) * K :=
  let '(err, k) := conn_Write (Query id kind) k in
  iferr err as err yield (inl (ErrWrap ("request Home Assistant " +:+ kind) err), k);;
  let '(response, k) := conn_ReadAnswer k in
  match response with
  | inl err => (inl (ErrWrap ("read Home Assistant " +:+ kind) err), k)
  | inr response =>
      when negb (an_ID response =? id) || negb (bool_decide (an_Type response = "result"))
           || negb (an_Success response) yield
        (inl (ErrNew ("home assistant " +:+ kind +:+ " failed: " +:+ an_Message response)), k);;
      match wire_Decode (an_Result response) with
      | inl err => (inl (ErrWrap ("decode Home Assistant " +:+ kind) err), k)
      | inr target => (inr target, k)
      end
  end.

Context `{!Decoder (list registryDevice), !Decoder (list registryEntity), !Decoder (list registryState)}.

(** [ReadJSON(&phase)]: a message without the field keeps the previous type. *)
Definition read_phase (phase : string) (k : K) : (error + string) * K :=
  let '(r, k) := conn_ReadPhase k in
  match r with inl err => (inl err, k) | inr t => (inr (default phase t), k) end.

Definition expects (phase want : string) (k : K) : bool * string * K :=
  let '(r, k) := read_phase phase k in
  match r with inl _ => (false, phase, k) | inr t => (bool_decide (t = want), t, k) end.

Definition Devices (ctx : Context) (c : RegistryClient) (k : K) : (error + list RegistryDevice) * K :=
  let '(err, k) := conn_Dial (rc_url c) ctx k in
  iferr err as err yield (inl (ErrWrap "connect Home Assistant registry" err), k);;
  let '(ok, phase, k) := expects "" "auth_required" k in
  when negb ok yield (inl (ErrNew "home assistant did not request WebSocket authentication"), k);;
  let '(err, k) := conn_Write (Auth (rc_token c)) k in
  iferr err as err yield (inl (ErrWrap "authenticate Home Assistant registry" err), k);;
  let '(ok, phase, k) := expects phase "auth_ok" k in
  when negb ok yield (inl (ErrNew "home assistant rejected registry authentication"), k);;
  let '(devices, k) := command 1 "config/device_registry/list" k in
  match devices with
  | inl err => (inl err, k)
  | inr devices =>
      let '(entities, k) := command 2 "config/entity_registry/list" k in
      match entities with
      | inl err => (inl err, k)
      | inr entities =>
          let '(states, k) := command 3 "get_states" k in
          match states with
          | inl err => (inl err, k)
          | inr states => (inr (mergeRegistry devices entities states), k)
          end
      end
  end.
End dialogue.

(** ** The merge keeps every entity of every device, once and in order *)
Lemma foldl_add_entity stateByID entities m id :
  id ≠ "" →
  default [] (foldl (add_entity stateByID) m entities !! id) =
  default [] (m !! id) ++ (merged_entity stateByID <$> filter (fun e => we_DeviceID e = id) entities).
Proof.
  intros Hid. revert m. induction entities as [|e l IH]; intros m; simpl; [by rewrite app_nil_r|].
  rewrite IH. unfold add_entity. rewrite filter_cons. case_bool_decide as He.
  - by rewrite decide_False by congruence.
  - destruct (decide (we_DeviceID e = id)) as [<-|Hne].
    + rewrite lookup_insert_eq. simpl. by rewrite <- (assoc_L (++)).
    + by rewrite lookup_insert_ne.
Qed.

(** The merged list has the devices in order, each with exactly the entities
    registered for it, in order, under the last state reported for each. *)
Theorem mergeRegistry_spec devices entities states :
  Forall (fun d => wd_ID d ≠ "") devices →
  mergeRegistry devices entities states =
    (fun d => mkRegistryDevice (wd_ID d) (or_else (wd_NameByUser d) (wd_Name d)) (wd_Manufacturer d) (wd_Model d)
       (wd_SWVersion d) (wd_AreaID d) (wd_ConfigurationURL d)
       (merged_entity (by_id ws_EntityID id states) <$> filter (fun e => we_DeviceID e = wd_ID d) entities)) <$> devices.
Proof.
  intros Hd. unfold mergeRegistry. induction Hd as [|d devices Hid _ IH]; [done|].
  rewrite !fmap_cons, IH. f_equal. unfold merged_device. rewrite foldl_add_entity by done.
  by rewrite lookup_empty.
Qed.

(** ** The dialogue is read-only *)

(** A connection with what has been written to it, oldest first. *)
#[export] Instance Logged_Connection {K} `{!Connection K} : Connection (K * list Written) := {
  conn_Dial := fun url ctx t => let '(r, k) := conn_Dial url ctx t.1 in (r, (k, t.2));
  conn_Write := fun w t => let '(r, k) := conn_Write w t.1 in (r, (k, t.2 ++ [w]));
  conn_ReadPhase := fun t => let '(r, k) := conn_ReadPhase t.1 in (r, (k, t.2));
  conn_ReadAnswer := fun t => let '(r, k) := conn_ReadAnswer t.1 in (r, (k, t.2))
}.

Definition script (token : string) : list Written :=
  [Auth token; Query 1 "config/device_registry/list"; Query 2 "config/entity_registry/list"; Query 3 "get_states"].

Section readonly.
Context {K : Type} `{!Connection K}.
Context `{!Decoder (list registryDevice), !Decoder (list registryEntity), !Decoder (list registryState)}.

Lemma command_writes {A} `{!Decoder A} id kind (k : K) w :
  let '(r, t) := command (A := A) id kind (k, w) in t.2 = w ++ [Query id kind].
Proof.
  unfold command. simpl. destruct (conn_Write (Query id kind) k) as [[err|] k1]; [done|].
  simpl. destruct (conn_ReadAnswer k1) as [[err|a] k2]; [done|]. simpl.
  destruct (_ || negb (an_Success a)); [done|]. by destruct (wire_Decode (an_Result a)).
Qed.

Lemma expects_writes phase want (k : K) w : (expects phase want (k, w)).2.2 = w.
Proof.
  unfold expects, read_phase. simpl. by destruct (conn_ReadPhase k) as [[err|t] k1].
Qed.

(** Whatever the other side answers, the client writes an initial part of its
    script, all of it when it answers devices: it authenticates only when
    asked to and otherwise only lists. *)
Theorem Devices_reads_only ctx c (k : K) :
  let '(r, t) := Devices ctx c (k, []) in
  t.2 `prefix_of` script (rc_token c) ∧ (∀ l, r = inr l → t.2 = script (rc_token c)).
Proof.
  assert (∀ n err w, w = take n (script (rc_token c)) → w `prefix_of` script (rc_token c)
    ∧ (∀ l, @inl error (list RegistryDevice) err = inr l → w = script (rc_token c))) as Hstop.
  { intros n err w ->. split; [apply prefix_take|done]. }
  unfold Devices. simpl. destruct (conn_Dial _ _ k) as [[err|] k1]; [simpl; by apply (Hstop 0%nat)|].
  pose proof (expects_writes "" "auth_required" k1 []) as He.
  destruct (expects "" "auth_required" (k1, [])) as [[ok phase] [k2 w2]]. simpl in He. subst w2.
  destruct ok; simpl; [|simpl; by apply (Hstop 0%nat)].
  destruct (conn_Write (Auth (rc_token c)) k2) as [[err|] k3]; [simpl; by apply (Hstop 1%nat)|].
  pose proof (expects_writes phase "auth_ok" k3 [Auth (rc_token c)]) as He.
  destruct (expects phase "auth_ok" (k3, [Auth (rc_token c)])) as [[ok phase2] [k4 w4]]. simpl in He. subst w4.
  destruct ok; simpl; [|simpl; by apply (Hstop 1%nat)].
  pose proof (command_writes (A := list registryDevice) 1 "config/device_registry/list" k4 [Auth (rc_token c)]) as H1.
  destruct (command 1 _ _) as [[err|devices] [k5 w5]]; simpl in H1; subst w5; [simpl; by apply (Hstop 2%nat)|].
  match goal with |- context [command 2 _ (k5, ?w)] =>
    pose proof (command_writes (A := list registryEntity) 2 "config/entity_registry/list" k5 w) as H2 end.
  destruct (command 2 _ _) as [[err|entities] [k6 w6]]; simpl in H2; subst w6; [simpl; by apply (Hstop 3%nat)|].
  match goal with |- context [command 3 _ (k6, ?w)] =>
    pose proof (command_writes (A := list registryState) 3 "get_states" k6 w) as H3 end.
  destruct (command 3 _ _) as [[err|states] [k7 w7]]; simpl in H3; subst w7; [simpl; by apply (Hstop 4%nat)|].
  done.
Qed.
End readonly.
