(* ===== verification/Vision.v ===== *)
(** * Advisory observations: [integrations/vision/observation.go]

    The trust boundary for observations of an external model. The JSON decoder
    is an interface: the first value with the input that follows it, and what
    decoding a further value into an empty struct answers. *)

From Stdlib Require Import ZArith Lia String SpecFloat.
From stdpp Require Import base gmap strings list.
From S2P Require Import Prelude Domain Envelope.

Record Observation := mkVisionObservation {
  vo_SourceAssetID : DeviceID; vo_ServiceVersion : string; vo_ModelVersion : string; vo_Confidence : float64;
  vo_OccurredAt : Time; vo_ExpiresAt : Time; vo_CorrelationID : CorrelationID; vo_Kind : string;
  vo_Recommendation : string
}.

(** [decoder.Decode(&struct{}{})] with unknown fields disallowed. *)
Class EmptyDecoder := { decode_empty : string → option error }.

Definition maximumObservationBytes : Z := 16 * 1024.
Definition F64_0_8 : float64 := F64_div (F64 8) (F64 10).

Definition failed (o : option error) : bool := match o with Some _ => true | None => false end.

Definition vision_Decode `{!FirstDecoder Observation, !EmptyDecoder} (payload : string) (now : Time) :
    error + Observation :=
  when (Z.of_nat (String.length payload) =? 0) || (maximumObservationBytes <? Z.of_nat (String.length payload)) yield
    inl (ErrNew "vision observation has invalid size");;
  match decode_first payload with
  | inl _ => inl (ErrNew "vision observation is malformed")
  | inr (result, rest) =>
      when failed (validateUUID (vo_SourceAssetID result)) || failed (validateUUID (vo_CorrelationID result))
           || bool_decide (vo_ServiceVersion result = "") || bool_decide (vo_ModelVersion result = "")
           || bool_decide (vo_Kind result = "") yield
        inl (ErrNew "vision observation identity is invalid");;
      when F64_lt (vo_Confidence result) F64_0_8 || F64_lt (F64 1) (vo_Confidence result)
           || After (vo_OccurredAt result) now || negb (After (vo_ExpiresAt result) now)
           || negb (After (vo_ExpiresAt result) (vo_OccurredAt result)) yield
        inl (ErrNew "vision observation is stale or below confidence policy");;
      when negb (failed (decode_empty rest)) yield inl (ErrNew "vision observation contains multiple values");;
      inr result
  end.

(** The observations the boundary lets through. *)
Record admissible (o : Observation) (now : Time) : Prop := {
  ad_ids : validateUUID (vo_SourceAssetID o) = None ∧ validateUUID (vo_CorrelationID o) = None;
  ad_texts : vo_ServiceVersion o ≠ "" ∧ vo_ModelVersion o ≠ "" ∧ vo_Kind o ≠ "";
  ad_confidence : F64_lt (vo_Confidence o) F64_0_8 = false ∧ F64_lt (F64 1) (vo_Confidence o) = false;
  ad_time : vo_OccurredAt o ≤ now < vo_ExpiresAt o
}.

Lemma failed_false o : failed o = false ↔ o = None.
Proof. by destruct o. Qed.

(** Decoding answers exactly the admissible observation that starts a payload
    of admissible size, provided that decoding what follows as an empty object
    fails, as it does at the end of the input and on anything but an empty
    object. *)
Theorem vision_Decode_spec `{!FirstDecoder Observation, !EmptyDecoder} payload now o :
  vision_Decode payload now = inr o ↔
  0 < Z.of_nat (String.length payload) ≤ maximumObservationBytes
  ∧ ∃ rest, decode_first payload = inr (o, rest) ∧ admissible o now ∧ decode_empty rest ≠ None.
Proof.
  unfold vision_Decode. destruct (_ || (maximumObservationBytes <? _)) eqn:Hsize.
  { split; [done|]. intros [? _]. go_bool. lia. }
  destruct (decode_first payload) as [err|[r rest]]; [naive_solver|].
  destruct (_ || bool_decide (vo_Kind r = "")) eqn:Hid.
  { split; [done|]. intros (_ & rest' & [= <- <-] & [[Ha Hb] (? & ? & ?) _ _] & _). rewrite Ha, Hb in Hid. go_bool. naive_solver. }
  destruct (_ || negb (After (vo_ExpiresAt r) (vo_OccurredAt r))) eqn:Hp.
  { split; [done|]. intros (_ & rest' & [= <- <-] & [_ _ [Hc Hd] ?] & _). rewrite Hc, Hd in Hp. go_bool. lia. }
  destruct (decode_empty rest) as [e|] eqn:He; simpl; [|naive_solver].
  go_bool. rewrite !failed_false in Hid. split; [|naive_solver].
  intros [= <-]. split; [lia|]. exists rest. split; [done|]. split; [|by rewrite He].
  split; try (split_and!; naive_solver).
Qed.
