(* ===== verification/HomeAssistant.v ===== *)
(** * Home Assistant: [integrations/homeassistant/manager.go] and [inventory.go]

    Discovery metadata published to MQTT and the translation of Home Assistant's
    switch messages into equipment commands. The transport, the inventory, the
    alarm reader and the command service are interfaces; clock readings and
    generated identifiers are arguments, and the order in which Go ranges over
    the published set is the function [range]. *)

From Stdlib Require Import ZArith Lia String Ascii.
From stdpp Require Import base gmap strings list pretty.
From S2P Require Import Prelude Domain Events State Health Alarms Safety Output Commands.
From S2P Require Import Devices Sensors EquipmentRegistry Topics Envelope MqttClient Config.

(** ** Boundaries *)
Class Transport (T : Type) := {
  transport_Publish : Context → string → Z → bool → string → T → option error * T;
  transport_Subscribe : Context → string → Z → option nat → T → option error * T
}.
Class Inventory (I : Type) := {
  inventory_Devices : Context → I → list Device * option error;
  inventory_Sensors : Context → I → list Sensor * option error;
  inventory_Equipment : Context → I → list Equipment * option error
}.
Class AlarmReader (A : Type) := {
  reader_List : Context → AlarmStatus → A → list Alarm * option error
}.
Class Commander (S : Type) := {
  commander_Submit : Context → Command → S → (Result * option error) * S
}.

(** [inventory.go]: the inventory of the three registries. *)
Record RegistryInventory := mkRegistryInventory {
  ri_DeviceRegistry : Registry; ri_SensorRegistry : SensorRegistry; ri_EquipmentRegistry : EquipmentRegistry
}.
Definition RegistryInventory_Devices (ctx : Context) (r : RegistryInventory) : list Device * option error :=
  List ctx (ri_DeviceRegistry r).
Definition RegistryInventory_Sensors (ctx : Context) (r : RegistryInventory) : list Sensor * option error :=
  SensorRegistry_List ctx (ri_SensorRegistry r).
Definition RegistryInventory_Equipment (ctx : Context) (r : RegistryInventory) : list Equipment * option error :=
  EquipmentRegistry_List ctx (ri_EquipmentRegistry r).
#[export] Instance RegistryInventory_Inventory : Inventory RegistryInventory := {
  inventory_Devices := RegistryInventory_Devices;
  inventory_Sensors := RegistryInventory_Sensors;
  inventory_Equipment := RegistryInventory_Equipment
}.

(** ** Data *)
Record Tombstone := mkTombstone { tb_Component : string; tb_ObjectID : string }.

Record HAConfig := mkHAConfig {
  hc_SiteID : string;
  hc_CommandTTL : Duration;
  hc_MaximumPayload : Z;
  hc_Tombstones : list Tombstone;
  hc_NotificationRuleIDs : list RuleID
}.

Record entity := mkEntity { et_Component : string; et_ObjectID : string; et_Payload : string }.

Record haDevice := mkHaDevice {
  hd_Identifiers : list string; hd_Name : string; hd_Manufacturer : string; hd_Model : string
}.

Record discoveryPayload := mkDiscoveryPayload {
  dp_Name : string; dp_UniqueID : string; dp_SuggestedObjectID : string; dp_StateTopic : string;
  dp_CommandTopic : string; dp_AvailabilityTopic : string; dp_ValueTemplate : string;
  dp_PayloadOn : string; dp_PayloadOff : string; dp_UnitOfMeasurement : string;
  dp_DeviceClass : string; dp_StateClass : string; dp_Device : haDevice
}.

(** The map [publishStatus] encodes. *)
Record StatusData := mkStatusData {
  sd_status : string; sd_activeAlarmCount : Z; sd_notificationAlarmCount : Z
}.

(** ** Texts *)

(** The bytes the rune at the head of a text takes: those of a valid UTF-8
    sequence, and one for a byte that starts none. *)
Definition rune_width (s : string) : nat :=
  match s with
  | String a (String b (String c (String d _))) =>
      if in_range 194 223 a && in_range 128 191 b then 2
      else if (in_range 224 224 a && in_range 160 191 b || in_range 225 236 a && in_range 128 191 b || in_range 237 237 a && in_range 128 159 b
               || in_range 238 239 a && in_range 128 191 b) && in_range 128 191 c then 3
      else if (in_range 240 240 a && in_range 144 191 b || in_range 241 243 a && in_range 128 191 b || in_range 244 244 a && in_range 128 143 b)
              && in_range 128 191 c && in_range 128 191 d then 4
      else 1
  | String a (String b (String c _)) =>
      if in_range 194 223 a && in_range 128 191 b then 2
      else if (in_range 224 224 a && in_range 160 191 b || in_range 225 236 a && in_range 128 191 b || in_range 237 237 a && in_range 128 159 b
               || in_range 238 239 a && in_range 128 191 b) && in_range 128 191 c then 3
      else 1
  | String a (String b _) => if in_range 194 223 a && in_range 128 191 b then 2 else 1
  | _ => 1
  end%nat.

Definition object_char (c : ascii) : bool := is_lower c || is_digit c || Ascii.eqb c "_"%char.

(** [strings.Map] with the function that keeps [a-z0-9_]: one character for
    each rune, [skip] being the bytes of the current rune still to pass. *)
Fixpoint map_runes (skip : nat) (s : string) : string :=
  match s with
  | EmptyString => ""
  | String c rest =>
      match skip with
      | S skip => map_runes skip rest
      | O => String (if object_char c then c else "_"%char) (map_runes (rune_width s - 1) rest)
      end
  end.

Definition entityObjectID (kind id : string) : string :=
  map_runes 0 (ToLower ("aquaos_" +:+ kind +:+ "_" +:+ id)).

(** [strings.SplitN(key, "/", 2)]. *)
Fixpoint split_key (key : string) : list string :=
  match key with
  | EmptyString => [""]
  | String c rest =>
      if Ascii.eqb c slash then [""; rest]
      else match split_key rest with
           | part :: parts => String c part :: parts
           | [] => [String c ""]
           end
  end.

(** "°C" in UTF-8. *)
Definition degrees : string := String (ascii_of_N 194) (String (ascii_of_N 176) "C").

Definition haUnit (unit : Unit) : string :=
  match unit with
  | UnitCelsius => degrees
  | UnitPPT => "ppt"
  | UnitLitersPerHour => "L/h"
  | UnitPercent => "%"
  | UnitWatts => "W"
  | UnitVolts => "V"
  | UnitAmperes => "A"
  | UnitPH => "pH"
  | UnitOther s => s
  end.

Definition deviceClass (kind : QuantityKind) : string :=
  match kind with
  | QuantityTemperature => "temperature"
  | QuantityPower => "power"
  | QuantityVoltage => "voltage"
  | QuantityCurrent => "current"
  | _ => ""
  end.

Definition deviceInfo (id : DeviceID) (name : string) : haDevice :=
  let identifier := if bool_decide (id = "") then "aquaos-core" else "aquaos-device-" +:+ id in
  let name := if bool_decide (name = "") then "AquaOS Device" else name in
  mkHaDevice [identifier] name "AquaOS" "AquaOS managed device".

(** ** The manager *)
Section manager.
Context {T I A S : Type} {HT : Transport T} {HI : Inventory I} {HA : AlarmReader A} {HS : Commander S}.
Context `{!JSON, !Marshaler Envelope, !Marshaler discoveryPayload, !Marshaler StatusData}.
Context (range : gset string → list string).
(** The address of [receive] among the handlers of the transport. *)
Context (receive_address : nat).
Context (render : error → string).

(** The cancel function is represented by whether there is one; [ha_codec] and
    [ha_registry] are made by [New]. *)
Record HAManager := mkHAManager {
  ha_transport : T;
  ha_inventory : I;
  ha_alarms : option A;
  ha_commands : S;
  ha_registry : TopicRegistry;
  ha_codec : Codec;
  ha_cfg : HAConfig;
  ha_cancel : bool;
  ha_running : bool;
  ha_lastErr : option error;
  ha_published : gset string;
  ha_allowed : gmap string EquipmentID
}.

Definition minute : Duration := 60 * 1000000000.

(** [dependencies] says that no required dependency is nil. *)
Definition HA_New (dependencies : bool) (cfg : HAConfig) (transport : T) (inventory : I) (alarms : option A)
    (commands : S) : HAManager + error :=
  when negb dependencies yield inr (ErrNew "home assistant dependencies are required");;
  when (hc_CommandTTL cfg <=? 0) || (minute <? hc_CommandTTL cfg) yield
    inr (ErrNew "home assistant command TTL must be positive and at most one minute");;
  match NewTopicRegistry (hc_SiteID cfg) with
  | inr err => inr err
  | inl registry =>
      match NewCodec (hc_SiteID cfg) (hc_MaximumPayload cfg) true with
      | inr err => inr err
      | inl codec =>
          inl (mkHAManager transport inventory alarms commands registry codec cfg false false None ∅ ∅)
      end
  end.

Definition HA_Name : string := "home-assistant".

(** Assignments to the fields. *)
Definition set_transport (t : T) (m : HAManager) : HAManager :=
  mkHAManager t (ha_inventory m) (ha_alarms m) (ha_commands m) (ha_registry m) (ha_codec m) (ha_cfg m)
    (ha_cancel m) (ha_running m) (ha_lastErr m) (ha_published m) (ha_allowed m).
Definition set_commands (s : S) (m : HAManager) : HAManager :=
  mkHAManager (ha_transport m) (ha_inventory m) (ha_alarms m) s (ha_registry m) (ha_codec m) (ha_cfg m)
    (ha_cancel m) (ha_running m) (ha_lastErr m) (ha_published m) (ha_allowed m).
Definition set_run (cancel running : bool) (m : HAManager) : HAManager :=
  mkHAManager (ha_transport m) (ha_inventory m) (ha_alarms m) (ha_commands m) (ha_registry m) (ha_codec m)
    (ha_cfg m) cancel running (ha_lastErr m) (ha_published m) (ha_allowed m).
Definition ha_setError (err : error) (m : HAManager) : HAManager :=
  mkHAManager (ha_transport m) (ha_inventory m) (ha_alarms m) (ha_commands m) (ha_registry m) (ha_codec m)
    (ha_cfg m) (ha_cancel m) (ha_running m) (Some err) (ha_published m) (ha_allowed m).
Definition set_published (next : gset string) (allowed : gmap string EquipmentID) (m : HAManager) : HAManager :=
  mkHAManager (ha_transport m) (ha_inventory m) (ha_alarms m) (ha_commands m) (ha_registry m) (ha_codec m)
    (ha_cfg m) (ha_cancel m) (ha_running m) None next allowed.

Definition HA_Health (now : Time) (m : HAManager) : Status :=
  let state := if ha_running m && bool_decide (ha_lastErr m = None) then StateHealthy else StateUnhealthy in
  let message := match ha_lastErr m with Some err => render err | None => "" end in
  NewStatus HA_Name state message (UTC now).

Definition HA_Stop (ctx : Context) (m : HAManager) : option error * HAManager := (None, set_run false false m).

(** *** Entities *)

(** [encoded, _ := json.Marshal(payload)]. *)
Definition marshaled (payload : discoveryPayload) : string :=
  match json_Marshal payload with inr s => s | inl _ => "" end.

Definition zero_entities : list entity * gmap string EquipmentID := ([], ∅).

Definition sensor_entity (r : TopicRegistry) (names : gmap DeviceID string) (availability : string) (sensor : Sensor) :
    entity + error :=
  let resource := "sensor-" +:+ sen_ID sensor in
  let '(stateTopic, _, err) := Topic r PurposeSensorState resource in
  iferr err as err yield inr err;;
  inl (mkEntity "sensor" resource (marshaled (mkDiscoveryPayload (sen_Name sensor)
    ("aquaos_sensor_" +:+ sen_ID sensor) (entityObjectID "sensor" (sen_ID sensor)) stateTopic "" availability
    "{{ value_json.data.value.quantity.value }}" "" "" (haUnit (sen_Unit sensor))
    (deviceClass (sen_Quantity sensor)) "measurement"
    (deviceInfo (sen_DeviceID sensor) (default "" (names !! sen_DeviceID sensor)))))).

Definition equipment_resource (id : EquipmentID) : string := "equipment-" +:+ id.

Definition equipment_entity (r : TopicRegistry) (names : gmap DeviceID string) (availability : string)
    (item : Equipment) : entity + error :=
  let resource := equipment_resource (eq_ID item) in
  let '(stateTopic, _, err) := Topic r PurposeEquipmentReported resource in
  iferr err as err yield inr err;;
  let '(commandTopic, _, err) := HACommand r resource in
  iferr err as err yield inr err;;
  inl (mkEntity "switch" resource (marshaled (mkDiscoveryPayload (eq_Name item)
    ("aquaos_equipment_" +:+ eq_ID item) (entityObjectID "equipment" (eq_ID item)) stateTopic commandTopic
    availability "{{ 'ON' if value_json.data.value.boolean else 'OFF' }}" "ON" "OFF" "" "" ""
    (deviceInfo (eq_DeviceID item) (default "" (names !! eq_DeviceID item)))))).

(** The loops of [entities], which stop at the first error. *)
Fixpoint entity_loop {B} (f : B → entity + error) (l : list B) : list entity + error :=
  match l with
  | [] => inl []
  | b :: rest =>
      match f b with
      | inr err => inr err
      | inl e => match entity_loop f rest with inr err => inr err | inl es => inl (e :: es) end
      end
  end.

(** The three entities of the site itself. *)
Definition status_template : string := "{{ value_json.data.status }}".
Definition alarm_template : string := "{{ 'ON' if value_json.data.activeAlarmCount > 0 else 'OFF' }}".
Definition notification_template : string :=
  "{{ 'ON' if value_json.data.notificationAlarmCount > 0 else 'OFF' }}".

Definition site_entity (r : TopicRegistry) (site availability component name part template on off class : string) :
    entity :=
  let '(statusTopic, _) := HAStatus r in
  mkEntity component ("aquaos-" +:+ site +:+ "-" +:+ part) (marshaled (mkDiscoveryPayload name
    ("aquaos_" +:+ site +:+ "_" +:+ part) (entityObjectID site part) statusTopic "" availability template on off
    "" class "" (deviceInfo "" "AquaOS Core"))).

Definition site_entities (r : TopicRegistry) (site availability : string) : list entity :=
  [site_entity r site availability "sensor" "AquaOS Core" "core" status_template "" "" "";
   site_entity r site availability "binary_sensor" "Active alarm" "alarm" alarm_template "ON" "OFF" "problem";
   site_entity r site availability "binary_sensor" "Notifiable alarm" "notification" notification_template
     "ON" "OFF" "problem"].

Definition allow (allowed : gmap string EquipmentID) (item : Equipment) : gmap string EquipmentID :=
  <[equipment_resource (eq_ID item) := eq_ID item]> allowed.

Definition ha_entities (ctx : Context) (m : HAManager) : (list entity * gmap string EquipmentID) * option error :=
  let '(devices, err) := inventory_Devices ctx (ha_inventory m) in
  iferr err as err yield (zero_entities, Some err);;
  let '(sensors, err) := inventory_Sensors ctx (ha_inventory m) in
  iferr err as err yield (zero_entities, Some err);;
  let '(equipment, err) := inventory_Equipment ctx (ha_inventory m) in
  iferr err as err yield (zero_entities, Some err);;
  let names := by_id dev_ID dev_Name devices in
  let '(availability, _, err) := Topic (ha_registry m) PurposeAvailability "core" in
  iferr err as err yield (zero_entities, Some err);;
  match entity_loop (sensor_entity (ha_registry m) names availability) sensors with
  | inr err => (zero_entities, Some err)
  | inl sensor_items =>
      match entity_loop (equipment_entity (ha_registry m) names availability) equipment with
      | inr err => (zero_entities, Some err)
      | inl equipment_items =>
          ((sensor_items ++ equipment_items
              ++ site_entities (ha_registry m) (hc_SiteID (ha_cfg m)) availability,
            foldl allow ∅ equipment), None)
      end
  end.

(** *** Publication *)
Definition transport_publish (ctx : Context) (topic : string) (policy : TopicPolicy) (payload : string)
    (m : HAManager) : option error * HAManager :=
  let '(err, t) := transport_Publish ctx topic (tp_QoS policy) (tp_Retained policy) payload (ha_transport m) in
  (err, set_transport t m).

(** The readings of [publishStatus]: the clock's, the generated correlation ID
    and the codec's clock. *)
Record StatusEnv := mkStatusEnv {
  se_now : Time; se_correlation : CorrelationID * option error; se_encode : Time
}.

(** The loop that counts the alarms of the configured rules. *)
Definition count_rule (rules : gset RuleID) (n : Z) (alarm : Alarm) : Z :=
  if bool_decide (al_RuleID alarm ∈ rules) then n + 1 else n.

(** The counts [publishStatus] reports. *)
Definition alarm_counts (ctx : Context) (m : HAManager) : (Z * Z) + error :=
  match ha_alarms m with
  | None => inl (0, 0)
  | Some alarms =>
      let '(active, err) := reader_List ctx AlarmActive alarms in
      iferr err as err yield inr err;;
      inl (Z.of_nat (length active),
           foldl (count_rule (list_to_set (hc_NotificationRuleIDs (ha_cfg m)))) 0 active)
  end.

Definition publishStatus (env : StatusEnv) (ctx : Context) (m : HAManager) : option error * HAManager :=
  match alarm_counts ctx m with
  | inr err => (Some err, m)
  | inl (activeCount, notificationCount) =>
      let '(correlationID, err) := se_correlation env in
      iferr err as err yield (Some err, m);;
      match Encode (se_encode env) (ha_codec m) "ha-status" "home-assistant" correlationID (UTC (se_now env))
              None None (mkStatusData "online" activeCount notificationCount) with
      | inl err => (Some err, m)
      | inr payload => let '(topic, policy) := HAStatus (ha_registry m) in transport_publish ctx topic policy payload m
      end
  end.

Definition HandleAlarmEvent (env : StatusEnv) (ctx : Context) (event : Event) (m : HAManager) :
    option error * HAManager :=
  let '(err, m) := publishStatus env ctx m in
  (None, match err with Some err => ha_setError err m | None => m end).

Definition ha_clear (ctx : Context) (component objectID : string) (m : HAManager) : option error * HAManager :=
  let '(topic, policy, err) := HADiscovery component objectID in
  iferr err as err yield (Some err, m);;
  transport_publish ctx topic policy "" m.

(** The key of an entity in the published set. *)
Definition entity_key (component objectID : string) : string := component +:+ "/" +:+ objectID.

(** The first loop of [Refresh]. *)
Fixpoint publish_entities (ctx : Context) (items : list entity) (next : gset string) (m : HAManager) :
    option error * gset string * HAManager :=
  match items with
  | [] => (None, next, m)
  | item :: rest =>
      let '(topic, policy, err) := HADiscovery (et_Component item) (et_ObjectID item) in
      iferr err as err yield (Some err, next, m);;
      let '(err, m) := transport_publish ctx topic policy (et_Payload item) m in
      iferr err as err yield (Some (ErrWrap "publish Home Assistant discovery" err), next, m);;
      publish_entities ctx rest ({[entity_key (et_Component item) (et_ObjectID item)]} ∪ next) m
  end.

(** The second: a key that is not two parts would be an index out of range, and
    the keys of the set never are. *)
Definition ErrIndexOutOfRange : error := ErrVar "runtime: index out of range".

Fixpoint clear_removed (ctx : Context) (keys : list string) (next : gset string) (m : HAManager) :
    option error * HAManager :=
  match keys with
  | [] => (None, m)
  | key :: rest =>
      when bool_decide (key ∈ next) yield clear_removed ctx rest next m;;
      match split_key key with
      | component :: objectID :: _ =>
          let '(err, m) := ha_clear ctx component objectID m in
          iferr err as err yield (Some err, m);;
          clear_removed ctx rest next m
      | _ => (Some ErrIndexOutOfRange, m)
      end
  end.

Fixpoint clear_tombstones (ctx : Context) (items : list Tombstone) (next : gset string) (m : HAManager) :
    option error * HAManager :=
  match items with
  | [] => (None, m)
  | item :: rest =>
      when bool_decide (entity_key (tb_Component item) (tb_ObjectID item) ∈ next) yield
        (Some (ErrNew "home assistant tombstone conflicts with active entity"), m);;
      let '(err, m) := ha_clear ctx (tb_Component item) (tb_ObjectID item) m in
      iferr err as err yield (Some err, m);;
      clear_tombstones ctx rest next m
  end.

Definition Refresh (env : StatusEnv) (ctx : Context) (m : HAManager) : option error * HAManager :=
  let '((entities, allowed), err) := ha_entities ctx m in
  iferr err as err yield (Some err, m);;
  let '(err, next, m) := publish_entities ctx entities ∅ m in
  iferr err as err yield (Some err, m);;
  let previous := ha_published m in
  let m := set_published next allowed m in
  let '(err, m) := clear_removed ctx (range previous) next m in
  iferr err as err yield (Some err, m);;
  let '(err, m) := clear_tombstones ctx (hc_Tombstones (ha_cfg m)) next m in
  iferr err as err yield (Some err, m);;
  publishStatus env ctx m.

Definition HA_Start (env : StatusEnv) (ctx : Context) (m : HAManager) : option error * HAManager :=
  let m := set_run true true m in
  let '(filter, qos, err) := SubscriptionFilter (ha_registry m) PurposeHACommand in
  iferr err as err yield (Some err, m);;
  let '(err, t) := transport_Subscribe ctx filter qos (Some receive_address) (ha_transport m) in
  let m := set_transport t m in
  iferr err as err yield (None, ha_setError err m);;
  let '(err, m) := Refresh env ctx m in
  iferr err as err yield (None, ha_setError err m);;
  (None, m).

(** *** Commands *)
(** What the clock and the generator of identifiers return to a command, and
    what its context, which ends after the command's time to live, answers
    when it is asked for its error: nothing before that, [DeadlineExceeded]
    after. *)
Record CommandEnv := mkCommandEnv {
  ce_now : Time; ce_correlation : CorrelationID * option error; ce_expired : option error
}.

Definition ha_key (resource : string) (messageID : Z) (raw : string) : string :=
  "ha/" +:+ resource +:+ "/" +:+ pretty messageID +:+ "/" +:+ ToLower raw.

Definition HandleCommand (env : CommandEnv) (ctx : Context) (topic payload : string) (messageID : Z)
    (m : HAManager) : option error * HAManager :=
  let outside := (Some (ErrNew "home assistant command topic is outside the configured namespace"), m) in
  match splitTopic topic with
  | [p0; p1; p2; p3; p4; p5] =>
      when negb (bool_decide (p0 = "aquaos")) || negb (bool_decide (p1 = hc_SiteID (ha_cfg m)))
           || negb (bool_decide (p2 = "v1")) || negb (bool_decide (p3 = "home-assistant"))
           || negb (bool_decide (p5 = "set")) yield outside;;
      match ha_allowed m !! p4 with
      | None => (Some (ErrNew "home assistant command targets unknown equipment"), m)
      | Some equipmentID =>
          let raw := TrimSpace payload in
          when negb (bool_decide (raw = "ON")) && negb (bool_decide (raw = "OFF")) yield
            (Some (ErrNew "home assistant command payload must be ON or OFF"), m);;
          let on := bool_decide (raw = "ON") in
          let now := UTC (ce_now env) in
          let '(correlationID, err) := ce_correlation env in
          iferr err as err yield (Some err, m);;
          let '((_, err), s) := commander_Submit ctx
            (mkCommand "" (ha_key p4 messageID raw) correlationID equipmentID "home-assistant" now
               (Add now (hc_CommandTTL (ha_cfg m))) None on) (ha_commands m) in
          (err, set_commands s m)
      end
  | _ => outside
  end.

(** What the MQTT library delivers to [receive]. *)
Record Message := mkMessage { ms_Retained : bool; ms_Topic : string; ms_Payload : string; ms_MessageID : Z }.

(** [context.WithTimeout(context.Background(), m.cfg.CommandTTL)]. *)
Definition command_context (env : CommandEnv) : Context := mkContext (ce_expired env) (ctx_CorrelationID Background).

Definition HA_receive (env : CommandEnv) (message : Message) (m : HAManager) : HAManager :=
  when ms_Retained message yield m;;
  when negb (ha_cancel m) yield m;;
  let '(err, m) := HandleCommand env (command_context env) (ms_Topic message) (ms_Payload message) (ms_MessageID message) m in
  match err with Some err => ha_setError err m | None => m end.
End manager.

Arguments HAManager : clear implicits.
Arguments mkHAManager {T I A S}.

(** ** What a switch message submits *)
Section commands.
Context {T I A S : Type} {HS : Commander S}.

(** The command a message stands for: its topic is the command topic of an
    allowed resource of this site and its payload, trimmed, is ON or OFF. *)
Definition switch_command (env : CommandEnv) (topic payload : string) (messageID : Z) (m : HAManager T I A S)
    (c : Command) : Prop :=
  ∃ resource equipmentID,
    splitTopic topic = ["aquaos"; hc_SiteID (ha_cfg m); "v1"; "home-assistant"; resource; "set"]
    ∧ ha_allowed m !! resource = Some equipmentID
    ∧ (TrimSpace payload = "ON" ∨ TrimSpace payload = "OFF")
    ∧ (ce_correlation env).2 = None
    ∧ c = mkCommand "" (ha_key resource messageID (TrimSpace payload)) (ce_correlation env).1 equipmentID
            "home-assistant" (ce_now env) (ce_now env + hc_CommandTTL (ha_cfg m)) None
            (bool_decide (TrimSpace payload = "ON")).

Lemma HandleCommand_cases env ctx topic payload messageID (m : HAManager T I A S) :
  (∃ c, switch_command env topic payload messageID m c
     ∧ HandleCommand env ctx topic payload messageID m =
         ((commander_Submit ctx c (ha_commands m)).1.2, set_commands (commander_Submit ctx c (ha_commands m)).2 m))
  ∨ (¬ ∃ c, switch_command env topic payload messageID m c)
    ∧ ∃ err, HandleCommand env ctx topic payload messageID m = (Some err, m).
Proof.
  unfold HandleCommand.
  destruct (splitTopic topic) as [|p0 [|p1 [|p2 [|p3 [|p4 [|p5 [|]]]]]]] eqn:Hp;
    try (right; split; [unfold switch_command; rewrite Hp; naive_solver|eauto]; fail).
  destruct (_ || negb (bool_decide (p5 = "set"))) eqn:Hn.
  { right. split; [|eauto]. intros (c & r & id & Hs & _). rewrite Hp in Hs. simplify_eq/=.
    rewrite bool_decide_eq_true_2 in Hn by done. done. }
  rewrite !orb_false_iff, !negb_false_iff, !bool_decide_eq_true in Hn.
  destruct Hn as ((((-> & ->) & ->) & ->) & ->).
  destruct (ha_allowed m !! p4) as [id|] eqn:Hid.
  2: { right. split; [|eauto]. intros (c & r & id & Hs & Hr & _). rewrite Hp in Hs. by simplify_eq/=. }
  destruct (negb (bool_decide (TrimSpace payload = "ON")) && _) eqn:Hraw.
  { right. split; [|eauto]. intros (c & r & id' & _ & _ & Hor & _).
    apply andb_true_iff in Hraw as [H1%negb_true_iff H2%negb_true_iff].
    apply bool_decide_eq_false in H1, H2. naive_solver. }
  destruct (ce_correlation env) as [corr [err|]] eqn:Hcorr.
  { right. split; [|eauto]. intros (c & r & id' & _ & _ & _ & He & _). rewrite Hcorr in He. done. }
  left. eexists. split.
  - exists p4, id. rewrite Hcorr. split_and!; [exact Hp|done| |done|reflexivity].
    apply andb_false_iff in Hraw as [H1%negb_false_iff|H1%negb_false_iff]; apply bool_decide_eq_true in H1; auto.
  - unfold UTC, Add. by destruct (commander_Submit _ _ _) as [[? ?] ?].
Qed.
End commands.

Section receiving.
Context {T I A S : Type} {HS : Commander S}.

(** What a received message does to the manager. *)
Lemma receive_cases env message (m : HAManager T I A S) :
  let m' := HA_receive env message m in
  let stands c := ms_Retained message = false ∧ ha_cancel m = true
    ∧ switch_command env (ms_Topic message) (ms_Payload message) (ms_MessageID message) m c in
  ((∃ c, stands c ∧ ha_commands m' = (commander_Submit (command_context env) c (ha_commands m)).2)
   ∨ (¬ ∃ c, stands c) ∧ ha_commands m' = ha_commands m)
  ∧ ha_transport m' = ha_transport m ∧ ha_allowed m' = ha_allowed m ∧ ha_published m' = ha_published m
  ∧ ha_running m' = ha_running m.
Proof.
  unfold HA_receive. destruct (ms_Retained message); [split; [right; naive_solver|done]|].
  destruct (ha_cancel m); [|split; [right; naive_solver|done]]. simpl.
  destruct (HandleCommand_cases env (command_context env) (ms_Topic message) (ms_Payload message) (ms_MessageID message) m)
    as [(c & Hc & ->)|(Hno & err & ->)].
  - destruct (commander_Submit (command_context env) c (ha_commands m)) as [[r [err|]] s] eqn:Hs; simpl;
      (split; [left; exists c; by rewrite Hs|done]).
  - simpl. split; [right; naive_solver|done].
Qed.

(** C13: exactly when the manager runs and a received message is not retained,
    lies on the command topic of an equipment that the last discovery allowed
    and says ON or OFF, and a correlation identifier can be drawn, one command
    for that equipment is submitted, expiring after the configured time, in a
    context that ends then too; any other message submits nothing, and apart
    from the last error nothing else changes. *)
Theorem receive_submits_exactly env message (m : HAManager T I A S) :
  let m' := HA_receive env message m in
  let stands c := ms_Retained message = false ∧ ha_cancel m = true
    ∧ switch_command env (ms_Topic message) (ms_Payload message) (ms_MessageID message) m c in
  ((∃ c, stands c ∧ ha_commands m' = (commander_Submit (command_context env) c (ha_commands m)).2)
   ∨ (¬ ∃ c, stands c) ∧ ha_commands m' = ha_commands m)
  ∧ ha_transport m' = ha_transport m ∧ ha_allowed m' = ha_allowed m ∧ ha_published m' = ha_published m
  ∧ ha_running m' = ha_running m.
Proof. apply receive_cases. Qed.
End receiving.

(** ** Retained discovery *)

(** A transport with the retained messages of its broker: a retained message
    replaces the one of its topic, and an empty one removes it. *)
Record Retaining (T : Type) := mkRetaining { rt_inner : T; rt_store : gmap string string }.
Arguments mkRetaining {T}.
Arguments rt_inner {T}.
Arguments rt_store {T}.

Definition retain (topic : string) (retained : bool) (payload : string) (store : gmap string string) :
    gmap string string :=
  if retained then partial_alter (fun _ => if bool_decide (payload = "") then None else Some payload) topic store
  else store.

#[export] Instance Retaining_Transport {T} `{!Transport T} : Transport (Retaining T) := {
  transport_Publish ctx topic qos retained payload t :=
    let '(err, inner) := transport_Publish ctx topic qos retained payload (rt_inner t) in
    (err, mkRetaining inner
       (match err with None => retain topic retained payload (rt_store t) | Some _ => rt_store t end));
  transport_Subscribe ctx filter qos handler t :=
    let '(err, inner) := transport_Subscribe ctx filter qos handler (rt_inner t) in
    (err, mkRetaining inner (rt_store t))
}.

(** The payload last published for a key, and what stays retained of it. *)
Fixpoint last_payload (key : string) (items : list entity) : option string :=
  match items with
  | [] => None
  | item :: rest =>
      match last_payload key rest with
      | Some p => Some p
      | None => if bool_decide (entity_key (et_Component item) (et_ObjectID item) = key)
                then Some (et_Payload item) else None
      end
  end.
Definition kept (payload : string) : option string := if bool_decide (payload = "") then None else Some payload.

Definition entity_keys (items : list entity) : gset string :=
  list_to_set ((fun item => entity_key (et_Component item) (et_ObjectID item)) <$> items).

(** ** Keys and topics *)
Lemma split_key_sound key c o l : split_key key = c :: o :: l → key = entity_key c o.
Proof.
  revert c o l. induction key as [|a key IH]; intros c o l; simpl; [done|].
  destruct (Ascii.eqb a slash) eqn:Ha.
  - apply Ascii.eqb_eq in Ha as ->. by intros [= <- <- _].
  - destruct (split_key key) as [|c' [|o' l']] eqn:Hk; try done. intros [= <- <- <-].
    by rewrite (IH c' o' l' eq_refl).
Qed.

Lemma split_key_complete c o : free_of slash c → split_key (entity_key c o) = [c; o].
Proof.
  unfold entity_key. induction c as [|a c IH]; [done|]. intros [Ha Hc]%free_of_cons. simpl.
  apply Ascii.eqb_neq in Ha as ->. by rewrite (IH Hc).
Qed.

Lemma entity_key_inj c o c' o' :
  free_of slash c → free_of slash c' → entity_key c o = entity_key c' o' → c = c' ∧ o = o'.
Proof.
  intros Hc Hc' He. pose proof (split_key_complete c o Hc) as H1. rewrite He, split_key_complete in H1 by done.
  by simplify_eq.
Qed.

(** A discovery topic: its levels, its policy and the shape of its component. *)
Lemma HADiscovery_topic c o topic policy :
  HADiscovery c o = (topic, policy, None) →
  splitTopic topic = ["homeassistant"; c; o; "config"] ∧ tp_Retained policy = true ∧ free_of slash c.
Proof.
  intros H. set (r := mkTopicRegistry "a").
  assert (contract_topic r (ForDiscovery c o) = Some (topic, policy)) as Hc by (simpl; by rewrite H).
  destruct (contract_topic_levels r (ForDiscovery c o) topic policy eq_refl Hc) as [Hl Hp].
  destruct (contract_topic_policy r (ForDiscovery c o) topic policy Hc) as [-> _].
  split_and!; [done|done|]. by apply Forall_cons in Hp as [_ [(_ & ? & _) _]%Forall_cons].
Qed.

Lemma HADiscovery_inj c o c' o' topic p p' :
  HADiscovery c o = (topic, p, None) → HADiscovery c' o' = (topic, p', None) → c = c' ∧ o = o'.
Proof.
  intros (H1 & _ & _)%HADiscovery_topic (H2 & _ & _)%HADiscovery_topic. rewrite H1 in H2. by simplify_eq.
Qed.

Section discovery.
Context {T I A S : Type} {HT : Transport T} {HI : Inventory I} {HA : AlarmReader A}.
Context `{!JSON, !Marshaler Envelope, !Marshaler discoveryPayload, !Marshaler StatusData}.
Context (range : gset string → list string).
Context (range_all : ∀ s, range s ≡ₚ elements s).
Abbreviation M := (HAManager (Retaining T) I A S).
Implicit Type m : M.

Definition store (m : M) : gmap string string := rt_store (ha_transport m).

(** Every discovery message the broker retains is one the manager remembers
    having published. *)
Definition synced (m : M) : Prop :=
  ∀ c o topic policy, HADiscovery c o = (topic, policy, None) →
    entity_key c o ∉ ha_published m → store m !! topic = None.

(** Only the transport differs. *)
Definition moved (m m' : M) : Prop := m' = set_transport (ha_transport m') m.

Lemma moved_refl m : moved m m.
Proof. by destruct m. Qed.

Lemma moved_trans m1 m2 m3 : moved m1 m2 → moved m2 m3 → moved m1 m3.
Proof. unfold moved. intros -> ->. done. Qed.

Lemma transport_publish_store ctx topic policy payload m m' :
  transport_publish ctx topic policy payload m = (None, m') →
  moved m m' ∧ store m' = retain topic (tp_Retained policy) payload (store m).
Proof.
  unfold transport_publish. simpl. destruct (transport_Publish _ _ _ _ _ _) as [[err|] t]; [done|].
  by intros [= <-].
Qed.

(** Publishing on one discovery topic, seen from another. *)
Lemma publish_discovery ctx c o c' o' topic topic' policy policy' payload m m' :
  HADiscovery c o = (topic, policy, None) → HADiscovery c' o' = (topic', policy', None) →
  transport_publish ctx topic' policy' payload m = (None, m') →
  moved m m' ∧ store m' !! topic =
    (if bool_decide (entity_key c' o' = entity_key c o) then kept payload else store m !! topic).
Proof.
  intros Hd Hd' [Hm Hs]%transport_publish_store. split; [done|]. rewrite Hs. unfold retain.
  destruct (HADiscovery_topic _ _ _ _ Hd) as (_ & _ & Hfc).
  destruct (HADiscovery_topic _ _ _ _ Hd') as (_ & -> & Hfc').
  destruct (bool_decide_reflect (entity_key c' o' = entity_key c o)) as [Hk|Hk].
  - apply entity_key_inj in Hk as [-> ->]; [|done..]. rewrite Hd in Hd'. simplify_eq.
    by rewrite lookup_partial_alter_eq.
  - rewrite lookup_partial_alter_ne; [done|]. intros ->. apply Hk.
    by destruct (HADiscovery_inj _ _ _ _ _ _ _ Hd Hd') as [-> ->].
Qed.

Lemma publish_entities_store ctx items next next' m m' :
  publish_entities ctx items next m = (None, next', m') →
  moved m m' ∧ next' = entity_keys items ∪ next
  ∧ ∀ c o topic policy, HADiscovery c o = (topic, policy, None) →
      store m' !! topic = match last_payload (entity_key c o) items with
                          | Some p => kept p
                          | None => store m !! topic
                          end.
Proof.
  revert next m. induction items as [|item items IH]; intros next m; simpl.
  { intros [= <- <-]. split_and!; [apply moved_refl|set_solver|done]. }
  destruct (HADiscovery (et_Component item) (et_ObjectID item)) as [[topic' policy'] [err|]] eqn:Hd'; [done|].
  destruct (transport_publish _ _ _ _ _) as [[err|] m1] eqn:Hp; [done|]. intros Hrest.
  destruct (IH _ _ Hrest) as (Hm & -> & Hs).
  split_and!.
  - apply (moved_trans m m1); [|done]. by apply transport_publish_store in Hp as [? _].
  - unfold entity_keys. rewrite fmap_cons, list_to_set_cons. set_solver.
  - intros c o topic policy Hd. rewrite (Hs _ _ _ _ Hd). destruct (last_payload _ items); [done|].
    destruct (publish_discovery _ _ _ _ _ _ _ _ _ _ _ _ Hd Hd' Hp) as [_ ->].
    by destruct (bool_decide _).
Qed.

Lemma last_payload_keys key items : is_Some (last_payload key items) ↔ key ∈ entity_keys items.
Proof.
  unfold entity_keys. rewrite elem_of_list_to_set. induction items as [|item items IH]; simpl.
  - split; [by intros []|by intros ?%not_elem_of_nil].
  - rewrite elem_of_cons, <- IH. destruct (last_payload key items); [naive_solver|].
    case_bool_decide; [naive_solver|]. split; [by intros []|]. intros [->|[]]; done.
Qed.

(** Clearing touches no key of [next] and only ever empties. *)
Definition clears (next : gset string) (cleared : list string) (m m' : M) : Prop :=
  moved m m' ∧ ∀ c o topic policy, HADiscovery c o = (topic, policy, None) →
    (entity_key c o ∈ next → store m' !! topic = store m !! topic)
    ∧ (entity_key c o ∉ next → entity_key c o ∈ cleared ∨ store m !! topic = None → store m' !! topic = None).

Lemma ha_clear_clears ctx c o next m m' :
  entity_key c o ∉ next → ha_clear ctx c o m = (None, m') → clears next [entity_key c o] m m'.
Proof.
  intros Hn. unfold ha_clear. destruct (HADiscovery c o) as [[topic' policy'] [err|]] eqn:Hd'; [done|].
  intros Hp. split; [by apply transport_publish_store in Hp as [? _]|]. intros c' o' topic policy Hd.
  destruct (publish_discovery _ _ _ _ _ _ _ _ _ _ _ _ Hd Hd' Hp) as [_ ->].
  destruct (bool_decide_reflect (entity_key c o = entity_key c' o')) as [Hk|Hk]; [rewrite <- Hk; naive_solver|].
  split; [done|]. intros _ [Hin%list_elem_of_singleton|?]; [congruence|done].
Qed.

Lemma clears_trans next l1 l2 m1 m2 m3 :
  clears next l1 m1 m2 → clears next l2 m2 m3 → clears next (l1 ++ l2) m1 m3.
Proof.
  intros [Hm1 H1] [Hm2 H2]. split; [by apply (moved_trans m1 m2)|]. intros c o topic policy Hd.
  destruct (H1 _ _ _ _ Hd) as [Ha Hb], (H2 _ _ _ _ Hd) as [Hc He]. split.
  - intros Hin. by rewrite Hc, Ha.
  - intros Hn. rewrite elem_of_app. intros [[?|?]|?]; apply He; auto.
Qed.

Lemma clears_nothing next m : clears next [] m m.
Proof. split; [apply moved_refl|]. intros c o topic policy _. split; [done|]. by intros _ [?%not_elem_of_nil|?]. Qed.

Lemma clears_weaken next l l' m m' : (∀ k, k ∈ l' → k ∉ next → k ∈ l) → clears next l m m' → clears next l' m m'.
Proof. intros Hl [Hm Hc]. split; [done|]. intros c o topic policy Hd. destruct (Hc _ _ _ _ Hd). naive_solver. Qed.

Lemma clear_removed_clears ctx keys next m m' :
  clear_removed ctx keys next m = (None, m') → clears next keys m m'.
Proof.
  revert m. induction keys as [|key keys IH]; intros m; simpl; [intros [= <-]; apply clears_nothing|].
  case_bool_decide as Hin.
  { intros Hr%IH. eapply clears_weaken; [|exact Hr]. intros k [->|]%elem_of_cons; done. }
  destruct (split_key key) as [|c [|o l]] eqn:Hk; try done. apply split_key_sound in Hk as ->.
  destruct (ha_clear ctx c o m) as [[err|] m1] eqn:Hc; [done|]. intros Hr%IH.
  apply (clears_trans next [_] keys m m1); [|done]. by apply ha_clear_clears with ctx.
Qed.

Lemma clear_tombstones_clears ctx items next m m' :
  clear_tombstones ctx items next m = (None, m') → clears next [] m m'.
Proof.
  revert m. induction items as [|item items IH]; intros m; simpl; [intros [= <-]; apply clears_nothing|].
  case_bool_decide as Hin; [done|].
  destruct (ha_clear _ _ _ m) as [[err|] m1] eqn:Hc; [done|]. intros Hr%IH.
  apply (clears_weaken next ([entity_key (tb_Component item) (tb_ObjectID item)] ++ [])).
  { intros k ?%not_elem_of_nil. done. }
  apply (clears_trans next _ _ m m1); [|done]. by apply ha_clear_clears with ctx.
Qed.

(** The status topic is no discovery topic. *)
Lemma publishStatus_clears env ctx next m m' :
  topicSegmentPattern (tg_siteID (ha_registry m)) = true →
  publishStatus env ctx m = (None, m') → clears next [] m m'.
Proof.
  intros Hsite. unfold publishStatus. destruct (alarm_counts ctx m) as [[n k]|err]; [|done].
  destruct (se_correlation env) as [corr [err|]]; [done|].
  destruct (Encode _ _ _ _ _ _ _ _ _) as [err|payload]; [done|].
  destruct (HAStatus (ha_registry m)) as [status policy'] eqn:Hst.
  intros [Hm Hs]%transport_publish_store. split; [done|]. intros c o topic policy Hd.
  assert (store m' !! topic = store m !! topic) as ->; [|split; [done|by intros _ [?%not_elem_of_nil|?]]].
  rewrite Hs. unfold retain. destruct (tp_Retained policy'); [|done]. rewrite lookup_partial_alter_ne; [done|].
  intros ->. apply HADiscovery_topic in Hd as (Hl & _).
  destruct (contract_topic_levels (ha_registry m) ForHAStatus topic policy' Hsite) as [Hl' _];
    [simpl; by rewrite Hst|]. rewrite Hl in Hl'. done.
Qed.

(** A refresh that succeeds leaves the broker retaining exactly the current
    discovery: on the topic of every entity of the present inventory its last
    payload, and nothing on any other discovery topic, the entities removed
    since and the tombstones included, provided that nothing was retained
    before that the manager did not know of; commands are then allowed for
    exactly the present equipment. *)
Theorem Refresh_retains_current env ctx m m' :
  topicSegmentPattern (tg_siteID (ha_registry m)) = true → synced m →
  Refresh range env ctx m = (None, m') →
  ∃ entities allowed, ha_entities ctx m = ((entities, allowed), None)
    ∧ synced m' ∧ ha_allowed m' = allowed ∧ ha_published m' = entity_keys entities ∧ ha_lastErr m' = None
    ∧ ∀ c o topic policy, HADiscovery c o = (topic, policy, None) →
        store m' !! topic = (last_payload (entity_key c o) entities ≫= kept).
Proof.
  intros Hsite Hsync. unfold Refresh.
  destruct (ha_entities ctx m) as [[entities allowed] [err|]] eqn:He; [done|].
  destruct (publish_entities ctx entities ∅ m) as [[[err|] next] m1] eqn:Hp; [done|].
  apply publish_entities_store in Hp as (Hm1 & Hnext & Hs1).
  destruct (clear_removed _ _ _ _) as [[err|] m2] eqn:Hr; [done|]. apply clear_removed_clears in Hr as [Hm2 Hc2].
  destruct (clear_tombstones _ _ _ _) as [[err|] m3] eqn:Ht; [done|].
  apply (clear_tombstones_clears _ _ next) in Ht as [Hm3 Hc3]. intros Hst.
  assert (topicSegmentPattern (tg_siteID (ha_registry m3)) = true) as Hsite3 by (by rewrite Hm3, Hm2, Hm1).
  apply (publishStatus_clears _ _ next _ _ Hsite3) in Hst as [Hm4 Hc4].
  rewrite (right_id_L ∅ (∪)) in Hnext.
  assert (∀ c o topic policy, HADiscovery c o = (topic, policy, None) →
    store m' !! topic = (last_payload (entity_key c o) entities ≫= kept)) as Hfinal.
  { intros c o topic policy Hd. destruct (Hc2 _ _ _ _ Hd) as [Ha2 Hb2], (Hc3 _ _ _ _ Hd) as [Ha3 Hb3],
      (Hc4 _ _ _ _ Hd) as [Ha4 Hb4]. pose proof (Hs1 _ _ _ _ Hd) as H1.
    pose proof (last_payload_keys (entity_key c o) entities) as Hk. rewrite <- Hnext in Hk.
    destruct (last_payload (entity_key c o) entities) as [p|].
    - assert (entity_key c o ∈ next) as Hin by (apply Hk; eauto). simpl. rewrite Ha4, Ha3, Ha2 by done. done.
    - assert (entity_key c o ∉ next) as Hnin by (intros [? ?]%Hk; done). simpl.
      apply Hb4; [done|right]. apply Hb3; [done|right]. apply Hb2; [done|].
      destruct (decide (entity_key c o ∈ ha_published m)) as [Hin|Hno].
      + left. rewrite range_all. rewrite Hm1. simpl. set_solver.
      + right. simpl. change (store m1 !! topic = None). rewrite H1. by apply (Hsync c o topic policy). }
  assert (ha_published m' = next ∧ ha_allowed m' = allowed ∧ ha_lastErr m' = None) as (Hpub & Hal & Hle)
    by (by rewrite Hm4, Hm3, Hm2).
  exists entities, allowed. split_and!; try done; [|by rewrite Hpub].
  intros c o topic policy Hd Hn. rewrite (Hfinal _ _ _ _ Hd).
  destruct (last_payload _ entities) as [p|] eqn:Hl; [|done].
  destruct Hn. rewrite Hpub, Hnext. apply last_payload_keys. eauto.
Qed.
End discovery.

(** ** Allowed equipment and object identifiers *)
Lemma allow_lookup equipment allowed resource id :
  foldl allow allowed equipment !! resource = Some id →
  allowed !! resource = Some id ∨ ∃ e, e ∈ equipment ∧ resource = equipment_resource (eq_ID e) ∧ id = eq_ID e.
Proof.
  revert allowed. induction equipment as [|e l IH]; intros allowed; simpl; [by left|].
  intros [Ha|(e' & ? & ?)]%IH; [|right; set_solver]. unfold allow in Ha.
  destruct (decide (equipment_resource (eq_ID e) = resource)) as [<-|Hne].
  - rewrite lookup_insert_eq in Ha. simplify_eq. right. exists e. set_solver.
  - rewrite lookup_insert_ne in Ha by done. by left.
Qed.

(** The equipment a resource is allowed for is in the inventory, and the
    resource is named after it. *)
Lemma entities_allowed {T I A S} {HI : Inventory I} `{!JSON, !Marshaler discoveryPayload} ctx
    (m : HAManager T I A S) entities allowed resource id :
  ha_entities ctx m = ((entities, allowed), None) → allowed !! resource = Some id →
  resource = equipment_resource id
  ∧ ∃ e, e ∈ (inventory_Equipment ctx (ha_inventory m)).1 ∧ eq_ID e = id.
Proof.
  unfold ha_entities. intros He Ha.
  destruct (inventory_Devices ctx _) as [devices [err|]]; [done|].
  destruct (inventory_Sensors ctx _) as [sensors [err|]]; [done|].
  destruct (inventory_Equipment ctx _) as [equipment [err|]]; [done|].
  destruct (Topic _ _ _) as [[availability p] [err|]]; [done|].
  destruct (entity_loop _ sensors) as [si|err]; [|done].
  destruct (entity_loop _ equipment) as [ei|err]; [|done]. simplify_eq/=.
  apply allow_lookup in Ha as [Ha|(e & He & -> & ->)]; [by rewrite lookup_empty in Ha|eauto].
Qed.

Lemma map_runes_chars skip s : Forall (fun c => object_char c = true) (bytes_of (map_runes skip s)).
Proof.
  revert skip. induction s as [|a s IH]; intros [|skip]; try apply Forall_nil_2; [|apply IH].
  apply Forall_cons_2; [|apply IH]. by destruct (object_char a) eqn:Ha.
Qed.

(** A suggested object identifier has only the characters Home Assistant
    admits, whatever the identity it is made of. *)
Lemma entityObjectID_chars kind id : Forall (fun c => object_char c = true) (bytes_of (entityObjectID kind id)).
Proof. apply map_runes_chars. Qed.

(** ** With the MQTT client *)
#[export] Instance Client_Transport {K} `{!Broker K} : Transport (@Client K) := {
  transport_Publish := Client_Publish; transport_Subscribe := Client_Subscribe
}.

Section with_client.
Context {K I A S : Type} `{!Broker K} {HI : Inventory I} {HA : AlarmReader A}.
Context `{!JSON, !Marshaler Envelope, !Marshaler discoveryPayload, !Marshaler StatusData}.
Context (range : gset string → list string) (receive_address : nat) (render : error → string).

(** On the program's own MQTT client the integration never comes up: the
    client refuses the subscription to the command filter, and [Start] answers
    no error, publishes no discovery, allows no equipment and leaves the
    client as it was; the integration reports itself unhealthy. *)
Theorem Start_on_client_does_nothing env ctx dependencies cfg (client : @Client K) (inventory : I)
    (alarms : option A) (commands : S) m now :
  HA_New dependencies cfg client inventory alarms commands = inl m →
  tg_siteID (cl_registry client) = hc_SiteID cfg →
  let '(err, m') := HA_Start range receive_address env ctx m in
  err = None ∧ ha_transport m' = client ∧ ha_published m' = ∅ ∧ ha_allowed m' = ∅
  ∧ st_Healthy (HA_Health render now m') = false.
Proof.
  unfold HA_New. destruct (negb dependencies); [done|]. destruct (_ || _); [done|].
  unfold NewTopicRegistry. destruct (topicSegmentPattern (hc_SiteID cfg)) eqn:Hsite; [|done]. simpl.
  destruct (NewCodec _ _ _) as [codec|err]; [|done]. intros [= <-] Hreg. unfold HA_Start. simpl.
  assert (mkTopicRegistry (hc_SiteID cfg) = cl_registry client) as Hr
    by (rewrite <- Hreg; by destruct (cl_registry client)).
  destruct (SubscriptionFilter (cl_registry client) PurposeHACommand) as [[filter qos] err] eqn:Hf.
  assert (err = None) as -> by (simpl in Hf; by simplify_eq).
  pose proof (home_assistant_filter_refused (cl_registry client) filter qos) as Hsub.
  rewrite Hreg in Hsub. specialize (Hsub Hsite Hf). simpl in Hf. injection Hf as <- <-. rewrite Hr.
  unfold Client_Subscribe. rewrite Hsub. simpl. by destruct (ctx_Err ctx).
Qed.
End with_client.

(** ** With the command service *)
Section with_service.
Context {T I A P V X W : Type} `{!Policy P, !RevisionReader V, !Executor X, !Publisher W, !JSON, !Marshaler Result}.
Context (now : nat → Time).
Context (newCommandID : nat → CommandID * option error).
Context (newCorrelationID : nat → CorrelationID * option error).
Context (factory : nat → FactoryEnv).

#[local] Instance Service_Commander : Commander (@Service P V X W) :=
  { commander_Submit := Submit now newCommandID newCorrelationID factory }.

(** Message identifiers are 16 bits and reused: a switch message whose resource,
    identifier and payload are those of an earlier one dispatches nothing, no
    matter how long ago that was. *)
Theorem reused_message_id_dispatches_nothing env message (m : HAManager T I A (@Service P V X W)) c :
  switch_command env (ms_Topic message) (ms_Payload message) (ms_MessageID message) m c →
  is_Some (sv_idempotency (ha_commands m) !! c_IdempotencyKey c) →
  sv_executor (ha_commands (HA_receive env message m)) = sv_executor (ha_commands m).
Proof.
  intros Hc [id Hid].
  pose proof (receive_cases env message m) as Hr. destruct Hr as [[(c' & (_ & _ & Hc') & ->)|[_ ->]] _]; [|done].
  assert (c' = c) as ->.
  { destruct Hc as (r & e & Hs & Ha & _ & _ & ->), Hc' as (r' & e' & Hs' & Ha' & _ & _ & ->).
    rewrite Hs in Hs'. by simplify_eq/=. }
  pose proof (Submit_outcome now newCommandID newCorrelationID factory (command_context env) c (ha_commands m)) as Ho.
  unfold commander_Submit, Service_Commander.
  destruct (Submit _ _ _ _ _ _ _) as [[r err] s']. destruct Ho as [(_ & _ & He & _)|(c' & k & _ & _ & _ & Hn & _)];
    [exact He|congruence].
Qed.
End with_service.
