(* ===== verification/Operations.v ===== *)
(** * Appliance operations: [internal/operations/service.go]

    Installation, configuration, upgrades, rollback, backup and restore over
    the [Host] interface. Hashing, signatures, the archive format and the
    configuration decoder's libraries are interfaces. *)

From Stdlib Require Import ZArith Lia String Ascii.
From stdpp Require Import base gmap strings list pretty sorting.
From S2P Require Import Prelude Domain Events Topics Config.

(** ** Boundaries *)
Class Host (H : Type) := {
  host_ReadFile : string → H → (error + string) * H;
  host_WriteFileAtomic : string → string → Z → H → option error * H;
  host_Exists : string → H → (bool * option error) * H;
  host_MkdirAll : string → Z → H → option error * H;
  host_Remove : string → H → option error * H;
  host_Run : Context → list string → H → option error * H;
  host_GOOS : H → string;
  host_GOARCH : H → string
}.

(** [ed25519.Verify] of a key, a message and a signature. *)
Class Signatures := { ed25519_Verify : string → string → string → bool }.

(** The writer of [archive/zip] and one entry of its reader: [ze_Read limit]
    opens the entry and reads up to [limit] bytes. *)
Class ZipWriter (A : Type) := {
  zip_NewWriter : A;
  zip_Create : string → A → option error * A;
  zip_Write : string → A → option error * A;
  zip_Close : A → error + string
}.
Record ZipEntry := mkZipEntry { ze_Name : string; ze_Read : Z → error + string }.
Class ZipReader := { zip_NewReader : string → error + list ZipEntry }.

(** [json.Unmarshal] into a [map[string]string]. *)
Class ManifestDecoder := { decode_manifest : string → error + gmap string string }.

(** ** Paths and data *)
Definition binaryPath : string := "/opt/aquaos/bin/aquaos".
Definition configPath : string := "/etc/aquaos/aquaos.yaml".
Definition versionPath : string := "/var/lib/aquaos/current-version".
Definition unitPath : string := "/etc/systemd/system/aquaos.service".
Definition sysusersPath : string := "/usr/lib/sysusers.d/aquaos.conf".
Definition tmpfilesPath : string := "/usr/lib/tmpfiles.d/aquaos.conf".
Definition rollbackBinary : string := "/var/lib/aquaos/rollback/aquaos".
Definition rollbackVersion : string := "/var/lib/aquaos/rollback/version".
Definition rollbackConfig : string := "/var/lib/aquaos/rollback/aquaos.yaml".

(** [ManagedPaths], whose order is the lexical one. *)
Definition ManagedPaths : list string :=
  [configPath; unitPath; binaryPath; sysusersPath; tmpfilesPath; versionPath; rollbackBinary; rollbackConfig;
   rollbackVersion].

Record Actor := mkActor { ac_ID : string; ac_Administrator : bool }.

Record InstallRequest := mkInstallRequest {
  ir_Actor : Actor; ir_Version : string; ir_Binary : string; ir_SHA256 : string; ir_Signature : string;
  ir_PublicKey : string; ir_Configuration : string; ir_ControlVMAcknowledged : bool; ir_DryRun : bool
}.
Record UpgradeRequest := mkUpgradeRequest {
  ur_Actor : Actor; ur_Version : string; ur_Binary : string; ur_SHA256 : string; ur_Signature : string;
  ur_PublicKey : string; ur_DryRun : bool
}.
Record OpResult := mkOpResult {
  or_Operation : string; or_Changed : bool; or_Version : string; or_Actions : list string; or_RolledBack : bool
}.
Definition zero_OpResult : OpResult := mkOpResult "" false "" [] false.
Definition changed (r : OpResult) : OpResult :=
  mkOpResult (or_Operation r) true (or_Version r) (or_Actions r) (or_RolledBack r).
Definition rolled_back (r : OpResult) : OpResult :=
  mkOpResult (or_Operation r) (or_Changed r) (or_Version r) (or_Actions r) true.

Record OpStatus := mkOpStatus {
  os_Installed : bool; os_Version : string; os_Configured : bool; os_ServiceUnit : bool; os_Platform : string
}.
Definition zero_OpStatus : OpStatus := mkOpStatus false "" false false "".
Record Diagnostics := mkDiagnostics {
  dg_Status : OpStatus; dg_ConfigDigest : string; dg_Checks : gmap string string
}.
Definition zero_Diagnostics : Diagnostics := mkDiagnostics zero_OpStatus "" ∅.
Record ConfigurationResult := mkConfigurationResult {
  cr_Digest : string; cr_Valid : bool; cr_Changed : bool; cr_RestartRequired : bool; cr_RolledBack : bool
}.
Definition zero_ConfigurationResult : ConfigurationResult := mkConfigurationResult "" false false false false.

Definition newline : string := String (ascii_of_nat 10) "".
Definition quote_mark : string := String (ascii_of_nat 34) "".

Definition sysusers_text : string :=
  "u aquaos - " +:+ quote_mark +:+ "AquaOS service" +:+ quote_mark +:+ " /var/lib/aquaos /usr/sbin/nologin" +:+ newline.
Definition tmpfiles_text : string :=
  "d /var/lib/aquaos 0750 aquaos aquaos -" +:+ newline +:+ "d /var/log/aquaos 0750 aquaos aquaos -" +:+ newline.

Definition systemdUnit : string := String.concat newline
  ["[Unit]"; "Description=AquaOS Core"; "After=network-online.target"; "Wants=network-online.target"; "";
   "[Service]"; "Type=simple"; "User=aquaos"; "Group=aquaos"; "EnvironmentFile=-/etc/aquaos/aquaos.env";
   "ExecStart=/opt/aquaos/bin/aquaos -config /etc/aquaos/aquaos.yaml"; "Restart=on-failure"; "RestartSec=5s";
   "CPUWeight=1000"; "OOMScoreAdjust=-500"; "NoNewPrivileges=true"; "PrivateTmp=true"; "ProtectSystem=strict";
   "ProtectHome=true"; "ReadWritePaths=/var/lib/aquaos /var/log/aquaos"; "CapabilityBoundingSet=";
   "AmbientCapabilities="; ""; "[Install]"; "WantedBy=multi-user.target"; ""].

(** A file mode by its octal digits. *)
Definition octal (a b c : Z) : Z := 64 * a + 8 * b + c.

(** ** Checks *)
Definition authorize (actor : Actor) : option error :=
  when blank (ac_ID actor) || negb (ac_Administrator actor) yield
    Some (ErrNew "administrator authorization is required");;
  None.

(** [strings.EqualFold] with a text of hexadecimal digits, of which only ASCII
    letters are folds. *)
Fixpoint EqualFold (hex s : string) : bool :=
  match hex, s with
  | EmptyString, EmptyString => true
  | String a hex, String b s =>
      Ascii.eqb a (if in_range 65 90 b then ascii_of_N (Z.to_N (code b + 32)) else b) && EqualFold hex s
  | _, _ => false
  end.

Section artifacts.
Context `{!Digester, !Signatures}.

Definition verifyArtifact (binary expected signature key : string) : option error :=
  when (String.length binary =? 0)%nat || negb (String.length key =? 32)%nat || negb (String.length signature =? 64)%nat
    yield Some (ErrNew "signed artifact, signature, and trusted Ed25519 key are required");;
  let actual := sha256_hex binary in
  when negb (EqualFold actual (TrimSpace expected)) yield Some (ErrNew "artifact checksum mismatch");;
  when negb (ed25519_Verify key actual signature) yield Some (ErrNew "artifact signature verification failed");;
  None.

Definition VerifyReleaseArtifact : string → string → string → string → option error := verifyArtifact.
End artifacts.

(** ** The service

    [must h from call ;; k] continues on the host after a call that succeeded
    and otherwise returns its error with an empty result; [tries h from call]
    ignores the error. *)
Notation "'must' h 'from' e ';;' k" :=
  (let '(failure, h) := e in match failure with Some failure => ((zero_OpResult, Some failure), h) | None => k end)
  (at level 100, h name, e at level 99, k at level 200, right associativity, only parsing) : go_scope.
Notation "'tries' h 'from' e ';;' k" := (let '(_, h) := e in k)
  (at level 100, h name, e at level 99, k at level 200, right associativity, only parsing) : go_scope.

Section service.
Context {H : Type} {HH : Host H}.
Context `{!Digester, !Signatures, !JSON, !Marshaler Config}.
Context `{!YAML, !URLParser, !NetParser, !MapRange} (render : error → string).

Definition refused {A} (zero : A) (err : error) (h : H) : (A * option error) * H := ((zero, Some err), h).

Definition restart (ctx : Context) (h : H) : option error * H :=
  host_Run ctx ["systemctl"; "restart"; "aquaos.service"] h.

Definition preflight (ack : bool) (h : H) : option error * H :=
  when negb ack yield (Some (ErrNew "dedicated AquaOS control host acknowledgement is required"), h);;
  when negb (bool_decide (host_GOOS h = "linux")) || negb (bool_decide (host_GOARCH h = "amd64")) yield
    (Some (ErrNew ("unsupported production platform " +:+ host_GOOS h +:+ "/" +:+ host_GOARCH h
                     +:+ "; require linux/amd64")), h);;
  let '((exists_, _), h) := host_Exists "/etc/pve" h in
  when exists_ yield (Some (ErrNew "refusing to install on a hypervisor host"), h);;
  (None, h).

Definition install_actions : list string :=
  ["create least-privilege aquaos account"; "install binary atomically"; "preserve or create validated configuration";
   "install native systemd unit"; "enable and start aquaos.service"].

(** [WriteFileAtomic] guarded by a condition, with the result it leaves. *)
Definition write_when (b : bool) (path payload : string) (mode : Z) (h : H) : option error * H :=
  if b then host_WriteFileAtomic path payload mode h else (None, h).

Definition Install (ctx : Context) (request : InstallRequest) (h : H) : (OpResult * option error) * H :=
  iferr authorize (ir_Actor request) as err yield refused zero_OpResult err h;;
  must h from preflight (ir_ControlVMAcknowledged request) h;;
  when bool_decide (ir_Version request = "") yield refused zero_OpResult (ErrNew "version is required") h;;
  iferr verifyArtifact (ir_Binary request) (ir_SHA256 request) (ir_Signature request) (ir_PublicKey request) as err
    yield refused zero_OpResult err h;;
  match DecodeCandidate render (ir_Configuration request) with
  | inl err => refused zero_OpResult (ErrWrap "validate install configuration" err) h
  | inr _ =>
      let result := mkOpResult "install" false (ir_Version request) install_actions false in
      when ir_DryRun request yield ((result, None), h);;
      must h from host_MkdirAll "/var/lib/aquaos" (octal 7 5 0) h;;
      must h from host_MkdirAll "/var/log/aquaos" (octal 7 5 0) h;;
      must h from host_WriteFileAtomic sysusersPath sysusers_text (octal 6 4 4) h;;
      must h from host_WriteFileAtomic tmpfilesPath tmpfiles_text (octal 6 4 4) h;;
      must h from host_Run ctx ["systemd-sysusers"; sysusersPath] h;;
      must h from host_Run ctx ["systemd-tmpfiles"; "--create"; tmpfilesPath] h;;
      let '((existing, err), h) := host_Exists configPath h in
      iferr err as err yield refused zero_OpResult err h;;
      must h from write_when (negb existing) configPath (ir_Configuration request) (octal 6 4 0) h;;
      let result := if existing then result else changed result in
      let '(current, h) := host_ReadFile binaryPath h in
      let stale := match current with inl _ => true | inr b => negb (bool_decide (b = ir_Binary request)) end in
      must h from write_when stale binaryPath (ir_Binary request) (octal 7 5 5) h;;
      let result := if stale then changed result else result in
      must h from host_WriteFileAtomic unitPath systemdUnit (octal 6 4 4) h;;
      must h from host_WriteFileAtomic versionPath (ir_Version request +:+ newline) (octal 6 4 0) h;;
      must h from host_Run ctx ["systemctl"; "daemon-reload"] h;;
      must h from host_Run ctx ["systemctl"; "enable"; "--now"; "aquaos.service"] h;;
      ((result, None), h)
  end.

Definition read_or_empty (r : error + string) : string := match r with inl _ => "" | inr s => s end.

Definition GetStatus (ctx : Context) (actor : Actor) (h : H) : (OpStatus * option error) * H :=
  iferr authorize actor as err yield refused zero_OpStatus err h;;
  iferr ctx_Err ctx as err yield refused zero_OpStatus err h;;
  let '((binary, _), h) := host_Exists binaryPath h in
  let '((configured, _), h) := host_Exists configPath h in
  let '((unit, _), h) := host_Exists unitPath h in
  let '(version, h) := host_ReadFile versionPath h in
  ((mkOpStatus binary (TrimSpace (read_or_empty version)) configured unit (host_GOOS h +:+ "/" +:+ host_GOARCH h),
    None), h).

Definition GetConfiguration (ctx : Context) (actor : Actor) (h : H) : (error + Config) * H :=
  iferr authorize actor as err yield (inl err, h);;
  iferr ctx_Err ctx as err yield (inl err, h);;
  let '(payload, h) := host_ReadFile configPath h in
  match payload with
  | inl err => (inl (ErrWrap "read active configuration" err), h)
  | inr payload =>
      match DecodeCandidate render payload with
      | inl err => (inl (ErrWrap "decode active configuration" err), h)
      | inr value => (inr (Config_Redacted value), h)
      end
  end.

Definition mark (name : string) (b : bool) (checks : gmap string string) : gmap string string :=
  if b then <[name := "pass"]> checks else checks.
Definition all_fail : gmap string string :=
  list_to_map ((fun name => (name, "fail")) <$> ["platform"; "binary"; "configuration"; "systemd"; "service"]).

Definition Verify (ctx : Context) (actor : Actor) (h : H) : (Diagnostics * option error) * H :=
  let '((status, err), h) := GetStatus ctx actor h in
  iferr err as err yield refused zero_Diagnostics err h;;
  let checks := mark "systemd" (os_ServiceUnit status) (mark "binary" (os_Installed status)
    (mark "platform" (bool_decide (os_Platform status = "linux/amd64")) all_fail)) in
  let '(err, h) := host_Run ctx ["systemctl"; "is-active"; "--quiet"; "aquaos.service"] h in
  let checks := mark "service" (bool_decide (err = None)) checks in
  let '(payload, h) := host_ReadFile configPath h in
  let '(digest, checks) :=
    match payload with
    | inl _ => ("", checks)
    | inr payload =>
        match DecodeCandidate render payload with
        | inl _ => ("", checks)
        | inr cfg => (read_or_empty (Config_Digest cfg), mark "configuration" true checks)
        end
    end in
  let result := mkDiagnostics status digest checks in
  when negb (forallb (fun kv => bool_decide (kv.2 = "pass")) (map_to_list checks)) yield
    ((result, Some (ErrNew "deployment verification failed")), h);;
  ((result, None), h).

(** [Diagnostics], the method. *)
Definition Service_Diagnostics (ctx : Context) (actor : Actor) (h : H) : (Diagnostics * option error) * H :=
  Verify ctx actor h.

Definition Repair (ctx : Context) (actor : Actor) (dryRun : bool) (h : H) : (OpResult * option error) * H :=
  iferr authorize actor as err yield refused zero_OpResult err h;;
  let result := mkOpResult "repair" false ""
    ["restore managed systemd definitions"; "reload systemd"; "restart AquaOS"] false in
  when dryRun yield ((result, None), h);;
  let '((exists_, _), h) := host_Exists configPath h in
  when negb exists_ yield refused zero_OpResult (ErrNew "repair requires an existing configuration") h;;
  let '((exists_, _), h) := host_Exists binaryPath h in
  when negb exists_ yield refused zero_OpResult (ErrNew "repair requires an installed binary") h;;
  must h from host_WriteFileAtomic unitPath systemdUnit (octal 6 4 4) h;;
  must h from host_Run ctx ["systemctl"; "daemon-reload"] h;;
  must h from restart ctx h;;
  ((changed result, None), h).

Definition ValidateConfiguration (actor : Actor) (payload : string) : ConfigurationResult * option error :=
  iferr authorize actor as err yield (zero_ConfigurationResult, Some err);;
  match DecodeCandidate render payload with
  | inl err => (zero_ConfigurationResult, Some err)
  | inr candidate =>
      match Config_Digest candidate with
      | inl err => (zero_ConfigurationResult, Some err)
      | inr digest => (mkConfigurationResult digest true false true false, None)
      end
  end.

Definition ApplyConfiguration (ctx : Context) (actor : Actor) (payload : string) (dryRun : bool) (h : H) :
    (ConfigurationResult * option error) * H :=
  let zero := zero_ConfigurationResult in
  let '(result, err) := ValidateConfiguration actor payload in
  iferr err as err yield refused zero err h;;
  let '(current, h) := host_ReadFile configPath h in
  match current with
  | inl _ => refused zero (ErrNew "configuration activation requires an existing configuration") h
  | inr current =>
      when bool_decide (current = payload) yield ((result, None), h);;
      match DecodeCandidate render current with
      | inl err => refused zero (ErrWrap "installed configuration is invalid" err) h
      | inr _ =>
          let result := mkConfigurationResult (cr_Digest result) (cr_Valid result) true (cr_RestartRequired result)
            (cr_RolledBack result) in
          when dryRun yield ((result, None), h);;
          let '(err, h) := host_WriteFileAtomic rollbackConfig current (octal 6 4 0) h in
          iferr err as err yield refused zero err h;;
          let '(err, h) := host_WriteFileAtomic configPath payload (octal 6 4 0) h in
          iferr err as err yield refused zero err h;;
          let '(err, h) := restart ctx h in
          match err with
          | Some err =>
              tries h from host_WriteFileAtomic configPath current (octal 6 4 0) h;;
              tries h from restart ctx h;;
              ((mkConfigurationResult (cr_Digest result) (cr_Valid result) (cr_Changed result)
                  (cr_RestartRequired result) true,
                Some (ErrWrap "configuration activation failed and rollback attempted" err)), h)
          | None => ((result, None), h)
          end
      end
  end.

Definition Upgrade (ctx : Context) (request : UpgradeRequest) (h : H) : (OpResult * option error) * H :=
  iferr authorize (ur_Actor request) as err yield refused zero_OpResult err h;;
  iferr verifyArtifact (ur_Binary request) (ur_SHA256 request) (ur_Signature request) (ur_PublicKey request) as err
    yield refused zero_OpResult err h;;
  let result := mkOpResult "upgrade" false (ur_Version request)
    ["verify checksum and Ed25519 signature"; "stage rollback binary"; "activate release atomically";
     "restart and verify"] false in
  when ur_DryRun request yield ((result, None), h);;
  let '(previous, h) := host_ReadFile binaryPath h in
  match previous with
  | inl _ => refused zero_OpResult (ErrNew "upgrade requires an installed binary") h
  | inr previous =>
      let '(previousVersion, h) := host_ReadFile versionPath h in
      let previousVersion := read_or_empty previousVersion in
      must h from host_WriteFileAtomic rollbackBinary previous (octal 7 5 0) h;;
      must h from host_WriteFileAtomic rollbackVersion previousVersion (octal 6 4 0) h;;
      must h from host_WriteFileAtomic binaryPath (ur_Binary request) (octal 7 5 5) h;;
      tries h from host_WriteFileAtomic versionPath (ur_Version request +:+ newline) (octal 6 4 0) h;;
      let '(err, h) := restart ctx h in
      match err with
      | Some err =>
          tries h from host_WriteFileAtomic binaryPath previous (octal 7 5 5) h;;
          tries h from host_WriteFileAtomic versionPath previousVersion (octal 6 4 0) h;;
          tries h from restart ctx h;;
          ((rolled_back result, Some (ErrWrap "upgrade failed and rollback attempted" err)), h)
      | None => ((changed result, None), h)
      end
  end.

Definition Rollback (ctx : Context) (actor : Actor) (dryRun : bool) (h : H) : (OpResult * option error) * H :=
  iferr authorize actor as err yield refused zero_OpResult err h;;
  let result := mkOpResult "rollback" false "" ["activate staged rollback"; "restart AquaOS"] false in
  when dryRun yield ((result, None), h);;
  let '(binary, h) := host_ReadFile rollbackBinary h in
  match binary with
  | inl _ => refused zero_OpResult (ErrNew "no rollback artifact is available") h
  | inr binary =>
      let '(version, h) := host_ReadFile rollbackVersion h in
      let version := read_or_empty version in
      must h from host_WriteFileAtomic binaryPath binary (octal 7 5 5) h;;
      tries h from host_WriteFileAtomic versionPath version (octal 6 4 0) h;;
      must h from restart ctx h;;
      ((mkOpResult "rollback" true (TrimSpace version) (or_Actions result) false, None), h)
  end.

Fixpoint remove_all (paths : list string) (h : H) : option error * H :=
  match paths with
  | [] => (None, h)
  | path :: rest =>
      let '(err, h) := host_Remove path h in
      iferr err as err yield (Some err, h);;
      remove_all rest h
  end.

Definition Uninstall (ctx : Context) (actor : Actor) (preserveData dryRun : bool) (h : H) :
    (OpResult * option error) * H :=
  iferr authorize actor as err yield refused zero_OpResult err h;;
  let actions := ["disable AquaOS service"; "remove AquaOS binary and unit"]
    ++ (if preserveData then ["preserve configuration and state"] else []) in
  let result := mkOpResult "uninstall" false "" actions false in
  when dryRun yield ((result, None), h);;
  tries h from host_Run ctx ["systemctl"; "disable"; "--now"; "aquaos.service"] h;;
  must h from remove_all [binaryPath; unitPath; sysusersPath; tmpfilesPath] h;;
  must h from (if preserveData then (None, h) else remove_all [configPath; versionPath] h);;
  tries h from host_Run ctx ["systemctl"; "daemon-reload"] h;;
  ((changed result, None), h).

(** *** Backup and restore *)
Context {A : Type} {HZ : ZipWriter A} `{!ZipReader, !ManifestDecoder, !Marshaler (gmap string string)}.

Definition TrimPrefix (prefix s : string) : string :=
  if String.prefix prefix s then String.substring (String.length prefix) (String.length s - String.length prefix) s
  else s.

Fixpoint backup_files (paths : list string) (manifest : gmap string string) (archive : A) (h : H) :
    (error + gmap string string * A) * H :=
  match paths with
  | [] => (inr (manifest, archive), h)
  | path :: rest =>
      let '(payload, h) := host_ReadFile path h in
      match payload with
      | inl err => (inl err, h)
      | inr payload =>
          let name := TrimPrefix "/" path in
          let '(err, archive) := zip_Create name archive in
          iferr err as err yield (inl err, h);;
          let '(err, archive) := zip_Write payload archive in
          iferr err as err yield (inl err, h);;
          backup_files rest (<[name := sha256_hex payload]> manifest) archive h
      end
  end.

(** The errors of writing the manifest are ignored. *)
Definition Backup (ctx : Context) (actor : Actor) (h : H) : (error + string) * H :=
  iferr authorize actor as err yield (inl err, h);;
  iferr ctx_Err ctx as err yield (inl err, h);;
  let '(r, h) := backup_files [configPath; versionPath] ∅ zip_NewWriter h in
  match r with
  | inl err => (inl err, h)
  | inr (manifest, archive) =>
      let encoded := read_or_empty (json_Marshal manifest) in
      let '(_, archive) := zip_Create "manifest.json" archive in
      let '(_, archive) := zip_Write encoded archive in
      (zip_Close archive, h)
  end.

Definition config_entry : string := "etc/aquaos/aquaos.yaml".
Definition version_entry : string := "var/lib/aquaos/current-version".
Definition supported_entry (name : string) : bool :=
  bool_decide (name = config_entry) || bool_decide (name = version_entry) || bool_decide (name = "manifest.json").

Fixpoint restore_entries (entries : list ZipEntry) (files : gmap string string) : error + gmap string string :=
  match entries with
  | [] => inr files
  | entry :: rest =>
      when negb (supported_entry (ze_Name entry)) yield inl (ErrNew "backup contains an unsupported path");;
      match ze_Read entry (2 * 1024 * 1024) with
      | inl err => inl err
      | inr data => restore_entries rest (<[ze_Name entry := data]> files)
      end
  end.

(** [files[name]], which is empty for a name the archive does not have. *)
Definition file (files : gmap string string) (name : string) : string := default "" (files !! name).

Definition checksum_ok (files : gmap string string) (kv : string * string) : bool :=
  bool_decide (sha256_hex (file files kv.1) = kv.2).

(** Everything [Restore] checks before it writes. *)
Definition restore_candidate (payload : string) : error + (string * string) :=
  match zip_NewReader payload with
  | inl _ => inl (ErrNew "backup archive is invalid")
  | inr entries =>
      match restore_entries entries ∅ with
      | inl err => inl err
      | inr files =>
          match decode_manifest (file files "manifest.json") with
          | inl _ => inl (ErrNew "backup manifest is invalid")
          | inr manifest =>
              when negb (forallb (checksum_ok files) (map_to_list manifest)) yield
                inl (ErrNew "backup checksum mismatch");;
              match DecodeCandidate render (file files config_entry) with
              | inl err => inl (ErrWrap "backup configuration" err)
              | inr _ => inr (file files config_entry, file files version_entry)
              end
          end
      end
  end.

Definition Restore (ctx : Context) (actor : Actor) (payload : string) (dryRun : bool) (h : H) :
    (OpResult * option error) * H :=
  iferr authorize actor as err yield refused zero_OpResult err h;;
  match restore_candidate payload with
  | inl err => refused zero_OpResult err h
  | inr (candidate, version) =>
      let result := mkOpResult "restore" false (TrimSpace version)
        ["verify archive manifest"; "validate candidate configuration"; "activate configuration atomically";
         "restart AquaOS"] false in
      when dryRun yield ((result, None), h);;
      must h from host_WriteFileAtomic configPath candidate (octal 6 4 0) h;;
      must h from host_WriteFileAtomic versionPath version (octal 6 4 0) h;;
      must h from restart ctx h;;
      ((changed result, None), h)
  end.
End service.

(** ** A disk

    Files by path, whole contents at a time: what the host promises of reading
    and of atomic replacement. Any call can fail: [faults] says what the call
    with a given number answers, and a call that fails changes nothing. *)
Record Disk := mkDisk { dk_files : gmap string string; dk_calls : nat; dk_commands : list (list string) }.

Section disk.
Context (faults : nat → option error) (absent : error).

Definition called (d : Disk) : Disk := mkDisk (dk_files d) (S (dk_calls d)) (dk_commands d).
Definition with_files (f : gmap string string) (d : Disk) : Disk := mkDisk f (dk_calls d) (dk_commands d).

(** One call: the fault of its number, or its effect. *)
Definition disk_call (effect : Disk → Disk) (d : Disk) : option error * Disk :=
  match faults (dk_calls d) with
  | Some err => (Some err, called d)
  | None => (None, effect (called d))
  end.

Definition disk_ReadFile (path : string) (d : Disk) : (error + string) * Disk :=
  match faults (dk_calls d), dk_files d !! path with
  | Some err, _ => (inl err, called d)
  | None, None => (inl absent, called d)
  | None, Some s => (inr s, called d)
  end.
Definition disk_Write (path payload : string) (d : Disk) : option error * Disk :=
  disk_call (fun d => with_files (<[path := payload]> (dk_files d)) d) d.
Definition disk_Remove (path : string) (d : Disk) : option error * Disk :=
  disk_call (fun d => with_files (delete path (dk_files d)) d) d.
Definition disk_Exists (path : string) (d : Disk) : (bool * option error) * Disk :=
  match faults (dk_calls d) with
  | Some err => ((false, Some err), called d)
  | None => ((bool_decide (is_Some (dk_files d !! path)), None), called d)
  end.
Definition disk_Run (command : list string) (d : Disk) : option error * Disk :=
  disk_call (fun d => d) (mkDisk (dk_files d) (dk_calls d) (dk_commands d ++ [command])).

Definition Disk_Host : Host Disk := {|
  host_ReadFile := disk_ReadFile;
  host_WriteFileAtomic := fun path payload _ => disk_Write path payload;
  host_Exists := disk_Exists;
  host_MkdirAll := fun _ _ => disk_call (fun d => d);
  host_Remove := disk_Remove;
  host_Run := fun _ command => disk_Run command;
  host_GOOS := fun _ => "linux";
  host_GOARCH := fun _ => "amd64"
|}.
End disk.
