(* ===== verification/OperationsSafety.v ===== *)
(** * What operations leave on the host

    Over the disk of [Operations], whatever calls fail: only managed paths
    change, an installed or staged binary was verified with the trusted key, a
    stored configuration is valid; what an activation leaves; and the round
    trip of backup and restore. *)

From Stdlib Require Import ZArith Lia String Ascii.
From stdpp Require Import base gmap strings list pretty sorting.
From S2P Require Import Prelude Domain Events Topics Config Operations.

Section safety.
Context (faults : nat → option error) (absent : error).
#[local] Instance disk_host : Host Disk := Disk_Host faults absent.
Context `{!Digester, !Signatures, !JSON, !Marshaler Config}.
Context `{!YAML, !URLParser, !NetParser, !MapRange} (render : error → string).
Context `{!ZipReader, !ManifestDecoder}.
(** The key of the releases. *)
Context (key : string).

Definition trusted (binary : string) : Prop := ∃ sum signature, verifyArtifact binary sum signature key = None.
Definition valid (configuration : string) : Prop := ∃ cfg, DecodeCandidate render configuration = inr cfg.

(** What a file may hold. *)
Record content_ok (path s : string) : Prop := {
  ct_binary : path = binaryPath ∨ path = rollbackBinary → trusted s;
  ct_config : path = configPath ∨ path = rollbackConfig → valid s
}.

Definition disk_ok (d : Disk) : Prop := ∀ path s, dk_files d !! path = Some s → content_ok path s.

(** [d] is in order and differs from [d0] at most on managed paths. *)
Record kept (d0 d : Disk) : Prop := {
  kp_ok : disk_ok d;
  kp_outside : ∀ path, path ∉ ManagedPaths → dk_files d !! path = dk_files d0 !! path
}.

Lemma kept_refl d : disk_ok d → kept d d.
Proof. by split. Qed.

Lemma kept_same d0 d d' : kept d0 d → dk_files d' = dk_files d → kept d0 d'.
Proof. intros [Hok Hout] He. split; [intros path s; rewrite He; apply Hok|intros path; rewrite He; apply Hout]. Qed.

Lemma kept_read d0 d path r d' :
  kept d0 d → host_ReadFile path d = (r, d') →
  kept d0 d' ∧ match r with inl _ => True | inr s => content_ok path s end.
Proof.
  intros Hk. simpl. unfold disk_ReadFile. pose proof (kept_same d0 d (called d) Hk eq_refl) as Hk'.
  destruct (faults _), (dk_files d !! path) as [s|] eqn:Hs; intros [= <- <-]; (split; [done|]); try done.
  by apply (kp_ok _ _ Hk).
Qed.

Lemma kept_write d0 d path s mode err d' :
  path ∈ ManagedPaths → content_ok path s → kept d0 d → host_WriteFileAtomic path s mode d = (err, d') → kept d0 d'.
Proof.
  intros Hp Hc Hk. simpl. unfold disk_Write, disk_call.
  destruct (faults _); intros [= _ <-]; [by apply (kept_same d0 d)|]. destruct Hk as [Hok Hout]. split; simpl.
  - intros path' s'. simpl. destruct (decide (path = path')) as [<-|Hne].
    + rewrite lookup_insert_eq. by intros [= <-].
    + rewrite lookup_insert_ne by done. apply Hok.
  - intros path' Hn. rewrite lookup_insert_ne by (by intros <-). by apply Hout.
Qed.

Lemma kept_remove d0 d path err d' :
  path ∈ ManagedPaths → kept d0 d → host_Remove path d = (err, d') → kept d0 d'.
Proof.
  intros Hp Hk. simpl. unfold disk_Remove, disk_call.
  destruct (faults _); intros [= _ <-]; [by apply (kept_same d0 d)|]. destruct Hk as [Hok Hout]. split; simpl.
  - intros path' s'. simpl. intros [_ Hs]%lookup_delete_Some. by apply Hok.
  - intros path' Hn. rewrite lookup_delete_ne by (by intros <-). by apply Hout.
Qed.

Lemma kept_exists d0 d path r d' : kept d0 d → host_Exists path d = (r, d') → kept d0 d'.
Proof. intros Hk. simpl. unfold disk_Exists. destruct (faults _); intros [= _ <-]; by apply (kept_same d0 d). Qed.

Lemma kept_mkdir d0 d path mode err d' : kept d0 d → host_MkdirAll path mode d = (err, d') → kept d0 d'.
Proof. intros Hk. simpl. unfold disk_call. destruct (faults _); intros [= _ <-]; by apply (kept_same d0 d). Qed.

Lemma kept_run d0 d ctx command err d' : kept d0 d → host_Run ctx command d = (err, d') → kept d0 d'.
Proof. intros Hk. simpl. unfold disk_Run, disk_call. destruct (faults _); intros [= _ <-]; by apply (kept_same d0 d). Qed.

Lemma kept_write_when b d0 d path s mode err d' :
  path ∈ ManagedPaths → content_ok path s → kept d0 d → write_when b path s mode d = (err, d') → kept d0 d'.
Proof. destruct b; [apply kept_write|]. intros _ _ Hk. simpl. by intros [= _ <-]. Qed.

Lemma kept_remove_all paths d0 d err d' :
  paths ⊆ ManagedPaths → kept d0 d → remove_all paths d = (err, d') → kept d0 d'.
Proof.
  revert d. induction paths as [|path paths IH]; intros d Hp Hk; simpl; [by intros [= _ <-]|].
  destruct (disk_Remove _ path d) as [[e|] d1] eqn:E;
    apply (kept_remove d0 d) in E; [|apply Hp, elem_of_cons; by left|done| |apply Hp, elem_of_cons; by left|done].
  - by intros [= _ <-].
  - apply IH; [|done]. intros x Hx. apply Hp, elem_of_cons. by right.
Qed.

Lemma kept_preflight d0 d ack err d' : kept d0 d → preflight ack d = (err, d') → kept d0 d'.
Proof.
  intros Hk. unfold preflight. destruct ack; [|by intros [= _ <-]]. simpl.
  destruct (disk_Exists _ _ d) as [[b e] d1] eqn:E. apply (kept_exists d0 d) in E; [|done].
  destruct b; by intros [= _ <-].
Qed.

(** The paths and contents operations write. *)
Lemma content_other path s :
  path ∉ [binaryPath; rollbackBinary; configPath; rollbackConfig] → content_ok path s.
Proof. intros Hn. split; intros [->| ->]; destruct Hn; set_solver. Qed.
Lemma content_binary path s : path ∉ [configPath; rollbackConfig] → trusted s → content_ok path s.
Proof. intros Hn Ht. split; [done|]. intros [->| ->]; destruct Hn; set_solver. Qed.
Lemma content_config path s : path ∉ [binaryPath; rollbackBinary] → valid s → content_ok path s.
Proof. intros Hn Hv. split; [|done]. intros [->| ->]; destruct Hn; set_solver. Qed.

Lemma content_moved path path' s :
  content_ok path s → path ∈ [binaryPath; rollbackBinary] → path' ∈ [binaryPath; rollbackBinary] → content_ok path' s.
Proof.
  intros [Hb _] Hp Hp'. apply content_binary; [|apply Hb; set_solver].
  intros Hn. set_unfold. destruct Hp' as [->|[->|[]]], Hn as [Hn|[Hn|[]]]; done.
Qed.

Ltac by_paths := apply (bool_decide_unpack _); vm_compute; exact I.

(** One call of the host: what it keeps. Contents are found in the context. *)
Ltac contents :=
  first [assumption | apply content_other; by_paths
        | apply content_binary; [by_paths|first [assumption|by eexists; eexists]]
        | apply content_config; [by_paths|first [assumption|by eexists]]
        | eapply content_moved; [eassumption|by_paths|by_paths]].
Ltac host_call :=
  lazymatch goal with
  | Hk : kept ?d0 ?d |- kept ?d0 (snd (match ?x with _ => _ end)) =>
      let E := fresh in let r := fresh "r" in let d' := fresh "d" in
      lazymatch x with
      | host_ReadFile _ d =>
          destruct x as [r d'] eqn:E; apply (kept_read d0 d) in E as [? ?]; [clear Hk; destruct r|done]
      | host_WriteFileAtomic _ _ _ d =>
          destruct x as [r d'] eqn:E; apply (kept_write d0 d) in E; [clear Hk; destruct r|by_paths|contents|done]
      | write_when _ _ _ _ d =>
          destruct x as [r d'] eqn:E; apply (kept_write_when _ d0 d) in E; [clear Hk; destruct r|by_paths|contents|done]
      | preflight _ d => destruct x as [r d'] eqn:E; apply (kept_preflight d0 d) in E; [clear Hk; destruct r|done]
      | remove_all _ d =>
          destruct x as [r d'] eqn:E; apply (kept_remove_all _ d0 d) in E; [clear Hk; destruct r|by_paths|done]
      | host_Exists _ d => destruct x as [[? ?] d'] eqn:E; apply (kept_exists d0 d) in E; [clear Hk|done]
      | host_MkdirAll _ _ d => destruct x as [r d'] eqn:E; apply (kept_mkdir d0 d) in E; [clear Hk; destruct r|done]
      | host_Remove _ d =>
          destruct x as [r d'] eqn:E; apply (kept_remove d0 d) in E; [clear Hk; destruct r|by_paths|done]
      | host_Run _ _ d => destruct x as [r d'] eqn:E; apply (kept_run d0 d) in E; [clear Hk; destruct r|done]
      | _ => destruct x eqn:?
      end
  end.
Ltac host_calls :=
  cbv zeta; unfold refused, restart; repeat (host_call; cbn beta iota); simpl; try assumption.

Lemma Install_kept ctx request d0 d :
  (ir_DryRun request = false → ir_PublicKey request = key) → kept d0 d → kept d0 (Install render ctx request d).2.
Proof.
  intros Hkey Hk. unfold Install. destruct (authorize _); [done|]. host_call; [done|].
  destruct (bool_decide _); [done|]. destruct (ir_DryRun request); [host_calls|]. rewrite Hkey by done. host_calls.
Qed.

Lemma Repair_kept ctx actor dryRun d0 d : kept d0 d → kept d0 (Repair ctx actor dryRun d).2.
Proof. intros Hk. unfold Repair. host_calls. Qed.

Lemma Apply_kept ctx actor payload dryRun d0 d :
  kept d0 d → kept d0 (ApplyConfiguration render ctx actor payload dryRun d).2.
Proof.
  intros Hk. unfold ApplyConfiguration, ValidateConfiguration.
  destruct (authorize actor); [done|].
  destruct (DecodeCandidate render payload) as [err|cfg] eqn:Hc; [done|].
  destruct (Config_Digest cfg); [done|]. host_calls.
Qed.

Lemma Upgrade_kept ctx request d0 d :
  (ur_DryRun request = false → ur_PublicKey request = key) → kept d0 d → kept d0 (Upgrade ctx request d).2.
Proof.
  intros Hkey Hk. unfold Upgrade. destruct (authorize _); [done|].
  destruct (ur_DryRun request); [host_calls|]. rewrite Hkey by done. host_calls.
Qed.

Lemma Rollback_kept ctx actor dryRun d0 d : kept d0 d → kept d0 (Rollback ctx actor dryRun d).2.
Proof. intros Hk. unfold Rollback. host_calls. Qed.

Lemma restore_candidate_valid payload candidate version :
  restore_candidate render payload = inr (candidate, version) → valid candidate.
Proof.
  unfold restore_candidate, valid. intros Hr. repeat (case_match; try done). simplify_eq. eauto.
Qed.

Lemma Restore_kept ctx actor payload dryRun d0 d :
  kept d0 d → kept d0 (Restore render ctx actor payload dryRun d).2.
Proof.
  intros Hk. unfold Restore. destruct (authorize actor); [done|].
  destruct (restore_candidate render payload) as [err|[candidate version]] eqn:Hr; [done|].
  apply restore_candidate_valid in Hr. host_calls.
Qed.

Lemma Uninstall_kept ctx actor preserveData dryRun d0 d :
  kept d0 d → kept d0 (Uninstall ctx actor preserveData dryRun d).2.
Proof. intros Hk. unfold Uninstall. destruct preserveData; host_calls. Qed.

Lemma GetStatus_kept ctx actor d0 d : kept d0 d → kept d0 (GetStatus ctx actor d).2.
Proof.
  intros Hk. unfold GetStatus, refused. destruct (authorize actor); [done|]. destruct (ctx_Err ctx); [done|]. host_calls.
Qed.

Lemma Verify_kept ctx actor d0 d : kept d0 d → kept d0 (Verify render ctx actor d).2.
Proof.
  intros Hk. apply (GetStatus_kept ctx actor) in Hk. unfold Verify.
  destruct (GetStatus ctx actor d) as [[st err] d1]. simpl in Hk. host_calls.
Qed.

Lemma GetConfiguration_kept ctx actor d0 d : kept d0 d → kept d0 (GetConfiguration render ctx actor d).2.
Proof. intros Hk. unfold GetConfiguration. host_calls. Qed.

Lemma Backup_kept {A} {HZ : ZipWriter A} `{!Marshaler (gmap string string)} ctx actor d0 d :
  kept d0 d → kept d0 (Backup (A := A) ctx actor d).2.
Proof.
  intros Hk. unfold Backup. destruct (authorize actor); [done|]. destruct (ctx_Err ctx); [done|].
  assert (∀ paths manifest (archive : A) d, kept d0 d → kept d0 (backup_files paths manifest archive d).2) as Hfiles.
  { intros paths. induction paths as [|path paths IH]; intros manifest archive d1 Hd; cbn [backup_files]; [done|].
    destruct (host_ReadFile path d1) as [r d2] eqn:Hr. apply (kept_read d0 d1) in Hr as [Hd2 _]; [|done].
    destruct r as [err|payload]; [done|]. cbv zeta. destruct (zip_Create _ archive) as [[err|] archive1]; [done|].
    destruct (zip_Write payload archive1) as [[err|] archive2]; [done|]. by apply IH. }
  specialize (Hfiles [configPath; versionPath] ∅ zip_NewWriter d Hk).
  destruct (backup_files _ _ _ d) as [r d1]. destruct r as [err|[m a]]; [done|].
  destruct (zip_Create _ a) as [? a1]. by destruct (zip_Write _ a1).
Qed.

(** The manifest is only checked for what it lists: with an empty one nothing of
    the archive is verified. *)
Theorem empty_manifest_verifies_nothing payload entries files cfg :
  zip_NewReader payload = inr entries → restore_entries entries ∅ = inr files →
  decode_manifest (file files "manifest.json") = inr ∅ →
  DecodeCandidate render (file files config_entry) = inr cfg →
  restore_candidate render payload = inr (file files config_entry, file files version_entry).
Proof. intros Hz He Hm Hc. unfold restore_candidate. by rewrite Hz, He, Hm, map_to_list_empty, Hc. Qed.

(** ** Sequences of operations *)
Inductive operation :=
| OInstall (ctx : Context) (request : InstallRequest)
| OVerify (ctx : Context) (actor : Actor)
| ORepair (ctx : Context) (actor : Actor) (dryRun : bool)
| OApply (ctx : Context) (actor : Actor) (payload : string) (dryRun : bool)
| OUpgrade (ctx : Context) (request : UpgradeRequest)
| ORollback (ctx : Context) (actor : Actor) (dryRun : bool)
| ORestore (ctx : Context) (actor : Actor) (payload : string) (dryRun : bool)
| OUninstall (ctx : Context) (actor : Actor) (preserveData dryRun : bool).

Definition operate (d : Disk) (op : operation) : Disk :=
  match op with
  | OInstall ctx request => (Install render ctx request d).2
  | OVerify ctx actor => (Verify render ctx actor d).2
  | ORepair ctx actor dryRun => (Repair ctx actor dryRun d).2
  | OApply ctx actor payload dryRun => (ApplyConfiguration render ctx actor payload dryRun d).2
  | OUpgrade ctx request => (Upgrade ctx request d).2
  | ORollback ctx actor dryRun => (Rollback ctx actor dryRun d).2
  | ORestore ctx actor payload dryRun => (Restore render ctx actor payload dryRun d).2
  | OUninstall ctx actor preserveData dryRun => (Uninstall ctx actor preserveData dryRun d).2
  end.

(** The release key of a request is the trusted one. *)
Definition keyed (op : operation) : Prop :=
  match op with
  | OInstall _ request => ir_PublicKey request = key
  | OUpgrade _ request => ur_PublicKey request = key
  | _ => True
  end.

Lemma operate_kept op d0 d : keyed op → kept d0 d → kept d0 (operate d op).
Proof.
  destruct op; simpl; intros Hkey Hk; auto using Install_kept, Verify_kept, Repair_kept, Apply_kept, Upgrade_kept,
    Rollback_kept, Restore_kept, Uninstall_kept.
Qed.

(** Whatever operations run, in whatever order and whichever of their calls to
    the host fail, from a disk in order: every binary installed or staged for
    rollback has been verified with the trusted key, every configuration
    installed or kept for rollback is valid, and no file outside the managed
    paths has changed. *)
Theorem operations_keep_host_safe ops d :
  Forall keyed ops → disk_ok d →
  disk_ok (foldl operate d ops)
  ∧ ∀ path, path ∉ ManagedPaths → dk_files (foldl operate d ops) !! path = dk_files d !! path.
Proof.
  intros Hops Hok. assert (kept d (foldl operate d ops)) as [? ?]; [|done].
  revert Hops. generalize (kept_refl d Hok). generalize d at 2 4.
  induction ops as [|op ops IH]; intros d' Hk Hops; [done|]. apply Forall_cons in Hops as [Hop Hops].
  simpl. apply IH; [|done]. by apply operate_kept.
Qed.

(** ** Activation of a configuration *)

(** C33: activating a configuration leaves the old or the new one installed;
    success means the new one, which is valid; an error before the restart
    means the old one, and after a failed restart the old one is back unless
    writing it back fails too; a dry run changes nothing. (The calls of an
    activation, counted from its first: the file is read, the old
    configuration staged, the new one written, the service restarted, and
    after a failure the old one written back.) *)
Theorem activation_is_transactional ctx actor payload dryRun d old result err d' :
  dk_files d !! configPath = Some old →
  ApplyConfiguration render ctx actor payload dryRun d = ((result, err), d') →
  (dk_files d' !! configPath = Some old ∨ dk_files d' !! configPath = Some payload)
  ∧ (err = None → dryRun = false → dk_files d' !! configPath = Some payload ∧ valid payload)
  ∧ (err ≠ None → cr_RolledBack result = false → dk_files d' !! configPath = Some old)
  ∧ (cr_RolledBack result = true → faults (dk_calls d + 4) = None → dk_files d' !! configPath = Some old)
  ∧ (dryRun = true → dk_files d' = dk_files d).
Proof.
  intros Hold. unfold ApplyConfiguration, ValidateConfiguration, refused, restart. simpl.
  destruct (authorize actor); [intros [= <- <- <-]; naive_solver|].
  destruct (DecodeCandidate render payload) as [e|cfg] eqn:Hc; [intros [= <- <- <-]; naive_solver|].
  destruct (Config_Digest cfg) as [e|digest]; [intros [= <- <- <-]; naive_solver|].
  unfold disk_ReadFile. rewrite Hold. destruct (faults (dk_calls d)); [intros [= <- <- <-]; naive_solver|].
  case_bool_decide as He; [subst; intros [= <- <- <-]; split_and!; unfold valid; naive_solver|].
  destruct (DecodeCandidate render old); [intros [= <- <- <-]; naive_solver|].
  destruct dryRun; [intros [= <- <- <-]; naive_solver|].
  assert (rollbackConfig ≠ configPath) as Hne by done.
  unfold disk_Write, disk_Run, disk_call, called, with_files. simpl.
  replace (dk_calls d + 4)%nat with (S (S (S (S (dk_calls d))))) by lia.
  destruct (faults (S (dk_calls d))); simpl; [intros [= <- <- <-]; naive_solver|].
  destruct (faults (S (S (dk_calls d)))); simpl;
    [intros [= <- <- <-]; simpl; rewrite lookup_insert_ne by done; naive_solver|].
  destruct (faults (S (S (S (dk_calls d))))); simpl.
  2: { intros [= <- <- <-]. simpl. rewrite lookup_insert_eq. unfold valid. naive_solver. }
  destruct (faults (S (S (S (S (dk_calls d)))))); simpl;
    destruct (faults (S (S (S (S (S (dk_calls d))))))); intros [= <- <- <-]; simpl;
    rewrite lookup_insert_eq; naive_solver.
Qed.
End safety.

(** ** Backup and restore *)
Section roundtrip.
Context (absent : error).
#[local] Instance faultless : Host Disk := Disk_Host (fun _ => None) absent.
Context `{!Digester, !Signatures, !JSON, !Marshaler Config}.
Context `{!YAML, !URLParser, !NetParser, !MapRange} (render : error → string).
Context {A : Type} {HZ : ZipWriter A} `{!ZipReader, !ManifestDecoder, !Marshaler (gmap string string)}.

(** The archive with these entries, written one after another. *)
Definition zip_of (entries : list (string * string)) : A :=
  foldl (fun a e => (zip_Write e.2 (zip_Create e.1 a).2).2) zip_NewWriter entries.

(** What is documented of the libraries, of the texts that a backup has. The
    archive is written to memory, which does not fail for the three names it
    uses, and a reader finds the entries that were written. A digest is
    hexadecimal text, and JSON reads back a map of texts in plain ASCII. *)
Definition reads_back (e : ZipEntry) (entry : string * string) : Prop :=
  ze_Name e = entry.1 ∧ ∀ limit, Z.of_nat (String.length entry.2) ≤ limit → ze_Read e limit = inr entry.2.
Definition backup_entries (entries : list (string * string)) : Prop :=
  Forall (fun e => supported_entry e.1 = true) entries.
Definition plain (s : string) : Prop := Forall (fun c => (N_of_ascii c < 128)%N) (bytes_of s).
Context (zip_Create_ok : ∀ entries name, backup_entries entries → supported_entry name = true →
  (zip_Create name (zip_of entries)).1 = None).
Context (zip_Write_ok : ∀ entries name s, backup_entries entries → supported_entry name = true →
  (zip_Write s (zip_Create name (zip_of entries)).2).1 = None).
Context (zip_Close_ok : ∀ entries, backup_entries entries → ∃ payload read,
  zip_Close (zip_of entries) = inr payload ∧ zip_NewReader payload = inr read ∧ Forall2 reads_back read entries).
Context (digest_plain : ∀ s, plain (sha256_hex s)).
Context (json_ok : ∀ m : gmap string string, map_Forall (fun k x => plain k ∧ plain x) m →
  ∃ s, json_Marshal m = inr s ∧ decode_manifest s = inr m).

Definition manifest_of (c v : string) : gmap string string :=
  <[version_entry := sha256_hex v]> (<[config_entry := sha256_hex c]> ∅).

Definition limit : Z := 2 * 1024 * 1024.

Lemma manifest_plain c v : map_Forall (fun k x => plain k ∧ plain x) (manifest_of c v).
Proof.
  unfold manifest_of. repeat (apply map_Forall_insert_2; [split; [by repeat constructor|done]|]). apply map_Forall_empty.
Qed.

Lemma zip_of_snoc entries name s : (zip_Write s (zip_Create name (zip_of entries)).2).2 = zip_of (entries ++ [(name, s)]).
Proof. unfold zip_of. by rewrite foldl_app. Qed.

Lemma backup_files_ok d c v :
  dk_files d !! configPath = Some c → dk_files d !! versionPath = Some v →
  (backup_files [configPath; versionPath] ∅ zip_NewWriter d).1 =
    inr (manifest_of c v, zip_of [(config_entry, c); (version_entry, v)]).
Proof.
  intros Hc Hv. cbn [backup_files]. simpl host_ReadFile. unfold disk_ReadFile. rewrite Hc. simpl.
  change zip_NewWriter with (zip_of []). change (TrimPrefix "/" configPath) with config_entry.
  pose proof (zip_Create_ok [] config_entry ltac:(constructor) eq_refl) as Hz1.
  pose proof (zip_Write_ok [] config_entry c ltac:(constructor) eq_refl) as Hz2.
  pose proof (zip_of_snoc [] config_entry c) as Hz3.
  destruct (zip_Create config_entry (zip_of [])) as [e1 a1]. simpl in Hz1, Hz2, Hz3. subst e1.
  destruct (zip_Write c a1) as [e2 a2]. simpl in Hz2, Hz3. subst e2 a2.
  rewrite Hv. simpl. change (TrimPrefix "/" versionPath) with version_entry.
  assert (backup_entries [(config_entry, c)]) as Hone by (by repeat constructor).
  pose proof (zip_Create_ok [(config_entry, c)] version_entry Hone eq_refl) as Hz4.
  pose proof (zip_Write_ok [(config_entry, c)] version_entry v Hone eq_refl) as Hz5.
  pose proof (zip_of_snoc [(config_entry, c)] version_entry v) as Hz6.
  destruct (zip_Create version_entry _) as [e3 a3]. simpl in Hz4, Hz5, Hz6. subst e3.
  destruct (zip_Write v a3) as [e4 a4]. simpl in Hz5, Hz6. subst e4 a4. done.
Qed.

Lemma restore_reads c v m read files :
  (Z.of_nat (String.length c) ≤ limit) → Z.of_nat (String.length v) ≤ limit → Z.of_nat (String.length m) ≤ limit →
  Forall2 reads_back read [(config_entry, c); (version_entry, v); ("manifest.json", m)] →
  restore_entries read files = inr (<["manifest.json" := m]> (<[version_entry := v]> (<[config_entry := c]> files))).
Proof.
  intros Hc Hv Hm Hr. apply Forall2_cons_inv_r in Hr as (e1 & r1 & [Hn1 Hr1] & Hr & ->).
  apply Forall2_cons_inv_r in Hr as (e2 & r2 & [Hn2 Hr2] & Hr & ->).
  apply Forall2_cons_inv_r in Hr as (e3 & r3 & [Hn3 Hr3] & Hr & ->). apply Forall2_nil_inv_r in Hr as ->.
  simpl in *. rewrite Hn1, Hn2, Hn3. simpl. fold limit. by rewrite Hr1, Hr2, Hr3.
Qed.

Lemma candidate_size c cfg : DecodeCandidate render c = inr cfg → Z.of_nat (String.length c) ≤ limit.
Proof.
  unfold DecodeCandidate, limit. destruct (_ =? 0)%nat; [done|]. destruct (1024 * 1024 <? _) eqn:Hl; [done|].
  go_bool. intros _. lia.
Qed.

(** C31: where the archive and JSON libraries read back what a backup writes
    with them, which is three named entries and a map of hexadecimal digests,
    a backup of a host with a valid configuration and a version, restored on
    any other host, succeeds and leaves exactly that configuration and version
    there and the service restarted; no assumption on the hash is needed. An
    authorized actor does both, in a context that is not cancelled, on hosts
    whose calls do not fail, and the version and the manifest are within the
    two megabytes that restoring reads of an entry. *)
Theorem Backup_Restore_roundtrip ctx actor d d2 c v cfg :
  authorize actor = None → ctx_Err ctx = None →
  dk_files d !! configPath = Some c → dk_files d !! versionPath = Some v →
  DecodeCandidate render c = inr cfg → Z.of_nat (String.length v) ≤ limit →
  (∀ s, json_Marshal (manifest_of c v) = inr s → Z.of_nat (String.length s) ≤ limit) →
  ∃ payload, (Backup ctx actor d).1 = inr payload
    ∧ let '((result, err), d') := Restore render ctx actor payload false d2 in
      err = None ∧ or_Version result = TrimSpace v
      ∧ dk_files d' = <[versionPath := v]> (<[configPath := c]> (dk_files d2))
      ∧ last (dk_commands d') = Some ["systemctl"; "restart"; "aquaos.service"].
Proof.
  intros Hauth Hctx Hc Hv Hdec Hvl Hml.
  destruct (json_ok (manifest_of c v) (manifest_plain c v)) as (m & Hm & Hdm).
  destruct (zip_Close_ok [(config_entry, c); (version_entry, v); ("manifest.json", m)])
    as (payload & read & Hclose & Hread & Hback); [by repeat constructor|].
  pose proof (zip_of_snoc [(config_entry, c); (version_entry, v)] "manifest.json" m) as Hsnoc.
  exists payload. split.
  - unfold Backup. rewrite Hauth, Hctx. pose proof (backup_files_ok d c v Hc Hv) as Hb.
    destruct (backup_files _ _ _ d) as [r d1]. simpl in Hb. subst r. rewrite Hm. simpl read_or_empty.
    destruct (zip_Create _ (zip_of _)) as [e1 a1]. simpl in Hsnoc. destruct (zip_Write m a1) as [e2 a2].
    simpl in Hsnoc. subst a2. done.
  - assert (restore_candidate render payload = inr (c, v)) as Hr.
    { unfold restore_candidate. rewrite Hread, (restore_reads c v m read ∅); eauto using candidate_size.
      unfold file. rewrite lookup_insert_eq. simpl. rewrite Hdm.
      assert (forallb (checksum_ok (<["manifest.json":=m]> (<[version_entry:=v]> (<[config_entry:=c]> ∅))))
        (map_to_list (manifest_of c v)) = true) as ->.
      { apply forallb_forall. intros [k x] Hin%list_elem_of_In%elem_of_map_to_list.
        unfold checksum_ok, file. simpl. apply bool_decide_eq_true. unfold manifest_of in Hin.
        apply lookup_insert_Some in Hin as [[<- <-]|[_ Hin]]; [done|].
        by apply lookup_insert_Some in Hin as [[<- <-]|[_ Hin]]. }
      cbn [negb]. rewrite !(lookup_insert_ne _ "manifest.json") by done.
      rewrite (lookup_insert_ne _ version_entry config_entry), !lookup_insert_eq by done. simpl default.
      by rewrite Hdec. }
    unfold Restore. rewrite Hauth, Hr. simpl. split_and!; try done. by rewrite last_snoc.
Qed.
End roundtrip.
