(* ===== verification/LocalHost.v ===== *)
(** * The local host: [internal/operations/host.go]

    [LocalHost] under a root directory, over an interface for the operating
    system's file calls. Paths are those of a POSIX system: one separator, no
    volumes, and [FromSlash] does nothing. *)

From Stdlib Require Import ZArith Lia String Ascii.
From stdpp Require Import base gmap strings list pretty.
From S2P Require Import Prelude Topics Config Operations.

(** ** The operating system *)
Definition ErrNotExist : error := ErrVar "os.ErrNotExist".

Class OS (W : Type) := {
  os_ReadFile : string → W → (error + string) * W;
  os_MkdirAll : string → Z → W → option error * W;
  os_CreateTemp : string → string → W → (error + string) * W;
  file_Chmod : string → Z → W → option error * W;
  file_Write : string → string → W → option error * W;
  file_Sync : string → W → option error * W;
  file_Close : string → W → option error * W;
  os_Rename : string → string → W → option error * W;
  os_Remove : string → W → option error * W;
  os_Stat : string → W → option error * W;
  exec_Run : Context → list string → W → option error * W;
  runtime_GOOS : string;
  runtime_GOARCH : string
}.

(** ** Paths *)
Definition is_rooted (p : string) : bool :=
  match p with String c _ => Ascii.eqb c slash | EmptyString => false end.

(** The elements of a path once cleaned. *)
Definition path_elements (p : string) : list string := reverse (foldl (clean_step (is_rooted p)) [] (splitTopic p)).

Fixpoint TrimLeft (s : string) : string :=
  match s with String c rest => if Ascii.eqb c slash then TrimLeft rest else s | EmptyString => "" end.

(** [filepath.Join] of two elements, of which empty ones are ignored. *)
Definition filepath_Join (a b : string) : string :=
  if bool_decide (a = "") then (if bool_decide (b = "") then "" else path_Clean b)
  else if bool_decide (b = "") then path_Clean a else path_Clean (a +:+ "/" +:+ b).

(** The longest common prefix taken off both lists. *)
Fixpoint strip_common (a b : list string) : list string * list string :=
  match a, b with
  | x :: a', y :: b' => if bool_decide (x = y) then strip_common a' b' else (a, b)
  | _, _ => (a, b)
  end.

(** [filepath.Rel], by elements. *)
Definition filepath_Rel (base target : string) : error + string :=
  let impossible := inl (ErrNew "Rel: can't make target relative to base") in
  when bool_decide (path_Clean base = path_Clean target) yield inr ".";;
  when negb (bool_decide (is_rooted (path_Clean base) = is_rooted (path_Clean target))) yield impossible;;
  match strip_common (path_elements base) (path_elements target) with
  | ([], rest) => inr (String.concat "/" rest)
  | (element :: up, rest) =>
      when bool_decide (element = "..") yield impossible;;
      inr (String.concat "/" (((fun _ => "..") <$> (element :: up)) ++ rest))
  end.

(** [filepath.Dir] of a clean absolute path. *)
Definition filepath_Dir (p : string) : string := "/" +:+ String.concat "/" (removelast (path_elements p)).

(** ** The host *)
Record LocalHost := mkLocalHost { lh_root : string }.

(** [absolute] is what [filepath.Abs] answers for the root. *)
Definition NewLocalHost (root : string) (absolute : error + string) : error + LocalHost :=
  when blank root yield inl (ErrNew "host root is required");;
  match absolute with inl err => inl err | inr absolute => inr (mkLocalHost absolute) end.

Definition ErrEscapes : error := ErrNew "operation path escapes host root".

Definition resolve (h : LocalHost) (path : string) : error + string :=
  let clean := path_Clean path in
  let clean := if is_rooted clean then TrimLeft clean else clean in
  let target := filepath_Join (lh_root h) clean in
  match filepath_Rel (lh_root h) target with
  | inl _ => inl ErrEscapes
  | inr relative =>
      when bool_decide (relative = "..") || String.prefix "../" relative yield inl ErrEscapes;;
      inr target
  end.

Section local.
Context {W : Type} {HW : OS W}.

Definition Local_ReadFile (h : LocalHost) (path : string) (w : W) : (error + string) * W :=
  match resolve h path with inl err => (inl err, w) | inr target => os_ReadFile target w end.

(** [WriteFileAtomic] between creating the temporary file and its deferred
    removal. *)
Definition write_temporary (temporary target payload : string) (mode : Z) (w : W) : option error * W :=
  let '(err, w) := file_Chmod temporary mode w in
  iferr err as err yield (let '(_, w) := file_Close temporary w in (Some err, w));;
  let '(err, w) := file_Write temporary payload w in
  iferr err as err yield (let '(_, w) := file_Close temporary w in (Some err, w));;
  let '(err, w) := file_Sync temporary w in
  iferr err as err yield (let '(_, w) := file_Close temporary w in (Some err, w));;
  let '(err, w) := file_Close temporary w in
  iferr err as err yield (Some err, w);;
  let '(err, w) := os_Rename temporary target w in
  iferr err as err yield (Some (ErrWrap "activate file" err), w);;
  (None, w).

Definition Local_WriteFileAtomic (h : LocalHost) (path payload : string) (mode : Z) (w : W) : option error * W :=
  match resolve h path with
  | inl err => (Some err, w)
  | inr target =>
      let '(err, w) := os_MkdirAll (filepath_Dir target) (octal 7 5 5) w in
      iferr err as err yield (Some err, w);;
      let '(file, w) := os_CreateTemp (filepath_Dir target) ".aquaos-*" w in
      match file with
      | inl err => (Some err, w)
      | inr temporary =>
          let '(err, w) := write_temporary temporary target payload mode w in
          let '(_, w) := os_Remove temporary w in
          (err, w)
      end
  end.

Definition Local_Exists (h : LocalHost) (path : string) (w : W) : (bool * option error) * W :=
  match resolve h path with
  | inl err => ((false, Some err), w)
  | inr target =>
      let '(err, w) := os_Stat target w in
      match err with
      | None => ((true, None), w)
      | Some err => if errors_Is err "os.ErrNotExist" then ((false, None), w) else ((false, Some err), w)
      end
  end.

Definition Local_MkdirAll (h : LocalHost) (path : string) (mode : Z) (w : W) : option error * W :=
  match resolve h path with inl err => (Some err, w) | inr target => os_MkdirAll target mode w end.

Definition Local_Remove (h : LocalHost) (path : string) (w : W) : option error * W :=
  match resolve h path with
  | inl err => (Some err, w)
  | inr target =>
      let '(err, w) := os_Remove target w in
      match err with
      | Some e => if errors_Is e "os.ErrNotExist" then (None, w) else (err, w)
      | None => (None, w)
      end
  end.

Definition allowed_commands : list string := ["systemctl"; "systemd-sysusers"; "systemd-tmpfiles"].

Definition Local_Run (h : LocalHost) (ctx : Context) (command : list string) (w : W) : option error * W :=
  when negb (bool_decide (lh_root h = path_Clean "/")) yield (None, w);;
  let name := default "" (head command) in
  when negb (bool_decide (name ∈ allowed_commands)) yield (Some (ErrNew "host command is not allow-listed"), w);;
  let '(err, w) := exec_Run ctx command w in
  match err with Some err => (Some (ErrWrap ("run " +:+ name) err), w) | None => (None, w) end.

(** A host with the system it acts on. *)
#[export] Instance LocalHost_Host : Host (LocalHost * W) := {|
  host_ReadFile path t := let '(r, w) := Local_ReadFile t.1 path t.2 in (r, (t.1, w));
  host_WriteFileAtomic path payload mode t :=
    let '(r, w) := Local_WriteFileAtomic t.1 path payload mode t.2 in (r, (t.1, w));
  host_Exists path t := let '(r, w) := Local_Exists t.1 path t.2 in (r, (t.1, w));
  host_MkdirAll path mode t := let '(r, w) := Local_MkdirAll t.1 path mode t.2 in (r, (t.1, w));
  host_Remove path t := let '(r, w) := Local_Remove t.1 path t.2 in (r, (t.1, w));
  host_Run ctx command t := let '(r, w) := Local_Run t.1 ctx command t.2 in (r, (t.1, w));
  host_GOOS _ := runtime_GOOS;
  host_GOARCH _ := runtime_GOARCH
|}.
End local.

(** ** No path leads out of the root *)
Lemma clean_step_no_up stack element : (".." ∉ stack) → ".." ∉ clean_step true stack element.
Proof.
  intros Hn. unfold clean_step. destruct (_ || _); [done|].
  destruct (bool_decide_reflect (element = "..")) as [Hup|Hup].
  - destruct stack as [|top below]; [done|]. apply not_elem_of_cons in Hn as [Htop Hbelow].
    by rewrite bool_decide_false by done.
  - apply not_elem_of_cons. split; congruence.
Qed.

Lemma rooted_no_up p : is_rooted p = true → ".." ∉ path_elements p.
Proof.
  intros Hp. unfold path_elements. rewrite Hp, elem_of_reverse.
  assert (∀ stack l, (".." ∉ stack) → ".." ∉ foldl (clean_step true) stack l) as Hf.
  { intros stack l. revert stack. induction l as [|e l IH]; intros stack Hs; [done|]. simpl.
    apply IH. by apply clean_step_no_up. }
  apply Hf. set_solver.
Qed.

Lemma strip_common_spec a b :
  ∃ common, a = common ++ (strip_common a b).1 ∧ b = common ++ (strip_common a b).2.
Proof.
  revert b. induction a as [|x a IH]; intros [|y b]; try (by exists []). simpl.
  case_bool_decide as He; [|by exists []]. subst y. destruct (IH b) as (common & H1 & H2).
  exists (x :: common). simpl. by rewrite <- H1, <- H2.
Qed.

Lemma concat_up l : String.concat "/" (".." :: l) = ".." ∨ String.prefix "../" (String.concat "/" (".." :: l)) = true.
Proof. destruct l as [|e l]; [by left|right].
  change (String.concat "/" (".." :: e :: l)) with ("../" +:+ String.concat "/" (e :: l)).
  by destruct (String.concat "/" (e :: l)).
Qed.

Lemma path_Clean_rooted p : is_rooted p = true → is_rooted (path_Clean p) = true.
Proof. unfold path_Clean, is_rooted. intros Hp. destruct p as [|c p]; [done|]. by rewrite Hp. Qed.

Lemma filepath_Join_rooted a b : is_rooted a = true → is_rooted (filepath_Join a b) = true.
Proof.
  intros Ha. unfold filepath_Join. case_bool_decide; [by subst|].
  case_bool_decide; apply path_Clean_rooted; [done|]. by destruct a.
Qed.

Definition plain_element (e : string) : Prop := e ≠ "" ∧ free_of slash e.

Lemma splitTopic_free t : Forall (free_of slash) (splitTopic t).
Proof.
  induction t as [|c t IH]; simpl; [by repeat constructor; apply not_elem_of_nil|].
  destruct (Ascii.eqb c slash) eqn:Hc; [constructor; [apply not_elem_of_nil|done]|].
  apply Ascii.eqb_neq in Hc. destruct (splitTopic t) as [|p ps] eqn:Ht; [by apply splitTopic_nonnil in Ht|].
  apply Forall_cons in IH as [Hp Hps]. constructor; [|done]. by apply free_of_cons.
Qed.

Lemma path_elements_plain p : Forall plain_element (path_elements p).
Proof.
  unfold path_elements. rewrite Forall_reverse. pose proof (splitTopic_free p) as Hf.
  assert (Forall plain_element []) as Hs by constructor. revert Hs. generalize (@nil string) as stack.
  generalize (is_rooted p) as rooted. intros rooted.
  induction Hf as [|e l He _ IH]; intros stack Hs; simpl; [done|]. apply IH. unfold clean_step.
  assert (plain_element "..") as Hup by (split; [done|unfold free_of; simpl; set_solver]).
  destruct (bool_decide_reflect (e = "")) as [|Hne]; [done|]. destruct (bool_decide (e = ".")); [done|]. simpl.
  destruct (bool_decide (e = "..")).
  - destruct stack as [|top below]; [destruct rooted; [done|by apply Forall_cons]|].
    destruct (bool_decide (top = "..")); [by constructor|]. by apply Forall_cons in Hs as [_ ?].
  - by constructor.
Qed.

Lemma splitTopic_concat l : l ≠ [] → Forall plain_element l → splitTopic (String.concat "/" l) = l.
Proof.
  intros Hne Hl. induction Hl as [|e l [_ He] Hl IH]; [done|]. destruct l as [|e' l]; [by apply splitTopic_plain|].
  change (String.concat "/" (e :: e' :: l)) with (e +:+ String slash (String.concat "/" (e' :: l))).
  rewrite splitTopic_segment by done. by rewrite IH.
Qed.

Lemma concat_inj l l' :
  Forall plain_element l → Forall plain_element l' → String.concat "/" l = String.concat "/" l' → l = l'.
Proof.
  assert (∀ e l, Forall plain_element (e :: l) → String.concat "/" (e :: l) ≠ "") as Hne.
  { intros e m [[He _] _]%Forall_cons Hc. apply He. destruct m as [|e' m]; [done|]. by destruct e. }
  intros Hl Hl' Hc. destruct l as [|e l], l' as [|e' l'].
  - done.
  - by destruct (Hne e' l').
  - by destruct (Hne e l).
  - rewrite <- (splitTopic_concat (e :: l)), <- (splitTopic_concat (e' :: l')), Hc by done.
    by rewrite splitTopic_concat.
Qed.

Lemma path_Clean_elements p q :
  is_rooted p = true → is_rooted q = true → path_Clean p = path_Clean q → path_elements p = path_elements q.
Proof.
  assert (∀ p, is_rooted p = true → path_Clean p = String slash (String.concat "/" (path_elements p))) as Hr.
  { intros r Hp. unfold path_Clean, path_elements, is_rooted in *. destruct r as [|c r]; [done|]. by rewrite Hp. }
  intros Hp Hq. rewrite (Hr p Hp), (Hr q Hq). intros [= Hc].
  apply concat_inj; [apply path_elements_plain|apply path_elements_plain|done].
Qed.

(** Under an absolute root, whatever path an operation names, the file it
    resolves to lies under the root: its elements are those of the root
    followed by elements none of which leads upwards. *)
Theorem resolve_confined h path target :
  is_rooted (lh_root h) = true → resolve h path = inr target →
  ∃ rest, path_elements target = path_elements (lh_root h) ++ rest ∧ ".." ∉ rest.
Proof.
  intros Hroot. unfold resolve, filepath_Rel.
  set (clean := if is_rooted (path_Clean path) then _ else _).
  pose proof (filepath_Join_rooted (lh_root h) clean Hroot) as Ht.
  set (t := filepath_Join (lh_root h) clean) in *.
  pose proof (rooted_no_up t Ht) as Hup. pose proof (rooted_no_up (lh_root h) Hroot) as Hup0.
  rewrite (path_Clean_rooted _ Hroot), (path_Clean_rooted _ Ht), (bool_decide_true (true = true)) by done.
  destruct (bool_decide_reflect (path_Clean (lh_root h) = path_Clean t)) as [He|_].
  { intros [= <-]. exists []. rewrite app_nil_r. split; [symmetry; by apply path_Clean_elements|set_solver]. }
  destruct (strip_common_spec (path_elements (lh_root h)) (path_elements t)) as (common & H1 & H2).
  destruct (strip_common _ _) as [up rest]. simpl in H1, H2. destruct up as [|e up].
  - cbn [negb]. destruct (_ || String.prefix _ _); [done|]. intros [= <-]. exists rest. rewrite app_nil_r in H1.
    rewrite H1. split; [done|]. rewrite H2 in Hup. set_solver.
  - cbn [negb]. rewrite (bool_decide_false (e = "..")) by (intros ->; apply Hup0; rewrite H1; set_solver).
    change (((fun _ : string => "..") <$> e :: up) ++ rest) with (".." :: ((fun _ => "..") <$> up) ++ rest).
    destruct (concat_up (((fun _ => "..") <$> up) ++ rest)) as [Hc|Hc]; rewrite Hc; [done|].
    by rewrite orb_true_r.
Qed.

(** ** Replacement is atomic

    A file system in which every call can fail. A write that fails leaves any
    content behind; a rename that fails leaves both files alone. *)
Record FileSystem := mkFileSystem { fs_files : gmap string string; fs_calls : nat }.

Section file_system.
Context (faults : nat → option error) (garbage temp : nat → string).

Definition fs_call (effect failed : gmap string string → gmap string string) (w : FileSystem) :
    option error * FileSystem :=
  match faults (fs_calls w) with
  | Some err => (Some err, mkFileSystem (failed (fs_files w)) (S (fs_calls w)))
  | None => (None, mkFileSystem (effect (fs_files w)) (S (fs_calls w)))
  end.

(** A call on a file that must exist. *)
Definition fs_on (path : string) (effect : string → gmap string string → gmap string string) (w : FileSystem) :
    option error * FileSystem :=
  match fs_files w !! path with
  | None => (Some ErrNotExist, mkFileSystem (fs_files w) (S (fs_calls w)))
  | Some content => fs_call (effect content) id w
  end.

Definition fs_CreateTemp (w : FileSystem) : (error + string) * FileSystem :=
  let name := temp (fs_calls w) in
  match faults (fs_calls w), fs_files w !! name with
  | Some err, _ => (inl err, mkFileSystem (fs_files w) (S (fs_calls w)))
  | None, Some _ => (inl (ErrVar "os.ErrExist"), mkFileSystem (fs_files w) (S (fs_calls w)))
  | None, None => (inr name, mkFileSystem (<[name := ""]> (fs_files w)) (S (fs_calls w)))
  end.

Definition FileSystem_OS : OS FileSystem := {|
  os_ReadFile := fun path w =>
    match faults (fs_calls w), fs_files w !! path with
    | Some err, _ => (inl err, mkFileSystem (fs_files w) (S (fs_calls w)))
    | None, None => (inl ErrNotExist, mkFileSystem (fs_files w) (S (fs_calls w)))
    | None, Some s => (inr s, mkFileSystem (fs_files w) (S (fs_calls w)))
    end;
  os_MkdirAll := fun _ _ => fs_call id id;
  os_CreateTemp := fun _ _ => fs_CreateTemp;
  file_Chmod := fun _ _ => fs_call id id;
  file_Write := fun name s w => fs_call <[name := s]> <[name := garbage (fs_calls w)]> w;
  file_Sync := fun _ => fs_call id id;
  file_Close := fun _ => fs_call id id;
  os_Rename := fun from to => fs_on from (fun content f => <[to := content]> (delete from f));
  os_Remove := fun path => fs_on path (fun _ => delete path);
  os_Stat := fun path => fs_on path (fun _ => id);
  exec_Run := fun _ _ => fs_call id id;
  runtime_GOOS := "linux";
  runtime_GOARCH := "amd64"
|}.
#[local] Existing Instance FileSystem_OS.

(** Outside the temporary file nothing differs. *)
Definition apart (temporary : string) (f f' : gmap string string) : Prop :=
  ∀ path, path ≠ temporary → f' !! path = f !! path.

Lemma apart_trans temporary f1 f2 f3 : apart temporary f1 f2 → apart temporary f2 f3 → apart temporary f1 f3.
Proof. intros H1 H2 path Hp. by rewrite H2, H1. Qed.

Lemma apart_insert temporary s f : apart temporary f (<[temporary := s]> f).
Proof. intros path Hp. by rewrite lookup_insert_ne. Qed.

Lemma apart_delete temporary f : apart temporary f (delete temporary f).
Proof. intros path Hp. by rewrite lookup_delete_ne. Qed.

Lemma remove_apart temporary w : apart temporary (fs_files w) (fs_files (os_Remove temporary w).2).
Proof.
  simpl. unfold fs_on, fs_call. destruct (fs_files w !! temporary); [|done].
  destruct (faults _); simpl; [done|]. apply apart_delete.
Qed.

Lemma write_temporary_spec temporary target payload mode w :
  temporary ≠ target →
  let '(err, w') := write_temporary temporary target payload mode w in
  match err with
  | Some _ => apart temporary (fs_files w) (fs_files w')
  | None => apart temporary (<[target := payload]> (fs_files w)) (fs_files w')
  end.
Proof.
  intros Hne. unfold write_temporary. simpl. unfold fs_call. simpl.
  destruct (faults (fs_calls w)); simpl; [by destruct (faults _)|].
  destruct (faults (S (fs_calls w))); simpl; [destruct (faults _); simpl; apply apart_insert|].
  destruct (faults (S (S (fs_calls w)))); simpl; [destruct (faults _); simpl; apply apart_insert|].
  destruct (faults (S (S (S (fs_calls w))))); simpl; [apply apart_insert|].
  unfold fs_on. simpl. rewrite lookup_insert_eq. unfold fs_call. simpl.
  destruct (faults (S (S (S (S (fs_calls w)))))); simpl; [apply apart_insert|].
  intros path Hp. destruct (decide (path = target)) as [->|]; [by rewrite !lookup_insert_eq|].
  by rewrite !lookup_insert_ne, lookup_delete_ne, lookup_insert_ne by done.
Qed.

(** C32: replacing a file either succeeds, and then the file holds exactly the
    new content, or fails, and then it holds what it held before, whichever
    calls to the operating system fail and whatever a failed write leaves
    behind; no other file but the temporary one is touched. *)
Theorem WriteFileAtomic_atomic h path payload mode w target :
  resolve h path = inr target → temp (S (fs_calls w)) ≠ target →
  let '(err, w') := Local_WriteFileAtomic h path payload mode w in
  fs_files w' !! target = match err with None => Some payload | Some _ => fs_files w !! target end
  ∧ ∀ other, other ≠ target → other ≠ temp (S (fs_calls w)) → fs_files w' !! other = fs_files w !! other.
Proof.
  intros Hr Hne. unfold Local_WriteFileAtomic. rewrite Hr. simpl. unfold fs_call, fs_CreateTemp. simpl.
  destruct (faults (fs_calls w)); [done|]. simpl. set (temporary := temp (S (fs_calls w))) in *.
  destruct (faults (S (fs_calls w))); simpl; [done|].
  destruct (fs_files w !! temporary) eqn:Ht; simpl; [done|].
  set (w1 := mkFileSystem (<[temporary := ""]> (fs_files w)) _).
  pose proof (write_temporary_spec temporary target payload mode w1 Hne) as Hw.
  destruct (write_temporary temporary target payload mode w1) as [err w2].
  pose proof (remove_apart temporary w2) as Hd. simpl in Hd.
  destruct (fs_on temporary _ w2) as [e w3]. simpl in Hd.
  assert (apart temporary (fs_files w) (fs_files w1)) as H1 by apply apart_insert.
  destruct err as [err|].
  - assert (apart temporary (fs_files w) (fs_files w3)) as Ha by eauto using apart_trans.
    split; [by apply Ha|]. intros other _ Ho. by apply Ha.
  - split.
    + rewrite (Hd target), (Hw target) by done. by rewrite lookup_insert_eq.
    + intros other Hot Ho. rewrite (Hd other), (Hw other), lookup_insert_ne by done. by apply H1.
Qed.
End file_system.
