(* ===== verification/StorageBackend.v ===== *)
(** * Storage backends: [internal/storage/events.go] and [influx.go]

    The conversion of events to points, and the line protocol sent to the
    time-series database. JSON decoding, number formatting, quoting and URL
    handling are interfaces. *)

From Stdlib Require Import ZArith Lia String Ascii.
From stdpp Require Import base gmap strings list pretty sorting.
From S2P Require Import Prelude Domain Events State Alarms Output Evaluator MqttRouter Storage Topics Config Http.
From S2P Require MqttClient.

(** ** The texts of enumerations *)
Definition severity_text (s : Severity) : string :=
  match s with
  | SeverityDebug => "debug" | SeverityInfo => "info" | SeverityWarning => "warning" | SeverityCritical => "critical"
  | SeverityOther s => s
  end.
Definition entity_text (k : EntityKind) : string :=
  match k with EntitySensor => "sensor" | EntityEquipment => "equipment" | EntityKindOther s => s end.
Definition quality_text (q : Quality) : string :=
  match q with
  | QualityGood => "good" | QualitySuspect => "suspect" | QualityStale => "stale" | QualityInvalid => "invalid"
  | QualityUnavailable => "unavailable" | QualityOther s => s
  end.
Definition quantity_text (k : QuantityKind) : string :=
  match k with
  | QuantityTemperature => "temperature" | QuantityPH => "ph" | QuantitySalinity => "salinity" | QuantityFlow => "flow"
  | QuantityLevel => "level" | QuantityPower => "power" | QuantityVoltage => "voltage" | QuantityCurrent => "current"
  | QuantityKindOther s => s
  end.
Definition unit_text (u : Unit) : string :=
  match u with
  | UnitCelsius => "celsius" | UnitPH => "pH" | UnitPPT => "ppt" | UnitLitersPerHour => "liters_per_hour"
  | UnitPercent => "percent" | UnitWatts => "watts" | UnitVolts => "volts" | UnitAmperes => "amperes"
  | UnitOther s => s
  end.
Definition command_status_text (s : CommandStatus) : string :=
  match s with
  | StatusValidated => "validated" | StatusRejected => "rejected" | StatusDispatched => "dispatched"
  | StatusAcknowledged => "acknowledged" | StatusSucceeded => "succeeded" | StatusFailed => "failed"
  | StatusExpired => "expired" | StatusOther s => s
  end.
Definition alarm_status_text (s : AlarmStatus) : string :=
  match s with
  | AlarmActive => "active" | AlarmAcked => "acknowledged" | AlarmStatusCleared => "cleared"
  | AlarmStatusOther s => s
  end.

(** ** Events to points *)

(** [Storage], as the sink uses it. *)
Class PointStorage (T : Type) := { storage_Enqueue : Point → T → option error * T }.
#[export] Instance Writer_PointStorage {C} : PointStorage (@Writer C) := {| storage_Enqueue := Enqueue |}.
#[export] Instance Disabled_PointStorage : PointStorage Disabled :=
  {| storage_Enqueue := fun p d => (Disabled_Enqueue p d, d) |}.

Class ResultUnmarshaler := { json_UnmarshalResult : string → error + Result }.

Definition command_types : list EventType :=
  [CommandValidated; CommandRejected; CommandDispatched; CommandAcknowledged; CommandReconciled; CommandExpired].
Definition alarm_types : list EventType := [AlarmRaised; AlarmAcknowledged; AlarmCleared; AlarmEscalated].
Definition stored_types : list EventType := StateChanged :: command_types ++ alarm_types.

Definition base_tags (event : Event) : gmap string string :=
  <["event_type" := ev_EventType event]> (<["severity" := severity_text (ev_Severity event)]>
    (<["source" := ev_Source event]> ∅)).
Definition base_fields (event : Event) : gmap string Field :=
  <["correlation_id" := StringField (ev_CorrelationID event)]> ∅.

Definition state_point (event : Event) (v : StateValue) : Point :=
  let tags := <["attribute" := k_Attribute (sv_Key v)]> (<["entity_id" := k_EntityID (sv_Key v)]>
    (<["entity_kind" := entity_text (k_EntityKind (sv_Key v))]> (base_tags event))) in
  let fields := <["revision" := StringField (pretty (sv_Revision v))]>
    (<["quality" := StringField (quality_text (sv_Quality v))]> (base_fields event)) in
  match v_Quantity (sv_Value v) with
  | Some q =>
      mkPoint "aquaos_measurements_v1"
        (<["unit" := unit_text (q_Unit q)]> (<["quantity" := quantity_text (q_Kind q)]> tags))
        (<["value" := FloatField (q_Value q)]> fields) (ev_Timestamp event)
  | None =>
      let fields :=
        match v_Boolean (sv_Value v), v_Text (sv_Value v) with
        | Some b, _ => <["value" := BooleanField b]> fields
        | None, Some t => <["value" := StringField t]> fields
        | None, None => fields
        end in
      mkPoint "aquaos_equipment_state_v1" tags fields (ev_Timestamp event)
  end.

Definition command_point (event : Event) (r : Result) : Point :=
  mkPoint "aquaos_command_outcomes_v1"
    (<["reason" := r_Reason r]> (<["status" := command_status_text (r_Status r)]>
      (<["equipment_id" := c_EquipmentID (r_Command r)]> (base_tags event))))
    (<["on" := BooleanField (c_On (r_Command r))]> (<["command_id" := StringField (c_ID (r_Command r))]>
      (base_fields event)))
    (ev_Timestamp event).

Definition alarm_point (event : Event) (a : Alarm) : Point :=
  mkPoint "aquaos_alarms_v1"
    (<["subject_kind" := su_Kind (al_Subject a)]> (<["status" := alarm_status_text (al_Status a)]>
      (<["alarm_code" := al_Code a]> (base_tags event))))
    (<["condition_active" := BooleanField (al_ConditionActive a)]>
      (<["subject_id" := StringField (su_ID (al_Subject a))]>
        (<["alarm_id" := StringField (al_ID a)]> (base_fields event))))
    (ev_Timestamp event).

Section events.
Context `{!Unmarshaler, !AlarmUnmarshaler, !ResultUnmarshaler}.

Definition pointFromEvent (event : Event) : option Point :=
  if bool_decide (ev_EventType event = StateChanged) then
    match json_Unmarshal (ev_Payload event) with inl _ => None | inr v => Some (state_point event v) end
  else if bool_decide (ev_EventType event ∈ command_types) then
    match json_UnmarshalResult (ev_Payload event) with inl _ => None | inr r => Some (command_point event r) end
  else if bool_decide (ev_EventType event ∈ alarm_types) then
    match json_UnmarshalAlarm (ev_Payload event) with inl _ => None | inr a => Some (alarm_point event a) end
  else None.

Inductive EventSink := mkEventSink.
(** [target] and [logger] say that they are there. *)
Definition NewEventSink (target logger : bool) : EventSink + error :=
  when negb target || negb logger yield inr (ErrNew "event storage and logger are required");;
  inl mkEventSink.

Definition Sink_Attach {B} `{!EventSubscriber B} (bus : B) : (list nat * option error) * B :=
  attach_from stored_types [] bus.

(** A refused point is only logged. *)
Definition Sink_Handle {T} `{!PointStorage T} (event : Event) (t : T) : option error * T :=
  match pointFromEvent event with
  | None => (None, t)
  | Some point => let '(_, t) := storage_Enqueue point t in (None, t)
  end.
End events.

(** ** The line protocol *)

(** [strconv.FormatFloat] with the shortest digits, [strconv.Quote] and
    [url.QueryEscape]; and [URL.String]. *)
Class Formats := {
  FormatFloat : float64 → string; Quote : string → string; QueryEscape : string → string; url_String : URL → string
}.

(** [strings.NewReplacer] that puts a backslash before some characters. *)
Definition backslash : ascii := ascii_of_nat 92.
Fixpoint escape (special : list ascii) (s : string) : string :=
  match s with
  | EmptyString => ""
  | String c rest =>
      if bool_decide (c ∈ special) then String backslash (String c (escape special rest))
      else String c (escape special rest)
  end.
Definition escapeMeasurement : string → string := escape [","; " "]%char.
Definition escapeTag : string → string := escape [","; " "; "="]%char.
Definition escapeFieldKey : string → string := escapeTag.

Definition line_end : string := String (ascii_of_nat 10) "".

Section influx.
Context `{!Formats}.

Definition field_text (f : Field) : string :=
  match f_Float f, f_Boolean f, f_String f with
  | Some v, _, _ => FormatFloat v
  | None, Some b, _ => if b then "true" else "false"
  | None, None, Some s => Quote s
  | None, None, None => ""
  end.

Definition tag_text (tags : gmap string string) (key : string) : string :=
  "," +:+ escapeTag key +:+ "=" +:+ escapeTag (default "" (tags !! key)).
Definition zero_Field : Field := mkField None None None.
Definition field_pair (fields : gmap string Field) (key : string) : string :=
  escapeFieldKey key +:+ "=" +:+ field_text (default zero_Field (fields !! key)).

Definition encodePoint (p : Point) : string :=
  escapeMeasurement (pt_Measurement p) +:+ String.concat "" (tag_text (pt_Tags p) <$> sortedKeys (pt_Tags p))
  +:+ " " +:+ String.concat "," (field_pair (pt_Fields p) <$> sortedKeys (pt_Fields p))
  +:+ " " +:+ pretty (MqttClient.UnixNano (pt_Timestamp p)) +:+ line_end.

Record InfluxConfig := mkInfluxConfig {
  ic_URL : string; ic_Organization : string; ic_Bucket : string; ic_Token : string
}.
Record InfluxClient := mkInfluxClient { ix_endpoint : string; ix_token : string }.

Fixpoint trim_right_slashes (s : string) : string :=
  match s with
  | EmptyString => ""
  | String c rest =>
      let rest := trim_right_slashes rest in
      if bool_decide (rest = "") && Ascii.eqb c slash then "" else String c rest
  end.

Definition NewInfluxClient `{!URLParser} (cfg : InfluxConfig) (hasClient : bool) : InfluxClient + error :=
  when negb hasClient yield inr (ErrNew "influx HTTP client is required");;
  let origin := inr (ErrNew "influx URL must be an HTTP or HTTPS origin") in
  match url_Parse (ic_URL cfg) with
  | None => origin
  | Some parsed =>
      when bool_decide (url_Host parsed = "")
           || negb (bool_decide (url_Scheme parsed = "http")) && negb (bool_decide (url_Scheme parsed = "https")) yield
        origin;;
      when url_User parsed || negb (bool_decide (url_RawQuery parsed = ""))
           || negb (bool_decide (url_Fragment parsed = "")) yield
        inr (ErrNew "influx URL must not contain credentials, query, or fragment");;
      when bool_decide (ic_Organization cfg = "") || bool_decide (ic_Bucket cfg = "") || bool_decide (ic_Token cfg = "")
        yield inr (ErrNew "influx organization, bucket, and token are required");;
      inl (mkInfluxClient (trim_right_slashes (url_String parsed) +:+ "/api/v2/write?org="
             +:+ QueryEscape (ic_Organization cfg) +:+ "&bucket=" +:+ QueryEscape (ic_Bucket cfg) +:+ "&precision=ns")
             (ic_Token cfg))
  end.

(** The body of a batch, or the refusal of its first invalid point. *)
Fixpoint encode_batch (points : list Point) : error + string :=
  match points with
  | [] => inr ""
  | p :: rest =>
      iferr validatePoint p as err yield inl err;;
      match encode_batch rest with inl err => inl err | inr body => inr (encodePoint p +:+ body) end
  end.

Definition write_request (c : InfluxClient) (body : string) : Request :=
  mkRequest "POST" (ix_endpoint c)
    [("Authorization", "Token " +:+ ix_token c); ("Content-Type", "text/plain; charset=utf-8")] body.

(** [timeout] is what the HTTP client has configured. *)
Definition Influx_Write {T} `{!HTTPTransport T} (timeout : Duration) (ctx : Context) (points : list Point)
    (c : InfluxClient) (t : T) : option error * T :=
  match points with
  | [] => (None, t)
  | _ =>
      match encode_batch points with
      | inl err => (Some err, t)
      | inr body =>
          iferr http_RequestError (ix_endpoint c) as err yield (Some err, t);;
          let '(response, t) := http_Do ctx timeout (write_request c body) t in
          match response with
          | inl err => (Some (ErrWrap "write influx batch" err), t)
          | inr response =>
              when negb (status_ok response) yield
                (Some (ErrNew ("influx write returned " +:+ pretty (rs_StatusCode response) +:+ ": "
                   +:+ TrimSpace (match ReadLimited 1024 response with inr s => s | inl _ =>
                         String.substring 0 1024 (rs_Body response) end))), t);;
              (None, t)
          end
      end
  end.
End influx.

(** ** What is sent *)

(** Escaping loses nothing: two texts with the same escaped form are equal. *)
Lemma escape_inj special s t :
  backslash ∉ special → escape special s = escape special t → s = t.
Proof.
  intros Hb. assert (∀ c r r', c ∈ special → escape special r ≠ String c r') as Hraw.
  { intros c r r' Hc. destruct r as [|d r]; simpl; [done|]. case_bool_decide; intros [= <-]; done. }
  revert t. induction s as [|c s IH]; intros [|d t]; simpl; [done|case_bool_decide; done|case_bool_decide; done|].
  destruct (bool_decide_reflect (c ∈ special)), (bool_decide_reflect (d ∈ special)); intros [= Hc He].
  - f_equal; [done|by apply IH].
  - by edestruct Hraw.
  - by edestruct Hraw.
  - f_equal; [done|by apply IH].
Qed.

Lemma escapeTag_inj s t : escapeTag s = escapeTag t → s = t.
Proof. apply escape_inj. by apply (bool_decide_unpack _). Qed.

Section sent.
Context `{!Formats}.

Lemma encode_batch_spec points :
  match encode_batch points with
  | inr body => Forall (fun p => validatePoint p = None) points ∧ body = foldr String.append "" (encodePoint <$> points)
  | inl err => ∃ before p after, points = before ++ p :: after ∧ Forall (fun p => validatePoint p = None) before
      ∧ validatePoint p = Some err
  end.
Proof.
  induction points as [|p points IH]; simpl; [by split|]. destruct (validatePoint p) as [err|] eqn:Hp.
  { by exists [], p, points. }
  destruct (encode_batch points) as [err|body].
  - destruct IH as (before & q & after & -> & Hb & Hq). exists (p :: before), q, after. by auto.
  - destruct IH as [Hall ->]. auto.
Qed.

(** A transport with the requests it was given. *)
#[export] Instance Logged_HTTPTransport {T} `{!HTTPTransport T} : HTTPTransport (T * list Request) := {
  http_RequestError := http_RequestError;
  http_Do ctx timeout request t := let '(r, t') := http_Do ctx timeout request t.1 in (r, (t', t.2 ++ [request]))
}.

(** A batch is one request with one line per point, in order, or none: a batch
    with an invalid point is refused before anything is sent, and success
    means that the request was answered with a 2xx status. *)
Theorem Influx_Write_one_request {T} `{!HTTPTransport T} timeout ctx points c (t : T) err t' log :
  Influx_Write timeout ctx points c (t, []) = (err, (t', log)) →
  (log = [] ∧ t' = t ∧ (err = None ↔ points = []))
  ∨ (points ≠ [] ∧ Forall (fun p => validatePoint p = None) points
     ∧ log = [write_request c (foldr String.append "" (encodePoint <$> points))]
     ∧ (err = None ↔ ∃ response, (http_Do ctx timeout
          (write_request c (foldr String.append "" (encodePoint <$> points))) t).1 = inr response
          ∧ status_ok response = true)).
Proof.
  unfold Influx_Write. destruct points as [|p0 rest] eqn:Hp; [intros [= <- <- <-]; left; naive_solver|].
  rewrite <- Hp. pose proof (encode_batch_spec points) as Hb. assert (points ≠ []) as Hne by (by subst).
  clear Hp p0 rest. destruct (encode_batch points) as [verr|body]; [intros [= <- <- <-]; left; naive_solver|].
  destruct Hb as [Hall ->]. simpl. destruct (http_RequestError (ix_endpoint c)) as [rerr|];
    [intros [= <- <- <-]; left; naive_solver|].
  destruct (http_Do ctx timeout _ t) as [response t1] eqn:Hdo. intros Hr. right.
  split; [done|]. split; [done|]. simpl in Hr. destruct response as [derr|response]; simpl.
  - injection Hr as <- <- <-. naive_solver.
  - destruct (status_ok response) eqn:Hs; simpl in Hr; injection Hr as <- <- <-; (split; [done|]); split;
      first [done|intros _; by exists response|intros (r & [= <-] & ?); congruence].
Qed.
End sent.
