(* ===== verification/Encoding.v ===== *)
(** * Text encodings of the interfaces

    What the HTTP interfaces and the programs use of [strconv] and
    [encoding/base64]: decimal integers, and base64 with the standard alphabet
    and padding or with the URL alphabet and none. *)

From Stdlib Require Import ZArith Lia String Ascii.
From stdpp Require Import base strings list pretty.
From S2P Require Import Prelude Domain.

Ltac Zify.zify_post_hook ::= Z.to_euclidean_division_equations.

(** ** Decimal integers *)
Definition digit_of (c : ascii) : option Z :=
  let n := Z.of_nat (nat_of_ascii c) in
  if (48 <=? n) && (n <=? 57) then Some (n - 48) else None.

Fixpoint parse_digits (value : Z) (s : string) : option Z :=
  match s with
  | EmptyString => Some value
  | String c rest => match digit_of c with Some d => parse_digits (value * 10 + d) rest | None => None end
  end.

(** [strconv.ParseUint(s, 10, 64)]. *)
Definition ParseUint (s : string) : option Z :=
  when bool_decide (s = "") yield None;;
  match parse_digits 0 s with
  | Some n => if n <? 2 ^ 64 then Some n else None
  | None => None
  end.

(** [strconv.Atoi], on a 64-bit target. *)
Definition Atoi (s : string) : option Z :=
  let '(negative, digits) :=
    match s with
    | String c rest => if Ascii.eqb c "-" then (true, rest) else if Ascii.eqb c "+" then (false, rest) else (false, s)
    | EmptyString => (false, s)
    end in
  when bool_decide (digits = "") yield None;;
  match parse_digits 0 digits with
  | None => None
  | Some n =>
      let n := if negative then - n else n in
      if (min_int64 <=? n) && (n <=? max_int64) then Some n else None
  end.

(** ** Base64 *)
Definition std_alphabet : string := "ABCDEFGHIJKLMNOPQRSTUVWXYZabcdefghijklmnopqrstuvwxyz0123456789+/".
Definition url_alphabet : string := "ABCDEFGHIJKLMNOPQRSTUVWXYZabcdefghijklmnopqrstuvwxyz0123456789-_".

Definition encode_digit (alphabet : string) (d : Z) : ascii := default zero (String.get (Z.to_nat d) alphabet).
Fixpoint index_of (c : ascii) (position : Z) (alphabet : string) : option Z :=
  match alphabet with
  | EmptyString => None
  | String a rest => if Ascii.eqb a c then Some position else index_of c (position + 1) rest
  end.
Definition decode_digit (alphabet : string) (c : ascii) : option Z := index_of c 0 alphabet.

(** The sextet of a 24-bit value at a position, and the byte. *)
Definition sextet (v position : Z) : Z := v / 64 ^ position mod 64.
Definition octet (v position : Z) : ascii := ascii_of_nat (Z.to_nat (v / 256 ^ position mod 256)).
Definition byte_of (c : ascii) : Z := Z.of_nat (nat_of_ascii c).

Definition padding : ascii := "="%char.

Fixpoint base64_encode (alphabet : string) (padded : bool) (bytes : list ascii) : list ascii :=
  let digit v position := encode_digit alphabet (sextet v position) in
  match bytes with
  | [] => []
  | [a] => let v := byte_of a * 65536 in digit v 3 :: digit v 2 :: if padded then [padding; padding] else []
  | [a; b] =>
      let v := byte_of a * 65536 + byte_of b * 256 in
      digit v 3 :: digit v 2 :: digit v 1 :: if padded then [padding] else []
  | a :: b :: c :: rest =>
      let v := byte_of a * 65536 + byte_of b * 256 + byte_of c in
      digit v 3 :: digit v 2 :: digit v 1 :: digit v 0 :: base64_encode alphabet padded rest
  end.

(** The last quantum, short or padded. Bits that do not fill a byte are
    ignored. *)
Definition base64_last (alphabet : string) (padded : bool) (quantum : list ascii) : option (list ascii) :=
  let digit := decode_digit alphabet in
  match quantum with
  | [] => Some []
  | [c; d] =>
      if padded then None
      else match digit c, digit d with
           | Some c, Some d => Some [octet (c * 262144 + d * 4096) 2]
           | _, _ => None
           end
  | [c; d; e] =>
      if padded then None
      else match digit c, digit d, digit e with
           | Some c, Some d, Some e => let v := c * 262144 + d * 4096 + e * 64 in Some [octet v 2; octet v 1]
           | _, _, _ => None
           end
  | [c; d; e; f] =>
      match digit c, digit d, digit e, digit f with
      | Some c, Some d, Some e, Some f =>
          let v := c * 262144 + d * 4096 + e * 64 + f in Some [octet v 2; octet v 1; octet v 0]
      | Some c, Some d, Some e, None =>
          if padded && Ascii.eqb f padding
          then let v := c * 262144 + d * 4096 + e * 64 in Some [octet v 2; octet v 1] else None
      | Some c, Some d, None, _ =>
          if padded && Ascii.eqb e padding && Ascii.eqb f padding
          then Some [octet (c * 262144 + d * 4096) 2] else None
      | _, _, _, _ => None
      end
  | _ => None
  end.

Fixpoint base64_quanta (alphabet : string) (padded : bool) (cs : list ascii) : option (list ascii) :=
  match cs with
  | c :: d :: e :: f :: rest =>
      match rest with
      | [] => base64_last alphabet padded [c; d; e; f]
      | _ =>
          match decode_digit alphabet c, decode_digit alphabet d, decode_digit alphabet e, decode_digit alphabet f with
          | Some c, Some d, Some e, Some f =>
              let v := c * 262144 + d * 4096 + e * 64 + f in
              match base64_quanta alphabet padded rest with
              | Some bytes => Some (octet v 2 :: octet v 1 :: octet v 0 :: bytes)
              | None => None
              end
          | _, _, _, _ => None
          end
      end
  | _ => base64_last alphabet padded cs
  end.

(** Line ends are skipped wherever they stand. *)
Definition line_break (c : ascii) : bool := Ascii.eqb c (ascii_of_nat 10) || Ascii.eqb c (ascii_of_nat 13).
Definition base64_decode (alphabet : string) (padded : bool) (s : string) : option string :=
  match base64_quanta alphabet padded (filter (fun c => line_break c = false) (bytes_of s)) with
  | Some bytes => Some (string_of_list_ascii bytes)
  | None => None
  end.

Definition RawURL_EncodeToString (s : string) : string :=
  string_of_list_ascii (base64_encode url_alphabet false (bytes_of s)).
Definition RawURL_DecodeString (s : string) : option string := base64_decode url_alphabet false s.
Definition Std_DecodeString (s : string) : option string := base64_decode std_alphabet true s.
Definition Std_EncodeToString (s : string) : string :=
  string_of_list_ascii (base64_encode std_alphabet true (bytes_of s)).

(** ** Round trips *)
Lemma digit_of_char (d : N) : (d < 10)%N → digit_of (pretty_N_char d) = Some (Z.of_N d).
Proof.
  intros Hd. assert (d = 0 ∨ d = 1 ∨ d = 2 ∨ d = 3 ∨ d = 4 ∨ d = 5 ∨ d = 6 ∨ d = 7 ∨ d = 8 ∨ d = 9)%N as Hc by lia.
  by destruct_or! Hc; subst.
Qed.

Lemma parse_pretty_N n s : (0 < n)%N → parse_digits 0 (pretty_N_go n s) = parse_digits (Z.of_N n) s.
Proof.
  revert s. induction (N.lt_wf_0 n) as [n _ IH]; intros s Hn.
  rewrite pretty_N_go_step by done.
  assert (digit_of (pretty_N_char (n mod 10)) = Some (Z.of_N (n mod 10))) as Hd
    by (apply digit_of_char, N.mod_lt; done).
  destruct (decide (n / 10 = 0)%N) as [Hz|Hz].
  - rewrite Hz, pretty_N_go_0. simpl. rewrite Hd. f_equal. apply N.div_small_iff in Hz; [|done].
    rewrite N.mod_small by done. lia.
  - rewrite IH; [|apply N.div_lt; lia|lia]. simpl. rewrite Hd. f_equal.
    pose proof (N.div_mod n 10). lia.
Qed.

Lemma Atoi_pretty z : 0 ≤ z ≤ max_int64 → Atoi (pretty z) = Some z.
Proof.
  intros Hz. destruct z as [|p|p]; [done| |lia].
  assert (pretty (Zpos p) = pretty_N_go (Npos p) "") as -> by done.
  pose proof (parse_pretty_N (Npos p) "" ltac:(lia)) as Hp. simpl in Hp.
  destruct (pretty_N_go (N.pos p) "") as [|c rest] eqn:Hs; [done|].
  assert (digit_of c ≠ None) as Hc by (simpl in Hp; by destruct (digit_of c)).
  unfold Atoi. destruct (Ascii.eqb_spec c "-") as [->|_]; [done|]. destruct (Ascii.eqb_spec c "+") as [->|_]; [done|].
  rewrite bool_decide_eq_false_2 by done. rewrite Hp. unfold min_int64, max_int64 in *.
  by rewrite (proj2 (Z.leb_le _ _)), (proj2 (Z.leb_le _ _)) by lia.
Qed.

Lemma filter_all {A} (P : A → Prop) `{∀ x, Decision (P x)} l : Forall P l → filter P l = l.
Proof. induction 1 as [|x l Hx _ IH]; [done|]. by rewrite filter_cons_True, IH. Qed.

(** An alphabet whose characters are told apart, none of them a line end or the
    padding. *)
Definition good_alphabet (alphabet : string) : bool :=
  forallb (fun d => let c := encode_digit alphabet (Z.of_nat d) in
    bool_decide (decode_digit alphabet c = Some (Z.of_nat d)) && negb (line_break c)) (seq 0 64)
  && bool_decide (decode_digit alphabet padding = None).

Section roundtrip.
Context (alphabet : string) (Hgood : good_alphabet alphabet = true).

Lemma digit_roundtrip v position :
  decode_digit alphabet (encode_digit alphabet (sextet v position)) = Some (sextet v position)
  ∧ line_break (encode_digit alphabet (sextet v position)) = false.
Proof.
  pose proof Hgood as Hg. unfold good_alphabet in Hg. apply andb_true_iff in Hg as [Hg _].
  rewrite forallb_forall in Hg. assert (0 ≤ sextet v position < 64) as Hr by (apply Z.mod_pos_bound; lia).
  specialize (Hg (Z.to_nat (sextet v position)) ltac:(apply in_seq; lia)). simpl in Hg. rewrite Z2Nat.id in Hg by lia.
  apply andb_true_iff in Hg as [?%bool_decide_eq_true ?%negb_true_iff]. done.
Qed.
Lemma digit_roundtrip_decode v position :
  decode_digit alphabet (encode_digit alphabet (sextet v position)) = Some (sextet v position).
Proof. apply digit_roundtrip. Qed.
Lemma decode_padding : decode_digit alphabet padding = None.
Proof.
  pose proof Hgood as Hg. unfold good_alphabet in Hg. by apply andb_true_iff in Hg as [_ ?%bool_decide_eq_true].
Qed.

Lemma byte_of_range c : 0 ≤ byte_of c < 256.
Proof. unfold byte_of. pose proof (nat_ascii_bounded c). lia. Qed.

(** The sextets of a value put it together again, and so do the octets. *)
Lemma sextets v : 0 ≤ v < 16777216 →
  sextet v 3 * 262144 + sextet v 2 * 4096 + sextet v 1 * 64 + sextet v 0 = v.
Proof.
  intros Hv. unfold sextet. change (64 ^ 3) with 262144. change (64 ^ 2) with 4096. change (64 ^ 1) with 64.
  change (64 ^ 0) with 1. lia.
Qed.
Lemma octets a b c :
  let v := byte_of a * 65536 + byte_of b * 256 + byte_of c in octet v 2 = a ∧ octet v 1 = b ∧ octet v 0 = c.
Proof.
  intros v. pose proof (byte_of_range a). pose proof (byte_of_range b). pose proof (byte_of_range c).
  assert (∀ x, ascii_of_nat (Z.to_nat (byte_of x)) = x) as Hx
    by (intros; unfold byte_of; by rewrite Nat2Z.id, ascii_nat_embedding).
  unfold octet. change (256 ^ 2) with 65536. change (256 ^ 1) with 256. change (256 ^ 0) with 1.
  assert (∀ x n, n = byte_of x → ascii_of_nat (Z.to_nat n) = x) as Hn by (intros x n ->; apply Hx).
  split_and!; apply Hn; unfold v; lia.
Qed.

Lemma decode_group a b c :
  let v := byte_of a * 65536 + byte_of b * 256 + byte_of c in
  let w := sextet v 3 * 262144 + sextet v 2 * 4096 + sextet v 1 * 64 + sextet v 0 in
  octet w 2 = a ∧ octet w 1 = b ∧ octet w 0 = c.
Proof.
  intros v w. pose proof (byte_of_range a). pose proof (byte_of_range b). pose proof (byte_of_range c).
  assert (w = v) as -> by (apply sextets; unfold v; lia). apply octets.
Qed.

(** A short group ends in zero bits. *)
Lemma sextet_low v : v mod 256 = 0 → sextet v 0 = 0.
Proof. intros Hv. unfold sextet. change (64 ^ 0) with 1. lia. Qed.
Lemma sextet_low2 v : v mod 65536 = 0 → sextet v 1 = 0.
Proof. intros Hv. unfold sextet. change (64 ^ 1) with 64. lia. Qed.

Lemma decode_two a b :
  let v := byte_of a * 65536 + byte_of b * 256 in
  let w := sextet v 3 * 262144 + sextet v 2 * 4096 + sextet v 1 * 64 in octet w 2 = a ∧ octet w 1 = b.
Proof.
  intros v w. pose proof (decode_group a b zero) as Hd. cbv zeta in Hd. change (byte_of zero) with 0 in Hd.
  rewrite !Z.add_0_r in Hd. fold v in Hd. rewrite (sextet_low v), Z.add_0_r in Hd by (unfold v; lia).
  by destruct Hd as (? & ? & _).
Qed.
Lemma decode_one a :
  let v := byte_of a * 65536 in octet (sextet v 3 * 262144 + sextet v 2 * 4096) 2 = a.
Proof.
  intros v. pose proof (decode_two a zero) as Hd. cbv zeta in Hd. change (byte_of zero) with 0 in Hd.
  rewrite !Z.mul_0_l, !Z.add_0_r in Hd. fold v in Hd. rewrite (sextet_low2 v) in Hd by (unfold v; lia).
  rewrite Z.mul_0_l, Z.add_0_r in Hd. by destruct Hd as [? _].
Qed.

Lemma base64_quanta_encode padded n bytes :
  (length bytes < n)%nat → base64_quanta alphabet padded (base64_encode alphabet padded bytes) = Some bytes.
Proof.
  revert bytes. induction n as [|n IH]; [lia|]. intros bytes Hn.
  destruct bytes as [|a [|b [|c rest]]]; [done|..].
  - pose proof (decode_one a) as Ha. cbv zeta in Ha.
    destruct padded; simpl; rewrite !digit_roundtrip_decode, ?decode_padding; simpl; by rewrite Ha.
  - pose proof (decode_two a b) as [Ha Hb]. cbv zeta in Ha, Hb.
    destruct padded; simpl; rewrite !digit_roundtrip_decode, ?decode_padding; simpl; by rewrite Ha, Hb.
  - pose proof (decode_group a b c) as (Ha & Hb & Hc). cbv zeta in Ha, Hb, Hc.
    specialize (IH rest ltac:(simpl in Hn; lia)).
    cbn [base64_encode base64_quanta]. destruct (base64_encode alphabet padded rest) as [|d more] eqn:He.
    + destruct rest as [|x [|y [|z rest]]]; [|by destruct padded..|done].
      unfold base64_last. rewrite !digit_roundtrip_decode. cbv zeta. by rewrite Ha, Hb, Hc.
    + rewrite !digit_roundtrip_decode. cbv zeta. rewrite IH. by rewrite Ha, Hb, Hc.
Qed.

Lemma base64_encode_unbroken padded n bytes :
  (length bytes < n)%nat → Forall (fun c => line_break c = false) (base64_encode alphabet padded bytes).
Proof.
  revert bytes. induction n as [|n IH]; [lia|]. intros bytes Hn.
  destruct bytes as [|a [|b [|c rest]]]; [constructor|..]; simpl; repeat (constructor; [apply digit_roundtrip|]).
  - destruct padded; repeat constructor.
  - destruct padded; repeat constructor.
  - apply IH. simpl in Hn. lia.
Qed.

Lemma base64_roundtrip padded s :
  base64_decode alphabet padded (string_of_list_ascii (base64_encode alphabet padded (bytes_of s))) = Some s.
Proof.
  unfold base64_decode, bytes_of. rewrite list_ascii_of_string_of_list_ascii.
  rewrite filter_all by (apply (base64_encode_unbroken _ _ _ (Nat.lt_succ_diag_r _))).
  rewrite (base64_quanta_encode _ _ _ (Nat.lt_succ_diag_r _)). by rewrite string_of_list_ascii_of_string.
Qed.
End roundtrip.

Lemma RawURL_roundtrip s : RawURL_DecodeString (RawURL_EncodeToString s) = Some s.
Proof. by apply base64_roundtrip. Qed.
Lemma Std_roundtrip s : Std_DecodeString (Std_EncodeToString s) = Some s.
Proof. by apply base64_roundtrip. Qed.
