(* ===== verification/HttpServer.v ===== *)
(** * HTTP servers

    What the operational API and the administration server use of [net/http],
    [io] and [encoding/json]: requests and replies as data, the request
    multiplexer, bounded bodies and the owned serving goroutines. *)

From Stdlib Require Import ZArith Lia String Ascii.
From stdpp Require Import base gmap strings list.
From S2P Require Import Prelude Topics Config.

(** ** Requests and replies *)

(** [sq_EscapedPath] is [URL.EscapedPath] and [sq_Path] is [URL.Path];
    [sq_BodyError] is what reading answers after the bytes of the body, [None]
    for [io.EOF]. *)
Record ServerRequest := mkServerRequest {
  sq_Method : string; sq_Host : string; sq_EscapedPath : string; sq_Path : string;
  sq_Query : list (string * string); sq_Header : list (string * string); sq_Cookies : list (string * string);
  sq_RemoteAddr : string; sq_Body : string; sq_BodyError : option error; sq_Context : Context
}.

(** The first value of a key. *)
Fixpoint first_value (values : list (string * string)) (key : string) : option string :=
  match values with
  | [] => None
  | (k, v) :: rest => if bool_decide (k = key) then Some v else first_value rest key
  end.
(** [Header.Get] and [Values.Get]. *)
Definition Get (values : list (string * string)) (key : string) : string := default "" (first_value values key).

(** A reply with the headers set, latest first. *)
Record Reply (B : Type) := mkReply { rp_Status : Z; rp_Header : list (string * string); rp_Body : B }.
Arguments mkReply {B} _ _ _.
Arguments rp_Status {B} _.
Arguments rp_Header {B} _.
Arguments rp_Body {B} _.
Definition add_headers {B} (headers : list (string * string)) (r : Reply B) : Reply B :=
  mkReply (rp_Status r) (rp_Header r ++ headers) (rp_Body r).

(** ** The multiplexer *)
Inductive segment := Lit (s : string) | Wild.
(** A pattern that ends in a slash matches its subtree. *)
Record pattern := mkPattern { pa_Method : string; pa_Segments : list segment; pa_Subtree : bool }.

Class PathUnescaper := { PathUnescape : string → string }.

(** [net/http]'s [cleanPath]. *)
Definition last_char (s : string) : option ascii :=
  match String.length s with O => None | S n => String.get n s end.
Definition ends_in_slash (s : string) : bool := bool_decide (last_char s = Some slash).
Definition cleanPath (p : string) : string :=
  if bool_decide (p = "") then "/"
  else
    let p := match p with String c _ => if Ascii.eqb c slash then p else "/" +:+ p | EmptyString => p end in
    let np := path_Clean p in
    if ends_in_slash p && negb (bool_decide (np = "/")) then np +:+ "/" else np.

(** What the wildcards of a pattern match; a wildcard matches one segment,
    which is not empty. *)
Fixpoint match_segments (ps : list segment) (subtree : bool) (path : list string) : option (list string) :=
  match ps, path with
  | [], [] => if subtree then None else Some []
  | [], _ :: _ => if subtree then Some [] else None
  | Lit l :: ps, s :: path => if bool_decide (l = s) then match_segments ps subtree path else None
  | Wild :: ps, s :: path =>
      if bool_decide (s = "") then None
      else match match_segments ps subtree path with Some vs => Some (s :: vs) | None => None end
  | _ :: _, [] => None
  end.

Definition method_matches (p : pattern) (method : string) : bool :=
  bool_decide (pa_Method p = method) || (bool_decide (pa_Method p = "GET") && bool_decide (method = "HEAD")).

Inductive Routed (A : Type) := Redirected | Matched (a : A) (values : list string) | MethodNotAllowed | NoRoute.
Arguments Redirected {A}.
Arguments Matched {A} _ _.
Arguments MethodNotAllowed {A}.
Arguments NoRoute {A}.

Section mux.
Context `{!PathUnescaper} {A : Type}.

(** The segments after the leading slash. *)
Definition segments_of (escaped : string) : list string := PathUnescape <$> tail (splitTopic escaped).

Fixpoint find_pattern (subtrees : bool) (method : string) (path : list string) (routes : list (pattern * A)) :
    option (A * list string) :=
  match routes with
  | [] => None
  | (p, a) :: rest =>
      if bool_decide (pa_Subtree p = subtrees) && method_matches p method then
        match match_segments (pa_Segments p) subtrees path with
        | Some vs => Some (a, vs)
        | None => find_pattern subtrees method path rest
        end
      else find_pattern subtrees method path rest
  end.

(** Patterns without a subtree are the more specific ones. *)
Definition mux_match (routes : list (pattern * A)) (method : string) (path : list string) : option (A * list string) :=
  match find_pattern false method path routes with
  | Some found => Some found
  | None => find_pattern true method path routes
  end.

(** A path for which the pattern of its subtree is the exact match. *)
Definition slash_missing (routes : list (pattern * A)) (method : string) (path : list string) : bool :=
  match find_pattern false method path routes with
  | Some _ => false
  | None => existsb (fun r => pa_Subtree r.1 && method_matches r.1 method
      && bool_decide (match_segments (pa_Segments r.1) false path ≠ None)) routes
  end.

Definition mux_route (routes : list (pattern * A)) (request : ServerRequest) : Routed A :=
  let escaped := sq_EscapedPath request in
  let path := segments_of (cleanPath escaped) in
  if slash_missing routes (sq_Method request) path || negb (bool_decide (cleanPath escaped = escaped)) then Redirected
  else match mux_match routes (sq_Method request) path with
       | Some (a, vs) => Matched a vs
       | None =>
           if existsb (fun r => bool_decide (match_segments (pa_Segments r.1) (pa_Subtree r.1) path ≠ None)) routes
           then MethodNotAllowed else NoRoute
       end.

Lemma find_pattern_in subtrees method path routes a vs :
  find_pattern subtrees method path routes = Some (a, vs) →
  ∃ p, (p, a) ∈ routes ∧ method_matches p method = true ∧ match_segments (pa_Segments p) (pa_Subtree p) path = Some vs.
Proof.
  induction routes as [|[p b] routes IH]; simpl; [done|].
  assert (find_pattern subtrees method path routes = Some (a, vs) →
    ∃ p0, (p0, a) ∈ (p, b) :: routes ∧ method_matches p0 method = true
      ∧ match_segments (pa_Segments p0) (pa_Subtree p0) path = Some vs) as Hrest.
  { intros (p0 & ? & ?)%IH. exists p0. split; [by right|done]. }
  destruct (bool_decide_reflect (pa_Subtree p = subtrees)) as [<-|]; [|done].
  destruct (method_matches p method) eqn:Hm; [|done]. simpl.
  destruct (match_segments _ _ path) as [vs'|] eqn:Hs; [|done]. intros [= <- <-]. exists p. split; [by left|done].
Qed.

(** A handler that runs is one of the table, registered for the method of the
    request and for a pattern that the path matches. *)
Lemma mux_route_in routes request a vs :
  mux_route routes request = Matched a vs →
  ∃ p, (p, a) ∈ routes ∧ method_matches p (sq_Method request) = true
    ∧ match_segments (pa_Segments p) (pa_Subtree p) (segments_of (sq_EscapedPath request)) = Some vs.
Proof.
  unfold mux_route. destruct (slash_missing _ _ _); [done|]. simpl.
  destruct (bool_decide_reflect (cleanPath (sq_EscapedPath request) = sq_EscapedPath request)) as [->|]; [|done]. simpl.
  unfold mux_match. destruct (find_pattern false _ _ routes) as [[b vs']|] eqn:Hf.
  { intros [= <- <-]. by eapply find_pattern_in. }
  destruct (find_pattern true _ _ routes) as [[b vs']|] eqn:Hf'; [|by destruct (existsb _ _)].
  intros [= <- <-]. by eapply find_pattern_in.
Qed.
End mux.

(** ** Bodies *)
Definition MaxBytesError : error := ErrNew "http: request body too large".

(** The bytes [http.MaxBytesReader] yields, and what it answers after them. *)
Definition max_bytes (limit : Z) (r : ServerRequest) : string * option error :=
  let limit := Z.to_nat limit in
  if (limit <? String.length (sq_Body r))%nat then (String.substring 0 limit (sq_Body r), Some MaxBytesError)
  else (sq_Body r, sq_BodyError r).

(** [io.ReadAll(io.LimitReader(body, limit+1))], refused beyond the limit. *)
Definition read_at_most (limit : Z) (r : ServerRequest) : error + option string :=
  let bound := Z.to_nat (wrap_int64 (limit + 1)) in
  let payload := String.substring 0 bound (sq_Body r) in
  match sq_BodyError r with
  | Some err =>
      if (String.length payload <? bound)%nat then inl err
      else if limit <? Z.of_nat (String.length payload) then inr None else inr (Some payload)
  | None => if limit <? Z.of_nat (String.length payload) then inr None else inr (Some payload)
  end.

(** [Decoder.Decode] with unknown fields refused: the first value of a stream
    that ends with an error or [io.EOF], and the bytes after it. *)
Class StrictDecoder (A : Type) := { decode_value : string → option error → error + A * string }.

Definition json_space (c : ascii) : bool :=
  existsb (Ascii.eqb c) (ascii_of_nat <$> [9; 10; 13; 32]%nat).
(** A second [Decode] answers [io.EOF]. *)
Definition at_end (rest : string) (tail : option error) : bool :=
  forallb json_space (list_ascii_of_string rest) && bool_decide (tail = None).

Inductive Decoded (A : Type) := NotJSON (err : error) | ManyValues | One (a : A).
Arguments NotJSON {A} _.
Arguments ManyValues {A}.
Arguments One {A} _.

Definition decode_body {A} `{!StrictDecoder A} (limit : Z) (r : ServerRequest) : Decoded A :=
  let '(data, tail) := max_bytes limit r in
  match decode_value data tail with
  | inl err => NotJSON err
  | inr (a, rest) => if at_end rest tail then One a else ManyValues
  end.

(** ** Owned serving goroutines *)
Definition ErrServerClosed : error := ErrVar "http.ErrServerClosed".

(** [ln_started] says that the channels of the goroutines exist. *)
Record Listening := mkListening { ln_running : bool; ln_serveErr : option error; ln_started : bool }.

(** What stopping meets: the result of [Shutdown], and for each goroutine
    whether it ended before the context did. *)
Record StopEnv := mkStopEnv {
  se_Shutdown : option error; se_Served : bool; se_Watched : bool; se_Context : option error
}.

(** The serving goroutine ends. *)
Definition serve_exit (err : error) (l : Listening) : Listening :=
  if errors_Is err "http.ErrServerClosed" then l else mkListening false (Some err) (ln_started l).
