(* ===== verification/Access.v ===== *)
(** * Access: [internal/api/auth.go] and [internal/admin/rate_limit.go]

    Bearer authentication, roles, and the token buckets that limit the requests
    of each client. *)

From Stdlib Require Import ZArith Lia String Ascii.
From stdpp Require Import base gmap strings list.
From S2P Require Import Prelude Domain Topics Config HttpServer.

(** ** Roles and principals *)
Inductive Role := RoleReader | RoleOperator | RoleAdministrator | RoleOther (s : string).
#[export] Instance Role_eq_dec : EqDecision Role.
Proof. solve_decision. Defined.

Record Principal := mkPrincipal { pr_ID : string; pr_Roles : list Role }.
Definition zero_Principal : Principal := mkPrincipal "" [].

Definition ErrUnauthorized : error := ErrVar "api.ErrUnauthorized".
Definition ErrForbidden : error := ErrVar "api.ErrForbidden".

Class Authenticator (A : Type) := { Authenticate : ServerRequest → A → Principal * option error }.
Class Authorizer (A : Type) := { Authorize : Context → Principal → Role → A → option error }.

Record BearerAuthenticator := mkBearerAuthenticator { ba_token : string; ba_principal : Principal }.

Definition NewBearerAuthenticator (token : string) (principal : Principal) : BearerAuthenticator + error :=
  when (String.length token <? 32)%nat || blank (pr_ID principal) yield
    inr (ErrNew "bearer token must contain at least 32 characters and principal ID is required");;
  inl (mkBearerAuthenticator token principal).

(** The text after a prefix. *)
Definition cut_prefix (prefix s : string) : option string :=
  if String.prefix prefix s
  then Some (String.substring (String.length prefix) (String.length s - String.length prefix) s) else None.

Definition Bearer_Authenticate (request : ServerRequest) (a : BearerAuthenticator) : Principal * option error :=
  match cut_prefix "Bearer " (Get (sq_Header request) "Authorization") with
  | None => (zero_Principal, Some ErrUnauthorized)
  | Some rest =>
      let provided := TrimSpace rest in
      when negb (String.length provided =? String.length (ba_token a))%nat
           || negb (bool_decide (provided = ba_token a)) yield
        (zero_Principal, Some ErrUnauthorized);;
      (ba_principal a, None)
  end.
#[export] Instance Bearer_Authenticator : Authenticator BearerAuthenticator :=
  {| Authenticate := Bearer_Authenticate |}.

Inductive denyAuthenticator := mkDenyAuthenticator.
Definition deny_Authenticate (request : ServerRequest) (a : denyAuthenticator) : Principal * option error :=
  (zero_Principal, Some ErrUnauthorized).
#[export] Instance deny_Authenticator : Authenticator denyAuthenticator := {| Authenticate := deny_Authenticate |}.

Inductive roleAuthorizer := mkRoleAuthorizer.
Definition grants (required role : Role) : bool :=
  bool_decide (role = RoleAdministrator) || bool_decide (role = required)
  || (bool_decide (role = RoleOperator) && bool_decide (required = RoleReader)).
Fixpoint authorize_roles (roles : list Role) (required : Role) : option error :=
  match roles with
  | [] => Some ErrForbidden
  | role :: rest => when grants required role yield None;; authorize_roles rest required
  end.
Definition role_Authorize (ctx : Context) (principal : Principal) (required : Role) (a : roleAuthorizer) :
    option error := authorize_roles (pr_Roles principal) required.
#[export] Instance role_Authorizer : Authorizer roleAuthorizer := {| Authorize := role_Authorize |}.

(** ** The request limiter *)
Record requestBucket := mkBucket { bu_tokens : float64; bu_updated : Time }.
Record requestLimiter := mkLimiter {
  li_rate : float64; li_burst : float64; li_maximum : Z; li_clients : gmap string requestBucket
}.

Definition newRequestLimiter (rate burst maximum : Z) : requestLimiter :=
  mkLimiter (F64 rate) (F64 burst) maximum ∅.

Definition second : Z := 10 ^ 9.
(** [Duration.Seconds]. *)
Definition Seconds (d : Duration) : float64 :=
  F64_add (F64 (Z.quot d second)) (F64_div (F64 (Z.rem d second)) (F64 second)).

Section limiter.
(** The order in which Go ranges over the clients. *)
Context (range : gmap string requestBucket → list (string * requestBucket)).

(** The loop that looks for the client not seen for longest. *)
Definition older (best : string * Time) (candidate : string * requestBucket) : string * Time :=
  if bool_decide (best.1 = "") || Before (bu_updated candidate.2) best.2 then (candidate.1, bu_updated candidate.2)
  else best.

Definition evict (l : requestLimiter) : gmap string requestBucket :=
  if li_maximum l <=? Z.of_nat (size (li_clients l))
  then delete (foldl older ("", 0) (range (li_clients l))).1 (li_clients l)
  else li_clients l.

Definition set_clients (m : gmap string requestBucket) (l : requestLimiter) : requestLimiter :=
  mkLimiter (li_rate l) (li_burst l) (li_maximum l) m.

Definition limiter_allow (key : string) (now : Time) (l : requestLimiter) : bool * requestLimiter :=
  match li_clients l !! key with
  | None =>
      (true, set_clients (<[key := mkBucket (F64_sub (li_burst l) (F64 1)) now]> (evict l)) l)
  | Some bucket =>
      let tokens := F64_add (bu_tokens bucket) (F64_mul (Seconds (Sub now (bu_updated bucket))) (li_rate l)) in
      let tokens := if F64_lt (li_burst l) tokens then li_burst l else tokens in
      when F64_lt tokens (F64 1) yield
        (false, set_clients (<[key := mkBucket tokens now]> (li_clients l)) l);;
      (true, set_clients (<[key := mkBucket (F64_sub tokens (F64 1)) now]> (li_clients l)) l)
  end.

Definition remoteKey `{!NetParser} (request : ServerRequest) : string :=
  default (sq_RemoteAddr request) (SplitHost (sq_RemoteAddr request)).

(** *** The table of clients is bounded *)
Context (range_all : ∀ m, range m ≡ₚ map_to_list m).

(** The client to evict is one of the table. *)
Lemma oldest_in l : l ≠ [] → (foldl older ("", 0) l).1 ∈ l.*1.
Proof.
  destruct l as [|c l]; [done|]. intros _. simpl.
  assert (older ("", 0) c = (c.1, bu_updated c.2)) as -> by done.
  assert (∀ best, best.1 ∈ (c :: l).*1 → (foldl older best l).1 ∈ (c :: l).*1) as Hin.
  { intros best. assert (∀ x, x ∈ l → x.1 ∈ (c :: l).*1) as Hl.
    { intros x Hx. apply list_elem_of_fmap. exists x. split; [done|by right]. }
    revert best Hl. generalize ((c :: l).*1) as keys. intros keys.
    induction l as [|d l IH]; intros best Hl Hb; simpl; [done|]. apply IH.
    - intros x Hx. apply Hl. by right.
    - unfold older. destruct (_ || _); simpl; [|done]. apply Hl. by left. }
  apply Hin. by left.
Qed.

Lemma evict_size l : Z.of_nat (size (evict l)) < Z.max 1 (li_maximum l) ∨ Z.of_nat (size (evict l)) < Z.of_nat (size (li_clients l)).
Proof.
  unfold evict. destruct (Z.leb_spec (li_maximum l) (Z.of_nat (size (li_clients l)))); [|lia].
  destruct (decide (li_clients l = ∅)) as [->|Hne]; [left; rewrite delete_id by done; rewrite map_size_empty; lia|].
  right. assert (range (li_clients l) ≠ []) as Hr.
  { intros Hr. apply Hne. apply map_to_list_empty_iff. apply Permutation_nil_r. by rewrite <- range_all, Hr. }
  pose proof (oldest_in _ Hr) as Hin. apply list_elem_of_fmap in Hin as ([k b] & -> & Hin).
  rewrite range_all in Hin. apply elem_of_map_to_list in Hin. simpl.
  rewrite map_size_delete_Some by eauto.
  assert (size (li_clients l) ≠ 0%nat) by (apply map_size_ne_0_lookup; eauto). lia.
Qed.

Definition bounded (l : requestLimiter) : Prop := Z.of_nat (size (li_clients l)) ≤ Z.max 1 (li_maximum l).

Lemma allow_bounded key now l :
  bounded l → bounded (limiter_allow key now l).2 ∧ li_maximum (limiter_allow key now l).2 = li_maximum l.
Proof.
  unfold bounded, limiter_allow. intros Hb. destruct (li_clients l !! key) as [bucket|] eqn:Hk.
  - by destruct (F64_lt _ (F64 1)); simpl; rewrite map_size_insert_Some by eauto.
  - simpl. split; [|done]. pose proof (evict_size l) as He.
    rewrite map_size_insert. destruct (evict l !! key); unfold id; lia.
Qed.

(** Whatever the requests, the table of a rate limiter has at most the
    configured number of clients, and one where none is configured. *)
Theorem limiter_bounded rate burst maximum requests :
  Z.of_nat (size (li_clients (foldl (fun l r => (limiter_allow r.1 r.2 l).2) (newRequestLimiter rate burst maximum)
    requests))) ≤ Z.max 1 maximum.
Proof.
  assert (∀ l, bounded l → li_maximum l = maximum →
    bounded (foldl (fun l r => (limiter_allow r.1 r.2 l).2) l requests)
    ∧ li_maximum (foldl (fun l r => (limiter_allow r.1 r.2 l).2) l requests) = maximum) as Hr.
  { induction requests as [|r requests IH]; intros l Hb Hm; simpl; [done|].
    destruct (allow_bounded r.1 r.2 l Hb) as [Hb' Hm']. apply IH; [done|congruence]. }
  destruct (Hr (newRequestLimiter rate burst maximum)) as [Hb Hm]; [unfold bounded; simpl; rewrite map_size_empty; lia|done|].
  unfold bounded in Hb. by rewrite Hm in Hb.
Qed.

(** A request of one client changes no other client's bucket, but for the one
    that makes room for a new client. *)
Theorem allow_isolates key now l other :
  other ≠ key →
  li_clients (limiter_allow key now l).2 !! other = li_clients l !! other
  ∨ (li_clients l !! key = None ∧ li_clients (limiter_allow key now l).2 !! other = None
     ∧ li_maximum l ≤ Z.of_nat (size (li_clients l))).
Proof.
  intros Hne. unfold limiter_allow. destruct (li_clients l !! key) as [bucket|] eqn:Hk.
  - left. by destruct (F64_lt _ (F64 1)); simpl; rewrite lookup_insert_ne.
  - simpl. rewrite lookup_insert_ne by done. unfold evict.
    destruct (Z.leb_spec (li_maximum l) (Z.of_nat (size (li_clients l)))); [|by left].
    destruct (decide ((foldl older ("", 0) (range (li_clients l))).1 = other)) as [->|];
      [right; by rewrite lookup_delete_eq|left; by rewrite lookup_delete_ne].
Qed.
End limiter.

(** ** Who is let in *)

(** A header authenticates exactly as the configured principal, with the scheme
    and the token, surrounded at most by white space. *)
Theorem Bearer_Authenticate_iff request a p :
  Bearer_Authenticate request a = (p, None) ↔
  p = ba_principal a ∧ ∃ rest, cut_prefix "Bearer " (Get (sq_Header request) "Authorization") = Some rest ∧ TrimSpace rest = ba_token a.
Proof.
  unfold Bearer_Authenticate. destruct (cut_prefix _ _) as [rest|]; [|naive_solver].
  case_bool_decide as Ht; simpl.
  - rewrite Ht, Nat.eqb_refl. simpl. naive_solver.
  - rewrite orb_true_r. naive_solver.
Qed.

(** Administrators may do everything, operators read, and everyone what their
    roles name; nobody else may do anything. *)
Theorem role_Authorize_iff ctx p required a :
  role_Authorize ctx p required a = None ↔
  RoleAdministrator ∈ pr_Roles p ∨ required ∈ pr_Roles p ∨ (required = RoleReader ∧ RoleOperator ∈ pr_Roles p).
Proof.
  unfold role_Authorize. induction (pr_Roles p) as [|role roles IH]; simpl.
  - split; [done|]. intros [?%not_elem_of_nil|[?%not_elem_of_nil|[_ ?%not_elem_of_nil]]]; done.
  - rewrite !elem_of_cons. unfold grants.
    destruct (bool_decide_reflect (role = RoleAdministrator)); [naive_solver|].
    destruct (bool_decide_reflect (role = required)); [naive_solver|].
    destruct (bool_decide_reflect (role = RoleOperator)), (bool_decide_reflect (required = RoleReader));
      simpl; naive_solver.
Qed.
