(* ===== verification/Discovery.v ===== *)
(** * Discovery: [internal/discovery/service.go]

    Bounded read-only probing of addresses an operator approved. The workers
    run concurrently; a run is a schedule: the order in which they take effect,
    with those that found the context done instead of a free slot. *)

From Stdlib Require Import ZArith Lia String Ascii.
From stdpp Require Import base gmap strings list pretty sorting.
From S2P Require Import Prelude Topics Config.
From S2P Require Shelly Esp32.

Definition maximumCandidates : nat := 64.

Inductive DiscoveryKind := KindShelly | KindESP32 | KindOther (s : string).
#[export] Instance DiscoveryKind_eq_dec : EqDecision DiscoveryKind.
Proof. solve_decision. Defined.
Definition kind_text (k : DiscoveryKind) : string :=
  match k with KindShelly => "shelly" | KindESP32 => "esp32" | KindOther s => s end.

Record Candidate := mkCandidate {
  cn_Kind : DiscoveryKind; cn_BaseURL : string; cn_Channel : Z; cn_BearerTokenFile : string
}.
Record Discovered := mkDiscovered {
  ds_Kind : DiscoveryKind; ds_BaseURL : string; ds_Channel : Z; ds_Reachable : bool; ds_Identity : string;
  ds_Firmware : string; ds_Capabilities : list string; ds_ProbeIDs : list string; ds_BearerTokenFile : string;
  ds_Message : string
}.

(** The read-only subsets of the adapters' clients. *)
Class ProbeClients (W : Type) := {
  probe_Status : Context → string → Z → W → (error + Shelly.SwitchStatus) * W;
  probe_Config : Context → string → Z → W → (error + Shelly.SwitchConfig) * W;
  probe_Snapshot : Context → string → string → W → (error + Esp32.SnapshotDTO) * W
}.

(** [URL.Hostname], and for what [net.ParseIP] reads as an address, whether it
    is private, loopback or link-local unicast. *)
Class HostNames := { url_Hostname : URL → string; ip_IsLocal : string → option bool }.

Record Discovery := mkDiscovery {
  dv_concurrency : Z; dv_timeout : Duration; dv_readSecret : option (string → error + string)
}.

(** [clients] says that both clients are there; the last argument is the
    variadic one. *)
Definition Discovery_New (clients : bool) (concurrency : Z) (timeout : Duration)
    (readSecret : list (option (string → error + string))) : Discovery + error :=
  when negb clients yield inr (ErrNew "discovery clients are required");;
  when (concurrency <? 1) || (16 <? concurrency) || (timeout <=? 0) || (30 * 10 ^ 9 <? timeout) yield
    inr (ErrNew "discovery concurrency or timeout is outside safe bounds");;
  when (1 <? length readSecret)%nat yield inr (ErrNew "at most one discovery secret reader is supported");;
  inl (mkDiscovery concurrency timeout (match readSecret with [r] => r | _ => None end)).

Definition HasSuffix (s suffix : string) : bool :=
  (String.length suffix <=? String.length s)%nat
  && bool_decide (String.substring (String.length s - String.length suffix) (String.length suffix) s = suffix).

Section discovery.
Context `{!URLParser, !HostNames}.

Definition local_host (host : string) : option error :=
  match ip_IsLocal host with
  | Some local => if local then None else Some (ErrNew "candidate IP must be local")
  | None =>
      if bool_decide (host = "localhost") || HasSuffix host ".local" then None
      else Some (ErrNew "candidate hostname must use local discovery")
  end.

Definition validateCandidate (c : Candidate) : option error :=
  when negb (bool_decide (cn_Kind c = KindShelly)) && negb (bool_decide (cn_Kind c = KindESP32)) yield
    Some (ErrNew "unsupported candidate kind");;
  let malformed := Some (ErrNew "candidate URL must be an HTTP or HTTPS origin without credentials") in
  match url_Parse (TrimSpace (cn_BaseURL c)) with
  | None => malformed
  | Some parsed =>
      when negb (bool_decide (url_Scheme parsed = "http")) && negb (bool_decide (url_Scheme parsed = "https"))
           || bool_decide (url_Hostname parsed = "") || url_User parsed
           || negb (bool_decide (url_RawQuery parsed = "")) || negb (bool_decide (url_Fragment parsed = "")) yield
        malformed;;
      iferr local_host (ToLower (url_Hostname parsed)) as err yield Some err;;
      when bool_decide (cn_Kind c = KindShelly) && ((cn_Channel c <? 0) || (31 <? cn_Channel c)) yield
        Some (ErrNew "shelly channel is outside supported bounds");;
      when bool_decide (cn_BearerTokenFile c = "") yield None;;
      when negb (bool_decide (cn_Kind c = KindESP32)) yield
        Some (ErrNew "credential files are supported only for ESP32 nodes");;
      when negb (String.prefix "/etc/aquaos/secrets/" (path_Clean (cn_BearerTokenFile c))) yield
        Some (ErrNew "credential file must be under /etc/aquaos/secrets");;
      None
  end.

Context {W : Type} {HW : ProbeClients W}.

(** The result of a candidate that answered nothing. *)
Definition silent (c : Candidate) (message : string) : Discovered :=
  mkDiscovered (cn_Kind c) (cn_BaseURL c) (cn_Channel c) false "" "" [] [] (cn_BearerTokenFile c) message.

Definition probe (s : Discovery) (ctx : Context) (c : Candidate) (w : W) : Discovered * W :=
  match cn_Kind c with
  | KindShelly =>
      let '(status, w) := probe_Status ctx (cn_BaseURL c) (cn_Channel c) w in
      match status with
      | inl _ => (silent c "Shelly did not respond to a read-only status request.", w)
      | inr status =>
          let '(configuration, w) := probe_Config ctx (cn_BaseURL c) (cn_Channel c) w in
          match configuration with
          | inl _ => (silent c "Shelly status responded but configuration could not be verified.", w)
          | inr configuration =>
              (mkDiscovered (cn_Kind c) (cn_BaseURL c) (cn_Channel c) true ("switch:" +:+ pretty (Shelly.ss_ID status))
                 "" ["switch"; "reported-state"; "power-telemetry"] [] (cn_BearerTokenFile c)
                 ("Power-return policy: " +:+ Shelly.sc_InitialState configuration), w)
          end
      end
  | KindESP32 =>
      let token :=
        if bool_decide (cn_BearerTokenFile c = "") then inr ""
        else match dv_readSecret s with
             | None => inl "ESP32 credential file cannot be read by this service."
             | Some read =>
                 match read (cn_BearerTokenFile c) with
                 | inl _ => inl "ESP32 credential file could not be read."
                 | inr token => inr token
                 end
             end in
      match token with
      | inl message => (silent c message, w)
      | inr token =>
          let '(snapshot, w) := probe_Snapshot ctx (cn_BaseURL c) token w in
          match snapshot with
          | inl _ => (silent c "ESP32 node did not return a valid AquaOS snapshot.", w)
          | inr snapshot =>
              (mkDiscovered (cn_Kind c) (cn_BaseURL c) (cn_Channel c) true (Esp32.sd_NodeID snapshot)
                 (Esp32.sd_Firmware snapshot) ["observe"] (Esp32.pd_SensorID <$> Esp32.sd_Probes snapshot)
                 (cn_BearerTokenFile c) "", w)
          end
      end
  | KindOther _ => (silent c "Unsupported discovery kind.", w)
  end.

Definition cancelled_result (c : Candidate) : Discovered :=
  mkDiscovered (cn_Kind c) (cn_BaseURL c) (cn_Channel c) false "" "" [] [] "" "cancelled".

Definition zero_Discovered : Discovered := mkDiscovered (KindOther "") "" 0 false "" "" [] [] "" "".

(** What the worker of a position does, cancelled or not. *)
Definition work (s : Discovery) (ctx : Context) (candidates : list Candidate) (st : list Discovered * W)
    (step : nat * bool) : list Discovered * W :=
  match candidates !! step.1 with
  | None => st
  | Some c =>
      if step.2 then (<[step.1 := cancelled_result c]> st.1, st.2)
      else let '(r, w) := probe s ctx c st.2 in (<[step.1 := r]> st.1, w)
  end.

(** The order of [sort.SliceStable]. *)
Definition result_less (a b : Discovered) : bool :=
  if bool_decide (ds_Kind a = ds_Kind b) then String.ltb (ds_BaseURL a) (ds_BaseURL b)
  else String.ltb (kind_text (ds_Kind a)) (kind_text (ds_Kind b)).
Fixpoint insert_stable (x : Discovered) (l : list Discovered) : list Discovered :=
  match l with
  | [] => [x]
  | y :: rest => if result_less y x then y :: insert_stable x rest else x :: l
  end.
Definition sort_results (l : list Discovered) : list Discovered := foldr insert_stable [] l.

(** The index of the first candidate that is refused. *)
Fixpoint first_refused (index : nat) (candidates : list Candidate) : option nat :=
  match candidates with
  | [] => None
  | c :: rest => iferr validateCandidate c as _err yield Some index;; first_refused (S index) rest
  end.

(** [after] is what the context answers once the workers are done. When a
    candidate is refused, the workers started for those before it still run. *)
Definition Probe (s : Discovery) (ctx : Context) (after : option error) (candidates : list Candidate)
    (schedule : list (nat * bool)) (w : W) : (error + list Discovered) * W :=
  when (length candidates =? 0)%nat || (maximumCandidates <? length candidates)%nat yield
    (inl (ErrNew ("candidate count must be between 1 and " +:+ pretty maximumCandidates)), w);;
  let start := (replicate (length candidates) zero_Discovered, w) in
  match first_refused 0 candidates with
  | Some index =>
      (inl (ErrNew ("candidate " +:+ pretty index +:+ " is invalid")),
       (foldl (work s ctx candidates) start (filter (fun step => (step.1 < index)%nat) schedule)).2)
  | None =>
      let '(results, w) := foldl (work s ctx candidates) start schedule in
      iferr after as err yield (inl err, w);;
      (inr (sort_results results), w)
  end.
End discovery.

(** ** One result per candidate, in order of kind and address *)
Section results.
Context `{!URLParser, !HostNames} {W : Type} {HW : ProbeClients W}.

(** A result speaks of its candidate. *)
Definition answers (c : Candidate) (r : Discovered) : Prop :=
  ds_Kind r = cn_Kind c ∧ ds_BaseURL r = cn_BaseURL c ∧ ds_Channel r = cn_Channel c.

Lemma probe_answers s ctx c w : answers c (probe s ctx c w).1.
Proof.
  unfold probe, answers. destruct (cn_Kind c) eqn:Hk; [| |by simpl].
  - destruct (probe_Status _ _ _ _) as [[err|status] w1]; [by simpl|].
    by destruct (probe_Config _ _ _ _) as [[err|cfg] w2].
  - destruct (if bool_decide _ then _ else _) as [m|token]; [by simpl|].
    by destruct (probe_Snapshot _ _ _ _) as [[err|snap] w2].
Qed.

Lemma work_length s ctx cs st step : length (work s ctx cs st step).1 = length st.1.
Proof.
  unfold work. destruct (cs !! step.1); [|done]. destruct step.2; [apply length_insert|].
  destruct (probe _ _ _ _). apply length_insert.
Qed.

Lemma work_answers s ctx cs st step c :
  cs !! step.1 = Some c → (step.1 < length st.1)%nat →
  ∃ r, (work s ctx cs st step).1 = <[step.1 := r]> st.1 ∧ answers c r.
Proof.
  intros Hc Hl. unfold work. rewrite Hc. destruct step.2; [by eexists|].
  pose proof (probe_answers s ctx c st.2). destruct (probe s ctx c st.2) as [r w]. by exists r.
Qed.

Lemma works_answer s ctx cs schedule st position c :
  length st.1 = length cs → cs !! position = Some c →
  position ∈ schedule.*1 ∨ (∃ r, st.1 !! position = Some r ∧ answers c r) →
  ∃ r, (foldl (work s ctx cs) st schedule).1 !! position = Some r ∧ answers c r.
Proof.
  revert st. induction schedule as [|step schedule IH]; intros st Hlen Hc Hor; simpl.
  { destruct Hor as [?%not_elem_of_nil|?]; done. }
  apply IH; [by rewrite work_length|done|].
  assert (position < length st.1)%nat as Hpos by (rewrite Hlen; by eapply lookup_lt_Some).
  destruct (decide (step.1 = position)) as [He|Hne].
  - right. destruct (work_answers s ctx cs st step c) as (r & Hr & Ha); [by rewrite He|by rewrite He|].
    exists r. rewrite Hr, He. by rewrite list_lookup_insert_eq.
  - destruct Hor as [Hin|(r & Hr & Ha)].
    + left. simpl in Hin. apply elem_of_cons in Hin as [->|]; done.
    + right. exists r. split; [|done]. unfold work. destruct (cs !! step.1); [|done].
      destruct step.2; [simpl; by rewrite list_lookup_insert_ne|]. destruct (probe _ _ _ _).
      simpl. by rewrite list_lookup_insert_ne.
Qed.

Lemma insert_stable_perm x l : insert_stable x l ≡ₚ x :: l.
Proof. induction l as [|y l IH]; simpl; [done|]. destruct (result_less y x); [|done]. rewrite IH. apply perm_swap. Qed.
Lemma sort_results_perm l : sort_results l ≡ₚ l.
Proof. induction l as [|x l IH]; simpl; [done|]. by rewrite insert_stable_perm, IH. Qed.

(** Whatever the order in which the workers take effect, a probe that succeeds
    answers one result per candidate, up to the order of the sorting. *)
Theorem Probe_one_result_each s ctx after cs schedule (w : W) results w' :
  seq 0 (length cs) ⊆ schedule.*1 →
  Probe s ctx after cs schedule w = (inr results, w') →
  Forall (fun c => validateCandidate c = None) cs
  ∧ ∃ ordered, results ≡ₚ ordered ∧ Forall2 answers cs ordered.
Proof.
  intros Hall. unfold Probe. destruct (_ || _); [done|].
  destruct (first_refused 0 cs) as [index|] eqn:Hf; [done|].
  set (start := (replicate (length cs) zero_Discovered, w)).
  pose proof (works_answer s ctx cs schedule start) as Hw.
  assert (length (foldl (work s ctx cs) start schedule).1 = length cs) as Hlen.
  { assert (length start.1 = length cs) as Hs by apply length_replicate. revert Hs. generalize start.
    clear. induction schedule as [|step l IH]; intros st Hs; [done|]. simpl. apply IH. by rewrite work_length. }
  destruct (foldl (work s ctx cs) start schedule) as [rs w1]. destruct after; [done|]. intros [= <- <-].
  split.
  - clear -Hf. revert Hf. generalize 0%nat. induction cs as [|c cs IH]; intros i; simpl; [constructor|].
    destruct (validateCandidate c) eqn:Hc; [done|]. intros Hf. constructor; [done|]. by eapply IH.
  - exists rs. split; [apply sort_results_perm|]. apply Forall2_same_length_lookup. split; [by symmetry|].
    intros i c r Hc Hr. destruct (Hw i c) as (r' & Hr' & Ha).
    + apply length_replicate.
    + done.
    + left. apply Hall, elem_of_seq. apply lookup_lt_Some in Hc. lia.
    + simpl in Hr'. congruence.
Qed.
End results.

(** ** Only approved addresses are contacted *)

(** Clients with the addresses they were asked for. *)
#[export] Instance Logged_ProbeClients {W} `{!ProbeClients W} : ProbeClients (W * list string) := {
  probe_Status ctx url channel t := let '(r, w) := probe_Status ctx url channel t.1 in (r, (w, t.2 ++ [url]));
  probe_Config ctx url channel t := let '(r, w) := probe_Config ctx url channel t.1 in (r, (w, t.2 ++ [url]));
  probe_Snapshot ctx url token t := let '(r, w) := probe_Snapshot ctx url token t.1 in (r, (w, t.2 ++ [url]))
}.

Section contacts.
Context `{!URLParser, !HostNames} {W : Type} {HW : ProbeClients W}.

(** Addresses of candidates that were accepted. *)
Definition approved (cs : list Candidate) (url : string) : Prop :=
  ∃ c, c ∈ cs ∧ validateCandidate c = None ∧ cn_BaseURL c = url.

Lemma probe_contacts s ctx c (t : W * list string) (P : string → Prop) :
  P (cn_BaseURL c) → Forall P t.2 → Forall P (probe s ctx c t).2.2.
Proof.
  intros Hc Ht. assert (∀ l, Forall P l → Forall P (l ++ [cn_BaseURL c])) as Hsnoc.
  { intros l Hl. apply Forall_app. auto. }
  unfold probe. destruct (cn_Kind c); simpl.
  - destruct (probe_Status _ _ _ t.1) as [[err|status] w1]; simpl; [auto|].
    destruct (probe_Config _ _ _ w1) as [[err|cfg] w2]; simpl; auto.
  - destruct (if bool_decide _ then _ else _) as [m|token]; [done|]. simpl.
    destruct (probe_Snapshot _ _ _ t.1) as [[err|snap] w2]; simpl; auto.
  - done.
Qed.

Lemma works_contact s ctx cs schedule st (P : string → Prop) :
  (∀ step c, step ∈ schedule → cs !! step.1 = Some c → P (cn_BaseURL c)) →
  Forall P st.2.2 → Forall P (foldl (work s ctx cs) st schedule).2.2.
Proof.
  revert st. induction schedule as [|step schedule IH]; intros st Hs Hp; [done|]. simpl. apply IH.
  { intros step' c Hin. apply Hs. by right. }
  unfold work. destruct (cs !! step.1) as [c|] eqn:Hc; [|done]. destruct step.2; [done|].
  pose proof (probe_contacts s ctx c st.2 P) as Hprobe. destruct (probe s ctx c st.2). simpl in *.
  apply Hprobe; [|done]. apply (Hs step c); [by left|done].
Qed.

Lemma first_refused_spec index cs k i c :
  first_refused index cs = Some k → cs !! i = Some c → (index + i < k)%nat → validateCandidate c = None.
Proof.
  revert index i. induction cs as [|c' cs IH]; intros index i; simpl; [done|].
  destruct (validateCandidate c') eqn:Hc'; [intros [= <-]; lia|]. intros Hf Hc Hi.
  destruct i as [|i]; simpl in Hc; [by simplify_eq|]. apply (IH (S index) i); [done|done|lia].
Qed.

Lemma none_refused index cs c : first_refused index cs = None → c ∈ cs → validateCandidate c = None.
Proof.
  revert index. induction cs as [|c' cs IH]; intros index; simpl; [by intros _ ?%not_elem_of_nil|].
  destruct (validateCandidate c') eqn:Hc'; [done|]. intros Hf [->|Hin]%elem_of_cons; [done|]. by eapply IH.
Qed.

(** Whatever the schedule, and also when the call is refused because of
    another candidate, discovery contacts only addresses of candidates that
    passed validation, and through the read-only requests alone. *)
Theorem Probe_contacts_only_approved s ctx after cs schedule (w : W) :
  Forall (approved cs) (Probe s ctx after cs schedule (w, [])).2.2.
Proof.
  unfold Probe. destruct (_ || _); [constructor|].
  set (start := (replicate (length cs) zero_Discovered, (w, []))).
  assert (Forall (approved cs) start.2.2) as Hstart by constructor.
  destruct (first_refused 0 cs) as [index|] eqn:Hf.
  - apply works_contact; [|done]. intros step c [Hlt Hin]%list_elem_of_filter Hc.
    exists c. split_and!; [by eapply list_elem_of_lookup_2| |done]. by eapply (first_refused_spec 0 cs).
  - assert (Forall (approved cs) (foldl (work s ctx cs) start schedule).2.2) as Hw.
    { apply works_contact; [|done]. intros step c _ Hc. apply list_elem_of_lookup_2 in Hc as Hin.
      exists c. split_and!; [done|by eapply none_refused|done]. }
    destruct (foldl (work s ctx cs) start schedule) as [rs w1]. by destruct after.
Qed.
End contacts.
