(* ===== verification/Api.v ===== *)
(** * The operational API: [internal/api/server.go], [problem.go] and [v1.go]

    The server behind [/api/v1]: its routes, the authorization and rate limits
    before each handler, the handlers over the contracts the API owns, and the
    lifecycle of the listener. A reply is data: a status, the headers set and
    the value that is encoded as its body. *)

From Stdlib Require Import ZArith Lia String Ascii SpecFloat.
From stdpp Require Import base gmap strings list pretty.
From S2P Require Import Prelude Domain Health State Output Alarms Topics Config ConfigManager Encoding HttpServer Access.

(** ** Contracts *)
Class DeviceReader (W : Type) := {
  devices_Get : Context → DeviceID → W → Device * option error;
  devices_List : Context → W → list Device * option error
}.
Class SensorReader (W : Type) := { sensors_Get : Context → SensorID → W → Sensor * option error }.
Class EquipmentReader (W : Type) := { equipment_Get : Context → EquipmentID → W → Equipment * option error }.
Class StateReader (W : Type) := {
  state_Get : Context → Key → W → StateValue * option error;
  state_Snapshot : Context → W → Snapshot * option error
}.
Class CommandService (W : Type) := {
  commands_Submit : Context → Command → W → (Result * option error) * W;
  commands_Get : Context → CommandID → W → Result * option error
}.
Class AlarmService (W : Type) := {
  alarms_List : Context → string → W → list Alarm * option error;
  alarms_Acknowledge : Context → AlarmID → W → (Alarm * option error) * W
}.
Class ConfigurationService (W : Type) := {
  configuration_Current : W → Config;
  configuration_Digest : W → string;
  configuration_Plan : Config → W → ReloadPlan * option error;
  configuration_Reload : Context → W → option error * W
}.
Class HealthReporter (W : Type) := { health_Report : Time → W → Report }.

(** Which services are configured. *)
Record Dependencies := mkDependencies {
  dp_Devices : bool; dp_Sensors : bool; dp_Equipment : bool; dp_State : bool; dp_Commands : bool; dp_Alarms : bool;
  dp_Configuration : bool
}.
Definition no_Dependencies : Dependencies := mkDependencies false false false false false false false.

(** ** Bodies *)
Record FieldError := mkFieldError { fe_Field : string; fe_Code : string }.
Record Problem := mkProblem {
  pb_Type : string; pb_Title : string; pb_Status : Z; pb_Code : string; pb_Detail : string; pb_Instance : string;
  pb_CorrelationID : string; pb_Fields : list FieldError
}.

Inductive Body :=
| AliveBody
| ReadyBody (ready : bool) (state : HealthState)
| ReportBody (report : Report)
| SystemBody (version goVersion site : string) (uptimeSeconds : Z) (digest : string)
| DevicesBody (items : list Device) (nextCursor : string)
| DeviceBody (device : Device)
| SnapshotBody (revision : Revision) (values : option (list StateValue))
| ValueBody (value : StateValue)
| EquipmentBody (equipment : Equipment) (revision : Revision) (values : list StateValue)
| ResultBody (result : Result)
| AlarmsBody (items : list Alarm) (nextCursor : string)
| AlarmBody (alarm : Alarm)
| PlanBody (activatable : bool) (plan : ReloadPlan)
| ReloadedBody (digest : string)
| DiagnosticsBody (report : Report) (digest : string) (goroutines : Z) (goVersion : string)
| ProblemBody (problem : Problem)
| TextBody (text : string).

Definition writeJSON (code : Z) (value : Body) : Reply Body :=
  mkReply code [("Content-Type", "application/json; charset=utf-8")] value.

Definition correlationHeader : string := "X-Correlation-ID".

Definition writeProblem (request : ServerRequest) (correlation : string) (status : Z) (code title detail : string)
    (fields : list FieldError) : Reply Body :=
  mkReply status [(correlationHeader, correlation); ("Content-Type", "application/problem+json")]
    (ProblemBody (mkProblem ("https://aquaos.dev/problems/" +:+ code) title status code detail (sq_Path request)
       correlation fields)).

(** ** The server *)

(** A request that reached its handler: the request, the identifier of its
    path, and what the middleware put in its context. *)
Record Call := mkCall {
  ca_Request : ServerRequest; ca_ID : string; ca_Correlation : string; ca_Principal : Principal
}.
Definition call_ctx (c : Call) : Context := sq_Context (ca_Request c).

(** What a request reads of clocks, randomness and the runtime. *)
Record RequestEnv := mkRequestEnv {
  re_Rand : error + list Z; re_AuthenticationTime : Time; re_MutationTime : Time; re_Now : Time;
  re_Version : option string; re_GoVersion : string; re_Goroutines : Z
}.

(** [int64] of a float, truncated. *)
Definition int64_of_float (f : float64) : Z :=
  match f with
  | S754_finite sign m e =>
      let magnitude := if 0 <=? e then Zpos m * 2 ^ e else Zpos m / 2 ^ (- e) in
      if sign then - magnitude else magnitude
  | _ => 0
  end.

Definition newRateLimiter (rate burst : Z) : requestLimiter :=
  newRequestLimiter (if rate <? 1 then 1 else rate) (if burst <? 1 then 1 else burst) 1024.

(** The API's limiter is the code of the administration's. *)
Definition allow (range : gmap string requestBucket → list (string * requestBucket)) (key : string) (now : Time)
    (l : requestLimiter) : bool * requestLimiter := limiter_allow range key now l.

Inductive Option_ (A Z' : Type) :=
| WithDependencies (d : Dependencies)
| WithSecurity (authenticator : option A) (authorizer : option Z').
Arguments WithDependencies {A Z'} _.
Arguments WithSecurity {A Z'} _ _.

(** An absent authenticator is [denyAuthenticator], an absent authorizer
    [roleAuthorizer]. *)
Record Server (A Z' W : Type) := mkServer {
  s_shutdownTimeout : Duration; s_maximumBodyBytes : Z; s_startedAt : Time; s_authenticator : option A;
  s_authorizer : option Z'; s_dependencies : Dependencies; s_mutations : requestLimiter;
  s_authentication : requestLimiter; s_listening : Listening; s_services : W
}.
Arguments mkServer {A Z' W} _ _ _ _ _ _ _ _ _ _.
Arguments s_shutdownTimeout {A Z' W} _.
Arguments s_maximumBodyBytes {A Z' W} _.
Arguments s_startedAt {A Z' W} _.
Arguments s_authenticator {A Z' W} _.
Arguments s_authorizer {A Z' W} _.
Arguments s_dependencies {A Z' W} _.
Arguments s_mutations {A Z' W} _.
Arguments s_authentication {A Z' W} _.
Arguments s_listening {A Z' W} _.
Arguments s_services {A Z' W} _.

Definition set_services {A Z' W} (w : W) (s : Server A Z' W) : Server A Z' W :=
  mkServer (s_shutdownTimeout s) (s_maximumBodyBytes s) (s_startedAt s) (s_authenticator s) (s_authorizer s)
    (s_dependencies s) (s_mutations s) (s_authentication s) (s_listening s) w.
Definition set_authentication {A Z' W} (l : requestLimiter) (s : Server A Z' W) : Server A Z' W :=
  mkServer (s_shutdownTimeout s) (s_maximumBodyBytes s) (s_startedAt s) (s_authenticator s) (s_authorizer s)
    (s_dependencies s) (s_mutations s) l (s_listening s) (s_services s).
Definition set_mutations {A Z' W} (l : requestLimiter) (s : Server A Z' W) : Server A Z' W :=
  mkServer (s_shutdownTimeout s) (s_maximumBodyBytes s) (s_startedAt s) (s_authenticator s) (s_authorizer s)
    (s_dependencies s) l (s_authentication s) (s_listening s) (s_services s).
Definition set_listening {A Z' W} (l : Listening) (s : Server A Z' W) : Server A Z' W :=
  mkServer (s_shutdownTimeout s) (s_maximumBodyBytes s) (s_startedAt s) (s_authenticator s) (s_authorizer s)
    (s_dependencies s) (s_mutations s) (s_authentication s) l (s_services s).

Definition apply_option {A Z' W} (o : Option_ A Z') (s : Server A Z' W) : Server A Z' W :=
  match o with
  | WithDependencies d =>
      mkServer (s_shutdownTimeout s) (s_maximumBodyBytes s) (s_startedAt s) (s_authenticator s) (s_authorizer s)
        d (s_mutations s) (s_authentication s) (s_listening s) (s_services s)
  | WithSecurity a z =>
      mkServer (s_shutdownTimeout s) (s_maximumBodyBytes s) (s_startedAt s)
        (match a with Some a => Some a | None => s_authenticator s end)
        (match z with Some z => Some z | None => s_authorizer s end)
        (s_dependencies s) (s_mutations s) (s_authentication s) (s_listening s) (s_services s)
  end.

Definition Api_New {A Z' W} (cfg : HTTP) (now : Time) (options : list (Option_ A Z')) (services : W) : Server A Z' W :=
  foldl (fun s o => apply_option o s)
    (mkServer (ht_WriteTimeout cfg) (ht_MaximumRequestBytes cfg) (UTC now) None None no_Dependencies
       (newRateLimiter (ht_MutationRate cfg) (ht_MutationBurst cfg))
       (newRateLimiter (ht_MutationRate cfg) (ht_MutationBurst cfg)) (mkListening false None false) services) options.

(** ** Refusals *)
Section refusals.
Context (c : Call).

Definition refuse (status : Z) (code title detail : string) : Reply Body :=
  writeProblem (ca_Request c) (ca_Correlation c) status code title detail [].
Definition unavailable : Reply Body :=
  refuse 503 "service_unavailable" "Service unavailable" "The requested application service is not configured.".
Definition invalidID : Reply Body :=
  refuse 400 "invalid_id" "Invalid identifier" "The path identifier must be a canonical UUID.".
Definition notFound : Reply Body := refuse 404 "not_found" "Not found" "The requested resource does not exist.".
Definition internal : Reply Body :=
  refuse 500 "internal_error" "Internal error" "The request could not be completed.".
Definition invalid (render : error → string) (err : error) : Reply Body :=
  refuse 400 "invalid_request" "Invalid request" (render err).
Definition stale : Reply Body :=
  refuse 409 "stale_revision" "Revision conflict" "The expected canonical-state revision is stale.".

(** *** Pages *)
Definition pagination : Reply Body + (Z * Z) :=
  let bad_limit := inl (refuse 400 "invalid_pagination" "Invalid pagination" "limit must be between 1 and 200.") in
  let bad_cursor := inl (refuse 400 "invalid_cursor" "Invalid cursor" "cursor is malformed.") in
  let query := sq_Query (ca_Request c) in
  let limit :=
    if bool_decide (Get query "limit" = "") then inr 100
    else match Atoi (Get query "limit") with
         | Some value => if (value <? 1) || (200 <? value) then bad_limit else inr value
         | None => bad_limit
         end in
  match limit with
  | inl reply => inl reply
  | inr limit =>
      if bool_decide (Get query "cursor" = "") then inr (0, limit)
      else match RawURL_DecodeString (Get query "cursor") with
           | None => bad_cursor
           | Some decoded =>
               match Atoi decoded with
               | Some start => if start <? 0 then bad_cursor else inr (start, limit)
               | None => bad_cursor
               end
           end
  end.

(** The items of a page and the cursor of the next one. *)
Definition page {A} (values : list A) : Reply Body + (list A * string) :=
  match pagination with
  | inl reply => inl reply
  | inr (start, limit) =>
      let total := Z.of_nat (length values) in
      let start := if total <? start then total else start in
      let stop := wrap_int64 (start + limit) in
      let stop := if total <? stop then total else stop in
      let next := if stop <? total then RawURL_EncodeToString (pretty stop) else "" in
      inr (take (Z.to_nat (stop - start)) (drop (Z.to_nat start) values), next)
  end.

(** *** Bodies of requests *)
Definition decodeJSON {A} `{!StrictDecoder A} (render : error → string) (limit : Z) : Reply Body + A :=
  match decode_body limit (ca_Request c) with
  | NotJSON err => inl (invalid render err)
  | ManyValues => inl (invalid render (ErrNew "request must contain one JSON value"))
  | One a => inr a
  end.

Definition readBody (render : error → string) (limit : Z) : Reply Body + string :=
  match read_at_most limit (ca_Request c) with
  | inl err => inl (invalid render err)
  | inr None => inl (invalid render (ErrNew "request body is too large"))
  | inr (Some payload) => inr payload
  end.
End refusals.

Record commandRequest := mkCommandRequest {
  cr_On : bool; cr_ExpiresAt : Time; cr_ExpectedRevision : option Revision
}.
Record acknowledgementRequest := mkAckRequest { ar_Reason : string; ar_ExpectedRevision : Revision }.

(** [errors.As] for a pointer to a struct. *)
Fixpoint errors_As (e : error) (type : string) : bool :=
  match e with
  | ErrNew _ | ErrVar _ => false
  | ErrWrap _ e' => errors_As e' type
  | ErrJoin es => existsb (fun e' => errors_As e' type) es
  | ErrStruct t _ => bool_decide (t = type)
  end.

(** ** Handlers *)
Section handlers.
Context {A Z' W : Type} `{!Authenticator A, !Authorizer Z'}.
Context `{!DeviceReader W, !SensorReader W, !EquipmentReader W, !StateReader W, !CommandService W, !AlarmService W}.
Context `{!ConfigurationService W, !HealthReporter W}.
Context `{!StrictDecoder commandRequest, !StrictDecoder acknowledgementRequest}.
Context `{!YAML, !URLParser, !NetParser, !MapRange} (render : error → string).
Context (env : RequestEnv) (s : Server A Z' W) (c : Call) (w : W).

Definition live : Reply Body := writeJSON 200 AliveBody.
Definition ready : Reply Body :=
  let report := health_Report (re_Now env) w in
  writeJSON (if rep_Ready report then 200 else 503) (ReadyBody (rep_Ready report) (rep_State report)).
Definition details : Reply Body := writeJSON 200 (ReportBody (health_Report (re_Now env) w)).

Definition system : Reply Body :=
  when negb (dp_Configuration (s_dependencies s)) yield unavailable c;;
  let cfg := configuration_Current w in
  let version :=
    match re_Version env with
    | Some v => if bool_decide (v = "") then "development" else v
    | None => "development"
    end in
  writeJSON 200 (SystemBody version (re_GoVersion env) (mq_SiteID (cf_MQTT cfg))
    (int64_of_float (Seconds (Sub (re_Now env) (s_startedAt s)))) (configuration_Digest w)).

Definition listDevices : Reply Body :=
  when negb (dp_Devices (s_dependencies s)) yield unavailable c;;
  let '(values, err) := devices_List (call_ctx c) w in
  iferr err as _err yield internal c;;
  match page c values with
  | inl reply => reply
  | inr (items, next) => writeJSON 200 (DevicesBody items next)
  end.

Definition getDevice : Reply Body :=
  when negb (dp_Devices (s_dependencies s)) yield unavailable c;;
  iferr validateUUID (ca_ID c) as _err yield invalidID c;;
  let '(value, err) := devices_Get (call_ctx c) (ca_ID c) w in
  iferr err as err yield (if errors_Is err "devices.ErrNotFound" then notFound c else internal c);;
  writeJSON 200 (DeviceBody value).

Definition getState : Reply Body :=
  when negb (dp_State (s_dependencies s)) yield unavailable c;;
  let '(snapshot, err) := state_Snapshot (call_ctx c) w in
  iferr err as _err yield internal c;;
  let raw := Get (sq_Query (ca_Request c)) "sinceRevision" in
  when bool_decide (raw = "") yield
    writeJSON 200 (SnapshotBody (snap_Revision snapshot) (Some (snap_Values snapshot)));;
  match ParseUint raw with
  | None => refuse c 400 "invalid_revision" "Invalid revision" "sinceRevision must be an unsigned integer."
  | Some revision =>
      writeJSON 200 (SnapshotBody (snap_Revision snapshot)
        (if snap_Revision snapshot <=? revision then None else Some (snap_Values snapshot)))
  end.

Definition getSensorState : Reply Body :=
  iferr validateUUID (ca_ID c) as _err yield invalidID c;;
  when negb (dp_Sensors (s_dependencies s)) || negb (dp_State (s_dependencies s)) yield unavailable c;;
  let '(_, err) := sensors_Get (call_ctx c) (ca_ID c) w in
  iferr err as err yield (if errors_Is err "sensors.ErrNotFound" then notFound c else internal c);;
  let '(value, err) := state_Get (call_ctx c) (mkKey EntitySensor (ca_ID c) PlaneObservation "measurement") w in
  iferr err as err yield (if errors_Is err "state.ErrNotFound" then notFound c else internal c);;
  writeJSON 200 (ValueBody value).

Definition getEquipmentState : Reply Body :=
  iferr validateUUID (ca_ID c) as _err yield invalidID c;;
  when negb (dp_Equipment (s_dependencies s)) || negb (dp_State (s_dependencies s)) yield unavailable c;;
  let '(item, err) := equipment_Get (call_ctx c) (ca_ID c) w in
  iferr err as err yield (if errors_Is err "equipment.ErrNotFound" then notFound c else internal c);;
  let '(snapshot, err) := state_Snapshot (call_ctx c) w in
  iferr err as _err yield internal c;;
  writeJSON 200 (EquipmentBody item (snap_Revision snapshot)
    (filter (fun v => k_EntityKind (sv_Key v) = EntityEquipment ∧ k_EntityID (sv_Key v) = ca_ID c)
       (snap_Values snapshot))).

(** The command a request asks for. *)
Definition requested (key : string) (body : commandRequest) : Command :=
  mkCommand "" key (ca_Correlation c) (ca_ID c) (pr_ID (ca_Principal c)) (UTC (re_Now env)) (cr_ExpiresAt body)
    (cr_ExpectedRevision body) (cr_On body).

Definition submitCommand : Reply Body * W :=
  when negb (dp_Commands (s_dependencies s)) yield (unavailable c, w);;
  let key := TrimSpace (Get (sq_Header (ca_Request c)) "Idempotency-Key") in
  when bool_decide (key = "") || (128 <? String.length key)%nat yield
    (refuse c 400 "idempotency_key_required" "Idempotency key required"
       "Idempotency-Key must contain 1 to 128 characters.", w);;
  iferr validateUUID (ca_ID c) as _err yield (invalidID c, w);;
  match decodeJSON c render (s_maximumBodyBytes s) with
  | inl reply => (reply, w)
  | inr body =>
      let '((result, err), w) := commands_Submit (call_ctx c) (requested key body) w in
      match err with
      | Some err =>
          (if errors_Is err "output.ErrConflict"
           then refuse c 409 "idempotency_conflict" "Idempotency conflict"
                  "The key was already used for different command content."
           else invalid c render err, w)
      | None =>
          (if bool_decide (r_Reason result = ReasonRevisionConflict) then stale c
           else writeJSON 202 (ResultBody result), w)
      end
  end.

Definition getCommand : Reply Body :=
  when negb (dp_Commands (s_dependencies s)) yield unavailable c;;
  iferr validateUUID (ca_ID c) as _err yield invalidID c;;
  let '(result, err) := commands_Get (call_ctx c) (ca_ID c) w in
  iferr err as err yield (if errors_Is err "output.ErrNotFound" then notFound c else internal c);;
  writeJSON 200 (ResultBody result).

Definition listAlarms : Reply Body :=
  when negb (dp_Alarms (s_dependencies s)) yield unavailable c;;
  let '(values, err) := alarms_List (call_ctx c) (Get (sq_Query (ca_Request c)) "status") w in
  iferr err as _err yield internal c;;
  match page c values with
  | inl reply => reply
  | inr (items, next) => writeJSON 200 (AlarmsBody items next)
  end.

Definition ackAlarm : Reply Body * W :=
  when negb (dp_Alarms (s_dependencies s)) || negb (dp_State (s_dependencies s)) yield (unavailable c, w);;
  match decodeJSON c render (s_maximumBodyBytes s) with
  | inl reply => (reply, w)
  | inr body =>
      when blank (ar_Reason body) yield
        (refuse c 400 "reason_required" "Reason required" "An acknowledgement reason is required.", w);;
      let '(snapshot, err) := state_Snapshot (call_ctx c) w in
      iferr err as _err yield (internal c, w);;
      when negb (snap_Revision snapshot =? ar_ExpectedRevision body) yield (stale c, w);;
      iferr validateUUID (ca_ID c) as _err yield (invalidID c, w);;
      let '((alarm, err), w) := alarms_Acknowledge (call_ctx c) (ca_ID c) w in
      match err with
      | Some err => (if errors_Is err "alarms.ErrNotFound" then notFound c else invalid c render err, w)
      | None => (writeJSON 200 (AlarmBody alarm), w)
      end
  end.

Definition validateConfig : Reply Body :=
  when negb (dp_Configuration (s_dependencies s)) yield unavailable c;;
  match readBody c render (s_maximumBodyBytes s) with
  | inl reply => reply
  | inr payload =>
      match DecodeCandidate render payload with
      | inl err => invalid c render err
      | inr candidate =>
          let '(plan, err) := configuration_Plan candidate w in
          match err with
          | None => writeJSON 200 (PlanBody true plan)
          | Some err =>
              if errors_As err "config.ReloadRejectedError" then writeJSON 200 (PlanBody false plan)
              else invalid c render err
          end
      end
  end.

Definition reloadConfig : Reply Body * W :=
  when negb (dp_Configuration (s_dependencies s)) yield (unavailable c, w);;
  let '(err, w) := configuration_Reload (call_ctx c) w in
  iferr err as err yield (invalid c render err, w);;
  (writeJSON 200 (ReloadedBody (configuration_Digest w)), w).

Definition diagnostics : Reply Body :=
  when negb (dp_Configuration (s_dependencies s)) yield unavailable c;;
  writeJSON 200 (DiagnosticsBody (health_Report (re_Now env) w) (configuration_Digest w) (re_Goroutines env)
    (re_GoVersion env)).
End handlers.

(** ** Routes *)
Inductive Handler :=
| HLive | HReady | HDetails | HSystem | HListDevices | HGetDevice | HGetState | HGetSensorState | HGetEquipmentState
| HSubmitCommand | HGetCommand | HListAlarms | HAckAlarm | HValidateConfig | HReloadConfig | HDiagnostics.

(** What [authorized] is given: the role, and whether the request mutates. *)
Record Route := mkRoute { rt_Guard : option (Role * bool); rt_Handler : Handler }.

Definition on (method : string) (path : list segment) : pattern := mkPattern method path false.
Definition v1 (path : list segment) : list segment := Lit "api" :: Lit "v1" :: path.
Definition open_route (h : Handler) : Route := mkRoute None h.
Definition guarded (role : Role) (mutation : bool) (h : Handler) : Route := mkRoute (Some (role, mutation)) h.

Definition registerV1 : list (pattern * Route) := [
  (on "GET" (v1 [Lit "health"]), guarded RoleReader false HDetails);
  (on "GET" (v1 [Lit "system"]), guarded RoleReader false HSystem);
  (on "GET" (v1 [Lit "devices"]), guarded RoleReader false HListDevices);
  (on "GET" (v1 [Lit "devices"; Wild]), guarded RoleReader false HGetDevice);
  (on "GET" (v1 [Lit "state"]), guarded RoleReader false HGetState);
  (on "GET" (v1 [Lit "sensors"; Wild; Lit "state"]), guarded RoleReader false HGetSensorState);
  (on "GET" (v1 [Lit "equipment"; Wild; Lit "state"]), guarded RoleReader false HGetEquipmentState);
  (on "POST" (v1 [Lit "equipment"; Wild; Lit "commands"]), guarded RoleOperator true HSubmitCommand);
  (on "GET" (v1 [Lit "commands"; Wild]), guarded RoleReader false HGetCommand);
  (on "GET" (v1 [Lit "alarms"]), guarded RoleReader false HListAlarms);
  (on "POST" (v1 [Lit "alarms"; Wild; Lit "ack"]), guarded RoleOperator true HAckAlarm);
  (on "POST" (v1 [Lit "config"; Lit "validate"]), guarded RoleAdministrator true HValidateConfig);
  (on "POST" (v1 [Lit "config"; Lit "reload"]), guarded RoleAdministrator true HReloadConfig);
  (on "GET" (v1 [Lit "diagnostics"]), guarded RoleAdministrator false HDiagnostics)].

Definition operational_routes : list (pattern * Route) := [
  (on "GET" [Lit "health"; Lit "live"], open_route HLive);
  (on "GET" [Lit "health"; Lit "ready"], open_route HReady);
  (on "GET" [Lit "healthz"], open_route HLive);
  (on "GET" [Lit "readyz"], open_route HReady)].

Definition routes : list (pattern * Route) := operational_routes ++ registerV1.

Section serving.
Context {A Z' W : Type} `{!Authenticator A, !Authorizer Z'}.
Context `{!DeviceReader W, !SensorReader W, !EquipmentReader W, !StateReader W, !CommandService W, !AlarmService W}.
Context `{!ConfigurationService W, !HealthReporter W}.
Context `{!StrictDecoder commandRequest, !StrictDecoder acknowledgementRequest}.
Context `{!YAML, !URLParser, !NetParser, !MapRange, !PathUnescaper} (render : error → string).
Context (range : gmap string requestBucket → list (string * requestBucket)).

(** The handler of a route, on the services. *)
Definition run (h : Handler) (env : RequestEnv) (s : Server A Z' W) (c : Call) (w : W) : Reply Body * W :=
  match h with
  | HLive => (live, w)
  | HReady => (ready env w, w)
  | HDetails => (details env w, w)
  | HSystem => (system env s c w, w)
  | HListDevices => (listDevices s c w, w)
  | HGetDevice => (getDevice s c w, w)
  | HGetState => (getState s c w, w)
  | HGetSensorState => (getSensorState s c w, w)
  | HGetEquipmentState => (getEquipmentState s c w, w)
  | HSubmitCommand => submitCommand render env s c w
  | HGetCommand => (getCommand s c w, w)
  | HListAlarms => (listAlarms s c w, w)
  | HAckAlarm => ackAlarm render s c w
  | HValidateConfig => (validateConfig render s c w, w)
  | HReloadConfig => reloadConfig render s c w
  | HDiagnostics => (diagnostics env s c w, w)
  end.

Definition server_Authenticate (request : ServerRequest) (s : Server A Z' W) : Principal * option error :=
  match s_authenticator s with
  | Some a => Authenticate request a
  | None => deny_Authenticate request mkDenyAuthenticator
  end.
Definition server_Authorize (ctx : Context) (p : Principal) (role : Role) (s : Server A Z' W) : option error :=
  match s_authorizer s with
  | Some z => Authorize ctx p role z
  | None => role_Authorize ctx p role mkRoleAuthorizer
  end.

Definition remoteAddress (request : ServerRequest) : string :=
  default (sq_RemoteAddr request) (SplitHost (sq_RemoteAddr request)).

Definition rate_limited (request : ServerRequest) (correlation detail : string) : Reply Body :=
  add_headers [("Retry-After", "1")]
    (writeProblem request correlation 429 "rate_limited" "Too many requests" detail []).

(** The handler behind the authorization of its route. *)
Definition serve_handler (h : Handler) (env : RequestEnv) (c : Call) (s : Server A Z' W) : Reply Body * Server A Z' W :=
  let '(reply, w) := run h env s c (s_services s) in (reply, set_services w s).

Definition authorized (role : Role) (mutation : bool) (h : Handler) (env : RequestEnv) (request : ServerRequest)
    (id correlation : string) (s : Server A Z' W) : Reply Body * Server A Z' W :=
  let '(allowed, limiter) :=
    allow range (remoteAddress request) (re_AuthenticationTime env) (s_authentication s) in
  let s := set_authentication limiter s in
  when negb allowed yield (rate_limited request correlation "The authentication rate limit was exceeded.", s);;
  let '(principal, err) := server_Authenticate request s in
  iferr err as _err yield
    (writeProblem request correlation 401 "authentication_required" "Authentication required"
       "Valid bearer credentials are required." [], s);;
  iferr server_Authorize (sq_Context request) principal role s as _err yield
    (writeProblem request correlation 403 "forbidden" "Forbidden"
       "The authenticated identity lacks the required role." [], s);;
  let c := mkCall request id correlation principal in
  if mutation then
    let '(allowed, limiter) := allow range (pr_ID principal) (re_MutationTime env) (s_mutations s) in
    let s := set_mutations limiter s in
    when negb allowed yield (rate_limited request correlation "The mutation rate limit was exceeded.", s);;
    serve_handler h env c s
  else serve_handler h env c s.

(** [http.Error]. *)
Definition http_error (status : Z) (text : string) : Reply Body :=
  mkReply status [("X-Content-Type-Options", "nosniff"); ("Content-Type", "text/plain; charset=utf-8")] (TextBody text).

Definition serve_route (env : RequestEnv) (request : ServerRequest) (correlation : string) (s : Server A Z' W) :
    Reply Body * Server A Z' W :=
  match mux_route routes request with
  | Redirected => (mkReply 301 [] (TextBody ""), s)
  | MethodNotAllowed => (http_error 405 "Method Not Allowed", s)
  | NoRoute => (http_error 404 "404 page not found", s)
  | Matched route values =>
      let id := default "" (head values) in
      match rt_Guard route with
      | None => serve_handler (rt_Handler route) env (mkCall request id correlation zero_Principal) s
      | Some (role, mutation) => authorized role mutation (rt_Handler route) env request id correlation s
      end
  end.

Definition response_headers : list (string * string) :=
  [("X-Frame-Options", "DENY"); ("X-Content-Type-Options", "nosniff"); ("Cache-Control", "no-store")].

Definition withCorrelation (env : RequestEnv) (request : ServerRequest) (s : Server A Z' W) :
    Reply Body * Server A Z' W :=
  let next id :=
    let '(reply, s) := serve_route env request id s in
    (add_headers ((correlationHeader, id) :: response_headers) reply, s) in
  let id := Get (sq_Header request) correlationHeader in
  match validateUUID id with
  | None => next id
  | Some _ =>
      let '(generated, err) := newUUID (re_Rand env) in
      iferr err as _err yield (add_headers response_headers (http_error 500 "request identity unavailable"), s);;
      next generated
  end.

(** ** Lifecycle *)
Definition Api_Start (listen : option error) (s : Server A Z' W) : Server A Z' W * option error :=
  iferr listen as err yield (s, Some (ErrWrap "listen HTTP" err));;
  (set_listening (mkListening true None true) s, None).

Definition Api_Stop (env : StopEnv) (s : Server A Z' W) : Server A Z' W * option error :=
  let l := s_listening s in
  when ln_started l && negb (se_Served env && se_Watched env) yield
    (s, errors_Join [se_Shutdown env; se_Context env]);;
  (set_listening (mkListening false (ln_serveErr l) (ln_started l)) s, se_Shutdown env).

Definition Api_Health (now : Time) (s : Server A Z' W) : Status :=
  let l := s_listening s in
  let state := if ln_running l && bool_decide (ln_serveErr l = None) then StateHealthy else StateUnhealthy in
  let status := NewStatus "api" state "" (UTC now) in
  match ln_serveErr l with
  | Some err => mkStatus (st_Name status) (st_State status) (st_Healthy status) (render err) (st_CheckedAt status)
  | None => status
  end.
End serving.

(** ** The services change only for authorized requests *)
Section safety.
Context {A Z' W : Type} `{!Authenticator A, !Authorizer Z'}.
Context `{!DeviceReader W, !SensorReader W, !EquipmentReader W, !StateReader W, !CommandService W, !AlarmService W}.
Context `{!ConfigurationService W, !HealthReporter W}.
Context `{!StrictDecoder commandRequest, !StrictDecoder acknowledgementRequest}.
Context `{!YAML, !URLParser, !NetParser, !MapRange, !PathUnescaper} (render : error → string).
Context (range : gmap string requestBucket → list (string * requestBucket)).

(** The calls that change the services, with the role each needs and the
    services after it. *)
Inductive service_call (env : RequestEnv) (limit : Z) (c : Call) (w : W) : Handler → Role → W → Prop :=
| calls_Submit key body :
    key = TrimSpace (Get (sq_Header (ca_Request c)) "Idempotency-Key") → key ≠ "" → (String.length key ≤ 128)%nat →
    validateUUID (ca_ID c) = None → decode_body limit (ca_Request c) = One body →
    service_call env limit c w HSubmitCommand RoleOperator
      (commands_Submit (call_ctx c) (requested env c key body) w).2
| calls_Acknowledge body snapshot :
    decode_body limit (ca_Request c) = One body → blank (ar_Reason body) = false →
    state_Snapshot (call_ctx c) w = (snapshot, None) → ar_ExpectedRevision body = snap_Revision snapshot →
    validateUUID (ca_ID c) = None →
    service_call env limit c w HAckAlarm RoleOperator (alarms_Acknowledge (call_ctx c) (ca_ID c) w).2
| calls_Reload :
    service_call env limit c w HReloadConfig RoleAdministrator (configuration_Reload (call_ctx c) w).2.

Lemma submitCommand_calls env (s : Server A Z' W) c w :
  (submitCommand render env s c w).2 = w
  ∨ service_call env (s_maximumBodyBytes s) c w HSubmitCommand RoleOperator (submitCommand render env s c w).2.
Proof.
  unfold submitCommand. destruct (dp_Commands _); [|by left]. cbn [negb].
  destruct (_ || _) eqn:Hkey; [by left|]. apply orb_false_iff in Hkey as [Hne%bool_decide_eq_false Hlen%Nat.ltb_ge].
  destruct (validateUUID (ca_ID c)) eqn:Hid; [by left|].
  unfold decodeJSON. destruct (decode_body _ _) as [err| |body] eqn:Hbody; [by left..|]. right.
  pose proof (calls_Submit env _ c w _ body eq_refl Hne Hlen Hid Hbody) as Hcall.
  destruct (commands_Submit _ _ w) as [[result err] w']. by destruct err.
Qed.

Lemma ackAlarm_calls env (s : Server A Z' W) c w :
  (ackAlarm render s c w).2 = w
  ∨ service_call env (s_maximumBodyBytes s) c w HAckAlarm RoleOperator (ackAlarm render s c w).2.
Proof.
  unfold ackAlarm. destruct (_ || _); [by left|].
  unfold decodeJSON. destruct (decode_body _ _) as [err| |body] eqn:Hbody; [by left..|].
  destruct (blank (ar_Reason body)) eqn:Hreason; [by left|].
  destruct (state_Snapshot _ w) as [snapshot err] eqn:Hsnap. destruct err; [by left|].
  destruct (Z.eqb_spec (snap_Revision snapshot) (ar_ExpectedRevision body)) as [Hrev|]; [|by left]. cbn [negb].
  destruct (validateUUID (ca_ID c)) eqn:Hid; [by left|]. right.
  pose proof (calls_Acknowledge env _ c w body snapshot Hbody Hreason Hsnap (eq_sym Hrev) Hid) as Hcall.
  destruct (alarms_Acknowledge _ _ w) as [[alarm err] w']. by destruct err.
Qed.

Lemma reloadConfig_calls env (s : Server A Z' W) c w :
  (reloadConfig render s c w).2 = w
  ∨ service_call env (s_maximumBodyBytes s) c w HReloadConfig RoleAdministrator (reloadConfig render s c w).2.
Proof.
  unfold reloadConfig. destruct (dp_Configuration _); [|by left]. cbn [negb]. right.
  pose proof (calls_Reload env (s_maximumBodyBytes s) c w) as Hcall.
  destruct (configuration_Reload _ w) as [err w']. by destruct err.
Qed.

(** Every other handler leaves the services as they are. *)
Lemma run_calls h env (s : Server A Z' W) c w :
  (run render h env s c w).2 = w
  ∨ ∃ role, service_call env (s_maximumBodyBytes s) c w h role (run render h env s c w).2.
Proof.
  destruct h; try (by left); unfold run.
  - destruct (submitCommand_calls env s c w); eauto.
  - destruct (ackAlarm_calls env s c w); eauto.
  - destruct (reloadConfig_calls env s c w); eauto.
Qed.

(** A handler that changes the services is registered with the role it needs,
    and as a mutation. *)
Lemma routes_guarded p route env limit c (w w' : W) role :
  (p, route) ∈ routes → service_call env limit c w (rt_Handler route) role w' →
  route = guarded role true (rt_Handler route).
Proof.
  intros Hin Hcall. unfold routes, operational_routes, registerV1, open_route in Hin. simpl in Hin.
  repeat (apply elem_of_cons in Hin as [[= -> ->]|Hin]; [inversion Hcall; done|]).
  by apply not_elem_of_nil in Hin.
Qed.

(** The request passed both limits, is authenticated and has the role. *)
Record admitted (env : RequestEnv) (request : ServerRequest) (s : Server A Z' W) (principal : Principal) (role : Role) :
    Prop := {
  adm_authentication : (allow range (remoteAddress request) (re_AuthenticationTime env) (s_authentication s)).1 = true;
  adm_principal : server_Authenticate request s = (principal, None);
  adm_role : server_Authorize (sq_Context request) principal role s = None;
  adm_mutation : (allow range (pr_ID principal) (re_MutationTime env) (s_mutations s)).1 = true
}.

Lemma authorized_cases role h env request id correlation (s : Server A Z' W) :
  let s' := (authorized render range role true h env request id correlation s).2 in
  s_services s' = s_services s
  ∨ ∃ principal, admitted env request s principal role
      ∧ s_services s' = (run render h env s (mkCall request id correlation principal) (s_services s)).2.
Proof.
  unfold authorized. destruct (allow range _ _ (s_authentication s)) as [allowed limiter] eqn:Ha.
  destruct allowed; [|by left]. cbn [negb].
  destruct (server_Authenticate request _) as [principal err] eqn:Hp. destruct err; [by left|].
  destruct (server_Authorize _ principal role _) eqn:Hz; [by left|]. cbv zeta.
  destruct (allow range (pr_ID principal) _ _) as [allowed limiter'] eqn:Hm.
  destruct allowed; [|by left]. cbn [negb]. right. exists principal. split.
  - split; [by rewrite Ha|done|done|]. simpl in Hm. by rewrite Hm.
  - unfold serve_handler. cbn [s_services set_mutations set_authentication].
    assert (run render h env (set_mutations limiter' (set_authentication limiter s))
      (mkCall request id correlation principal) (s_services s)
      = run render h env s (mkCall request id correlation principal) (s_services s)) as -> by (by destruct h).
    by destruct (run render h env s _ _).
Qed.

(** What a route that is not a mutation runs. *)
Lemma serve_handler_services h env c (s : Server A Z' W) :
  s_services (serve_handler render h env c s).2 = (run render h env s c (s_services s)).2.
Proof. unfold serve_handler. by destruct (run render h env s c (s_services s)). Qed.

Lemma authorized_reads role h env request id correlation (s : Server A Z' W) :
  (∀ (s0 : Server A Z' W) c w, (run render h env s0 c w).2 = w) →
  s_services (authorized render range role false h env request id correlation s).2 = s_services s.
Proof.
  intros Hrun. unfold authorized. destruct (allow range _ _ _) as [[|] limiter]; [|done].
  cbn [negb]. destruct (server_Authenticate request _) as [principal [err|]]; [done|].
  destruct (server_Authorize _ _ _ _); [done|]. cbv zeta. by rewrite serve_handler_services, Hrun.
Qed.

Lemma serve_route_cases env request correlation (s : Server A Z' W) :
  let s' := (serve_route render range env request correlation s).2 in
  s_services s' = s_services s
  ∨ ∃ role h values principal,
      mux_route routes request = Matched (guarded role true h) values ∧ admitted env request s principal role
      ∧ service_call env (s_maximumBodyBytes s) (mkCall request (default "" (head values)) correlation principal)
          (s_services s) h role (s_services s').
Proof.
  unfold serve_route. destruct (mux_route routes request) as [|route values| |] eqn:Hroute; [by left| |by left..].
  destruct (mux_route_in _ _ _ _ Hroute) as (p & Hin & _).
  assert (∀ (s0 : Server A Z' W) c w, (run render (rt_Handler route) env s0 c w).2 = w
    ∨ ∃ role, service_call env (s_maximumBodyBytes s0) c w (rt_Handler route) role
        (run render (rt_Handler route) env s0 c w).2 ∧ route = guarded role true (rt_Handler route)) as Hrun.
  { intros s0 c w. destruct (run_calls (rt_Handler route) env s0 c w) as [|[role Hcall]]; [by left|].
    right. exists role. split; [done|]. by eapply routes_guarded. }
  destruct route as [[[role mutation]|] h] eqn:Hr; cbn [rt_Guard rt_Handler] in *.
  - destruct mutation.
    + destruct (authorized_cases role h env request (default "" (head values)) correlation s) as [|(principal & Hadm & Hs)];
        [by left|]. cbv zeta in Hs.
      destruct (Hrun s (mkCall request (default "" (head values)) correlation principal) (s_services s))
        as [Hw|(role' & Hcall & [= <-])]; [left; by rewrite Hs|].
      right. exists role, h, values, principal. rewrite Hs. done.
    + left. apply authorized_reads. intros s0 c w. destruct (Hrun s0 c w) as [|(role' & _ & Hx)]; done.
  - left. rewrite serve_handler_services. edestruct Hrun as [Hw|(role' & _ & Hx)]; [exact Hw|done].
Qed.

Lemma withCorrelation_cases env request (s : Server A Z' W) :
  let s' := (withCorrelation render range env request s).2 in
  s_services s' = s_services s
  ∨ ∃ role h values principal correlation,
      mux_route routes request = Matched (guarded role true h) values ∧ admitted env request s principal role
      ∧ service_call env (s_maximumBodyBytes s) (mkCall request (default "" (head values)) correlation principal)
          (s_services s) h role (s_services s').
Proof.
  unfold withCorrelation. destruct (validateUUID _).
  - destruct (newUUID (re_Rand env)) as [generated [err|]]; [by left|].
    pose proof (serve_route_cases env request generated s) as Hr.
    destruct (serve_route render range env request generated s) as [reply s'].
    destruct Hr as [|(role & h & vs & p & Hr)]; [by left|right]. by exists role, h, vs, p, generated.
  - pose proof (serve_route_cases env request (Get (sq_Header request) correlationHeader) s) as Hr.
    destruct (serve_route render range env request _ s) as [reply s'].
    destruct Hr as [|(role & h & vs & p & Hr)]; [by left|right]. by eexists role, h, vs, p, _.
Qed.

(** C12: a request changes the services behind the API only when it matches
    the route of a command, an acknowledgement or a reload, the remote address
    is within the authentication limit, its credentials are accepted, the
    authenticated principal holds the role of that route, and the principal is
    within the mutation limit; the change is then exactly one call of the
    service: a command for the equipment of the path with the trimmed
    idempotency key of 1 to 128 characters, the principal as its requester and
    the decoded body, an acknowledgement with a reason at the current
    revision, or a reload. *)
Theorem api_acts_only_when_authorized env request (s : Server A Z' W) :
  let s' := (withCorrelation render range env request s).2 in
  s_services s' = s_services s
  ∨ ∃ role h values principal correlation,
      mux_route routes request = Matched (guarded role true h) values ∧ admitted env request s principal role
      ∧ service_call env (s_maximumBodyBytes s) (mkCall request (default "" (head values)) correlation principal)
          (s_services s) h role (s_services s').
Proof. apply withCorrelation_cases. Qed.
End safety.

(** ** Following the cursors *)

(** The same call with another cursor. *)
Definition with_cursor (cursor : string) (c : Call) : Call :=
  let r := ca_Request c in
  mkCall (mkServerRequest (sq_Method r) (sq_Host r) (sq_EscapedPath r) (sq_Path r) (("cursor", cursor) :: sq_Query r)
      (sq_Header r) (sq_Cookies r) (sq_RemoteAddr r) (sq_Body r) (sq_BodyError r) (sq_Context r))
    (ca_ID c) (ca_Correlation c) (ca_Principal c).

(** The items of the pages a client is given that starts at the first page and
    follows [nextCursor] until it is empty. *)
Fixpoint follow {A} (fuel : nat) (values : list A) (c : Call) (cursor : string) : option (list A) :=
  match fuel with
  | O => None
  | S fuel =>
      match page (with_cursor cursor c) values with
      | inl _ => None
      | inr (items, next) =>
          if bool_decide (next = "") then Some items
          else match follow fuel values c next with Some rest => Some (items ++ rest) | None => None end
      end
  end.

(** The limit a query asks for. *)
Definition page_limit (c : Call) (limit : Z) : Prop :=
  1 ≤ limit ≤ 200
  ∧ (if bool_decide (Get (sq_Query (ca_Request c)) "limit" = "") then limit = 100
     else Atoi (Get (sq_Query (ca_Request c)) "limit") = Some limit).

Lemma pagination_limit cursor c limit :
  page_limit c limit →
  pagination (with_cursor cursor c) =
    if bool_decide (cursor = "") then inr (0, limit)
    else match RawURL_DecodeString cursor with
         | Some decoded =>
             match Atoi decoded with
             | Some start =>
                 if start <? 0 then inl (refuse (with_cursor cursor c) 400 "invalid_cursor" "Invalid cursor" "cursor is malformed.")
                 else inr (start, limit)
             | None => inl (refuse (with_cursor cursor c) 400 "invalid_cursor" "Invalid cursor" "cursor is malformed.")
             end
         | None => inl (refuse (with_cursor cursor c) 400 "invalid_cursor" "Invalid cursor" "cursor is malformed.")
         end.
Proof.
  intros [Hrange Hlimit]. unfold pagination.
  change (Get (sq_Query (ca_Request (with_cursor cursor c))) "cursor") with cursor.
  change (Get (sq_Query (ca_Request (with_cursor cursor c))) "limit") with (Get (sq_Query (ca_Request c)) "limit").
  destruct (bool_decide (Get (sq_Query (ca_Request c)) "limit" = "")); [by subst|].
  rewrite Hlimit. by rewrite (proj2 (Z.ltb_ge _ _)), (proj2 (Z.ltb_ge _ _)) by lia.
Qed.

Lemma cursor_roundtrip c limit position :
  page_limit c limit → 0 ≤ position ≤ max_int64 →
  pagination (with_cursor (RawURL_EncodeToString (pretty position)) c) = inr (position, limit)
  ∧ RawURL_EncodeToString (pretty position) ≠ "".
Proof.
  intros Hl Hp. rewrite (pagination_limit _ _ limit) by done.
  assert (RawURL_EncodeToString (pretty position) ≠ "") as Hne.
  { intros He. pose proof (RawURL_roundtrip (pretty position)) as Hr. rewrite He in Hr.
    change (RawURL_DecodeString "") with (Some "") in Hr. injection Hr as Hr.
    pose proof (Atoi_pretty position Hp) as Ha. rewrite <- Hr in Ha. done. }
  rewrite bool_decide_eq_false_2, RawURL_roundtrip, Atoi_pretty by done.
  by rewrite (proj2 (Z.ltb_ge _ _)) by lia.
Qed.

Lemma page_at {A} c (values : list A) start limit :
  pagination c = inr (Z.of_nat start, limit) → 1 ≤ limit ≤ 200 → (start ≤ length values)%nat →
  Z.of_nat (length values) + 200 ≤ max_int64 →
  page c values = inr (take (Z.to_nat limit) (drop start values),
    if (start + Z.to_nat limit <? length values)%nat
    then RawURL_EncodeToString (pretty (Z.of_nat (start + Z.to_nat limit))) else "").
Proof.
  intros Hp Hl Hs Hmax. unfold page. rewrite Hp.
  rewrite (proj2 (Z.ltb_ge (Z.of_nat (length values)) (Z.of_nat start))) by lia.
  rewrite wrap_int64_id by (unfold in_int64, min_int64 in *; lia).
  destruct (Nat.ltb_spec (start + Z.to_nat limit) (length values)) as [Hlt|Hge].
  - rewrite (proj2 (Z.ltb_ge (Z.of_nat (length values)) (Z.of_nat start + limit))) by lia.
    rewrite (proj2 (Z.ltb_lt (Z.of_nat start + limit) (Z.of_nat (length values)))) by lia.
    do 2 f_equal; [|do 2 f_equal; lia]. rewrite Nat2Z.id. f_equal. lia.
  - rewrite Nat2Z.id. destruct (Z.ltb_spec (Z.of_nat (length values)) (Z.of_nat start + limit)).
    + rewrite Z.ltb_irrefl. do 2 f_equal. rewrite !take_ge by (rewrite length_drop; lia). done.
    + rewrite (proj2 (Z.ltb_ge (Z.of_nat start + limit) (Z.of_nat (length values)))) by lia.
      do 2 f_equal. f_equal. lia.
Qed.

Lemma follow_from {A} (values : list A) c limit fuel start cursor :
  page_limit c limit → Z.of_nat (length values) + 200 ≤ max_int64 → (start ≤ length values)%nat →
  pagination (with_cursor cursor c) = inr (Z.of_nat start, limit) → (length values - start < fuel)%nat →
  follow fuel values c cursor = Some (drop start values).
Proof.
  intros Hl Hmax. pose proof (proj1 Hl) as Hr. revert start cursor.
  induction fuel as [|fuel IH]; intros start cursor Hs Hp Hf; [lia|]. simpl.
  rewrite (page_at _ values start limit) by done.
  destruct (Nat.ltb_spec (start + Z.to_nat limit) (length values)) as [Hlt|Hge].
  - destruct (cursor_roundtrip c limit (Z.of_nat (start + Z.to_nat limit)) Hl) as [Hn Hne]; [lia|].
    rewrite bool_decide_eq_false_2 by done. rewrite (IH (start + Z.to_nat limit)%nat); [|lia|done|lia].
    rewrite <- (take_drop (Z.to_nat limit) (drop start values)) at 2. by rewrite drop_drop.
  - simpl. by rewrite take_ge by (rewrite length_drop; lia).
Qed.

(** C34: following [nextCursor] from the first page, with any accepted limit,
    yields every item of the list once and in order, in at most one page more
    than there are items; no page is refused on the way. *)
Theorem following_cursors_lists_all {A} (values : list A) c limit :
  page_limit c limit → Z.of_nat (length values) + 200 ≤ max_int64 →
  follow (S (length values)) values c "" = Some values.
Proof.
  intros Hl Hmax. rewrite (follow_from values c limit _ 0 ""); [done|done|done|lia| |lia].
  by rewrite (pagination_limit _ _ limit).
Qed.

(** ** Correlation *)
Section correlation.
Context {A Z' W : Type} `{!Authenticator A, !Authorizer Z'}.
Context `{!DeviceReader W, !SensorReader W, !EquipmentReader W, !StateReader W, !CommandService W, !AlarmService W}.
Context `{!ConfigurationService W, !HealthReporter W}.
Context `{!StrictDecoder commandRequest, !StrictDecoder acknowledgementRequest}.
Context `{!YAML, !URLParser, !NetParser, !MapRange, !PathUnescaper} (render : error → string).
Context (range : gmap string requestBucket → list (string * requestBucket)).

(** A reply that names no other correlation identifier. *)
Definition names (id : string) (r : Reply Body) : Prop :=
  first_value (rp_Header r) correlationHeader = None ∨ first_value (rp_Header r) correlationHeader = Some id.

Lemma names_refuse c status code title detail : names (ca_Correlation c) (refuse c status code title detail).
Proof. by right. Qed.
Lemma names_json id status body : names id (writeJSON status body).
Proof. by left. Qed.
Lemma names_problem request id status code title detail fields :
  names id (writeProblem request id status code title detail fields).
Proof. by right. Qed.
Lemma names_page {T} c (values : list T) reply : page c values = inl reply → names (ca_Correlation c) reply.
Proof.
  unfold page, pagination. intros Hp. repeat case_match; simplify_eq; apply names_refuse.
Qed.
Lemma names_decode {T} `{!StrictDecoder T} c limit reply :
  decodeJSON c render limit = inl reply → names (ca_Correlation c) reply.
Proof. unfold decodeJSON. intros Hd. repeat case_match; simplify_eq; apply names_refuse. Qed.
Lemma names_read c limit reply : readBody c render limit = inl reply → names (ca_Correlation c) reply.
Proof. unfold readBody. intros Hd. repeat case_match; simplify_eq; apply names_refuse. Qed.
#[local] Hint Resolve names_refuse names_json names_problem names_page names_decode names_read : core.

Lemma names_run h env (s : Server A Z' W) c w : names (ca_Correlation c) (run render h env s c w).1.
Proof.
  destruct h; unfold run, live, ready, details, system, listDevices, getDevice, getState, getSensorState,
    getEquipmentState, submitCommand, getCommand, listAlarms, ackAlarm, validateConfig, reloadConfig, diagnostics;
    repeat case_match; simpl;
    first [by eauto|apply names_refuse|apply names_json|match goal with Hd : decodeJSON _ _ _ = inl _ |- _ => exact (names_decode _ _ _ Hd) end].
Qed.

Lemma names_authorized role mutation h env request id correlation (s : Server A Z' W) :
  names correlation (authorized render range role mutation h env request id correlation s).1.
Proof.
  assert (∀ c (s0 : Server A Z' W), names (ca_Correlation c) (serve_handler render h env c s0).1) as Hh.
  { intros c s0. unfold serve_handler. pose proof (names_run h env s0 c (s_services s0)) as Hn.
    by destruct (run render h env s0 c (s_services s0)). }
  unfold authorized. repeat case_match; simpl; auto; try apply (Hh (mkCall request id correlation _)); by right.
Qed.

Lemma names_route env request correlation (s : Server A Z' W) :
  names correlation (serve_route render range env request correlation s).1.
Proof.
  unfold serve_route. destruct (mux_route routes request) as [|route values| |]; [by left| |by left..].
  destruct (rt_Guard route) as [[role mutation]|]; [apply names_authorized|].
  unfold serve_handler. set (c := mkCall _ _ _ _).
  pose proof (names_run (rt_Handler route) env s c (s_services s)) as Hn.
  by destruct (run render (rt_Handler route) env s c (s_services s)).
Qed.

Lemma first_value_app l k key :
  first_value (l ++ k) key = match first_value l key with Some v => Some v | None => first_value k key end.
Proof. induction l as [|[a v] l IH]; simpl; [done|]. by case_bool_decide. Qed.

Lemma names_next env request id (s : Server A Z' W) :
  Get (rp_Header (add_headers ((correlationHeader, id) :: response_headers)
    (serve_route render range env request id s).1)) correlationHeader = id.
Proof.
  unfold Get, add_headers. cbn [rp_Header]. rewrite first_value_app.
  by destruct (names_route env request id s) as [-> | ->].
Qed.

(** C35: the correlation identifier that the client reads in a reply of the
    API is the request's own wherever the code's validation accepts that one,
    unchanged. Where it does not, the reply carries an identifier generated
    from the sixteen random bytes that were drawn, which is the canonical text
    of a version-4 UUID: groups of 8, 4, 4, 4 and 12 lower-case hexadecimal
    digits, with the version and variant digits in their places. And where the
    randomness fails as well, no route is run: the reply is the error 500,
    without an identifier, and the server is as it was. *)
Theorem replies_carry_correlation env request (s : Server A Z' W) :
  let reply := (withCorrelation render range env request s).1 in
  let id := Get (rp_Header reply) correlationHeader in
  let given := Get (sq_Header request) correlationHeader in
  match validateUUID given, re_Rand env with
  | None, _ => id = given
  | Some _, inr value =>
      length value = 16%nat → Forall is_byte value →
      canonical_v4 id ∧ hex_DecodeString (strip_dashes (bytes_of id)) = Some (stamp_uuid value)
  | Some _, inl _ => rp_Status reply = 500 ∧ id = "" ∧ (withCorrelation render range env request s).2 = s
  end.
Proof.
  cbv zeta. unfold withCorrelation. destruct (validateUUID (Get (sq_Header request) correlationHeader)) eqn:Hg.
  - destruct (re_Rand env) as [err|value]; [done|]. intros Hlen Hb. cbn [newUUID].
    set (generated := string_of_list_ascii (uuid_text (stamp_uuid value))).
    pose proof (names_next env request generated s) as Hid.
    destruct (serve_route render range env request generated s). cbn [fst] in *. rewrite Hid.
    unfold generated. rewrite bytes_of_string_of.
    split; [by apply uuid_text_canonical|by apply uuid_text_decodes].
  - pose proof (names_next env request (Get (sq_Header request) correlationHeader) s) as Hid.
    destruct (serve_route render range env request _ s). by cbn [fst] in *.
Qed.
End correlation.
