(* ===== verification/ApiServices.v ===== *)
(** * The API over the control core

    The contracts of the operational API discharged by the registries, the
    state manager, the command service, the alarm manager and the
    configuration manager, as [internal/app/container.go] connects them, and
    what follows for a request that ends in a dispatched command. *)

From Stdlib Require Import ZArith Lia String.
From stdpp Require Import base gmap strings list.
From S2P Require Import Prelude Domain Health Events State Sensors EquipmentRegistry Equipment Safety Output Commands.
From S2P Require Import Alarms System Config ConfigManager HttpServer Access Api.
From S2P Require Devices.

(** The text of a query selects a status; none selects every alarm. *)
Definition status_filter (text : string) : option AlarmStatus :=
  if bool_decide (text = "") then None
  else Some (if bool_decide (text = "active") then AlarmActive
             else if bool_decide (text = "acknowledged") then AlarmAcked
             else if bool_decide (text = "cleared") then AlarmStatusCleared
             else AlarmStatusOther text).

Section services.
Context {X W L V : Type} `{!Executor X, !Publisher W, !JSON, !Marshaler Result, !Marshaler Alarm}.
Context `{!Loader L, !LogLevelSetter V, !Marshaler Config, !Marshaler (string * list Change), !Digester}.
Context `{!URLParser, !NetParser, !MapRange} (render : error → string).
Context (now : nat → Time).
Context (newCommandID : nat → CommandID * option error).
Context (newCorrelationID : nat → CorrelationID * option error).
Context (factory : nat → FactoryEnv).
(** What acknowledging and reloading read of the clock and the generator. *)
Context (ackNow : Time) (ackEnv reloadEnv : FactoryEnv).

Abbreviation Service := (@Output.Service SafetyPolicy (StateManager * Time) (Recording X) W).

(** The canonical state the API reads is the one the command service compares
    revisions with. *)
Record Services := mkServices {
  as_devices : Devices.Registry; as_sensors : SensorRegistry; as_equipment : EquipmentRegistry;
  as_commands : Service; as_alarms : @AlarmManager W; as_configuration : @ConfigManager L W V;
  as_health : HealthManager
}.
Definition as_state (w : Services) : StateManager * Time := sv_revisions (as_commands w).

Definition set_commands (s : Service) (w : Services) : Services :=
  mkServices (as_devices w) (as_sensors w) (as_equipment w) s (as_alarms w) (as_configuration w) (as_health w).
Definition set_alarms (m : AlarmManager) (w : Services) : Services :=
  mkServices (as_devices w) (as_sensors w) (as_equipment w) (as_commands w) m (as_configuration w) (as_health w).
Definition set_configuration (m : ConfigManager) (w : Services) : Services :=
  mkServices (as_devices w) (as_sensors w) (as_equipment w) (as_commands w) (as_alarms w) m (as_health w).

#[export] Instance Services_Devices : DeviceReader Services := {
  devices_Get ctx id w := Devices.Get ctx id (as_devices w); devices_List ctx w := Devices.List ctx (as_devices w) }.
#[export] Instance Services_Sensors : SensorReader Services := {
  sensors_Get ctx id w := SensorRegistry_Get ctx id (as_sensors w) }.
#[export] Instance Services_Equipment : EquipmentReader Services := {
  equipment_Get ctx id w := EquipmentRegistry_Get ctx id (as_equipment w) }.
#[export] Instance Services_State : StateReader Services := {
  state_Get ctx key w := StateManager_Get ctx (as_state w).2 key (as_state w).1;
  state_Snapshot ctx w := StateManager_Snapshot ctx (as_state w).2 (as_state w).1 }.
#[export] Instance Services_Commands : CommandService Services := {
  commands_Submit ctx command w :=
    let '(r, s) := Submit now newCommandID newCorrelationID factory ctx command (as_commands w) in (r, set_commands s w);
  commands_Get ctx id w := Service_Get ctx id (as_commands w) }.
#[export] Instance Services_Alarms : AlarmService Services := {
  alarms_List ctx status w := AlarmManager_List ctx (status_filter status) (as_alarms w);
  alarms_Acknowledge ctx id w :=
    let '(m, r) := Acknowledge ackNow ackEnv ctx id (as_alarms w) in (r, set_alarms m w) }.
#[export] Instance Services_Configuration : ConfigurationService Services := {
  configuration_Current w := Current (as_configuration w);
  configuration_Digest w := ConfigManager_Digest (as_configuration w);
  configuration_Plan candidate w := Plan render candidate (as_configuration w);
  configuration_Reload ctx w :=
    let '(err, m) := Reload render reloadEnv ctx (as_configuration w) in (err, set_configuration m w) }.
#[export] Instance Services_Health : HealthReporter Services := {
  health_Report now w := HealthManager_Report now (as_health w) }.

Context {A Z' : Type} `{!Authenticator A, !Authorizer Z'}.
Context `{!StrictDecoder commandRequest, !StrictDecoder acknowledgementRequest, !YAML, !PathUnescaper}.
Context (range : gmap string requestBucket → list (string * requestBucket)).

Abbreviation commands_of s := (as_commands (s_services s)).

(** A call that changes the command service is the submission. *)
Lemma service_call_commands env limit call (w w' : Services) h role :
  service_call env limit call w h role w' →
  as_commands w' = as_commands w
  ∨ ∃ key body, h = HSubmitCommand ∧ role = RoleOperator
      ∧ key = TrimSpace (Get (sq_Header (ca_Request call)) "Idempotency-Key")
      ∧ validateUUID (ca_ID call) = None ∧ decode_body limit (ca_Request call) = One body
      ∧ as_commands w' = (Submit now newCommandID newCorrelationID factory (call_ctx call)
          (requested env call key body) (as_commands w)).2.
Proof.
  intros Hcall. destruct Hcall as [key body Hkey _ _ Hid Hbody|body snapshot Hbody|].
  - right. exists key, body. split_and!; try done. simpl. by destruct (Submit _ _ _ _ _ _ _).
  - left. simpl. by destruct (Acknowledge _ _ _ _ _).
  - left. simpl. by destruct (Reload _ _ _ _).
Qed.

(** C3: a command that asks for power and that an HTTP request newly hands to
    the executor comes from an authenticated operator within both rate limits,
    who is its requester, is for the equipment of the path with the content of
    the request, and satisfies the safety engine at submission: known
    equipment, unexpired, no emergency stop, an override where the mode needs
    one, within its on and off times, with good and unexpired required inputs,
    and at its expected revision. *)
Theorem api_dispatches_safely env request (s : Server A Z' Services) c :
  let s' := (withCorrelation render range env request s).2 in
  c ∈ dispatched (commands_of s') → c ∉ dispatched (commands_of s) → c_On c = true →
  power_permitted now (commands_of s) c
  ∧ ∃ principal key values body,
      admitted range env request s principal RoleOperator
      ∧ mux_route routes request = Matched (guarded RoleOperator true HSubmitCommand) values
      ∧ decode_body (s_maximumBodyBytes s) request = One body
      ∧ c_Requester c = pr_ID principal ∧ head values = Some (c_EquipmentID c)
      ∧ key = TrimSpace (Get (sq_Header request) "Idempotency-Key") ∧ c_IdempotencyKey c = key
      ∧ c_ExpiresAt c = cr_ExpiresAt body ∧ c_ExpectedRevision c = cr_ExpectedRevision body ∧ cr_On body = true.
Proof.
  intros s' Hin Hnot Hon.
  destruct (withCorrelation_cases render range env request s)
    as [Hs|(role & h & values & principal & correlation & Hroute & Hadm & Hcall)].
  { exfalso. apply Hnot. unfold s' in Hin. by rewrite Hs in Hin. }
  destruct (service_call_commands _ _ _ _ _ _ _ Hcall) as [Hs|(key & body & -> & -> & Hkey & Hid & Hbody & Hs)].
  { exfalso. apply Hnot. unfold s' in Hin. by rewrite Hs in Hin. }
  set (call := mkCall request (default "" (head values)) correlation principal) in *.
  unfold s' in Hin. rewrite Hs in Hin. split; [by eapply submission_permitted|].
  exists principal, key, values, body.
  pose proof (dispatch_cases now newCommandID newCorrelationID factory (call_ctx call) (requested env call key body)
    (commands_of s)) as Hd.
  destruct (Submit _ _ _ _ _ _ _) as [[r err] sv]. simpl in Hin.
  destruct Hd as [Hd|(c' & k & Hd & Hf & _)]; [by rewrite Hd in Hin|].
  rewrite Hd in Hin. apply elem_of_app in Hin as [Hin| ->%list_elem_of_singleton]; [done|].
  destruct Hf as [Hf _ _]. rewrite Hf in Hon |- *. simpl in Hon. simpl in Hid.
  destruct values as [|v values]; [by vm_compute in Hid|]. done.
Qed.
End services.
