(* ===== verification/Admin.v ===== *)
(** * The administration server: [internal/admin/server.go]

    The recovery and deployment interface: its routes, authentication by token,
    session cookie or trusted ingress, the rate limits and the origin check
    before each handler, and the handlers over the operations service,
    discovery, the runtime's health and the Home Assistant registry. *)

From Stdlib Require Import ZArith Lia String Ascii.
From stdpp Require Import base gmap strings list pretty.
From S2P Require Import Prelude Domain Health Events Topics Config Operations HomeRegistry Discovery Encoding HttpServer.
From S2P Require Import Access.

(** ** Contracts *)
Class AdminOperations (W : Type) := {
  op_GetStatus : Context → Actor → W → (OpStatus * option error) * W;
  op_GetConfiguration : Context → Actor → W → (error + Config) * W;
  op_Verify : Context → Actor → W → (Diagnostics * option error) * W;
  op_Repair : Context → Actor → bool → W → (OpResult * option error) * W;
  op_Install : Context → InstallRequest → W → (OpResult * option error) * W;
  op_Upgrade : Context → UpgradeRequest → W → (OpResult * option error) * W;
  op_Rollback : Context → Actor → bool → W → (OpResult * option error) * W;
  op_Backup : Context → Actor → W → (error + string) * W;
  op_Restore : Context → Actor → string → bool → W → (OpResult * option error) * W;
  op_Uninstall : Context → Actor → bool → bool → W → (OpResult * option error) * W;
  op_ValidateConfiguration : Context → Actor → string → W → (ConfigurationResult * option error) * W;
  op_ApplyConfiguration : Context → Actor → string → bool → W → (ConfigurationResult * option error) * W
}.
Class ProbeService (W : Type) := { service_Probe : Context → list Candidate → W → (error + list Discovered) * W }.
(** The report is passed on as it is encoded. *)
Class RuntimeHealth (W : Type) := { runtime_Report : Context → W → (error + string) * W }.
Class RegistryReader (W : Type) := { registry_Devices : Context → W → (error + list RegistryDevice) * W }.

(** [net.ParseCIDR], and whether a network contains the address a text names. *)
Class Networks := { Network : Type; ParseCIDR : string → option Network; Contains : Network → string → bool }.
(** HMAC-SHA256 of a message under a key, in hexadecimal. *)
Class Macs := { hmac_sha256_hex : string → string → string }.
(** [yaml.Marshal] of a configuration. *)
Class YAMLWriter := { yaml_Marshal : Config → error + string }.
(** The embedded files, by path: status and content. *)
Class Assets := { asset : string → Z * string }.

(** ** Configuration *)
Record AdminConfig := mkAdminConfig {
  ad_Address : string; ad_Token : string; ad_MaximumRequestBytes : Z; ad_ShutdownTimeout : Duration;
  ad_AuthenticationRate : Z; ad_AuthenticationBurst : Z; ad_MutationRate : Z; ad_MutationBurst : Z;
  ad_TLSCertificateFile : string; ad_TLSKeyFile : string; ad_TrustedIngress : bool; ad_TrustedIngressCIDR : string
}.

Record editableConfiguration := mkEditable {
  ed_Configuration : Config; ed_HTTPBearerTokenFile : string; ed_InfluxDBTokenFile : string
}.

(** ** Bodies *)
Inductive AdminBody :=
| AdminAlive
| AdminEmpty
| AdminStatus (status : OpStatus)
| AdminUnreachable
| AdminRuntime (report : string)
| AdminEditable (configuration : editableConfiguration)
| AdminProbe (results : list Discovered)
| AdminDevices (devices : list RegistryDevice)
| AdminDiagnostics (diagnostics : Diagnostics)
| AdminResult (result : OpResult)
| AdminConfiguration (result : ConfigurationResult)
| AdminBackup (payload : string)
| AdminProblem (type : string) (status : Z) (code detail : string)
| AdminFile (content : string)
| AdminText (text : string).

Definition admin_writeJSON (status : Z) (value : AdminBody) : Reply AdminBody :=
  mkReply status [("Content-Type", "application/json; charset=utf-8")] value.
Definition admin_writeProblem (status : Z) (code detail : string) : Reply AdminBody :=
  mkReply status [("Content-Type", "application/problem+json")]
    (AdminProblem ("https://aquaos.dev/problems/" +:+ code) status code detail).
Definition no_content : Reply AdminBody := mkReply 204 [] AdminEmpty.
Definition operationFailed : Reply AdminBody :=
  admin_writeProblem 400 "operation_failed"
    "The requested operation was rejected. Review server diagnostics for details.".
Definition respond {A} (body : A → AdminBody) (value : A) (err : option error) : Reply AdminBody :=
  match err with Some _ => operationFailed | None => admin_writeJSON 200 (body value) end.

(** ** The server *)
Section server.
Context `{!Networks, !Macs}.

(** Optional capabilities are there or not. *)
Record AdminServer (W : Type) := mkAdminServer {
  a_cfg : AdminConfig; a_listening : Listening; a_authentication : requestLimiter; a_mutations : requestLimiter;
  a_discovery : bool; a_runtimeHealth : bool; a_homeAssistant : bool; a_sessionToken : string;
  a_secureCookie : bool; a_trustedIngress : option Network; a_services : W
}.

Inductive AdminOption := WithDiscovery | WithRuntimeHealth | WithHomeAssistantRegistry.

Definition session_message : string := "aquaos-admin-browser-session-v1".

(** [service] and [logger] say that they are there; reading the embedded files
    does not fail. *)
Definition Admin_New {W} (cfg : AdminConfig) (service logger : bool) (options : list AdminOption) (services : W) :
    AdminServer W + error :=
  when bool_decide (ad_Address cfg = "")
       || (negb (ad_TrustedIngress cfg) && (String.length (ad_Token cfg) <? 32)%nat)
       || (ad_MaximumRequestBytes cfg <? 1024) || (64 * 1024 * 1024 <? ad_MaximumRequestBytes cfg)
       || (ad_ShutdownTimeout cfg <=? 0) || (ad_AuthenticationRate cfg <? 1) || (ad_AuthenticationBurst cfg <? 1)
       || (ad_MutationRate cfg <? 1) || (ad_MutationBurst cfg <? 1) yield
    inr (ErrNew "admin listener, token, and safe bounds are required");;
  when negb service || negb logger yield inr (ErrNew "admin operations and logger are required");;
  when negb (Bool.eqb (bool_decide (ad_TLSCertificateFile cfg = "")) (bool_decide (ad_TLSKeyFile cfg = ""))) yield
    inr (ErrNew "admin TLS certificate and key must be supplied together");;
  let build network :=
    let secret := if ad_TrustedIngress cfg then "home-assistant-ingress" else ad_Token cfg in
    inl (mkAdminServer W cfg (mkListening false None false)
      (newRequestLimiter (ad_AuthenticationRate cfg) (ad_AuthenticationBurst cfg) 1024)
      (newRequestLimiter (ad_MutationRate cfg) (ad_MutationBurst cfg) 1024)
      (existsb (fun o => match o with WithDiscovery => true | _ => false end) options)
      (existsb (fun o => match o with WithRuntimeHealth => true | _ => false end) options)
      (existsb (fun o => match o with WithHomeAssistantRegistry => true | _ => false end) options)
      (hmac_sha256_hex secret session_message) (negb (bool_decide (ad_TLSCertificateFile cfg = ""))) network services) in
  if ad_TrustedIngress cfg then
    match ParseCIDR (ad_TrustedIngressCIDR cfg) with
    | None => inr (ErrNew "trusted ingress requires an explicit proxy CIDR")
    | Some network => build (Some network)
    end
  else build None.
End server.
Arguments mkAdminServer {_ W} _ _ _ _ _ _ _ _ _ _ _.
Arguments a_cfg {_ W} _.
Arguments a_listening {_ W} _.
Arguments a_authentication {_ W} _.
Arguments a_mutations {_ W} _.
Arguments a_discovery {_ W} _.
Arguments a_runtimeHealth {_ W} _.
Arguments a_homeAssistant {_ W} _.
Arguments a_sessionToken {_ W} _.
Arguments a_secureCookie {_ W} _.
Arguments a_trustedIngress {_ W} _.
Arguments a_services {_ W} _.

Definition admin_set_services `{!Networks} {W} (w : W) (s : AdminServer W) : AdminServer W :=
  mkAdminServer (a_cfg s) (a_listening s) (a_authentication s) (a_mutations s) (a_discovery s) (a_runtimeHealth s)
    (a_homeAssistant s) (a_sessionToken s) (a_secureCookie s) (a_trustedIngress s) w.
Definition admin_set_limiters `{!Networks} {W} (authentication mutations : requestLimiter) (s : AdminServer W) :
    AdminServer W :=
  mkAdminServer (a_cfg s) (a_listening s) authentication mutations (a_discovery s) (a_runtimeHealth s)
    (a_homeAssistant s) (a_sessionToken s) (a_secureCookie s) (a_trustedIngress s) (a_services s).
Definition admin_set_listening `{!Networks} {W} (l : Listening) (s : AdminServer W) : AdminServer W :=
  mkAdminServer (a_cfg s) l (a_authentication s) (a_mutations s) (a_discovery s) (a_runtimeHealth s)
    (a_homeAssistant s) (a_sessionToken s) (a_secureCookie s) (a_trustedIngress s) (a_services s).

(** ** Authentication and sessions *)
Definition adminSessionCookie : string := "aquaos_admin_session".

(** [subtle.ConstantTimeCompare] behind a comparison of lengths. *)
Definition same_secret (provided expected : string) : bool :=
  (String.length provided =? String.length expected)%nat && bool_decide (provided = expected).

Definition provided_token (r : ServerRequest) : string :=
  TrimSpace (TrimPrefix "Bearer " (Get (sq_Header r) "Authorization")).

(** [http.SetCookie]: the attributes of the session cookie. *)
Definition set_cookie (value : string) (maxAge : Z) (secure : bool) : string * string :=
  ("Set-Cookie", adminSessionCookie +:+ "=" +:+ value +:+ "; Path=/; Max-Age=" +:+ pretty maxAge +:+ "; HttpOnly"
     +:+ (if secure then "; Secure" else "") +:+ "; SameSite=Strict").

Section sessions.
Context `{!Networks, !NetParser} {W : Type}.
Context (range : gmap string requestBucket → list (string * requestBucket)).

Definition authenticated (r : ServerRequest) (s : AdminServer W) : bool :=
  if ad_TrustedIngress (a_cfg s) then
    match SplitHost (sq_RemoteAddr r), a_trustedIngress s with
    | Some host, Some network => Contains network host
    | _, _ => false
    end
  else
    when same_secret (provided_token r) (ad_Token (a_cfg s)) yield true;;
    match first_value (sq_Cookies r) adminSessionCookie with
    | Some value => same_secret value (a_sessionToken s)
    | None => false
    end.

Definition admin_rate_limited (detail : string) : Reply AdminBody :=
  add_headers [("Retry-After", "1")] (admin_writeProblem 429 "rate_limited" detail).

Definition createSession (now : Time) (r : ServerRequest) (s : AdminServer W) : Reply AdminBody * AdminServer W :=
  if ad_TrustedIngress (a_cfg s) then
    when negb (authenticated r s) yield
      (admin_writeProblem 401 "authentication_required" "The request did not arrive through Home Assistant Ingress.", s);;
    (no_content, s)
  else
    let '(allowed, limiter) := limiter_allow range (remoteKey r) now (a_authentication s) in
    let s := admin_set_limiters limiter (a_mutations s) s in
    when negb allowed yield (admin_rate_limited "Authentication rate limit exceeded.", s);;
    when negb (same_secret (provided_token r) (ad_Token (a_cfg s))) yield
      (admin_writeProblem 401 "authentication_required" "Valid pairing credentials are required.", s);;
    (mkReply 204 [set_cookie (a_sessionToken s) (365 * 24 * 60 * 60) (a_secureCookie s)] AdminEmpty, s).

Definition sessionStatus (r : ServerRequest) (s : AdminServer W) : Reply AdminBody :=
  when negb (authenticated r s) yield mkReply 401 [] AdminEmpty;;
  mkReply 204 (if ad_TrustedIngress (a_cfg s) then [("X-AquaOS-Authentication", "home-assistant-ingress")] else [])
    AdminEmpty.

Definition deleteSession (s : AdminServer W) : Reply AdminBody :=
  mkReply 204 [set_cookie "" 0 (a_secureCookie s)] AdminEmpty.
End sessions.

(** ** Handlers *)
Definition actor : Actor := mkActor "admin-gui" true.

Record installRequest := mkInstallBody {
  in_Version : string; in_Binary : string; in_SHA256 : string; in_Signature : string; in_PublicKey : string;
  in_Configuration : string; in_ControlVMAcknowledged : bool; in_DryRun : bool
}.
Record upgradeRequest := mkUpgradeBody {
  up_Version : string; up_Binary : string; up_SHA256 : string; up_Signature : string; up_PublicKey : string;
  up_DryRun : bool
}.
Record dryRunRequest := mkDryRun { dr_DryRun : bool }.
Record uninstallRequest := mkUninstallBody { un_PreserveData : bool; un_DryRun : bool }.
Record probeRequest := mkProbeBody { pq_Candidates : list Candidate }.

Definition text_of_bytes (bs : list Z) : string := string_of_list_ascii ((fun b => ascii_of_nat (Z.to_nat b)) <$> bs).
(** [hex.DecodeString], of a given size. *)
Definition hex_sized (size : nat) (s : string) : option string :=
  match hex_DecodeString (bytes_of s) with
  | Some bs => if (length bs =? size)%nat then Some (text_of_bytes bs) else None
  | None => None
  end.

Definition decodeArtifact (binaryValue signatureValue keyValue configurationValue : string) :
    string + (string * string * string * string) :=
  match Std_DecodeString binaryValue with
  | None => inl "binaryBase64 is invalid"
  | Some binary =>
      match hex_sized 64 signatureValue with
      | None => inl "signatureHex is invalid"
      | Some signature =>
          match hex_sized 32 keyValue with
          | None => inl "publicKeyHex is invalid"
          | Some key =>
              if bool_decide (configurationValue = "") then inr (binary, signature, key, "")
              else match Std_DecodeString configurationValue with
                   | None => inl "configurationBase64 is invalid"
                   | Some configuration => inr (binary, signature, key, configuration)
                   end
          end
      end
  end.

Definition with_token_files (bearer influx : string) (c : Config) : Config :=
  let h := cf_HTTP c in
  let i := cf_Storage c in
  mkConfig (cf_SchemaVersion c) (cf_Application c)
    (mkHTTP (ht_Address h) (ht_ReadTimeout h) (ht_WriteTimeout h) (ht_IdleTimeout h) bearer (ht_MaximumRequestBytes h)
       (ht_MutationRate h) (ht_MutationBurst h))
    (cf_MQTT c) (cf_SimulatorEnabled c) (cf_Adapters c) (cf_Bench c)
    (mkInfluxDB (ix_Enabled i) (ix_URL i) (ix_Organization i) (ix_Bucket i) influx (ix_QueueCapacity i) (ix_BatchSize i)
       (ix_FlushInterval i) (ix_RetryMinimum i) (ix_RetryMaximum i) (ix_WriteTimeout i))
    (cf_Inventory c) (cf_AlarmRules c) (cf_Backups c).

Section handlers.
Context `{!Networks} {W : Type}.
Context `{!AdminOperations W, !ProbeService W, !RuntimeHealth W, !RegistryReader W, !YAMLWriter}.
Context `{!StrictDecoder installRequest, !StrictDecoder upgradeRequest, !StrictDecoder dryRunRequest}.
Context `{!StrictDecoder uninstallRequest, !StrictDecoder probeRequest, !StrictDecoder editableConfiguration}.
Context (render : error → string) (s : AdminServer W) (r : ServerRequest) (w : W).

Definition request_ctx : Context := sq_Context r.

Definition decode {A} `{!StrictDecoder A} : Reply AdminBody + A :=
  match decode_body (ad_MaximumRequestBytes (a_cfg s)) r with
  | NotJSON _ => inl (admin_writeProblem 400 "invalid_request" "Request JSON is invalid.")
  | ManyValues => inl (admin_writeProblem 400 "invalid_request" "Only one JSON value is allowed.")
  | One a => inr a
  end.

(** What both uses of [io.LimitReader] accept. *)
Definition limited_payload : option string :=
  match read_at_most (ad_MaximumRequestBytes (a_cfg s)) r with inr (Some payload) => Some payload | _ => None end.
Definition readPayload : Reply AdminBody + string :=
  match limited_payload with
  | Some payload => inr payload
  | None => inl (admin_writeProblem 400 "invalid_payload" "Payload exceeds the configured limit.")
  end.
Definition dry_run_query : bool := bool_decide (Get (sq_Query r) "dryRun" = "true").

(** A reply to the result of an operation. *)
Definition answer {A} (body : A → AdminBody) (result : (A * option error) * W) : Reply AdminBody * W :=
  let '((value, err), w) := result in (respond body value err, w).

Definition status : Reply AdminBody * W := answer AdminStatus (op_GetStatus request_ctx actor w).

Definition runtime : Reply AdminBody * W :=
  when negb (a_runtimeHealth s) yield
    (admin_writeProblem 503 "runtime_unavailable" "AquaOS Core status is unavailable.", w);;
  let '(value, w) := runtime_Report request_ctx w in
  match value with
  | inl _ => (admin_writeJSON 200 AdminUnreachable, w)
  | inr value => (respond AdminRuntime value None, w)
  end.

Definition configuration : Reply AdminBody * W :=
  let '(value, w) := op_GetConfiguration request_ctx actor w in
  match value with
  | inl _ => (operationFailed, w)
  | inr value =>
      (respond AdminEditable (mkEditable value (ht_BearerTokenFile (cf_HTTP value)) (ix_TokenFile (cf_Storage value))) None,
       w)
  end.

Definition admin_probe : Reply AdminBody * W :=
  when negb (a_discovery s) yield
    (admin_writeProblem 503 "discovery_unavailable" "Device discovery is not enabled.", w);;
  match decode (A := probeRequest) with
  | inl reply => (reply, w)
  | inr request =>
      let '(value, w) := service_Probe request_ctx (pq_Candidates request) w in
      match value with
      | inl _ => (operationFailed, w)
      | inr results => (respond AdminProbe results None, w)
      end
  end.

Definition homeAssistantDevices : Reply AdminBody * W :=
  when negb (a_homeAssistant s) yield
    (admin_writeProblem 503 "home_assistant_unavailable" "Home Assistant inventory is not available in this deployment.",
     w);;
  let '(value, w) := registry_Devices request_ctx w in
  match value with
  | inl err => (admin_writeProblem 400 "home_assistant_inventory_failed" (render err), w)
  | inr devices => (admin_writeJSON 200 (AdminDevices devices), w)
  end.

(** The token files a browser is shown are not part of the encoded
    configuration, so they are put back. *)
Definition edited (request : editableConfiguration) : Config :=
  with_token_files (ed_HTTPBearerTokenFile request) (ed_InfluxDBTokenFile request) (ed_Configuration request).

Definition processEditableConfiguration (apply : bool) : Reply AdminBody * W :=
  match decode (A := editableConfiguration) with
  | inl reply => (reply, w)
  | inr request =>
      match yaml_Marshal (edited request) with
      | inl _ => (admin_writeProblem 400 "invalid_configuration" "Configuration could not be encoded.", w)
      | inr payload =>
          if apply then answer AdminConfiguration (op_ApplyConfiguration request_ctx actor payload false w)
          else answer AdminConfiguration (op_ValidateConfiguration request_ctx actor payload w)
      end
  end.

(** Failed checks are still shown. *)
Definition verify : Reply AdminBody * W :=
  let '((value, err), w) := op_Verify request_ctx actor w in
  when negb (bool_decide (err = None)) && negb (bool_decide (dg_Checks value = ∅)) yield
    (admin_writeJSON 200 (AdminDiagnostics value), w);;
  (respond AdminDiagnostics value err, w).

Definition repair : Reply AdminBody * W :=
  match decode (A := dryRunRequest) with
  | inl reply => (reply, w)
  | inr request => answer AdminResult (op_Repair request_ctx actor (dr_DryRun request) w)
  end.
Definition rollback : Reply AdminBody * W :=
  match decode (A := dryRunRequest) with
  | inl reply => (reply, w)
  | inr request => answer AdminResult (op_Rollback request_ctx actor (dr_DryRun request) w)
  end.

Definition install : Reply AdminBody * W :=
  match decode (A := installRequest) with
  | inl reply => (reply, w)
  | inr request =>
      match decodeArtifact (in_Binary request) (in_Signature request) (in_PublicKey request) (in_Configuration request) with
      | inl detail => (admin_writeProblem 400 "invalid_artifact" detail, w)
      | inr (binary, signature, key, configuration) =>
          answer AdminResult (op_Install request_ctx
            (mkInstallRequest actor (in_Version request) binary (in_SHA256 request) signature key configuration
               (in_ControlVMAcknowledged request) (in_DryRun request)) w)
      end
  end.

Definition upgrade : Reply AdminBody * W :=
  match decode (A := upgradeRequest) with
  | inl reply => (reply, w)
  | inr request =>
      match decodeArtifact (up_Binary request) (up_Signature request) (up_PublicKey request) "" with
      | inl detail => (admin_writeProblem 400 "invalid_artifact" detail, w)
      | inr (binary, signature, key, _) =>
          answer AdminResult (op_Upgrade request_ctx
            (mkUpgradeRequest actor (up_Version request) binary (up_SHA256 request) signature key (up_DryRun request)) w)
      end
  end.

Definition backup : Reply AdminBody * W :=
  let '(payload, w) := op_Backup request_ctx actor w in
  match payload with
  | inl _ => (operationFailed, w)
  | inr payload =>
      (mkReply 200 [("Content-Disposition", "attachment; filename=aquaos-backup.zip"); ("Content-Type", "application/zip")]
         (AdminBackup payload), w)
  end.

Definition restore : Reply AdminBody * W :=
  match limited_payload with
  | None => (admin_writeProblem 400 "invalid_backup" "Backup exceeds the configured limit.", w)
  | Some payload => answer AdminResult (op_Restore request_ctx actor payload dry_run_query w)
  end.

Definition uninstall : Reply AdminBody * W :=
  match decode (A := uninstallRequest) with
  | inl reply => (reply, w)
  | inr request =>
      answer AdminResult (op_Uninstall request_ctx actor (un_PreserveData request) (un_DryRun request) w)
  end.

Definition validateConfiguration : Reply AdminBody * W :=
  match readPayload with
  | inl reply => (reply, w)
  | inr payload => answer AdminConfiguration (op_ValidateConfiguration request_ctx actor payload w)
  end.
Definition applyConfiguration : Reply AdminBody * W :=
  match readPayload with
  | inl reply => (reply, w)
  | inr payload => answer AdminConfiguration (op_ApplyConfiguration request_ctx actor payload dry_run_query w)
  end.
End handlers.

(** ** Routes *)
Inductive AdminHandler :=
| AStatus | AConfiguration | ARuntime | AEditable (apply : bool) | AProbe | AHomeAssistantDevices | AVerify | ARepair
| AInstall | AUpgrade | ARollback | ABackup | ARestore | AUninstall | AValidateConfiguration | AApplyConfiguration
| ADeleteSession.
Inductive AdminRoute := RLive | RFiles (prefix : string) | RCreateSession | RSessionStatus | RGuarded (h : AdminHandler).

Definition on_exact (method : string) (path : list string) : pattern := mkPattern method (Lit <$> path) false.
Definition admin_routes : list (pattern * AdminRoute) := [
  (on_exact "GET" ["health"; "live"], RLive);
  (mkPattern "GET" [Lit "admin"] true, RFiles "/admin/");
  (on_exact "POST" ["api"; "session"], RCreateSession);
  (on_exact "GET" ["api"; "session"], RSessionStatus);
  (on_exact "DELETE" ["api"; "session"], RGuarded ADeleteSession);
  (on_exact "GET" ["api"; "status"], RGuarded AStatus);
  (on_exact "GET" ["api"; "config"], RGuarded AConfiguration);
  (on_exact "GET" ["api"; "runtime"], RGuarded ARuntime);
  (on_exact "POST" ["api"; "config"; "editable"; "validate"], RGuarded (AEditable false));
  (on_exact "POST" ["api"; "config"; "editable"; "apply"], RGuarded (AEditable true));
  (on_exact "POST" ["api"; "discovery"; "probe"], RGuarded AProbe);
  (on_exact "GET" ["api"; "home-assistant"; "devices"], RGuarded AHomeAssistantDevices);
  (on_exact "POST" ["api"; "verify"], RGuarded AVerify);
  (on_exact "POST" ["api"; "repair"], RGuarded ARepair);
  (on_exact "POST" ["api"; "install"], RGuarded AInstall);
  (on_exact "POST" ["api"; "upgrade"], RGuarded AUpgrade);
  (on_exact "POST" ["api"; "rollback"], RGuarded ARollback);
  (on_exact "GET" ["api"; "backup"], RGuarded ABackup);
  (on_exact "POST" ["api"; "restore"], RGuarded ARestore);
  (on_exact "POST" ["api"; "uninstall"], RGuarded AUninstall);
  (on_exact "POST" ["api"; "config"; "validate"], RGuarded AValidateConfiguration);
  (on_exact "POST" ["api"; "config"; "apply"], RGuarded AApplyConfiguration);
  (mkPattern "GET" [] true, RFiles "/")].

(** The clocks a request reads. *)
Record AdminEnv := mkAdminEnv { ae_AuthenticationTime : Time; ae_MutationTime : Time }.

Section serving.
Context `{!Networks, !NetParser, !Assets, !PathUnescaper} {W : Type}.
Context `{!AdminOperations W, !ProbeService W, !RuntimeHealth W, !RegistryReader W, !YAMLWriter}.
Context `{!StrictDecoder installRequest, !StrictDecoder upgradeRequest, !StrictDecoder dryRunRequest}.
Context `{!StrictDecoder uninstallRequest, !StrictDecoder probeRequest, !StrictDecoder editableConfiguration}.
Context (render : error → string) (range : gmap string requestBucket → list (string * requestBucket)).

Definition admin_run (h : AdminHandler) (s : AdminServer W) (r : ServerRequest) (w : W) : Reply AdminBody * W :=
  match h with
  | AStatus => status r w
  | AConfiguration => configuration r w
  | ARuntime => runtime s r w
  | AEditable apply => processEditableConfiguration s r w apply
  | AProbe => admin_probe s r w
  | AHomeAssistantDevices => homeAssistantDevices render s r w
  | AVerify => verify r w
  | ARepair => repair s r w
  | AInstall => install s r w
  | AUpgrade => upgrade s r w
  | ARollback => rollback s r w
  | ABackup => backup r w
  | ARestore => restore s r w
  | AUninstall => uninstall s r w
  | AValidateConfiguration => validateConfiguration s r w
  | AApplyConfiguration => applyConfiguration s r w
  | ADeleteSession => (deleteSession s, w)
  end.

Definition reading_method (r : ServerRequest) : bool :=
  bool_decide (sq_Method r = "GET") || bool_decide (sq_Method r = "HEAD").

Definition admin_handle (h : AdminHandler) (r : ServerRequest) (s : AdminServer W) : Reply AdminBody * AdminServer W :=
  let '(reply, w) := admin_run h s r (a_services s) in (reply, admin_set_services w s).

Definition admin_authorize (h : AdminHandler) (env : AdminEnv) (r : ServerRequest) (s : AdminServer W) :
    Reply AdminBody * AdminServer W :=
  let key := remoteKey r in
  let '(allowed, limiter) := limiter_allow range key (ae_AuthenticationTime env) (a_authentication s) in
  let s := admin_set_limiters limiter (a_mutations s) s in
  when negb allowed yield (admin_rate_limited "Authentication rate limit exceeded.", s);;
  when negb (authenticated r s) yield
    (admin_writeProblem 401 "authentication_required" "Valid bearer credentials are required.", s);;
  if reading_method r then admin_handle h r s
  else
    let '(allowed, limiter) := limiter_allow range key (ae_MutationTime env) (a_mutations s) in
    let s := admin_set_limiters (a_authentication s) limiter s in
    when negb allowed yield (admin_rate_limited "Mutation rate limit exceeded.", s);;
    admin_handle h r s.

Definition file_reply (prefix : string) (r : ServerRequest) : Reply AdminBody :=
  let '(status, content) := asset (TrimPrefix prefix (sq_Path r)) in mkReply status [] (AdminFile content).
Definition text_reply (status : Z) (text : string) : Reply AdminBody := mkReply status [] (AdminText text).

Definition admin_serve (env : AdminEnv) (r : ServerRequest) (s : AdminServer W) : Reply AdminBody * AdminServer W :=
  match mux_route admin_routes r with
  | Redirected => (text_reply 301 "", s)
  | MethodNotAllowed => (text_reply 405 "Method Not Allowed", s)
  | NoRoute => (text_reply 404 "404 page not found", s)
  | Matched RLive _ => (admin_writeJSON 200 AdminAlive, s)
  | Matched (RFiles prefix) _ => (file_reply prefix r, s)
  | Matched RCreateSession _ => createSession range (ae_AuthenticationTime env) r s
  | Matched RSessionStatus _ => (sessionStatus r s, s)
  | Matched (RGuarded h) _ => admin_authorize h env r s
  end.

Definition content_policy (ancestors : string) : string :=
  "default-src 'self'; script-src 'self'; style-src 'self'; object-src 'none'; base-uri 'none'; frame-ancestors "
    +:+ ancestors.
Definition security_headers (s : AdminServer W) : list (string * string) :=
  (if ad_TrustedIngress (a_cfg s) then [] else [("X-Frame-Options", "DENY")])
  ++ [("X-Content-Type-Options", "nosniff"); ("Referrer-Policy", "no-referrer");
      ("Content-Security-Policy", content_policy (if ad_TrustedIngress (a_cfg s) then "'self'" else "'none'"));
      ("Cache-Control", "no-store")].

(** A browser request from another origin, for a method that may mutate. *)
Definition cross_origin (r : ServerRequest) : bool :=
  negb (reading_method r) && negb (bool_decide (sq_Method r = "OPTIONS"))
  && (let origin := Get (sq_Header r) "Origin" in
      negb (bool_decide (origin = "")) && negb (bool_decide (origin = "http://" +:+ sq_Host r))
      && negb (bool_decide (origin = "https://" +:+ sq_Host r))).

Definition secure (env : AdminEnv) (r : ServerRequest) (s : AdminServer W) : Reply AdminBody * AdminServer W :=
  when cross_origin r yield
    (add_headers (security_headers s)
       (admin_writeProblem 403 "origin_rejected" "Cross-origin mutation requests are forbidden."), s);;
  let '(reply, s') := admin_serve env r s in (add_headers (security_headers s) reply, s').

(** ** Lifecycle *)

(** [identity] is the result of loading the TLS identity, [listen] of
    listening. *)
Definition Admin_Start (identity listen : option error) (s : AdminServer W) : AdminServer W * option error :=
  iferr (if bool_decide (ad_TLSCertificateFile (a_cfg s) = "") then None else identity) as err yield
    (s, Some (ErrWrap "load admin TLS identity" err));;
  iferr listen as err yield (s, Some err);;
  (admin_set_listening (mkListening true (ln_serveErr (a_listening s)) true) s, None).

Definition Admin_Stop (env : StopEnv) (s : AdminServer W) : AdminServer W * option error :=
  let l := a_listening s in
  when ln_started l && negb (se_Served env && se_Watched env) yield
    (s, errors_Join [se_Shutdown env; se_Context env]);;
  (admin_set_listening (mkListening false (ln_serveErr l) (ln_started l)) s, se_Shutdown env).

Definition Admin_Health (now : Time) (s : AdminServer W) : Status :=
  let l := a_listening s in
  NewStatus "admin" (if ln_running l && bool_decide (ln_serveErr l = None) then StateHealthy else StateUnhealthy)
    (match ln_serveErr l with Some err => render err | None => "" end) (UTC now).
End serving.

(** ** Who reaches the operations *)
Section access.
Context `{!Networks, !NetParser, !Assets, !PathUnescaper} {W : Type}.
Context `{!AdminOperations W, !ProbeService W, !RuntimeHealth W, !RegistryReader W, !YAMLWriter}.
Context `{!StrictDecoder installRequest, !StrictDecoder upgradeRequest, !StrictDecoder dryRunRequest}.
Context `{!StrictDecoder uninstallRequest, !StrictDecoder probeRequest, !StrictDecoder editableConfiguration}.
Context (render : error → string) (range : gmap string requestBucket → list (string * requestBucket)).

(** What authentication accepts: the configured network with trusted ingress,
    else the token or the session's cookie. *)
Definition authentic (r : ServerRequest) (s : AdminServer W) : Prop :=
  if ad_TrustedIngress (a_cfg s)
  then ∃ host network, SplitHost (sq_RemoteAddr r) = Some host ∧ a_trustedIngress s = Some network
         ∧ Contains network host = true
  else provided_token r = ad_Token (a_cfg s) ∨ first_value (sq_Cookies r) adminSessionCookie = Some (a_sessionToken s).

Lemma same_secret_true provided expected : same_secret provided expected = true ↔ provided = expected.
Proof.
  unfold same_secret. rewrite andb_true_iff, bool_decide_eq_true. split; [naive_solver|].
  intros ->. by rewrite Nat.eqb_refl.
Qed.

Lemma authenticated_spec r (s : AdminServer W) : authenticated r s = true ↔ authentic r s.
Proof.
  unfold authenticated, authentic. destruct (ad_TrustedIngress _).
  - destruct (SplitHost _), (a_trustedIngress s); naive_solver.
  - destruct (same_secret (provided_token r) _) eqn:Ht.
    + apply same_secret_true in Ht. naive_solver.
    + assert (provided_token r ≠ ad_Token (a_cfg s)) as Hne by (intros ?%same_secret_true; congruence).
      destruct (first_value _ _); [rewrite same_secret_true|]; naive_solver.
Qed.

Record admin_admitted (env : AdminEnv) (r : ServerRequest) (s : AdminServer W) : Prop := {
  aa_origin : cross_origin r = false;
  aa_limit : (limiter_allow range (remoteKey r) (ae_AuthenticationTime env) (a_authentication s)).1 = true;
  aa_authentic : authentic r s;
  aa_mutation : reading_method r = false →
    (limiter_allow range (remoteKey r) (ae_MutationTime env) (a_mutations s)).1 = true
}.

Lemma admin_run_limiters h a m (s : AdminServer W) r w :
  admin_run render h (admin_set_limiters a m s) r w = admin_run render h s r w.
Proof. by destruct h. Qed.

Lemma admin_handle_services h r (s : AdminServer W) :
  a_services (admin_handle render h r s).2 = (admin_run render h s r (a_services s)).2.
Proof. unfold admin_handle. by destruct (admin_run render h s r (a_services s)). Qed.

Lemma admin_authorize_cases h env r (s : AdminServer W) :
  cross_origin r = false →
  let s' := (admin_authorize render range h env r s).2 in
  a_services s' = a_services s
  ∨ admin_admitted env r s ∧ a_services s' = (admin_run render h s r (a_services s)).2.
Proof.
  intros Ho. unfold admin_authorize.
  destruct (limiter_allow range (remoteKey r) (ae_AuthenticationTime env) _) as [allowed limiter] eqn:Ha.
  destruct allowed; [|by left]. cbn [negb]. cbv zeta.
  destruct (authenticated r _) eqn:Hau; [|by left]. cbn [negb].
  change (authenticated r (admin_set_limiters limiter (a_mutations s) s)) with (authenticated r s) in Hau.
  apply authenticated_spec in Hau.
  destruct (reading_method r) eqn:Hm.
  - right. split; [split; [done|by rewrite Ha|done|by rewrite Hm]|].
    rewrite admin_handle_services. cbn [a_services admin_set_limiters]. by rewrite admin_run_limiters.
  - destruct (limiter_allow range (remoteKey r) (ae_MutationTime env) _) as [allowed limiter'] eqn:Hl.
    destruct allowed; [|by left]. cbn [negb]. right. split.
    + split; [done|by rewrite Ha|done|]. intros _. simpl in Hl. by rewrite Hl.
    + rewrite admin_handle_services. cbn [a_services admin_set_limiters]. by rewrite !admin_run_limiters.
Qed.

Lemma secure_cases env r (s : AdminServer W) :
  let s' := (secure render range env r s).2 in
  a_services s' = a_services s
  ∨ ∃ h values, mux_route admin_routes r = Matched (RGuarded h) values ∧ admin_admitted env r s
      ∧ a_services s' = (admin_run render h s r (a_services s)).2.
Proof.
  unfold secure. destruct (cross_origin r) eqn:Ho; [by left|].
  assert (a_services (admin_serve render range env r s).2 = a_services s
    ∨ ∃ h values, mux_route admin_routes r = Matched (RGuarded h) values ∧ admin_admitted env r s
        ∧ a_services (admin_serve render range env r s).2 = (admin_run render h s r (a_services s)).2) as Hs.
  { unfold admin_serve. destruct (mux_route admin_routes r) as [|[|prefix| | |h] values| |]; try by left.
    - left. unfold createSession. by repeat case_match; simplify_eq/=.
    - destruct (admin_authorize_cases h env r s Ho) as [|[? ?]]; [by left|]. right. eauto. }
  by destruct (admin_serve render range env r s).
Qed.

(** An admitted request is answered by its handler. *)
Lemma secure_admitted env r (s : AdminServer W) h values :
  mux_route admin_routes r = Matched (RGuarded h) values → admin_admitted env r s →
  rp_Status (secure render range env r s).1 = rp_Status (admin_run render h s r (a_services s)).1
  ∧ a_services (secure render range env r s).2 = (admin_run render h s r (a_services s)).2.
Proof.
  intros Hroute [Ho Hl Ha Hm]. apply authenticated_spec in Ha. unfold secure, admin_serve. rewrite Ho, Hroute.
  unfold admin_authorize. destruct (limiter_allow range _ (ae_AuthenticationTime env) _) as [allowed limiter].
  simpl in Hl. subst allowed. cbn [negb]. cbv zeta.
  change (authenticated r (admin_set_limiters limiter (a_mutations s) s)) with (authenticated r s). rewrite Ha. cbn [negb].
  unfold admin_handle. cbn [a_services a_mutations admin_set_limiters]. destruct (reading_method r).
  - rewrite admin_run_limiters. by destruct (admin_run render h s r (a_services s)).
  - destruct (limiter_allow range _ (ae_MutationTime env) _) as [allowed limiter']. simpl in Hm. rewrite Hm by done.
    cbn [negb a_services a_authentication admin_set_limiters]. rewrite !admin_run_limiters.
    by destruct (admin_run render h s r (a_services s)).
Qed.

(** C18: a request acts on the operations, discovery and registry services
    only through a route that needs authentication, when it does not come from
    another origin with a mutating method, when its address is within the
    authentication limit and, unless it reads, the mutation limit, and when it
    arrives from the trusted ingress network or carries the token or the
    session cookie; it then runs exactly the handler of its route. *)
Theorem admin_acts_only_when_authenticated env r (s : AdminServer W) :
  let s' := (secure render range env r s).2 in
  a_services s' = a_services s
  ∨ ∃ h values, mux_route admin_routes r = Matched (RGuarded h) values ∧ admin_admitted env r s
      ∧ a_services s' = (admin_run render h s r (a_services s)).2.
Proof. apply secure_cases. Qed.

(** The session's status answers whether credentials are right and takes
    nothing from the authentication limit, whatever is left of it: only
    creating a session and the guarded routes count the attempts. *)
Theorem session_status_unlimited env r (s : AdminServer W) values :
  mux_route admin_routes r = Matched RSessionStatus values → reading_method r = true →
  (secure render range env r s).2 = s
  ∧ (rp_Status (secure render range env r s).1 = 204 ↔ authentic r s)
  ∧ (rp_Status (secure render range env r s).1 = 401 ↔ ¬ authentic r s).
Proof.
  intros Hr Hm. unfold secure, cross_origin. rewrite Hm. simpl. unfold admin_serve. rewrite Hr. simpl.
  rewrite <- authenticated_spec. unfold sessionStatus. by destruct (authenticated r s).
Qed.

(** A session is created for the token alone, and its cookie authenticates. *)
Theorem session_cookie_authenticates now r (s : AdminServer W) reply s' :
  createSession range now r s = (reply, s') → rp_Status reply = 204 → ad_TrustedIngress (a_cfg s) = false →
  provided_token r = ad_Token (a_cfg s)
  ∧ rp_Header reply = [set_cookie (a_sessionToken s) (365 * 24 * 60 * 60) (a_secureCookie s)]
  ∧ ∀ later, first_value (sq_Cookies later) adminSessionCookie = Some (a_sessionToken s) → authentic later s'.
Proof.
  unfold createSession. intros Hc Hst Ht. rewrite Ht in Hc.
  destruct (limiter_allow range _ now _) as [[|] limiter]; [|simplify_eq/=]. cbn [negb] in Hc. cbv zeta in Hc.
  destruct (same_secret _ _) eqn:Hs; [|simplify_eq/=]. cbn [negb] in Hc. apply same_secret_true in Hs.
  injection Hc as <- <-. split_and!; [done|done|].
  intros later Hl. unfold authentic. simpl. rewrite Ht. by right.
Qed.
End access.
