(* ===== verification/AdminSafety.v ===== *)
(** * The administration server over a host

    The contract of the administration server discharged by the operations
    service on a host, and what any sequence of requests leaves on the disk. *)

From Stdlib Require Import ZArith Lia String.
From stdpp Require Import base gmap strings list.
From S2P Require Import Prelude Domain Events Topics Config Operations OperationsSafety HomeRegistry Discovery.
From S2P Require Import HttpServer Access Admin.

(** The host the operations run on, beside the other services. *)
Record AdminWorld (H R : Type) := mkWorld { aw_host : H; aw_rest : R }.
Arguments mkWorld {H R} _ _.
Arguments aw_host {H R} _.
Arguments aw_rest {H R} _.

Section world.
Context {H R A : Type} {HH : Host H} {HZ : ZipWriter A}.
Context `{!Digester, !Signatures, !JSON, !Marshaler Config, !YAML, !URLParser, !NetParser, !MapRange}.
Context `{!ZipReader, !ManifestDecoder, !Marshaler (gmap string string)} (render : error → string).
Context `{!ProbeService R, !RuntimeHealth R, !RegistryReader R}.

Definition on_host {T} (result : T * H) (w : AdminWorld H R) : T * AdminWorld H R :=
  let '(t, h) := result in (t, mkWorld h (aw_rest w)).
Definition on_rest {T} (result : T * R) (w : AdminWorld H R) : T * AdminWorld H R :=
  let '(t, rest) := result in (t, mkWorld (aw_host w) rest).

Definition World_Operations : AdminOperations (AdminWorld H R) := {|
  op_GetStatus ctx actor w := on_host (GetStatus ctx actor (aw_host w)) w;
  op_GetConfiguration ctx actor w := on_host (GetConfiguration render ctx actor (aw_host w)) w;
  op_Verify ctx actor w := on_host (Verify render ctx actor (aw_host w)) w;
  op_Repair ctx actor dryRun w := on_host (Repair ctx actor dryRun (aw_host w)) w;
  op_Install ctx request w := on_host (Install render ctx request (aw_host w)) w;
  op_Upgrade ctx request w := on_host (Upgrade ctx request (aw_host w)) w;
  op_Rollback ctx actor dryRun w := on_host (Rollback ctx actor dryRun (aw_host w)) w;
  op_Backup ctx actor w := on_host (Backup (A := A) ctx actor (aw_host w)) w;
  op_Restore ctx actor payload dryRun w := on_host (Restore render ctx actor payload dryRun (aw_host w)) w;
  op_Uninstall ctx actor preserve dryRun w := on_host (Uninstall ctx actor preserve dryRun (aw_host w)) w;
  op_ValidateConfiguration ctx actor payload w := (ValidateConfiguration render actor payload, w);
  op_ApplyConfiguration ctx actor payload dryRun w :=
    on_host (ApplyConfiguration render ctx actor payload dryRun (aw_host w)) w
|}.
#[export] Instance World_Probe : ProbeService (AdminWorld H R) := {
  service_Probe ctx candidates w := on_rest (service_Probe ctx candidates (aw_rest w)) w }.
#[export] Instance World_Runtime : RuntimeHealth (AdminWorld H R) := {
  runtime_Report ctx w := on_rest (runtime_Report ctx (aw_rest w)) w }.
#[export] Instance World_Registry : RegistryReader (AdminWorld H R) := {
  registry_Devices ctx w := on_rest (registry_Devices ctx (aw_rest w)) w }.
End world.

Section safety.
Context (faults : nat → option error) (absent : error).
#[local] Instance admin_disk : Host Disk := Disk_Host faults absent.
Context {R A : Type} {HZ : ZipWriter A}.
Context `{!Digester, !Signatures, !JSON, !Marshaler Config, !YAML, !URLParser, !NetParser, !MapRange}.
Context `{!ZipReader, !ManifestDecoder, !Marshaler (gmap string string)} (render : error → string).
Context `{!ProbeService R, !RuntimeHealth R, !RegistryReader R}.
Context `{!Networks, !Assets, !PathUnescaper, !YAMLWriter}.
Context `{!StrictDecoder installRequest, !StrictDecoder upgradeRequest, !StrictDecoder dryRunRequest}.
Context `{!StrictDecoder uninstallRequest, !StrictDecoder probeRequest, !StrictDecoder editableConfiguration}.
Context (range : gmap string requestBucket → list (string * requestBucket)) (key : string).
#[local] Instance disk_operations : AdminOperations (AdminWorld Disk R) := World_Operations (A := A) render.

(** What the server is asked to install or upgrade to, other than as a
    rehearsal, carries the trusted release key. A request on any other route
    is not asked for anything. *)
Definition release_keyed (s : AdminServer (AdminWorld Disk R)) (r : ServerRequest) : Prop :=
  match mux_route admin_routes r with
  | Matched (RGuarded AInstall) _ =>
      ∀ request, decode_body (ad_MaximumRequestBytes (a_cfg s)) r = One (A := installRequest) request →
        in_DryRun request = false → hex_sized 32 (in_PublicKey request) = Some key
  | Matched (RGuarded AUpgrade) _ =>
      ∀ request, decode_body (ad_MaximumRequestBytes (a_cfg s)) r = One (A := upgradeRequest) request →
        up_DryRun request = false → hex_sized 32 (up_PublicKey request) = Some key
  | _ => True
  end.

Lemma decodeArtifact_key b g k c binary signature key' configuration :
  decodeArtifact b g k c = inr (binary, signature, key', configuration) → hex_sized 32 k = Some key'.
Proof. unfold decodeArtifact. intros Hd. repeat (case_match; try done); by simplify_eq. Qed.

(** One handler, on the disk. *)
Lemma admin_run_kept h values s r (w : AdminWorld Disk R) d0 :
  mux_route admin_routes r = Matched (RGuarded h) values → release_keyed s r → kept render key d0 (aw_host w) → kept render key d0 (aw_host (admin_run render h s r w).2).
Proof.
  unfold release_keyed. intros -> Hkey Hk.
  assert (∀ T (body : T → AdminBody) (x : (T * option error) * Disk),
    kept render key d0 x.2 → kept render key d0 (aw_host (answer body (on_host x w)).2)) as Hans
    by (intros T body [[v err] d]; done).
  destruct h; unfold admin_run.
  - apply Hans. by apply GetStatus_kept.
  - unfold configuration. simpl. pose proof (GetConfiguration_kept faults absent render key (request_ctx r) actor d0
      (aw_host w) Hk) as Hg. destruct (GetConfiguration _ _ _ (aw_host w)) as [[err|v] d]; done.
  - unfold runtime. destruct (a_runtimeHealth s); [|done]. simpl. by destruct (runtime_Report _ _) as [[err|v] rest].
  - unfold processEditableConfiguration. destruct (decode (A := editableConfiguration) s r) as [|request]; [done|].
    destruct (yaml_Marshal _) as [|payload]; [done|]. destruct apply; [|simpl; by destruct (ValidateConfiguration render actor payload)].
    apply Hans. by apply Apply_kept.
  - unfold admin_probe. destruct (a_discovery s); [|done]. simpl. destruct (decode (A := probeRequest) s r); [done|].
    by destruct (service_Probe _ _ _) as [[err|v] rest].
  - unfold homeAssistantDevices. destruct (a_homeAssistant s); [|done]. simpl.
    by destruct (registry_Devices _ _) as [[err|v] rest].
  - unfold verify. simpl. pose proof (Verify_kept faults absent render key (request_ctx r) actor d0 (aw_host w) Hk) as Hv.
    destruct (Verify _ _ _ (aw_host w)) as [[v err] d]. simpl. by destruct (_ && _).
  - unfold repair. destruct (decode (A := dryRunRequest) s r); [done|]. apply Hans. by apply Repair_kept.
  - unfold install, decode. destruct (decode_body (A := installRequest) _ r) as [| |request] eqn:Hd; [done..|].
    destruct (decodeArtifact _ _ _ _) as [|[[[b g] k] c]] eqn:Hart; [done|]. apply Hans. apply Install_kept; [|done].
    intros Hdry. apply decodeArtifact_key in Hart. rewrite (Hkey _ eq_refl Hdry) in Hart. by simplify_eq/=.
  - unfold upgrade, decode. destruct (decode_body (A := upgradeRequest) _ r) as [| |request] eqn:Hd; [done..|].
    destruct (decodeArtifact _ _ _ _) as [|[[[b g] k] c]] eqn:Hart; [done|]. apply Hans. apply Upgrade_kept; [|done].
    intros Hdry. apply decodeArtifact_key in Hart. rewrite (Hkey _ eq_refl Hdry) in Hart. by simplify_eq/=.
  - unfold rollback. destruct (decode (A := dryRunRequest) s r); [done|]. apply Hans. by apply Rollback_kept.
  - unfold backup. simpl. pose proof (Backup_kept (A := A) faults absent render key (request_ctx r) actor d0 (aw_host w) Hk)
      as Hb. destruct (Backup _ _ (aw_host w)) as [[err|v] d]; done.
  - unfold restore. destruct (limited_payload s r); [|done]. apply Hans. by apply Restore_kept.
  - unfold uninstall. destruct (decode (A := uninstallRequest) s r); [done|]. apply Hans. by apply Uninstall_kept.
  - unfold validateConfiguration. destruct (readPayload s r) as [|payload]; [done|]. simpl.
    by destruct (ValidateConfiguration render actor payload).
  - unfold applyConfiguration. destruct (readPayload s r); [done|]. apply Hans. by apply Apply_kept.
  - done.
Qed.

(** The server after a request. *)
Definition after_request (s : AdminServer (AdminWorld Disk R)) (x : AdminEnv * ServerRequest) :
    AdminServer (AdminWorld Disk R) := (secure render range x.1 x.2 s).2.
Abbreviation disk_of s := (aw_host (a_services s)).

Lemma secure_cfg env r (s : AdminServer (AdminWorld Disk R)) : a_cfg (secure render range env r s).2 = a_cfg s.
Proof.
  unfold secure. destruct (cross_origin r); [done|].
  assert (a_cfg (admin_serve render range env r s).2 = a_cfg s) as Hs; [|by destruct (admin_serve _ _ _ _ _)].
  unfold admin_serve. destruct (mux_route admin_routes r) as [|[|prefix| | |h] values| |]; try done.
  - unfold createSession. by repeat case_match; simplify_eq/=.
  - unfold admin_authorize, admin_handle. by repeat case_match; simplify_eq/=.
Qed.

Lemma after_request_kept s x d0 :
  release_keyed s x.2 → kept render key d0 (disk_of s) → kept render key d0 (disk_of (after_request s x)).
Proof.
  intros Hr Hk. unfold after_request.
  destruct (secure_cases render range x.1 x.2 s) as [-> | (h & values & Hroute & _ & ->)]; [done|].
  by eapply admin_run_kept.
Qed.

(** C17: from a disk that is in order, where every binary was verified with
    the trusted release key and every stored configuration is valid, whatever
    requests the administration server is then sent, from whomever and in
    whatever order, and whichever calls to the host fail, the disk stays in
    order and no file outside the managed paths changes. The one condition is
    on the two routes that bring a binary: what is posted to install or
    upgrade, other than as a dry run, carries the trusted key, because the
    code verifies a binary with the key of the request itself. *)
Theorem admin_requests_keep_host_safe requests s :
  disk_ok render key (disk_of s) → Forall (fun x => release_keyed s x.2) requests →
  let s' := foldl after_request s requests in
  disk_ok render key (disk_of s')
  ∧ ∀ path, path ∉ ManagedPaths → dk_files (disk_of s') !! path = dk_files (disk_of s) !! path.
Proof.
  intros Hok Hall. cbv zeta.
  assert (kept render key (disk_of s) (disk_of (foldl after_request s requests))) as [? ?]; [|done].
  assert (kept render key (disk_of s) (disk_of s)) as Hk by (by apply kept_refl).
  revert Hk. generalize (disk_of s) at 1 3. intros d0.
  revert s Hok Hall. induction requests as [|x requests IH]; intros s Hok Hall Hk; [done|].
  apply Forall_cons in Hall as [Hx Hall]. simpl. pose proof (after_request_kept s x d0 Hx Hk) as Hk'.
  apply IH; [apply Hk'| |done]. eapply Forall_impl; [exact Hall|]. intros y Hy.
  revert Hy. unfold release_keyed, after_request. rewrite secure_cfg. exact (fun H => H).
Qed.
End safety.
