(* ===== verification/Cli.v ===== *)
(** * The headless operations program: [cmd/aquaosctl/main.go]

    Flags, the local actor, and the commands over the operations service. What
    the program uses of the [flag] package is modelled: the parsing of one set
    of string and boolean flags. *)

From Stdlib Require Import ZArith Lia String Ascii.
From stdpp Require Import base gmap strings list pretty.
From S2P Require Import Prelude Domain Topics Config Operations LocalHost Encoding HttpServer Access Admin.

(** ** The [flag] package *)
Inductive FlagValue := FString (s : string) | FBool (b : bool).
(** The flags of a set, with their values: the defaults at first. *)
Definition FlagSet : Type := gmap string FlagValue.
Definition flags (l : list (string * FlagValue)) : FlagSet := list_to_map l.

Definition ErrHelp : error := ErrVar "flag.ErrHelp".
Definition failf (text : string) : error := ErrNew text.

(** The name and the value of [name=value]; the equals sign is not the first
    character. *)
Fixpoint cut_equals (name : string) : string * option string :=
  match name with
  | EmptyString => ("", None)
  | String c rest =>
      match rest with
      | String d more =>
          if Ascii.eqb d "="%char then (String c "", Some more)
          else let '(n, v) := cut_equals rest in (String c n, v)
      | EmptyString => (name, None)
      end
  end.

Inductive FlagToken := NotFlag | Terminator | BadFlag | Named (name : string) (value : option string).
Definition flag_token (s : string) : FlagToken :=
  match s with
  | String a (String b rest) =>
      if Ascii.eqb a "-" then
        let name := if Ascii.eqb b "-" then rest else String b rest in
        if Ascii.eqb b "-" && bool_decide (rest = "") then Terminator
        else match name with
             | EmptyString => BadFlag
             | String c _ =>
                 if Ascii.eqb c "-" || Ascii.eqb c "=" then BadFlag
                 else let '(n, v) := cut_equals name in Named n v
             end
      else NotFlag
  | _ => NotFlag
  end.

(** [FlagSet.Parse]: the values and the arguments that are left. *)
Fixpoint flag_Parse (args : list string) (set : FlagSet) : error + (FlagSet * list string) :=
  match args with
  | [] => inr (set, [])
  | s :: rest =>
      match flag_token s with
      | NotFlag => inr (set, args)
      | Terminator => inr (set, rest)
      | BadFlag => inl (failf ("bad flag syntax: " +:+ s))
      | Named name value =>
          match set !! name with
          | None =>
              inl (if bool_decide (name = "help") || bool_decide (name = "h") then ErrHelp
                   else failf ("flag provided but not defined: -" +:+ name))
          | Some (FBool _) =>
              match value with
              | None => flag_Parse rest (<[name := FBool true]> set)
              | Some v =>
                  match ParseBool v with
                  | Some b => flag_Parse rest (<[name := FBool b]> set)
                  | None => inl (failf ("invalid boolean value for -" +:+ name))
                  end
              end
          | Some (FString _) =>
              match value, rest with
              | Some v, _ => flag_Parse rest (<[name := FString v]> set)
              | None, v :: rest => flag_Parse rest (<[name := FString v]> set)
              | None, [] => inl (failf ("flag needs an argument: -" +:+ name))
              end
          end
      end
  end.

Definition flag_string (set : FlagSet) (name : string) : string :=
  match set !! name with Some (FString s) => s | _ => "" end.
Definition flag_bool (set : FlagSet) (name : string) : bool :=
  match set !! name with Some (FBool b) => b | _ => false end.

(** ** The program *)

(** The operator's files and identity, and [filepath.Abs]. *)
Class Workstation (W : Type) := {
  ws_ReadFile : string → W → error + string;
  ws_WriteFile : string → string → W → option error * W;
  ws_CurrentUid : W → error + string;
  ws_Abs : string → W → error + string
}.

Inductive CliResult :=
| CliResultOf (r : OpResult)
| CliStatus (s : OpStatus)
| CliDiagnostics (d : Diagnostics)
| CliConfiguration (r : ConfigurationResult)
| CliBackup (path : string) (bytes : Z)
| CliRole (role : string) (dryRun : bool).

Section cli.
Context {W : Type} `{!Workstation W, !AdminOperations W, !Digester, !Signatures}.

Definition localActor (root : string) (w : W) : error + Actor :=
  let absolute := match ws_Abs root w with inr p => p | inl _ => "" end in
  when negb (bool_decide (absolute = "/")) yield inr (mkActor "staging-operator" true);;
  match ws_CurrentUid w with
  | inl err => inl err
  | inr uid =>
      when negb (bool_decide (uid = "0")) yield inl (ErrNew "production host operations require root");;
      inr (mkActor "local-root" true)
  end.

Definition readHexOrFile (value : string) (size : nat) (w : W) : error + string :=
  let raw := TrimSpace value in
  let raw := match ws_ReadFile raw w with inr payload => TrimSpace payload | inl _ => raw end in
  match hex_sized size raw with
  | Some decoded => inr decoded
  | None => inl (ErrNew ("verification value must be " +:+ pretty size +:+ "-byte hexadecimal data"))
  end.

Definition verification (signatureValue keyValue : string) (w : W) : error + (string * string) :=
  match readHexOrFile signatureValue 64 w with
  | inl err => inl err
  | inr signature =>
      match readHexOrFile keyValue 32 w with inl err => inl err | inr key => inr (signature, key) end
  end.

Definition install_flags : FlagSet := flags
  [("binary", FString ""); ("config", FString ""); ("version", FString ""); ("sha256", FString "");
   ("signature", FString ""); ("public-key", FString ""); ("ack-dedicated-host", FBool false); ("dry-run", FBool false)].

Definition parseInstall (arguments : list string) (actor : Actor) (w : W) : error + InstallRequest :=
  match flag_Parse arguments install_flags with
  | inl err => inl err
  | inr (set, _) =>
      match ws_ReadFile (flag_string set "binary") w with
      | inl err => inl err
      | inr binary =>
          match ws_ReadFile (flag_string set "config") w with
          | inl err => inl err
          | inr configuration =>
              match verification (flag_string set "signature") (flag_string set "public-key") w with
              | inl err => inl err
              | inr (signature, key) =>
                  inr (mkInstallRequest actor (flag_string set "version") binary (flag_string set "sha256") signature key
                    configuration (flag_bool set "ack-dedicated-host") (flag_bool set "dry-run"))
              end
          end
      end
  end.

Definition upgrade_flags : FlagSet := flags
  [("binary", FString ""); ("version", FString ""); ("sha256", FString ""); ("signature", FString "");
   ("public-key", FString ""); ("dry-run", FBool false)].

Definition parseUpgrade (arguments : list string) (actor : Actor) (w : W) : error + UpgradeRequest :=
  match flag_Parse arguments upgrade_flags with
  | inl err => inl err
  | inr (set, _) =>
      match ws_ReadFile (flag_string set "binary") w with
      | inl err => inl err
      | inr binary =>
          match verification (flag_string set "signature") (flag_string set "public-key") w with
          | inl err => inl err
          | inr (signature, key) =>
              inr (mkUpgradeRequest actor (flag_string set "version") binary (flag_string set "sha256") signature key
                (flag_bool set "dry-run"))
          end
      end
  end.

Definition dryRunOnly (arguments : list string) : error + bool :=
  match flag_Parse arguments (flags [("dry-run", FBool false)]) with
  | inl err => inl err
  | inr (set, _) => inr (flag_bool set "dry-run")
  end.

(** What a command prints, or its error, and the world after it. *)
Definition Outcome : Type := (error + CliResult) * W.
Definition outcome {A} (body : A → CliResult) (r : (A * option error) * W) : Outcome :=
  let '((value, err), w) := r in (match err with Some err => inl err | None => inr (body value) end, w).

Definition verifyReleaseArtifact (arguments : list string) (w : W) : error + CliResult :=
  match flag_Parse arguments (flags [("binary", FString ""); ("sha256", FString ""); ("signature", FString "");
    ("public-key", FString "")]) with
  | inl err => inl err
  | inr (set, _) =>
      match ws_ReadFile (flag_string set "binary") w with
      | inl err => inl err
      | inr binary =>
          match verification (flag_string set "signature") (flag_string set "public-key") w with
          | inl err => inl err
          | inr (signature, key) =>
              iferr VerifyReleaseArtifact binary (flag_string set "sha256") signature key as err yield inl err;;
              inr (CliResultOf (mkOpResult "verify-artifact" false "" ["verify checksum and Ed25519 signature"] false))
          end
      end
  end.

Definition cli_backup (ctx : Context) (actor : Actor) (arguments : list string) (w : W) : Outcome :=
  match flag_Parse arguments (flags [("out", FString "")]) with
  | inl err => (inl err, w)
  | inr (set, _) =>
      let output := flag_string set "out" in
      when bool_decide (output = "") yield (inl (ErrNew "backup --out is required"), w);;
      let '(payload, w) := op_Backup ctx actor w in
      match payload with
      | inl err => (inl err, w)
      | inr payload =>
          let '(err, w) := ws_WriteFile output payload w in
          iferr err as err yield (inl err, w);;
          (inr (CliBackup output (Z.of_nat (String.length payload))), w)
      end
  end.

Definition cli_restore (ctx : Context) (actor : Actor) (arguments : list string) (w : W) : Outcome :=
  match flag_Parse arguments (flags [("file", FString ""); ("dry-run", FBool false)]) with
  | inl err => (inl err, w)
  | inr (set, _) =>
      match ws_ReadFile (flag_string set "file") w with
      | inl err => (inl err, w)
      | inr payload => outcome CliResultOf (op_Restore ctx actor payload (flag_bool set "dry-run") w)
      end
  end.

Definition cli_uninstall (ctx : Context) (actor : Actor) (arguments : list string) (w : W) : Outcome :=
  match flag_Parse arguments (flags [("preserve-data", FBool true); ("dry-run", FBool false)]) with
  | inl err => (inl err, w)
  | inr (set, _) =>
      outcome CliResultOf (op_Uninstall ctx actor (flag_bool set "preserve-data") (flag_bool set "dry-run") w)
  end.

Definition removeRole (arguments : list string) : error + CliResult :=
  match flag_Parse arguments (flags [("role", FString ""); ("dry-run", FBool false)]) with
  | inl err => inl err
  | inr (set, _) =>
      when bool_decide (flag_string set "role" = "") yield inl (ErrNew "remove-role --role is required");;
      inr (CliRole (flag_string set "role") (flag_bool set "dry-run"))
  end.

Definition configure (ctx : Context) (actor : Actor) (arguments : list string) (w : W) : Outcome :=
  match flag_Parse arguments (flags [("file", FString ""); ("dry-run", FBool false)]) with
  | inl err => (inl err, w)
  | inr (set, _) =>
      match ws_ReadFile (flag_string set "file") w with
      | inl err => (inl err, w)
      | inr payload => outcome CliConfiguration (op_ApplyConfiguration ctx actor payload (flag_bool set "dry-run") w)
      end
  end.

Definition run_command (ctx : Context) (actor : Actor) (command : string) (args : list string) (w : W) : Outcome :=
  let named name := bool_decide (command = name) in
  if named "install" then
    match parseInstall args actor w with
    | inl err => (inl err, w)
    | inr request => outcome CliResultOf (op_Install ctx request w)
    end
  else if named "status" then outcome CliStatus (op_GetStatus ctx actor w)
  else if named "verify" then outcome CliDiagnostics (op_Verify ctx actor w)
  else if named "diagnostics" then outcome CliDiagnostics (op_Verify ctx actor w)
  else if named "repair" then
    match dryRunOnly args with
    | inl err => (inl err, w)
    | inr dryRun => outcome CliResultOf (op_Repair ctx actor dryRun w)
    end
  else if named "configure" then configure ctx actor args w
  else if named "rollback" then
    match dryRunOnly args with
    | inl err => (inl err, w)
    | inr dryRun => outcome CliResultOf (op_Rollback ctx actor dryRun w)
    end
  else if named "upgrade" then
    match parseUpgrade args actor w with
    | inl err => (inl err, w)
    | inr request => outcome CliResultOf (op_Upgrade ctx request w)
    end
  else if named "verify-artifact" then (verifyReleaseArtifact args w, w)
  else if named "backup" then cli_backup ctx actor args w
  else if named "restore" then cli_restore ctx actor args w
  else if named "uninstall" then cli_uninstall ctx actor args w
  else if named "remove-role" then (removeRole args, w)
  else (inl (ErrNew ("unknown command " +:+ command)), w).

(** [encode] is what writing the result to the standard output answers. *)
Definition cli_run (arguments : list string) (encode : CliResult → option error) (w : W) : (Z * option CliResult) * W :=
  match flag_Parse arguments (flags [("root", FString "/")]) with
  | inl _ => ((2, None), w)
  | inr (set, remaining) =>
      match remaining with
      | [] => ((2, None), w)
      | command :: args =>
          let root := flag_string set "root" in
          match NewLocalHost root (ws_Abs root w) with
          | inl _ => ((1, None), w)
          | inr _ =>
              match localActor root w with
              | inl _ => ((1, None), w)
              | inr actor =>
                  let '(result, w) := run_command Background actor command args w in
                  match result with
                  | inl _ => ((1, None), w)
                  | inr result =>
                      iferr encode result as _err yield ((1, Some result), w);;
                      ((0, Some result), w)
                  end
              end
          end
      end
  end.
End cli.

(** ** Who may act *)
Section access.
Context {W : Type} `{!Workstation W, !AdminOperations W, !Digester, !Signatures}.

(** The program acts only on a staging root or as the superuser, and with a
    command line that parses. *)
Theorem cli_acts_only_as_root arguments encode (w : W) code result w' :
  cli_run arguments encode w = ((code, result), w') →
  w' = w
  ∨ ∃ set command args actor,
      flag_Parse arguments (flags [("root", FString "/")]) = inr (set, command :: args)
      ∧ localActor (flag_string set "root") w = inr actor
      ∧ (ws_Abs (flag_string set "root") w = inr "/" → ws_CurrentUid w = inr "0")
      ∧ w' = (run_command Background actor command args w).2.
Proof.
  unfold cli_run. destruct (flag_Parse _ _) as [err|[set remaining]]; [intros [= <- <- <-]; by left|].
  destruct remaining as [|command args]; [intros [= <- <- <-]; by left|].
  destruct (NewLocalHost _ _); [intros [= <- <- <-]; by left|].
  destruct (localActor _ w) as [err|actor] eqn:Ha; [intros [= <- <- <-]; by left|].
  intros Hr. right. exists set, command, args, actor. split_and!; [done|done| |].
  - unfold localActor in Ha. intros Habs. rewrite Habs in Ha. simpl in Ha.
    destruct (ws_CurrentUid w) as [|uid]; [done|]. case_bool_decide; [by subst|done].
  - destruct (run_command Background actor command args w) as [[err|x] w1]; [by injection Hr as <- <- <-|].
    destruct (encode x); by injection Hr as <- <- <-.
Qed.
End access.
