(* ===== verification/CliEquivalence.v ===== *)
(** * The program and the browser interface agree

    The administration server and [aquaosctl] promise to call the same
    application service. Over a host, a request and a command line that make
    the same choice leave the same host behind and succeed together. *)

From Stdlib Require Import ZArith Lia String.
From stdpp Require Import base gmap strings list.
From S2P Require Import Prelude Domain Events Topics Config Operations OperationsSafety HomeRegistry Discovery.
From S2P Require Import Encoding HttpServer LocalHost Access Admin AdminSafety Cli.
From S2P Require Http.

Section agreement.
Context {H R A : Type} {HH : Host H} {HZ : ZipWriter A}.
Context `{!Digester, !Signatures, !JSON, !Marshaler Config, !YAML, !URLParser, !NetParser, !MapRange}.
Context `{!ZipReader, !ManifestDecoder, !Marshaler (gmap string string)} (render : error → string).
Context `{!ProbeService R, !RuntimeHealth R, !RegistryReader R, !Workstation R}.
Context `{!Networks, !YAMLWriter, !Assets, !PathUnescaper}.
Context `{!StrictDecoder installRequest, !StrictDecoder upgradeRequest, !StrictDecoder dryRunRequest}.
Context `{!StrictDecoder uninstallRequest, !StrictDecoder probeRequest, !StrictDecoder editableConfiguration}.
Abbreviation World := (AdminWorld H R).
#[local] Instance host_operations : AdminOperations World := World_Operations (A := A) render.
#[local] Instance World_Workstation : Workstation World := {
  ws_ReadFile path w := ws_ReadFile path (aw_rest w);
  ws_WriteFile path payload w := on_rest (ws_WriteFile path payload (aw_rest w)) w;
  ws_CurrentUid w := ws_CurrentUid (aw_rest w);
  ws_Abs path w := ws_Abs path (aw_rest w)
}.

(** ** Operations look at an actor only to authorize it *)
Section actors.
Context (ctx : Context) (a b : Actor) (Ha : authorize a = None) (Hb : authorize b = None).

Lemma Repair_actor dryRun (h : H) : Repair ctx a dryRun h = Repair ctx b dryRun h.
Proof. unfold Repair. by rewrite Ha, Hb. Qed.
Lemma Rollback_actor dryRun (h : H) : Rollback ctx a dryRun h = Rollback ctx b dryRun h.
Proof. unfold Rollback. by rewrite Ha, Hb. Qed.
Lemma Uninstall_actor preserve dryRun (h : H) : Uninstall ctx a preserve dryRun h = Uninstall ctx b preserve dryRun h.
Proof. unfold Uninstall. by rewrite Ha, Hb. Qed.
Lemma Restore_actor payload dryRun (h : H) :
  Restore render ctx a payload dryRun h = Restore render ctx b payload dryRun h.
Proof. unfold Restore. by rewrite Ha, Hb. Qed.
Lemma Apply_actor payload dryRun (h : H) :
  ApplyConfiguration render ctx a payload dryRun h = ApplyConfiguration render ctx b payload dryRun h.
Proof. unfold ApplyConfiguration, ValidateConfiguration. by rewrite Ha, Hb. Qed.
Lemma Install_actor v bin sum sig key c ack dry (h : H) :
  Install render ctx (mkInstallRequest a v bin sum sig key c ack dry) h
  = Install render ctx (mkInstallRequest b v bin sum sig key c ack dry) h.
Proof. unfold Install. simpl. by rewrite Ha, Hb. Qed.
Lemma Upgrade_actor v bin sum sig key dry (h : H) :
  Upgrade ctx (mkUpgradeRequest a v bin sum sig key dry) h = Upgrade ctx (mkUpgradeRequest b v bin sum sig key dry) h.
Proof. unfold Upgrade. simpl. by rewrite Ha, Hb. Qed.
End actors.

(** ** An operator's choice

    A release is chosen by the file that holds it, on the command line, and by
    its bytes, in the browser; signature and key are hexadecimal text. *)
Record Release := mkRelease {
  rl_path : string; rl_bytes : string; rl_version : string; rl_sha256 : string; rl_signature : string; rl_key : string;
  rl_dryRun : bool
}.
Inductive choice :=
| ChooseRepair (dryRun : bool)
| ChooseRollback (dryRun : bool)
| ChooseUninstall (preserveData dryRun : bool)
| ChooseRestore (path payload : string) (dryRun : bool)
| ChooseConfigure (path payload : string) (dryRun : bool)
| ChooseInstall (release : Release) (path configuration : string) (acknowledged : bool)
| ChooseUpgrade (release : Release).

(** As it is typed. *)
Definition flag (name value : string) : string := "--" +:+ name +:+ "=" +:+ value.
Definition switch (name : string) (b : bool) : string := flag name (if b then "true" else "false").
Definition release_flags (a : Release) : list string :=
  [flag "binary" (rl_path a); flag "version" (rl_version a); flag "sha256" (rl_sha256 a);
   flag "signature" (rl_signature a); flag "public-key" (rl_key a); switch "dry-run" (rl_dryRun a)].
Definition command_line (c : choice) : list string :=
  match c with
  | ChooseRepair dryRun => ["repair"; switch "dry-run" dryRun]
  | ChooseRollback dryRun => ["rollback"; switch "dry-run" dryRun]
  | ChooseUninstall preserve dryRun => ["uninstall"; switch "preserve-data" preserve; switch "dry-run" dryRun]
  | ChooseRestore path _ dryRun => ["restore"; flag "file" path; switch "dry-run" dryRun]
  | ChooseConfigure path _ dryRun => ["configure"; flag "file" path; switch "dry-run" dryRun]
  | ChooseInstall a path _ acknowledged =>
      "install" :: flag "config" path :: switch "ack-dedicated-host" acknowledged :: release_flags a
  | ChooseUpgrade a => "upgrade" :: release_flags a
  end.

(** The files that the command line names hold what is chosen, and a signature
    or key is not itself the name of a file. *)
Definition verbatim (w : World) (text : string) : Prop := TrimSpace text = text ∧ ∃ err, ws_ReadFile text w = inl err.
Definition release_on_desk (w : World) (a : Release) : Prop :=
  ws_ReadFile (rl_path a) w = inr (rl_bytes a) ∧ verbatim w (rl_signature a) ∧ verbatim w (rl_key a).
Definition on_desk (w : World) (c : choice) : Prop :=
  match c with
  | ChooseRestore path payload _ | ChooseConfigure path payload _ => ws_ReadFile path w = inr payload
  | ChooseInstall a path configuration _ => release_on_desk w a ∧ ws_ReadFile path w = inr configuration
  | ChooseUpgrade a => release_on_desk w a
  | _ => True
  end.

(** As the browser sends it: to its route, in JSON or as the body itself. *)
Definition route_of (c : choice) : AdminHandler :=
  match c with
  | ChooseRepair _ => ARepair | ChooseRollback _ => ARollback | ChooseUninstall _ _ => AUninstall
  | ChooseRestore _ _ _ => ARestore | ChooseConfigure _ _ _ => AApplyConfiguration
  | ChooseInstall _ _ _ _ => AInstall | ChooseUpgrade _ => AUpgrade
  end.
Definition posts {B} `{!StrictDecoder B} (s : AdminServer World) (r : ServerRequest) (body : B) : Prop :=
  decode_body (ad_MaximumRequestBytes (a_cfg s)) r = One body.
Definition posts_bytes (s : AdminServer World) (r : ServerRequest) (payload : string) (dryRun : bool) : Prop :=
  sq_Body r = payload ∧ sq_BodyError r = None
  ∧ Z.of_nat (String.length payload) ≤ ad_MaximumRequestBytes (a_cfg s) < max_int64
  ∧ (Get (sq_Query r) "dryRun" = "true" ↔ dryRun = true).
Definition asks (s : AdminServer World) (r : ServerRequest) (c : choice) : Prop :=
  (∃ values, mux_route admin_routes r = Matched (RGuarded (route_of c)) values)
  ∧ match c with
    | ChooseRepair dryRun | ChooseRollback dryRun => posts s r (mkDryRun dryRun)
    | ChooseUninstall preserve dryRun => posts s r (mkUninstallBody preserve dryRun)
    | ChooseRestore _ payload dryRun | ChooseConfigure _ payload dryRun => posts_bytes s r payload dryRun
    | ChooseInstall a _ configuration acknowledged =>
        posts s r (mkInstallBody (rl_version a) (Std_EncodeToString (rl_bytes a)) (rl_sha256 a) (rl_signature a) (rl_key a)
          (Std_EncodeToString configuration) acknowledged (rl_dryRun a))
    | ChooseUpgrade a =>
        posts s r (mkUpgradeBody (rl_version a) (Std_EncodeToString (rl_bytes a)) (rl_sha256 a) (rl_signature a) (rl_key a)
          (rl_dryRun a))
    end.

Lemma answer_outcome {T} (body : T → AdminBody) (cli : T → CliResult) (x : (T * option error) * World) :
  (answer body x).2 = (outcome cli x).2
  ∧ (rp_Status (answer body x).1 = 200 ↔ ∃ y, (outcome cli x).1 = inr y).
Proof. destruct x as [[v [err|]] w]; simpl; split; try done; split; naive_solver. Qed.

Lemma localActor_authorized root (w : World) actor : localActor root w = inr actor → authorize actor = None.
Proof. unfold localActor. intros Hl. by repeat (case_match; simplify_eq/=). Qed.

(** ** What the two sides make of it *)
Lemma decodeArtifact_encoded bytes signature key configuration :
  decodeArtifact (Std_EncodeToString bytes) signature key (Std_EncodeToString configuration) =
    match hex_sized 64 signature, hex_sized 32 key with
    | Some signature, Some key => inr (bytes, signature, key, configuration)
    | None, _ => inl "signatureHex is invalid"
    | Some _, None => inl "publicKeyHex is invalid"
    end.
Proof.
  unfold decodeArtifact. rewrite Std_roundtrip.
  destruct (hex_sized 64 signature), (hex_sized 32 key); try done.
  pose proof (Std_roundtrip configuration) as Hr. case_bool_decide as He; [|by rewrite Hr].
  rewrite He in Hr. by injection Hr as <-.
Qed.

Lemma verification_verbatim signature key (w : World) :
  verbatim w signature → verbatim w key →
  match hex_sized 64 signature, hex_sized 32 key with
  | Some signature', Some key' => verification signature key w = inr (signature', key')
  | _, _ => ∃ err, verification signature key w = inl err
  end.
Proof.
  intros [Ht [e1 He1]] [Hk [e2 He2]]. unfold verification, readHexOrFile. rewrite Ht, Hk, He1, He2.
  destruct (hex_sized 64 signature), (hex_sized 32 key); eauto.
Qed.

Lemma posts_bytes_read (s : AdminServer World) r payload dryRun :
  posts_bytes s r payload dryRun → limited_payload s r = Some payload ∧ dry_run_query r = dryRun.
Proof.
  intros (Hb & He & Hlen & Hq). unfold limited_payload, read_at_most, dry_run_query. rewrite Hb, He.
  unfold max_int64 in Hlen. rewrite wrap_int64_id, Http.substring_short by (unfold in_int64, min_int64, max_int64; lia).
  destruct (Z.ltb_spec (ad_MaximumRequestBytes (a_cfg s)) (Z.of_nat (String.length payload))); [lia|].
  split; [done|]. destruct dryRun; case_bool_decide; tauto || naive_solver.
Qed.

(** The flags, parsed. *)
Lemma parse_switch dryRun : dryRunOnly [switch "dry-run" dryRun] = inr dryRun.
Proof. by destruct dryRun. Qed.

Lemma parse_file path dryRun : ∃ set,
  flag_Parse [flag "file" path; switch "dry-run" dryRun] (flags [("file", FString ""); ("dry-run", FBool false)])
    = inr (set, []) ∧ flag_string set "file" = path ∧ flag_bool set "dry-run" = dryRun.
Proof. destruct dryRun; eexists; (split; [reflexivity|]); split; reflexivity. Qed.

Lemma parse_uninstall preserve dryRun : ∃ set,
  flag_Parse [switch "preserve-data" preserve; switch "dry-run" dryRun]
    (flags [("preserve-data", FBool true); ("dry-run", FBool false)])
    = inr (set, []) ∧ flag_bool set "preserve-data" = preserve ∧ flag_bool set "dry-run" = dryRun.
Proof. destruct preserve, dryRun; eexists; (split; [reflexivity|]); split; reflexivity. Qed.

(** What the flags of a release are read as. *)
Definition releases (a : Release) (set : FlagSet) : Prop :=
  flag_string set "binary" = rl_path a ∧ flag_string set "version" = rl_version a
  ∧ flag_string set "sha256" = rl_sha256 a ∧ flag_string set "signature" = rl_signature a
  ∧ flag_string set "public-key" = rl_key a ∧ flag_bool set "dry-run" = rl_dryRun a.

Lemma parse_release a : ∃ set, flag_Parse (release_flags a) upgrade_flags = inr (set, []) ∧ releases a set.
Proof. destruct a as [? ? ? ? ? ? dryRun], dryRun; eexists; (split; [reflexivity|]); repeat split. Qed.

Lemma parse_installation a path acknowledged : ∃ set,
  flag_Parse (flag "config" path :: switch "ack-dedicated-host" acknowledged :: release_flags a) install_flags
    = inr (set, [])
  ∧ releases a set ∧ flag_string set "config" = path ∧ flag_bool set "ack-dedicated-host" = acknowledged.
Proof. destruct a as [? ? ? ? ? ? dryRun], dryRun, acknowledged; eexists; (split; [reflexivity|]); repeat split. Qed.

Lemma parseUpgrade_release a actor (w : World) :
  release_on_desk w a →
  match hex_sized 64 (rl_signature a), hex_sized 32 (rl_key a) with
  | Some signature, Some key => parseUpgrade (release_flags a) actor w
      = inr (mkUpgradeRequest actor (rl_version a) (rl_bytes a) (rl_sha256 a) signature key (rl_dryRun a))
  | _, _ => ∃ err, parseUpgrade (release_flags a) actor w = inl err
  end.
Proof.
  intros (Hb & Hs & Hk). destruct (parse_release a) as (set & Hp & Hbin & Hv & Hsum & Hsig & Hkey & Hdry).
  unfold parseUpgrade. rewrite Hp, Hbin, Hb, Hsig, Hkey, Hv, Hsum, Hdry.
  pose proof (verification_verbatim _ _ w Hs Hk) as Hver.
  destruct (hex_sized 64 (rl_signature a)), (hex_sized 32 (rl_key a)); [by rewrite Hver|..]; destruct Hver as [err ->]; eauto.
Qed.

Lemma parseInstall_release a path configuration acknowledged actor (w : World) :
  release_on_desk w a → ws_ReadFile path w = inr configuration →
  let args := flag "config" path :: switch "ack-dedicated-host" acknowledged :: release_flags a in
  match hex_sized 64 (rl_signature a), hex_sized 32 (rl_key a) with
  | Some signature, Some key => parseInstall args actor w
      = inr (mkInstallRequest actor (rl_version a) (rl_bytes a) (rl_sha256 a) signature key configuration acknowledged
               (rl_dryRun a))
  | _, _ => ∃ err, parseInstall args actor w = inl err
  end.
Proof.
  intros (Hb & Hs & Hk) Hc args. subst args.
  destruct (parse_installation a path acknowledged) as (set & Hp & (Hbin & Hv & Hsum & Hsig & Hkey & Hdry) & Hcfg & Hack).
  unfold parseInstall. rewrite Hp, Hbin, Hb, Hcfg, Hc, Hsig, Hkey, Hv, Hsum, Hdry, Hack.
  pose proof (verification_verbatim _ _ w Hs Hk) as Hver.
  destruct (hex_sized 64 (rl_signature a)), (hex_sized 32 (rl_key a)); [by rewrite Hver|..]; destruct Hver as [err ->]; eauto.
Qed.

(** The browser's side and the command's have the same effect and both
    succeed or both fail. *)
Definition agree (browser : Reply AdminBody * World) (program : Outcome (W := World)) : Prop :=
  browser.2 = program.2 ∧ (rp_Status browser.1 = 200 ↔ ∃ result, program.1 = inr result).

Lemma both_refuse status code text err (w : World) :
  status ≠ 200 → agree (admin_writeProblem status code text, w) (inl err, w).
Proof. intros Hs. split; [done|]. simpl. split; [done|by intros []]. Qed.

Lemma handlers_agree s r c root actor (w : World) :
  sq_Context r = Background → localActor root w = inr actor → asks s r c → on_desk w c →
  ∃ command args, command_line c = command :: args ∧ flag_token command = NotFlag
    ∧ agree (admin_run render (route_of c) s r w) (run_command Background actor command args w).
Proof.
  intros Hctx Hactor [_ Hask] Hdesk. apply localActor_authorized in Hactor.
  assert (authorize Admin.actor = None) as Hadmin by done.
  destruct c as [dryRun|dryRun|preserve dryRun|path payload dryRun|path payload dryRun|a path configuration ack|a];
    eexists _, _; (split; [reflexivity|]); (split; [reflexivity|]); cbn [route_of admin_run].
  - unfold repair, decode, posts, request_ctx in *. rewrite Hask, Hctx. unfold run_command. rewrite parse_switch. cbn.
    rewrite (Repair_actor _ _ _ Hadmin Hactor). apply answer_outcome.
  - unfold rollback, decode, posts, request_ctx in *. rewrite Hask, Hctx. unfold run_command. rewrite parse_switch. cbn.
    rewrite (Rollback_actor _ _ _ Hadmin Hactor). apply answer_outcome.
  - unfold uninstall, decode, posts, request_ctx in *. rewrite Hask, Hctx.
    destruct (parse_uninstall preserve dryRun) as (set & Hp & Hpre & Hdry).
    unfold run_command, cli_uninstall. rewrite Hp, Hpre, Hdry. cbn.
    rewrite (Uninstall_actor _ _ _ Hadmin Hactor). apply answer_outcome.
  - destruct (posts_bytes_read _ _ _ _ Hask) as [Hp Hq], (parse_file path dryRun) as (set & Hf & Hpath & Hdry).
    unfold restore, request_ctx, run_command, cli_restore. rewrite Hp, Hq, Hctx, Hf, Hpath, Hdry, Hdesk. cbn.
    rewrite (Restore_actor _ _ _ Hadmin Hactor). apply answer_outcome.
  - destruct (posts_bytes_read _ _ _ _ Hask) as [Hp Hq], (parse_file path dryRun) as (set & Hf & Hpath & Hdry).
    unfold applyConfiguration, readPayload, request_ctx, run_command, configure.
    rewrite Hp, Hq, Hctx, Hf, Hpath, Hdry, Hdesk. cbn.
    rewrite (Apply_actor _ _ _ Hadmin Hactor). apply answer_outcome.
  - destruct Hdesk as [Hr Hc]. pose proof (parseInstall_release a path configuration ack actor w Hr Hc) as Hp.
    unfold install, decode, posts, request_ctx in *. rewrite Hask, Hctx. cbn [in_Binary in_Signature in_PublicKey in_Configuration].
    rewrite decodeArtifact_encoded. unfold run_command. cbv zeta in Hp.
    destruct (hex_sized 64 (rl_signature a)), (hex_sized 32 (rl_key a));
      [|destruct Hp as [err ->]; by apply both_refuse..].
    rewrite Hp. cbn. rewrite (Install_actor _ _ _ Hadmin Hactor). apply answer_outcome.
  - pose proof (parseUpgrade_release a actor w Hdesk) as Hp.
    unfold upgrade, decode, posts, request_ctx in *. rewrite Hask, Hctx. cbn [up_Binary up_Signature up_PublicKey].
    pose proof (decodeArtifact_encoded (rl_bytes a) (rl_signature a) (rl_key a) "") as Hd.
    change (Std_EncodeToString "") with "" in Hd. rewrite Hd. unfold run_command.
    destruct (hex_sized 64 (rl_signature a)), (hex_sized 32 (rl_key a));
      [|destruct Hp as [err ->]; by apply both_refuse..].
    rewrite Hp. cbn. rewrite (Upgrade_actor _ _ _ Hadmin Hactor). apply answer_outcome.
Qed.

Context (range : gmap string requestBucket → list (string * requestBucket)).

(** C30: the browser interface and the command line are equivalent. For every
    operation that changes a host, take an operator's choice, spelled as flags
    [--name=value] in the arguments of the program and as JSON or a body in a
    request. The arguments are parsed, the files they name are read and the
    actor is found by the program; the request is routed, admitted and decoded
    by the server. Then both leave the same host and the same files, and the
    program prints a result exactly when the server answers 200. The request
    is one the server admits, not cancelled, and within the server's size
    limit, which the program does not have; the program's root is usable by
    the operator, and the signature and key that are typed are not file names.
    *)
Theorem browser_and_command_line_agree env r s root actor host c encode :
  let w := a_services s in
  admin_admitted range env r s → sq_Context r = Background → asks s r c →
  NewLocalHost root (ws_Abs root w) = inr host → localActor root w = inr actor → on_desk w c →
  let browser := secure render range env r s in
  let program := cli_run (flag "root" root :: command_line c) encode w in
  a_services browser.2 = program.2 ∧ (rp_Status browser.1 = 200 ↔ ∃ result, program.1.2 = Some result).
Proof.
  intros w Had Hctx Hask Hhost Hactor Hdesk. pose proof Hask as [[values Hroute] _].
  destruct (secure_admitted render range env r s _ values Hroute Had) as [Hstatus Hworld].
  destruct (handlers_agree s r c root actor w Hctx Hactor Hask Hdesk) as (command & args & Hline & Hname & Heffect & Hok).
  cbv zeta. rewrite Hstatus, Hworld. fold w. rewrite Heffect, Hok, Hline. unfold cli_run.
  assert (flag_Parse (flag "root" root :: command :: args) (flags [("root", FString "/")])
    = inr (<["root" := FString root]> (flags [("root", FString "/")]), command :: args)) as ->.
  { change (flag_Parse (flag "root" root :: command :: args) (flags [("root", FString "/")]))
      with (flag_Parse (command :: args) (<["root" := FString root]> (flags [("root", FString "/")]))).
    cbn [flag_Parse]. by rewrite Hname. }
  change (flag_string (<["root" := FString root]> (flags [("root", FString "/")])) "root") with root.
  cbv zeta. rewrite Hhost, Hactor.
  destruct (run_command Background actor command args w) as [[err|result] w']; simpl.
  - split; [done|]. split; [by intros []|by intros []].
  - destruct (encode result); simpl; split; try done; split; eauto.
Qed.
End agreement.
