(* ===== verification/Firstboot.v ===== *)
(** * First boot: [internal/firstboot/server.go] and the installer of
    [cmd/aquaos-firstboot/main.go]

    The one-time browser boundary of appliance images. Requests run
    concurrently: the part of a request up to the claim of the installation
    and the part after it are separate steps. *)

From Stdlib Require Import ZArith Lia String Ascii.
From stdpp Require Import base gmap strings list relations.
From S2P Require Import Prelude Domain Topics Config Operations HttpServer.

(** [net.ParseIP] of a text is a private IPv4 address. *)
Class Addresses := { private_IPv4 : string → bool }.

Record FirstbootRequest := mkFirstbootRequest {
  fr_SiteID : string; fr_Address : string; fr_Timezone : string; fr_AdvancedHistory : bool;
  fr_DedicatedAppliance : bool; fr_IndependentSafeguards : bool
}.
Record InstallResult := mkInstallResult { ir_AdminAccessToken : string }.
Class Runner (W : Type) := { runner_Install : Context → FirstbootRequest → W → (error + InstallResult) * W }.

Definition sitePattern : string → bool := segment_pattern "-"%char.
Definition timezone_char (c : ascii) : bool :=
  let n := Z.of_nat (nat_of_ascii c) in
  ((65 <=? n) && (n <=? 90)) || ((97 <=? n) && (n <=? 122)) || ((48 <=? n) && (n <=? 57))
  || existsb (Ascii.eqb c) ["_"; "+"; "/"; "-"]%char.
Definition timezonePattern (s : string) : bool :=
  forallb timezone_char (bytes_of s) && (1 <=? String.length s)%nat && (String.length s <=? 64)%nat.

Section server.
Context `{!Addresses, !StrictDecoder FirstbootRequest}.

Definition Firstboot_Validate (request : FirstbootRequest) : option error :=
  when negb (fr_DedicatedAppliance request) || negb (fr_IndependentSafeguards request) yield
    Some (ErrNew "both safety acknowledgements are required");;
  when negb (sitePattern (fr_SiteID request)) yield
    Some (ErrNew "site ID must start with a letter and use lowercase letters, numbers, or hyphens");;
  when negb (timezonePattern (fr_Timezone request)) yield Some (ErrNew "timezone contains unsupported characters");;
  when negb (private_IPv4 (fr_Address request)) yield Some (ErrNew "address must be a private IPv4 address");;
  None.

Record FirstbootServer := mkFirstbootServer { fb_token : string; fb_address : string; fb_running : bool }.

(** [context] and [runner] say that they are there. *)
Definition Firstboot_NewServer (context : bool) (token suggestedAddress : string) (runner : bool) :
    FirstbootServer + error :=
  when negb context yield inr (ErrNew "first-boot context is required");;
  when (String.length token <? 16)%nat yield inr (ErrNew "setup token must contain at least 16 characters");;
  when negb runner yield inr (ErrNew "first-boot runner is required");;
  when negb (bool_decide (suggestedAddress = "")) && negb (private_IPv4 suggestedAddress) yield
    inr (ErrNew "suggested address must be a private IPv4 address");;
  inl (mkFirstbootServer token suggestedAddress false).

Definition plain_error (status : Z) (text : string) : Reply string :=
  mkReply status [("Content-Type", "text/plain; charset=utf-8")] text.

Definition set_running (b : bool) (s : FirstbootServer) : FirstbootServer :=
  mkFirstbootServer (fb_token s) (fb_address s) b.

Definition network (s : FirstbootServer) : Reply string :=
  mkReply 200 [("Cache-Control", "no-store"); ("Content-Type", "application/json")] (fb_address s).

Context (render : error → string).

(** The checks of a request, up to the claim of the installation. *)
Definition install_begin (r : ServerRequest) (s : FirstbootServer) : (Reply string + FirstbootRequest) * FirstbootServer :=
  let provided := TrimPrefix "Bearer " (Get (sq_Header r) "Authorization") in
  when negb (String.length provided =? String.length (fb_token s))%nat || negb (bool_decide (provided = fb_token s)) yield
    (inl (plain_error 401 "invalid setup code"), s);;
  match decode_body 4096 r with
  | NotJSON _ => (inl (plain_error 400 "invalid installation request"), s)
  | ManyValues => (inl (plain_error 400 "installation request must contain one JSON object"), s)
  | One request =>
      iferr Firstboot_Validate request as err yield (inl (plain_error 400 (render err)), s);;
      when fb_running s yield (inl (plain_error 409 "installation is already running"), s);;
      (inr request, set_running true s)
  end.

Definition handoff (request : FirstbootRequest) (token : string) : string :=
  let q := quote_mark in
  "{" +:+ q +:+ "adminUrl" +:+ q +:+ ":" +:+ q +:+ "https://" +:+ fr_Address request +:+ ":8090/admin/#access_token="
    +:+ token +:+ q +:+ "}".

(** The rest, after the runner has answered, with the deferred release. *)
Definition install_finish (request : FirstbootRequest) (result : error + InstallResult) (s : FirstbootServer) :
    Reply string * FirstbootServer :=
  let s := set_running false s in
  match result with
  | inl _ => (plain_error 500 "installation failed; inspect the local system log", s)
  | inr result =>
      when (String.length (ir_AdminAccessToken result) <? 32)%nat yield
        (plain_error 500 "installation completed without a valid Admin handoff", s);;
      (mkReply 200 [("Cache-Control", "no-store"); ("Content-Type", "application/json")]
         (handoff request (ir_AdminAccessToken result)), s)
  end.
End server.

(** ** The installer *)
Class Appliance (W : Type) := {
  ap_Stat : string → W → option error;
  ap_Run : Context → string → list string → W → option error * W;
  ap_MkdirAll : string → W → option error * W;
  ap_WriteFile : string → string → W → option error * W;
  filepath_Dir_of : string → string
}.

Record installer := mkInstaller {
  i_script : string; i_payload : string; i_version : string; i_checksum : string; i_complete : string;
  i_adminToken : string
}.

Definition installer_args (i : installer) (request : FirstbootRequest) : list string :=
  ["--release"; i_payload i; "--repository"; i_payload i; "--version"; i_version i; "--sha256"; i_checksum i;
   "--site-id"; fr_SiteID request; "--address"; fr_Address request; "--timezone"; fr_Timezone request;
   "--admin-token"; i_adminToken i; "--apply"; "--ack-dedicated-appliance"; "--ack-independent-safeguards"]
  ++ (if fr_AdvancedHistory request then ["--advanced-history"] else []).

Definition installer_Install {W} `{!Appliance W} (i : installer) (ctx : Context) (request : FirstbootRequest) (w : W) :
    (error + InstallResult) * W :=
  match ap_Stat (i_complete i) w with
  | None => (inl (ErrNew "appliance installation is already complete"), w)
  | Some err =>
      when negb (errors_Is err "os.ErrNotExist") yield (inl (ErrWrap "inspect completion marker" err), w);;
      let '(err, w) := ap_Run ctx (i_script i) (installer_args i request) w in
      iferr err as err yield (inl (ErrWrap "run signed installer" err), w);;
      let '(err, w) := ap_MkdirAll (filepath_Dir_of (i_complete i)) w in
      iferr err as err yield (inl (ErrWrap "create state directory" err), w);;
      let '(err, w) := ap_WriteFile (i_complete i) ("complete" +:+ newline) w in
      iferr err as err yield (inl (ErrWrap "record completion" err), w);;
      (inr (mkInstallResult (i_adminToken i)), w)
  end.
#[export] Instance installer_Runner {W} `{!Appliance W} : Runner (installer * W) := {
  runner_Install ctx request iw := let '(r, w) := installer_Install iw.1 ctx request iw.2 in (r, (iw.1, w)) }.

(** *** Installation in steps

    While an installation runs, other requests are served: each call to the
    system is a step of its own. *)
Inductive Installing := Inspecting | Scripting | Preparing | Marking | Answered (result : error + InstallResult).

Definition installing_step {W} `{!Appliance W} (i : installer) (ctx : Context) (request : FirstbootRequest)
    (ph : Installing) (w : W) : Installing * W :=
  match ph with
  | Inspecting =>
      match ap_Stat (i_complete i) w with
      | None => (Answered (inl (ErrNew "appliance installation is already complete")), w)
      | Some err =>
          when negb (errors_Is err "os.ErrNotExist") yield (Answered (inl (ErrWrap "inspect completion marker" err)), w);;
          (Scripting, w)
      end
  | Scripting =>
      let '(err, w) := ap_Run ctx (i_script i) (installer_args i request) w in
      iferr err as err yield (Answered (inl (ErrWrap "run signed installer" err)), w);;
      (Preparing, w)
  | Preparing =>
      let '(err, w) := ap_MkdirAll (filepath_Dir_of (i_complete i)) w in
      iferr err as err yield (Answered (inl (ErrWrap "create state directory" err)), w);;
      (Marking, w)
  | Marking =>
      let '(err, w) := ap_WriteFile (i_complete i) ("complete" +:+ newline) w in
      iferr err as err yield (Answered (inl (ErrWrap "record completion" err)), w);;
      (Answered (inr (mkInstallResult (i_adminToken i))), w)
  | Answered result => (Answered result, w)
  end.

(** Alone, the steps are the installer. *)
Lemma installing_alone {W} `{!Appliance W} i ctx request (w : W) :
  Nat.iter 4 (fun x => installing_step i ctx request x.1 x.2) (Inspecting, w)
  = (let '(result, w) := installer_Install i ctx request w in (Answered result, w)).
Proof.
  unfold installer_Install. cbn [Nat.iter nat_rect installing_step fst snd].
  repeat (case_match; cbn [installing_step fst snd] in *; simplify_eq; try done).
Qed.

(** ** Interleavings *)
Section run.
Context `{!Addresses, !StrictDecoder FirstbootRequest} (render : error → string) (ctx : Context).
Context {W : Type} `{!Appliance W} (i : installer).

(** The server, the installations that are running with where they stand, and
    the world; finished ones with their results. *)
Record Boot := mkBoot {
  bt_server : FirstbootServer; bt_active : list (FirstbootRequest * Installing); bt_world : W;
  bt_done : list (error + InstallResult)
}.

Inductive boot_step (b : Boot) : Boot → Prop :=
| boot_refused r reply s :
    install_begin render r (bt_server b) = (inl reply, s) →
    boot_step b (mkBoot s (bt_active b) (bt_world b) (bt_done b))
| boot_begins r request s :
    install_begin render r (bt_server b) = (inr request, s) →
    boot_step b (mkBoot s (bt_active b ++ [(request, Inspecting)]) (bt_world b) (bt_done b))
| boot_advances before request ph after ph' w :
    bt_active b = before ++ (request, ph) :: after → installing_step i ctx request ph (bt_world b) = (ph', w) →
    boot_step b (mkBoot (bt_server b) (before ++ (request, ph') :: after) w (bt_done b))
| boot_finishes before request after result :
    bt_active b = before ++ (request, Answered result) :: after →
    boot_step b (mkBoot (install_finish request result (bt_server b)).2 (before ++ after) (bt_world b)
      (bt_done b ++ [result])).

Record boot_ok (b : Boot) : Prop := {
  bo_single : length (bt_active b) = (if fb_running (bt_server b) then 1 else 0)%nat;
  bo_valid : Forall (fun a => Firstboot_Validate a.1 = None) (bt_active b)
}.

Lemma install_begin_accepts r s request s' :
  install_begin render r s = (inr request, s') →
  TrimPrefix "Bearer " (Get (sq_Header r) "Authorization") = fb_token s ∧ Firstboot_Validate request = None
  ∧ fb_running s = false ∧ s' = set_running true s.
Proof.
  unfold install_begin. case_bool_decide as Ht; simpl; [|by rewrite orb_true_r].
  destruct (_ || _); [done|]. destruct (decode_body _ _) as [| |q]; [done..|].
  destruct (Firstboot_Validate q) eqn:Hv; [done|]. destruct (fb_running s) eqn:Hr; [done|].
  intros [= <- <-]. done.
Qed.
Lemma install_begin_refuses r s reply s' : install_begin render r s = (inl reply, s') → s' = s.
Proof. unfold install_begin. intros Hb. repeat case_match; by simplify_eq. Qed.
Lemma install_finish_server request result s : (install_finish request result s).2 = set_running false s.
Proof. unfold install_finish. destruct result; [done|]. by destruct (_ <? _)%nat. Qed.

Lemma boot_active_alone b before x after :
  boot_ok b → bt_active b = before ++ x :: after → before = [] ∧ after = [] ∧ fb_running (bt_server b) = true.
Proof.
  intros [Hs _] Ha. rewrite Ha, length_app in Hs. cbn in Hs. destruct (fb_running _); [|lia].
  destruct before; cbn in Hs; [|lia]. destruct after; cbn in Hs; [done|lia].
Qed.

Lemma boot_step_ok b b' : boot_step b b' → boot_ok b → boot_ok b'.
Proof.
  intros Hstep Hok. pose proof Hok as [Hs Hv].
  destruct Hstep as [r reply s Hb|r request s Hb|before request ph after ph' w Ha _|before request after result Ha].
  - apply install_begin_refuses in Hb as ->. by split.
  - apply install_begin_accepts in Hb as (_ & Hreq & Hr & ->). rewrite Hr in Hs. split; simpl.
    + rewrite length_app, Hs. done.
    + apply Forall_app. by auto.
  - destruct (boot_active_alone _ _ _ _ Hok Ha) as (-> & -> & Hr). rewrite Ha in Hv. apply Forall_cons in Hv as [? _].
    split; cbn; [by rewrite Hr|by auto].
  - destruct (boot_active_alone _ _ _ _ Hok Ha) as (-> & -> & Hr). split; [by rewrite install_finish_server|done].
Qed.

(** However requests interleave, at most one installation runs at a time,
    and every one that runs was acknowledged and validated: a site name of the
    allowed form, a plain time zone and a private address. *)
Theorem one_installation_at_a_time token address w b :
  rtc boot_step (mkBoot (mkFirstbootServer token address false) [] w []) b →
  (length (bt_active b) ≤ 1)%nat
  ∧ Forall (fun a => fr_DedicatedAppliance a.1 = true ∧ fr_IndependentSafeguards a.1 = true
      ∧ sitePattern (fr_SiteID a.1) = true ∧ timezonePattern (fr_Timezone a.1) = true
      ∧ private_IPv4 (fr_Address a.1) = true) (bt_active b).
Proof.
  intros Hb. assert (boot_ok b) as [Hs Hv]. { eapply rtc_invariant; [exact boot_step_ok| |exact Hb]. by split. }
  split; [rewrite Hs; destruct (fb_running _); lia|].
  eapply Forall_impl; [exact Hv|]. intros [q ph] Hq. cbn in *. unfold Firstboot_Validate in Hq.
  repeat match type of Hq with context [if negb ?x then _ else _] => destruct x eqn:?; simpl in Hq; [|done] end.
  destruct (fr_DedicatedAppliance q), (fr_IndependentSafeguards q); try done. simpl in Hq.
  repeat match type of Hq with context [if negb ?x then _ else _] => destruct x eqn:?; simpl in Hq; [|done] end. done.
Qed.
End run.

(** ** Installed once *)

(** An appliance: the files that exist, the arguments the installer was run
    with, and what each call answers. *)
Record Machine := mkMachine { mc_files : gset string; mc_runs : list (list string); mc_calls : nat }.

Section once.
Context (faults : nat → option error) (dir : string → string).

Definition mc_call (effect : Machine → Machine) (m : Machine) : option error * Machine :=
  let m' := mkMachine (mc_files m) (mc_runs m) (S (mc_calls m)) in
  match faults (mc_calls m) with Some err => (Some err, m') | None => (None, effect m') end.
Definition Machine_Appliance : Appliance Machine := {|
  ap_Stat path m := if bool_decide (path ∈ mc_files m) then None else Some (ErrVar "os.ErrNotExist");
  ap_Run ctx script args m := mc_call id (mkMachine (mc_files m) (mc_runs m ++ [args]) (mc_calls m));
  ap_MkdirAll path := mc_call id;
  ap_WriteFile path payload := mc_call (fun m => mkMachine ({[path]} ∪ mc_files m) (mc_runs m) (mc_calls m));
  filepath_Dir_of := dir
|}.
#[local] Existing Instance Machine_Appliance.

Context `{!Addresses, !StrictDecoder FirstbootRequest} (render : error → string) (ctx : Context) (i : installer).

Fixpoint successes (l : list (error + InstallResult)) : nat :=
  match l with [] => 0 | r :: l => (match r with inr _ => 1 | inl _ => 0 end) + successes l end.
Lemma successes_snoc l r : successes (l ++ [r]) = (successes l + match r with inr _ => 1 | inl _ => 0 end)%nat.
Proof. induction l as [|q l IH]; simpl; [lia|]. rewrite IH. lia. Qed.

(** What a step of an installation does, by where it stands. *)
Lemma installing_step_spec request ph m ph' m' :
  installing_step i ctx request ph m = (ph', m') →
  mc_files m ⊆ mc_files m'
  ∧ match ph with
    | Inspecting => mc_runs m' = mc_runs m
        ∧ (if decide (i_complete i ∈ mc_files m) then ∃ err, ph' = Answered (inl err) else ph' = Scripting)
    | Scripting => ph' = Preparing ∨ ∃ err, ph' = Answered (inl err)
    | Preparing => ph' = Marking ∨ ∃ err, ph' = Answered (inl err)
    | Marking => (∃ err, ph' = Answered (inl err)) ∨ ∃ r, ph' = Answered (inr r) ∧ i_complete i ∈ mc_files m'
    | Answered r => ph' = Answered r ∧ m' = m
    end.
Proof.
  destruct ph; cbn [installing_step ap_Stat ap_Run ap_MkdirAll ap_WriteFile Machine_Appliance]; unfold mc_call; cbn.
  - case_bool_decide; cbn; intros [= <- <-]; (split; [done|]); (split; [done|]);
      [rewrite decide_True by done; eauto|by rewrite decide_False].
  - destruct (faults _); intros [= <- <-]; cbn; eauto.
  - destruct (faults _); intros [= <- <-]; cbn; eauto.
  - destruct (faults _); intros [= <- <-]; cbn; [by eauto|]. split; [set_solver|]. right. eexists. split; [done|set_solver].
  - by intros [= <- <-].
Qed.

(** Before an installation succeeds nothing is asked; afterwards the marker is
    there, and an installation that runs has not passed its inspection. *)
Definition untouched (a : FirstbootRequest * Installing) : Prop :=
  match a.2 with Inspecting | Answered (inl _) => True | _ => False end.
Definition done_ok (b : Boot (W := Machine)) : Prop :=
  (successes (bt_done b) ≤ 1)%nat
  ∧ (successes (bt_done b) = 1%nat → i_complete i ∈ mc_files (bt_world b) ∧ Forall untouched (bt_active b))
  ∧ Forall (fun a => ∀ r, a.2 = Answered (inr r) → i_complete i ∈ mc_files (bt_world b)) (bt_active b).

(** A step of the installation that runs, once there is a marker. *)
Lemma untouched_step request ph m ph' m' :
  installing_step i ctx request ph m = (ph', m') → i_complete i ∈ mc_files m → untouched (request, ph) →
  untouched (request, ph') ∧ mc_runs m' = mc_runs m ∧ i_complete i ∈ mc_files m'.
Proof.
  intros (Hsub & Hph)%installing_step_spec Hc Hu. destruct ph as [| | | |[err|r]]; try done.
  - destruct Hph as [Hr Hd]. rewrite decide_True in Hd by done. destruct Hd as [err ->]. split_and!; [done..|by apply Hsub].
  - by destruct Hph as [-> ->].
Qed.

Lemma boot_step_done b b' : boot_step render ctx i b b' → boot_ok b → done_ok b → done_ok b'.
Proof.
  intros Hstep Hok (Hone & Hmark & Hans).
  destruct Hstep as [r reply s Hb|r request s Hb|before request ph after ph' m Ha Hi|before request after result Ha];
    unfold done_ok; cbn [bt_done bt_world bt_active].
  - done.
  - split_and!; [done| |].
    + intros H1. destruct (Hmark H1). split; [done|]. apply Forall_app. split; [done|]. by repeat constructor.
    + apply Forall_app. split; [done|]. by repeat constructor.
  - destruct (boot_active_alone _ _ _ _ Hok Ha) as (-> & -> & _). rewrite Ha in Hmark, Hans.
    split_and!; [done| |].
    + intros H1. destruct (Hmark H1) as [Hc [Hu _]%Forall_cons].
      destruct (untouched_step _ _ _ _ _ Hi Hc Hu) as (? & _ & ?). by repeat constructor.
    + apply Forall_cons in Hans as [Hans _]. apply installing_step_spec in Hi as (Hsub & Hph).
      repeat constructor. intros r. cbn. intros ->.
      destruct ph; [case_decide; naive_solver|naive_solver..| |]; [naive_solver|].
      destruct Hph as [Hr ->]. injection Hr as <-. by apply (Hans r).
  - destruct (boot_active_alone _ _ _ _ Hok Ha) as (-> & -> & _). rewrite Ha in Hmark, Hans. cbn [app].
    rewrite successes_snoc. apply Forall_cons in Hans as [Hans _]. destruct result as [err|r].
    + rewrite Nat.add_0_r. split_and!; [done| |done]. intros H1. by destruct (Hmark H1).
    + assert (successes (bt_done b) ≠ 1%nat) as Hz.
      { intros H1. destruct (Hmark H1) as [_ [Hu _]%Forall_cons]. done. }
      split_and!; [lia| |done]. intros _. split; [by apply (Hans r)|done].
Qed.

End once.
