(* ===== verification/MqttReconnect.v ===== *)
(** * The MQTT connection over time: [internal/mqtt/client.go]

    Construction of the client from a configuration, its health, the bounded
    wait for a broker's token, and the loop that reconnects with a jittered
    exponential delay after a connection was lost. The broker library makes a
    connection from its options; that function is a parameter. *)

From Stdlib Require Import ZArith Lia String.
From stdpp Require Import base gmap strings pretty list.
From S2P Require Import Prelude Domain Health Events Topics Envelope MqttClient.
From S2P Require Config Simulator Api.

(** ** Construction *)

(** What [New] sets of [paho.ClientOptions]; the connection-lost handler is the
    step [rs_lost] below. *)
Record ClientOptions := mkClientOptions {
  co_Broker : string; co_ClientID : string; co_Username : string; co_Password : string;
  co_ConnectTimeout : Duration; co_KeepAlive : Duration; co_AutoReconnect : bool; co_CleanSession : bool;
  co_OrderMatters : bool; co_WillTopic : string; co_WillPayload : string; co_WillQoS : Z; co_WillRetained : bool
}.

Section construction.
Context {K : Type} (paho_NewClient : ClientOptions → K).
Context `{!JSON, !Marshaler Envelope, !Marshaler (gmap string string)}.
Context (now : nat → Time) (newCorrelation : nat → CorrelationID * option error).

(** [client.client = ...] on the client that made its will. *)
Definition install_broker (k : K) (c : @Client unit) : @Client K :=
  mkClient k (cl_registry c) (cl_codec c) (cl_MaximumPayload c) (cl_QueueCapacity c) (cl_lastErr c)
    (cl_subscriptions c) (cl_queue c) (cl_reconcile c) (cl_running c) (cl_connects c) (cl_reconnects c)
    (cl_published c) (cl_received c) (cl_droppedExpired c) (cl_queueRejected c) (cl_tick c).

Definition client_options (cfg : Config.MQTT) (availability : string) (policy : TopicPolicy) (lwt : string) :
    ClientOptions :=
  mkClientOptions (Config.mq_Broker cfg) (Config.mq_ClientID cfg) (Config.mq_Username cfg) (Config.mq_Password cfg)
    (Config.mq_ConnectTimeout cfg) (Config.mq_KeepAlive cfg) false false true availability lwt (tp_QoS policy)
    (tp_Retained policy).

Definition Client_New (cfg : Config.MQTT) (hasLogger : bool) : @Client K + error :=
  when negb hasLogger yield inr (ErrNew "MQTT logger is required");;
  match NewTopicRegistry (Config.mq_SiteID cfg) with
  | inr err => inr err
  | inl registry =>
      match NewCodec (Config.mq_SiteID cfg) (Config.mq_MaximumPayload cfg) true with
      | inr err => inr err
      | inl codec =>
          let client := newClient tt registry codec (Config.mq_MaximumPayload cfg) (Config.mq_QueueCapacity cfg) in
          let '(availability, policy, _) := Topic registry PurposeAvailability "core" in
          match availabilityPayload now newCorrelation "offline" client with
          | (inl err, _) => inr err
          | (inr lwt, client) =>
              inl (install_broker (paho_NewClient (client_options cfg availability policy lwt)) client)
          end
      end
  end.

(** A client that is constructed has nothing queued, does not run, and has
    registered a will: when the broker loses it, the broker publishes its
    offline message, retained, on the topic of its own availability. *)
Theorem Client_New_will cfg hasLogger c :
  Client_New cfg hasLogger = inl c →
  ∃ options, cl_client c = paho_NewClient options
    ∧ co_WillTopic options = topic_root (cl_registry c) +:+ "/system/core/availability"
    ∧ co_WillQoS options = 1 ∧ co_WillRetained options = true ∧ co_AutoReconnect options = false
    ∧ (∃ correlation t, Encode t (cl_codec c) ("availability-" +:+ pretty (UnixNano t)) "aquaos-core" correlation t
         None None ({[ "status" := "offline" ]} : gmap string string) = inr (co_WillPayload options))
    ∧ cl_queue c = [] ∧ cl_running c = false ∧ cl_QueueCapacity c = Config.mq_QueueCapacity cfg.
Proof.
  unfold Client_New. destruct hasLogger; [|done]. destruct (NewTopicRegistry _) as [registry|] eqn:Hr; [|done].
  destruct (NewCodec _ _ _) as [codec|]; [|done]. cbn [negb].
  change (Topic registry PurposeAvailability "core") with
    (topic_root registry +:+ "/system/core/availability", mkTopicPolicy PurposeAvailability 1 true, @None error).
  unfold availabilityPayload. destruct (newCorrelation _) as [correlation [err|]]; [done|].
  set (t := UTC _). destruct (Encode t _ _ _ _ _ _ _ _) as [|lwt] eqn:He; [done|]. intros [= <-].
  eexists. simpl. split_and!; try done. by exists correlation, t.
Qed.
End construction.

(** ** Health *)
Section running.
Context {K : Type} `{!Broker K} (render : error → string).

Definition Client_Health (clock : Time) (c : @Client K) : Status :=
  let connected := IsConnected (cl_client c) in
  let condition := if connected then StateHealthy else StateUnhealthy in
  let status := NewStatus "mqtt" condition "" (UTC clock) in
  let message :=
    match cl_lastErr c with
    | Some err => render err
    | None => if negb connected then "disconnected" else st_Message status
    end in
  mkStatus (st_Name status) (st_State status) (st_Healthy status) message (st_CheckedAt status).

Lemma Client_Health_connected clock c :
  is_healthy (Client_Health clock c) ↔ IsConnected (cl_client c) = true.
Proof. unfold Client_Health, is_healthy. by destruct (IsConnected _). Qed.

(** ** Delays *)
Definition Millisecond : Duration := 10 ^ 6.

(** [random.Float64()] is [random]. A product that is no number or out of range
    reads as 0, below the bound. *)
Definition jitter (cfg : Config.MQTT) (random : float64) (delay : Duration) : Duration :=
  let factor := F64_add (F64 1) (F64_mul (F64_sub (F64_mul random (F64 2)) (F64 1)) (Config.mq_ReconnectJitter cfg)) in
  let result := Api.int64_of_float (F64_mul (F64 delay) factor) in
  if result <? Millisecond then Millisecond else result.

Definition next_delay (cfg : Config.MQTT) (delay : Duration) : Duration :=
  Api.int64_of_float (Simulator.math_Min (F64 (Config.mq_ReconnectMaximum cfg)) (F64_mul (F64 delay) (F64 2))).

Lemma jitter_bound cfg random delay : Millisecond ≤ jitter cfg random delay.
Proof. unfold jitter. set (result := Api.int64_of_float _). destruct (Z.ltb_spec result Millisecond); lia. Qed.

(** ** The reconnect loop *)
Context `{!JSON, !Marshaler Envelope, !Marshaler (gmap string string)}.
Context (now : nat → Time) (newCorrelation : nat → CorrelationID * option error).
Context (reconciler : nat → Context → K → option error * K).
Context (cfg : Config.MQTT).

(** Where the loop is: waiting for a lost connection, waiting for the timer of
    an attempt with the delay it was made from, or returned. *)
Inductive Phase := Idle | Delaying (delay timer : Duration) | Ended.

(** The client, its loop, the channel [reconnect] of capacity one, and the
    timers that have fired, one before each attempt. *)
Record Reconnecting := mkReconnecting {
  rc_client : @Client K; rc_phase : Phase; rc_signal : bool; rc_waited : list Duration
}.

(** [signalReconnect]: a full channel drops the signal. *)
Definition signalReconnect (r : Reconnecting) : Reconnecting :=
  mkReconnecting (rc_client r) (rc_phase r) true (rc_waited r).

(** The handler of a lost connection. *)
Definition connection_lost (err : error) (r : Reconnecting) : Reconnecting :=
  signalReconnect (mkReconnecting (setError (Some err) (rc_client r)) (rc_phase r) (rc_signal r) (rc_waited r)).

(** The first [select] took the signal. *)
Definition begin_reconnect (random : float64) (r : Reconnecting) : Reconnecting :=
  mkReconnecting (rc_client r) (Delaying (Config.mq_ReconnectMinimum cfg) (jitter cfg random (Config.mq_ReconnectMinimum cfg)))
    false (rc_waited r).

(** The timer fired: one attempt, then the next delay unless it connected. *)
Definition attempt (ctx : Context) (topics : list string) (random : float64) (delay timer : Duration) (r : Reconnecting) :
    Reconnecting :=
  let '(err, c) := connect now newCorrelation reconciler ctx true topics (rc_client r) in
  let phase :=
    match err with
    | None => Idle
    | Some _ => let delay := next_delay cfg delay in Delaying delay (jitter cfg random delay)
    end in
  mkReconnecting c phase (rc_signal r) (rc_waited r ++ [timer]).

(** Whatever the [select]s choose, and the handler at any moment. *)
Inductive reconnect_step : Reconnecting → Reconnecting → Prop :=
| rs_lost err r : reconnect_step r (connection_lost err r)
| rs_signal random r : rc_phase r = Idle → rc_signal r = true → reconnect_step r (begin_reconnect random r)
| rs_timer ctx topics random delay timer r :
    rc_phase r = Delaying delay timer → reconnect_step r (attempt ctx topics random delay timer r)
| rs_cancel r : reconnect_step r (mkReconnecting (rc_client r) Ended (rc_signal r) (rc_waited r)).

Definition launched (c : @Client K) : Reconnecting := mkReconnecting c Idle false [].

Definition waits_ok (r : Reconnecting) : Prop :=
  Forall (fun d => Millisecond ≤ d) (rc_waited r)
  ∧ match rc_phase r with Delaying _ timer => Millisecond ≤ timer | _ => True end.

(** Every attempt to reconnect comes after a timer of at least a millisecond:
    a broker that refuses every attempt is never asked in a tight loop,
    whatever the delays and the random source. *)
Theorem reconnect_waits c r : rtc reconnect_step (launched c) r → waits_ok r.
Proof.
  apply rtc_invariant; [|by split; constructor].
  clear. intros r1 r2 Hstep [Hw Hp]. destruct Hstep as [err r|random r|ctx topics random delay timer r Hphase|r].
  - by split.
  - split; [done|]. apply jitter_bound.
  - rewrite Hphase in Hp. unfold attempt. destruct (connect _ _ _ _ _ _ _) as [[err|] c'];
      (split; simpl; [apply Forall_app; by repeat constructor|]); [apply jitter_bound|done].
  - by split.
Qed.

(** Once the loop has returned, the client is not connected again. *)
Theorem ended_reconnects_no_more r r' :
  rc_phase r = Ended → rtc reconnect_step r r' →
  rc_phase r' = Ended ∧ rc_waited r' = rc_waited r ∧ cl_client (rc_client r') = cl_client (rc_client r)
  ∧ cl_connects (rc_client r') = cl_connects (rc_client r).
Proof.
  intros He Hr. revert He. induction Hr as [r|r1 r2 r3 Hstep _ IH]; intros He; [done|].
  destruct Hstep as [err r|random r Hi|ctx topics random delay timer r Hi|r]; try congruence; by apply IH.
Qed.

(** ** Waiting for a token *)

(** What the [select] of a turn chose. *)
Inductive Awaited := CtxDone | Deadline | Tick.

(** [completed n] is what [WaitTimeout(0)] answers in turn [n], [chosen n] what
    the select of that turn chose; [None] when the turns run out. *)
Fixpoint waitToken (completed : nat → bool) (result ctxErr : option error) (chosen : nat → Awaited) (turns n : nat) :
    option (option error) :=
  match turns with
  | O => None
  | S turns =>
      if completed n then Some result
      else match chosen n with
           | CtxDone => Some ctxErr
           | Deadline => Some (Some (ErrVar "context.DeadlineExceeded"))
           | Tick => waitToken completed result ctxErr chosen turns (S n)
           end
  end.

(** The wait is over at the latest in the turn in which the context is done or
    the deadline passes; it answers the token's own error exactly when the
    token completed no later than that turn, with ticks only before. *)
Theorem waitToken_bounded completed result ctxErr chosen m n :
  chosen (n + m)%nat ≠ Tick →
  ∃ answer, waitToken completed result ctxErr chosen (S m) n = Some answer
    ∧ ((∃ k, (k ≤ m)%nat ∧ completed (n + k)%nat = true ∧ ∀ j, (j < k)%nat → completed (n + j)%nat = false ∧ chosen (n + j)%nat = Tick)
         ∧ answer = result
       ∨ (∃ k, (k ≤ m)%nat ∧ chosen (n + k)%nat ≠ Tick ∧ ∀ j, (j ≤ k)%nat → completed (n + j)%nat = false)
         ∧ (answer = ctxErr ∨ answer = Some (ErrVar "context.DeadlineExceeded"))).
Proof.
  revert n. induction m as [|m IH]; intros n Hm; cbn [waitToken].
  - rewrite Nat.add_0_r in Hm. destruct (completed n) eqn:Hc.
    + eexists. split; [done|]. left. split; [|done]. exists 0%nat. rewrite Nat.add_0_r. split_and!; [lia|done|lia].
    + assert (∀ j, (j ≤ 0)%nat → completed (n + j)%nat = false) by (intros j ?; by replace (n + j)%nat with n by lia).
      destruct (chosen n) eqn:Hs; [| |done]; (eexists; split; [done|]; right; split; [|by eauto];
        exists 0%nat; rewrite Nat.add_0_r; split_and!; [lia|congruence|done]).
  - destruct (completed n) eqn:Hc.
    { eexists. split; [done|]. left. split; [|done]. exists 0%nat. rewrite Nat.add_0_r. split_and!; [lia|done|lia]. }
    destruct (chosen n) eqn:Hs.
    1-2: eexists; split; [done|]; right; split; [|by eauto]; exists 0%nat; rewrite Nat.add_0_r;
      split_and!; [lia|congruence|intros j ?; by replace (n + j)%nat with n by lia].
    destruct (IH (S n)) as (answer & Ha & Hcases); [by replace (S n + m)%nat with (n + S m)%nat by lia|].
    exists answer. split; [exact Ha|]. destruct Hcases as [[(k & ? & Hk & Hbefore) ->]|[(k & ? & Hk & Hbefore) Hans]].
    + left. split; [|done]. exists (S k). split_and!; [lia|by replace (n + S k)%nat with (S n + k)%nat by lia|].
      intros [|j] ?; [by rewrite Nat.add_0_r|]. replace (n + S j)%nat with (S n + j)%nat by lia. apply Hbefore. lia.
    + right. split; [|done]. exists (S k). split_and!; [lia|by replace (n + S k)%nat with (S n + k)%nat by lia|].
      intros [|j] ?; [by rewrite Nat.add_0_r|]. replace (n + S j)%nat with (S n + j)%nat by lia. apply Hbefore. lia.
Qed.
End running.
