(* ===== verification/Secrets.v ===== *)
(** * Secrets in files: [readSecretFile] of [internal/app/container.go] and
    [readToken] of [cmd/aquaos-admin/main.go]

    Both read at most 4097 bytes of a file and refuse more than 4096. What
    opening a path answers is an interface: an error, or the bytes the file
    yields and the error after them. *)

From Stdlib Require Import ZArith Lia String.
From stdpp Require Import base gmap strings list.
From S2P Require Import Prelude Config Http.

Record Stream := mkStream { sm_Bytes : string; sm_Error : option error }.
Class Files := { os_Open : string → error + Stream }.

(** [io.ReadAll(io.LimitReader(file, 4097))]. *)
Definition read_bounded (s : Stream) : error + string :=
  ReadLimited (Z.to_nat 4097) (mkResponse 0 (sm_Bytes s) (sm_Error s)).

Section secrets.
Context `{!Files}.

Definition readSecretFile (path : string) : error + string :=
  when bool_decide (path = "") yield inr "";;
  match os_Open path with
  | inl err => inl (ErrWrap "open token file" err)
  | inr file =>
      match read_bounded file with
      | inl err => inl (ErrWrap "read token file" err)
      | inr payload =>
          when 4096 <? Z.of_nat (String.length payload) yield inl (ErrNew "token file exceeds 4096 bytes");;
          let token := TrimSpace payload in
          when bool_decide (token = "") yield inl (ErrNew "token file is empty");;
          inr token
      end
  end.

Definition readToken (path : string) : error + string :=
  when bool_decide (path = "") yield inl (ErrNew "token-file is required");;
  match os_Open path with
  | inl err => inl err
  | inr file =>
      match read_bounded file with
      | inl err => inl err
      | inr payload =>
          let token := TrimSpace payload in
          when (4096 <? Z.of_nat (String.length payload)) || bool_decide (token = "") yield
            inl (ErrNew "token file must contain 1 to 4096 bytes");;
          inr token
      end
  end.

(** A file that holds a secret: it is read to its end without error, within the
    limit, and is not blank. *)
Definition holds_secret (path token : string) : Prop :=
  ∃ file, os_Open path = inr file ∧ sm_Error file = None
    ∧ Z.of_nat (String.length (sm_Bytes file)) ≤ 4096 ∧ token = TrimSpace (sm_Bytes file) ∧ token ≠ "".

Lemma read_bounded_within s payload :
  read_bounded s = inr payload ∧ Z.of_nat (String.length payload) ≤ 4096
  ↔ payload = sm_Bytes s ∧ sm_Error s = None ∧ Z.of_nat (String.length (sm_Bytes s)) ≤ 4096.
Proof.
  unfold read_bounded. split.
  - intros [Hr Hl]. destruct (ReadLimited_whole _ _ _ Hr) as [Hb He]; simpl in *; [lia|]. by subst.
  - intros (-> & He & Hl). split; [|done]. unfold ReadLimited. simpl. rewrite He. f_equal. apply substring_short. lia.
Qed.

(** A secret is read exactly from a file that holds one; a path that is empty
    reads as no secret. *)
Theorem readSecretFile_spec path token :
  readSecretFile path = inr token ↔ path = "" ∧ token = "" ∨ path ≠ "" ∧ holds_secret path token.
Proof.
  unfold readSecretFile, holds_secret. case_bool_decide as Hp; [split; [intros [= <-]; by left|]; by intros [[_ ->]|[? _]]|].
  destruct (os_Open path) as [err|file]; [split; [done|intros [[? _]|(_ & f & ? & _)]; done]|].
  destruct (read_bounded file) as [err|payload] eqn:Hr.
  { split; [done|]. intros [[? _]|(_ & f & [= ->] & He & Hl & _)]; [done|].
    by rewrite (proj1 (proj2 (read_bounded_within f (sm_Bytes f)) (conj eq_refl (conj He Hl)))) in Hr. }
  destruct (Z.ltb_spec 4096 (Z.of_nat (String.length payload))) as [Hlong|Hshort].
  { split; [done|]. intros [[? _]|(_ & f & [= ->] & He & Hl & _)]; [done|].
    rewrite (proj1 (proj2 (read_bounded_within f (sm_Bytes f)) (conj eq_refl (conj He Hl)))) in Hr. simplify_eq. lia. }
  destruct (proj1 (read_bounded_within file payload) (conj Hr Hshort)) as (-> & He & Hl).
  case_bool_decide as Ht.
  - split; [done|]. intros [[? _]|(_ & f & [= ->] & _ & _ & -> & ?)]; done.
  - split; [intros [= <-]; right; split; [done|]; by exists file|].
    intros [[? _]|(_ & f & [= ->] & _ & _ & -> & _)]; done.
Qed.

(** The administration program accepts exactly the same files, and no empty
    path. *)
Theorem readToken_spec path token :
  readToken path = inr token ↔ path ≠ "" ∧ readSecretFile path = inr token.
Proof.
  unfold readToken, readSecretFile. case_bool_decide as Hp; [naive_solver|].
  destruct (os_Open path) as [err|file]; [naive_solver|]. destruct (read_bounded file) as [err|payload]; [naive_solver|].
  destruct (4096 <? _); [naive_solver|]. simpl. case_bool_decide; naive_solver.
Qed.
End secrets.
