(* ===== verification/Assembly.v ===== *)
(** * The composition root: [New] of [internal/app/container.go]

    One function builds every component from a validated configuration or
    fails. It is translated stage by stage in the order of the source: the
    registries and the alarm rules, the safety engine and the command service,
    storage, the API, the adapters with their coordinator, MQTT with Home
    Assistant, and the lists of what is monitored and started. A component
    that is handed a shared object keeps a reference [Ref] to it. *)

From Stdlib Require Import ZArith Lia String.
From stdpp Require Import base gmap strings list pretty.
From S2P Require Import Prelude Domain Health Lifecycle Events Bus State Devices Sensors EquipmentRegistry Equipment.
From S2P Require Import Safety Output Alarms Evaluator Topics Envelope MqttClient MqttRouter Config ConfigValidation.
From S2P Require Import ConfigManager Container MqttReconnect Secrets.
From S2P Require Storage StorageBackend Http Access Api Esp32 Shelly Bench Simulator HomeAssistant.

(** ** Components and references *)

(** The components that may be monitored, and the health manager itself. *)
Inductive ComponentID :=
| HealthC | EventBusC | ConfigurationC | DevicesC | SensorsC | EquipmentC | StateC | SafetyC | OutputC | AlarmsC
| EvaluatorC | StorageC | MqttC | HomeAssistantC | SimulatorC | ShellyC | ESP32C | ApiC.

#[export] Instance ComponentID_eq_dec : EqDecision ComponentID.
Proof. solve_decision. Defined.

(** References to the objects the container shares among its components. *)
Inductive Ref :=
| TheBus | TheEngine | TheStore | TheRouter | TheTransport | TheInventory | TheAlarms | TheCommands | TheServices | TheShelly.

(** Binds the result of a constructor, or fails with [wrap] around its error. *)
Abbreviation construct e wrap k := (match e with inl x => k x | inr err => inl (wrap err) end).

Definition flip_sum {A B} (e : A + B) : B + A := match e with inl a => inr a | inr b => inl b end.

(** ** Adapters from their configuration *)
Definition PowerReturnPolicy_of (s : string) : Shelly.PowerReturnPolicy :=
  if bool_decide (s = "off") then Shelly.PowerReturnOff
  else if bool_decide (s = "restore") then Shelly.PowerReturnRestore
  else Shelly.PowerReturnOther s.

Definition shelly_value (endpoint : ShellyEndpoint) : Shelly.Endpoint :=
  Shelly.mkEndpoint (sh_ID endpoint) (sh_EquipmentID endpoint) (sh_BaseURL endpoint) (sh_Channel endpoint)
    (sh_PollInterval endpoint) (sh_RequestTimeout endpoint) (sh_Retries endpoint) (sh_SafeOn endpoint)
    (PowerReturnPolicy_of (sh_PowerReturnPolicy endpoint)).

Definition shelly_policy (endpoint : ShellyEndpoint) : Bench.ShellyPolicy :=
  Bench.mkShellyPolicy (shelly_value endpoint) (sh_AlarmRuleID endpoint).

(** [endpoint.ProbeIDs[0]] and [[1]]; a shorter slice is a panic. *)
Definition index_panic : error := ErrVar "runtime error: index out of range".
Definition probe_pair (probes : list string) : error + string * string :=
  match probes with
  | first :: second :: _ => inr (first, second)
  | _ => inl index_panic
  end.

Definition esp32_value (token : string) (probes : string * string) (endpoint : ESP32Endpoint) : Esp32.Endpoint :=
  Esp32.mkEndpoint (ec_ID endpoint) (ec_DeviceID endpoint) (ec_BaseURL endpoint) token probes (ec_PollInterval endpoint)
    (ec_RequestTimeout endpoint) (ec_FreshFor endpoint) (ec_MaximumClockSkew endpoint) (ec_MaximumDifference endpoint).

Fixpoint esp32_policies `{!Files} (endpoints : list ESP32Endpoint) : error + list Bench.ESP32Policy :=
  match endpoints with
  | [] => inr []
  | endpoint :: rest =>
      match readSecretFile (ec_BearerTokenFile endpoint) with
      | inl err => inl (ErrWrap "construct ESP32 adapter credentials" err)
      | inr token =>
          match probe_pair (elems (ec_ProbeIDs endpoint)) with
          | inl err => inl err
          | inr probes =>
              match esp32_policies rest with
              | inl err => inl err
              | inr policies =>
                  inr (Bench.mkESP32Policy (esp32_value token probes endpoint) (ec_AlarmRuleID endpoint) :: policies)
              end
          end
      end
  end.

(** The loop that routes the equipment of every endpoint to the adapter. *)
Fixpoint register_routes (endpoints : list Shelly.Endpoint) (r : ExecutorRouter Ref unit) :
    error + ExecutorRouter Ref unit :=
  match endpoints with
  | [] => inr r
  | endpoint :: rest =>
      let '(r, err) := Router_Register (Shelly.se_EquipmentID endpoint) (Some TheShelly) r in
      iferr err as err yield inl (ErrWrap "register Shelly output route" err);; register_routes rest r
  end.

(** What the adapters' stage adds: the alarm manager with the rules of the
    coordinator, the routes, and the adapters that are enabled. *)
Record AdapterParts (M : Type) := mkAdapterParts {
  ap_alarms : M; ap_router : ExecutorRouter Ref unit; ap_bench : option Bench.Coordinator;
  ap_shelly : option Shelly.Adapter; ap_esp32 : option Esp32.Adapter
}.
Arguments mkAdapterParts {M}.
Arguments ap_alarms {M}.
Arguments ap_router {M}.
Arguments ap_bench {M}.
Arguments ap_shelly {M}.
Arguments ap_esp32 {M}.

Section adapters.
Context `{!URLParser, !Http.URLWriter, !Files, !MapRange}.
Context {M : Type} `{!Bench.AlarmEngine M}.

Definition construct_shelly (endpoints : list Shelly.Endpoint) (router : ExecutorRouter Ref unit) :
    error + Shelly.Adapter * ExecutorRouter Ref unit :=
  construct (Shelly.NewHTTPClient (Some tt)) id (fun _ =>
  construct (Shelly.NewAdapter true endpoints) (ErrWrap "construct Shelly adapter") (fun adapter =>
  match register_routes endpoints router with
  | inl err => inl err
  | inr router => inr (adapter, router)
  end)).

Definition construct_esp32 (endpoints : list Esp32.Endpoint) : error + Esp32.Adapter :=
  construct (Esp32.NewHTTPClient (Some tt)) id (fun _ =>
  construct (Esp32.NewAdapter true endpoints) (ErrWrap "construct ESP32 adapter") inr).

Definition construct_adapters (cfg : Config) (alarms : M) (router : ExecutorRouter Ref unit) : error + AdapterParts M :=
  let adapters := cf_Adapters cfg in
  when negb (ad_ShellyEnabled adapters || ad_ESP32Enabled adapters) yield
    inr (mkAdapterParts alarms router None None None);;
  let shellyEndpoints := shelly_value <$> elems (ad_ShellyEndpoints adapters) in
  let shellyPolicies := shelly_policy <$> elems (ad_ShellyEndpoints adapters) in
  match esp32_policies (elems (ad_ESP32Endpoints adapters)) with
  | inl err => inl err
  | inr espPolicies =>
      let espEndpoints := Bench.ey_Endpoint <$> espPolicies in
      construct (Bench.NewCoordinator true shellyPolicies espPolicies) (ErrWrap "construct bench coordinator") (fun bench =>
      let '(err, alarms) :=
        Bench.RegisterRules Background (map_range (map_to_list (Bench.cd_shellyRules bench)))
          (map_range (map_to_list (Bench.cd_espRules bench))) bench alarms in
      iferr err as err yield inl (ErrWrap "register bench alarm rules" err);;
      match (if ad_ShellyEnabled adapters then
               match construct_shelly shellyEndpoints router with
               | inl err => inl err
               | inr (adapter, router) => inr (Some adapter, router)
               end
             else inr (None, router)) with
      | inl err => inl err
      | inr (shelly, router) =>
          match (if ad_ESP32Enabled adapters then
                   match construct_esp32 espEndpoints with inl err => inl err | inr adapter => inr (Some adapter) end
                 else inr None) with
          | inl err => inl err
          | inr esp32 => inr (mkAdapterParts alarms router (Some bench) shelly esp32)
          end
      end)
  end.
End adapters.

(** ** Storage and the API *)

(** A subscriber of the bus, by the address of its handler. *)
Definition subscribe_as (handler : nat) : EventSubscriber Bus := {|
  bus_Subscribe eventType b :=
    let '(b, (s, err)) := Subscribe eventType (Some handler) b in ((default 0%nat s, err), b);
  bus_Unsubscribe := Unsubscribe
|}.
Definition sink_handler : nat := 0.
Definition exporter_handler : nat := 1.
Definition home_assistant_handler : nat := 2.

(** There is no authorizer of another kind than the default. *)
Abbreviation ApiServer := (Api.Server Access.BearerAuthenticator Empty_set Ref).

Section services.
Context `{!URLParser, !StorageBackend.Formats, !Files}.

Definition StorageManager : Type := Storage.Disabled + @Storage.Writer StorageBackend.InfluxClient.

Definition influx_config (cfg : Config) (token : string) : StorageBackend.InfluxConfig :=
  StorageBackend.mkInfluxConfig (ix_URL (cf_Storage cfg)) (ix_Organization (cf_Storage cfg)) (ix_Bucket (cf_Storage cfg)) token.

Definition construct_storage (cfg : Config) (bus : Bus) : error + StorageManager * Bus :=
  when negb (ix_Enabled (cf_Storage cfg)) yield inr (inl Storage.NewDisabled, bus);;
  match readSecretFile (ix_TokenFile (cf_Storage cfg)) with
  | inl err => inl (ErrWrap "construct InfluxDB credentials" err)
  | inr token =>
      construct (StorageBackend.NewInfluxClient (influx_config cfg token) true) (ErrWrap "construct InfluxDB client") (fun client =>
      construct (Storage.New (storage_config cfg) (Some client) true) (ErrWrap "construct storage writer") (fun writer =>
      construct (StorageBackend.NewEventSink true true) id (fun _ =>
      let '(_, sinkErr, bus) := StorageBackend.Sink_Attach (EventSubscriber0 := subscribe_as sink_handler) bus in
      iferr sinkErr as err yield inl (ErrWrap "attach storage event sink" err);;
      inr (inr writer, bus))))
  end.

Definition administrator : Access.Principal := Access.mkPrincipal "local-administrator" [Access.RoleAdministrator].
Definition api_dependencies : Api.Option_ Access.BearerAuthenticator Empty_set :=
  Api.WithDependencies (Api.mkDependencies true true true true true true true).

Definition construct_api (cfg : Config) (now : Time) : error + ApiServer :=
  let http := cf_HTTP cfg in
  when bool_decide (ht_BearerTokenFile http = "") yield inr (Api.Api_New http now [api_dependencies] TheServices);;
  match readSecretFile (ht_BearerTokenFile http) with
  | inl err => inl (ErrWrap "construct API credentials" err)
  | inr token =>
      construct (Access.NewBearerAuthenticator token administrator) (ErrWrap "construct API authenticator") (fun authenticator =>
      inr (Api.Api_New http now [api_dependencies; Api.WithSecurity (Some authenticator) None] TheServices))
  end.
End services.

(** ** MQTT and Home Assistant *)
Definition notification_rules (cfg : Config) : list RuleID :=
  ar_ID <$> filter (fun rule => "home-assistant" ∈ elems (ar_Notifications rule)) (elems (cf_AlarmRules cfg)).

Definition home_assistant_config (cfg : Config) : HomeAssistant.HAConfig :=
  let mqtt := cf_MQTT cfg in
  HomeAssistant.mkHAConfig (mq_SiteID mqtt) (ha_CommandTTL (mq_HomeAssistant mqtt)) (mq_MaximumPayload mqtt)
    ((fun item => HomeAssistant.mkTombstone (tb_Component item) (tb_ObjectID item)) <$> elems (ha_Tombstones (mq_HomeAssistant mqtt)))
    (notification_rules cfg).

Definition alarm_event_types : list EventType := [AlarmRaised; AlarmAcknowledged; AlarmCleared; AlarmEscalated].

(** The subscriptions of [HandleAlarmEvent]; those already made stay. *)
Fixpoint subscribe_alarms (types : list EventType) (bus : Bus) : error + Bus :=
  match types with
  | [] => inr bus
  | eventType :: types =>
      let '(bus, (_, err)) := Subscribe eventType (Some home_assistant_handler) bus in
      iferr err as err yield inl (ErrWrap "attach Home Assistant alarm status" err);; subscribe_alarms types bus
  end.

Abbreviation HAManager := (@HomeAssistant.HAManager Ref Ref Ref Ref).

Section mqtt.
Context {K : Type} (paho_NewClient : ClientOptions → K).
Context `{!JSON, !Marshaler Envelope, !Marshaler (gmap string string)}.
Context (mqttNow : nat → Time) (newCorrelation : nat → CorrelationID * option error).

Record MqttParts := mkMqttParts {
  mp_client : option (@Client K); mp_homeAssistant : option HAManager; mp_bus : Bus
}.

Definition construct_home_assistant (cfg : Config) (client : @Client K) (bus : Bus) : error + MqttParts :=
  when negb (ha_Enabled (mq_HomeAssistant (cf_MQTT cfg))) yield inr (mkMqttParts (Some client) None bus);;
  construct (HomeAssistant.HA_New true (home_assistant_config cfg) TheTransport TheInventory (Some TheAlarms) TheCommands)
    (ErrWrap "construct Home Assistant integration") (fun homeAssistant =>
  let client := SetReconciler (Some home_assistant_handler) client in
  match subscribe_alarms alarm_event_types bus with
  | inl err => inl err
  | inr bus => inr (mkMqttParts (Some client) (Some homeAssistant) bus)
  end).

Definition construct_mqtt (cfg : Config) (bus : Bus) : error + MqttParts :=
  let mqtt := cf_MQTT cfg in
  when negb (mq_Enabled mqtt) yield inr (mkMqttParts None None bus);;
  construct (Client_New paho_NewClient mqttNow newCorrelation mqtt true) (ErrWrap "construct MQTT client") (fun client =>
  construct (NewEventExporter (mq_SiteID mqtt) (mq_MaximumPayload mqtt) (Some TheTransport) true)
    (ErrWrap "construct MQTT event exporter") (fun _ =>
  let '(_, exporterErr, bus) := Attach (EventSubscriber0 := subscribe_as exporter_handler) bus in
  iferr exporterErr as err yield inl (ErrWrap "attach MQTT event exporter" err);;
  construct_home_assistant cfg client bus)).
End mqtt.

(** ** What is monitored and started *)
Definition core_components : list ComponentID :=
  [EventBusC; ConfigurationC; DevicesC; SensorsC; EquipmentC; StateC; SafetyC; OutputC; AlarmsC; EvaluatorC; StorageC].

Definition if_some {A} (o : option A) (id : ComponentID) : list ComponentID :=
  match o with Some _ => [id] | None => [] end.

(** Whether readiness depends on a component; only components that are there
    are asked about. *)
Definition required (cfg : Config) (component : ComponentID) : bool :=
  let required := true in
  let required := if bool_decide (component = MqttC) then mq_RequiredForReady (cf_MQTT cfg) else required in
  let required := if bool_decide (component = HomeAssistantC) then false else required in
  if bool_decide (component = StorageC) && ix_Enabled (cf_Storage cfg) then false else required.

(** A component of the lifecycle: as it is, or wrapped by [NewOptional]. *)
Inductive Entry := Plain (c : ComponentID) | Wrapped (c : ComponentID).

Definition entry (cfg : Config) (component : ComponentID) : Entry :=
  if bool_decide (component = MqttC) || bool_decide (component = HomeAssistantC)
     || bool_decide (component = StorageC) && ix_Enabled (cf_Storage cfg)
  then Wrapped component else Plain component.

Definition entry_component (e : Entry) : ComponentID := match e with Plain c | Wrapped c => c end.

(** What [Start] of an entry answers: an optional one never fails. *)
Definition entry_start (start : ComponentID → option error) (e : Entry) : option error :=
  match e with Plain c => start c | Wrapped _ => None end.

(** What [Stop] of an entry answers: an optional one that did not start is not
    stopped. *)
Definition entry_stop (start stop : ComponentID → option error) (e : Entry) : option error :=
  match e with
  | Plain c => stop c
  | Wrapped c => match start c with None => stop c | Some _ => None end
  end.

(** The lifecycle manager numbers its components in their order. *)
Definition lifecycle_of (entries : list Entry) : Lifecycle := NewConfigured (seq 0 (length entries)).
Definition numbered (entries : list Entry) (f : Entry → option error) (n : nat) : option error :=
  match entries !! n with Some e => f e | None => None end.

(** [Start] of the container's lifecycle manager, given the names of the
    components, what their own [Start] and [Stop] answer, and which waits the
    context or a deadline cut short. *)
Definition start_entries (entries : list Entry) (name : nat → string) (start stop interrupted : ComponentID → option error) :
    Lifecycle * option error :=
  Lifecycle_Start name (numbered entries (entry_start start)) (numbered entries (entry_stop start stop))
    (numbered entries (fun e => interrupted (entry_component e))) (lifecycle_of entries).

Definition stop_entries (entries : list Entry) (name : nat → string) (start stop : ComponentID → option error) (m : Lifecycle) :
    Lifecycle * option error :=
  Lifecycle_Stop name (numbered entries (entry_stop start stop)) m.

(** The health manager, given what each component's [Health] answers. *)
Definition register_components (cfg : Config) (monitored : list ComponentID) (status : ComponentID → Status) : HealthManager :=
  foldl (fun m component => RegisterComponent (status component) (required cfg component) m) NewHealthManager monitored.

(** ** The container *)
Section container.
Context `{!URLParser, !NetParser, !MapRange, !Http.URLWriter, !StorageBackend.Formats, !Files, !Digester, !SHA256}.
Context (render : error → string).
Context `{!JSON, !Marshaler Envelope, !Marshaler (gmap string string), !Marshaler Device, !Marshaler Sensor}.
Context `{!Marshaler Equipment, !Marshaler Alarm, !Marshaler Config}.
(** [W] is a reference to the bus by which components publish, [V] what sets
    the level of the log. *)
Context {W V K : Type} `{!Publisher W} (bus_ref : W) (paho_NewClient : ClientOptions → K).
(** What clocks, generators and factories answer. *)
Context (factory : nat → FactoryEnv) (fresh : nat → string * option error) (observing : ObserveEnv) (apiNow : Time).
Context (mqttNow : nat → Time) (newCorrelation : nat → CorrelationID * option error).

Record Container := mkContainer {
  ct_Registries : @Registries W;
  ct_Evaluator : @Evaluator Ref W;
  ct_State : StateManager;
  ct_Configuration : @ConfigManager FileLoader W V;
  ct_MQTT : option (@Client K);
  ct_Storage : StorageManager;
  ct_API : ApiServer;
  ct_Health : (ComponentID → Status) → HealthManager;
  ct_Events : Bus;
  ct_Safety : Engine;
  ct_Output : @Service Ref Ref Ref W;
  ct_OutputRouter : ExecutorRouter Ref unit;
  ct_Lifecycle : list Entry;
  ct_Simulator : option Simulator.Adapter;
  ct_Shelly : option Shelly.Adapter;
  ct_ESP32 : option Esp32.Adapter;
  ct_Bench : option Bench.Coordinator;
  ct_HomeAssistant : option HAManager
}.

(** The alarm manager lives in the evaluator that drives it. *)
Definition ct_Alarms (c : Container) : @AlarmManager W := ev_engine (ct_Evaluator c).

#[local] Instance Alarms_Engine : Bench.AlarmEngine (@AlarmManager W) := {|
  Bench.engine_RegisterRule := fun ctx rule m => let '(m, err) := RegisterRule ctx rule m in (err, m);
  Bench.engine_Observe := fun ctx o m => let '(m, r) := Observe observing ctx o m in (r, m)
|}.

(** Supplied options; the last level setter counts. *)
Definition apply_options (supplied : list V) : option V := foldl (fun _ setter => Some setter) None supplied.

(** The components that need no secret and no connection. *)
Record Core := mkCore {
  cr_registries : @Registries W; cr_evaluator : @Evaluator Ref W; cr_safety : Engine; cr_output : @Service Ref Ref Ref W
}.

Definition construct_core (cfg : Config) : error + Core :=
  let '(err, registries) :=
    registerAdapterInventory factory fresh Background cfg (empty_registries (Some bus_ref)) in
  iferr err as err yield inl (ErrWrap "register configured adapter inventory" err);;
  let alarmManager := NewManagerWithDependencies (Some bus_ref) 16 in
  construct (flip_sum (configuredThresholdRules cfg)) (ErrWrap "construct configured alarm rules") (fun thresholdRules =>
  construct (NewEvaluator (Some TheBus) (Some alarmManager) thresholdRules) (ErrWrap "construct alarm evaluator") (fun evaluator =>
  construct (NewEngine true (configured_profiles cfg)) (ErrWrap "construct safety engine") (fun engine =>
  construct (NewServiceWithDependencies true TheEngine TheStore TheRouter (Some bus_ref)) (ErrWrap "construct output service") (fun service =>
  inr (mkCore registries evaluator engine service))))).

Definition assemble (cfg : Config) (configPath : string) (logLevels : option V) : error + Container :=
  let bus := NewBus [ap_EventConcurrency (cf_Application cfg)] in
  let configuration := NewConfigManager cfg (Some (mkFileLoader configPath)) (Some bus_ref) logLevels in
  match construct_core cfg with
  | inl err => inl err
  | inr core =>
      match construct_storage cfg bus with
      | inl err => inl err
      | inr (storage, bus) =>
          match construct_api cfg apiNow with
          | inl err => inl err
          | inr api =>
              match construct_adapters cfg (ev_engine (cr_evaluator core)) (NewExecutorRouter tt) with
              | inl err => inl err
              | inr parts =>
                  match construct_mqtt paho_NewClient mqttNow newCorrelation cfg bus with
                  | inl err => inl err
                  | inr mqtt =>
                      let simulator := if cf_SimulatorEnabled cfg then Some Simulator.NewAdapter else None in
                      let monitored := core_components ++ if_some (mp_client mqtt) MqttC
                        ++ if_some (mp_homeAssistant mqtt) HomeAssistantC ++ if_some simulator SimulatorC
                        ++ if_some (ap_shelly parts) ShellyC ++ if_some (ap_esp32 parts) ESP32C ++ [ApiC] in
                      inr (mkContainer (cr_registries core) (set_engine (ap_alarms parts) (cr_evaluator core))
                             NewStateManager configuration (mp_client mqtt) storage api (register_components cfg monitored)
                             (mp_bus mqtt) (cr_safety core) (cr_output core) (ap_router parts)
                             (Plain HealthC :: (entry cfg <$> monitored)) simulator (ap_shelly parts) (ap_esp32 parts)
                             (ap_bench parts) (mp_homeAssistant mqtt))
                  end
              end
          end
      end
  end.

Definition New (cfg : Config) (configPath : string) (hasLogger : bool) (supplied : list V) : error + Container :=
  when negb hasLogger yield inl (ErrNew "construct application: logger is required");;
  when bool_decide (configPath = "") yield inl (ErrNew "construct application: config path is required");;
  iferr Config_Validate render cfg as err yield inl (ErrWrap "construct application: validate config" err);;
  assemble cfg configPath (apply_options supplied).
End container.
