(* ===== verification/AssemblySafety.v ===== *)
(** * What the composition root guarantees

    The container that [New] answers for a configuration: which equipment can
    be switched and under which safety profile, what readiness and startup
    depend on, and for which validated configurations the construction
    succeeds. *)

From Stdlib Require Import ZArith Lia String.
From stdpp Require Import base gmap strings list pretty.
From S2P Require Import Prelude Domain Health Lifecycle Events Bus State Devices Sensors EquipmentRegistry Equipment.
From S2P Require Import Safety Output Alarms Evaluator Topics Envelope MqttClient MqttRouter Config ConfigValidation.
From S2P Require Import ConfigManager Container MqttReconnect Secrets Assembly.
From S2P Require Storage StorageBackend Http Access Api Esp32 Shelly Bench Simulator HomeAssistant.

(** ** Adapters and routes *)
Lemma shelly_add_checked `{!URLParser, !Http.URLWriter} i e m :
  checked (fun k (m : gmap string Shelly.Endpoint) => is_Some (m !! k)) [Shelly.se_EquipmentID e]
    (Shelly.validateEndpoint e = None) m (Shelly.add_endpoint i e m).
Proof.
  unfold Shelly.add_endpoint. destruct (Shelly.validateEndpoint e); [simpl; naive_solver|].
  case_bool_decide as Hd; simpl.
  - intros (_ & _ & Hk). apply (Hk _ (list_elem_of_here _ _)). done.
  - split; [split_and!; [done|apply NoDup_singleton|by intros k ->%list_elem_of_singleton]|].
    intros k. rewrite list_elem_of_singleton. destruct (decide (k = Shelly.se_EquipmentID e)) as [->|Hne].
    + rewrite lookup_insert_eq. by split; [left|eauto].
    + rewrite lookup_insert_ne by done. naive_solver.
Qed.

Lemma esp32_add_checked `{!URLParser, !Http.URLWriter} i e seen :
  checked (fun k (t : gset string) => k ∈ t) [Esp32.en_ID e] (Esp32.validateEndpoint e = None) seen
    (Esp32.add_endpoint i e seen).
Proof.
  unfold Esp32.add_endpoint. destruct (Esp32.validateEndpoint e); [simpl; naive_solver|].
  case_bool_decide as Hd; simpl.
  - intros (_ & _ & Hk). by apply (Hk _ (list_elem_of_here _ _)).
  - split; [split_and!; [done|apply NoDup_singleton|by intros k ->%list_elem_of_singleton]|]. set_solver.
Qed.

(** An adapter is built exactly from valid endpoints with distinct equipment,
    and holds exactly these. *)
Lemma shelly_adapter_built `{!URLParser, !Http.URLWriter} endpoints :
  match Shelly.NewAdapter true endpoints with
  | inl a => Forall (fun e => Shelly.validateEndpoint e = None) endpoints ∧ NoDup (Shelly.se_EquipmentID <$> endpoints)
      ∧ ∀ id, is_Some (Shelly.sa_endpoints a !! id) ↔ id ∈ Shelly.se_EquipmentID <$> endpoints
  | inr _ => ¬ (Forall (fun e => Shelly.validateEndpoint e = None) endpoints ∧ NoDup (Shelly.se_EquipmentID <$> endpoints))
  end.
Proof.
  unfold Shelly.NewAdapter. simpl.
  pose proof (range_loop_checked Shelly.add_endpoint _ _ _ endpoints 0 ∅ shelly_add_checked) as Hc.
  rewrite bind_single in Hc. destruct (range_loop _ _ _ _) as [err|m]; simpl in Hc.
  - intros [? ?]. apply Hc. split_and!; [done..|]. intros k _. rewrite lookup_empty. by intros [].
  - destruct Hc as ((? & ? & _) & Hin). split_and!; [done..|]. intros id. rewrite Hin, lookup_empty.
    split; [by intros [|[]]|by left].
Qed.

Lemma esp32_adapter_built `{!URLParser, !Http.URLWriter} endpoints :
  Forall (fun e => Esp32.validateEndpoint e = None) endpoints → NoDup (Esp32.en_ID <$> endpoints) →
  ∃ a, Esp32.NewAdapter true endpoints = inl a.
Proof.
  intros Hv Hnd. unfold Esp32.NewAdapter. simpl.
  pose proof (range_loop_checked Esp32.add_endpoint _ _ _ endpoints 0 ∅ esp32_add_checked) as Hc.
  rewrite bind_single in Hc. destruct (range_loop _ _ _ _) as [err|m]; simpl in Hc; [|by eauto].
  destruct Hc. split_and!; [done..|set_solver].
Qed.

Lemma register_routes_spec endpoints r :
  match register_routes endpoints r with
  | inr r' => ∀ id, is_Some (routes r' !! id) ↔ id ∈ Shelly.se_EquipmentID <$> endpoints ∨ is_Some (routes r !! id)
  | inl _ => ¬ (Forall (fun e => validateUUID (Shelly.se_EquipmentID e) = None) endpoints
       ∧ NoDup (Shelly.se_EquipmentID <$> endpoints) ∧ ∀ e, e ∈ endpoints → routes r !! Shelly.se_EquipmentID e = None)
  end.
Proof.
  revert r. induction endpoints as [|e rest IH]; intros r; simpl; [set_solver|]. unfold Router_Register.
  destruct (validateUUID (Shelly.se_EquipmentID e)) eqn:Hu; [rewrite Forall_cons; naive_solver|].
  case_bool_decide as Hd; simpl.
  { intros (_ & _ & Hnew). rewrite (Hnew e) in Hd by left. by destruct Hd. }
  set (r1 := mkRouter _ _ _). specialize (IH r1). destruct (register_routes rest r1) as [err|r'].
  - rewrite Forall_cons, NoDup_cons. intros ([_ Hv] & [Hni Hnd] & Hnew). apply IH. split_and!; [done..|].
    intros q Hq. simpl. rewrite lookup_insert_ne; [apply Hnew; by right|]. intros Heq. apply Hni. rewrite Heq.
    by apply list_elem_of_fmap_2.
  - intros id. rewrite IH, elem_of_cons. simpl. destruct (decide (id = Shelly.se_EquipmentID e)) as [->|Hne].
    + rewrite lookup_insert_eq. split; [by intros _; left; left|by eauto].
    + rewrite lookup_insert_ne by done. naive_solver.
Qed.

Lemma shelly_values_equipment cfg :
  Shelly.se_EquipmentID <$> (shelly_value <$> elems (ad_ShellyEndpoints (cf_Adapters cfg)))
  = sh_EquipmentID <$> elems (ad_ShellyEndpoints (cf_Adapters cfg)).
Proof. by rewrite <- list_fmap_compose. Qed.

Section adapter_parts.
Context `{!URLParser, !Http.URLWriter, !Files, !MapRange} {M : Type} `{!Bench.AlarmEngine M}.

(** The routes that the adapters' stage makes are the equipment of the Shelly
    endpoints when the adapter is enabled, which then serves exactly them. *)
Lemma construct_adapters_routes cfg alarms parts :
  construct_adapters cfg alarms (NewExecutorRouter tt) = inr parts →
  ∀ id, is_Some (routes (ap_router parts) !! id) →
    ad_ShellyEnabled (cf_Adapters cfg) = true ∧ id ∈ sh_EquipmentID <$> elems (ad_ShellyEndpoints (cf_Adapters cfg))
    ∧ ∃ a, ap_shelly parts = Some a ∧ is_Some (Shelly.sa_endpoints a !! id).
Proof.
  unfold construct_adapters. set (adapters := cf_Adapters cfg).
  assert (∀ id, ¬ is_Some (routes (NewExecutorRouter (A := Ref) tt) !! id)) as Hempty.
  { intros id. simpl. rewrite lookup_empty. by intros []. }
  destruct (negb _); [intros [= <-] id Hid; by destruct (Hempty id)|].
  destruct (esp32_policies _) as [|policies]; [done|]. destruct (Bench.NewCoordinator _ _ _) as [bench|]; [|done].
  destruct (Bench.RegisterRules _ _ _ _ _) as [[err|] m]; [done|].
  destruct (ad_ShellyEnabled adapters) eqn:Hen.
  - unfold construct_shelly. simpl. pose proof (shelly_adapter_built (shelly_value <$> elems (ad_ShellyEndpoints adapters))) as Ha.
    destruct (Shelly.NewAdapter _ _) as [a|]; [|done]. destruct Ha as (_ & _ & Hserves).
    pose proof (register_routes_spec (shelly_value <$> elems (ad_ShellyEndpoints adapters)) (NewExecutorRouter tt)) as Hr.
    destruct (register_routes _ _) as [|router]; [done|]. pose proof (shelly_values_equipment cfg) as Heq. fold adapters in Heq. rewrite <- Heq.
    assert (∀ id, is_Some (routes router !! id) → id ∈ Shelly.se_EquipmentID <$> (shelly_value <$> elems (ad_ShellyEndpoints adapters))
      ∧ is_Some (Shelly.sa_endpoints a !! id)) as Hroutes.
    { intros id [Hin|Hin]%Hr; [|by destruct (Hempty id)]. split; [done|by apply Hserves]. }
    destruct (ad_ESP32Enabled adapters); [destruct (construct_esp32 _); [done|]|]; intros [= <-] id Hid;
      (split; [done|]); simpl in *; apply Hroutes in Hid as [? ?]; eauto.
  - destruct (ad_ESP32Enabled adapters); [destruct (construct_esp32 _); [done|]|]; intros [= <-] id Hid; by destruct (Hempty id).
Qed.

Lemma construct_adapters_enabled cfg alarms parts :
  construct_adapters cfg alarms (NewExecutorRouter tt) = inr parts →
  (is_Some (ap_shelly parts) → ad_ShellyEnabled (cf_Adapters cfg) = true)
  ∧ (is_Some (ap_esp32 parts) → ad_ESP32Enabled (cf_Adapters cfg) = true).
Proof.
  assert (∀ A, ¬ is_Some (@None A)) as Hnone by (by intros A []).
  unfold construct_adapters. destruct (negb _); [intros [= <-]; simpl; naive_solver|].
  destruct (esp32_policies _) as [|policies]; [done|]. destruct (Bench.NewCoordinator _ _ _) as [bench|]; [|done].
  destruct (Bench.RegisterRules _ _ _ _ _) as [[err|] m]; [done|].
  destruct (ad_ShellyEnabled _), (ad_ESP32Enabled _); try (destruct (construct_shelly _ _) as [|[]]; [done|]);
    try (destruct (construct_esp32 _); [done|]); intros [= <-]; simpl; naive_solver.
Qed.
End adapter_parts.

(** ** Readiness and startup *)
Lemma register_components_from cfg l status m :
  foldl (fun m component => RegisterComponent (status component) (required cfg component) m) m l
  = mkHealthManager (hm_components m ++ ((fun id => mkRegistration (status id) (required cfg id)) <$> l)) (hm_started m).
Proof.
  revert m. induction l as [|id l IH]; intros m; simpl; [rewrite app_nil_r; by destruct m|].
  rewrite IH. simpl. by rewrite <- app_assoc.
Qed.

(** Once the health manager is started, readiness is the health of the
    components that are required. *)
Lemma readiness_is_required_health cfg l status ctx now :
  rep_Ready (HealthManager_Report now (HealthManager_Start ctx (register_components cfg l status)).1) = true
  ↔ ∀ id, id ∈ l → required cfg id = true → is_healthy (status id).
Proof.
  unfold register_components. rewrite register_components_from. unfold HealthManager_Start. cbn [fst].
  destruct (HealthManager_Report_spec now (mkHealthManager ([] ++ ((fun id => mkRegistration (status id) (required cfg id)) <$> l)) true))
    as (_ & Hready & _).
  etrans; [exact Hready|]. simpl. unfold all_required_healthy. rewrite Forall_fmap, Forall_forall. naive_solver.
Qed.

(** What readiness does not depend on. *)
Lemma not_required cfg id :
  required cfg id = false
  ↔ id = HomeAssistantC ∨ id = MqttC ∧ mq_RequiredForReady (cf_MQTT cfg) = false
    ∨ id = StorageC ∧ ix_Enabled (cf_Storage cfg) = true.
Proof. unfold required. destruct id; simpl; try naive_solver; destruct (ix_Enabled _); naive_solver. Qed.

(** What is wrapped by [NewOptional]. *)
Definition optional (cfg : Config) (id : ComponentID) : Prop :=
  id = MqttC ∨ id = HomeAssistantC ∨ id = StorageC ∧ ix_Enabled (cf_Storage cfg) = true.

#[export] Instance optional_dec cfg id : base.Decision (optional cfg id).
Proof. unfold optional. apply _. Defined.

Lemma entry_start_ok cfg start id :
  entry_start start (entry cfg id) = None ↔ optional cfg id ∨ start id = None.
Proof.
  unfold entry, optional. destruct id; simpl; try naive_solver. destruct (ix_Enabled _); naive_solver.
Qed.

Lemma entry_component_entry cfg id : entry_component (entry cfg id) = id.
Proof. unfold entry. by destruct (_ || _). Qed.

Lemma start_error_none st it n : start_error st it n = None ↔ st n = None ∧ it n = None.
Proof.
  unfold start_error. destruct (it n) as [err|]; [|naive_solver]. split; [|by intros [_ ?]].
  intros Hj. by destruct (errors_Join_cons err [st n]).
Qed.

Lemma start_entries_ok entries name start stop interrupted :
  (start_entries entries name start stop interrupted).2 = None
  ↔ ∀ e, e ∈ entries → entry_start start e = None ∧ interrupted (entry_component e) = None.
Proof.
  unfold start_entries. set (st := numbered entries (entry_start start)). set (sp := numbered entries _).
  set (it := numbered entries (fun e => interrupted (entry_component e))).
  assert (Forall (fun n => start_error st it n = None) (lc_components (lifecycle_of entries))
    ↔ ∀ e, e ∈ entries → entry_start start e = None ∧ interrupted (entry_component e) = None) as Hall.
  { unfold lifecycle_of. cbn [NewConfigured lc_components]. rewrite Forall_seq. setoid_rewrite start_error_none. unfold st, it, numbered. split.
    - intros Hn e (n & Hlookup)%list_elem_of_lookup. specialize (Hn n). rewrite Hlookup in Hn. apply Hn.
      apply lookup_lt_Some in Hlookup. lia.
    - intros He n [_ Hn]. destruct (lookup_lt_is_Some_2 entries n) as [e Hlookup]; [lia|]. rewrite Hlookup.
      apply He. by eapply list_elem_of_lookup_2. }
  rewrite <- Hall.
  destruct (Lifecycle_Start_all_or_nothing name st sp it (lifecycle_of entries) eq_refl)
    as [[Hrun Hok]|(before & c & after & err & Heq & _ & [e He] & Hrun)]; rewrite Hrun; cbn [snd]; [done|].
  split; [done|]. rewrite Heq, Forall_app, Forall_cons. intros (_ & Hn & _). congruence.
Qed.

(** A start either leaves every entry started or none. *)
Lemma start_entries_log entries name start stop interrupted :
  let '(m, err) := start_entries entries name start stop interrupted in
  err = None → lc_started m = seq 0 (length entries) ∧ lc_log m = Started <$> seq 0 (length entries).
Proof.
  unfold start_entries.
  match goal with |- context [Lifecycle_Start ?n ?s ?p ?i ?m] =>
    destruct (Lifecycle_Start_all_or_nothing n s p i m eq_refl) as [[Hrun _]|(? & ? & ? & ? & _ & _ & _ & Hrun)] end;
    by rewrite Hrun.
Qed.

Lemma start_entries_rollback entries name start stop interrupted :
  (start_entries entries name start stop interrupted).2 ≠ None →
  lc_started (start_entries entries name start stop interrupted).1 = [].
Proof.
  unfold start_entries.
  match goal with |- context [Lifecycle_Start ?n ?s ?p ?i ?m] =>
    destruct (Lifecycle_Start_all_or_nothing n s p i m eq_refl) as [[Hrun _]|(? & ? & ? & ? & _ & _ & _ & Hrun)] end;
    by rewrite Hrun.
Qed.

(** An entry whose start ends the startup. *)
Definition entry_fails (start interrupted : ComponentID → option error) (e : Entry) : Prop :=
  entry_start start e ≠ None ∨ interrupted (entry_component e) ≠ None.

(** A start that fails has called [Start] of the entries up to the first that
    fails, and then [Stop] of those before it, in reverse order. *)
Lemma start_entries_failure entries name start stop interrupted :
  (start_entries entries name start stop interrupted).2 ≠ None →
  ∃ k e, entries !! k = Some e ∧ entry_fails start interrupted e
    ∧ (∀ j e', (j < k)%nat → entries !! j = Some e' → ¬ entry_fails start interrupted e')
    ∧ lc_log (start_entries entries name start stop interrupted).1
      = (Started <$> seq 0 k) ++ [Started k] ++ (Stopped <$> rev (seq 0 k)).
Proof.
  unfold start_entries. set (st := numbered entries (entry_start start)). set (sp := numbered entries _).
  set (it := numbered entries (fun e => interrupted (entry_component e))).
  destruct (Lifecycle_Start_all_or_nothing name st sp it (lifecycle_of entries) eq_refl)
    as [[Hrun _]|(before & c & after & err & Heq & Hok & [e He] & Hrun)]; rewrite Hrun; [done|]. intros _.
  cbn in Heq. assert (before = seq 0 (length before) ∧ c = length before ∧ (length before < length entries)%nat)
    as (Hb & -> & Hlt).
  { pose proof (f_equal length Heq) as Hl. rewrite length_seq, length_app in Hl. cbn in Hl.
    assert (seq 0 (length entries) !! length before = Some c) as Hc by (rewrite Heq; by apply list_lookup_middle).
    rewrite lookup_seq_lt in Hc by lia. split_and!; [|by simplify_eq|lia].
    pose proof (f_equal (take (length before)) Heq) as Ht. rewrite take_app_length, take_seq in Ht.
    rewrite <- Ht at 1. f_equal. lia. }
  destruct (lookup_lt_is_Some_2 entries _ Hlt) as [entry0 Hentry]. exists (length before), entry0.
  split_and!; [done| | |by rewrite <- Hb].
  - destruct (decide (st (length before) = None ∧ it (length before) = None)) as [Hn|Hn].
    { apply start_error_none in Hn. congruence. }
    unfold entry_fails. revert Hn. unfold st, it, numbered. rewrite Hentry. cbn.
    destruct (entry_start start entry0), (interrupted (entry_component entry0)); naive_solver.
  - intros j e' Hj He'. rewrite Hb, Forall_seq in Hok. specialize (Hok j ltac:(lia)).
    apply start_error_none in Hok. revert Hok. unfold st, it, numbered, entry_fails. rewrite He'. cbn. naive_solver.
Qed.

(** ** The container *)
Section guarantees.
Context `{!URLParser, !NetParser, !MapRange, !Http.URLWriter, !StorageBackend.Formats, !Files, !Digester, !SHA256}.
Context (render : error → string).
Context `{!JSON, !Marshaler Envelope, !Marshaler (gmap string string), !Marshaler Device, !Marshaler Sensor}.
Context `{!Marshaler Equipment, !Marshaler Alarm, !Marshaler Config}.
Context {W V K : Type} `{!Publisher W} (bus_ref : W) (paho_NewClient : ClientOptions → K).
Context (factory : nat → FactoryEnv) (fresh : nat → string * option error) (observing : ObserveEnv) (apiNow : Time).
Context (mqttNow : nat → Time) (newCorrelation : nat → CorrelationID * option error).

Abbreviation make := (New (V := V) render bus_ref paho_NewClient factory fresh observing apiNow mqttNow newCorrelation).

(** The components a container monitors. *)
Definition monitored (c : @Container W V K) : list ComponentID :=
  core_components ++ if_some (ct_MQTT c) MqttC ++ if_some (ct_HomeAssistant c) HomeAssistantC
    ++ if_some (ct_Simulator c) SimulatorC ++ if_some (ct_Shelly c) ShellyC ++ if_some (ct_ESP32 c) ESP32C ++ [ApiC].

(** What a successful construction went through. *)
Lemma New_stages cfg path logger supplied c :
  make cfg path logger supplied = inr c →
  Config_Validate render cfg = None
  ∧ (∃ core, construct_core bus_ref factory fresh cfg = inr core ∧ ct_Safety c = cr_safety core
       ∧ ct_Registries c = cr_registries core)
  ∧ (∃ alarms parts, construct_adapters (H3 := Alarms_Engine observing) cfg alarms (NewExecutorRouter tt) = inr parts
       ∧ ct_OutputRouter c = ap_router parts ∧ ct_Shelly c = ap_shelly parts ∧ ct_ESP32 c = ap_esp32 parts)
  ∧ ct_Health c = register_components cfg (monitored c)
  ∧ ct_Lifecycle c = Plain HealthC :: (entry cfg <$> monitored c).
Proof.
  unfold New. destruct logger; [|done]. simpl. case_bool_decide; [done|]. destruct (Config_Validate render cfg) eqn:Hv; [done|].
  unfold assemble. destruct (construct_core _ _ _ cfg) as [|core] eqn:Hcore; [done|].
  destruct (construct_storage cfg _) as [|[storage bus]]; [done|]. destruct (construct_api cfg apiNow) as [|api]; [done|].
  destruct (construct_adapters _ _ _) as [|parts] eqn:Hparts; [done|].
  destruct (construct_mqtt _ _ _ _ _) as [|mqtt]; [done|]. intros [= <-].
  split; [done|]. split; [by exists core|]. split; [by eexists _, parts|done].
Qed.

Lemma construct_core_engine cfg core :
  construct_core bus_ref factory fresh cfg = inr core →
  NewEngine true (configured_profiles cfg) = inl (cr_safety core).
Proof.
  unfold construct_core. destruct (registerAdapterInventory _ _ _ _ _) as [[err|] t]; [done|].
  destruct (configuredThresholdRules cfg) as [|rules]; [done|]. cbn [flip_sum].
  destruct (NewEvaluator _ _ _); [|done]. destruct (NewEngine _ _) as [engine|]; [|done]. simpl. by intros [= <-].
Qed.

(** Which optional parts a container has. *)
Lemma New_enabled cfg path logger supplied c :
  make cfg path logger supplied = inr c →
  (is_Some (ct_MQTT c) → mq_Enabled (cf_MQTT cfg) = true)
  ∧ (is_Some (ct_Shelly c) → ad_ShellyEnabled (cf_Adapters cfg) = true)
  ∧ (is_Some (ct_ESP32 c) → ad_ESP32Enabled (cf_Adapters cfg) = true)
  ∧ (is_Some (ct_Simulator c) ↔ cf_SimulatorEnabled cfg = true).
Proof.
  unfold New. destruct logger; [|done]. simpl. case_bool_decide; [done|]. destruct (Config_Validate render cfg) eqn:Hv; [done|].
  unfold assemble. destruct (construct_core _ _ _ cfg) as [|core] eqn:Hcore; [done|].
  destruct (construct_storage cfg _) as [|[storage bus]]; [done|]. destruct (construct_api cfg apiNow) as [|api]; [done|].
  destruct (construct_adapters _ _ _) as [|parts] eqn:Hparts; [done|].
  destruct (construct_mqtt _ _ _ _ _) as [|mqtt] eqn:Hmqtt; [done|]. intros [= <-]. cbn [ct_MQTT ct_Shelly ct_ESP32 ct_Simulator].
  split_and!.
  - intros Hs. destruct (mq_Enabled (cf_MQTT cfg)) eqn:Hen; [done|]. unfold construct_mqtt in Hmqtt. rewrite Hen in Hmqtt.
    injection Hmqtt as <-. by destruct Hs.
  - intros Hs. by apply (construct_adapters_enabled _ _ _ Hparts).
  - intros Hs. by apply (construct_adapters_enabled _ _ _ Hparts).
  - destruct (cf_SimulatorEnabled cfg); (split; [by intros []|by eauto]).
Qed.

(** C7: in every container that the composition root constructs, the equipment
    that a command can reach is the equipment of the enabled Shelly endpoints,
    served by the adapter, and each of it has its own validated safety profile
    in an engine in normal mode without overrides. *)
Theorem assembled_outputs_are_guarded cfg path logger supplied c :
  make cfg path logger supplied = inr c →
  config_ok cfg ∧ e_mode (ct_Safety c) = ModeNormal ∧ e_overrides (ct_Safety c) = ∅
  ∧ ∀ id, is_Some (routes (ct_OutputRouter c) !! id) →
      ∃ endpoint adapter,
        endpoint ∈ elems (ad_ShellyEndpoints (cf_Adapters cfg)) ∧ sh_EquipmentID endpoint = id
        ∧ ct_Shelly c = Some adapter ∧ is_Some (Shelly.sa_endpoints adapter !! id)
        ∧ let profile := shelly_profile (equipment_definitions cfg) (sensor_definitions cfg) endpoint in
          e_profiles (ct_Safety c) !! id = Some profile ∧ Profile_Validate profile = None.
Proof.
  intros Hnew. destruct (New_stages _ _ _ _ _ Hnew) as (Hv & (core & Hcore & Hs & _) & (alarms & parts & Hparts & Hr & Hsh & _) & _).
  apply construct_core_engine in Hcore. rewrite <- Hs in Hcore.
  destruct (NewEngine_initial _ _ _ Hcore) as (Hmode & Hover & _).
  split_and!; [by apply (Config_Validate_iff render)|done..|]. intros id Hid. rewrite Hr in Hid.
  destruct (construct_adapters_routes _ _ _ Hparts id Hid) as (Hen & (endpoint & -> & Hin)%list_elem_of_fmap & a & Ha & Hserves).
  exists endpoint, a. rewrite Hsh. split_and!; try done.
  destruct (add_profiles_holds _ _ _ Hcore) as [_ Hheld].
  destruct (Hheld _ (elem_of_configured_profiles cfg endpoint Hen Hin)) as [Hlookup Hvalid]. split; [|done].
  rewrite <- Hlookup. f_equal. unfold shelly_profile. by repeat case_match.
Qed.

(** Readiness of a started container is the health of every component it
    monitors but three: Home Assistant, MQTT unless the configuration requires
    it, and storage when it is a database. *)
Theorem optional_parts_never_gate_readiness cfg path logger supplied c status ctx now :
  make cfg path logger supplied = inr c →
  rep_Ready (HealthManager_Report now (HealthManager_Start ctx (ct_Health c status)).1) = true
  ↔ ∀ id, id ∈ monitored c →
      id ≠ HomeAssistantC → ¬ (id = MqttC ∧ mq_RequiredForReady (cf_MQTT cfg) = false) →
      ¬ (id = StorageC ∧ ix_Enabled (cf_Storage cfg) = true) → is_healthy (status id).
Proof.
  intros Hnew. destruct (New_stages _ _ _ _ _ Hnew) as (_ & _ & _ & -> & _). rewrite readiness_is_required_health.
  split; intros Hh id Hin.
  - intros ???. apply Hh; [done|]. apply not_false_iff_true. rewrite not_required. tauto.
  - intros Hr. assert (¬ required cfg id = false) as Hn by congruence. rewrite not_required in Hn. apply Hh; [done|tauto..].
Qed.

(** What ends the startup of a container. *)
Definition fails (cfg : Config) (start interrupted : ComponentID → option error) (id : ComponentID) : Prop :=
  interrupted id ≠ None ∨ (¬ optional cfg id ∧ start id ≠ None).

Lemma entry_fails_iff cfg start interrupted id :
  entry_fails start interrupted (entry cfg id) ↔ fails cfg start interrupted id.
Proof.
  unfold entry_fails, fails. rewrite entry_component_entry.
  pose proof (entry_start_ok cfg start id) as Hok. destruct (entry_start start (entry cfg id)); naive_solver.
Qed.

(** C21: startup of a constructed container succeeds exactly when every
    component that is not optional starts and no component, optional or not,
    outlives its deadline; then every component was started, in order. It
    otherwise ends with the first component for which this fails, and calls
    [Stop] of the components before that one, and of no other, in reverse
    order: an optional component that fails in time does not stop the others,
    one that is slow does, and the component that was cut short is itself not
    stopped, even if its start then succeeded. *)
Theorem startup_depends_on cfg path logger supplied c name start stop interrupted :
  make cfg path logger supplied = inr c →
  let components := HealthC :: monitored c in
  let '(m, err) := start_entries (ct_Lifecycle c) name start stop interrupted in
  (err = None ↔ ∀ id, id ∈ components → ¬ fails cfg start interrupted id)
  ∧ (err = None → lc_log m = Started <$> seq 0 (length components))
  ∧ (err ≠ None → ∃ k id, components !! k = Some id ∧ fails cfg start interrupted id
      ∧ (∀ j id', (j < k)%nat → components !! j = Some id' → ¬ fails cfg start interrupted id')
      ∧ lc_log m = (Started <$> seq 0 k) ++ [Started k] ++ (Stopped <$> rev (seq 0 k))).
Proof.
  intros Hnew. destruct (New_stages _ _ _ _ _ Hnew) as (_ & _ & _ & _ & ->). cbn zeta.
  change (Plain HealthC :: (entry cfg <$> monitored c)) with (entry cfg <$> HealthC :: monitored c).
  set (components := HealthC :: monitored c). set (entries := entry cfg <$> components).
  pose proof (start_entries_ok entries name start stop interrupted) as Hok.
  pose proof (start_entries_log entries name start stop interrupted) as Hlog.
  pose proof (start_entries_failure entries name start stop interrupted) as Hfail.
  destruct (start_entries _ _ _ _ _) as [m err]. cbn [fst snd] in Hok, Hfail. split_and!.
  - rewrite Hok. setoid_rewrite <- entry_fails_iff. unfold entries. setoid_rewrite list_elem_of_fmap. unfold entry_fails. split.
    + intros He id Hin. destruct (He (entry cfg id)) as [-> ->]; naive_solver.
    + intros Hid e (id & -> & Hin). specialize (Hid id Hin).
      destruct (entry_start start (entry cfg id)), (interrupted (entry_component (entry cfg id))); naive_solver.
  - intros Hnone. destruct (Hlog Hnone) as [_ ->]. unfold entries. by rewrite length_fmap.
  - intros (k & e & He & Hf & Hbefore & ->)%Hfail. apply list_lookup_fmap_Some in He as (id & -> & Hid).
    exists k, id. split_and!; [done|by apply entry_fails_iff| |done].
    intros j id' Hj Hid'. rewrite <- entry_fails_iff. apply (Hbefore j); [done|].
    unfold entries. by rewrite list_lookup_fmap, Hid'.
Qed.
End guarantees.
