(* ===== verification/AssemblyComplete.v ===== *)
(** * A validated configuration can be constructed

    Which validated configurations [New] turns into a container: all of them
    but for what validation does not check. The conditions are the fields of
    [constructible]. *)

From Stdlib Require Import ZArith Lia String.
From stdpp Require Import base gmap strings list pretty.
From S2P Require Import Prelude Domain Health Lifecycle Events Bus State Devices Sensors EquipmentRegistry Equipment.
From S2P Require Import Safety Output Alarms Evaluator Topics Envelope MqttClient MqttRouter Config ConfigValidation.
From S2P Require Import ConfigManager Container MqttReconnect Secrets Assembly AssemblySafety.
From S2P Require Storage StorageBackend Http Access Api Esp32 Shelly Bench Simulator HomeAssistant.

(** Settles a guard whose condition is false by arithmetic. *)
Ltac skip_guards := repeat
  match goal with
  | |- context [if ?b then _ else _] => replace b with false by (symmetry; lia)
  end.

(** ** Subscriptions on an open bus *)
Lemma subscribe_alarms_open types bus :
  b_closed bus = false → Forall (fun t => t ≠ "") types →
  ∃ bus', subscribe_alarms types bus = inr bus' ∧ b_closed bus' = false.
Proof.
  intros Hb Ht. revert bus Hb. induction Ht as [|t types Ht _ IH]; intros bus Hb; simpl; [by eauto|].
  unfold Subscribe. rewrite bool_decide_eq_false_2, Hb by done. by apply IH.
Qed.

Lemma attach_open handler types result bus :
  b_closed bus = false → Forall (fun t => t ≠ "") types →
  ∃ subs bus', attach_from (EventSubscriber0 := subscribe_as handler) types result bus = ((subs, None), bus')
    ∧ b_closed bus' = false.
Proof.
  intros Hb Ht. revert result bus Hb. induction Ht as [|t types Ht _ IH]; intros result bus Hb; simpl; [by eauto|].
  unfold Subscribe. rewrite bool_decide_eq_false_2, Hb by done. by apply IH.
Qed.

(** ** Storage and the API *)
Section services.
Context `{!URLParser, !NetParser, !MapRange, !StorageBackend.Formats, !Files}.

(** Validation of the URL of the database lets a query or a fragment pass. *)
Definition plain_database (cfg : Config) : Prop :=
  ix_Enabled (cf_Storage cfg) = true →
  (∃ token, holds_secret (ix_TokenFile (cf_Storage cfg)) token)
  ∧ ∀ u, url_Parse (ix_URL (cf_Storage cfg)) = Some u → url_RawQuery u = "" ∧ url_Fragment u = "".

Definition long_token (cfg : Config) : Prop :=
  ht_BearerTokenFile (cf_HTTP cfg) ≠ "" →
  ∃ token, holds_secret (ht_BearerTokenFile (cf_HTTP cfg)) token ∧ (32 ≤ String.length token)%nat.

Lemma construct_storage_succeeds cfg bus :
  storage_ok (cf_Storage cfg) → plain_database cfg → b_closed bus = false →
  ∃ storage bus', construct_storage cfg bus = inr (storage, bus') ∧ b_closed bus' = false.
Proof.
  intros [Hcap Ht Hen] Hp Hb. unfold construct_storage. destruct (ix_Enabled (cf_Storage cfg)) eqn:Hx; [|by eauto].
  destruct (Hp Hx) as [[token Htok] Hquery]. destruct (Hen eq_refl) as ((u & Hu & Hhost & Hscheme & Huser) & Horg & Hbucket & Hfile).
  cbn [negb]. rewrite (proj2 (readSecretFile_spec _ token)) by (by right).
  destruct (Hquery u Hu) as [Hq Hf]. assert (token ≠ "") as Hne by (by destruct Htok as (? & _ & _ & _ & _ & ?)).
  assert (∃ client, StorageBackend.NewInfluxClient (influx_config cfg token) true = inl client) as [client ->].
  { unfold StorageBackend.NewInfluxClient. simpl. rewrite Hu, Huser, Hq, Hf. rewrite (bool_decide_eq_false_2 _ Hhost).
    rewrite (bool_decide_eq_false_2 _ Horg), (bool_decide_eq_false_2 _ Hbucket), (bool_decide_eq_false_2 _ Hne). simpl.
    destruct Hscheme as [-> | ->]; simpl; by eauto. }
  cbv beta iota.
  assert (∃ writer, Storage.New (storage_config cfg) (Some client) true = inl writer) as [writer ->].
  { unfold Storage.New, storage_config. simpl. skip_guards. by eauto. }
  simpl. unfold StorageBackend.Sink_Attach.
  destruct (attach_open sink_handler StorageBackend.stored_types [] bus Hb) as (subs & bus' & Hatt & Hb').
  { by repeat constructor. }
  rewrite Hatt. by eauto.
Qed.

Lemma construct_api_succeeds cfg now : long_token cfg → ∃ api, construct_api cfg now = inr api.
Proof.
  intros Ht. unfold construct_api. case_bool_decide as Hf; [by eauto|]. destruct (Ht Hf) as (token & Htok & Hlen).
  rewrite (proj2 (readSecretFile_spec _ token)) by (by right). unfold Access.NewBearerAuthenticator.
  destruct (Nat.ltb_spec (String.length token) 32); [lia|]. simpl. by eauto.
Qed.
End services.

(** ** MQTT and Home Assistant *)
Section mqtt.
Context `{!URLParser, !NetParser, !MapRange}.
Context {K : Type} (paho_NewClient : ClientOptions → K).
Context `{!JSON, !Marshaler Envelope, !Marshaler (gmap string string)}.
Context (mqttNow : nat → Time) (newCorrelation : nat → CorrelationID * option error).

(** The offline message of the site fits the configured payload. *)
Definition will_encodes (cfg : Config) : Prop :=
  let mqtt := cf_MQTT cfg in
  mq_Enabled mqtt = true →
  ∀ registry codec, NewTopicRegistry (mq_SiteID mqtt) = inl registry →
    NewCodec (mq_SiteID mqtt) (mq_MaximumPayload mqtt) true = inl codec →
    ∃ lwt c, availabilityPayload mqttNow newCorrelation "offline"
      (newClient tt registry codec (mq_MaximumPayload mqtt) (mq_QueueCapacity mqtt)) = (inr lwt, c).

Lemma construct_mqtt_succeeds cfg bus :
  config_ok cfg → will_encodes cfg → b_closed bus = false →
  ∃ parts, construct_mqtt paho_NewClient mqttNow newCorrelation cfg bus = inr parts.
Proof.
  intros Hc Hwill Hb. unfold construct_mqtt. destruct (mq_Enabled (cf_MQTT cfg)) eqn:Hen; [|by eauto]. cbn [negb].
  destruct (co_mqtt _ Hc Hen) as [Hsite _ _ _ (Hpay & _ & _) _].
  assert (∃ registry, NewTopicRegistry (mq_SiteID (cf_MQTT cfg)) = inl registry) as [registry Hreg].
  { unfold NewTopicRegistry. change (topicSegmentPattern (mq_SiteID (cf_MQTT cfg)) = true) in Hsite. rewrite Hsite. by eauto. }
  assert (∃ codec, NewCodec (mq_SiteID (cf_MQTT cfg)) (mq_MaximumPayload (cf_MQTT cfg)) true = inl codec) as [codec Hcodec].
  { unfold NewCodec. change (topicSegmentPattern (mq_SiteID (cf_MQTT cfg)) = true) in Hsite. rewrite Hsite. simpl. skip_guards. by eauto. }
  destruct (Hwill Hen registry codec Hreg Hcodec) as (lwt & c & Hlwt).
  assert (∃ client, Client_New paho_NewClient mqttNow newCorrelation (cf_MQTT cfg) true = inl client) as [client ->].
  { unfold Client_New. cbn [negb]. rewrite Hreg, Hcodec. destruct (Topic _ _ _) as [[topic policy] ?]. rewrite Hlwt. by eauto. }
  unfold NewEventExporter. cbn [negb]. rewrite Hreg, Hcodec. unfold Attach.
  destruct (attach_open exporter_handler exported_types [] bus Hb) as (subs & bus' & Hatt & Hb'); [by repeat constructor|].
  rewrite Hatt. unfold construct_home_assistant. destruct (negb (ha_Enabled _)); [by eauto|].
  unfold HomeAssistant.HA_New, home_assistant_config.
  cbn [negb HomeAssistant.hc_CommandTTL HomeAssistant.hc_SiteID HomeAssistant.hc_MaximumPayload]. destruct (co_home_assistant _ Hc) as [_ Httl].
  assert (HomeAssistant.minute = Minute) as Hmin by reflexivity. rewrite Hmin. skip_guards. rewrite Hreg, Hcodec.
  destruct (subscribe_alarms_open alarm_event_types bus' Hb') as (bus'' & Hsub & _); [by repeat constructor|].
  rewrite Hsub. by eauto.
Qed.
End mqtt.

(** ** The coordinator *)
Lemma add_shelly_builds policies c :
  let key p := Shelly.se_ID (Bench.sy_Endpoint p) in
  Forall (fun p => validateUUID (Bench.sy_RuleID p) = None) policies → NoDup (key <$> policies) →
  (∀ p, p ∈ policies → Bench.cd_shellyRules c !! key p = None ∧ Bench.cd_shellyEndpoints c !! key p = None) →
  ∃ c', Bench.add_shelly policies c = inr c'
    ∧ Bench.cd_shellyRules c' = Bench.cd_shellyRules c ∪ list_to_map ((fun p => (key p, Bench.sy_RuleID p)) <$> policies)
    ∧ Bench.cd_shellyEndpoints c' = Bench.cd_shellyEndpoints c ∪ list_to_map ((fun p => (key p, Bench.sy_Endpoint p)) <$> policies)
    ∧ Bench.cd_espRules c' = Bench.cd_espRules c ∧ Bench.cd_espEndpoints c' = Bench.cd_espEndpoints c.
Proof.
  intros key Hv. revert c. induction Hv as [|p policies Hp _ IH]; intros c Hnd Hnew.
  { exists c. simpl. by rewrite !map_union_empty. }
  apply NoDup_cons in Hnd as [Hni Hnd]. destruct (Hnew p (list_elem_of_here _ _)) as [Hr He].
  cbn [Bench.add_shelly]. rewrite Hp, bool_decide_eq_false_2 by (fold (key p); rewrite Hr; by intros []).
  set (c1 := Bench.mkCoordinator _ _ _ _ _). destruct (IH c1 Hnd) as (c' & Hadd & Hrules & Hends & Hesp & Hespe).
  { intros q Hq. assert (key p ≠ key q) by (intros Heq; apply Hni; rewrite Heq; by apply list_elem_of_fmap_2).
    simpl. rewrite !lookup_insert_ne by done. apply Hnew. by right. }
  exists c'. split; [done|]. rewrite Hrules, Hends, Hesp, Hespe. simpl.
  rewrite <- !insert_union_l, !insert_union_r by done. by split_and!.
Qed.

Lemma add_esp32_builds policies c :
  let key p := Esp32.en_ID (Bench.ey_Endpoint p) in
  Forall (fun p => validateUUID (Bench.ey_RuleID p) = None) policies → NoDup (key <$> policies) →
  (∀ p, p ∈ policies → Bench.cd_espRules c !! key p = None ∧ Bench.cd_espEndpoints c !! key p = None) →
  ∃ c', Bench.add_esp32 policies c = inr c'
    ∧ Bench.cd_espRules c' = Bench.cd_espRules c ∪ list_to_map ((fun p => (key p, Bench.ey_RuleID p)) <$> policies)
    ∧ Bench.cd_espEndpoints c' = Bench.cd_espEndpoints c ∪ list_to_map ((fun p => (key p, Bench.ey_Endpoint p)) <$> policies)
    ∧ Bench.cd_shellyRules c' = Bench.cd_shellyRules c ∧ Bench.cd_shellyEndpoints c' = Bench.cd_shellyEndpoints c.
Proof.
  intros key Hv. revert c. induction Hv as [|p policies Hp _ IH]; intros c Hnd Hnew.
  { exists c. simpl. by rewrite !map_union_empty. }
  apply NoDup_cons in Hnd as [Hni Hnd]. destruct (Hnew p (list_elem_of_here _ _)) as [Hr He].
  cbn [Bench.add_esp32]. rewrite Hp, bool_decide_eq_false_2 by (fold (key p); rewrite Hr; by intros []).
  set (c1 := Bench.mkCoordinator _ _ _ _ _). destruct (IH c1 Hnd) as (c' & Hadd & Hrules & Hends & Hsh & Hshe).
  { intros q Hq. assert (key p ≠ key q) by (intros Heq; apply Hni; rewrite Heq; by apply list_elem_of_fmap_2).
    simpl. rewrite !lookup_insert_ne by done. apply Hnew. by right. }
  exists c'. split; [done|]. rewrite Hrules, Hends, Hsh, Hshe. simpl.
  rewrite <- !insert_union_l, !insert_union_r by done. by split_and!.
Qed.

Lemma NewCoordinator_builds shelly esp :
  Forall (fun p => validateUUID (Bench.sy_RuleID p) = None) shelly →
  NoDup ((fun p => Shelly.se_ID (Bench.sy_Endpoint p)) <$> shelly) →
  Forall (fun p => validateUUID (Bench.ey_RuleID p) = None) esp →
  NoDup ((fun p => Esp32.en_ID (Bench.ey_Endpoint p)) <$> esp) →
  ∃ c, Bench.NewCoordinator true shelly esp = inl c
    ∧ Bench.cd_shellyRules c = list_to_map ((fun p => (Shelly.se_ID (Bench.sy_Endpoint p), Bench.sy_RuleID p)) <$> shelly)
    ∧ Bench.cd_shellyEndpoints c = list_to_map ((fun p => (Shelly.se_ID (Bench.sy_Endpoint p), Bench.sy_Endpoint p)) <$> shelly)
    ∧ Bench.cd_espRules c = list_to_map ((fun p => (Esp32.en_ID (Bench.ey_Endpoint p), Bench.ey_RuleID p)) <$> esp)
    ∧ Bench.cd_espEndpoints c = list_to_map ((fun p => (Esp32.en_ID (Bench.ey_Endpoint p), Bench.ey_Endpoint p)) <$> esp).
Proof.
  intros Hs Hsn He Hen. unfold Bench.NewCoordinator. cbn [negb].
  destruct (add_shelly_builds shelly (Bench.mkCoordinator ∅ ∅ ∅ ∅ ∅) Hs Hsn) as (c1 & -> & Hr & Hp & Her & Hep).
  { intros p _. simpl. by rewrite !lookup_empty. }
  destruct (add_esp32_builds esp c1 He Hen) as (c2 & -> & Hr2 & Hp2 & Hsr & Hsp).
  { intros p _. rewrite Her, Hep. simpl. by rewrite !lookup_empty. }
  exists c2. rewrite Hr2, Hp2, Hsr, Hsp, Hr, Hp, Her, Hep. simpl. by rewrite !map_empty_union.
Qed.

(** The rules a range over the coordinator's maps registers are the rules of
    the policies. *)
Lemma range_rules `{!MapRange} {P E} (key : P → string) (rule : P → RuleID) (endpoint : P → E) (zero : E)
    (make : E → RuleID → Rule) l :
  NoDup (key <$> l) →
  (fun entry => make (default zero ((list_to_map ((fun p => (key p, endpoint p)) <$> l) : gmap string E) !! entry.1)) entry.2)
    <$> map_range (map_to_list (list_to_map ((fun p => (key p, rule p)) <$> l) : gmap string RuleID))
  ≡ₚ (fun p => make (endpoint p) (rule p)) <$> l.
Proof.
  intros Hnd. rewrite map_range_perm, map_to_list_to_map by (by rewrite <- list_fmap_compose).
  rewrite <- list_fmap_compose. apply reflexive_eq. apply list_fmap_ext. intros i p Hp. simpl.
  rewrite (elem_of_list_to_map_1 _ (key p) (endpoint p)); [done| |].
  - by rewrite <- list_fmap_compose.
  - apply list_elem_of_fmap. exists p. split; [done|]. by eapply list_elem_of_lookup_2.
Qed.

(** ** Alarm rules *)
Section rules.
Context {W : Type} `{!Publisher W, !JSON, !Marshaler Alarm} (observing : ObserveEnv).

Lemma register_rules_ok text ctx rules (m : @AlarmManager W) :
  ctx_Err ctx = None → Forall (fun r => validateRule r = None) rules → NoDup (ru_ID <$> rules) →
  (∀ r, r ∈ rules → am_rules m !! ru_ID r = None) →
  ∃ m', Bench.register_rules (AlarmEngine0 := Alarms_Engine observing) text ctx rules m = (None, m')
    ∧ ∀ id, is_Some (am_rules m' !! id) ↔ id ∈ ru_ID <$> rules ∨ is_Some (am_rules m !! id).
Proof.
  intros Hctx Hv. revert m. induction Hv as [|r rules Hr _ IH]; intros m Hnd Hnew.
  { exists m. split; [done|]. intros id. rewrite fmap_nil, elem_of_nil. tauto. }
  apply NoDup_cons in Hnd as [Hni Hnd]. simpl. unfold RegisterRule.
  rewrite Hctx, Hr, bool_decide_eq_false_2 by (rewrite Hnew by left; by intros []).
  set (m1 := put_rule _ _ _). destruct (IH m1 Hnd) as (m' & Hrun & Hin).
  { intros q Hq. assert (ru_ID r ≠ ru_ID q) by (intros Heq; apply Hni; rewrite Heq; by apply list_elem_of_fmap_2).
    unfold m1. simpl. rewrite lookup_insert_ne by done. apply Hnew. by right. }
  exists m'. split; [done|]. intros id. rewrite Hin, elem_of_cons. unfold m1. simpl.
  destruct (decide (id = ru_ID r)) as [->|Hne]; [rewrite lookup_insert_eq; split; [tauto|by right; eauto]|].
  rewrite lookup_insert_ne by done. tauto.
Qed.
End rules.

(** ** Endpoints *)
Section endpoints.
Context `{!URLParser, !Http.URLWriter, !Files}.

Lemma endpoint_url_facts schemes text :
  endpoint_url_ok schemes text = true →
  ∃ u, url_Parse text = Some u ∧ url_Scheme u ∈ schemes ∧ url_Host u ≠ "" ∧ url_User u = false
    ∧ url_RawQuery u = "" ∧ url_Fragment u = "".
Proof.
  unfold endpoint_url_ok. destruct (url_Parse text) as [u|]; [|done].
  rewrite !andb_true_iff, !negb_true_iff, oneOf_spec, !bool_decide_eq_true, bool_decide_eq_false.
  intros ((((? & ?) & ?) & ?) & ?). by exists u.
Qed.

Lemma shelly_value_valid e : shelly_ok e → Shelly.validateEndpoint (shelly_value e) = None.
Proof.
  intros [(Hid & Heq & _) Hurl Hch [Hreq Hret] Hpol _]. unfold Shelly.validateEndpoint, shelly_value.
  cbn [Shelly.se_ID Shelly.se_EquipmentID Shelly.se_BaseURL Shelly.se_Channel Shelly.se_PollInterval Shelly.se_RequestTimeout
       Shelly.se_Retries Shelly.se_PowerReturnPolicy].
  unfold uuid in *. rewrite Hid, Heq. unfold Shelly.rpcURL.
  destruct (endpoint_url_facts _ _ Hurl) as (u & -> & Hs%list_elem_of_singleton & Hh & Hu & Hq & Hf).
  rewrite Hs, Hu, Hq, Hf, (bool_decide_eq_false_2 _ Hh). simpl. skip_guards.
  destruct Hpol as [-> | ->]; done.
Qed.

(** A node whose token file can be read, with the endpoint it becomes. *)
Definition becomes (e : ESP32Endpoint) (p : Bench.ESP32Policy) : Prop :=
  ∃ token first second, elems (ec_ProbeIDs e) = [first; second]
    ∧ p = Bench.mkESP32Policy (esp32_value token (first, second) e) (ec_AlarmRuleID e).

Lemma esp32_policies_built endpoints :
  Forall esp32_ok endpoints → Forall (fun e => ∃ token, readSecretFile (ec_BearerTokenFile e) = inr token) endpoints →
  ∃ policies, esp32_policies endpoints = inr policies ∧ Forall2 becomes endpoints policies.
Proof.
  intros Hok. induction Hok as [|e endpoints He _ IH]; intros Htok; simpl; [by eauto|].
  apply Forall_cons in Htok as [[token ->] Htok]. destruct (eo_probes _ He) as [Hlen _].
  destruct (elems (ec_ProbeIDs e)) as [|first [|second [|]]] eqn:Hp; try done. simpl.
  destruct (IH Htok) as (policies & -> & Hall). eexists. split; [done|]. constructor; [|done]. by exists token, first, second.
Qed.

Lemma becomes_valid e p :
  esp32_ok e → NoDup (elems (ec_ProbeIDs e)) → becomes e p →
  Esp32.validateEndpoint (Bench.ey_Endpoint p) = None ∧ Esp32.en_ID (Bench.ey_Endpoint p) = ec_ID e
  ∧ validateRule (Bench.esp32_rule (Bench.ey_Endpoint p) (Bench.ey_RuleID p)) = None
  ∧ Bench.ey_RuleID p = ec_AlarmRuleID e ∧ validateUUID (Bench.ey_RuleID p) = None.
Proof.
  intros [(Hid & Hdev & Hrule) Hurl [_ Hprobes] [Hreq Hfresh] Hskew [Hd1 Hd2]] Hnd (token & first & second & Hp & ->).
  rewrite Hp in Hprobes, Hnd. unfold uuid in *. apply Forall_cons in Hprobes as [Hf Hprobes].
  apply Forall_cons in Hprobes as [Hs _].
  split_and!; try done; [|unfold validateRule; simpl; by rewrite Hrule, Hdev].
  unfold Esp32.validateEndpoint, esp32_value.
  cbn [Bench.ey_Endpoint Esp32.en_ID Esp32.en_DeviceID Esp32.en_BaseURL Esp32.en_ProbeIDs Esp32.en_PollInterval Esp32.en_RequestTimeout
       Esp32.en_FreshFor Esp32.en_MaximumClockSkew Esp32.en_MaximumDifference fst snd].
  rewrite Hid, Hdev. rewrite bool_decide_eq_false_2 by (intros ->; apply NoDup_cons in Hnd as [Hni _]; apply Hni; left).
  cbn [first_error]. rewrite Hf, Hs. unfold Esp32.snapshotURL.
  destruct (endpoint_url_facts _ _ Hurl) as (u & -> & Hsch & Hh & Hu & Hq & Hfr).
  rewrite Hu, Hq, Hfr, (bool_decide_eq_false_2 _ Hh), Hd1, Hd2.
  rewrite !elem_of_cons, elem_of_nil in Hsch. destruct Hsch as [->|[->|[]]]; simpl; skip_guards; done.
Qed.
End endpoints.

(** ** The adapters' stage *)
Section stage.
Context `{!URLParser, !NetParser, !MapRange, !Http.URLWriter, !Files}.
Context {W : Type} `{!Publisher W, !JSON, !Marshaler Alarm} (observing : ObserveEnv).

(** Validation does not compare the alarm rule IDs of the endpoints. *)
Definition unique_rules (cfg : Config) : Prop :=
  NoDup ((sh_AlarmRuleID <$> elems (ad_ShellyEndpoints (cf_Adapters cfg)))
         ++ (ec_AlarmRuleID <$> elems (ad_ESP32Endpoints (cf_Adapters cfg)))).

Definition readable_nodes (cfg : Config) : Prop :=
  Forall (fun e => ∃ token, readSecretFile (ec_BearerTokenFile e) = inr token) (elems (ad_ESP32Endpoints (cf_Adapters cfg))).

Lemma shelly_rule_valid e :
  shelly_ok e → validateRule (Bench.shelly_rule (shelly_value e) (sh_AlarmRuleID e)) = None.
Proof. intros [(_ & Heq & Hrule) _ _ _ _ _]. unfold validateRule, uuid in *. simpl. by rewrite Hrule, Heq. Qed.

Lemma node_probes_distinct endpoints e :
  NoDup (probes_of endpoints) → e ∈ endpoints → NoDup (elems (ec_ProbeIDs e)).
Proof.
  intros Hnd (l1 & l2 & ->)%list_elem_of_split. unfold probes_of in Hnd. rewrite bind_app, bind_cons in Hnd.
  apply NoDup_app in Hnd as (_ & _ & Hnd). by apply NoDup_app in Hnd as (Hnd & _).
Qed.

(** The policies of the nodes of a validated configuration. *)
Lemma node_policies cfg :
  adapters_ok cfg → readable_nodes cfg →
  ∃ policies, esp32_policies (elems (ad_ESP32Endpoints (cf_Adapters cfg))) = inr policies
    ∧ Forall (fun p => Esp32.validateEndpoint (Bench.ey_Endpoint p) = None ∧ validateUUID (Bench.ey_RuleID p) = None
        ∧ validateRule (Bench.esp32_rule (Bench.ey_Endpoint p) (Bench.ey_RuleID p)) = None) policies
    ∧ (fun p => Esp32.en_ID (Bench.ey_Endpoint p)) <$> policies = ec_ID <$> elems (ad_ESP32Endpoints (cf_Adapters cfg))
    ∧ Bench.ey_RuleID <$> policies = ec_AlarmRuleID <$> elems (ad_ESP32Endpoints (cf_Adapters cfg)).
Proof.
  intros [_ _ _ Hesp (_ & _ & _ & Hp) _] Htok. destruct (esp32_policies_built _ Hesp Htok) as (policies & Hrun & Hall).
  exists policies. split; [done|].
  assert (Forall (fun e => esp32_ok e ∧ NoDup (elems (ec_ProbeIDs e))) (elems (ad_ESP32Endpoints (cf_Adapters cfg)))) as Hgood.
  { apply Forall_forall. intros e He. split; [by eapply Forall_forall in Hesp|by eapply node_probes_distinct]. }
  clear Hrun Hesp Htok Hp. induction Hall as [|e p endpoints policies Hb _ IH]; [by split_and!|].
  apply Forall_cons in Hgood as [[He Hnd] Hgood]. destruct (IH Hgood) as (Hv & Hids & Hrules).
  destruct (becomes_valid e p He Hnd Hb) as (Hpv & Hpid & Hpr & Hrid & Hru).
  rewrite !fmap_cons, Hids, Hrules, Hpid, Hrid. split; [by constructor|done].
Qed.

(** The rules of a coordinator over such policies are registered. *)
Lemma RegisterRules_succeeds shelly esp bench (alarms : @AlarmManager W) :
  Bench.NewCoordinator true shelly esp = inl bench →
  Bench.cd_shellyRules bench = list_to_map ((fun p => (Shelly.se_ID (Bench.sy_Endpoint p), Bench.sy_RuleID p)) <$> shelly) →
  Bench.cd_shellyEndpoints bench = list_to_map ((fun p => (Shelly.se_ID (Bench.sy_Endpoint p), Bench.sy_Endpoint p)) <$> shelly) →
  Bench.cd_espRules bench = list_to_map ((fun p => (Esp32.en_ID (Bench.ey_Endpoint p), Bench.ey_RuleID p)) <$> esp) →
  Bench.cd_espEndpoints bench = list_to_map ((fun p => (Esp32.en_ID (Bench.ey_Endpoint p), Bench.ey_Endpoint p)) <$> esp) →
  NoDup ((fun p => Shelly.se_ID (Bench.sy_Endpoint p)) <$> shelly) → NoDup ((fun p => Esp32.en_ID (Bench.ey_Endpoint p)) <$> esp) →
  Forall (fun p => validateRule (Bench.shelly_rule (Bench.sy_Endpoint p) (Bench.sy_RuleID p)) = None) shelly →
  Forall (fun p => validateRule (Bench.esp32_rule (Bench.ey_Endpoint p) (Bench.ey_RuleID p)) = None) esp →
  NoDup ((Bench.sy_RuleID <$> shelly) ++ (Bench.ey_RuleID <$> esp)) → am_rules alarms = ∅ →
  ∃ alarms', Bench.RegisterRules (AlarmEngine0 := Alarms_Engine observing) Background
      (map_range (map_to_list (Bench.cd_shellyRules bench))) (map_range (map_to_list (Bench.cd_espRules bench))) bench alarms
    = (None, alarms').
Proof.
  intros _ Hsr Hse Her Hee Hsn Hen Hsv Hev (Hn1 & Hdis & Hn2)%NoDup_app Hempty. unfold Bench.RegisterRules.
  rewrite Hse, Hee, Hsr, Her.
  pose proof (range_rules _ Bench.sy_RuleID Bench.sy_Endpoint Bench.zero_shelly Bench.shelly_rule shelly Hsn) as Hps.
  pose proof (range_rules _ Bench.ey_RuleID Bench.ey_Endpoint Bench.zero_esp32 Bench.esp32_rule esp Hen) as Hpe.
  set (rs := _ <$> map_range _) in Hps |- *. set (re := _ <$> map_range _) in Hpe |- *.
  assert (ru_ID <$> rs ≡ₚ Bench.sy_RuleID <$> shelly) as Hids by (rewrite Hps, <- list_fmap_compose; done).
  assert (ru_ID <$> re ≡ₚ Bench.ey_RuleID <$> esp) as Hide by (rewrite Hpe, <- list_fmap_compose; done).
  destruct (register_rules_ok observing "register Shelly alarm" Background rs alarms) as (m1 & -> & Hm1); [done|..].
  { rewrite Hps. by apply Forall_fmap. }
  { by rewrite Hids. }
  { intros r _. by rewrite Hempty, lookup_empty. }
  destruct (register_rules_ok observing "register ESP32 alarm" Background re m1) as (m2 & -> & _); [done|..|by eauto].
  { rewrite Hpe. by apply Forall_fmap. }
  { by rewrite Hide. }
  intros r Hr. apply eq_None_not_Some. rewrite Hm1, Hempty, lookup_empty, Hids. intros [Hin|[]]; [|done].
  apply (Hdis _ Hin). rewrite <- Hide. by apply list_elem_of_fmap_2.
Qed.

Lemma construct_adapters_succeeds cfg (alarms : @AlarmManager W) :
  adapters_ok cfg → unique_rules cfg → readable_nodes cfg → am_rules alarms = ∅ →
  ∃ parts, construct_adapters (H3 := Alarms_Engine observing) cfg alarms (NewExecutorRouter tt) = inr parts.
Proof.
  intros Hok Hrules Htok Hempty. destruct (node_policies cfg Hok Htok) as (policies & Hpol & Hvalid & Hids & Hpr).
  destruct Hok as [_ _ Hsh _ ((Hn1 & _ & Hn2)%NoDup_app & Hq & _) _]. unfold construct_adapters.
  destruct (negb _); [by eauto|]. rewrite Hpol. set (S := elems (ad_ShellyEndpoints (cf_Adapters cfg))) in *.
  assert (Forall (fun e => Shelly.validateEndpoint e = None) (shelly_value <$> S)) as Hends.
  { apply Forall_fmap. eapply Forall_impl; [exact Hsh|]. apply shelly_value_valid. }
  destruct (NewCoordinator_builds (shelly_policy <$> S) policies) as (bench & Hb & Hsr & Hse & Her & Hee).
  { apply Forall_fmap. eapply Forall_impl; [exact Hsh|]. by intros e [(_ & _ & ?) _ _ _ _ _]. }
  { by rewrite <- list_fmap_compose. }
  { eapply Forall_impl; [exact Hvalid|]. naive_solver. }
  { by rewrite Hids. }
  rewrite Hb. destruct (RegisterRules_succeeds (shelly_policy <$> S) policies bench alarms) as (alarms' & ->); try done.
  { by rewrite <- list_fmap_compose. }
  { by rewrite Hids. }
  { apply Forall_fmap. eapply Forall_impl; [exact Hsh|]. apply shelly_rule_valid. }
  { eapply Forall_impl; [exact Hvalid|]. naive_solver. }
  { by rewrite <- list_fmap_compose, Hpr. }
  assert (∃ r, construct_shelly (shelly_value <$> S) (NewExecutorRouter tt) = inr r) as [[adapter router] Hc].
  { unfold construct_shelly. simpl. pose proof (shelly_adapter_built (shelly_value <$> S)) as Ha.
    destruct (Shelly.NewAdapter _ _); [|destruct Ha; split; [done|by rewrite <- list_fmap_compose]].
    pose proof (register_routes_spec (shelly_value <$> S) (NewExecutorRouter tt)) as Hr.
    destruct (register_routes _ _); [|by eauto]. destruct Hr. split_and!; [|by rewrite <- list_fmap_compose|done].
    apply Forall_fmap. eapply Forall_impl; [exact Hsh|]. by intros ? [(_ & ? & _) _ _ _ _ _]. }
  assert (∃ a, construct_esp32 (Bench.ey_Endpoint <$> policies) = inr a) as [node Hn].
  { unfold construct_esp32. simpl. destruct (esp32_adapter_built (Bench.ey_Endpoint <$> policies)) as [a ->]; [..|by eauto].
    - apply Forall_fmap. eapply Forall_impl; [exact Hvalid|]. naive_solver.
    - rewrite <- list_fmap_compose. unfold compose. by rewrite Hids. }
  rewrite Hc, Hn. destruct (ad_ShellyEnabled _), (ad_ESP32Enabled _); by eauto.
Qed.
End stage.

(** ** The whole container *)
Section complete.
Context `{!URLParser, !NetParser, !MapRange, !Http.URLWriter, !StorageBackend.Formats, !Files, !Digester, !SHA256, !Unmarshaler}.
Context (render : error → string).
Context `{!JSON, !Marshaler Envelope, !Marshaler (gmap string string), !Marshaler Device, !Marshaler Sensor}.
Context `{!Marshaler Equipment, !Marshaler Alarm, !Marshaler Config}.
Context {W V K : Type} `{!Publisher W} (bus_ref : W) (paho_NewClient : ClientOptions → K).
Context (factory : nat → FactoryEnv) (fresh : nat → string * option error) (observing : ObserveEnv) (apiNow : Time).
Context (mqttNow : nat → Time) (newCorrelation : nat → CorrelationID * option error).

(** The events of the registrations can be made and published, from the
    publisher that construction is given on. *)
Definition registrations_publish : Prop := ∃ quiet : option W → Prop,
  quiet (Some bus_ref)
  ∧ (∀ n (d : Device) p, quiet p → published quiet (Devices.emit (factory n) Background DeviceRegistered d p))
  ∧ (∀ n (s : Sensor) p, quiet p → published quiet (emit_sensor (factory n) Background SensorRegistered s p))
  ∧ ∀ n (q : Equipment) p, quiet p → published quiet (emit_equipment (factory n) Background EquipmentRegistered q p).

(** What construction needs beyond validation. *)
Record constructible (cfg : Config) : Prop := {
  cs_devices : NoDup ((sh_ID <$> elems (ad_ShellyEndpoints (cf_Adapters cfg)))
                      ++ (ec_DeviceID <$> elems (ad_ESP32Endpoints (cf_Adapters cfg))));
  cs_inventory : ∀ e, e ∈ elems (ad_ShellyEndpoints (cf_Adapters cfg)) → equipment_definitions cfg !! sh_EquipmentID e = None;
  cs_rules : unique_rules cfg;
  cs_nodes : readable_nodes cfg;
  cs_database : plain_database cfg;
  cs_token : long_token cfg;
  cs_will : will_encodes mqttNow newCorrelation cfg
}.

Lemma construct_core_succeeds cfg :
  config_ok cfg → registrations_publish → constructible cfg →
  ∃ core, construct_core bus_ref factory fresh cfg = inr core ∧ am_rules (ev_engine (cr_evaluator core)) = ∅.
Proof.
  intros Hc (quiet & Hfirst & Hd & Hs & Hq) Hcs. unfold construct_core.
  pose proof (validated_inventory_registers factory fresh Background eq_refl quiet Hd Hs Hq cfg (Some bus_ref) (co_adapters _ Hc) Hfirst
    (cs_devices _ Hcs)) as Hreg.
  destruct (registerAdapterInventory _ _ _ _ _) as [err t]. destruct Hreg as [-> _].
  set (alarms := NewManagerWithDependencies (Some bus_ref) 16).
  destruct (configured_rules_accepted cfg TheBus alarms Hc) as (rules & evaluator & Hrules & _ & Hev).
  destruct (configured_engine_exists cfg (co_adapters _ Hc) (cs_inventory _ Hcs)) as [engine Hen].
  rewrite Hrules. cbn [flip_sum]. rewrite Hev, Hen. simpl. eexists. split; [done|]. simpl.
  unfold NewEvaluator in Hev. destruct (add_thresholds rules ∅); simplify_eq. done.
Qed.

(** C20: a validated configuration whose secrets can be read is turned into a
    container, under the conditions that the constructors check and validation
    does not, which are stated as such: no alarm rule ID is used by two
    endpoints; no Shelly endpoint has the ID of a node, and the inventory does
    not redefine the equipment of an endpoint; the database URL has no query
    or fragment and the API token is long enough; with MQTT enabled, the
    site's offline message can be encoded within the configured maximum
    payload; and the events of the registrations can be made and published, as
    a bus without subscribers publishes them. *)
Theorem valid_configuration_constructs cfg path supplied :
  Config_Validate render cfg = None → path ≠ "" → registrations_publish → constructible cfg →
  ∃ c, New (V := V) render bus_ref paho_NewClient factory fresh observing apiNow mqttNow newCorrelation cfg path true supplied = inr c.
Proof.
  intros Hv Hpath Hpub Hcs. pose proof (proj1 (Config_Validate_iff render cfg) Hv) as Hc. unfold New.
  rewrite Hv, bool_decide_eq_false_2 by done. cbn [negb]. unfold assemble.
  destruct (construct_core_succeeds cfg Hc Hpub Hcs) as (core & -> & Hempty).
  destruct (construct_storage_succeeds cfg (NewBus [ap_EventConcurrency (cf_Application cfg)]) (co_storage _ Hc) (cs_database _ Hcs) eq_refl)
    as (storage & bus & -> & Hbus).
  destruct (construct_api_succeeds cfg apiNow (cs_token _ Hcs)) as [api ->].
  destruct (construct_adapters_succeeds observing cfg (ev_engine (cr_evaluator core)) (co_adapters _ Hc) (cs_rules _ Hcs) (cs_nodes _ Hcs) Hempty)
    as [parts Hparts].
  rewrite Hparts. destruct (construct_mqtt_succeeds paho_NewClient mqttNow newCorrelation cfg bus Hc (cs_will _ Hcs) Hbus) as [mqtt ->].
  by eauto.
Qed.
End complete.

(** ** The bus as that publisher

    A new bus publishes the registrations as long as their payloads are
    encoded and the factory reads a clock and draws identifiers. *)
Section publisher.
Context `{!JSON, !Marshaler Device, !Marshaler Sensor, !Marshaler Equipment}.
Context {X : Type} (invoke : nat → Context → Event → Bus * X → option error * (Bus * X)) (capacity : Z).
Context (factory : nat → FactoryEnv).
#[local] Instance the_bus : Publisher (Bus * X) := Bus_Publisher invoke.

Definition encodable A `{!Marshaler A} : Prop :=
  ∀ a : A, ∃ payload, json_Marshal a = inr payload ∧ json_Valid payload = true.
Context (draws : ∀ n, ∃ id, fe_fresh (factory n) = (id, None) ∧ validateUUID id = None).
Context (reads : ∀ n, IsZero (UTC (fe_now (factory n))) = false).

Lemma new_bus_publishes {A} `{!Marshaler A} n source eventType (a : A) (x : X) :
  encodable A → source ≠ "" → eventType ≠ "" →
  emit_with (factory n) Background source eventType SeverityInfo a "" (Some (NewBus [capacity], x))
  = (None, Some (NewBus [capacity], x)).
Proof.
  intros Hall Hs Ht. destruct (Hall a) as (payload & Hm & Hv). destruct (draws n) as (id & Hid & Hu).
  unfold emit_with, Factory_New. rewrite Hm, Hid, bool_decide_eq_true_2 by done. cbv beta iota zeta.
  set (event := mkEvent _ _ _ _ _ _). assert (Event_Validate event = None) as He.
  { unfold Event_Validate, event. simpl. by rewrite reads, !bool_decide_eq_false_2, Hu, Hv by done. }
  rewrite He. cbn [Publish the_bus Bus_Publisher Bus_Publish]. unfold Bus_Publish, NewBus. cbn [b_closed b_slots b_capacity].
  rewrite He, (proj2 (Nat.ltb_lt _ _)); [by simpl; rewrite lookup_empty|]. case_match; lia.
Qed.

Lemma new_bus_registers (x : X) :
  encodable Device → encodable Sensor → encodable Equipment → registrations_publish (NewBus [capacity], x) factory.
Proof.
  intros Hd Hs Hq. exists (fun p => p = Some (NewBus [capacity], x)). split; [done|].
  split_and!; intros n a p ->; unfold published, Devices.emit, emit_sensor, emit_equipment; by rewrite new_bus_publishes.
Qed.
End publisher.
