(* ===== verification/EndToEnd.v ===== *)
(** * From the configuration file to the relay

    The composition root, validation, the safety engine, the canonical state
    and the command service together: what the configuration of a heater means
    for every command that reaches its adapter in the program built from it:
    in one submission that nothing disturbs, and in a run with any number of
    calls in progress, while sensors report, time passes and others use the
    safety engine. *)

From Stdlib Require Import ZArith Lia String.
From stdpp Require Import base gmap strings list.
From S2P Require Import Prelude Domain Health Events State Devices Sensors EquipmentRegistry Equipment Safety Output.
From S2P Require Import Commands System Concurrency Alarms Evaluator Envelope Config ConfigValidation ConfigManager Container.
From S2P Require Import MqttReconnect Secrets Assembly AssemblySafety.
From S2P Require Http StorageBackend.

Section end_to_end.
Context `{!URLParser, !NetParser, !MapRange, !Http.URLWriter, !StorageBackend.Formats, !Files, !Digester, !SHA256}.
Context (render : error → string).
Context `{!JSON, !Marshaler Envelope, !Marshaler (gmap string string), !Marshaler Device, !Marshaler Sensor}.
Context `{!Marshaler Equipment, !Marshaler Alarm, !Marshaler Config, !Marshaler Result}.
Context {W V K : Type} `{!Publisher W} (bus_ref : W) (paho_NewClient : ClientOptions → K).
Context (factory : nat → FactoryEnv) (fresh : nat → string * option error) (observing : ObserveEnv) (apiNow : Time).
Context (mqttNow : nat → Time) (newCorrelation : nat → CorrelationID * option error).
(** The executor behind the service, and what its clock and generators answer. *)
Context {X : Type} `{!Executor X} (now : nat → Time) (newCommandID : nat → CommandID * option error).
Context (newCorrelationID : nat → CorrelationID * option error) (commandFactory : nat → FactoryEnv).

Abbreviation make := (New (V := V) render bus_ref paho_NewClient factory fresh observing apiNow mqttNow newCorrelation).
Abbreviation Submit := (Submit now newCommandID newCorrelationID commandFactory).
Abbreviation Service := (@Service SafetyPolicy (StateManager * Time) (Recording X) W).

(** The profile of a heater that the inventory does not redefine, in every
    state that the engine of a constructed container reaches. *)
Lemma assembled_heater_profile cfg path logger supplied c endpoint e :
  make cfg path logger supplied = inr c → ad_ShellyEnabled (cf_Adapters cfg) = true →
  endpoint ∈ elems (ad_ShellyEndpoints (cf_Adapters cfg)) → sh_EquipmentKind endpoint = "heater" →
  equipment_definitions cfg !! sh_EquipmentID endpoint = None →
  rtc (engine_step (R := StateManager * Time)) (ct_Safety c) e →
  ∃ p q, p ≠ q ∧ p ∈ probes_of (elems (ad_ESP32Endpoints (cf_Adapters cfg)))
    ∧ q ∈ probes_of (elems (ad_ESP32Endpoints (cf_Adapters cfg))) ∧ 0 < sh_MaximumOn endpoint
    ∧ e_profiles e !! sh_EquipmentID endpoint = Some (mkProfile (sh_EquipmentID endpoint) KindHeater true false
        shelly_capabilities (mkLimits (sh_MaximumOn endpoint) 0 0)
        [mkInputRequirement (probe_key p) None; mkInputRequirement (probe_key q) None]).
Proof.
  intros Hnew Hen Hin Hheater Hnone Hsteps.
  destruct (New_stages _ _ _ _ _ _ _ _ _ _ _ _ _ _ Hnew) as (Hv & (core & Hcore & Hs & _) & _).
  apply construct_core_engine in Hcore. rewrite <- Hs in Hcore. apply Config_Validate_iff in Hv.
  destruct (co_adapters _ Hv) as [_ _ Hsh _ _ Hheat].
  assert (shelly_ok endpoint) as Hok by (by eapply Forall_forall in Hsh).
  destruct (shelly_profile_plain (equipment_definitions cfg) (sensor_definitions cfg) endpoint Hok Hnone) as [_ Hp].
  destruct (Hp Hheater) as (p & q & Hpq & Hprobes & Hprofile). destruct (Hheat endpoint Hin Hheater Hen) as [_ Hknown].
  exists p, q. split_and!; [done|by apply Hknown; rewrite Hprobes; set_solver..| |].
  - destruct (so_kind _ Hok) as [(? & _)|(_ & _ & ? & _)]; [congruence|done].
  - assert (e_profiles e = e_profiles (ct_Safety c)) as ->.
    { apply (rtc_invariant (engine_step (R := StateManager * Time)) (fun e => e_profiles e = e_profiles (ct_Safety c)) (ct_Safety c));
        [|done..]. intros a b Hab. by rewrite (engine_step_profiles a b Hab). }
    apply add_profiles_holds in Hcore as [_ Hheld].
    destruct (Hheld _ (elem_of_configured_profiles cfg endpoint Hen Hin)) as [Hlookup _]. by rewrite Hprofile in Hlookup.
Qed.

(** In the program that the composition root builds from a configuration with
    a heater on a Shelly endpoint that the inventory does not redefine, in
    whatever state its safety engine has reached, a command that switches the
    heater on reaches the executor only while two distinct probes of the
    configured ESP32 nodes are held by the canonical state, good and
    unexpired, no emergency stop is in force, the command had not expired when
    that was checked, and the heater is within its positive maximum on time.
    *)
Theorem heater_is_never_powered_blind cfg path logger supplied c endpoint ctx command (s : Service) d :
  make cfg path logger supplied = inr c → ad_ShellyEnabled (cf_Adapters cfg) = true →
  endpoint ∈ elems (ad_ShellyEndpoints (cf_Adapters cfg)) → sh_EquipmentKind endpoint = "heater" →
  equipment_definitions cfg !! sh_EquipmentID endpoint = None →
  rtc (engine_step (R := StateManager * Time)) (ct_Safety c) (sp_engine (sv_policy s)) →
  d ∈ dispatched (Submit ctx command s).2 → d ∉ dispatched s → c_EquipmentID d = sh_EquipmentID endpoint → c_On d = true →
  let policy := sv_policy s in
  (∃ p q, p ≠ q ∧ Forall (fun probe => probe ∈ probes_of (elems (ad_ESP32Endpoints (cf_Adapters cfg)))
      ∧ ∃ v, m_values (sp_state policy) !! probe_key probe = Some v ∧ sv_Quality v = QualityGood
          ∧ sp_clock policy < sv_ObservedAt v + sv_FreshFor v) [p; q])
  ∧ e_mode (sp_engine policy) ≠ ModeEmergencyStop
  ∧ (∃ k, (sv_tick s ≤ k)%nat ∧ now k < c_ExpiresAt d)
  ∧ 0 < sh_MaximumOn endpoint
  ∧ let rt := account (runtime_of (c_EquipmentID d) (sp_engine policy)) (c_IssuedAt d) in
    rt_on rt = true → Sub (c_IssuedAt d) (rt_onSince rt) < sh_MaximumOn endpoint.
Proof.
  intros Hnew Hen Hin Hheater Hnone Hsteps Hd Hnot Hid Hon policy.
  destruct (assembled_heater_profile _ _ _ _ _ _ _ Hnew Hen Hin Hheater Hnone Hsteps) as (p & q & Hpq & Hp & Hq & Hmax & Hprofile).
  destruct (submission_permitted now newCommandID newCorrelationID commandFactory ctx command s d Hd Hnot Hon)
    as (profile & k & Hlookup & Hk & Hexp & Hmode & _ & (Hlim & _ & _) & Hinputs & _).
  rewrite Hid, Hprofile in Hlookup. injection Hlookup as <-. simpl in Hlim, Hinputs.
  specialize (Hinputs eq_refl). rewrite !Forall_cons in Hinputs.
  destruct Hinputs as ((v & Hv & Hvq & Hvf & _) & (w & Hw & Hwq & Hwf & _) & _).
  split_and!; [|done|by eauto|done|by auto]. exists p, q. split; [done|]. repeat constructor; eauto.
Qed.
End end_to_end.

(** ** The running controller *)

(** Others reach the engine through its operations; the canonical state and the
    time may change in any way. *)
Definition engine_used (p p' : SafetyPolicy) : Prop :=
  rtc (engine_step (R := StateManager * Time)) (sp_engine p) (sp_engine p').

(** The engine of [p] was reached from [e] by its operations. *)
Definition engine_from (e : Engine) (p : SafetyPolicy) : Prop :=
  rtc (engine_step (R := StateManager * Time)) e (sp_engine p).

Lemma engine_from_used e p p' : engine_used p p' → engine_from e p → engine_from e p'.
Proof. intros ? ?. by eapply rtc_trans. Qed.
Lemma engine_from_evaluate e ctx intent p : engine_from e p → engine_from e (policy_Evaluate ctx intent p).2.
Proof.
  intros He. eapply rtc_r; [exact He|]. cbn.
  pose proof (es_evaluate ctx (sp_clock p) (sp_state p, sp_clock p) intent (sp_engine p)) as Hs.
  by destruct (Evaluate _ _ _ _ _).
Qed.
Lemma engine_from_report e ctx id on at_ p : engine_from e p → engine_from e (policy_RecordReported ctx id on at_ p).2.
Proof.
  intros He. eapply rtc_r; [exact He|]. cbn.
  pose proof (es_report (R := StateManager * Time) ctx id on at_ (sp_engine p)) as Hs. by destruct (RecordReported _ _ _ _ _).
Qed.

Section running.
Context `{!URLParser, !NetParser, !MapRange, !Http.URLWriter, !StorageBackend.Formats, !Files, !Digester, !SHA256}.
Context (render : error → string).
Context `{!JSON, !Marshaler Envelope, !Marshaler (gmap string string), !Marshaler Device, !Marshaler Sensor}.
Context `{!Marshaler Equipment, !Marshaler Alarm, !Marshaler Config, !Marshaler Result}.
Context {W V K : Type} `{!Publisher W} (bus_ref : W) (paho_NewClient : ClientOptions → K).
Context (factory : nat → FactoryEnv) (fresh : nat → string * option error) (observing : ObserveEnv) (apiNow : Time).
Context (mqttNow : nat → Time) (newCorrelation : nat → CorrelationID * option error).
Context {X : Type} `{!Executor X} (now : nat → Time) (newCommandID : nat → CommandID * option error).
Context (newCorrelationID : nat → CorrelationID * option error) (commandFactory : nat → FactoryEnv).

Abbreviation make := (New (V := V) render bus_ref paho_NewClient factory fresh observing apiNow mqttNow newCorrelation).
Abbreviation Service := (@Service SafetyPolicy (StateManager * Time) (Recording X) W).
Abbreviation steps := (sys_step now newCommandID newCorrelationID commandFactory engine_used anyone).

(** C2: in the program that the composition root builds from a configuration
    with a heater on a Shelly endpoint that the inventory does not redefine,
    while any number of submissions, reconciliations and expiries run at once
    and the state, the time and the safety engine change in between, also in
    the middle of an evaluation: every command that ever switched the heater
    on was found unexpired; then, when the engine looked at its own state, no
    emergency stop was in force and the heater was within its positive maximum
    on time; and then or later, each at a moment of its own, two distinct
    probes of the configured ESP32 nodes were held by the canonical state,
    good and unexpired. *)
Theorem running_heater_is_never_powered_blind cfg path logger supplied c endpoint policy revisions x w s0 y d :
  make cfg path logger supplied = inr c → ad_ShellyEnabled (cf_Adapters cfg) = true →
  endpoint ∈ elems (ad_ShellyEndpoints (cf_Adapters cfg)) → sh_EquipmentKind endpoint = "heater" →
  equipment_definitions cfg !! sh_EquipmentID endpoint = None →
  sp_engine policy = ct_Safety c →
  NewServiceWithDependencies true policy revisions (mkRecording x []) w = inl s0 →
  rtc steps (begun s0) y →
  d ∈ dispatched (sy_service y) → c_EquipmentID d = sh_EquipmentID endpoint → c_On d = true →
  ∃ i k si sk, (i < k)%nat ∧ sy_past y !! i = Some si ∧ sy_past y !! k = Some sk
    ∧ now (sv_tick si) < c_ExpiresAt d
    ∧ e_mode (sp_engine (sv_policy sk)) ≠ ModeEmergencyStop
    ∧ 0 < sh_MaximumOn endpoint
    ∧ (let rt := account (runtime_of (c_EquipmentID d) (sp_engine (sv_policy sk))) (c_IssuedAt d) in
       rt_on rt = true → Sub (c_IssuedAt d) (rt_onSince rt) < sh_MaximumOn endpoint)
    ∧ ∃ p q, p ≠ q ∧ Forall (fun probe => probe ∈ probes_of (elems (ad_ESP32Endpoints (cf_Adapters cfg)))
        ∧ ∃ j sj v, (k ≤ j)%nat ∧ sy_past y !! j = Some sj
            ∧ m_values (sp_state (sv_policy sj)) !! probe_key probe = Some v ∧ sv_Quality v = QualityGood
            ∧ sp_clock (sv_policy sj) < sv_ObservedAt v + sv_FreshFor v) [p; q].
Proof.
  intros Hnew Hen Hin Hheater Hnone Hengine Hs0 Hsteps Hd Hid Hon.
  assert (sv_policy s0 = policy) as Hp0 by (cbn in Hs0; by simplify_eq).
  destruct (begun_ok now _ _ _ _ _ _ Hs0) as (Hok & _).
  assert (sys_ok now y) as [_ Hlog _] by (eapply rtc_invariant; [apply sys_step_ok|exact Hok|exact Hsteps]).
  destruct (policy_throughout now newCommandID newCorrelationID commandFactory engine_used (engine_from (ct_Safety c)) anyone s0 y)
    as [_ Hpast]; [intros; by apply engine_from_evaluate|intros; by apply engine_from_report|intros; by eapply engine_from_used
      |unfold engine_from; by rewrite Hp0, Hengine|done|].
  destruct (Hlog d Hd) as [Hv [ctx (i & j & k & l & verdict & Hle & (si & Hsi & Hti) & _ & Hdel & Hall)]].
  destruct (deliberated_on _ _ _ _ _ _ Hdel Hall Hon (valid_issued d Hv)) as (sk & profile & Hsk & [Hprof Hmode Hlim _ _] & Hinputs).
  rewrite Forall_lookup in Hpast. specialize (Hpast k sk Hsk). cbn in Hpast, Hprof, Hlim.
  destruct (assembled_heater_profile render bus_ref paho_NewClient factory fresh observing apiNow mqttNow newCorrelation
    _ _ _ _ _ _ _ Hnew Hen Hin Hheater Hnone Hpast) as (p & q & Hpq & Hp & Hq & Hmax & Hprofile).
  rewrite <- Hid, Hprof in Hprofile. injection Hprofile as ->. cbn in Hlim, Hinputs. specialize (Hinputs eq_refl).
  rewrite !Forall_cons in Hinputs. destruct Hinputs as ((j1 & s1 & ? & ? & v1 & ? & ? & ? & _) & (j2 & s2 & ? & ? & v2 & ? & ? & ? & _) & _).
  exists i, k, si, sk. cbn zeta. split_and!; try done; [lia|by auto|]. exists p, q. split; [done|]. repeat constructor; try done;
    [by exists j1, s1, v1|by exists j2, s2, v2].
Qed.
End running.
