(* ===== verification/Programs.v ===== *)
(** * The programs around the container: [cmd/aquaos], [cmd/devbootstrap],
    [internal/logging] and [internal/telemetry]

    Each program is a function from what it is given to its exit status and
    the lifecycle it leaves behind. Flags are its arguments. At the end is what
    the toolchain recorded in the binary, as [debug.ReadBuildInfo] answers it,
    and what the program makes of it; [time.Parse] is written out as far as the
    layout [time.RFC3339] goes. *)

From Stdlib Require Import ZArith Lia String Ascii.
From stdpp Require Import base gmap strings list pretty.
From S2P Require Import Prelude Domain Health Lifecycle Events Bus State Devices Sensors EquipmentRegistry Equipment.
From S2P Require Import Safety Output Alarms Evaluator Topics Envelope MqttClient MqttRouter Config ConfigValidation.
From S2P Require Import ConfigManager Container MqttReconnect Secrets Encoding Assembly AssemblySafety.
From S2P Require Storage StorageBackend Http Access Api Esp32 Shelly Bench Simulator HomeAssistant.

(** ** Logging *)

(** [strings.ToUpper], as far as a comparison with ASCII text can tell: of the
    characters beyond ASCII only U+0131 and U+017F have an ASCII upper case. *)
Fixpoint ToUpper (s : string) : string :=
  match s with
  | EmptyString => ""
  | String a rest =>
      let here := String (if in_range 97 122 a then ascii_of_N (Z.to_N (code a - 32)) else a) (ToUpper rest) in
      match rest with
      | String b rest1 =>
          if (code a =? 196) && (code b =? 177) then String "I"%char (ToUpper rest1)
          else if (code a =? 197) && (code b =? 191) then String "S"%char (ToUpper rest1)
          else here
      | EmptyString => here
      end
  end.

(** [slog.Level.UnmarshalText]: a name and an optional signed offset. *)
Fixpoint cut_offset (s : string) : string * string :=
  match s with
  | EmptyString => ("", "")
  | String c rest =>
      if Ascii.eqb c "+" || Ascii.eqb c "-" then ("", s)
      else let '(name, offset) := cut_offset rest in (String c name, offset)
  end.
Definition level_of_name (name : string) : option Z :=
  let name := ToUpper name in
  if bool_decide (name = "DEBUG") then Some (-4)
  else if bool_decide (name = "INFO") then Some 0
  else if bool_decide (name = "WARN") then Some 4
  else if bool_decide (name = "ERROR") then Some 8
  else None.
Definition UnmarshalLevel (s : string) : option Z :=
  let '(name, offset) := cut_offset s in
  match (if bool_decide (offset = "") then Some 0 else Atoi offset) with
  | None => None
  | Some offset => (fun level => wrap_int64 (level + offset)) <$> level_of_name name
  end.

(** The level that a logger and its controller share. *)
Record LevelController := mkLevelController { lv_level : Z }.

Definition controller_SetLogLevel (value : string) (c : LevelController) : LevelController :=
  match UnmarshalLevel (ToUpper value) with Some level => mkLevelController level | None => c end.
#[export] Instance LevelController_Setter : LogLevelSetter LevelController := {| SetLogLevel := controller_SetLogLevel |}.

Definition NewDynamic (level : string) : error + LevelController :=
  match UnmarshalLevel (ToUpper level) with
  | None => inl (ErrNew ("parse log level " +:+ level))
  | Some parsed => inr (mkLevelController parsed)
  end.

Definition is_ascii (s : string) : Prop := Forall (fun c => code c < 128) (bytes_of s).

Lemma ToUpper_ToLower_char c :
  code c < 128 →
  let lower := if in_range 65 90 c then ascii_of_N (Z.to_N (code c + 32)) else c in
  let upper c := if in_range 97 122 c then ascii_of_N (Z.to_N (code c - 32)) else c in
  upper lower = upper c ∧ code lower < 128.
Proof. destruct c as [[] [] [] [] [] [] [] []]; vm_compute; try done; intros H; discriminate H. Qed.

Lemma ToUpper_step c s :
  code c < 128 → ToUpper (String c s) = String (if in_range 97 122 c then ascii_of_N (Z.to_N (code c - 32)) else c) (ToUpper s).
Proof.
  intros Hc. cbn [ToUpper]. destruct s as [|b s]; [done|].
  destruct (Z.eqb_spec (code c) 196); [lia|]. destruct (Z.eqb_spec (code c) 197); [lia|]. done.
Qed.
Lemma ToLower_step c s :
  code c < 128 → ToLower (String c s) = String (if in_range 65 90 c then ascii_of_N (Z.to_N (code c + 32)) else c) (ToLower s).
Proof.
  intros Hc. cbn [ToLower]. destruct s as [|b s]; [done|].
  destruct (Z.eqb_spec (code c) 196); [lia|]. destruct s; [done|]. destruct (Z.eqb_spec (code c) 226); [lia|]. done.
Qed.

Lemma ToUpper_ToLower s : is_ascii s → ToUpper (ToLower s) = ToUpper s.
Proof.
  unfold is_ascii. induction s as [|c s IH]; intros Hs; [done|]. apply Forall_cons in Hs as [Hc Hs].
  rewrite ToLower_step by done. destruct (ToUpper_ToLower_char c Hc) as [Heq Hl].
  rewrite ToUpper_step by done. rewrite ToUpper_step by done. by rewrite Heq, IH.
Qed.

(** A level of a validated configuration that is written in ASCII configures
    the logger, and a reload to it is applied. *)
Theorem validated_level_parses `{!URLParser, !NetParser, !MapRange} cfg :
  config_ok cfg → is_ascii (ap_LogLevel (cf_Application cfg)) →
  ∃ level, NewDynamic (ap_LogLevel (cf_Application cfg)) = inr (mkLevelController level)
    ∧ ∀ c, controller_SetLogLevel (ap_LogLevel (cf_Application cfg)) c = mkLevelController level.
Proof.
  intros Hc Ha. pose proof (co_level _ Hc) as Hl. unfold NewDynamic, controller_SetLogLevel. rewrite <- (ToUpper_ToLower _ Ha).
  rewrite !elem_of_cons, elem_of_nil in Hl. destruct Hl as [->|[->|[->|[->|[]]]]]; vm_compute; eauto.
Qed.

(** U+0130 has the lower case i and no upper case but itself: a level written
    with it passes validation and is not parsed. *)
Definition dotted_level : string := String (ascii_of_nat 196) (String (ascii_of_nat 176) "nfo").
Example dotted_level_is_not_parsed :
  ToLower dotted_level = "info" ∧ (∃ err, NewDynamic dotted_level = inl err)
  ∧ ∀ c, controller_SetLogLevel dotted_level c = c.
Proof. split; [vm_compute; done|]. split; [by eexists; vm_compute|]. intros c. by vm_compute. Qed.

(** ** The two programs *)
Section programs.
Context `{!URLParser, !NetParser, !MapRange, !Http.URLWriter, !StorageBackend.Formats, !Files, !Digester, !SHA256, !YAML}.
Context (env : Environment) (render : error → string).
Context `{!JSON, !Marshaler Envelope, !Marshaler (gmap string string), !Marshaler Device, !Marshaler Sensor}.
Context `{!Marshaler Equipment, !Marshaler Alarm, !Marshaler Config}.
Context {W K : Type} `{!Publisher W} (bus_ref : W) (paho_NewClient : ClientOptions → K).
Context (factory : nat → FactoryEnv) (fresh : nat → string * option error) (observing : ObserveEnv) (apiNow : Time).
Context (mqttNow : nat → Time) (newCorrelation : nat → CorrelationID * option error).
(** What the components answer when they are started and stopped, and which
    starts were cut short. *)
Context (name : nat → string) (start stop interrupted : ComponentID → option error).

Abbreviation make := (New (V := LevelController) render bus_ref paho_NewClient factory fresh observing apiNow mqttNow newCorrelation).

(** The exit status, and the lifecycle of the container if there was one. *)
Record Exit := mkExit { ex_status : Z; ex_lifecycle : option Lifecycle }.
Definition failed : Exit := mkExit 1 None.

(** [run] of [cmd/aquaos]: between start and stop it waits for a signal. *)
Definition aquaos_run (configPath : string) : Exit :=
  when bool_decide (configPath = "") yield failed;;
  match Load env render configPath with
  | inl _ => failed
  | inr cfg =>
      match NewDynamic (ap_LogLevel (cf_Application cfg)) with
      | inl _ => failed
      | inr levelController =>
          match make cfg configPath true [levelController] with
          | inl _ => failed
          | inr container =>
              let entries := ct_Lifecycle container in
              let '(m, err) := start_entries entries name start stop interrupted in
              iferr err as _ yield mkExit 1 (Some m);;
              let '(m, err) := stop_entries entries name start stop m in
              iferr err as _ yield mkExit 1 (Some m);;
              mkExit 0 (Some m)
          end
      end
  end.

(** [run] of [cmd/devbootstrap] after its flags; [status] is what the health of
    the components is once they are started. *)
Definition devbootstrap_run (configPath : string) (status : ComponentID → Status) (now : Time) : Exit :=
  when bool_decide (configPath = "") yield failed;;
  match Load env render configPath with
  | inl _ => failed
  | inr cfg =>
      when mq_Enabled (cf_MQTT cfg) yield failed;;
      when negb (cf_SimulatorEnabled cfg) yield failed;;
      match NewDynamic (ap_LogLevel (cf_Application cfg)) with
      | inl _ => failed
      | inr levelController =>
          match make cfg configPath true [levelController] with
          | inl _ => failed
          | inr container =>
              let entries := ct_Lifecycle container in
              let '(m, err) := start_entries entries name start stop interrupted in
              iferr err as _ yield mkExit 1 (Some m);;
              let health := (HealthManager_Start Background (ct_Health container status)).1 in
              when bool_decide (ct_Simulator container = None) || negb (HealthManager_Healthy now health) yield
                mkExit 1 (Some (stop_entries entries name start stop m).1);;
              let '(m, err) := stop_entries entries name start stop m in
              iferr err as _ yield mkExit 1 (Some m);;
              mkExit 0 (Some m)
          end
      end
  end.

Definition clean (x : Exit) : Prop :=
  match ex_lifecycle x with Some m => lc_started m = [] | None => ex_status x = 1 end.

(** However the program ends, no component is left started; it ends with
    status 0 only after every component was started in order and stopped in
    reverse. *)
Theorem aquaos_leaves_nothing_started configPath :
  let x := aquaos_run configPath in
  clean x ∧ (ex_status x = 0 →
    ∃ m n, ex_lifecycle x = Some m ∧ lc_log m = (Started <$> seq 0 n) ++ (Stopped <$> rev (seq 0 n))).
Proof.
  intros x. subst x. unfold aquaos_run. case_bool_decide; [done|]. destruct (Load _ _ _) as [|cfg]; [done|].
  destruct (NewDynamic _) as [|level]; [done|]. destruct (make cfg configPath true [level]) as [|c]; [done|].
  pose proof (start_entries_rollback (ct_Lifecycle c) name start stop interrupted) as Hroll.
  pose proof (start_entries_log (ct_Lifecycle c) name start stop interrupted) as Hlog.
  destruct (start_entries _ _ _ _ _) as [m [err|]]; simpl in Hroll; [split; [by apply Hroll|done]|].
  destruct Hlog as [Hs Hl]; [done|]. unfold stop_entries, Lifecycle_Stop, stopLocked.
  destruct (errors_Join _); (split; [done|]); [done|]. intros _. eexists _, (length (ct_Lifecycle c)). split; [done|].
  simpl. by rewrite Hs, Hl.
Qed.

(** The development bootstrap reports success only for a container without
    hardware: the simulator is there, no adapter, no broker, no output can be
    routed, and every required component is healthy. *)
Theorem bootstrap_reaches_no_hardware configPath status now :
  ex_status (devbootstrap_run configPath status now) = 0 →
  ∃ cfg c level, Load env render configPath = inr cfg ∧ make cfg configPath true [level] = inr c
    ∧ is_Some (ct_Simulator c) ∧ ct_MQTT c = None ∧ ct_Shelly c = None ∧ ct_ESP32 c = None
    ∧ (∀ id, routes (ct_OutputRouter c) !! id = None)
    ∧ ∀ id, id ∈ monitored c → required cfg id = true → is_healthy (status id).
Proof.
  unfold devbootstrap_run. case_bool_decide; [done|]. destruct (Load _ _ _) as [|cfg] eqn:Hload; [done|].
  destruct (mq_Enabled (cf_MQTT cfg)) eqn:Hmq; [done|]. destruct (cf_SimulatorEnabled cfg) eqn:Hsim; [|done]. cbn [negb].
  destruct (NewDynamic _) as [|level]; [done|]. destruct (make cfg configPath true [level]) as [|c] eqn:Hnew; [done|].
  destruct (start_entries _ _ _ _ _) as [m [err|]]; [done|]. case_bool_decide as Hnone; [done|]. cbn [orb].
  destruct (HealthManager_Healthy _ _) eqn:Hh; [|done]. intros _. exists cfg, c, level.
  destruct (New_enabled _ _ _ _ _ _ _ _ _ _ _ _ _ _ Hnew) as (Hm & Hs & He & _).
  destruct (New_stages _ _ _ _ _ _ _ _ _ _ _ _ _ _ Hnew) as (Hv & _ & (alarms & parts & Hparts & Hr & Hps & _) & Hhealth & _).
  apply Config_Validate_iff in Hv. pose proof (ao_exclusive _ (co_adapters _ Hv)) as Hex. rewrite Hsim in Hex.
  assert (ad_ShellyEnabled (cf_Adapters cfg) ≠ true) as Hns by (intros Hen; destruct Hex as [? _]; [by left|done]).
  assert (ad_ESP32Enabled (cf_Adapters cfg) ≠ true) as Hne by (intros Hen; destruct Hex as [? _]; [by right|done]).
  split_and!; try done.
  - destruct (ct_Simulator c); [by eauto|done].
  - apply eq_None_not_Some. intros Hi. apply Hm in Hi. congruence.
  - apply eq_None_not_Some. by intros Hi%Hs.
  - apply eq_None_not_Some. by intros Hi%He.
  - intros id. apply eq_None_not_Some. rewrite Hr. intros Hi. by destruct (construct_adapters_routes _ _ _ Hparts id Hi).
  - unfold HealthManager_Healthy in Hh. rewrite Hhealth in Hh. exact (proj1 (readiness_is_required_health cfg (monitored c) status Background now) Hh).
Qed.
End programs.

(** * Build information *)

(** ** The calendar *)
Definition isLeap (year : Z) : bool :=
  (year mod 4 =? 0) && (negb (year mod 100 =? 0) || (year mod 400 =? 0)).

Definition daysIn (month year : Z) : Z :=
  if month =? 2 then (if isLeap year then 29 else 28)
  else if (month =? 4) || (month =? 6) || (month =? 9) || (month =? 11) then 30 else 31.

(** Days before the first of a month, in a year that is not a leap year. *)
Definition days_before_month (month : Z) : Z :=
  nth (Z.to_nat (month - 1)) [0; 31; 59; 90; 120; 151; 181; 212; 243; 273; 304; 334] 334.

Definition days_before_year (year : Z) : Z :=
  365 * (year - 1) + (year - 1) / 4 - (year - 1) / 100 + (year - 1) / 400.

Definition days_of (year month day : Z) : Z :=
  days_before_year year + days_before_month month + (if (2 <? month) && isLeap year then 1 else 0) + (day - 1).

(** [time.Date] in UTC. *)
Definition Date (year month day hour minute second nsec : Z) : Time :=
  (((days_of year month day * 24 + hour) * 60 + minute) * 60 + second) * Second + nsec.

(** The day after a date, as the calendar has it. *)
Definition next_day (date : Z * Z * Z) : Z * Z * Z :=
  let '(year, month, day) := date in
  if day <? daysIn month year then (year, month, day + 1)
  else if month <? 12 then (year, month + 1, 1) else (year + 1, 1, 1).

Definition is_date (year month day : Z) : Prop := 1 ≤ month ≤ 12 ∧ 1 ≤ day ≤ daysIn month year.

Lemma year_length year :
  days_before_year (year + 1) = days_before_year year + if isLeap year then 366 else 365.
Proof.
  unfold days_before_year, isLeap. replace (year + 1 - 1) with year by lia.
  destruct (Z.eqb_spec (year mod 4) 0), (Z.eqb_spec (year mod 100) 0), (Z.eqb_spec (year mod 400) 0); cbn [andb orb negb];
    Z.to_euclidean_division_equations; lia.
Qed.

(** Sums and differences of numerals. *)
Ltac fold_numerals :=
  repeat match goal with
  | |- context [Z.pos ?a + Z.pos ?b] => let r := eval vm_compute in (Z.pos a + Z.pos b) in change (Z.pos a + Z.pos b) with r
  | |- context [Z.to_nat (Z.pos ?a - Z.pos ?b)] =>
      let r := eval vm_compute in (Z.to_nat (Z.pos a - Z.pos b)) in change (Z.to_nat (Z.pos a - Z.pos b)) with r
  end.

(** The first of January of the year one is day zero, and each day is one more
    than the day before it: the formula counts days. *)
Lemma days_of_counts year month day :
  days_of 1 1 1 = 0
  ∧ (is_date year month day →
     let '(year', month', day') := next_day (year, month, day) in
     is_date year' month' day' ∧ days_of year' month' day' = days_of year month day + 1).
Proof.
  split; [reflexivity|]. intros [Hm Hd]. unfold next_day.
  destruct (Z.ltb_spec day (daysIn month year)).
  { split; [split; lia|]. unfold days_of. lia. }
  assert (day = daysIn month year) as -> by lia.
  assert (month = 1 ∨ month = 2 ∨ month = 3 ∨ month = 4 ∨ month = 5 ∨ month = 6 ∨ month = 7 ∨ month = 8 ∨ month = 9
    ∨ month = 10 ∨ month = 11 ∨ month = 12) as Hcases by lia.
  unfold days_of, is_date, daysIn, days_before_month.
  repeat destruct Hcases as [->|Hcases]; try subst month; fold_numerals; cbn -[days_before_year isLeap];
    fold_numerals; cbn -[days_before_year isLeap]; rewrite ?year_length; destruct (isLeap year); cbn; split; lia.
Qed.

(** ** Parsing *)
Definition digit (c : ascii) : option Z :=
  let n := Z.of_N (N_of_ascii c) in if (48 <=? n) && (n <=? 57) then Some (n - 48) else None.

Definition getnum (s : list ascii) (fixed : bool) : option (Z * list ascii) :=
  match s with
  | [] => None
  | c :: rest =>
      high ← digit c;
      match rest with
      | d :: rest' =>
          match digit d with
          | Some low => Some (high * 10 + low, rest')
          | None => if fixed then None else Some (high, rest)
          end
      | [] => if fixed then None else Some (high, rest)
      end
  end.

(** A literal character of the layout. *)
Definition skip (c : ascii) (s : list ascii) : option (list ascii) :=
  match s with d :: rest => if decide (c = d) then Some rest else None | [] => None end.

Definition four_digits (s : list ascii) : option (Z * list ascii) :=
  '(high, s) ← getnum s true; '(low, s) ← getnum s true; Some (high * 100 + low, s).

Fixpoint span_digits (s : list ascii) : list Z * list ascii :=
  match s with
  | c :: rest =>
      match digit c with Some d => let '(ds, s) := span_digits rest in (d :: ds, s) | None => ([], s) end
  | [] => ([], [])
  end.

Definition number (ds : list Z) : Z := foldl (fun n d => n * 10 + d) 0 ds.

(** A fraction of a second may follow the seconds although the layout has none:
    a period or comma and at least one digit, of which nine count. *)
Definition fraction (s : list ascii) : Z * list ascii :=
  match s with
  | c :: rest =>
      if decide (c = "."%char ∨ c = ","%char) then
        match span_digits rest with
        | ([], _) => (0, s)
        | (ds, rest) => (number (take 9 (ds ++ replicate 9 0)), rest)
        end
      else (0, s)
  | [] => (0, s)
  end.

(** [Z] or an offset in hours and minutes, in seconds. *)
Definition zone (s : list ascii) : option (Z * list ascii) :=
  match s with
  | "Z"%char :: rest => Some (0, rest)
  | sign :: rest =>
      '(hours, rest) ← getnum rest true; rest ← skip ":"%char rest; '(minutes, rest) ← getnum rest true;
      if (24 <? hours) || (60 <? minutes) then None
      else if decide (sign = "+"%char) then Some ((hours * 60 + minutes) * 60, rest)
      else if decide (sign = "-"%char) then Some (- ((hours * 60 + minutes) * 60), rest)
      else None
  | [] => None
  end.

Definition within (low high : Z) (x : option (Z * list ascii)) : option (Z * list ascii) :=
  '(n, s) ← x; if (low <=? n) && (n <=? high) then Some (n, s) else None.

(** [time.Parse(time.RFC3339, value)]; [None] is an error. *)
Definition ParseRFC3339 (value : string) : option Time :=
  '(year, s) ← four_digits (bytes_of value); s ← skip "-" s;
  '(month, s) ← within 1 12 (getnum s true); s ← skip "-" s;
  '(day, s) ← getnum s true; s ← skip "T" s;
  '(hour, s) ← within 0 23 (getnum s false); s ← skip ":" s;
  '(minute, s) ← within 0 59 (getnum s true); s ← skip ":" s;
  '(second, s) ← within 0 59 (getnum s true);
  let '(nsec, s) := fraction s in
  '(offset, s) ← zone s;
  match s with
  | [] =>
      if (day <? 1) || (daysIn month year <? day) then None
      else Some (Date year month day hour minute second nsec - offset * Second)
  | _ => None
  end.

(** ** Build information *)
Record BuildSetting := mkBuildSetting { bs_Key : string; bs_Value : string }.
(** The main module's version and the settings, of what [debug.ReadBuildInfo]
    answers. *)
Record DebugInfo := mkDebugInfo { di_MainVersion : string; di_Settings : list BuildSetting }.

Record BuildInfo := mkBuildInfo { bi_Version : string; bi_Revision : string; bi_BuiltAt : Time; bi_Modified : bool }.

Definition apply_setting (result : BuildInfo) (setting : BuildSetting) : BuildInfo :=
  if decide (bs_Key setting = "vcs.revision") then
    mkBuildInfo (bi_Version result) (bs_Value setting) (bi_BuiltAt result) (bi_Modified result)
  else if decide (bs_Key setting = "vcs.time") then
    match ParseRFC3339 (bs_Value setting) with
    | Some parsed => mkBuildInfo (bi_Version result) (bi_Revision result) (UTC parsed) (bi_Modified result)
    | None => result
    end
  else if decide (bs_Key setting = "vcs.modified") then
    mkBuildInfo (bi_Version result) (bi_Revision result) (bi_BuiltAt result) (bool_decide (bs_Value setting = "true"))
  else result.

Definition CurrentBuild (info : option DebugInfo) : BuildInfo :=
  let result := mkBuildInfo "development" "" 0 false in
  match info with
  | None => result
  | Some info =>
      let result :=
        if negb (bool_decide (di_MainVersion info = "")) && negb (bool_decide (di_MainVersion info = "(devel)"))
        then mkBuildInfo (di_MainVersion info) "" 0 false else result in
      foldl apply_setting result (di_Settings info)
  end.

Lemma apply_settings_version result settings : bi_Version (foldl apply_setting result settings) = bi_Version result.
Proof.
  revert result. induction settings as [|s settings IH]; intros result; [done|]. cbn. rewrite IH.
  unfold apply_setting. repeat case_decide; try done. by destruct (ParseRFC3339 _).
Qed.

(** A version is always shown, and it is the module's unless that says nothing. *)
Lemma CurrentBuild_version info :
  bi_Version (CurrentBuild info) ≠ ""
  ∧ ∀ i, info = Some i → di_MainVersion i ≠ "" → di_MainVersion i ≠ "(devel)" →
      bi_Version (CurrentBuild info) = di_MainVersion i.
Proof.
  destruct info as [i|]; [|done]. cbn. rewrite apply_settings_version.
  do 2 case_bool_decide; cbn; naive_solver.
Qed.

(** ** Round trip *)
Definition digit_char (d : Z) : ascii := ascii_of_N (Z.to_N (48 + d)).
Definition two_text (n : Z) : list ascii := [digit_char (n / 10); digit_char (n mod 10)].

(** The text of an instant in UTC, as version control records it. *)
Definition FormatRFC3339 (year month day hour minute second : Z) : string :=
  string_of_list_ascii (two_text (year / 100) ++ two_text (year mod 100) ++ "-"%char :: two_text month ++ "-"%char :: two_text day
    ++ "T"%char :: two_text hour ++ ":"%char :: two_text minute ++ ":"%char :: two_text second ++ ["Z"%char]).

Lemma digit_digit_char d : 0 ≤ d < 10 → digit (digit_char d) = Some d.
Proof.
  intros Hd. assert (d = 0 ∨ d = 1 ∨ d = 2 ∨ d = 3 ∨ d = 4 ∨ d = 5 ∨ d = 6 ∨ d = 7 ∨ d = 8 ∨ d = 9) as Hc by lia.
  by repeat destruct Hc as [->|Hc]; try subst d.
Qed.

Lemma getnum_text n rest fixed : 0 ≤ n < 100 → getnum (two_text n ++ rest) fixed = Some (n, rest).
Proof.
  intros Hn. unfold two_text. cbn [getnum app].
  rewrite !digit_digit_char by (Z.to_euclidean_division_equations; lia).
  cbn. do 2 f_equal. Z.to_euclidean_division_equations; lia.
Qed.

Lemma within_some low high n s : low ≤ n ≤ high → within low high (Some (n, s)) = Some (n, s).
Proof. intros Hn. unfold within. cbn. by rewrite (proj2 (Z.leb_le low n)), (proj2 (Z.leb_le n high)) by lia. Qed.

(** The next two digits and the character that follows them. *)
Ltac read_two :=
  rewrite getnum_text by (Z.to_euclidean_division_equations; lia); rewrite ?within_some by lia;
  cbn [mbind option_bind skip]; rewrite ?decide_True by done; cbn [mbind option_bind].

(** Reading the text of a date and time of the years 0 to 9999 gives that
    instant. *)
Theorem ParseRFC3339_roundtrip year month day hour minute second :
  0 ≤ year ≤ 9999 → is_date year month day → 0 ≤ hour ≤ 23 → 0 ≤ minute ≤ 59 → 0 ≤ second ≤ 59 →
  ParseRFC3339 (FormatRFC3339 year month day hour minute second) = Some (Date year month day hour minute second 0).
Proof.
  intros Hy [Hm Hd] Hh Hmin Hs. assert (day < 100) as Hd100.
  { unfold daysIn in Hd. repeat destruct (_ =? _); cbn in Hd; destruct (isLeap year); lia. }
  unfold ParseRFC3339, FormatRFC3339, four_digits. rewrite bytes_of_string_of.
  read_two. read_two.
  replace (year / 100 * 100 + year mod 100) with year by (Z.to_euclidean_division_equations; lia).
  read_two. read_two. read_two. read_two. read_two.
  change (fraction ["Z"%char]) with (0, ["Z"%char]). cbn [zone mbind option_bind].
  destruct (Z.ltb_spec day 1), (Z.ltb_spec (daysIn month year) day); try lia. cbn [orb]. f_equal. lia.
Qed.

Example offsets_and_dates :
  ParseRFC3339 "2024-02-29T23:30:00+01:00" = ParseRFC3339 "2024-02-29T22:30:00Z"
  ∧ ParseRFC3339 "2023-02-29T00:00:00Z" = None
  ∧ ParseRFC3339 "1970-01-01T00:00:00.5Z" = Some (62135596800 * Second + 500000000).
Proof. by vm_compute. Qed.
