(* ===== verification/AdminProgram.v ===== *)
(** * The administration program: [cmd/aquaos-admin], and the container probe
    [cmd/healthcheck]

    What the program builds from its flags, the client by which it reads the
    health of the core, and the exit statuses. *)

From Stdlib Require Import ZArith Lia String.
From stdpp Require Import base gmap strings list pretty.
From S2P Require Import Prelude Config Http HttpServer Access Discovery HomeRegistry LocalHost Admin Secrets.
From S2P Require Esp32 Shelly StorageBackend.

(** ** The client of the core's health *)
Section health.
Context {T A : Type} `{!HTTPTransport T, !StrictDecoder A}.

Record coreHealthClient := mkCoreHealthClient { hc_client : T; hc_baseURL : string; hc_token : string }.

Definition core_request (c : coreHealthClient) (path : string) : Request :=
  mkRequest "GET" (hc_baseURL c +:+ path) [("Authorization", "Bearer " +:+ hc_token c)] "".

Definition report_limit : nat := Z.to_nat (1024 * 1024).

(** The first value of at most a mebibyte of the body. *)
Definition decode_report (response : Response) : error + A :=
  let body := String.substring 0 report_limit (rs_Body response) in
  let tail := if Nat.ltb (String.length body) report_limit then rs_ReadError response else None in
  match decode_value body tail with
  | inl err => inl err
  | inr (report, _) => inr report
  end.

(** The client has no timeout of its own. *)
Definition client_get (ctx : Context) (path : string) (c : coreHealthClient) : (error + A) * coreHealthClient :=
  let request := core_request c path in
  iferr http_RequestError (rq_URL request) as err yield (inl err, c);;
  let '(answer, t) := http_Do ctx 0 request (hc_client c) in
  let c := mkCoreHealthClient t (hc_baseURL c) (hc_token c) in
  match answer with
  | inl err => (inl err, c)
  | inr response =>
      when negb (rs_StatusCode response =? 200) yield
        (inl (ErrNew ("core health returned HTTP " +:+ pretty (rs_StatusCode response))), c);;
      (decode_report response, c)
  end.

Record CoreReport := mkCoreReport { cp_health : A; cp_canonicalState : A; cp_activeAlarms : A }.

(** A report that was read is the body of a 200 answer to a request with the
    token, of which the first value of the first mebibyte counts. *)
Lemma client_get_spec ctx path c report c' :
  client_get ctx path c = (inr report, c') →
  hc_baseURL c' = hc_baseURL c ∧ hc_token c' = hc_token c
  ∧ ∃ response, http_Do ctx 0 (core_request c path) (hc_client c) = (inr response, hc_client c')
    ∧ rs_StatusCode response = 200 ∧ decode_report response = inr report.
Proof.
  unfold client_get. destruct (http_RequestError _); [done|]. destruct (http_Do _ _ _ _) as [[|response] t]; [done|].
  destruct (Z.eqb_spec (rs_StatusCode response) 200); [|done]. cbn [negb]. intros [= Hd <-]. by eauto 6.
Qed.

Definition client_Report (ctx : Context) (c : coreHealthClient) : (error + CoreReport) * coreHealthClient :=
  match client_get ctx "/api/v1/health" c with
  | (inl err, c) => (inl err, c)
  | (inr healthReport, c) =>
      match client_get ctx "/api/v1/state" c with
      | (inl err, c) => (inl err, c)
      | (inr stateReport, c) =>
          match client_get ctx "/api/v1/alarms?status=active" c with
          | (inl err, c) => (inl err, c)
          | (inr activeAlarms, c) => (inr (mkCoreReport healthReport stateReport activeAlarms), c)
          end
      end
  end.

(** A report is made of three answers of the core, asked one after the other
    with the same token; the first failure ends it. *)
Theorem client_Report_spec ctx c report c' :
  client_Report ctx c = (inr report, c') →
  ∃ h s a c1 c2,
    http_Do ctx 0 (core_request c "/api/v1/health") (hc_client c) = (inr h, hc_client c1)
    ∧ http_Do ctx 0 (core_request c "/api/v1/state") (hc_client c1) = (inr s, hc_client c2)
    ∧ http_Do ctx 0 (core_request c "/api/v1/alarms?status=active") (hc_client c2) = (inr a, hc_client c')
    ∧ Forall (fun r => rs_StatusCode r = 200) [h; s; a]
    ∧ decode_report h = inr (cp_health report) ∧ decode_report s = inr (cp_canonicalState report)
    ∧ decode_report a = inr (cp_activeAlarms report).
Proof.
  unfold client_Report. destruct (client_get ctx "/api/v1/health" c) as [[|h] c1] eqn:H1; [done|].
  destruct (client_get ctx "/api/v1/state" c1) as [[|s] c2] eqn:H2; [done|].
  destruct (client_get ctx "/api/v1/alarms?status=active" c2) as [[|a] c3] eqn:H3; [done|]. intros [= <- <-].
  apply client_get_spec in H1 as (Hb1 & Ht1 & rh & Hh & Hsh & Hdh).
  apply client_get_spec in H2 as (Hb2 & Ht2 & rs & Hs & Hss & Hds).
  apply client_get_spec in H3 as (_ & _ & ra & Ha & Hsa & Hda).
  unfold core_request in *. rewrite Hb2, Ht2, Hb1, Ht1 in Ha. rewrite Hb1, Ht1 in Hs.
  exists rh, rs, ra, c1, c2. split_and!; try done. by repeat constructor.
Qed.
End health.
Arguments coreHealthClient : clear implicits.
Arguments CoreReport : clear implicits.

(** ** Composition *)
Record AdminFlags := mkAdminFlags {
  fg_address : string; fg_tokenFile : string; fg_tlsCert : string; fg_tlsKey : string; fg_trustedIngress : bool;
  fg_trustedIngressCIDR : string; fg_coreURL : string; fg_coreTokenFile : string; fg_homeAssistantWebSocket : string;
  fg_root : string; fg_authenticationRate : Z; fg_authenticationBurst : Z; fg_mutationRate : Z; fg_mutationBurst : Z
}.

Definition DefaultFlags : AdminFlags :=
  mkAdminFlags "127.0.0.1:8090" "" "" "" false "" "http://localhost:8080" "" "" "/" 5 10 2 4.

Definition Second : Duration := 10 ^ 9.

Definition admin_config (f : AdminFlags) (token : string) : AdminConfig :=
  mkAdminConfig (fg_address f) token (32 * 1024 * 1024) (10 * Second) (fg_authenticationRate f) (fg_authenticationBurst f)
    (fg_mutationRate f) (fg_mutationBurst f) (fg_tlsCert f) (fg_tlsKey f) (fg_trustedIngress f) (fg_trustedIngressCIDR f).

Section program.
Context `{!Files, !Networks, !Macs} {T W : Type} (transport : T).
(** [filepath.Abs] of the root, the token of the supervisor, and the services
    behind the server. *)
Context (absolute : string → error + string) (supervisorToken : string) (services : LocalHost → W).

(** [operations.New] checks that its host and logger are there. *)
Definition Operations_New (host logger : bool) : unit + error :=
  when negb host || negb logger yield inr (ErrNew "operations host and logger are required");; inl tt.

Definition registry_option (f : AdminFlags) : error + list AdminOption :=
  when bool_decide (fg_homeAssistantWebSocket f = "") yield inr [];;
  match NewRegistryClient (fg_homeAssistantWebSocket f) supervisorToken (15 * Second) with
  | inr err => inl err
  | inl _ => inr [WithHomeAssistantRegistry]
  end.

(** The option, with the client of the core if there is one. *)
Definition health_option (f : AdminFlags) : error + list AdminOption * option (coreHealthClient T) :=
  when bool_decide (fg_coreTokenFile f = "") yield inr ([], None);;
  match readToken (fg_coreTokenFile f) with
  | inl err => inl err
  | inr coreToken =>
      inr ([WithRuntimeHealth],
           Some (mkCoreHealthClient transport (StorageBackend.trim_right_slashes (fg_coreURL f)) coreToken))
  end.

Definition admin_compose (f : AdminFlags) : error + AdminServer W * option (coreHealthClient T) :=
  match (if fg_trustedIngress f then inr "" else readToken (fg_tokenFile f)) with
  | inl err => inl err
  | inr token =>
      match NewLocalHost (fg_root f) (absolute (fg_root f)) with
      | inl err => inl err
      | inr host =>
          match Operations_New true true with
          | inr err => inl err
          | inl _ =>
              match Shelly.NewHTTPClient (Some transport), Esp32.NewHTTPClient (Some transport) with
              | inr err, _ | _, inr err => inl err
              | inl _, inl _ =>
              match Discovery_New true 4 (3 * Second) [Some readToken] with
              | inr err => inl err
              | inl _ =>
                  match registry_option f with
                  | inl err => inl err
                  | inr registry =>
                      match health_option f with
                      | inl err => inl err
                      | inr (health, client) =>
                          match Admin_New (admin_config f token) true true (WithDiscovery :: registry ++ health) (services host) with
                          | inr err => inl err
                          | inl server => inr (server, client)
                          end
                      end
                  end
              end
              end
          end
      end
  end.

(** [run] after the flags are parsed; [identity] and [listen] are what reading
    the certificate and opening the listener answer, [stopped] what [Stop]
    meets after the signal. *)
Definition admin_run (f : AdminFlags) (identity listen : option error) (stopped : StopEnv) : Z * option (AdminServer W) :=
  match admin_compose f with
  | inl _ => (1, None)
  | inr (server, _) =>
      let '(server, err) := Admin_Start identity listen server in
      iferr err as _ yield (1, Some server);;
      let '(server, err) := Admin_Stop stopped server in
      iferr err as _ yield (1, Some server);;
      (0, Some server)
  end.

Definition is_option (o o' : AdminOption) : bool :=
  match o, o' with
  | WithDiscovery, WithDiscovery | WithRuntimeHealth, WithRuntimeHealth
  | WithHomeAssistantRegistry, WithHomeAssistantRegistry => true
  | _, _ => false
  end.

Lemma Admin_New_spec cfg options (w : W) s :
  Admin_New cfg true true options w = inl s →
  (if ad_TrustedIngress cfg then is_Some (a_trustedIngress s) ∧ ad_Token (a_cfg s) = ad_Token cfg
   else (32 ≤ String.length (ad_Token cfg))%nat ∧ ad_Token (a_cfg s) = ad_Token cfg ∧ a_trustedIngress s = None)
  ∧ a_discovery s = existsb (is_option WithDiscovery) options
  ∧ a_runtimeHealth s = existsb (is_option WithRuntimeHealth) options
  ∧ a_homeAssistant s = existsb (is_option WithHomeAssistantRegistry) options.
Proof.
  unfold Admin_New. destruct (_ || _) eqn:Hguard; [done|]. simpl. destruct (negb (Bool.eqb _ _)); [done|].
  assert (∀ o, existsb (fun o' => match o' with WithDiscovery => true | _ => false end) o = existsb (is_option WithDiscovery) o) as E1
    by (intros o; induction o as [|[] o IH]; simpl; congruence).
  assert (∀ o, existsb (fun o' => match o' with WithRuntimeHealth => true | _ => false end) o = existsb (is_option WithRuntimeHealth) o) as E2
    by (intros o; induction o as [|[] o IH]; simpl; congruence).
  assert (∀ o, existsb (fun o' => match o' with WithHomeAssistantRegistry => true | _ => false end) o = existsb (is_option WithHomeAssistantRegistry) o) as E3
    by (intros o; induction o as [|[] o IH]; simpl; congruence).
  destruct (ad_TrustedIngress cfg) eqn:Hti.
  - destruct (ParseCIDR _); [|done]. intros [= <-]. simpl. rewrite E1, E2, E3. split_and!; by eauto.
  - intros [= <-]. simpl. rewrite E1, E2, E3. split_and!; try done.
    repeat (apply orb_false_iff in Hguard as [Hguard ?]). simpl in *.
    destruct (Nat.ltb_spec (String.length (ad_Token cfg)) 32); [done|lia].
Qed.

(** A server is composed only with a way to authenticate: a token of at least
    32 characters from its file, or an explicit network of the ingress proxy.
    Its core health is read exactly when a token for the core is configured. *)
Theorem admin_composes_authenticated f server client :
  admin_compose f = inr (server, client) →
  (if fg_trustedIngress f then is_Some (a_trustedIngress server) ∧ ad_Token (a_cfg server) = ""
   else ∃ token, holds_secret (fg_tokenFile f) token ∧ (32 ≤ String.length token)%nat ∧ ad_Token (a_cfg server) = token
     ∧ a_trustedIngress server = None)
  ∧ a_discovery server = true
  ∧ (a_runtimeHealth server = true ↔ fg_coreTokenFile f ≠ "") ∧ (is_Some client ↔ fg_coreTokenFile f ≠ "")
  ∧ (a_homeAssistant server = true ↔ fg_homeAssistantWebSocket f ≠ "").
Proof.
  unfold admin_compose. destruct (if fg_trustedIngress f then _ else _) as [|token] eqn:Htoken; [done|].
  destruct (NewLocalHost _ _) as [|host]; [done|]. simpl.
  destruct (registry_option f) as [|registry] eqn:Hr; [done|].
  destruct (health_option f) as [|[health core]] eqn:Hh; [done|].
  assert (registry = if bool_decide (fg_homeAssistantWebSocket f = "") then [] else [WithHomeAssistantRegistry]) as Hreg.
  { unfold registry_option in Hr. case_bool_decide; [congruence|]. destruct (NewRegistryClient _ _ _); simplify_eq. done. }
  assert (fg_coreTokenFile f = "" ∧ health = [] ∧ core = None ∨ fg_coreTokenFile f ≠ "" ∧ health = [WithRuntimeHealth] ∧ is_Some core) as Hcore.
  { clear Hreg. unfold health_option in Hh. case_bool_decide as Hf; [left; by injection Hh as <- <-|].
    revert Hh. destruct (readToken (fg_coreTokenFile f)); [done|]. intros [= <- <-]. right. by split_and!. }
  clear Hr Hh. destruct (Admin_New _ _ _ _ _) as [s|] eqn:Hnew; [|done]. intros [= <- <-].
  apply Admin_New_spec in Hnew as (Hauth & Hd & Hrh & Hha). split_and!.
  - simpl in Hauth. destruct (fg_trustedIngress f); simplify_eq; [done|]. destruct Hauth as (Hlen & Ht & Hn).
    apply readToken_spec in Htoken as [Hne Htoken]. apply readSecretFile_spec in Htoken as [[? _]|[_ Htoken]]; [done|].
    by exists token.
  - by rewrite Hd.
  - rewrite Hrh, Hreg. destruct Hcore as [(-> & -> & _)|(? & -> & _)]; case_bool_decide; simpl; naive_solver.
  - destruct Hcore as [(-> & _ & ->)|(? & _ & ?)]; [|done]. split; [by intros []|done].
  - rewrite Hha, Hreg. destruct Hcore as [(_ & -> & _)|(_ & -> & _)]; case_bool_decide; simpl; naive_solver.
Qed.
End program.

(** ** The container probe *)

(** [main] of [cmd/healthcheck]: its exit status. *)
Definition healthcheck {T} `{!HTTPTransport T} (url : string) (t : T) : Z * T :=
  when bool_decide (url = "") yield (1, t);;
  iferr http_RequestError url as _ yield (1, t);;
  let '(answer, t) := http_Do Background (3 * Second) (mkRequest "GET" url [] "") t in
  match answer with
  | inl _ => (1, t)
  | inr response => when negb (rs_StatusCode response =? 200) yield (1, t);; (0, t)
  end.

(** The probe succeeds exactly when its URL answers 200. *)
Theorem healthcheck_spec {T} `{!HTTPTransport T} url (t : T) :
  (healthcheck url t).1 = 0
  ↔ url ≠ "" ∧ http_RequestError url = None
    ∧ ∃ response, (http_Do Background (3 * Second) (mkRequest "GET" url [] "") t).1 = inr response ∧ rs_StatusCode response = 200.
Proof.
  unfold healthcheck. case_bool_decide; [naive_solver|]. destruct (http_RequestError url); [naive_solver|].
  destruct (http_Do _ _ _ _) as [[|response] t']; simpl; [naive_solver|].
  destruct (Z.eqb_spec (rs_StatusCode response) 200); simpl; naive_solver.
Qed.
