(* ===== verification/FirstbootProgram.v ===== *)
(** * The first-boot program: [cmd/aquaos-firstboot]

    Generation of the setup code and of the administrator's token, the search
    for a private address, and the construction of the onboarding server.
    Reading of randomness, files and interfaces are arguments. *)

From Stdlib Require Import ZArith Lia String Ascii.
From stdpp Require Import base gmap strings list.
From S2P Require Import Prelude Domain Config HttpServer Firstboot MqttReconnect.

(** ** The private address *)

(** An address of an interface: [private_CIDR] is the text of the address of a
    CIDR that parses as a private IPv4 address. What [net.ParseIP] makes of
    that text is such an address again. *)
Class Interfaces `{!Addresses} := {
  private_CIDR : string → option string;
  private_CIDR_text : ∀ cidr text, private_CIDR cidr = Some text → text ≠ "" ∧ private_IPv4 text = true
}.

Record Interface := mkInterface {
  if_Up : bool; if_Loopback : bool; if_Name : string; if_Addrs : error + list string
}.

Definition virtual_prefixes : list string := ["docker"; "veth"; "br-"; "virbr"].
Definition skipped (i : Interface) : bool :=
  negb (if_Up i) || if_Loopback i || existsb (fun p => String.prefix p (if_Name i)) virtual_prefixes.

Section address.
Context `{!Addresses, !Interfaces}.

Fixpoint first_private (addresses : list string) : option string :=
  match addresses with
  | [] => None
  | address :: rest => match private_CIDR address with Some text => Some text | None => first_private rest end
  end.

Fixpoint scan_interfaces (interfaces : list Interface) : string :=
  match interfaces with
  | [] => ""
  | i :: rest =>
      if skipped i then scan_interfaces rest
      else match if_Addrs i with
           | inl _ => scan_interfaces rest
           | inr addresses => match first_private addresses with Some text => text | None => scan_interfaces rest end
           end
  end.

Definition privateIPv4 (interfaces : error + list Interface) : string :=
  match interfaces with inl _ => "" | inr interfaces => scan_interfaces interfaces end.

(** [interfaces n] are those of turn [n], [chosen n] what its select chose;
    [None] when the turns run out. *)
Fixpoint waitForPrivateIPv4 (interfaces : nat → error + list Interface) (chosen : nat → Awaited) (turns n : nat) : option string :=
  match turns with
  | O => None
  | S turns =>
      let address := privateIPv4 (interfaces n) in
      if negb (bool_decide (address = "")) then Some address
      else match chosen n with
           | CtxDone | Deadline => Some ""
           | Tick => waitForPrivateIPv4 interfaces chosen turns (S n)
           end
  end.

Lemma privateIPv4_private interfaces : privateIPv4 interfaces = "" ∨ private_IPv4 (privateIPv4 interfaces) = true.
Proof.
  destruct interfaces as [|interfaces]; [by left|]. simpl. induction interfaces as [|i rest IH]; simpl; [by left|].
  destruct (skipped i); [done|]. destruct (if_Addrs i) as [|addresses]; [done|].
  destruct (first_private addresses) as [text|] eqn:Hf; [|done]. right.
  induction addresses as [|a addresses IHa]; simpl in Hf; [done|].
  destruct (private_CIDR a) as [t|] eqn:Ht; [|by apply IHa]. simplify_eq. by eapply private_CIDR_text.
Qed.

(** The search ends at the latest when the deadline passes, with no address or
    a private one. *)
Lemma waitForPrivateIPv4_ends interfaces chosen m n :
  chosen (n + m)%nat ≠ Tick →
  ∃ address, waitForPrivateIPv4 interfaces chosen (S m) n = Some address ∧ (address = "" ∨ private_IPv4 address = true).
Proof.
  revert n. induction m as [|m IH]; intros n Hm; cbn [waitForPrivateIPv4];
    (destruct (privateIPv4_private (interfaces n)) as [Ha|Ha];
      [rewrite Ha; cbn [negb bool_decide]|case_bool_decide as He; cbn [negb]; [rewrite He in *|by eauto]]).
  1-2: rewrite Nat.add_0_r in Hm; destruct (chosen n); try done; by eauto.
  1-2: destruct (chosen n); [by eauto..|]; apply IH; by replace (S n + m)%nat with (n + S m)%nat by lia.
Qed.
End address.

(** ** The codes *)
Definition hex_text (bs : list Z) : string := string_of_list_ascii (hex_Encode bs).

(** The setup code as it is shown: four groups of four. *)
Definition display_token (token : string) : string :=
  String.concat "-" [String.substring 0 4 token; String.substring 4 4 token; String.substring 8 4 token; String.substring 12 4 token].

Record FirstbootFlags := mkFirstbootFlags {
  ff_payload : string; ff_version : string; ff_checksum : string; ff_complete : string
}.

Definition firstboot_installer (f : FirstbootFlags) (script adminToken : string) : installer :=
  mkInstaller script (ff_payload f) (ff_version f) (ff_checksum f) (ff_complete f) adminToken.

Section program.
Context `{!Addresses}.

(** [main] up to serving: the exit status when it ends before, or the server,
    the installer behind it, and the code shown. [code] and [admin] are the
    random bytes, [written] the result of writing the code, [script] the
    joined path of the script, [address] the private address found. *)
Definition firstboot_main (f : FirstbootFlags) (code admin : error + list Z) (written : option error)
    (script address : string) : Z + FirstbootServer * installer * string :=
  when bool_decide (ff_version f = "") || negb (String.length (ff_checksum f) =? 64)%nat yield inl 2;;
  match code with
  | inl _ => inl 1
  | inr tokenBytes =>
      let token := hex_text tokenBytes in
      match admin with
      | inl _ => inl 1
      | inr adminTokenBytes =>
          let adminToken := hex_text adminTokenBytes in
          let displayToken := display_token token in
          iferr written as _ yield inl 1;;
          match Firstboot_NewServer true token address true with
          | inr _ => inl 1
          | inl server => inr (server, firstboot_installer f script adminToken, displayToken)
          end
      end
  end.

(** What the screen of the appliance shows. *)
Definition onboarding_url (address : string) : string :=
  if bool_decide (address = "") then "https://aquaos.local:8443" else "https://" +:+ address +:+ ":8443".
Definition line_feed : string := String (ascii_of_nat 10) "".
Definition console_message (url displayToken : string) : string :=
  line_feed +:+ line_feed +:+ "AquaOS browser setup is ready." +:+ line_feed +:+ line_feed
  +:+ "Open: " +:+ url +:+ line_feed +:+ "Setup code: " +:+ displayToken +:+ line_feed +:+ line_feed
  +:+ "No Linux login or terminal commands are required." +:+ line_feed.

(** The page, whose text is an argument. *)
Definition firstboot_index (page : string) : Reply string :=
  mkReply 200 [("Cache-Control", "no-store"); ("Content-Type", "text/html; charset=utf-8")] page.

(** The exit status: that of the steps before serving, or what serving ended
    with, [http.ErrServerClosed] after a shutdown. *)
Definition firstboot_exit (f : FirstbootFlags) (code admin : error + list Z) (written : option error)
    (script address : string) (served : option error) : Z :=
  match firstboot_main f code admin written script address with
  | inl status => status
  | inr _ =>
      match served with
      | Some err => if errors_Is err "http.ErrServerClosed" then 0 else 1
      | None => 0
      end
  end.

(** Success is reported exactly when the server was built and ended without a
    failure of its own. *)
Lemma firstboot_exit_zero f code admin written script address served :
  firstboot_exit f code admin written script address served = 0 ↔
  (∃ server, firstboot_main f code admin written script address = inr server)
  ∧ ∀ err, served = Some err → errors_Is err "http.ErrServerClosed" = true.
Proof.
  unfold firstboot_exit. destruct (firstboot_main _ _ _ _ _ _) as [status|server] eqn:Hm.
  - split; [|by intros [[? ?] _]]. intros ->. exfalso. unfold firstboot_main in Hm.
    repeat (case_match; simplify_eq).
  - destruct served as [err|]; [|split; [|done]; intros _; split; [by exists server|by intros ? [=]]]. destruct (errors_Is err "http.ErrServerClosed") eqn:He.
    + split; [|done]. intros _. split; [by exists server|]. by intros ? [= <-].
    + split; [done|]. intros [_ Hall]. rewrite (Hall err eq_refl) in He. done.
Qed.

Lemma hex_text_length bs : String.length (hex_text bs) = (2 * length bs)%nat.
Proof.
  unfold hex_text. induction bs as [|b bs IH]; [done|]. rewrite hex_Encode_cons. simpl. rewrite IH. simpl. lia.
Qed.

(** With its version and checksum, working randomness and a written code, the
    program always serves: its token is the code shown without the dashes, and
    the token it hands over after the installation is long enough to be
    handed over. *)
Theorem firstboot_serves f tokenBytes adminBytes script address :
  ff_version f ≠ "" → String.length (ff_checksum f) = 64%nat → length tokenBytes = 8%nat → length adminBytes = 32%nat →
  Forall is_byte tokenBytes → address = "" ∨ private_IPv4 address = true →
  ∃ server i shown,
    firstboot_main f (inr tokenBytes) (inr adminBytes) None script address = inr (server, i, shown)
    ∧ bytes_of (fb_token server) = strip_dashes (bytes_of shown) ∧ fb_running server = false
    ∧ (∀ request, (install_finish request (inr (mkInstallResult (i_adminToken i))) server).1 =
         mkReply 200 [("Cache-Control", "no-store"); ("Content-Type", "application/json")] (handoff request (i_adminToken i))).
Proof.
  intros Hv Hc Ht Ha Hb Haddr. unfold firstboot_main.
  rewrite bool_decide_eq_false_2, Hc by done. simpl.
  assert (String.length (hex_text tokenBytes) = 16%nat) as Hl by (rewrite hex_text_length, Ht; done).
  unfold Firstboot_NewServer. rewrite Hl. simpl.
  assert (negb (bool_decide (address = "")) && negb (private_IPv4 address) = false) as ->.
  { destruct Haddr as [->|Hp]; [done|]. rewrite Hp. apply andb_false_r. }
  eexists _, _, _. split; [done|]. simpl. split_and!; [|done|].
  - destruct tokenBytes as [|b1 [|b2 [|b3 [|b4 [|b5 [|b6 [|b7 [|b8 [|]]]]]]]]]; try done.
    pose proof (strip_dashes_encode _ Hb) as Hs. unfold hex_text. rewrite bytes_of_string_of.
    rewrite <- Hs at 1. unfold display_token. unfold hex_Encode, hex_byte. simpl. unfold strip_dashes. simpl.
    repeat case_decide; done.
  - intros request. unfold install_finish. simpl. rewrite hex_text_length, Ha. done.
Qed.
End program.
