(* ===== verification/Dashboard.v ===== *)
(** * The dashboard: [integrations/homeassistant/assets.go] and
    [cmd/aquaos-ha-config]

    The text of the dashboard as the builder accumulates it, a reader that
    takes the references back out of such a text, and the correspondence of the
    references with the entities that discovery publishes. *)

From Stdlib Require Import ZArith Lia String Ascii.
From stdpp Require Import base gmap strings list pretty.
From S2P Require Import Prelude Domain Events Health Devices Sensors EquipmentRegistry Topics Envelope MqttClient Config.
From S2P Require Import Operations.
From S2P Require HomeAssistant.
Import HomeAssistant(entityObjectID, object_char, entityObjectID_chars, ha_entities, sensor_entity, equipment_entity,
  site_entities, site_entity, entity_loop, entity, et_Component, et_Payload, marshaled, discoveryPayload,
  dp_SuggestedObjectID, HAManager, ha_inventory, ha_registry, ha_cfg, hc_SiteID, inventory_Sensors,
  inventory_Equipment, inventory_Devices).

(** ** Rendering *)

(** [strings.ReplaceAll(title, dq, sq)] with the two quotation marks. *)
Fixpoint single_quoted (title : string) : string :=
  match title with
  | EmptyString => ""
  | String c rest => String (if Ascii.eqb c (ascii_of_nat 34) then "'"%char else c) (single_quoted rest)
  end.

(** The three writes of an entity's line, the same in the card and the graph. *)
Definition bullet : string := "          - ".
Definition write_entity (output entity : string) : string := output +:+ bullet +:+ entity +:+ newline.

Definition writeEntitiesCard (output title : string) (entities : list string) : string :=
  let output := output +:+ "      - type: entities" +:+ newline +:+ "        title: " +:+ quote_mark in
  let output := output +:+ single_quoted title in
  let output := output +:+ quote_mark +:+ newline +:+ "        show_header_toggle: false" +:+ newline
                  +:+ "        entities:" +:+ newline in
  match entities with
  | [] => output +:+ "          []" +:+ newline
  | _ => foldl write_entity output entities
  end.

Definition system_references (c : Config) : list string :=
  ["sensor." +:+ entityObjectID (mq_SiteID (cf_MQTT c)) "core";
   "binary_sensor." +:+ entityObjectID (mq_SiteID (cf_MQTT c)) "alarm";
   "binary_sensor." +:+ entityObjectID (mq_SiteID (cf_MQTT c)) "notification"].
Definition sensor_references (c : Config) : list string :=
  (fun item => "sensor." +:+ entityObjectID "sensor" (sg_EntityID item)) <$> elems (iv_Sensors (cf_Inventory c)).
Definition equipment_references (c : Config) : list string :=
  (fun item => "switch." +:+ entityObjectID "equipment" (qc_EntityID item)) <$> elems (iv_Equipment (cf_Inventory c)).

(** The dash of the third title in UTF-8. *)
Definition em_dash : string := String (ascii_of_nat 226) (String (ascii_of_nat 128) (String (ascii_of_nat 148) "")).
Definition equipment_title : string := "Equipment " +:+ em_dash +:+ " commands remain safety checked".

(** The second argument is ignored, and the error is always nil. *)
Definition Dashboard (c : Config) (grafanaURL : string) : string * option error :=
  let output := "title: AquaOS" +:+ newline +:+ "views:" +:+ newline +:+ "  - title: Overview" +:+ newline
    +:+ "    path: aquaos" +:+ newline +:+ "    icon: mdi:fishbowl" +:+ newline +:+ "    cards:" +:+ newline in
  let output := writeEntitiesCard output "System and alarms" (system_references c) in
  let sensors := sensor_references c in
  let output := writeEntitiesCard output "Validated sensors" sensors in
  let equipment := equipment_references c in
  let output := writeEntitiesCard output equipment_title equipment in
  let trendEntities := sensors ++ equipment in
  let output :=
    if (0 <? length trendEntities)%nat then
      foldl write_entity
        (output +:+ "      - type: history-graph" +:+ newline +:+ "        title: 24-hour sensor and equipment trends"
           +:+ newline +:+ "        hours_to_show: 24" +:+ newline +:+ "        entities:" +:+ newline) trendEntities
    else output in
  (output, None).

(** ** Reading a dashboard back *)
Definition line_feed : ascii := ascii_of_nat 10.
Fixpoint lines (s : string) : list string :=
  match s with
  | EmptyString => []
  | String c rest =>
      if Ascii.eqb c line_feed then "" :: lines rest
      else match lines rest with [] => [String c ""] | l :: ls => String c l :: ls end
  end.
Fixpoint cut_prefix (p s : string) : option string :=
  match p, s with
  | EmptyString, _ => Some s
  | String a p, String b s => if Ascii.eqb a b then cut_prefix p s else None
  | _, _ => None
  end.
Definition references (text : string) : list string := omap (cut_prefix bullet) (lines text).

(** A text of whole lines. *)
Fixpoint text (ls : list string) : string :=
  match ls with [] => "" | l :: ls => l +:+ newline +:+ text ls end.

Lemma append_nil (a : string) : a +:+ "" = a.
Proof. induction a as [|x a IH]; [done|]. by rewrite string_app_cons, IH. Qed.
Lemma text_app ls ls' : text (ls ++ ls') = text ls +:+ text ls'.
Proof. induction ls as [|l ls IH]; [done|]. cbn [text app]. by rewrite IH, !string_app_assoc. Qed.

Lemma lines_text ls : Forall (free_of line_feed) ls → lines (text ls) = ls.
Proof.
  induction 1 as [|l ls Hl _ IH]; [done|]. cbn [text]. induction l as [|a l IHl].
  - rewrite string_app_nil. change (lines (newline +:+ text ls)) with ("" :: lines (text ls)). by rewrite IH.
  - apply free_of_cons in Hl as [Ha Hl]. rewrite string_app_cons. cbn [lines].
    destruct (Ascii.eqb_spec a line_feed); [done|]. by rewrite (IHl Hl).
Qed.

Lemma cut_prefix_app p s : cut_prefix p (p +:+ s) = Some s.
Proof. induction p as [|a p IH]; [done|]. rewrite string_app_cons. cbn [cut_prefix]. by rewrite Ascii.eqb_refl. Qed.
Lemma omap_bullets (es : list string) : omap (cut_prefix bullet) (String.append bullet <$> es) = es.
Proof. induction es as [|e es IH]; [done|]. cbn [fmap list_fmap omap list_omap]. rewrite cut_prefix_app. by f_equal. Qed.

(** ** The lines of a dashboard *)
Lemma foldl_write_entity output (es : list string) : foldl write_entity output es = output +:+ text (String.append bullet <$> es).
Proof.
  revert output. induction es as [|e es IH]; intros output; cbn [foldl fmap list_fmap text]; [by rewrite append_nil|].
  rewrite IH. unfold write_entity. by rewrite !string_app_assoc.
Qed.

Definition listed (es : list string) : list string :=
  match es with [] => ["          []"] | _ => String.append bullet <$> es end.
Definition card_lines (title : string) (es : list string) : list string :=
  ["      - type: entities"; "        title: " +:+ quote_mark +:+ single_quoted title +:+ quote_mark;
   "        show_header_toggle: false"; "        entities:"] ++ listed es.
Definition graph_lines (es : list string) : list string :=
  match es with
  | [] => []
  | _ => ["      - type: history-graph"; "        title: 24-hour sensor and equipment trends";
          "        hours_to_show: 24"; "        entities:"] ++ (String.append bullet <$> es)
  end.
Definition dashboard_lines (c : Config) : list string :=
  ["title: AquaOS"; "views:"; "  - title: Overview"; "    path: aquaos"; "    icon: mdi:fishbowl"; "    cards:"]
  ++ card_lines "System and alarms" (system_references c)
  ++ card_lines "Validated sensors" (sensor_references c)
  ++ card_lines equipment_title (equipment_references c)
  ++ graph_lines (sensor_references c ++ equipment_references c).

Lemma writeEntitiesCard_text output title es :
  writeEntitiesCard output title es = output +:+ text (card_lines title es).
Proof.
  unfold writeEntitiesCard, card_lines, listed. rewrite text_app. destruct es as [|e es]; [|rewrite foldl_write_entity];
    cbn [text]; by rewrite ?append_nil, !string_app_assoc.
Qed.

Lemma Dashboard_text c url : (Dashboard c url).1 = text (dashboard_lines c).
Proof.
  unfold Dashboard, dashboard_lines. cbn [fst]. rewrite !text_app, !writeEntitiesCard_text.
  destruct (sensor_references c ++ equipment_references c) as [|e es] eqn:Hes; cbn [length Nat.ltb Nat.leb].
  - cbn [graph_lines]. cbn [text]. by rewrite !string_app_assoc, ?append_nil.
  - rewrite foldl_write_entity. unfold graph_lines. rewrite text_app. cbn [text]. by rewrite ?append_nil, !string_app_assoc.
Qed.

(** An object identifier, with the domain before it, is one line. *)
Lemma object_char_line_feed c : object_char c = true → line_feed ≠ c.
Proof. intros Hc <-. by vm_compute in Hc. Qed.
Lemma object_id_free kind id : free_of line_feed (entityObjectID kind id).
Proof.
  unfold free_of. intros Hin. pose proof (entityObjectID_chars kind id) as Hc. rewrite Forall_forall in Hc.
  by apply (object_char_line_feed line_feed (Hc _ Hin)).
Qed.
Lemma reference_free domain kind id : free_of line_feed domain → free_of line_feed (domain +:+ entityObjectID kind id).
Proof. intros Hd. apply free_of_app. split; [done|apply object_id_free]. Qed.
Lemma free_of_literal c s : bool_decide (c ∈ bytes_of s) = false → free_of c s.
Proof. intros Hf. by apply bool_decide_eq_false in Hf. Qed.

Lemma bullets_free (es : list string) :
  Forall (free_of line_feed) es → Forall (free_of line_feed) (String.append bullet <$> es).
Proof.
  intros Hes. apply Forall_fmap. eapply Forall_impl; [exact Hes|]. intros e He. simpl. apply free_of_app.
  split; [by apply free_of_literal|done].
Qed.
Lemma listed_free es : Forall (free_of line_feed) es → Forall (free_of line_feed) (listed es).
Proof.
  intros Hes. unfold listed. destruct es; [|by apply bullets_free]. constructor; [by apply free_of_literal|done].
Qed.
Lemma card_free title es :
  free_of line_feed (single_quoted title) → Forall (free_of line_feed) es → Forall (free_of line_feed) (card_lines title es).
Proof.
  intros Ht Hes. unfold card_lines. apply Forall_app. split; [|by apply listed_free].
  repeat constructor; try by apply free_of_literal. rewrite !free_of_app. split_and!; try done; by apply free_of_literal.
Qed.
Lemma graph_free es : Forall (free_of line_feed) es → Forall (free_of line_feed) (graph_lines es).
Proof.
  intros Hes. unfold graph_lines. destruct es; [done|]. apply Forall_app. split; [|by apply bullets_free].
  repeat constructor; by apply free_of_literal.
Qed.

Lemma system_references_free c : Forall (free_of line_feed) (system_references c).
Proof. repeat constructor; apply reference_free; by apply free_of_literal. Qed.
Lemma sensor_references_free c : Forall (free_of line_feed) (sensor_references c).
Proof. apply Forall_fmap, Forall_true. intros item. apply reference_free. by apply free_of_literal. Qed.
Lemma equipment_references_free c : Forall (free_of line_feed) (equipment_references c).
Proof. apply Forall_fmap, Forall_true. intros item. apply reference_free. by apply free_of_literal. Qed.

Lemma dashboard_lines_free c : Forall (free_of line_feed) (dashboard_lines c).
Proof.
  unfold dashboard_lines. rewrite !Forall_app. split_and!.
  - repeat constructor; by apply free_of_literal.
  - apply card_free; [by apply free_of_literal|apply system_references_free].
  - apply card_free; [by apply free_of_literal|apply sensor_references_free].
  - apply card_free; [by apply free_of_literal|apply equipment_references_free].
  - apply graph_free, Forall_app. split; [apply sensor_references_free|apply equipment_references_free].
Qed.

Lemma listed_references es : omap (cut_prefix bullet) (listed es) = es.
Proof. destruct es as [|e es]; [done|]. apply (omap_bullets (e :: es)). Qed.
Lemma card_references title es : omap (cut_prefix bullet) (card_lines title es) = es.
Proof. unfold card_lines. rewrite omap_app, listed_references. done. Qed.
Lemma graph_references es : omap (cut_prefix bullet) (graph_lines es) = es.
Proof. destruct es as [|e es]; [done|]. unfold graph_lines. rewrite omap_app, omap_bullets. done. Qed.

(** A dashboard reads back as what it was rendered from: its three cards and,
    once more, what the graph traces. No identity an operator configures adds,
    hides or splits a line. *)
Theorem Dashboard_reads_back c url :
  references (Dashboard c url).1
  = system_references c ++ sensor_references c ++ equipment_references c
    ++ sensor_references c ++ equipment_references c.
Proof.
  unfold references. rewrite Dashboard_text, (lines_text _ (dashboard_lines_free c)). unfold dashboard_lines.
  by rewrite !omap_app, !card_references, graph_references.
Qed.

(** ** Discovery *)
Section discovery.
Context {T I A S : Type} {HI : HomeAssistant.Inventory I} `{!JSON, !Marshaler discoveryPayload}.

(** What discovery announces an entity as: its component and the object
    identifier of its payload. *)
Definition announces (e : entity) (reference : string) : Prop :=
  ∃ p, et_Payload e = marshaled p ∧ reference = et_Component e +:+ "." +:+ dp_SuggestedObjectID p.

Lemma entity_loop_announces {B} (f : B → entity + error) (ref : B → string) l es :
  (∀ b e, f b = inl e → announces e (ref b)) → entity_loop f l = inl es → Forall2 announces es (ref <$> l).
Proof.
  intros Hf. revert es. induction l as [|b l IH]; intros es; cbn [entity_loop]; [intros [= <-]; constructor|].
  destruct (f b) as [e|] eqn:He; [|done]. destruct (entity_loop f l) as [es'|] eqn:Hes; [|done]. intros [= <-].
  constructor; [by apply Hf|by apply IH].
Qed.

Lemma sensor_announces r names availability s e :
  sensor_entity r names availability s = inl e → announces e ("sensor." +:+ entityObjectID "sensor" (sen_ID s)).
Proof.
  unfold sensor_entity. destruct (Topic _ _ _) as [[? ?] [?|]]; [done|]. intros [= <-]. eexists. split; [done|].
  cbn [et_Component dp_SuggestedObjectID]. by rewrite !string_app_cons, !string_app_nil.
Qed.
Lemma equipment_announces r names availability q e :
  equipment_entity r names availability q = inl e → announces e ("switch." +:+ entityObjectID "equipment" (eq_ID q)).
Proof.
  unfold equipment_entity. destruct (Topic _ _ _) as [[? ?] [?|]]; [done|]. destruct (HACommand _ _) as [[? ?] [?|]]; [done|].
  intros [= <-]. eexists. split; [done|]. cbn [et_Component dp_SuggestedObjectID]. by rewrite !string_app_cons, !string_app_nil.
Qed.
Lemma site_announces r c availability :
  Forall2 announces (site_entities r (mq_SiteID (cf_MQTT c)) availability) (system_references c).
Proof.
  unfold site_entities, site_entity, system_references. destruct (HAStatus r) as [topic policy].
  repeat constructor; eexists; (split; [reflexivity|]); cbn [et_Component dp_SuggestedObjectID];
    by rewrite !string_app_cons, !string_app_nil.
Qed.

Lemma fmap_same_ids {B C} (f : B → string) (g : C → string) (h : string → string) (bs : list B) (cs : list C) x :
  (∀ id, id ∈ (f <$> bs) ↔ id ∈ (g <$> cs)) →
  x ∈ ((fun b => h (f b)) <$> bs) ↔ x ∈ ((fun c => h (g c)) <$> cs).
Proof.
  intros Hfg. rewrite !list_elem_of_fmap. split; intros (b & -> & Hb).
  - destruct (proj1 (list_elem_of_fmap _ _ _) (proj1 (Hfg (f b)) (list_elem_of_fmap_2 _ _ _ Hb))) as (c & -> & Hc). eauto.
  - destruct (proj1 (list_elem_of_fmap _ _ _) (proj2 (Hfg (g b)) (list_elem_of_fmap_2 _ _ _ Hb))) as (c & -> & Hc). eauto.
Qed.

(** What the dashboard names is what discovery announces: with the same site,
    and with every configured entity registered and no other, each announced
    entity is on the dashboard and the dashboard names no other. *)
Theorem dashboard_names_what_discovery_announces ctx (m : HAManager T I A S) c url entities allowed :
  hc_SiteID (ha_cfg m) = mq_SiteID (cf_MQTT c) →
  (∀ id, id ∈ (sen_ID <$> (inventory_Sensors ctx (ha_inventory m)).1)
         ↔ id ∈ (sg_EntityID <$> elems (iv_Sensors (cf_Inventory c)))) →
  (∀ id, id ∈ (eq_ID <$> (inventory_Equipment ctx (ha_inventory m)).1)
         ↔ id ∈ (qc_EntityID <$> elems (iv_Equipment (cf_Inventory c)))) →
  ha_entities ctx m = ((entities, allowed), None) →
  ∃ announced, Forall2 announces entities announced
    ∧ ∀ reference, reference ∈ references (Dashboard c url).1 ↔ reference ∈ announced.
Proof.
  intros Hsite Hs Hq. unfold ha_entities. destruct (inventory_Devices ctx _) as [devices [err|]]; [done|].
  destruct (inventory_Sensors ctx _) as [sensors [err|]]; [done|].
  destruct (inventory_Equipment ctx _) as [equipment [err|]]; [done|].
  destruct (Topic _ _ _) as [[availability p] [err|]]; [done|].
  destruct (entity_loop _ sensors) as [si|err] eqn:Hsi; [|done].
  destruct (entity_loop _ equipment) as [ei|err] eqn:Hei; [|done]. intros [= <- <-]. rewrite Hsite. eexists. split.
  - apply Forall2_app; [exact (entity_loop_announces _ _ _ _ (sensor_announces _ _ _) Hsi)|].
    apply Forall2_app; [exact (entity_loop_announces _ _ _ _ (equipment_announces _ _ _) Hei)|apply site_announces].
  - intros reference. rewrite Dashboard_reads_back.
    pose proof (fmap_same_ids sen_ID sg_EntityID (fun id => "sensor." +:+ entityObjectID "sensor" id) _ _ reference Hs) as Hsr.
    pose proof (fmap_same_ids eq_ID qc_EntityID (fun id => "switch." +:+ entityObjectID "equipment" id) _ _ reference Hq) as Hqr.
    unfold sensor_references, equipment_references. rewrite !elem_of_app, Hsr, Hqr. tauto.
Qed.
End discovery.

(** ** The program *)
Section program.
Context `{!YAML, !URLParser, !NetParser, !MapRange} (env : Environment) (render : error → string).
Context {W : Type} (os_WriteFile : string → string → Z → W → option error * W).

(** The exit status of [main], and what it wrote. *)
Definition ha_config_main (configuration grafanaURL output : string) (w : W) : Z * W :=
  when bool_decide (configuration = "") || bool_decide (output = "") yield (2, w);;
  match Load env render configuration with
  | inl _ => (1, w)
  | inr cfg =>
      let '(payload, err) := Dashboard cfg grafanaURL in
      iferr err as _ yield (1, w);;
      let '(err, w) := os_WriteFile output payload (octal 6 4 0) w in
      iferr err as _ yield (1, w);;
      (0, w)
  end.

(** The program succeeds exactly when it wrote the dashboard of a configuration
    that loads, and writes nothing when the configuration does not load. *)
Lemma ha_config_main_cases configuration url output w :
  match ha_config_main configuration url output w with
  | (status, w') =>
      (status = 0 ∧ (∃ cfg, Load env render configuration = inr cfg
         ∧ os_WriteFile output (text (dashboard_lines cfg)) (octal 6 4 0) w = (None, w')))
      ∨ (status ≠ 0 ∧ (w' = w ∨ ∃ cfg err, Load env render configuration = inr cfg
         ∧ os_WriteFile output (text (dashboard_lines cfg)) (octal 6 4 0) w = (Some err, w')))
  end.
Proof.
  unfold ha_config_main. destruct (bool_decide _ || bool_decide _); [right; by eauto|].
  destruct (Load _ _ _) as [err|cfg]; [right; by eauto|]. pose proof (Dashboard_text cfg url) as Ht.
  destruct (Dashboard cfg url) as [payload err] eqn:Hd. assert (err = None) as -> by (unfold Dashboard in Hd; congruence).
  cbn [fst] in Ht. subst payload.
  destruct (os_WriteFile _ _ _ _) as [[err|] w'] eqn:Hw; [right|left]; split; try done; eauto 6.
Qed.
End program.

(** ** The configuration of the package's test *)
Definition tank_configuration : Config :=
  let d := Defaults in let m := cf_MQTT d in
  mkConfig (cf_SchemaVersion d) (cf_Application d) (cf_HTTP d)
    (mkMQTT (mq_Enabled m) "display-reef" (mq_Broker m) (mq_ClientID m) (mq_Username m) (mq_Password m)
       (mq_ConnectTimeout m) (mq_KeepAlive m) (mq_DisconnectQuiesce m) (mq_RequiredForReady m) (mq_MaximumPayload m)
       (mq_QueueCapacity m) (mq_IdempotencyCapacity m) (mq_ReconnectMinimum m) (mq_ReconnectMaximum m)
       (mq_ReconnectJitter m) (mq_HomeAssistant m))
    (cf_SimulatorEnabled d) (cf_Adapters d) (cf_Bench d) (cf_Storage d)
    (mkInventory (Some [])
       (Some [mkSensorConfig "" "tank-temperature" "" "" None None "" ""
                (mkCalibration false (F64 0) (F64 0) "" "" zero_Timestamp)])
       (Some [mkEquipmentConfig "" "return-pump" "" "" "" None false false 0 0 0 None
                (mkCommissioning "" false false false false "" zero_Timestamp)]))
    (cf_AlarmRules d) (cf_Backups d).

(** The test expects four texts in this dashboard; three are there, and the
    view's path is not the fourth. *)
Example tank_dashboard :
  let output := (Dashboard tank_configuration "").1 in
  is_Some (String.index 0 "sensor.aquaos_sensor_tank_temperature" output)
  ∧ is_Some (String.index 0 "switch.aquaos_equipment_return_pump" output)
  ∧ is_Some (String.index 0 "binary_sensor.aquaos_display_reef_alarm" output)
  ∧ String.index 0 "aquaos-overview" output = None.
Proof. vm_compute. split_and!; eauto. Qed.
