(* ===== verification/Durations.v ===== *)
(** * Durations as text: [Duration] of [adapters/simulator/model.go]

    A scenario writes its durations as text. What the code uses of the standard
    library for this is modelled here: [Duration.String] and
    [time.ParseDuration], with the arithmetic on unsigned words and doubles
    that they do. Integers below 2^53 lose nothing in those doubles, which comes
    first. *)

From Stdlib Require Import ZArith Lia String Ascii SpecFloat.
From stdpp Require Import base tactics numbers strings list.
From S2P Require Import Prelude Domain Encoding.

(** ** Exact arithmetic on doubles *)

(** The integer part of a float, as a conversion to an integer type takes it. *)
Definition truncate (f : float64) : Z :=
  match f with
  | S754_finite sign m e =>
      let magnitude := if 0 <=? e then Zpos m * 2 ^ e else Zpos m / 2 ^ (- e) in
      if sign then - magnitude else magnitude
  | _ => 0
  end.

(** ** Digits *)
Lemma digits2_size p : digits2_pos p = Pos.size p.
Proof. induction p as [p IH|p IH|]; cbn [digits2_pos Pos.size]; rewrite ?IH; done. Qed.
Lemma digits2_log2 p : Zpos (digits2_pos p) = Z.log2 (Zpos p) + 1.
Proof. rewrite digits2_size. destruct p; cbn [Pos.size Z.log2]; lia. Qed.
Lemma Zdigits2_log2 n : 0 < n → Zdigits2 n = Z.log2 n + 1.
Proof. intros Hn. destruct n as [|p|p]; try lia. apply digits2_log2. Qed.

(** The mantissa of 53 digits and the exponent of a positive integer. *)
Definition mantissa (n : Z) : Z := n * 2 ^ (52 - Z.log2 n).
Definition canonical (n : Z) : float64 := S754_finite false (Z.to_pos (mantissa n)) (Z.log2 n - 52).

Lemma log2_below n : 0 < n < 2 ^ 53 → 0 ≤ Z.log2 n ≤ 52.
Proof. intros [Hn Hb]. split; [apply Z.log2_nonneg|]. apply Z.log2_lt_pow2 in Hb; lia. Qed.
Lemma mantissa_pos n : 0 < n → Z.log2 n ≤ 52 → 0 < mantissa n.
Proof. intros Hn Hl. unfold mantissa. pose proof (Z.pow_pos_nonneg 2 (52 - Z.log2 n)). nia. Qed.
Lemma mantissa_log2 n : 0 < n → Z.log2 n ≤ 52 → Z.log2 (mantissa n) = 52.
Proof. intros Hn Hl. unfold mantissa. rewrite Z.log2_mul_pow2 by lia. lia. Qed.

(** ** Rounding that drops only zeros *)
Lemma shr_1_even a : 0 < a → shr_1 (Build_shr_record (a * 2) false false) = Build_shr_record a false false.
Proof. intros Ha. destruct a as [|p|p]; try lia. by rewrite Z.mul_comm. Qed.

Lemma shr_exact p a :
  0 < a → SpecFloat.iter_pos shr_1 p (Build_shr_record (a * 2 ^ Zpos p) false false) = Build_shr_record a false false.
Proof.
  revert a. induction p as [p IH|p IH|]; intros a Ha; cbn [SpecFloat.iter_pos].
  - replace (a * 2 ^ Zpos p~1) with (a * 2 ^ Zpos p * 2 ^ Zpos p * 2)
      by (replace (Zpos p~1) with (Zpos p + Zpos p + 1) by lia; rewrite !Z.pow_add_r by lia; lia).
    rewrite shr_1_even, !IH by (pose proof (Z.pow_pos_nonneg 2 (Zpos p)); nia). done.
  - replace (a * 2 ^ Zpos p~0) with (a * 2 ^ Zpos p * 2 ^ Zpos p)
      by (replace (Zpos p~0) with (Zpos p + Zpos p) by lia; rewrite !Z.pow_add_r by lia; lia).
    rewrite !IH by (pose proof (Z.pow_pos_nonneg 2 (Zpos p)); nia). done.
  - by apply shr_1_even.
Qed.

Lemma shr_fexp_exact n k :
  0 < n < 2 ^ 53 → 52 ≤ Z.log2 n + k → 0 ≤ k →
  shr_fexp 53 1024 (n * 2 ^ k) (- k) loc_Exact = (Build_shr_record (mantissa n) false false, Z.log2 n - 52).
Proof.
  intros Hn Hk Hk0. pose proof (log2_below n Hn) as Hl. unfold shr_fexp, fexp, emin. cbn [shr_record_of_loc].
  pose proof (Z.pow_pos_nonneg 2 k ltac:(lia) Hk0) as Hp.
  rewrite Zdigits2_log2 by nia. rewrite Z.log2_mul_pow2 by lia.
  replace (Z.max (k + Z.log2 n + 1 + - k - 53) (3 - 1024 - 53) - - k) with (Z.log2 n - 52 + k) by lia.
  destruct (Z.log2 n - 52 + k) as [|p|p] eqn:Hd; [| |lia]; cbn [shr].
  - unfold mantissa. replace (52 - Z.log2 n) with k by lia. f_equal. lia.
  - replace (n * 2 ^ k) with (mantissa n * 2 ^ Zpos p).
    + rewrite shr_exact by (apply mantissa_pos; lia). f_equal. lia.
    + unfold mantissa. rewrite <- Z.mul_assoc, <- Z.pow_add_r by lia. f_equal. f_equal. lia.
Qed.

Lemma round_exact n k :
  0 < n < 2 ^ 53 → 52 ≤ Z.log2 n + k → 0 ≤ k →
  binary_round_aux 53 1024 false (n * 2 ^ k) (- k) loc_Exact = canonical n.
Proof.
  intros Hn Hk Hk0. pose proof (log2_below n Hn) as Hl. unfold binary_round_aux.
  rewrite shr_fexp_exact by done. cbn [shr_m loc_of_shr_record round_nearest_even].
  assert (shr_fexp 53 1024 (mantissa n) (Z.log2 n - 52) loc_Exact
    = (Build_shr_record (mantissa n) false false, Z.log2 n - 52)) as ->.
  { unfold shr_fexp, fexp, emin. rewrite Zdigits2_log2 by (apply mantissa_pos; lia).
    rewrite mantissa_log2 by lia.
    replace (Z.max (52 + 1 + (Z.log2 n - 52) - 53) (3 - 1024 - 53) - (Z.log2 n - 52)) with 0 by lia. done. }
  cbn [shr_m]. unfold canonical. pose proof (mantissa_pos n ltac:(lia) ltac:(lia)) as Hm.
  destruct (mantissa n) as [|m|m]; try lia. destruct (Z.leb_spec (Z.log2 n - 52) (1024 - 53)); [done|lia].
Qed.

(** ** Integers *)
Lemma iter_xO p d : Zpos (Pos.iter xO p d) = Zpos p * 2 ^ Zpos d.
Proof.
  induction d as [|d IH] using Pos.peano_ind; [cbn; lia|]. rewrite Pos.iter_succ, Pos2Z.inj_succ, Z.pow_succ_r by lia. lia.
Qed.

Lemma F64_exact n : 0 < n < 2 ^ 53 → F64 n = canonical n.
Proof.
  intros Hn. pose proof (log2_below n Hn) as Hl. unfold F64, binary_normalize, binary_round.
  destruct n as [|p|p]; try lia. unfold shl_align, fexp, emin. rewrite digits2_log2.
  replace (Z.max (Z.log2 (Zpos p) + 1 + 0 - 53) (3 - 1024 - 53) - 0) with (- (52 - Z.log2 (Zpos p))) by lia.
  destruct (52 - Z.log2 (Zpos p)) as [|d|d] eqn:Hd; [| |lia]; cbn [Z.opp].
  - rewrite <- (round_exact (Zpos p) 0) by (done || lia). f_equal; lia.
  - rewrite <- (round_exact (Zpos p) (Zpos d)) by (done || lia). change (- Zpos d) with (Zneg d) at 1; cbv beta iota; rewrite iter_xO. f_equal. lia.
Qed.

Lemma truncate_canonical n : 0 < n < 2 ^ 53 → truncate (canonical n) = n.
Proof.
  intros Hn. pose proof (log2_below n Hn) as Hl. unfold truncate, canonical.
  rewrite Z2Pos.id by (apply mantissa_pos; lia). unfold mantissa.
  destruct (Z.leb_spec 0 (Z.log2 n - 52)).
  - replace (52 - Z.log2 n) with 0 by lia. replace (Z.log2 n - 52) with 0 by lia. lia.
  - replace (- (Z.log2 n - 52)) with (52 - Z.log2 n) by lia. apply Z.div_mul. apply Z.pow_nonzero; lia.
Qed.

Lemma log2_product a b : 0 < a → 0 < b → Z.log2 a + Z.log2 b ≤ Z.log2 (a * b).
Proof. intros. by apply Z.log2_mul_below. Qed.

(** The product of two positive integers is exact as long as it is below 2^53. *)
Lemma F64_mul_exact a b : 0 < a → 0 < b → a * b < 2 ^ 53 → F64_mul (F64 a) (F64 b) = F64 (a * b).
Proof.
  intros Ha Hb Hab. pose proof (log2_below a ltac:(nia)) as Hla. pose proof (log2_below b ltac:(nia)) as Hlb.
  pose proof (log2_product a b Ha Hb) as Hl. rewrite !F64_exact by nia. unfold F64_mul, SFmul. unfold canonical at 1. unfold canonical at 1. cbv beta iota. cbn [xorb].
  rewrite Pos2Z.inj_mul, !Z2Pos.id by (apply mantissa_pos; lia).
  replace (Z.log2 a - 52 + (Z.log2 b - 52)) with (- (104 - Z.log2 a - Z.log2 b)) by lia.
  replace (mantissa a * mantissa b) with (a * b * 2 ^ (104 - Z.log2 a - Z.log2 b)).
  - apply round_exact; nia.
  - unfold mantissa. replace (104 - Z.log2 a - Z.log2 b) with ((52 - Z.log2 a) + (52 - Z.log2 b)) by lia.
    rewrite Z.pow_add_r by lia. lia.
Qed.
Lemma truncate_F64 n : 0 < n < 2 ^ 53 → truncate (F64 n) = n.
Proof. intros Hn. rewrite F64_exact by done. by apply truncate_canonical. Qed.

Ltac Zify.zify_post_hook ::= idtac.

(** ** Printing: [Duration.String] *)
Definition digit_char (d : Z) : ascii := ascii_of_N (Z.to_N (48 + d)).

(** The loop of [fmtFrac]: whether a digit was printed, what is left of the
    value, and the buffer, which grows to the left. *)
Fixpoint fmtFrac_loop (prec : nat) (v : Z) (print : bool) (buf : string) : bool * Z * string :=
  match prec with
  | O => (print, v, buf)
  | S prec =>
      let digit := v mod 10 in
      let print := print || negb (digit =? 0) in
      fmtFrac_loop prec (v / 10) print (if print then String (digit_char digit) buf else buf)
  end.
Definition fmtFrac (buf : string) (v : Z) (prec : nat) : string * Z :=
  let '(print, v, buf) := fmtFrac_loop prec v false buf in
  (if print then String "." buf else buf, v).

(** The loop of [fmtInt]; a word has at most twenty digits. *)
Fixpoint fmtInt_loop (fuel : nat) (v : Z) (buf : string) : string :=
  match fuel with
  | O => buf
  | S fuel => if 0 <? v then fmtInt_loop fuel (v / 10) (String (digit_char (v mod 10)) buf) else buf
  end.
Definition fmtInt (buf : string) (v : Z) : string :=
  if v =? 0 then String "0" buf else fmtInt_loop 20 v buf.

Definition micro : string := String (ascii_of_nat 194) (String (ascii_of_nat 181) "s").
Definition nanos_Microsecond : Z := 1000.
Definition nanos_Millisecond : Z := 1000 * 1000.
Definition nanos_Second : Z := 1000 * 1000 * 1000.

(** The text of a nonzero magnitude. *)
Definition format (u : Z) : string :=
  if u <? nanos_Second then
    let '(prec, unit) :=
      if u <? nanos_Microsecond then (0%nat, "ns")
      else if u <? nanos_Millisecond then (3%nat, micro)
      else (6%nat, "ms") in
    let '(buf, u) := fmtFrac unit u prec in fmtInt buf u
  else
    let '(buf, u) := fmtFrac "s" u 9 in
    let buf := fmtInt buf (u mod 60) in
    let u := u / 60 in
    if 0 <? u then
      let buf := fmtInt (String "m" buf) (u mod 60) in
      let u := u / 60 in
      if 0 <? u then fmtInt (String "h" buf) u else buf
    else buf.

Definition Duration_String (d : Duration) : string :=
  let u := Z.abs d in
  when u =? 0 yield "0s";;
  if d <? 0 then String "-" (format u) else format u.

(** ** Parsing: [time.ParseDuration] *)
Fixpoint leadingInt (x : Z) (s : string) : option (Z * string) :=
  match s with
  | EmptyString => Some (x, s)
  | String c rest =>
      match digit_of c with
      | None => Some (x, s)
      | Some d =>
          when 2 ^ 63 / 10 <? x yield None;;
          let x := x * 10 + d in
          when 2 ^ 63 <? x yield None;;
          leadingInt x rest
      end
  end.

(** Digits past what fits are passed over. *)
Fixpoint leadingFraction (x : Z) (scale : float64) (overflow : bool) (s : string) : Z * float64 * string :=
  match s with
  | EmptyString => (x, scale, s)
  | String c rest =>
      match digit_of c with
      | None => (x, scale, s)
      | Some d =>
          when overflow yield leadingFraction x scale true rest;;
          when (2 ^ 63 - 1) / 10 <? x yield leadingFraction x scale true rest;;
          let y := x * 10 + d in
          when 2 ^ 63 <? y yield leadingFraction x scale true rest;;
          leadingFraction y (F64_mul scale (F64 10)) false rest
      end
  end.

Definition ends_unit (c : ascii) : bool := Ascii.eqb c "." || bool_decide (is_Some (digit_of c)).
Fixpoint span_unit (s : string) : string * string :=
  match s with
  | EmptyString => ("", "")
  | String c rest => if ends_unit c then ("", s) else let '(u, rest) := span_unit rest in (String c u, rest)
  end.

Definition unitMap (u : string) : option Z :=
  if bool_decide (u = "ns") then Some 1
  else if bool_decide (u = "us") then Some nanos_Microsecond
  else if bool_decide (u = micro) then Some nanos_Microsecond
  else if bool_decide (u = String (ascii_of_nat 206) (String (ascii_of_nat 188) "s")) then Some nanos_Microsecond
  else if bool_decide (u = "ms") then Some nanos_Millisecond
  else if bool_decide (u = "s") then Some nanos_Second
  else if bool_decide (u = "m") then Some (60 * nanos_Second)
  else if bool_decide (u = "h") then Some (60 * (60 * nanos_Second))
  else None.

Definition invalid_duration : error := ErrNew "time: invalid duration".

(** One turn of the loop: a number with its unit, and the text after it. *)
Definition parse_segment (s : string) : error + (Z * string) :=
  let starts := match s with String c _ => ends_unit c | EmptyString => false end in
  when negb starts yield inl invalid_duration;;
  match leadingInt 0 s with
  | None => inl invalid_duration
  | Some (v, s1) =>
      let pre := negb (String.length s =? String.length s1)%nat in
      let '(f, scale, s2, post) :=
        match s1 with
        | String c rest =>
            if Ascii.eqb c "." then
              let '(f, scale, s2) := leadingFraction 0 (F64 1) false rest in
              (f, scale, s2, negb (String.length rest =? String.length s2)%nat)
            else (0, F64 1, s1, false)
        | EmptyString => (0, F64 1, s1, false)
        end in
      when negb pre && negb post yield inl invalid_duration;;
      let '(u, s3) := span_unit s2 in
      when bool_decide (u = "") yield inl (ErrNew "time: missing unit in duration");;
      match unitMap u with
      | None => inl (ErrNew "time: unknown unit in duration")
      | Some unit =>
          when 2 ^ 63 / unit <? v yield inl invalid_duration;;
          let v := v * unit in
          if 0 <? f then
            let v := v + truncate (F64_mul (F64 f) (F64_div (F64 unit) scale)) in
            when 2 ^ 63 <? v yield inl invalid_duration;;
            inr (v, s3)
          else inr (v, s3)
      end
  end.

(** The loop; each turn takes at least one character. *)
Fixpoint parse_segments (fuel : nat) (d : Z) (s : string) : error + Z :=
  match s, fuel with
  | EmptyString, _ => inr d
  | _, O => inl invalid_duration
  | _, S fuel =>
      match parse_segment s with
      | inl err => inl err
      | inr (v, rest) =>
          let d := (d + v) mod 2 ^ 64 in
          when 2 ^ 63 <? d yield inl invalid_duration;;
          parse_segments fuel d rest
      end
  end.

Definition ParseDuration (s : string) : error + Duration :=
  let '(neg, s) :=
    match s with
    | String c rest => if Ascii.eqb c "-" then (true, rest) else if Ascii.eqb c "+" then (false, rest) else (false, s)
    | EmptyString => (false, s)
    end in
  when bool_decide (s = "0") yield inr 0;;
  when bool_decide (s = "") yield inl invalid_duration;;
  match parse_segments (String.length s) 0 s with
  | inl err => inl err
  | inr d =>
      when neg yield inr (wrap_int64 (- wrap_int64 d));;
      when 2 ^ 63 - 1 <? d yield inl invalid_duration;;
      inr d
  end.

Example parse_examples :
  ParseDuration "1h2m3.004s" = inr (3723004000000) ∧ ParseDuration "-1.5ms" = inr (-1500000)
  ∧ Duration_String 3723004000000 = "1h2m3.004s" ∧ Duration_String (- 2 ^ 63) = "-2562047h47m16.854775808s"
  ∧ ParseDuration "-2562047h47m16.854775808s" = inr (- 2 ^ 63)
  ∧ ParseDuration ".5s" = inr 500000000 ∧ (∃ err, ParseDuration "." = inl err) ∧ (∃ err, ParseDuration "5" = inl err).
Proof. vm_compute. split_and!; eauto. Qed.

(** ** Digits *)
Lemma digit_of_digit_char d : 0 ≤ d < 10 → digit_of (digit_char d) = Some d.
Proof.
  intros Hd. assert (d ∈ [0; 1; 2; 3; 4; 5; 6; 7; 8; 9]) as Hin by (rewrite !elem_of_cons; lia).
  repeat (apply elem_of_cons in Hin as [->|Hin]; [done|]). by apply elem_of_nil in Hin.
Qed.
Lemma mod_10 v : 0 ≤ v mod 10 < 10.
Proof. apply Z.mod_pos_bound. lia. Qed.

(** A text that does not go on with a digit, and one that does. *)
Definition after_digits (s : string) : Prop := match s with String c _ => digit_of c = None | EmptyString => True end.
Definition digit_first (s : string) : Prop := match s with String c _ => is_Some (digit_of c) | EmptyString => False end.

Lemma leadingInt_stop x s : after_digits s → leadingInt x s = Some (x, s).
Proof. destruct s as [|c s]; [done|]. cbn. by intros ->. Qed.

Lemma fmtInt_loop_reads fuel v buf :
  0 ≤ v ≤ 2 ^ 63 → v < 10 ^ Z.of_nat fuel → leadingInt 0 (fmtInt_loop fuel v buf) = leadingInt v buf.
Proof.
  revert v buf. induction fuel as [|fuel IH]; intros v buf Hv Hf; cbn [fmtInt_loop].
  - by replace v with 0 by (cbn in Hf; lia).
  - destruct (Z.ltb_spec 0 v) as [Hpos|]; [|by replace v with 0 by lia].
    pose proof (Z.div_mod v 10 ltac:(lia)) as Hdm. pose proof (mod_10 v) as Hm.
    rewrite Nat2Z.inj_succ, Z.pow_succ_r in Hf by lia.
    assert (v / 10 < 10 ^ Z.of_nat fuel) by (apply Z.div_lt_upper_bound; lia).
    assert (0 ≤ v / 10 ≤ 2 ^ 63) by (split; [apply Z.div_pos; lia|apply Z.div_le_upper_bound; lia]).
    rewrite IH by done.
    cbn [leadingInt]. rewrite digit_of_digit_char by done.
    destruct (Z.ltb_spec (2 ^ 63 / 10) (v / 10)) as [Hbig|_].
    { pose proof (Z.div_le_mono v (2 ^ 63) 10 ltac:(lia) ltac:(lia)). lia. }
    replace (v / 10 * 10 + v mod 10) with v by lia. destruct (Z.ltb_spec (2 ^ 63) v); [lia|done].
Qed.

Lemma fmtInt_reads v buf : 0 ≤ v ≤ 2 ^ 63 → after_digits buf → leadingInt 0 (fmtInt buf v) = Some (v, buf).
Proof.
  intros Hv Hb. unfold fmtInt. destruct (Z.eqb_spec v 0) as [->|Hne].
  - cbn. by apply leadingInt_stop.
  - rewrite fmtInt_loop_reads by (done || (cbn; lia)). by apply leadingInt_stop.
Qed.

Lemma fmtInt_loop_S fuel v buf :
  fmtInt_loop (S fuel) v buf
  = if 0 <? v then fmtInt_loop fuel (v / 10) (String (digit_char (v mod 10)) buf) else buf.
Proof. done. Qed.
Lemma fmtInt_loop_first fuel v buf : digit_first buf → digit_first (fmtInt_loop fuel v buf).
Proof.
  revert v buf. induction fuel as [|fuel IH]; intros v buf Hb; cbn [fmtInt_loop]; [done|].
  destruct (0 <? v); [|done]. apply IH. cbn. rewrite digit_of_digit_char by apply mod_10. eauto.
Qed.
Lemma fmtInt_first v buf : 0 ≤ v → digit_first (fmtInt buf v).
Proof.
  intros Hv. unfold fmtInt. destruct (Z.eqb_spec v 0); [cbn; eauto|]. rewrite fmtInt_loop_S.
  destruct (Z.ltb_spec 0 v); [|lia]. apply fmtInt_loop_first. cbn. rewrite digit_of_digit_char by apply mod_10. eauto.
Qed.
Lemma fmtInt_length v buf : (String.length buf < String.length (fmtInt buf v))%nat ∨ v < 0.
Proof.
  unfold fmtInt. destruct (Z.eqb_spec v 0); [left; cbn; lia|]. destruct (Z_lt_le_dec v 0); [by right|left].
  assert (∀ fuel v buf, (String.length buf ≤ String.length (fmtInt_loop fuel v buf))%nat) as Hle.
  { induction fuel as [|fuel IH]; intros v' buf'; cbn [fmtInt_loop]; [done|]. destruct (0 <? v'); [|done].
    etransitivity; [|apply IH]. cbn. lia. }
  rewrite fmtInt_loop_S. destruct (Z.ltb_spec 0 v); [|lia]. eapply Nat.lt_le_trans; [|apply Hle]. cbn. lia.
Qed.

(** ** Fractions *)
(** Ten to the [k], as repeated multiplication gets it. *)
Fixpoint scaled (k : nat) (scale : float64) : float64 :=
  match k with O => scale | S k => scaled k (F64_mul scale (F64 10)) end.

(** [t] begins with [k] digits of value [f], and [rest] follows. *)
Definition fraction (t : string) (k : nat) (f : Z) (rest : string) : Prop :=
  0 ≤ f < 10 ^ Z.of_nat k ∧ String.length t = (k + String.length rest)%nat
  ∧ ∀ x scale, 0 ≤ x → x * 10 ^ Z.of_nat k + f < 10 ^ 9 →
      leadingFraction x scale false t = (x * 10 ^ Z.of_nat k + f, scaled k scale, rest).

Lemma fraction_nil rest : after_digits rest → fraction rest 0 0 rest.
Proof.
  intros Hr. split; [cbn; lia|]. split; [done|]. intros x scale _ _.
  assert (x * 10 ^ Z.of_nat 0 + 0 = x) as -> by (cbn; lia). cbn [scaled].
  destruct rest as [|c rest]; cbn [leadingFraction]; [reflexivity|]. cbn in Hr. rewrite Hr. reflexivity.
Qed.

Lemma fraction_cons t k f rest d :
  0 ≤ d < 10 → fraction t k f rest → fraction (String (digit_char d) t) (S k) (d * 10 ^ Z.of_nat k + f) rest.
Proof.
  intros Hd (Hf & Hl & Ht). pose proof (Z.pow_pos_nonneg 10 (Z.of_nat k) ltac:(lia) ltac:(lia)) as Hp.
  split_and!.
  - nia.
  - rewrite Nat2Z.inj_succ, Z.pow_succ_r by lia. nia.
  - cbn. lia.
  - intros x scale Hx Hb. rewrite Nat2Z.inj_succ, Z.pow_succ_r in * by lia. cbn [leadingFraction].
    rewrite digit_of_digit_char by done.
    assert (x * 10 + d < 10 ^ 9) as Hs by nia.
    destruct (Z.ltb_spec ((2 ^ 63 - 1) / 10) x) as [Hbig|_]; [exfalso; change ((2 ^ 63 - 1) / 10) with 922337203685477580 in Hbig; lia|].
    destruct (Z.ltb_spec (2 ^ 63) (x * 10 + d)) as [Hbig|_]; [exfalso; lia|].
    rewrite Ht by nia. cbn [scaled]. f_equal. f_equal. nia.
Qed.

Lemma mod_pow_succ v n : 0 ≤ v →
  v / 10 ^ Z.of_nat (S n) = v / 10 / 10 ^ Z.of_nat n
  ∧ v mod 10 ^ Z.of_nat (S n) = v mod 10 + 10 * ((v / 10) mod 10 ^ Z.of_nat n).
Proof.
  intros Hv. pose proof (Z.pow_pos_nonneg 10 (Z.of_nat n) ltac:(lia) ltac:(lia)) as Hp.
  rewrite Nat2Z.inj_succ, Z.pow_succ_r by lia. split; [by rewrite Z.div_div by lia|apply Z.rem_mul_r; lia].
Qed.

Lemma fmtFrac_loop_on n v buf rest k f :
  0 ≤ v → fraction buf k f rest →
  ∃ buf', fmtFrac_loop n v true buf = (true, v / 10 ^ Z.of_nat n, buf')
    ∧ fraction buf' (n + k) (v mod 10 ^ Z.of_nat n * 10 ^ Z.of_nat k + f) rest.
Proof.
  revert v buf k f. induction n as [|n IH]; intros v buf k f Hv Hf; cbn [fmtFrac_loop].
  - exists buf. change (10 ^ Z.of_nat 0) with 1. rewrite Z.div_1_r, Z.mod_1_r. done.
  - cbn [orb]. destruct (IH (v / 10) _ _ _ ltac:(apply Z.div_pos; lia) (fraction_cons _ _ _ _ (v mod 10) (mod_10 v) Hf))
      as (buf' & -> & Hb). destruct (mod_pow_succ v n Hv) as [-> ->]. exists buf'. split; [done|].
    replace (S n + k)%nat with (n + S k)%nat by lia.
    replace ((v mod 10 + 10 * ((v / 10) mod 10 ^ Z.of_nat n)) * 10 ^ Z.of_nat k + f)
      with ((v / 10) mod 10 ^ Z.of_nat n * 10 ^ Z.of_nat (S k) + (v mod 10 * 10 ^ Z.of_nat k + f)); [done|].
    rewrite (Nat2Z.inj_succ k), Z.pow_succ_r by lia. nia.
Qed.

Lemma fmtFrac_loop_off n v buf :
  0 ≤ v → after_digits buf →
  (v mod 10 ^ Z.of_nat n = 0 ∧ fmtFrac_loop n v false buf = (false, v / 10 ^ Z.of_nat n, buf))
  ∨ ∃ k f buf', fmtFrac_loop n v false buf = (true, v / 10 ^ Z.of_nat n, buf') ∧ fraction buf' k f buf
      ∧ (k ≤ n)%nat ∧ 0 < f ∧ f * 10 ^ Z.of_nat (n - k) = v mod 10 ^ Z.of_nat n.
Proof.
  revert v. induction n as [|n IH]; intros v Hv Hb; cbn [fmtFrac_loop].
  - left. change (10 ^ Z.of_nat 0) with 1. rewrite Z.div_1_r, Z.mod_1_r. done.
  - destruct (mod_pow_succ v n Hv) as [-> ->]. destruct (Z.eqb_spec (v mod 10) 0) as [Hz|Hnz]; cbn [negb orb].
    + destruct (IH (v / 10) ltac:(apply Z.div_pos; lia) Hb) as [[Hm ->]|(k & f & buf' & -> & Hf & Hk & Hpos & Heq)].
      * left. split; [lia|done].
      * right. exists k, f, buf'. split_and!; try done; [lia|].
        replace (S n - k)%nat with (S (n - k)) by lia. rewrite Nat2Z.inj_succ, Z.pow_succ_r by lia. nia.
    + right. destruct (fmtFrac_loop_on n (v / 10) _ _ _ _ ltac:(apply Z.div_pos; lia)
        (fraction_cons _ _ _ _ (v mod 10) (mod_10 v) (fraction_nil _ Hb))) as (buf' & -> & Hf).
      eexists _, _, buf'. split; [done|]. split; [exact Hf|]. pose proof (mod_10 v).
      pose proof (Z.mod_pos_bound (v / 10) (10 ^ Z.of_nat n) ltac:(apply Z.pow_pos_nonneg; lia)).
      change (10 ^ Z.of_nat 0) with 1. change (10 ^ Z.of_nat 1) with 10.
      replace (S n - (n + 1))%nat with 0%nat by lia. change (10 ^ Z.of_nat 0) with 1. split_and!; lia.
Qed.

(** The doubles are exact here: powers of ten up to the ninth and their
    quotients. *)
Lemma scaled_powers k : (k ≤ 9)%nat → scaled k (F64 1) = F64 (10 ^ Z.of_nat k).
Proof. intros Hk. do 10 (destruct k as [|k]; [vm_compute; done|]). lia. Qed.
Lemma divided_powers n k :
  (k ≤ n ≤ 9)%nat → F64_div (F64 (10 ^ Z.of_nat n)) (F64 (10 ^ Z.of_nat k)) = F64 (10 ^ Z.of_nat (n - k)).
Proof.
  intros Hk. do 10 (destruct n as [|n]; [do 10 (destruct k as [|k]; [vm_compute; done || lia|]); lia|]). lia.
Qed.
Lemma fraction_value n k f :
  (k ≤ n ≤ 9)%nat → 0 < f < 10 ^ Z.of_nat k →
  truncate (F64_mul (F64 f) (F64_div (F64 (10 ^ Z.of_nat n)) (scaled k (F64 1)))) = f * 10 ^ Z.of_nat (n - k).
Proof.
  intros Hk Hf. rewrite scaled_powers by lia. rewrite divided_powers by lia.
  pose proof (Z.pow_pos_nonneg 10 (Z.of_nat (n - k)) ltac:(lia) ltac:(lia)) as Hp.
  assert (f * 10 ^ Z.of_nat (n - k) < 2 ^ 53) as Hb.
  { apply Z.lt_le_trans with (10 ^ Z.of_nat k * 10 ^ Z.of_nat (n - k)); [nia|].
    rewrite <- Z.pow_add_r by lia. transitivity (10 ^ 9); [apply Z.pow_le_mono_r; lia|lia]. }
  rewrite F64_mul_exact by lia. apply truncate_F64. nia.
Qed.

(** ** Segments *)
(** A unit as the printer writes it before [rest]. *)
Record unit_before (U rest : string) (unit : Z) : Prop := {
  ub_span : span_unit (U +:+ rest) = (U, rest);
  ub_after : after_digits (U +:+ rest) ∧ match U with String c _ => Ascii.eqb c "." = false | EmptyString => False end;
  ub_unit : unitMap U = Some unit ∧ 0 < unit
}.

Lemma segment_starts v buf : 0 ≤ v →
  match fmtInt buf v with String c _ => ends_unit c | EmptyString => false end = true.
Proof.
  intros Hv. pose proof (fmtInt_first v buf Hv) as Hf. destruct (fmtInt buf v) as [|c s]; [done|]. cbn in Hf.
  unfold ends_unit. by rewrite bool_decide_eq_true_2, orb_true_r.
Qed.
Lemma segment_pre v buf : 0 ≤ v → (String.length (fmtInt buf v) =? String.length buf)%nat = false.
Proof. intros Hv. apply Nat.eqb_neq. destruct (fmtInt_length v buf); lia. Qed.
Lemma fits v unit : 0 < unit → v * unit ≤ 2 ^ 63 → (2 ^ 63 / unit <? v) = false.
Proof. intros Hu Hv. apply Z.ltb_ge. apply Z.div_le_lower_bound; lia. Qed.

Lemma parse_segment_whole v U rest unit :
  unit_before U rest unit → 0 ≤ v → v * unit ≤ 2 ^ 63 →
  parse_segment (fmtInt (U +:+ rest) v) = inr (v * unit, rest).
Proof.
  intros [Hs [Ha Hd] [Hu Hp]] Hv Hb. unfold parse_segment. rewrite segment_starts by done. cbn [negb].
  rewrite fmtInt_reads by (done || nia). rewrite segment_pre by done. cbn [negb andb].
  destruct U as [|c U]; [done|].
  assert (String c U +:+ rest = String c (U +:+ rest)) as Hc by done. rewrite Hc at 1. cbv beta iota. rewrite Hd.
  cbn [negb andb]. rewrite Hs. rewrite bool_decide_eq_false_2 by done. rewrite Hu, fits by done. done.
Qed.

Lemma parse_segment_point v U rest n k f t :
  unit_before U rest (10 ^ Z.of_nat n) → (k ≤ n ≤ 9)%nat → 0 < f → fraction t k f (U +:+ rest) → 0 ≤ v →
  v * 10 ^ Z.of_nat n + f * 10 ^ Z.of_nat (n - k) ≤ 2 ^ 63 →
  parse_segment (fmtInt (String "." t) v) = inr (v * 10 ^ Z.of_nat n + f * 10 ^ Z.of_nat (n - k), rest).
Proof.
  intros [Hs [Ha Hd] [Hu Hp]] Hk Hf (Hfb & Hlen & Hlead) Hv Hb.
  pose proof (Z.pow_pos_nonneg 10 (Z.of_nat (n - k)) ltac:(lia) ltac:(lia)) as Hp'.
  unfold parse_segment. rewrite segment_starts by done. cbn [negb].
  rewrite fmtInt_reads by (done || nia). rewrite segment_pre by done. cbn [negb andb Ascii.eqb Bool.eqb].
  assert (10 ^ Z.of_nat k ≤ 10 ^ 9) as H9 by (apply Z.pow_le_mono_r; lia).
  rewrite Hlead by lia.
  replace (0 * 10 ^ Z.of_nat k + f) with f by lia. cbn [negb andb]. rewrite Hs.
  destruct U as [|c U]; [done|]. rewrite bool_decide_eq_false_2 by done. rewrite Hu, fits by nia.
  destruct (Z.ltb_spec 0 f); [|lia]. rewrite fraction_value by lia.
  destruct (Z.ltb_spec (2 ^ 63) (v * 10 ^ Z.of_nat n + f * 10 ^ Z.of_nat (n - k))); [lia|done].
Qed.

(** A value printed with [prec] decimals is read back. *)
Lemma parse_segment_frac u prec U hi :
  unit_before U "" (10 ^ Z.of_nat prec) → (prec ≤ 9)%nat → 0 ≤ u → 0 ≤ hi →
  hi * 10 ^ Z.of_nat prec + u mod 10 ^ Z.of_nat prec ≤ 2 ^ 63 →
  (fmtFrac U u prec).2 = u / 10 ^ Z.of_nat prec
  ∧ parse_segment (fmtInt (fmtFrac U u prec).1 hi) = inr (hi * 10 ^ Z.of_nat prec + u mod 10 ^ Z.of_nat prec, "").
Proof.
  intros Hub Hprec Hu Hhi Hb. assert (U +:+ "" = U) as HU.
  { clear. induction U as [|c U IH]; [done|]. change (String c U +:+ "") with (String c (U +:+ "")). by rewrite IH. }
  destruct (ub_after _ _ _ Hub) as [Ha _]. rewrite HU in Ha. unfold fmtFrac.
  destruct (fmtFrac_loop_off prec u U Hu Ha) as [[Hm ->]|(k & f & buf & -> & Hf & Hk & Hpos & Heq)]; cbn [fst snd].
  - split; [done|]. rewrite Hm, Z.add_0_r in *. rewrite <- HU at 1. by apply parse_segment_whole.
  - split; [done|]. rewrite <- Heq in *. rewrite <- HU in Hf. by apply parse_segment_point with U.
Qed.

Lemma parse_segments_step fuel d s v rest :
  digit_first s → parse_segment s = inr (v, rest) → 0 ≤ d → 0 ≤ v → d + v ≤ 2 ^ 63 →
  parse_segments (S fuel) d s = parse_segments fuel (d + v) rest.
Proof.
  intros Hs Hp Hd Hv Hb. destruct s as [|c s]; [done|]. cbn [parse_segments]. rewrite Hp.
  rewrite Z.mod_small by lia. destruct (Z.ltb_spec (2 ^ 63) (d + v)); [lia|done].
Qed.
Lemma parse_segments_end fuel d : parse_segments fuel d "" = inr d.
Proof. by destruct fuel. Qed.

(** ** The round trip *)
Lemma unit_ns : unit_before "ns" "" (10 ^ Z.of_nat 0).
Proof. done. Qed.
Lemma unit_micro : unit_before micro "" (10 ^ Z.of_nat 3).
Proof. done. Qed.
Lemma unit_ms : unit_before "ms" "" (10 ^ Z.of_nat 6).
Proof. done. Qed.
Lemma unit_s : unit_before "s" "" (10 ^ Z.of_nat 9).
Proof. done. Qed.
Lemma span_stops rest : digit_first rest → span_unit rest = ("", rest).
Proof.
  destruct rest as [|c rest]; [done|]. cbn. intros Hc. unfold ends_unit. by rewrite bool_decide_eq_true_2, orb_true_r.
Qed.
Lemma unit_m rest : digit_first rest → unit_before "m" rest (60 * nanos_Second).
Proof.
  intros Hr. split; [|done|done]. change ("m" +:+ rest) with (String "m" rest). cbn [span_unit].
  change (ends_unit "m") with false. cbv beta iota. by rewrite span_stops.
Qed.
Lemma unit_h rest : digit_first rest → unit_before "h" rest (60 * (60 * nanos_Second)).
Proof.
  intros Hr. split; [|done|done]. change ("h" +:+ rest) with (String "h" rest). cbn [span_unit].
  change (ends_unit "h") with false. cbv beta iota. by rewrite span_stops.
Qed.

(** A text that begins with a number is read, and is worth [u]. *)
Definition reads_as (t : string) (u : Z) : Prop :=
  digit_first t ∧ ∀ fuel d, (String.length t ≤ fuel)%nat → 0 ≤ d → d + u ≤ 2 ^ 63 →
    parse_segments fuel d t = inr (d + u).

Lemma reads_as_last u prec U hi :
  unit_before U "" (10 ^ Z.of_nat prec) → (prec ≤ 9)%nat → 0 ≤ u → 0 ≤ hi →
  hi * 10 ^ Z.of_nat prec + u mod 10 ^ Z.of_nat prec ≤ 2 ^ 63 →
  reads_as (fmtInt (fmtFrac U u prec).1 hi) (hi * 10 ^ Z.of_nat prec + u mod 10 ^ Z.of_nat prec).
Proof.
  intros Hub Hp Hu Hhi Hb. destruct (parse_segment_frac u prec U hi Hub Hp Hu Hhi Hb) as [_ Hs].
  pose proof (fmtInt_first hi (fmtFrac U u prec).1 Hhi) as Hf.
  pose proof (Z.pow_pos_nonneg 10 (Z.of_nat prec) ltac:(lia) ltac:(lia)) as Hpos.
  pose proof (Z.mod_pos_bound u _ Hpos).
  split; [done|]. intros fuel d Hl Hd Hle. destruct fuel as [|fuel].
  { exfalso. revert Hf Hl. destruct (fmtInt _ _); cbn; [done|lia]. }
  rewrite (parse_segments_step _ _ _ _ _ Hf Hs) by nia. apply parse_segments_end.
Qed.

Lemma reads_as_more U rest unit v u :
  unit_before U rest unit → reads_as rest u → 0 ≤ v → 0 ≤ u → v * unit ≤ 2 ^ 63 →
  reads_as (fmtInt (U +:+ rest) v) (v * unit + u).
Proof.
  intros Hub [Hf Hr] Hv Hu Hb. destruct (ub_unit _ _ _ Hub) as [_ Hpos].
  pose proof (fmtInt_first v (U +:+ rest) Hv) as Hff.
  split; [done|]. intros fuel d Hl Hd Hle.
  assert (String.length rest < String.length (fmtInt (U +:+ rest) v))%nat as Hlen.
  { destruct (fmtInt_length v (U +:+ rest)) as [Hlt|]; [|lia].
    assert (String.length rest ≤ String.length (U +:+ rest))%nat; [|lia].
    clear. induction U as [|c U IH]; [done|]. change (String c U +:+ rest) with (String c (U +:+ rest)). cbn [String.length]. lia. }
  destruct fuel as [|fuel]; [lia|].
  rewrite (parse_segments_step _ _ _ _ _ Hff (parse_segment_whole v U rest unit Hub Hv Hb)) by nia.
  rewrite Hr by nia. f_equal. lia.
Qed.

Lemma div_mod_sum u p : 0 < p → u / p * p + u mod p = u.
Proof. intros Hp. pose proof (Z.div_mod u p ltac:(lia)). lia. Qed.

Lemma reads_as_small u prec U :
  0 < u ≤ 2 ^ 63 → unit_before U "" (10 ^ Z.of_nat prec) → (prec ≤ 9)%nat →
  reads_as (let '(buf, u) := fmtFrac U u prec in fmtInt buf u) u.
Proof.
  intros Hu Hub Hp. pose proof (Z.pow_pos_nonneg 10 (Z.of_nat prec) ltac:(lia) ltac:(lia)) as Hpos.
  pose proof (div_mod_sum u _ Hpos) as Hdm. pose proof (Z.div_pos u _ ltac:(lia) Hpos) as Hq.
  pose proof (reads_as_last u prec U (u / 10 ^ Z.of_nat prec) Hub Hp ltac:(lia) Hq ltac:(lia)) as Hr.
  destruct (parse_segment_frac u prec U (u / 10 ^ Z.of_nat prec) Hub Hp ltac:(lia) Hq ltac:(lia)) as [H2 _].
  rewrite Hdm in Hr. destruct (fmtFrac U u prec) as [buf q]. cbn [fst snd] in *. by subst q.
Qed.

Lemma format_reads u : 0 < u ≤ 2 ^ 63 → reads_as (format u) u.
Proof.
  intros Hu. unfold format.
  destruct (u <? nanos_Second).
  { destruct (u <? nanos_Microsecond); [apply reads_as_small; [done|apply unit_ns|lia]|].
    destruct (u <? nanos_Millisecond); apply reads_as_small; (apply unit_micro || apply unit_ms || done || lia). }
  set (s := u / 10 ^ Z.of_nat 9). change (10 ^ Z.of_nat 9) with 1000000000 in s.
  pose proof (div_mod_sum u 1000000000 ltac:(lia)) as Hdm. fold s in Hdm.
  pose proof (Z.mod_pos_bound u 1000000000 ltac:(lia)) as Hmod. pose proof (Z.div_pos u 1000000000 ltac:(lia) ltac:(lia)) as Hs0. fold s in Hs0.
  pose proof (div_mod_sum s 60 ltac:(lia)) as Hd60. pose proof (Z.mod_pos_bound s 60 ltac:(lia)) as Hm60.
  pose proof (Z.div_pos s 60 ltac:(lia) ltac:(lia)) as Hq60.
  pose proof (div_mod_sum (s / 60) 60 ltac:(lia)) as Hd3600. pose proof (Z.mod_pos_bound (s / 60) 60 ltac:(lia)) as Hm3600.
  pose proof (Z.div_pos (s / 60) 60 ltac:(lia) ltac:(lia)) as Hq3600.
  destruct (parse_segment_frac u 9 "s" 0 unit_s ltac:(lia) ltac:(lia) ltac:(lia) ltac:(change (10 ^ Z.of_nat 9) with 1000000000; lia)) as [H2 _].
  pose proof (reads_as_last u 9 "s" (s mod 60) unit_s ltac:(lia) ltac:(lia) ltac:(lia) ltac:(change (10 ^ Z.of_nat 9) with 1000000000; lia)) as Hsec.
  change (10 ^ Z.of_nat 9) with 1000000000 in H2, Hsec. fold s in H2.
  destruct (fmtFrac "s" u 9) as [buf q]. cbn [fst snd] in *. subst q.
  destruct (Z.ltb_spec 0 (s / 60)) as [Hmin|Hmin].
  2:{ assert (s mod 60 * 1000000000 + u mod 1000000000 = u) as He by lia. rewrite He in Hsec. exact Hsec. }
  pose proof (reads_as_more "m" _ _ ((s / 60) mod 60) _ (unit_m _ (proj1 Hsec)) Hsec ltac:(lia) ltac:(lia) ltac:(unfold nanos_Second; lia)) as Hmm.
  unfold nanos_Second in Hmm. change ("m" +:+ ?x) with (String "m" x) in Hmm.
  destruct (Z.ltb_spec 0 (s / 60 / 60)) as [Hh|Hh].
  2:{ assert ((s / 60) mod 60 * (60 * (1000 * 1000 * 1000)) + (s mod 60 * 1000000000 + u mod 1000000000) = u) as He by lia.
      rewrite He in Hmm. exact Hmm. }
  pose proof (reads_as_more "h" _ _ (s / 60 / 60) _ (unit_h _ (proj1 Hmm)) Hmm ltac:(lia) ltac:(lia) ltac:(unfold nanos_Second; lia)) as Hhh.
  unfold nanos_Second in Hhh.
  assert (s / 60 / 60 * (60 * (60 * (1000 * 1000 * 1000)))
    + ((s / 60) mod 60 * (60 * (1000 * 1000 * 1000)) + (s mod 60 * 1000000000 + u mod 1000000000)) = u) as He by lia.
  rewrite He in Hhh. exact Hhh.
Qed.

(** Every duration that a program can hold is read back from its text, the
    least one included, whose magnitude is no duration. *)
Lemma ParseDuration_String d : in_int64 d → ParseDuration (Duration_String d) = inr d.
Proof.
  intros Hd. unfold in_int64, min_int64, max_int64 in Hd. unfold Duration_String.
  destruct (Z.eqb_spec (Z.abs d) 0) as [Hz|Hnz]; [replace d with 0 by lia; by vm_compute|].
  destruct (format_reads (Z.abs d) ltac:(lia)) as [Hf Hr].
  pose proof (Hr _ 0 (Nat.le_refl _) ltac:(lia) ltac:(lia)) as Hp. rewrite Z.add_0_l in Hp.
  assert (format (Z.abs d) ≠ "0") as H0 by (intros He; rewrite He in Hp; by vm_compute in Hp).
  assert (format (Z.abs d) ≠ "") as He by (intros He; by rewrite He in Hf).
  unfold ParseDuration. destruct (Z.ltb_spec d 0) as [Hneg|Hpos].
  - cbn [Ascii.eqb Bool.eqb]. rewrite !bool_decide_eq_false_2 by done. rewrite Hp. cbv beta iota. f_equal.
    unfold wrap_int64. destruct (Z.eq_dec d (- 2 ^ 63)) as [->|]; [by vm_compute|].
    rewrite (Z.mod_small (Z.abs d + 2 ^ 63)) by lia. rewrite Z.mod_small by lia. lia.
  - destruct (format (Z.abs d)) as [|c t] eqn:Ht; [done|]. cbn in Hf.
    destruct (Ascii.eqb_spec c "-") as [->|_]; [by destruct Hf|]. destruct (Ascii.eqb_spec c "+") as [->|_]; [by destruct Hf|].
    rewrite !bool_decide_eq_false_2 by done. rewrite Hp.
    destruct (Z.ltb_spec (2 ^ 63 - 1) (Z.abs d)); [lia|]. f_equal. lia.
Qed.

(** ** The JSON form ([Duration] of [model.go]) *)
Section json.
(** [json.Unmarshal] into a string, and [json.Marshal] of one. *)
Context (unmarshal_string : string → error + string) (marshal_string : string → error + string).

Definition Duration_UnmarshalJSON (data : string) : error + Duration :=
  match unmarshal_string data with
  | inl _ => inl (ErrNew "duration must be a quoted Go duration string")
  | inr value =>
      match ParseDuration value with
      | inl err => inl (ErrWrap "parse duration" err)
      | inr parsed => inr parsed
      end
  end.
Definition Duration_MarshalJSON (d : Duration) : error + string := marshal_string (Duration_String d).

(** C37: where JSON reads back the texts of durations that it wrote, every
    duration that a scenario can hold is written as a text that reads back as
    the same duration, the fractions of a second, which the parser scales in
    floating point, included. *)
Theorem Duration_JSON_roundtrip d data :
  (∀ d data, in_int64 d → marshal_string (Duration_String d) = inr data → unmarshal_string data = inr (Duration_String d)) →
  in_int64 d → Duration_MarshalJSON d = inr data → Duration_UnmarshalJSON data = inr d.
Proof.
  intros Hlaw Hd Hm. unfold Duration_UnmarshalJSON. rewrite (Hlaw _ _ Hd Hm). by rewrite ParseDuration_String.
Qed.
End json.

(** The text of a duration between quotation marks is JSON's string for it. *)
Definition quoted (s : string) : string := String (ascii_of_nat 34) (s +:+ String (ascii_of_nat 34) "").
Fixpoint before_quote (s : string) : option string :=
  match s with
  | EmptyString => None
  | String c rest =>
      if Ascii.eqb c (ascii_of_nat 34) then (if bool_decide (rest = "") then Some "" else None)
      else String c <$> before_quote rest
  end.
Definition read_quoted (s : string) : error + string :=
  match s with
  | String c rest =>
      if Ascii.eqb c (ascii_of_nat 34)
      then match before_quote rest with Some t => inr t | None => inl invalid_duration end
      else inl invalid_duration
  | EmptyString => inl invalid_duration
  end.
Definition write_quoted (s : string) : error + string :=
  match read_quoted (quoted s) with inr t => if bool_decide (t = s) then inr (quoted s) else inl invalid_duration | inl err => inl err end.

Lemma Duration_JSON_roundtrip_witness :
  Duration_UnmarshalJSON read_quoted (quoted "-2562047h47m16.854775808s") = inr (- 2 ^ 63).
Proof.
  apply (Duration_JSON_roundtrip read_quoted write_quoted).
  - intros d data _. set (s := Duration_String d). unfold write_quoted.
    destruct (read_quoted (quoted s)) as [err|t] eqn:Hr; [discriminate|].
    destruct (decide (t = s)) as [->|Hne].
    + rewrite bool_decide_eq_true_2 by reflexivity. intros Hd. injection Hd as <-. exact Hr.
    + rewrite bool_decide_eq_false_2 by exact Hne. discriminate.
  - unfold in_int64, min_int64, max_int64. lia.
  - vm_compute. reflexivity.
Defined.
