(* ===== verification/SimulatorProgram.v ===== *)
(** * The scenario program: [LoadScenario] of [adapters/simulator/scenario.go]
    and [cmd/aquaos-sim]

    A scenario is read from a bounded file, run, written out one JSON line per
    step and checked against what it expects. Opening files, the JSON codec and
    the standard output are interfaces. *)

From Stdlib Require Import ZArith Lia String.
From stdpp Require Import base gmap strings list.
From S2P Require Import Prelude Domain Events Config Topics Envelope Http Secrets Operations Cli Simulator.

Definition maximumScenarioBytes : Z := 1024 * 1024.

Section program.
(** [NormFloat64 seed n] is draw [n] of the source that the seed starts. *)
Context `{!Files, !FirstDecoder Scenario, !ExtraDecoder} (NormFloat64 : Z → nat → float64).

Definition ensureJSONEOF (rest : string) : option error :=
  match decode_extra rest with
  | Some err =>
      when errors_Is err "io.EOF" yield None;;
      Some (ErrWrap "decode trailing scenario data" err)
  | None => Some (ErrNew "scenario contains trailing JSON")
  end.

Definition LoadScenario (path : string) : error + Scenario :=
  when bool_decide (path = "") yield inl (ErrNew "scenario path is required");;
  match os_Open path with
  | inl err => inl (ErrWrap "open scenario" err)
  | inr file =>
      match ReadLimited (Z.to_nat (maximumScenarioBytes + 1)) (mkResponse 0 (sm_Bytes file) (sm_Error file)) with
      | inl err => inl (ErrWrap "read scenario" err)
      | inr data =>
          when maximumScenarioBytes <? Z.of_nat (String.length data) yield inl (ErrNew "scenario exceeds one MiB");;
          match decode_first data with
          | inl err => inl (ErrWrap "decode scenario" err)
          | inr (scenario, rest) =>
              iferr ensureJSONEOF rest as err yield inl err;;
              iferr Scenario_Validate scenario as err yield inl err;;
              inr scenario
          end
      end
  end.

Context `{!JSON, !Marshaler Trace} {W : Type} (write : string → W → option error * W).

(** [encoder.Encode(trace)]: the encoded value and a newline in one write. *)
Definition encode_trace (trace : Trace) (w : W) : option error * W :=
  match json_Marshal trace with
  | inl err => (Some err, w)
  | inr encoded => write (encoded +:+ newline) w
  end.
Fixpoint encode_traces (traces : list Trace) (w : W) : option error * W :=
  match traces with
  | [] => (None, w)
  | trace :: rest =>
      let '(err, w) := encode_trace trace w in
      iferr err as err yield (Some err, w);;
      encode_traces rest w
  end.

Definition sim_flags : FlagSet := flags [("scenario", FString "")].

(** The exit status of [run], and the output. *)
Definition sim_run (args : list string) (w : W) : Z * W :=
  match flag_Parse args sim_flags with
  | inl _ => (2, w)
  | inr (set, _) =>
      match LoadScenario (flag_string set "scenario") with
      | inl _ => (1, w)
      | inr scenario =>
          match Run (NormFloat64 (sn_Seed scenario)) scenario with
          | inr _ => (1, w)
          | inl result =>
              let '(err, w) := encode_traces (sr_Traces result) w in
              iferr err as _ yield (1, w);;
              iferr Verify scenario result as _ yield (1, w);;
              (0, w)
          end
      end
  end.

(** A file that holds a scenario: read to its end without error, within the
    limit, one JSON value and nothing else, and valid. *)
Definition holds_scenario (path : string) (s : Scenario) : Prop :=
  ∃ file rest, os_Open path = inr file ∧ sm_Error file = None
    ∧ Z.of_nat (String.length (sm_Bytes file)) ≤ maximumScenarioBytes
    ∧ decode_first (sm_Bytes file) = inr (s, rest) ∧ ensureJSONEOF rest = None ∧ Scenario_Validate s = None.

Lemma ReadLimited_within limit s payload :
  0 ≤ limit →
  ReadLimited (Z.to_nat (limit + 1)) (mkResponse 0 (sm_Bytes s) (sm_Error s)) = inr payload
    ∧ Z.of_nat (String.length payload) ≤ limit
  ↔ payload = sm_Bytes s ∧ sm_Error s = None ∧ Z.of_nat (String.length (sm_Bytes s)) ≤ limit.
Proof.
  intros Hpos. split.
  - intros [Hr Hl]. destruct (ReadLimited_whole _ _ _ Hr) as [Hb He]; simpl in *; [lia|]. by subst.
  - intros (-> & He & Hl). split; [|done]. unfold ReadLimited. simpl. rewrite He. f_equal. apply substring_short. lia.
Qed.

(** A scenario is loaded exactly from a file that holds one. *)
Theorem LoadScenario_spec path s : LoadScenario path = inr s ↔ path ≠ "" ∧ holds_scenario path s.
Proof.
  unfold LoadScenario, holds_scenario. case_bool_decide as Hp; [naive_solver|].
  destruct (os_Open path) as [err|file]; [naive_solver|].
  pose proof (fun payload => ReadLimited_within maximumScenarioBytes file payload ltac:(done)) as Hread.
  destruct (ReadLimited _ _) as [err|data].
  { split; [done|]. intros (_ & f & rest & [= <-] & He & Hl & _). by destruct (proj2 (Hread (sm_Bytes file)) ltac:(done)). }
  destruct (Z.ltb_spec maximumScenarioBytes (Z.of_nat (String.length data))) as [Hlong|Hshort].
  { split; [done|]. intros (_ & f & rest & [= <-] & He & Hl & _).
    destruct (proj2 (Hread (sm_Bytes file)) ltac:(done)) as [[= ->] _]. lia. }
  destruct (proj1 (Hread data) (conj eq_refl Hshort)) as (-> & He & Hl).
  destruct (decode_first (sm_Bytes file)) as [err|[s' rest]] eqn:Hd; [naive_solver congruence|].
  destruct (ensureJSONEOF rest) as [err|] eqn:Hr; [naive_solver congruence|].
  destruct (Scenario_Validate s') as [err|] eqn:Hv; [naive_solver congruence|].
  split; [intros [= <-]; split; [done|]; by exists file, rest|]. naive_solver congruence.
Qed.

(** What a loaded scenario expects happened in the run. *)
Definition expectations_met (s : Scenario) (ts : list Trace) : Prop :=
  (∀ code, code ∈ ex_AlarmCodes (sn_Expected s) → ∃ t, t ∈ ts ∧ code ∈ tc_AlarmCodes t)
  ∧ (∀ x, x ∈ ex_SafeTransitions (sn_Expected s) → ∃ t, t ∈ ts ∧ x ∈ tc_SafeTransitions t).

Lemma all_observed_None what expected observed :
  all_observed what expected observed = None ↔ ∀ x, x ∈ expected → x ∈ observed.
Proof.
  induction expected as [|e l IH]; simpl; [split; [intros _ x Hx; by apply elem_of_nil in Hx|done]|].
  case_bool_decide as He; simpl; [rewrite IH|]; set_solver.
Qed.
Lemma elem_of_joined {A} (f : A → list string) (ts : list A) x : x ∈ mjoin (f <$> ts) ↔ ∃ t, t ∈ ts ∧ x ∈ f t.
Proof. rewrite list_elem_of_join. setoid_rewrite list_elem_of_fmap. naive_solver. Qed.
Lemma Verify_None s result : Verify s result = None ↔ expectations_met s (sr_Traces result).
Proof.
  unfold Verify, expectations_met. setoid_rewrite <- elem_of_joined.
  rewrite <- (all_observed_None "expected alarm was not observed"),
    <- (all_observed_None "expected safe transition was not observed").
  destruct (all_observed "expected alarm was not observed" _ _); naive_solver.
Qed.

(** A loaded scenario always runs. *)
Lemma loaded_runs draws path s : LoadScenario path = inr s → ∃ result, Run draws s = inl result.
Proof. intros [_ (file & rest & _ & _ & _ & _ & _ & Hv)]%LoadScenario_spec. unfold Run. rewrite Hv. eauto. Qed.

(** The program ends with status 0 exactly when its flags parse, the named file
    holds a scenario, every step of its run was written out and everything that
    the scenario expects happened; the run has one line for each step of the
    scenario. *)
Theorem sim_succeeds_iff args w :
  (sim_run args w).1 = 0 ↔
  ∃ set rest s result, flag_Parse args sim_flags = inr (set, rest) ∧ flag_string set "scenario" ≠ ""
    ∧ holds_scenario (flag_string set "scenario") s ∧ Run (NormFloat64 (sn_Seed s)) s = inl result
    ∧ (encode_traces (sr_Traces result) w).1 = None ∧ expectations_met s (sr_Traces result)
    ∧ Z.of_nat (length (sr_Traces result)) = sn_Steps s.
Proof.
  unfold sim_run. split.
  - destruct (flag_Parse args sim_flags) as [|[set rest]]; [done|]. destruct (LoadScenario _) as [|s] eqn:Hl; [done|].
    destruct (Run _ s) as [result|] eqn:Hr; [|done]. destruct (encode_traces _ w) as [[err|] w'] eqn:He; [done|].
    destruct (Verify s result) eqn:Hv; [done|]. intros _. apply Verify_None in Hv. apply LoadScenario_spec in Hl as [Hp Hl].
    exists set, rest, s, result. rewrite He. split_and!; try done. apply (simulation_is_fail_safe _ _ _ Hr).
  - intros (set & rest & s & result & -> & Hp & Hl & Hr & He & Hv & _).
    rewrite (proj2 (LoadScenario_spec _ _) (conj Hp Hl)), Hr. destruct (encode_traces _ w) as [[err|] w']; [done|].
    apply Verify_None in Hv. by rewrite Hv.
Qed.
End program.
