(* ===== verification/Witnesses.v ===== *)
(** * Concrete instances

    The hypotheses of the theorems hold together: each theorem with hypotheses
    is applied here to a small concrete system, with every boundary
    instantiated by a concrete function. *)

From Stdlib Require Import ZArith Lia String Ascii SpecFloat.
From stdpp Require Import base gmap strings list sorting.
From S2P Require Import Prelude Domain Health Lifecycle Events Bus State.
From S2P Require Devices Sensors EquipmentRegistry Equipment.
From S2P Require Import Safety Watchdogs Accounting Output Commands.
From S2P Require Alarms AlarmLifecycle AlarmTiming Evaluator.
From S2P Require Import System.

(** ** Boundaries *)
#[local] Instance any_JSON : JSON := {| json_Valid := fun _ => true |}.
#[local] Instance any_Marshaler A : Marshaler A :=
  {| json_Marshal := fun _ => inr "{}"; json_Marshal_valid := fun _ _ _ => eq_refl |}.

(** A publisher that accepts every event and one that rejects every event. *)
#[local] Instance accepting : Publisher unit := {| Publish := fun _ _ w => (None, w) |}.
Inductive Closed := mkClosed.
#[local] Instance rejecting : Publisher Closed := {| Publish := fun _ _ w => (Some ErrClosed, w) |}.

(** An executor that accepts every command. *)
#[local] Instance obedient : Executor unit :=
  {| Dispatch := fun _ _ x => ((mkAcknowledgement true "" 0, None), x) |}.

Definition id1 : string := "00000000-0000-4000-8000-000000000001".
Definition id2 : string := "00000000-0000-4000-8000-000000000002".
Definition id3 : string := "00000000-0000-4000-8000-000000000003".
Definition id4 : string := "00000000-0000-4000-8000-000000000004".

Definition env1 : FactoryEnv := mkFactoryEnv 1 (id4, None).

(** ** Domain, events, bus and lifecycle *)
Lemma newUUID_canonical_witness :
  validateUUID (newUUID (inr (replicate 16 7))).1 = None.
Proof.
  pose proof (newUUID_canonical (replicate 16 7) eq_refl) as Hw.
  apply Hw. apply Forall_forall. intros x [-> _]%elem_of_replicate. unfold is_byte. lia.
Defined.

Definition event1 : Event := mkEvent 1 "test" "state.changed" SeverityInfo "{}" id1.
Definition handlers (h : nat) (e : Event) (w : list nat) : option error * list nat := (None, w ++ [h]).
Definition bus1 : Bus := (Subscribe "state.changed" (Some 7%nat) (NewBus [])).1.

Lemma Bus_Publish_delivers_all_witness :
  Bus_Publish (invoke_eff handlers) Background event1 (bus1, []) = (None, (bus1, [7%nat])).
Proof.
  rewrite (Bus_Publish_delivers_all handlers Background event1 bus1 []).
  - vm_compute. reflexivity.
  - reflexivity.
  - reflexivity.
  - vm_compute. reflexivity.
  - vm_compute. lia.
Defined.

Lemma Bus_Publish_refusals_witness :
  ∃ err, Bus_Publish (invoke_eff handlers) Background event1 (Bus_Stop bus1, []) = (Some err, (Bus_Stop bus1, []))
    ∧ err = ErrClosed.
Proof.
  destruct (Bus_Publish_refusals (invoke_eff handlers) Background event1 (Bus_Stop bus1) []) as (err & H1 & H2 & _).
  - by left.
  - exists err. split; [exact H1|]. apply H2. reflexivity.
Defined.

Lemma Lifecycle_Start_all_or_nothing_witness :
  lc_log (Lifecycle_Start (fun _ => "c") (fun c => if decide (c = 2%nat) then Some (ErrNew "e") else None)
    (fun _ => None) (fun _ => None) (NewConfigured [1; 2; 3]%nat)).1
  = [Started 1; Started 2; Stopped 1]%nat.
Proof.
  destruct (Lifecycle_Start_all_or_nothing (fun _ => "c")
    (fun c => if decide (c = 2%nat) then Some (ErrNew "e") else None) (fun _ => None) (fun _ => None)
    (NewConfigured [1; 2; 3]%nat)) as [[_ H]|_].
  - reflexivity.
  - exfalso. simpl in H. rewrite !Forall_cons in H. destruct H as (_ & H & _). discriminate H.
  - vm_compute. reflexivity.
Defined.

(** ** Canonical state *)
Definition key1 : Key := mkKey EntitySensor id1 PlaneObservation "wet".
Definition value1 : StateValue := mkStateValue key1 (NewBooleanValue true) QualityGood 10 11 100 id2 0.
Definition state0 : StateManager := (StateManager_Start Background NewStateManager).1.
Definition state1 : StateManager := (StateManager_Subscribe Background 12 2 state0).1.
Definition state2 : StateManager :=
  (StateManager_Set env1 Background 12 (fun _ => 0%nat) value1 state1 (Some tt)).1.1.

Lemma state_reachable_ok_witness : manager_ok state2.
Proof.
  apply (state_reachable_ok (W := unit)).
  eapply rtc_l; [apply (step_start (W := unit) Background)|].
  eapply rtc_l; [apply (step_subscribe (W := unit) Background 12 2); vm_compute; split; [discriminate|reflexivity]|].
  eapply rtc_l; [apply (step_set env1 Background 12 (fun _ => 0%nat) value1 _ (Some tt))|].
  apply rtc_refl.
Defined.

Lemma state1_ok : manager_ok state1.
Proof.
  apply Subscribe_ok; [simpl; lia..|].
  unfold state0. by destruct NewStateManager_ok.
Qed.

Lemma Set_commits_witness :
  m_revision state2 = 1 ∧ ∃ c u, m_channels state2 !! 1 = Some c ∧ last (ch_buffer c) = Some u
    ∧ u_Snapshot u = snapshotLocked 12 state2.
Proof.
  pose proof (Set_commits env1 Background 12 (fun _ => 0%nat) value1 state1 (Some tt)) as H.
  specialize (H state1_ok eq_refl ltac:(vm_compute; reflexivity)).
  unfold state2. destruct (StateManager_Set _ _ _ _ _ _ _) as [[m' w'] [stored err]] eqn:E.
  destruct H as (Hr & _ & _ & Hs). split.
  - simpl. rewrite Hr. vm_compute. reflexivity.
  - destruct (Hs 1) as (c & u & Hc & Hl & Hu & _).
    + vm_compute. reflexivity.
    + by exists c, u.
Defined.

Lemma Set_Get_witness :
  StateManager_Get Background 50 key1 state2 = (freshen 50 (set_revision (m_revision state2) value1), None).
Proof.
  unfold state2. rewrite Set_Get.
  - rewrite decide_True by reflexivity. reflexivity.
  - reflexivity.
  - reflexivity.
  - vm_compute. reflexivity.
Defined.

Lemma state2_ok : manager_ok state2.
Proof. unfold state2. rewrite Set_manager. case_decide as Hd; [|apply state1_ok]. destruct Hd. apply set_locked_ok; [apply state1_ok|done]. Qed.

Lemma Snapshot_order_independent_witness :
  (freshen 50 ∘ clone) <$> values (m_values state2) = snap_Values (snapshotLocked 50 state2).
Proof.
  apply Snapshot_order_independent.
  - apply state2_ok.
  - reflexivity.
  - vm_compute. repeat constructor.
Defined.

(** ** Registries *)
#[local] Existing Instance Devices.Registry_EndpointLookup.
Definition device1 : Device := mkDevice id1 "controller" [CapabilityObserve; CapabilitySwitch] None.
Definition endpoint1 : Endpoint := mkEndpoint id2 id1 "port" [CapabilityObserve].
Definition devices1 : Devices.Registry :=
  (Devices.Register env1 Background (id4, None) device1 Devices.NewRegistry (Some tt)).1.1.
Definition devices2 : Devices.Registry :=
  (Devices.RegisterEndpoint Background (id4, None) endpoint1 devices1).1.

Lemma device_ownership_witness : Devices.registry_ok devices2 ∧ Devices.r_endpoints devices2 !! id2 = Some endpoint1.
Proof.
  split; [|vm_compute; reflexivity].
  apply (Devices.device_ownership (W := unit)).
  eapply rtc_l; [apply (Devices.step_register env1 Background (id4, None) device1 _ (Some tt))|].
  eapply rtc_l; [apply (Devices.step_register_endpoint (W := unit) Background (id4, None) endpoint1)|].
  apply rtc_refl.
Defined.

Definition sensor1 : Sensor :=
  mkSensor id3 id1 id2 "probe" QuantityTemperature UnitCelsius [CapabilityObserve] None.
Definition sensors0 : Sensors.SensorRegistry := Sensors.NewSensorRegistry.

Lemma sensors0_ok : Sensors.sensors_ok devices2 sensors0.
Proof. split; intros ? ? Hl; cbn in Hl; by rewrite lookup_empty in Hl. Qed.

Lemma sensor_registry_ownership_witness :
  Sensors.sensors_ok devices2
    (Sensors.SensorRegistry_Register env1 Background (id4, None) (Some devices2) sensor1 sensors0 (Some tt)).1.1
  ∧ Sensors.sr_sensors (Sensors.SensorRegistry_Register env1 Background (id4, None) (Some devices2) sensor1 sensors0
      (Some tt)).1.1 !! id3 = Some sensor1.
Proof.
  split; [|vm_compute; reflexivity].
  exact (proj1 (Sensors.sensor_registry_ownership env1 Background (id4, None) devices2 sensor1 id3 sensors0 (Some tt)
    sensors0_ok)).
Defined.

Definition switch1 : Equipment := mkEquipment id3 id1 id2 "relay" [CapabilitySwitch] None.
Definition devices3 : Devices.Registry :=
  (Devices.RegisterEndpoint Background (id4, None) (mkEndpoint id2 id1 "port" [CapabilitySwitch]) devices1).1.
Definition equipment0 : EquipmentRegistry.EquipmentRegistry := EquipmentRegistry.NewEquipmentRegistry.

Lemma equipment0_ok : EquipmentRegistry.equipments_ok devices3 equipment0.
Proof. split; intros ? ? Hl; cbn in Hl; by rewrite lookup_empty in Hl. Qed.

Lemma equipment_registry_ownership_witness :
  EquipmentRegistry.equipments_ok devices3
    (EquipmentRegistry.EquipmentRegistry_Register env1 Background (id4, None) (Some devices3) switch1 equipment0 (Some tt)).1.1
  ∧ EquipmentRegistry.er_equipment (EquipmentRegistry.EquipmentRegistry_Register env1 Background (id4, None)
      (Some devices3) switch1 equipment0 (Some tt)).1.1 !! id3 = Some switch1.
Proof.
  split; [|vm_compute; reflexivity].
  exact (proj1 (EquipmentRegistry.equipment_registry_ownership env1 Background (id4, None) devices3 switch1 id3
    equipment0 (Some tt) equipment0_ok)).
Defined.

(** ** Equipment *)
Lemma commanded_on_witness :
  ∃ before acks, [Equipment.TransitionReportedOff; Equipment.TransitionCommandOn; Equipment.TransitionAcknowledgedOn]
    = before ++ Equipment.TransitionCommandOn :: acks ∧ acks ≠ [].
Proof.
  destruct (Equipment.commanded_on_is_acknowledged_and_reported
    [Equipment.TransitionReportedOff; Equipment.TransitionCommandOn; Equipment.TransitionAcknowledgedOn]
    (Equipment.mkMachine Equipment.StateStarting true) Equipment.TransitionReportedOn
    (Equipment.mkMachine Equipment.StateOn false)) as (_ & before & acks & Heq & Hne & _).
  - apply (Equipment.h_step [Equipment.TransitionReportedOff; Equipment.TransitionCommandOn]
      (Equipment.mkMachine Equipment.StateStarting false)); [|reflexivity].
    apply (Equipment.h_step [Equipment.TransitionReportedOff] (Equipment.mkMachine Equipment.StateOff false)); [|reflexivity].
    apply (Equipment.h_step [] Equipment.NewMachine); [apply Equipment.h_new|reflexivity].
  - reflexivity.
  - reflexivity.
  - reflexivity.
  - by exists before, acks.
Defined.

Definition required1 : Equipment.InputRequirement := Equipment.mkInputRequirement key1 (Some true).
Definition heater1 : Equipment.Profile :=
  Equipment.mkProfile id3 Equipment.KindHeater true false
    [CapabilitySwitch; CapabilityCommandAcknowledgement; CapabilityReportedState]
    (Equipment.mkLimits 1000 5000 10) [required1].

Lemma Profile_Validate_safe_witness :
  Equipment.p_FailSafeOn heater1 = false ∧ Equipment.p_RequiredInputs heater1 ≠ [].
Proof.
  destruct (Equipment.Profile_Validate_safe heater1) as (H1 & H2 & _).
  - vm_compute. reflexivity.
  - split; [by apply H1|]. apply H2. by left.
Defined.

(** ** Safety engine *)
Definition engine0 : Engine := mkEngine ModeNormal {[ id3 := heater1 ]} ∅ ∅ false.
Definition engine1 : Engine := (RecordReported Background id3 true 1000 engine0).1.
Definition reader1 : StateManager * Time := (state2, 50).
Definition intent1 : Intent := mkIntent id3 true 20.

Lemma Evaluate_on_iff_witness :
  ∃ p, e_profiles engine0 !! id3 = Some p ∧ Forall (input_satisfied Background reader1) (Equipment.p_RequiredInputs p).
Proof.
  pose proof (proj1 (Evaluate_on_iff Background 50 reader1 intent1 engine0 allow eq_refl eq_refl)) as H.
  destruct H as (p & Hp & Hc & _).
  - split; vm_compute; reflexivity.
  - exists p. split; [exact Hp|]. apply Hc. vm_compute in Hp. injection Hp as <-. reflexivity.
Defined.

Lemma hard_denial_witness :
  ∃ d, (Evaluate Background 50 (NewStateManager, 50) intent1
      (with_policy ModeManual {[ id3 := mkOverride id1 id3 "op" "test" 1 1000 ]} engine0)).2 = (d, None)
    ∧ d_Allowed d = false ∧ d_HardLimit d = true.
Proof.
  destruct (hard_denial_ignores_overrides Background 50 (NewStateManager, 50) intent1 engine0
    (deny_hard ReasonInputMissing) ModeManual {[ id3 := mkOverride id1 id3 "op" "test" 1 1000 ]})
    as (d & H1 & H2 & H3 & _).
  - reflexivity.
  - vm_compute. reflexivity.
  - reflexivity.
  - reflexivity.
  - discriminate.
  - by exists d.
Defined.

Lemma engine_reachable_ok_witness : engine_ok engine1.
Proof.
  apply (engine_reachable_ok (R := StateManager * Time) true [heater1] engine0).
  - vm_compute. reflexivity.
  - eapply rtc_l; [apply (es_report (R := StateManager * Time) Background id3 true 1000)|]. apply rtc_refl.
Defined.

Lemma engine1_ok : engine_ok engine1.
Proof.
  apply (engine_step_ok (R := StateManager * Time) engine0); [apply (es_report Background id3 true 1000)|].
  apply (NewEngine_ok true [heater1]). vm_compute. reflexivity.
Qed.

Lemma range1 : range_order (e_overrides engine1) [] ∧ range_order (e_profiles engine1) [id3].
Proof. split; vm_compute; [constructor|]. reflexivity. Qed.

Lemma CheckWatchdogs_deterministic_witness :
  (CheckWatchdogs Background 3000 [] [id3] engine1).2.1 ≡ₚ [mkWatchdogAction id3 false ReasonMaximumOn 3000].
Proof.
  destruct (CheckWatchdogs_deterministic Background 3000 engine1 engine1_ok eq_refl [] [id3]
    (proj1 range1) (proj2 range1) [] [id3] (proj1 range1) (proj2 range1)) as (_ & _ & _ & _ & _ & _ & Hp).
  rewrite Hp. vm_compute. reflexivity.
Defined.

Lemma watchdog_trips_exactly_witness :
  id3 ∈ wa_EquipmentID <$> (CheckWatchdogs Background 3000 [] [id3] engine1).2.1.
Proof.
  apply (watchdog_trips_exactly Background 3000 engine1 engine1_ok eq_refl [] [id3]
    (proj1 range1) (proj2 range1) id3 heater1); [vm_compute; reflexivity|].
  split; [vm_compute; reflexivity|]. split; [vm_compute; reflexivity|].
  right. left. split; vm_compute; [reflexivity|discriminate].
Defined.

Definition day0 : list (Time * observation) :=
  [(10, Reported true); (50, Polled [] [id3]); (70, Evaluated true); (100, Reported false)].

Lemma daily_accounting_exact_witness :
  rt_dailyOn (account (runtime_of id3 (foldl (engine_observe reader1 id3) engine0 day0)) 200) = 90.
Proof.
  destruct (daily_accounting_exact reader1 id3 0 5 day0 200 engine0) as [H _].
  - vm_compute. by eexists.
  - reflexivity.
  - discriminate.
  - lia.
  - reflexivity.
  - vm_compute. repeat split; discriminate.
  - rewrite H. reflexivity.
Defined.

Lemma evaluation_on_another_date_witness :
  rt_dailyOn (account (runtime_of id3
    (Evaluate Background 200 reader1 (mkIntent id3 false (nanos_per_day + 5))
       (foldl (engine_observe reader1 id3) engine0 day0)).1) 200) = 0.
Proof.
  apply (evaluation_on_another_date_erases_total Background 200 reader1 (mkIntent id3 false (nanos_per_day + 5))).
  - reflexivity.
  - vm_compute. by eexists.
  - discriminate.
  - vm_compute. discriminate.
Defined.

(** ** Command service *)
Definition clock50 (_ : nat) : Time := 50.
Definition fresh4 (_ : nat) : string * option error := (id4, None).
Definition factory1 (_ : nat) : FactoryEnv := env1.
Definition policy1 : SafetyPolicy := mkSafetyPolicy engine0 state2 50 (fun m => (map_to_list m).*1).

Abbreviation service W := (@Service SafetyPolicy (StateManager * Time) (Recording unit) W).
Abbreviation submit := (Submit clock50 fresh4 fresh4 factory1 Background).

Definition service0 : service unit :=
  mkService ∅ ∅ policy1 (state2, 50) (mkRecording tt []) (Some tt) false 0.
Definition command1 : Command := mkCommand id1 "key-1" id2 id3 "operator" 20 100 None true.
Definition command2 : Command := mkCommand id1 "key-2" id2 id3 "operator" 20 100 None false.
Definition service1 : service unit := (submit command1 service0).2.
Definition exec1 : service_op → service unit → service unit := (service_exec clock50 fresh4 fresh4 factory1 Background).

Lemma service_reachable_ok_witness :
  service_ok service1 ∧ r_Status <$> sv_results service1 !! id1 = Some StatusAcknowledged.
Proof.
  split; [|vm_compute; reflexivity].
  apply (service_reachable_ok clock50 fresh4 fresh4 factory1 true policy1 (state2, 50) (mkRecording tt []) (Some tt) service0).
  - reflexivity.
  - eapply rtc_l; [apply (service_step_exec _ _ _ _ Background (OpSubmit command1))|]. apply rtc_refl.
Defined.

Lemma at_most_one_dispatch_per_key_witness :
  NoDup (c_IdempotencyKey <$> dispatched (exec1 (OpSubmit command1) service1)) ∧ dispatched service1 = [command1].
Proof.
  split; [|vm_compute; reflexivity].
  apply (at_most_one_dispatch_per_key clock50 fresh4 fresh4 factory1 true policy1 (state2, 50) tt (Some tt) service0).
  - reflexivity.
  - eapply rtc_l; [apply (service_step_exec _ _ _ _ Background (OpSubmit command1))|].
    eapply rtc_l; [apply (service_step_exec _ _ _ _ Background (OpSubmit command1))|]. apply rtc_refl.
Defined.

Lemma success_only_by_reconciliation_witness :
  ∃ old, sv_results service1 !! id1 = Some old ∧ r_Status old = StatusAcknowledged.
Proof.
  destruct (success_only_by_reconciliation clock50 fresh4 fresh4 factory1 Background (OpReconcile id1 true 60) service1 id1
    (mkResult command1 StatusSucceeded ReasonReconciled 50 (Some 50) (Some 60)))
    as [H|(on & at_ & old & p & _ & _ & H1 & H2 & _)].
  - vm_compute. reflexivity.
  - reflexivity.
  - vm_compute in H. discriminate H.
  - exists old. split; [exact H1|exact H2].
Defined.

Lemma Submit_replay_witness : (submit command1 service1).2 = service1.
Proof.
  destruct (Submit_replay clock50 fresh4 fresh4 factory1 Background command1 service0 service1
    (submit command1 service0).1.1 (submit command1 service0).1.2) as (_ & H & _).
  - reflexivity.
  - vm_compute. reflexivity.
  - reflexivity.
  - unfold service1. by destruct (submit command1 service0) as [[r err] s].
  - vm_compute. discriminate.
  - rewrite H. reflexivity.
Defined.

Lemma reused_command_id_witness :
  (submit command1 (submit command2 service1).2).1 = (zero_Result, Some ErrConflict).
Proof.
  rewrite (reused_command_id_breaks_replay clock50 fresh4 fresh4 factory1 Background command1 command2 service1
    (submit command2 service1).2 (submit command2 service1).1.1 (submit command2 service1).1.2).
  - reflexivity.
  - reflexivity.
  - vm_compute. reflexivity.
  - vm_compute. reflexivity.
  - reflexivity.
  - discriminate.
  - vm_compute. reflexivity.
  - vm_compute. reflexivity.
  - by destruct (submit command2 service1) as [[r err] s].
  - vm_compute. discriminate.
Defined.

Definition service_closed : service Closed :=
  mkService ∅ ∅ policy1 (state2, 50) (mkRecording tt []) (Some mkClosed) false 0.

Definition policy2 : SafetyPolicy := (policy_Evaluate Background (mkIntent id3 true 20) policy1).2.

Lemma allowed1 : policy_Evaluate Background (mkIntent id3 true 20) policy1 = ((allow, None), policy2).
Proof.
  assert ((policy_Evaluate Background (mkIntent id3 true 20) policy1).1 = (allow, None)) as Hd
    by (vm_compute; reflexivity).
  unfold policy2. destruct (policy_Evaluate _ _ _) as [r p]. simpl in *. by rewrite Hd.
Qed.

Lemma command1_valid : validateCommand command1 = None.
Proof. vm_compute. reflexivity. Qed.

Lemma publish_failure_witness :
  ∃ r e s1, submit command1 service_closed = ((r, Some e), s1) ∧ r_Status r = StatusValidated
    ∧ sv_executor s1 = mkRecording tt [] ∧ submit command1 s1 = ((r, None), s1).
Proof.
  exact (publish_failure_strands_command clock50 fresh4 fresh4 factory1 Background command1 service_closed
    allow policy2 eq_refl command1_valid eq_refl eq_refl ltac:(reflexivity) allowed1 eq_refl
    ltac:(by eexists) (fun event w => mk_is_Some _ ErrClosed eq_refl)).
Defined.

(** Two submissions of one command whose checks both run before either is
    recorded are both dispatched: the idempotency key is looked up and recorded
    in separate critical sections. *)
Lemma interleaved_submissions_dispatch_twice :
  Submit_check fresh4 fresh4 Background command1 service0 = (inl command1, service0)
  ∧ let s1 := (Submit_proceed clock50 factory1 Background command1 service0).2 in
    let s2 := (Submit_proceed clock50 factory1 Background command1 s1).2 in
    dispatched s2 = [command1; command1].
Proof.
  split; [|vm_compute; reflexivity].
  rewrite valid_check; [reflexivity|reflexivity|]. vm_compute. reflexivity.
Qed.

(** ** Alarms *)
Definition rule1 : Alarms.Rule :=
  Alarms.mkRule id1 "sensor.high" "high" (Alarms.mkSubject "sensor" id2) SeverityWarning 10 20 false.
Definition rule_latching : Alarms.Rule :=
  Alarms.mkRule id1 "sensor.high" "high" (Alarms.mkSubject "sensor" id2) SeverityWarning 10 20 true.
Definition alarms0 : @Alarms.AlarmManager unit := Alarms.NewManagerWithDependencies (Some tt) 4.
Definition alarms1 : @Alarms.AlarmManager unit := (Alarms.RegisterRule Background rule1 alarms0).1.
Definition alarms_latching : @Alarms.AlarmManager unit := (Alarms.RegisterRule Background rule_latching alarms0).1.
Definition oenv (id : string) : Alarms.ObserveEnv := Alarms.mkObserveEnv 5 (id4, None) (id, None) env1.
Definition obs (active : bool) (t : Time) : Alarms.Observation :=
  Alarms.mkObservation id1 active SeverityWarning t (Alarms.mkEvidence "e" "m" None) id4.
Definition observe (id : string) (active : bool) (t : Time) (m : @Alarms.AlarmManager unit) :=
  (Alarms.Observe (oenv id) Background (obs active t) m).1.
Definition alarms2 := observe id2 true 10 alarms1.
Definition alarms3 := observe id3 true 25 alarms2.

Lemma alarms_reachable_ok_witness :
  AlarmLifecycle.alarms_ok alarms3 ∧ Alarms.al_FirstObserved <$> Alarms.am_alarms alarms3 !! id3 = Some 10.
Proof.
  split; [|vm_compute; reflexivity].
  apply (AlarmLifecycle.alarms_reachable_ok (Some tt) 4).
  eapply rtc_l; [apply (AlarmLifecycle.ast_register Background rule1)|].
  eapply rtc_l; [apply (AlarmLifecycle.ast_observe (oenv id2) Background (obs true 10));
    [vm_compute; reflexivity|intros ? [= <-]; split; [discriminate|vm_compute; reflexivity]]|].
  eapply rtc_l; [apply (AlarmLifecycle.ast_observe (oenv id3) Background (obs true 25));
    [vm_compute; reflexivity|intros ? [= <-]; split; [discriminate|vm_compute; reflexivity]]|].
  apply rtc_refl.
Defined.

Definition run1 : list (Alarms.ObserveEnv * Alarms.Observation) :=
  [(oenv id1, obs true 10); (oenv id2, obs true 25); (oenv id3, obs false 30); (oenv id4, obs false 60)].

Lemma alarms1_ok : AlarmLifecycle.alarms_ok alarms1 ∧ AlarmLifecycle.alarms_ok alarms_latching.
Proof. split; apply AlarmLifecycle.RegisterRule_ok, AlarmLifecycle.NewManager_ok. Qed.

Ltac concrete_run :=
  repeat match goal with
  | |- _ ∧ _ => split
  | |- True => exact I
  | |- ∃ nid, _ = (nid, None) ∧ _ => eexists; split; [reflexivity|]
  | |- _ ≠ "" => discriminate
  | _ => vm_compute; reflexivity
  end.

Lemma timing_refinement_witness :
  AlarmTiming.transition_edge <$> (AlarmTiming.observe_run Background run1 alarms1).2
  = [None; Some AlarmTiming.Rise; None; Some AlarmTiming.Fall].
Proof.
  rewrite (AlarmTiming.timing_refinement Background eq_refl id1 alarms1 rule1 run1).
  - vm_compute. reflexivity.
  - apply alarms1_ok.
  - vm_compute. reflexivity.
  - cbn [AlarmTiming.run_ok run1]. concrete_run.
Defined.

Lemma latching_never_clears_witness :
  Alarms.TransitionCleared ∉ (AlarmTiming.observe_run Background run1 alarms_latching).2.
Proof.
  apply (AlarmTiming.latching_never_clears_by_observation Background eq_refl id1 alarms_latching
    (Alarms.mkRuleState rule_latching None None 0 "") (AlarmTiming.Quiet []) run1 0).
  - apply alarms1_ok.
  - vm_compute. reflexivity.
  - reflexivity.
  - simpl. lia.
  - lia.
  - cbn [AlarmTiming.run_ok run1]. concrete_run.
  - split; [reflexivity|by left].
Defined.

Lemma duplicate_observation_ignored_witness :
  ∃ a, Alarms.Observe (oenv id4) Background (obs true 25) alarms3
    = (alarms3, (a, Alarms.TransitionIgnoredStale, None)).
Proof.
  apply (AlarmLifecycle.duplicate_observation_ignored (oenv id3) (oenv id4) Background (obs true 25) alarms2).
  - reflexivity.
  - discriminate.
  - discriminate.
  - vm_compute. by eexists.
Defined.

Definition alarm3 : Alarms.Alarm := Alarms.alarm_at id3 alarms3.

Lemma operator_never_hides_witness :
  (Alarms.Clear 70 env1 Background id3 alarms3).2 = (Alarms.zero_Alarm, Some Alarms.ErrConditionActive).
Proof.
  rewrite (proj1 (AlarmLifecycle.operator_never_hides_a_condition 70 env1 Background id3 alarms3 alarm3
    ltac:(vm_compute; reflexivity) ltac:(vm_compute; reflexivity))).
  reflexivity.
Defined.

(** ** Threshold evaluator *)
#[local] Instance fixed_digest : Evaluator.SHA256.
Proof.
  refine {| Evaluator.Sum256 := fun _ => replicate 32 7 |}.
  - intros _. reflexivity.
  - intros _. apply Forall_replicate. unfold is_byte. lia.
Defined.
#[local] Instance one_value : Evaluator.Unmarshaler := {| Evaluator.json_Unmarshal := fun _ => inr value1 |}.
#[local] Instance open_bus : Evaluator.EventSubscriber unit :=
  {| Evaluator.bus_Subscribe := fun _ b => ((0%nat, None), b); Evaluator.bus_Unsubscribe := fun _ b => b |}.

Definition threshold1 : Evaluator.ThresholdRule :=
  Evaluator.mkThresholdRule "r" "wet" id1 "true" (F64 0) None SeverityWarning 10 20 false (F64 1) (F64 0).
Definition evaluator0 : @Evaluator.Evaluator unit unit :=
  Evaluator.mkEvaluator tt alarms0 {[ id1 := [threshold1] ]} None false.
Definition evaluator1 := (Evaluator.Evaluator_Start Background [id1] evaluator0).1.

Lemma Evaluator_Start_witness :
  Evaluator.ev_started evaluator1 = true.
Proof.
  pose proof (Evaluator.Evaluator_Start_registers_all Background [id1] tt alarms0 [threshold1] evaluator0 0 tt) as H.
  unfold evaluator1. destruct (Evaluator.Evaluator_Start _ _ _) as [e' err].
  destruct H as (_ & Hs & _).
  - vm_compute. reflexivity.
  - reflexivity.
  - vm_compute. repeat constructor. set_solver.
  - intros t Ht. vm_compute. reflexivity.
  - reflexivity.
  - exact Hs.
Defined.

Lemma Evaluator_restart_fails_witness :
  Evaluator.ev_started (Evaluator.Evaluator_Start Background [id1] (Evaluator.Evaluator_Stop Background evaluator1).1).1
  = false.
Proof.
  destruct (Evaluator.Evaluator_restart_fails Background Background [id1] [id1] evaluator0 evaluator1)
    as (e'' & err & He & _ & Hs).
  - unfold evaluator1. vm_compute. reflexivity.
  - reflexivity.
  - discriminate.
  - done.
  - rewrite He. exact Hs.
Defined.

(** ** The assembled core *)
Lemma dispatched_on_command_is_safe_witness :
  ∃ p, e_profiles engine0 !! id3 = Some p ∧ Forall (input_held state2 50) (Equipment.p_RequiredInputs p).
Proof.
  destruct (dispatched_on_command_is_safe clock50 fresh4 fresh4 factory1 Background command1 service0 command1)
    as (p & k & Hp & _ & _ & _ & _ & _ & Hin & _).
  - vm_compute. left.
  - vm_compute. intros H. inversion H.
  - reflexivity.
  - exists p. split; [exact Hp|]. apply Hin. vm_compute in Hp. injection Hp as <-. reflexivity.
Defined.

(** Distinct command IDs for the first 256 readings. *)
Definition cid (k : nat) : string :=
  string_of_list_ascii (uuid_text (stamp_uuid ((Z.of_nat k mod 256) :: replicate 15 0))).

Lemma cid_bytes k : length ((Z.of_nat k mod 256) :: replicate 15 0) = 16%nat
  ∧ Forall is_byte ((Z.of_nat k mod 256) :: replicate 15 0).
Proof.
  split; [reflexivity|]. constructor.
  - unfold is_byte. apply Z.mod_pos_bound. lia.
  - apply Forall_replicate. unfold is_byte. lia.
Qed.

Lemma cid_valid k : validateUUID (cid k) = None.
Proof. apply uuid_text_valid; apply cid_bytes. Qed.

Lemma cid_inj j k : (j < 256)%nat → (k < 256)%nat → cid j = cid k → j = k.
Proof.
  intros Hj Hk Heq. apply (f_equal bytes_of) in Heq. unfold cid in Heq. rewrite !bytes_of_string_of in Heq.
  apply (f_equal (hex_DecodeString ∘ strip_dashes)) in Heq. simpl in Heq.
  pose proof (uuid_text_decodes _ (proj1 (cid_bytes j)) (proj2 (cid_bytes j))) as Ej.
  pose proof (uuid_text_decodes _ (proj1 (cid_bytes k)) (proj2 (cid_bytes k))) as Ek.
  assert (stamp_uuid ((Z.of_nat j mod 256) :: replicate 15 0) = stamp_uuid ((Z.of_nat k mod 256) :: replicate 15 0))
    as Hs by (apply (inj Some); rewrite <- Ej, <- Ek; exact Heq).
  apply (f_equal (fun l => default 0 (head l))) in Hs. cbn in Hs. rewrite !Z.mod_small in Hs by lia. lia.
Qed.

Definition cids (k : nat) : string * option error := (cid k, None).
Definition policy3 : SafetyPolicy := mkSafetyPolicy engine1 state2 3000 (fun m => (map_to_list m).*1).
Definition service3 : service unit :=
  mkService ∅ ∅ policy3 (state2, 50) (mkRecording tt []) (Some tt) false 0.

Lemma engine1_profiles : e_profiles engine1 = {[ id3 := heater1 ]}.
Proof. reflexivity. Qed.

Lemma marshals1 : ∀ r : Result, result_dates r → ∃ text, json_Marshal r = inr text.
Proof. intros r _. by exists "{}". Qed.

Lemma watchdog_shutdowns_witness :
  ∃ cmds, dispatched (RunWatchdogs clock50 cids cids factory1 Background 60 service3).2 = cmds
    ∧ id3 ∈ c_EquipmentID <$> cmds.
Proof.
  pose proof (watchdog_shutdowns_reach_executor (X := unit) (W := unit) clock50 cids cids factory1 Background eq_refl
    marshals1 (fun _ _ => conj (Z.le_refl 0) eq_refl) (fun k => ltac:(discriminate)) (fun event w _ => eq_refl) cid cid
    (fun k => conj eq_refl (cid_valid k)) (fun k => conj eq_refl (cid_valid k)) 60 ltac:(lia) 3000 ltac:(lia)
    ltac:(vm_compute; split; [discriminate|reflexivity]) service3 engine1_ok) as H.
  destruct (RunWatchdogs clock50 cids cids factory1 Background 60 service3) as [[rs err] s'].
  destruct H as (_ & cmds & Hd & _ & Hin).
  - intros m. reflexivity.
  - reflexivity.
  - intros id p. cbn [service3 sv_policy policy3 sp_engine]. rewrite engine1_profiles, lookup_singleton_Some.
    intros [_ <-]. reflexivity.
  - split.
    + intros k _. apply lookup_empty.
    + intros j k Hj Hk. cbn [service3 sv_policy policy3 sp_engine sv_tick] in Hj, Hk.
      rewrite engine1_profiles, map_size_singleton in Hj, Hk. apply cid_inj; lia.
  - intros k _. unfold clock50. lia.
  - exists cmds. split; [exact Hd|]. apply (Hin id3 heater1).
    + vm_compute. reflexivity.
    + vm_compute. reflexivity.
    + vm_compute. reflexivity.
    + right. left. split; vm_compute; [reflexivity|discriminate].
Defined.

Definition service4 : service Closed :=
  mkService ∅ ∅ policy3 (state2, 50) (mkRecording tt []) (Some mkClosed) false 0.

Lemma lost_watchdog_action_witness :
  dispatched (RunWatchdogs clock50 cids cids factory1 Background 60 service4).2 = [].
Proof.
  apply (rejected_publication_loses_watchdog_action clock50 cids cids factory1 Background 60 service4
    (mkWatchdogAction id3 false ReasonMaximumOn 3000)).
  - exact engine1_ok.
  - intros m. reflexivity.
  - lia.
  - by eexists.
  - intros event w. by eexists.
  - vm_compute. left.
Defined.
