(* ===== verification/ConcurrencyWitnesses.v ===== *)
(** * Schedules of the command service

    Concrete schedules of [Concurrency]: one on which the theorems apply, and
    one on which two submissions under one key are both dispatched. *)

From Stdlib Require Import ZArith Lia String.
From stdpp Require Import base gmap strings list sorting.
From S2P Require Import Prelude Domain Health Events State Safety Output Commands System Concurrency Witnesses.

#[local] Instance any_JSON : JSON := {| json_Valid := fun _ => true |}.
#[local] Instance any_Marshaler A : Marshaler A :=
  {| json_Marshal := fun _ => inr "{}"; json_Marshal_valid := fun _ _ _ => eq_refl |}.
#[local] Instance accepting : Publisher unit := {| Publish := fun _ _ w => (None, w) |}.
#[local] Instance obedient : Executor unit :=
  {| Dispatch := fun _ _ x => ((mkAcknowledgement true "" 0, None), x) |}.

(** A new service over the safety engine of [Witnesses]. *)
Definition quiet : @Service SafetyPolicy (StateManager * Time) (Recording unit) unit :=
  mkService ∅ ∅ policy1 (state2, 50) (mkRecording tt []) (Some tt) false 0.
Abbreviation play50 := (play clock50 fresh4 fresh4 factory1).

(** Opposite requests of two operators under one key. *)
Definition switch_on : Command := mkCommand id1 "key-1" id2 id3 "operator" 20 100 None true.
Definition switch_off : Command := mkCommand id4 "key-1" id2 id3 "visitor" 20 100 None false.

(** Both calls look the key up before either records it. *)
Definition race : list (Move (K := Pending)) :=
  [Begin Background (Submitting switch_on); Begin Background (Submitting switch_off); Advance 0; Advance 1]%nat
  ++ replicate 14 (Advance 0) ++ replicate 14 (Advance 1).

(** The two calls, one after the other. *)
Definition in_turn : list (Move (K := Pending)) :=
  (Begin Background (Submitting switch_on) :: replicate 15 (Advance 0))
  ++ Begin Background (Submitting switch_off) :: replicate 15 (Advance 1).

(** Two concurrent submissions under one idempotency key are both dispatched,
    and both are answered without an error, although one after the other the
    second would be refused as a conflict. *)
Example concurrent_submissions_dispatch_twice :
  rtc (sys_step clock50 fresh4 fresh4 factory1 (fun _ _ => True) anyone) (begun quiet) (play50 race (begun quiet))
  ∧ dispatched (sy_service (play50 race (begun quiet))) = [switch_on; switch_off]
  ∧ c_IdempotencyKey switch_on = c_IdempotencyKey switch_off
  ∧ (∃ r1 r2, (sy_calls (play50 race (begun quiet))).*2 = [Returned (r1, None); Returned (r2, None)])
  ∧ dispatched (sy_service (play50 in_turn (begun quiet))) = [switch_on]
  ∧ (∃ r1, (sy_calls (play50 in_turn (begun quiet))).*2
           = [Returned (r1, None); Returned (zero_Result, Some ErrConflict)]).
Proof.
  split_and!; [apply play_reaches, anyone_keeps_to|vm_compute; reflexivity..| | |].
  - eexists _, _. vm_compute. reflexivity.
  - vm_compute. reflexivity.
  - eexists. vm_compute. reflexivity.
Qed.

Lemma concurrent_dispatch_is_cleared_witness :
  dispatched (sy_service (play50 race (begun quiet))) = [switch_on; switch_off]
  ∧ ∃ ctx, cleared clock50 ctx switch_off (sy_past (play50 race (begun quiet))).
Proof.
  split; [vm_compute; reflexivity|].
  apply (concurrent_dispatch_is_cleared clock50 fresh4 fresh4 factory1 (fun _ _ => True) anyone true policy1 (state2, 50) tt (Some tt) quiet).
  - reflexivity.
  - apply play_reaches, anyone_keeps_to.
  - vm_compute. right. left.
Defined.

Lemma serialized_keys_dispatch_once_witness :
  dispatched (sy_service (play50 in_turn (begun quiet))) = [switch_on]
  ∧ NoDup (c_IdempotencyKey <$> dispatched (sy_service (play50 in_turn (begun quiet)))).
Proof.
  split; [vm_compute; reflexivity|].
  apply (serialized_keys_dispatch_once clock50 fresh4 fresh4 factory1 (fun _ _ => True) true policy1 (state2, 50) tt (Some tt) quiet).
  - reflexivity.
  - apply play_reaches. cbn [in_turn replicate app keeps_to]. repeat split; intros key _ Hin; vm_compute in Hin; inversion Hin.
Defined.
