(* ===== verification/IntegrationWitnesses.v ===== *)
(** * Concrete instances: transport, storage and simulation

    The theorems on MQTT, storage and the simulator, applied to small concrete
    systems. *)

From Stdlib Require Import ZArith Lia String Ascii SpecFloat.
From stdpp Require Import base gmap strings list sorting.
From S2P Require Import Prelude Domain Health Events State.
From S2P Require Import Safety Output Commands System Witnesses.
From S2P Require Import Topics Envelope MqttClient MqttRouter.
From S2P Require Alarms Evaluator Storage Simulator.

#[local] Instance any_JSON : JSON := {| json_Valid := fun _ => true |}.
#[local] Instance any_Marshaler A : Marshaler A :=
  {| json_Marshal := fun _ => inr "{}"; json_Marshal_valid := fun _ _ _ => eq_refl |}.
#[local] Instance accepting : Publisher unit := {| Publish := fun _ _ w => (None, w) |}.
#[local] Instance obedient : Executor unit :=
  {| Dispatch := fun _ _ x => ((mkAcknowledgement true "" 0, None), x) |}.

(** ** Topics *)
Definition topics1 : TopicRegistry := mkTopicRegistry "reef".

Lemma contracts_have_distinct_topics_witness :
  contract_id (ByPurpose PurposeAvailability "core") = contract_id (ByPurpose PurposeAvailability "other").
Proof.
  eapply (contracts_have_distinct_topics topics1 _ _ "aquaos/reef/v1/system/core/availability");
    vm_compute; reflexivity.
Defined.

Lemma filter_matches_exactly_witness :
  filter_matches (splitTopic "aquaos/reef/v1/commands/+/request") (splitTopic "aquaos/reef/v1/commands/heater/request")
  = true.
Proof.
  apply (filter_matches_exactly topics1 PurposeCommandRequest "aquaos/reef/v1/commands/+/request" 1
    (ByPurpose PurposeCommandRequest "heater") "aquaos/reef/v1/commands/heater/request"
    (mkTopicPolicy PurposeCommandRequest 1 false)); vm_compute; reflexivity.
Defined.

(** ** Envelopes *)

(** A decoder for which the payload is the message ID, and one that decodes
    every command to the same. *)
Definition envelope_of (id : string) : Envelope :=
  mkEnvelope "1.0" id id2 "bridge" "reef" 10 (Some 100) None "{}".
#[local] Instance by_id : FirstDecoder Envelope := {| decode_first := fun id => inr (envelope_of id, "") |}.
#[local] Instance one_command : FirstDecoder Command := {| decode_first := fun _ => inr (command1, "") |}.
#[local] Instance at_end : ExtraDecoder := {| decode_extra := fun _ => Some EOF |}.

Definition codec1 : Codec := mkCodec "reef" 4096 (mkCodecMetrics 0 0 0 0 0 0).
Definition consumer1 : Consumer := mkConsumer codec1 2 ∅ [].

Lemma Encode_Decode_roundtrip_witness :
  Decode 60 "{}" codec1 = ((envelope_of "{}", None), count Decoded codec1).
Proof.
  apply (Encode_Decode_roundtrip 50 60 codec1 "{}" "bridge" id2 10 (Some 100) None tt "{}" "{}").
  - reflexivity.
  - vm_compute. intros text [= <-]. reflexivity.
  - reflexivity.
  - vm_compute. reflexivity.
  - intros t [= <-]. lia.
Defined.

Lemma consumer1_ok : consumer_ok consumer1.
Proof. split; simpl; [constructor|set_solver|lia|lia]. Qed.

Lemma duplicates_suppressed_witness :
  NoDup (consume_run [(50, "m1", fun (_ : Envelope) (n : nat) => (None, S n));
                      (51, "m1", fun _ n => (None, S n))] consumer1 0%nat).
Proof.
  apply duplicates_suppressed_within_window.
  - apply consumer1_ok.
  - vm_compute. discriminate.
Defined.

(** A message whose first handling fails is handed out again; a redelivery
    while it is handled is not. *)
Definition envelope1 : Envelope := envelope_of "m1".
Definition begun1 : (error + Envelope) * Consumer := Consume_begin 50 "m1" consumer1.
Definition failed1 : Consumer :=
  Consume_end envelope1 (Some (ErrNew "")) (Consume_begin 51 "m1" begun1.2).2.
Definition again1 : (error + Envelope) * Consumer := Consume_begin 52 "m1" failed1.

Lemma redeliveries_are_separated_witness :
  begun1.1 = inr envelope1 ∧ (Consume_begin 51 "m1" begun1.2).1 = inl ErrDuplicateMessage ∧ again1.1 = inr envelope1
  ∧ (Failed (en_MessageID envelope1) ∈ [Failed (en_MessageID envelope1)] ∨ 2 ≤ Z.of_nat (handed [Failed (en_MessageID envelope1)])).
Proof.
  split; [vm_compute; reflexivity|]. split; [vm_compute; reflexivity|]. split; [vm_compute; reflexivity|].
  refine (proj1 (redeliveries_are_separated codec1 2 consumer1
    (mkInbox again1.2 [envelope1]
       [Handed (en_MessageID envelope1); Failed (en_MessageID envelope1); Handed (en_MessageID envelope1)]) _ _) [] _ [Failed (en_MessageID envelope1)] [] eq_refl).
  - vm_compute. reflexivity.
  - eapply rtc_l; [apply (is_handed _ 50 "m1" envelope1 begun1.2); vm_compute; reflexivity|].
    eapply rtc_l; [apply (is_refused _ 51 "m1" ErrDuplicateMessage (Consume_begin 51 "m1" begun1.2).2); vm_compute; reflexivity|].
    eapply rtc_l; [apply (is_returned _ [] envelope1 [] (Some (ErrNew ""))); reflexivity|].
    eapply rtc_l; [apply (is_handed _ 52 "m1" envelope1 again1.2); vm_compute; reflexivity|].
    apply rtc_refl.
Defined.

(** ** The client *)
#[local] Instance link : Broker bool := {|
  IsConnected := fun up => up;
  broker_Connect := fun _ _ => (None, true);
  broker_Disconnect := fun _ => false;
  broker_Publish := fun _ _ _ _ _ up => (None, up);
  broker_Subscribe := fun _ _ _ _ up => (None, up)
|}.

Definition client0 : @Client (Logged bool) := newClient (mkLogged false []) topics1 codec1 4096 8.
Definition client1 : @Client (Logged bool) :=
  (PublishPublication clock50 Background
     (mkPublication "aquaos/reef/v1/events/wet" 1 false "{}" (Some 100)) client0).2.

Lemma home_assistant_subscription_refused_witness :
  ∃ err, Client_Subscribe Background "aquaos/reef/v1/home-assistant/+/set" 1 (Some 3%nat) client0 = (Some err, client0).
Proof.
  apply home_assistant_subscription_refused.
  - vm_compute. reflexivity.
  - vm_compute. reflexivity.
Defined.

(** A client that holds one publication: a flush takes the first, the
    connection is lost, the second takes its place, and the flush puts the
    first back. *)
Definition small : @Client (Logged bool) := newClient (mkLogged false []) topics1 codec1 4096 1.
Definition notice (topic : string) : Publication := mkPublication topic 1 false "{}" (Some 100).
Definition first_notice : Publication := notice "aquaos/reef/v1/events/wet".
Definition second_notice : Publication := notice "aquaos/reef/v1/events/dry".
Definition overtaken : @Client (Logged bool) :=
  (flush_step clock50 Background (PuttingBack first_notice ErrDisconnected)
     (enqueue second_notice (flush_step clock50 Background (Holding first_notice)
        (flush_step clock50 Background Taking (enqueue first_notice small).2).2).2).2).2.

Lemma offline_queue_bounded_witness :
  cl_queue overtaken = [first_notice; second_notice] ∧ cl_QueueCapacity overtaken = 1
  ∧ Z.of_nat (length (cl_queue overtaken)) ≤ 1 + 1.
Proof.
  split; [vm_compute; reflexivity|]. split; [reflexivity|].
  apply (offline_queue_bounded clock50 (mkLogged false []) topics1 codec1 4096 1
    (mkTraffic overtaken (Flushed (Some ErrDisconnected)) [first_notice; second_notice] [])); [lia|].
  eapply rtc_l; [apply (ts_enqueued clock50 _ first_notice); reflexivity|].
  eapply rtc_l; [eapply (ts_begins clock50); reflexivity|].
  eapply rtc_l; [apply (ts_flushes clock50 _ Background); reflexivity|].
  eapply rtc_l; [apply (ts_flushes clock50 _ Background); reflexivity|].
  eapply rtc_l; [apply (ts_enqueued clock50 _ second_notice); reflexivity|].
  eapply rtc_l; [apply (ts_flushes clock50 _ Background); reflexivity|].
  apply rtc_refl.
Defined.

(** ** The router *)
#[local] Instance drop_results : PublicationPublisher unit :=
  {| router_PublishPublication := fun _ _ q => (None, q) |}.
#[local] Existing Instance Service_Submitter.

Definition submitter := Service_Submitter (P := SafetyPolicy) (V := StateManager * Time) (X := unit) (W := unit)
  clock50 fresh4 fresh4 factory1.
#[local] Existing Instance submitter.

Definition router0 : @CommandRouter (service unit) unit := mkCommandRouter consumer1 codec1 topics1 service0 tt.
Definition henv : HandleEnv := mkHandleEnv 50 51 52.
Definition router1 : @CommandRouter (service unit) unit := (Handle henv Background "heater" "m1" router0).2.

Lemma Handle_submits_message_command_witness :
  dispatched (cr_commands router1) = [command1]
  ∧ ∃ c, message_command henv "m1" router0 c
      ∧ cr_commands router1 = (router_Submit Background c (cr_commands router0)).2.
Proof.
  assert (dispatched (cr_commands router1) = [command1]) as Hd by (vm_compute; reflexivity).
  split; [exact Hd|].
  destruct (Handle_submits_message_command henv Background "heater" "m1" router0 consumer1_ok) as [_ [Hs|Hs]].
  - exfalso. fold router1 in Hs. rewrite Hs in Hd. discriminate Hd.
  - exact Hs.
Defined.

(** ** The exporter *)
Definition alarm1 : Alarms.Alarm := Alarms.alarm_at id3 alarms3.
#[local] Instance one_alarm : AlarmUnmarshaler := {| json_UnmarshalAlarm := fun _ => inr alarm1 |}.
#[local] Instance no_value : Evaluator.Unmarshaler := {| Evaluator.json_Unmarshal := fun _ => inl (ErrNew "") |}.
Definition exporter1 : @EventExporter (@Client bool) :=
  mkEventExporter (newClient true topics1 codec1 4096 8) topics1 codec1.

Lemma digit_first_alarm_witness :
  Exporter_Handle 50 Background (mkEvent 1 "alarms" AlarmRaised SeverityInfo "{}" id1) exporter1 = (None, exporter1).
Proof.
  apply (digit_first_alarm_never_exported 50 Background _ exporter1 alarm1).
  - reflexivity.
  - reflexivity.
  - eexists _, _. split; [vm_compute; reflexivity|vm_compute; reflexivity].
Defined.

(** ** Storage *)
#[local] Instance reliable : Storage.StorageClient unit := {| Storage.client_Write := fun _ c => (None, c) |}.
Definition storage_config : Storage.StorageConfig := Storage.mkStorageConfig 4 2 10 1 8 5.
Definition point1 : Storage.Point :=
  Storage.mkPoint "temperature" ∅ {[ "value" := Storage.FloatField (F64 25) ]} 10.

Lemma storage_keeps_order_witness :
  ∃ w0 : @Storage.Writer (Storage.Stored unit),
    Storage.New storage_config (Some (Storage.mkStored tt [])) true = inl w0
    ∧ let '(w, accepted) := Storage.run_storage
        [Storage.ActStart Background; Storage.ActEnqueue point1; Storage.ActEnqueue point1;
         Storage.ActTurn Storage.TurnReceive; Storage.ActTurn Storage.TurnReceive;
         Storage.ActTurn Storage.TurnWaited] w0 in
      Storage.stored w ++ Storage.batch_of w ++ Storage.w_queue w = accepted ∧ Storage.stored w = [point1; point1].
Proof.
  eexists. split; [vm_compute; reflexivity|].
  set (w0 := Storage.mkWriter _ _ _ _ _ _ _ _ _ _ _).
  pose proof (Storage.storage_keeps_order storage_config tt true
    [Storage.ActStart Background; Storage.ActEnqueue point1; Storage.ActEnqueue point1;
     Storage.ActTurn Storage.TurnReceive; Storage.ActTurn Storage.TurnReceive;
     Storage.ActTurn Storage.TurnWaited] w0 eq_refl) as H.
  destruct (Storage.run_storage _ w0) as [w accepted] eqn:E. destruct H as (_ & H & _). split.
  - apply H. repeat (constructor; [intros [Hx|Hx]; discriminate Hx|]). constructor.
  - vm_compute in E. injection E as <- _. reflexivity.
Defined.

(** ** The simulator *)
Definition model1 : Simulator.ModelConfig :=
  Simulator.mkModelConfig (F64 25) (F64 22) (F64 80) (F64 24) (F64 27) (F64 70) (F64 90) (F64 0) (F64 1) (F64 0)
    (F64 5) 60000000000.
Definition scenario1 : Simulator.Scenario :=
  Simulator.mkScenario 1 "leak" 7 1000 60000000000 2 model1
    [Simulator.mkFault 1 0 Simulator.FaultLeak (F64 0)] (Simulator.mkExpectations ["sim.alarm.leak"] []).
Definition result1 : Simulator.SimulationResult :=
  match Simulator.Run (fun _ => F64 0) scenario1 with
  | inl r => r
  | inr _ => Simulator.mkSimulationResult "" 0 []
  end.

Lemma simulation_is_fail_safe_witness :
  length (Simulator.sr_Traces result1) = 2%nat
  ∧ ∃ t, Simulator.sr_Traces result1 !! 1%nat = Some t
      ∧ Simulator.tc_Desired t = Simulator.zero_EquipmentState.
Proof.
  destruct (Simulator.simulation_is_fail_safe (fun _ => F64 0) scenario1 result1) as [Hlen Hall];
    [vm_compute; reflexivity|].
  split; [vm_compute; reflexivity|].
  destruct (Simulator.sr_Traces result1 !! 1%nat) as [t|] eqn:Ht; [|vm_compute in Ht; discriminate Ht].
  exists t. split; [reflexivity|]. destruct (Hall 1%nat t Ht) as [Hok _].
  apply (Simulator.to_leak _ _ _ _ Hok). vm_compute in Ht. injection Ht as <-. reflexivity.
Defined.
