(* ===== verification/ConfigWitnesses.v ===== *)
(** * Concrete instances: configuration and composition

    The theorems on configuration, applied to a snapshot with one heater on a
    Shelly channel and one ESP32 node with two probes, and those on the path
    from a measurement to an alarm's subscribers. *)

From Stdlib Require Import ZArith Lia String Ascii SpecFloat.
From stdpp Require Import base gmap strings list pretty.
From S2P Require Import Prelude Domain Health Events State Safety Topics.
From S2P Require Devices Sensors EquipmentRegistry Equipment Alarms Evaluator.
From S2P Require Import Config ConfigValidation ConfigManager Container Witnesses.

#[local] Instance any_JSON : JSON := {| json_Valid := fun _ => true |}.
#[local] Instance any_Marshaler A : Marshaler A :=
  {| json_Marshal := fun _ => inr "{}"; json_Marshal_valid := fun _ _ _ => eq_refl |}.
#[local] Instance accepting : Publisher unit := {| Publish := fun _ _ w => (None, w) |}.

(** Parsers that know one address and one URL, and ranges in source order. *)
#[local] Instance urls : URLParser := {| url_Parse := fun _ => Some (mkURL "http" "192.168.1.2" false "" "") |}.
#[local] Instance addresses : NetParser := {|
  SplitHost := fun s => if bool_decide (s = "localhost:8080") then Some "localhost" else None;
  LoopbackIP := fun _ => false
|}.
#[local] Instance in_order : MapRange := {| map_range := fun _ l => l; map_range_perm := fun _ _ => Permutation_refl _ |}.
#[local] Instance digests : Digester := {| sha256_hex := fun s => s |}.
Definition text (e : error) : string := "".

(** ** A snapshot *)
Definition heater : ShellyEndpoint :=
  mkShellyEndpoint id1 id2 id3 "http://192.168.1.2" 0 Second Second 2 false "off" "heater" Hour (Some [id3; id4]).
Definition node : ESP32Endpoint :=
  mkESP32Endpoint id3 id4 id1 "http://192.168.1.3" "token" (Some [id3; id4]) Second Second Minute Second (F64 1).
Definition probe : SensorConfig :=
  mkSensorConfig "probe" id3 "node" "celsius" None None "Probe" "temperature" zero_Calibration.
Definition rule : AlarmRule :=
  mkAlarmRule "too-warm" "Too warm" "probe" "above" (F64 28) None "critical" Second Second true (Some ["log"]).

Definition snapshot (equipment : list EquipmentConfig) (rules : list AlarmRule) : Config :=
  mkConfig CurrentSchemaVersion (cf_Application Defaults) (cf_HTTP Defaults) (cf_MQTT Defaults) false
    (mkAdapters true (Some [heater]) true (Some [node])) (mkBench true true) (cf_Storage Defaults)
    (mkInventory (Some [mkDeviceConfig "node" id4 "Node" "" "" "" "" None]) (Some [probe]) (Some equipment))
    (Some rules) (cf_Backups Defaults).

Definition outlet : EquipmentConfig :=
  mkEquipmentConfig "heater" id2 "node" "Heater" "outlet" (Some shelly_capabilities) false false 0 0 0 None
    (mkCommissioning "" false false false false "" zero_Timestamp).

Lemma snapshot_ok equipment rules :
  Config_Validate text (snapshot equipment rules) = None → config_ok (snapshot equipment rules).
Proof. apply Config_Validate_iff. Qed.

(** ** Reloading *)

(** A loader that always answers the same snapshot and a setter that keeps the
    level. *)
#[local] Instance constant : Loader Config := {| loader_Load := fun _ c => (inr c, c) |}.
#[local] Instance level : LogLevelSetter string := {| SetLogLevel := fun s _ => s |}.

Definition manager (next : Config) : ConfigManager (L := Config) (W := unit) (V := string) :=
  NewConfigManager (snapshot [] [rule]) (Some (Config_Clone next)) None (Some "info").

Definition quieter : Config :=
  let c := snapshot [] [rule] in
  let a := cf_Application c in
  mkConfig (cf_SchemaVersion c)
    (mkApplication "warn" (ap_StartupTimeout a) (ap_ShutdownTimeout a) (ap_ComponentTimeout a) (ap_EventConcurrency a))
    (cf_HTTP c) (cf_MQTT c) (cf_SimulatorEnabled c) (cf_Adapters c) (cf_Bench c) (cf_Storage c) (cf_Inventory c)
    (cf_AlarmRules c) (cf_Backups c).

Lemma Reload_atomic_witness :
  cg_levels (Reload text env1 Background (manager quieter)).2 = Some "warn"
  ∧ cg_current (Reload text env1 Background (manager quieter)).2 = Config_Clone quieter.
Proof.
  destruct (Reload text env1 Background (manager quieter)) as [err m'] eqn:Hr.
  assert (err = None) as -> by (apply (f_equal fst) in Hr; vm_compute in Hr; congruence).
  pose proof (Reload_atomic text env1 Background (manager quieter) None m') as Hw.
  destruct Hw as (loader & loader' & next & Hl & Hload & _ & _ & Hcur & _ & Hlevel).
  - vm_compute. reflexivity.
  - exact Hr.
  - injection Hl as <-. injection Hload as <- <-.
    destruct Hlevel as (v & _ & Hlevels); [vm_compute; discriminate|]. split; [exact Hlevels|exact Hcur].
Defined.

Lemma Reload_misses_changes_witness :
  let next := with_unplanned 1 None (mkBackup true "/var/backups" 30) (Current (manager quieter)) in
  ∃ m', Reload text env1 Background (manager next) = (None, m') ∧ cf_AlarmRules (Current m') = None
    ∧ cf_Backups (Current m') = mkBackup true "/var/backups" 30 ∧ ap_EventConcurrency (cf_Application (Current m')) = 1
    ∧ cg_levels m' = Some "info".
Proof.
  intros next.
  apply (Reload_misses_changes text env1 Background (manager next) (Config_Clone next) (Config_Clone next) 1 None (mkBackup true "/var/backups" 30) "{}");
    vm_compute; reflexivity.
Defined.

(** ** Heaters *)
#[local] Instance good_reader : StateReader unit :=
  {| reader_Get := fun _ key _ => (mkStateValue key (NewBooleanValue true) QualityGood 10 11 100 id3 1, None) |}.

Definition engine_of (c : Config) : Engine :=
  match NewEngine true (configured_profiles c) with inl e => e | inr _ => mkEngine ModeEmergencyStop ∅ ∅ ∅ false end.
Definition heat : Intent := mkIntent id2 true 20.

Lemma configured_heater_guarded_witness :
  ∃ p q, p ≠ q ∧ p ∈ [id3; id4] ∧ q ∈ [id3; id4] ∧ sv_Quality (reader_Get Background (probe_key p) tt).1 = QualityGood.
Proof.
  destruct (configured_heater_guarded (snapshot [] [rule]) (engine_of (snapshot [] [rule]))
    (engine_of (snapshot [] [rule])) heater Background 20 tt heat (mkDecision true ReasonAllowed false ""))
    as (p & q & Hpq & Hp & Hq & Hgood & _).
  - apply snapshot_ok. vm_compute. reflexivity.
  - reflexivity.
  - left.
  - reflexivity.
  - vm_compute. reflexivity.
  - vm_compute. reflexivity.
  - apply rtc_refl.
  - reflexivity.
  - reflexivity.
  - reflexivity.
  - vm_compute. reflexivity.
  - reflexivity.
  - exists p, q. apply Forall_cons in Hgood as [(v & Hv & Hquality) _]. rewrite Hv.
    split; [exact Hpq|]. split; [exact Hp|]. split; [exact Hq|exact Hquality].
Defined.

Lemma inventory_kind_disarms_heater_witness :
  (Evaluate Background 20 tt heat (engine_of (snapshot [outlet] [rule]))).2 = (mkDecision true ReasonAllowed false "", None).
Proof.
  apply (inventory_kind_disarms_heater (snapshot [outlet] [rule]) heater outlet);
    [apply snapshot_ok; vm_compute; reflexivity|reflexivity|left|..]; vm_compute; reflexivity.
Defined.

(** ** Rules and inventory *)
#[local] Instance fixed_digest : Evaluator.SHA256.
Proof.
  refine {| Evaluator.Sum256 := fun _ => replicate 32 7 |}.
  - intros s. by rewrite length_replicate.
  - intros s. apply Forall_forall. intros x [-> _]%elem_of_replicate. unfold is_byte. lia.
Defined.
#[local] Instance one_value : Evaluator.Unmarshaler :=
  {| Evaluator.json_Unmarshal := fun _ => inr (mkStateValue key1 (NewBooleanValue true) QualityGood 10 11 100 id2 0) |}.
#[local] Instance open_bus : Evaluator.EventSubscriber unit :=
  {| Evaluator.bus_Subscribe := fun _ b => ((0%nat, None), b); Evaluator.bus_Unsubscribe := fun _ b => b |}.

Lemma configured_rules_accepted_witness :
  ∃ rules, configuredThresholdRules (snapshot [] [rule]) = inr rules ∧ Evaluator.tr_ID <$> rules = ["too-warm"].
Proof.
  destruct (configured_rules_accepted (snapshot [] [rule]) tt alarms0) as (rules & e & Hrules & Hids & _).
  - apply snapshot_ok. vm_compute. reflexivity.
  - exists rules. split; [exact Hrules|exact Hids].
Defined.

Lemma validated_inventory_registers_witness :
  (registerAdapterInventory (fun _ => env1) (fun _ => ("", None)) Background (snapshot [] [rule])
     (empty_registries (Some tt))).1 = None.
Proof.
  pose proof (validated_inventory_registers (fun _ => env1) (fun _ => ("", None)) Background) as Hw.
  specialize (Hw eq_refl (fun _ => True) ltac:(intros n d [[]|]; by split) ltac:(intros n s [[]|]; by split)
    ltac:(intros n q [[]|]; by split) _ (snapshot [] [rule]) (Some tt)).
  destruct (registerAdapterInventory _ _ _ _ _) as [err t]. apply Hw.
  - apply snapshot_ok. vm_compute. reflexivity.
  - exact I.
  - apply NoDup_cons. split; [vm_compute|apply NoDup_singleton].
    intros Hin%list_elem_of_singleton. discriminate Hin.
Defined.

(** ** From a measurement to an alarm's subscribers

    A leak detector reports water. One subscriber listens to raised alarms and
    one, beside the evaluator, to changes; each notes what it was told. *)

From S2P Require Import Bus Alarms Evaluator AlarmPath.

Definition water : StateValue :=
  mkStateValue (mkKey EntitySensor id1 PlaneObservation "measurement") (NewBooleanValue true) QualityGood 10 11 100 id2 0.
Definition recorded : StateValue := (set_locked 12 (fun _ => 0%nat) water NewStateManager).1.
#[local] Instance the_value : Unmarshaler := {| json_Unmarshal := fun _ => inr recorded |}.

Definition noting (h : nat) (event : Event) (w : list (nat * EventType)) : option error * list (nat * EventType) :=
  (None, w ++ [(h, ev_EventType event)]).
Abbreviation World := (list (nat * EventType)).

(** The detector has three rules: one that the reading does not concern, the
    leak itself, and one more that the reading concerns. *)
Definition threshold_of (name condition : string) : ThresholdRule :=
  mkThresholdRule name name id1 condition (F64 0) None SeverityCritical 0 0 true (F64 1) (F64 0).
Definition dry : ThresholdRule := threshold_of "dry" "false".
Definition leak : ThresholdRule := threshold_of "leak" "true".
Definition flood : ThresholdRule := threshold_of "flood" "true".
#[local] Instance by_length : SHA256.
Proof.
  refine {| Sum256 := fun s => replicate 32 (Z.of_nat (String.length s) mod 256) |}.
  - intros s. reflexivity.
  - intros s. apply Forall_replicate. pose proof (Z.mod_pos_bound (Z.of_nat (String.length s)) 256 eq_refl). split; lia.
Defined.
Definition quiet_state (rule : ThresholdRule) : ruleState := mkRuleState (threshold_rule rule) None None 0 "".
Definition listener : @Evaluator unit (Bus * World) :=
  mkEvaluator tt
    (foldr (fun r => put_rule (thresholdRuleID (tr_ID r)) (quiet_state r)) (NewManagerWithDependencies None 16)
       [dry; leak; flood])
    {[id1 := [dry; leak; flood]]} (Some 2%nat) true.

Definition bus_of (capacity : Z) : Bus :=
  (Subscribe StateChanged (Some 0%nat)
    (Subscribe StateChanged (Some 2%nat) (Subscribe AlarmRaised (Some 1%nat) (NewBus [capacity])).1).1).1.
Definition envs1 (n : nat) : ObserveEnv := mkObserveEnv 20 (id4, None) (if (n =? 1)%nat then id3 else id2, None) env1.
Definition change : Event := (Factory_New 1 (id4, None) "state" StateChanged SeverityInfo recorded "").1.

Abbreviation after_water b :=
  (StateManager_Set (Publisher0 := outer noting 0%nat envs1) env1 Background 12 (fun _ => 0%nat) water NewStateManager
     (Some (b, (listener, [] : World)))).

Lemma bus_listening capacity :
  listening 0%nat (bus_of capacity) [1%nat] [] 2%nat (mkSubscription StateChanged 0 true).
Proof.
  unfold bus_of, NewBus. split; vm_compute; try reflexivity; try (constructor; [discriminate|constructor]).
Qed.

Definition noted : World := [(2%nat, StateChanged)].
Definition past_dry (b : Bus) : @AlarmManager (Bus * World) :=
  default (NewManagerWithDependencies None 16)
    (fst <$> handle_rules (Publisher0 := within noting) envs1 Background change recorded [dry]
       (put_publisher (Some (set_slots 1 b, noted)) (ev_engine listener))).

Lemma water_breach capacity :
  breach (B := unit) envs1 Background recorded [dry] leak [flood] id3 (quiet_state leak) change listener
    (past_dry (bus_of capacity)).
Proof.
  split; try (vm_compute; reflexivity); try discriminate.
  - left. reflexivity.
  - left. reflexivity.
  - split; [reflexivity|discriminate].
  - exists (threshold_evidence leak). split; [vm_compute; reflexivity|]. exists "{}". reflexivity.
Qed.

Lemma breach_reaches_alarm_subscribers_witness :
  (let '(_, publisher, (_, err)) := after_water (bus_of 2) in
   err = None
   ∧ ((fun st => st.2.2) <$> publisher) = Some [(2%nat, StateChanged); (1%nat, AlarmRaised); (1%nat, AlarmRaised)])
  ∧ ∃ m' alarm_event, raised leak id3 m' alarm_event (W := World).
Proof.
  split; [vm_compute; split; reflexivity|].
  pose proof (breach_reaches_alarm_subscribers (B := unit) noting 0%nat envs1 env1 Background 12 (fun _ => 0%nat) water
    NewStateManager (bus_of 2) listener [] change [dry] leak [flood] id3 (quiet_state leak) [1%nat] [] 2%nat
    (mkSubscription StateChanged 0 true) [] noted (past_dry (bus_of 2)) eq_refl eq_refl (bus_listening 2)
    ltac:(vm_compute; lia) eq_refl ltac:(vm_compute; reflexivity) (water_breach 2)) as Hw.
  destruct (StateManager_Set _ _ _ _ _ _ _) as [[m' publisher] [v' err]].
  destruct Hw as (alarm_event & m2 & _ & _ & _ & _ & Hr & _). exists m2, alarm_event. exact Hr.
Defined.

(** An event concurrency of one is valid. *)
Definition narrow : Config :=
  let c := snapshot [] [rule] in
  let a := cf_Application c in
  mkConfig (cf_SchemaVersion c)
    (mkApplication (ap_LogLevel a) (ap_StartupTimeout a) (ap_ShutdownTimeout a) (ap_ComponentTimeout a) 1)
    (cf_HTTP c) (cf_MQTT c) (cf_SimulatorEnabled c) (cf_Adapters c) (cf_Bench c) (cf_Storage c) (cf_Inventory c)
    (cf_AlarmRules c) (cf_Backups c).

Lemma last_slot_silences_alarm_witness :
  Config_Validate text narrow = None ∧ NewBus [ap_EventConcurrency (cf_Application narrow)] = NewBus [1]
  ∧ (let '(_, publisher, (_, err)) := after_water (bus_of 1) in
     err ≠ None ∧ ((fun st => st.2.2) <$> publisher) = Some [(2%nat, StateChanged)]).
Proof.
  split; [vm_compute; reflexivity|]. split; [reflexivity|].
  pose proof (last_slot_silences_alarm (B := unit) noting 0%nat envs1 env1 Background 12 (fun _ => 0%nat) water NewStateManager
    (bus_of 1) listener [] change [dry] leak [flood] id3 (quiet_state leak) [1%nat] [] 2%nat
    (mkSubscription StateChanged 0 true) [] noted (past_dry (bus_of 1)) eq_refl eq_refl (bus_listening 1) eq_refl eq_refl
    ltac:(vm_compute; reflexivity) (water_breach 1)) as Hw.
  destruct (after_water (bus_of 1)) as [[m' publisher] [v' err]] eqn:Hs.
  destruct Hw as (alarm_event & m2 & w1 & errs3 & w3 & H1 & _ & H3 & -> & Herr).
  split; [exact Herr|]. vm_compute in H1. injection H1 as <-. vm_compute in H3. injection H3 as _ <-. reflexivity.
Defined.
