(* ===== verification/PlantWitnesses.v ===== *)
(** * Concrete instances: adapters and the assembled plant

    One heater on a Shelly channel and one ESP32 node whose two probes it
    depends on. *)

From Stdlib Require Import ZArith Lia String Ascii SpecFloat.
From stdpp Require Import base gmap strings list pretty sorting.
From S2P Require Import Prelude Domain Health Events State Equipment Safety Output System Witnesses.
From S2P Require Alarms Config Http Esp32 Shelly.
From S2P Require Import Bench Plant PlantResponse.

#[local] Instance any_JSON : JSON := {| json_Valid := fun _ => true |}.
#[local] Instance any_Marshaler A : Marshaler A :=
  {| json_Marshal := fun _ => inr "{}"; json_Marshal_valid := fun _ _ _ => eq_refl |}.
#[local] Instance accepting : Publisher unit := {| Publish := fun _ _ w => (None, w) |}.
#[local] Instance urls : Config.URLParser :=
  {| Config.url_Parse := fun _ => Some (Config.mkURL "http" "192.168.1.2" false "" "") |}.
#[local] Instance paths : Http.URLWriter := {| Http.url_WithPath := fun base path => base +:+ path |}.
Definition text (e : error) : string := "".

(** ** A node *)
Definition node : Esp32.Endpoint :=
  Esp32.mkEndpoint id1 id2 "http://192.168.1.3" "" (id3, id4) Second Second Minute Second (F64 1).
Lemma node_valid : Esp32.validateEndpoint node = None.
Proof. vm_compute. reflexivity. Qed.

Definition reading (id : string) (celsius : Z) : Esp32.ProbeDTO := Esp32.mkProbeDTO id (Some (F64 celsius)) true "".
Definition snapshot (sequence : Z) (at_ : Time) : Esp32.SnapshotDTO :=
  Esp32.mkSnapshotDTO "1.0" id2 "fw" "boot" sequence at_ [reading id3 25; reading id4 25].
Definition adapter0 : Esp32.Adapter := Esp32.mkAdapter [node] ∅ false [] ∅.

(** The client is the answer it gives. *)
#[local] Instance scripted : Esp32.Client (error + Esp32.SnapshotDTO) :=
  {| Esp32.client_Snapshot := fun _ _ _ _ c => (c, c) |}.

Lemma accepted_sequences_increase_witness :
  Sorted Esp32.newer [snapshot 1 100; snapshot 3 101].
Proof.
  apply (Esp32.accepted_sequences_increase id1
    [(node, snapshot 1 100, 100); (node, snapshot 1 100, 101); (node, snapshot 3 101, 102); (node, snapshot 2 101, 103)]
    adapter0).
  reflexivity.
Defined.

Lemma nan_difference_witness :
  Esp32.disagree (Esp32.with_difference S754_nan node) (Some (F64 0)) (Some (F64 90)) = false.
Proof. apply (Esp32.nan_difference_disables_agreement node). vm_compute. reflexivity. Defined.

(** ** A plant *)

(** Devices that count the requests they have seen; the first fails. *)
#[local] Instance flaky : Shelly.Client nat := {|
  Shelly.GetSwitchStatus := fun _ _ _ ch n => (inr (Shelly.mkSwitchStatus ch "" true (F64 0) (F64 0) (F64 0) [] 0), S n);
  Shelly.GetSwitchConfig := fun _ _ _ ch n => (inr (Shelly.mkSwitchConfig ch "off"), S n);
  Shelly.SetSwitch := fun _ _ _ _ _ n => (if n is O then inl (ErrNew "timeout") else inr (Shelly.mkSetResult false), S n)
|}.
#[local] Instance patient : Shelly.Clock nat :=
  {| Shelly.clock_Now := fun n => (100, n); Shelly.context_Err := fun _ _ => None |}.

Definition switch : Shelly.Endpoint :=
  Shelly.mkEndpoint id3 id4 "http://192.168.1.2" 0 Second Second 2 false Shelly.PowerReturnOff.

Lemma setWithRetry_bounded_witness :
  (Shelly.setWithRetry Background switch true 0%nat).1 = None
  ∧ ∃ n w1, 0 ≤ Z.of_nat n ≤ 2 ∧ Shelly.failed_attempts Background switch true n 0%nat w1.
Proof.
  pose proof (Shelly.setWithRetry_bounded Background switch true 0%nat
    (eq_refl : Shelly.validateEndpoint switch = None)) as Hw.
  destruct (Shelly.setWithRetry Background switch true 0%nat) as [result w'] eqn:Hr. vm_compute in Hr.
  injection Hr as <- <-. split; [reflexivity|].
  destruct Hw as [(n & w1 & r & Hn & _ & Hf & _)|[_ Hne]]; [|by destruct Hne].
  exists n, w1. split; [exact Hn|exact Hf].
Defined.

Definition coordinator : Coordinator :=
  mkCoordinator {[id3 := id1]} {[id1 := id2]} ∅ {[id3 := switch]} {[id1 := node]}.

Definition observing (n : nat) : Alarms.ObserveEnv := Alarms.mkObserveEnv 100 (id4, None) (id3, None) env1.
Abbreviation plant := (@Plant nat unit).
#[local] Instance writer : StateWriter plant :=
  Plant_StateWriter (fun _ => 100) (fun _ => env1) (fun _ _ => 0%nat).
#[local] Instance alarm_engine : AlarmEngine plant := Plant_AlarmEngine observing.
#[local] Instance commander : Commander plant :=
  Plant_Commander (fun _ => 100) (fun _ => 100) (fun _ => (id1, None)) (fun _ => (id2, None)) (fun _ => env1).
#[local] Instance store : StateStore plant :=
  Plant_StateStore (fun _ => 100) (fun _ => env1) (fun _ _ => 0%nat).
#[local] Instance apart : AlarmsApart plant :=
  Plant_AlarmsApart (fun _ => 100) (fun _ => env1) (fun _ _ => 0%nat) observing.

Definition heater_profile : Profile :=
  mkProfile id4 KindHeater true false
    [CapabilitySwitch; CapabilityCommandAcknowledgement; CapabilityReportedState] (mkLimits Hour 0 0)
    [mkInputRequirement (probe_key id3) None; mkInputRequirement (probe_key id4) None].
Definition plant0 : plant :=
  mkPlant NewStateManager (Some tt) (Alarms.NewManagerWithDependencies (Some tt) 4)
    (mkService ∅ ∅
       (mkSafetyPolicy (mkEngine ModeNormal {[id4 := heater_profile]} ∅ ∅ true) NewStateManager 100 (fun m => (map_to_list m).*1))
       (NewStateManager, 100) (mkShellyUnit (Shelly.mkAdapter {[id4 := switch]} ∅ ∅ true [switch] ∅) 1%nat) (Some tt) true 0)
    0.

Lemma safe_response_per_onset_witness :
  c_On <$> (run_failures Background
    [mkSighting switch true "shelly.unreachable" 100; mkSighting switch true "shelly.unreachable" 101;
     mkSighting switch false "shelly.reported_converged" 102; mkSighting switch true "shelly.unreachable" 103]
    coordinator (plant0, [])).2.2 = [false; false].
Proof.
  rewrite (safe_response_per_onset Background _ coordinator plant0).
  - vm_compute. reflexivity.
  - repeat constructor; exists id1; vm_compute; reflexivity.
Defined.

Lemma probe_good_iff_witness :
  has_quality QualityGood id3 (after_poll text Background node 100 coordinator adapter0 (inr (snapshot 1 90)) plant0).
Proof.
  apply (probe_good_iff text Background node 100 coordinator id2).
  - reflexivity.
  - vm_compute. reflexivity.
  - discriminate.
  - vm_compute. reflexivity.
  - exists node. vm_compute. reflexivity.
  - intros s Hs. injection Hs as <-. vm_compute. discriminate.
  - left.
  - exists (snapshot 1 90), (Some (F64 25)), (Some (F64 25)). split; [reflexivity|].
    split; [|split; [vm_compute; reflexivity|split; [exists (F64 25); vm_compute; reflexivity|split; vm_compute; reflexivity]]].
    split; [|split; [vm_compute; reflexivity|vm_compute; discriminate]].
    split; try (vm_compute; reflexivity); try (vm_compute; discriminate).
    + split; vm_compute; discriminate.
    + split; vm_compute; discriminate.
    + split; [reflexivity|]. exists (Some (F64 25), Some (F64 25)). vm_compute. reflexivity.
Defined.

Lemma skewed_snapshot_dropped_witness :
  stored (after_poll text Background node 100 coordinator adapter0 (inr (snapshot 1 101)) plant0) (probe_key id3) = None.
Proof.
  rewrite (proj1 (skewed_snapshot_dropped text Background node 100 coordinator id2 eq_refl
    node_valid ltac:(discriminate) ltac:(vm_compute; reflexivity) ltac:(exists node; vm_compute; reflexivity) adapter0
    (inr (snapshot 1 101)) plant0 (snapshot 1 101) (F64 25) (F64 25) eq_refl
    ltac:(split; try (vm_compute; reflexivity); try (vm_compute; discriminate);
          [split; vm_compute; discriminate|split; vm_compute; discriminate|
           split; [reflexivity|exists (Some (F64 25), Some (F64 25)); vm_compute; reflexivity]])
    ltac:(vm_compute; reflexivity) ltac:(vm_compute; reflexivity) ltac:(vm_compute; reflexivity) ltac:(vm_compute; reflexivity))).
  vm_compute. reflexivity.
Defined.

Definition heat : Command := mkCommand id1 "heat" id2 id4 "operator" 100 200 None true.

Lemma failed_poll_blocks_dependents_witness :
  let p' := (Esp32.poll text Background 100 node adapter0 (inl (ErrNew "timeout")) (coordinator, plant0)).2.2 in
  sv_executor (pl_service (commander_Submit Background heat p').2) = sv_executor (pl_service p').
Proof.
  apply (failed_poll_blocks_dependents (fun _ => 100) (fun _ => env1) (fun _ _ => 0%nat) observing
    (fun _ => 100) (fun _ => (id1, None)) (fun _ => (id2, None)) (fun _ => env1) text Background node 100 coordinator id2
    adapter0 (inl (ErrNew "timeout")) plant0 heater_profile id3 Background heat).
  - reflexivity.
  - vm_compute. reflexivity.
  - discriminate.
  - vm_compute. reflexivity.
  - exact I.
  - vm_compute. reflexivity.
  - reflexivity.
  - left.
  - left.
  - reflexivity.
Defined.

(** ** One turn of the whole loop

    A good snapshot makes both probes good, the command is then allowed and
    acknowledged by the switch, and the next poll reconciles it. *)
#[local] Instance tracker : Shelly.CommandTracker (Coordinator * plant) :=
  Plant_CommandTracker (fun _ => 100) (fun _ => 100) (fun _ => env1).

Example heater_round_trip :
  let '(_, _, (c, p1)) := Esp32.poll text Background 100 node adapter0 (inr (snapshot 1 90)) (coordinator, plant0) in
  let '(r, err, p2) := commander_Submit Background heat p1 in
  let '(_, p3) := Shelly.poll text (fun s => s) Background switch (c, p2) in
  r_Status r = StatusAcknowledged ∧ err = None
  ∧ r_Status <$> sv_results (pl_service p3) !! id1 = Some StatusSucceeded
  ∧ Shelly.sa_pending (su_adapter (sv_executor (pl_service p3))) !! id4 = None.
Proof. vm_compute. repeat split. Qed.

(** ** Power that nobody asked for

    The switch of [plant0] reports power although nothing was commanded. *)
Definition seen_on : Shelly.SwitchStatus := Shelly.mkSwitchStatus 0 "" true (F64 0) (F64 0) (F64 0) [] 0.

Lemma switch_diverging : diverging (fun _ => 100) Background switch coordinator plant0 seen_on 100 3%nat.
Proof.
  split; try (vm_compute; reflexivity).
  - exists id1. vm_compute. reflexivity.
  - split; vm_compute; reflexivity.
  - split; vm_compute; [reflexivity|discriminate].
  - split; vm_compute; [reflexivity|discriminate].
  - eexists _, _, _. vm_compute. repeat split.
  - repeat split; vm_compute; reflexivity.
  - exists heater_profile. vm_compute. reflexivity.
  - split; [split; [discriminate|reflexivity]|]. intros k _. split; [discriminate|reflexivity].
Qed.

Lemma uncommanded_power_is_switched_off_witness :
  let p' := (Shelly.poll text (fun s => s) Background switch (coordinator, plant0)).2 in
  Shelly.sa_desired (su_adapter (sv_executor (pl_service p'))) !! id4 = Some false.
Proof.
  pose proof (uncommanded_power_is_switched_off (fun _ => 100) (fun _ => env1) (fun _ _ => 0%nat) observing
    (fun _ => 100) (fun _ => (id1, None)) (fun _ => (id2, None)) (fun _ => env1) text (fun s => s) Background eq_refl eq_refl
    (fun _ _ _ => eq_refl) (fun _ _ _ => ex_intro _ "{}" eq_refl) (fun _ _ => ex_intro _ "{}" eq_refl)
    (fun c => ltac:(vm_compute; split; [discriminate|reflexivity])) (fun _ => ltac:(discriminate))
    (fun _ => ex_intro _ id4 (conj eq_refl eq_refl)) (fun _ => ltac:(discriminate))
    (fun _ => ex_intro _ id1 (conj eq_refl eq_refl)) (fun _ => ex_intro _ id2 (conj eq_refl eq_refl))
    switch coordinator plant0 seen_on 100 3%nat switch_diverging eq_refl) as Hw.
  destruct (Shelly.setWithRetry Background switch false (polled_unit switch 3%nat plant0)) as [err x] eqn:Hr.
  vm_compute in Hr. injection Hr as <- <-. destruct Hw as (_ & Hd & _). exact Hd.
Defined.

(** ** A command that is overtaken

    A switch with a clock that moves on by a second with each reading. *)
Record Moving := mkMoving { mv_time : Time }.
#[local] Instance willing : Shelly.Client Moving := {|
  Shelly.GetSwitchStatus := fun _ _ _ ch m => (inr (Shelly.mkSwitchStatus ch "" true (F64 0) (F64 0) (F64 0) [] 0), m);
  Shelly.GetSwitchConfig := fun _ _ _ ch m => (inr (Shelly.mkSwitchConfig ch "off"), m);
  Shelly.SetSwitch := fun _ _ _ _ _ m => (inr (Shelly.mkSetResult false), m)
|}.
#[local] Instance moving : Shelly.Clock Moving :=
  {| Shelly.clock_Now := fun m => (mv_time m, mkMoving (mv_time m + Second)); Shelly.context_Err := fun _ _ => None |}.
Abbreviation moving_plant := (@Plant Moving unit).
#[local] Instance moving_writer : StateWriter moving_plant := Plant_StateWriter (fun _ => 100) (fun _ => env1) (fun _ _ => 0%nat).
#[local] Instance moving_alarms : AlarmEngine moving_plant := Plant_AlarmEngine observing.
#[local] Instance moving_commander : Commander moving_plant :=
  Plant_Commander (fun _ => 100) (fun _ => 100) (fun _ => (id1, None)) (fun _ => (id2, None)) (fun _ => env1).
#[local] Instance moving_tracker : Shelly.CommandTracker (Coordinator * moving_plant) :=
  Plant_CommandTracker (fun _ => 100) (fun _ => 100) (fun _ => env1).

Definition outlet_profile : Profile :=
  mkProfile id4 KindOutlet false false
    [CapabilitySwitch; CapabilityCommandAcknowledgement; CapabilityReportedState] (mkLimits 0 0 0) [].
Definition plant1 : moving_plant :=
  mkPlant NewStateManager (Some tt) (Alarms.NewManagerWithDependencies (Some tt) 4)
    (mkService ∅ ∅
       (mkSafetyPolicy (mkEngine ModeNormal {[id4 := outlet_profile]} ∅ ∅ true) NewStateManager 100 (fun m => (map_to_list m).*1))
       (NewStateManager, 100) (mkShellyUnit (Shelly.mkAdapter {[id4 := switch]} ∅ ∅ true [switch] ∅) (mkMoving 100)) (Some tt) true 0)
    0.
Definition lamp (id key : string) : Command := mkCommand id key id2 id4 "operator" 100 (100 + 10 * Second) None true.

(** The second of two commands takes the place of the first among what the
    adapter waits for. The first is neither reconciled nor expired: it is still
    acknowledged, and nothing is pending, long after its deadline. *)
Example overtaken_command_stays_acknowledged :
  let '(r1, _, p1) := commander_Submit Background (lamp id1 "first") plant1 in
  let '(r2, _, p2) := commander_Submit Background (lamp id3 "second") p1 in
  let '(_, p) := Nat.iter 20 (Shelly.poll text (fun s => s) Background switch) (coordinator, p2) in
  r_Status r1 = StatusAcknowledged ∧ r_Status r2 = StatusAcknowledged
  ∧ c_ExpiresAt (r_Command r1) < mv_time (su_client (sv_executor (pl_service p)))
  ∧ Shelly.sa_pending (su_adapter (sv_executor (pl_service p))) !! id4 = None
  ∧ r_Status <$> sv_results (pl_service p) !! id3 = Some StatusSucceeded
  ∧ r_Status <$> sv_results (pl_service p) !! id1 = Some StatusAcknowledged.
Proof. vm_compute. repeat split. Qed.
