(* ===== verification/HomeWitnesses.v ===== *)
(** * Concrete instances: Home Assistant and vision

    The theorems on the integrations, applied to a small site, and runs of the
    definitions on it. *)

From Stdlib Require Import ZArith Lia String Ascii.
From stdpp Require Import base gmap strings list pretty.
From S2P Require Import Prelude Domain Health Events Alarms Output.
From S2P Require Import Topics Envelope MqttClient Config HomeAssistant.

#[local] Instance any_JSON : JSON := {| json_Valid := fun _ => true |}.
#[local] Instance any_Marshaler A : Marshaler A :=
  {| json_Marshal := fun _ => inr "{}"; json_Marshal_valid := fun _ _ _ => eq_refl |}.
#[local] Instance by_name : Marshaler discoveryPayload :=
  {| json_Marshal := fun p => inr (dp_Name p); json_Marshal_valid := fun _ _ _ => eq_refl |}.

(** A transport that takes a number of publications and then fails; an
    inventory of lists; no alarms; a command service that logs. *)
#[local] Instance budget : Transport nat := {|
  transport_Publish := fun _ _ _ _ _ n =>
    match n with O => (Some ErrDisconnected, O) | S n => (None, n) end;
  transport_Subscribe := fun _ _ _ _ n => (None, n)
|}.
#[local] Instance lists : Inventory (list Sensor * list Equipment) := {|
  inventory_Devices := fun _ _ => ([], None);
  inventory_Sensors := fun _ l => (l.1, None);
  inventory_Equipment := fun _ l => (l.2, None)
|}.
#[local] Instance no_alarms : AlarmReader unit := {| reader_List := fun _ _ _ => ([], None) |}.
#[local] Instance logging : Commander (list Command) :=
  {| commander_Submit := fun _ c l => ((zero_Result, None), l ++ [c]) |}.

Definition uuid1 : string := "00000000-0000-4000-8000-000000000002".
Definition status_env : StatusEnv := mkStatusEnv 100 (uuid1, None) 100.
Definition command_env : CommandEnv := mkCommandEnv 500 (uuid1, None) None.
Definition ha_cfg1 : HAConfig := mkHAConfig "reef" 5000000000 4096 [] [].
Definition heater : Equipment := mkEquipment "e1" "d1" "p1" "Heater" [] None.
Definition probe : Sensor := mkSensor "s1" "d1" "p2" "Probe" QuantityTemperature UnitCelsius [] None.

Abbreviation Site := (HAManager (Retaining nat) (list Sensor * list Equipment) unit (list Command)).

(** The site with the given transport budget and inventory from now on. *)
Definition resupply (n : nat) (l : list Sensor * list Equipment) (m : Site) : Site :=
  mkHAManager (mkRetaining n (store m)) l (ha_alarms m) (ha_commands m) (ha_registry m) (ha_codec m) (ha_cfg m)
    (ha_cancel m) (ha_running m) (ha_lastErr m) (ha_published m) (ha_allowed m).

Definition codec1 : Codec := mkCodec "reef" 4096 (mkCodecMetrics 0 0 0 0 0 0).
Definition site0 : Site :=
  mkHAManager (mkRetaining 100%nat ∅) ([probe], [heater]) None [] (mkTopicRegistry "reef") codec1 ha_cfg1
    false false None ∅ ∅.

Example site0_New : HA_New true ha_cfg1 (mkRetaining 100%nat ∅) ([probe], [heater]) None [] = inl site0.
Proof. vm_compute. reflexivity. Qed.

Definition site1 : Site := Eval vm_compute in (HA_Start elements 7%nat status_env Background site0).2.

Definition heater_topic : string := "homeassistant/switch/equipment-e1/config".

Lemma site0_synced : synced site0.
Proof. intros c o topic policy _ _. reflexivity. Qed.

Lemma Refresh_retains_current_witness :
  store (Refresh elements status_env Background site0).2 !! heater_topic = Some "Heater".
Proof.
  destruct (Refresh_retains_current elements (fun _ => reflexivity _) status_env Background site0
    (Refresh elements status_env Background site0).2) as (entities & allowed & He & _ & _ & _ & _ & Hs).
  - vm_compute. reflexivity.
  - exact site0_synced.
  - vm_compute. reflexivity.
  - rewrite (Hs "switch" "equipment-e1" heater_topic (mkTopicPolicy PurposeHADiscovery 1 true)).
    + vm_compute in He. injection He as <- <-. vm_compute. reflexivity.
    + vm_compute. reflexivity.
Defined.

(** ** Commands on the running site *)
Definition switch_message (payload : string) : Message :=
  mkMessage false "aquaos/reef/v1/home-assistant/equipment-e1/set" payload 9.

Example switch_on :
  ha_commands (HA_receive command_env (switch_message " ON ") site1) =
  [mkCommand "" "ha/equipment-e1/9/on" uuid1 "e1" "home-assistant" 500 5000000500 None true].
Proof. vm_compute. reflexivity. Qed.

Example switch_refused :
  ha_commands (HA_receive command_env (switch_message "TOGGLE") site1) = []
  ∧ ha_commands (HA_receive command_env (mkMessage true (ms_Topic (switch_message "ON")) "ON" 9) site1) = []
  ∧ ha_commands (HA_receive command_env (switch_message "ON") (HA_Stop Background site1).2) = [].
Proof. vm_compute. done. Qed.

(** ** An interrupted refresh

    The published set is replaced before the removed entities are cleared. When
    a clear fails, the next refresh no longer knows of the entity: it succeeds,
    and the entity stays retained although the inventory is empty. *)
Definition interrupted : option error * Site := Refresh elements status_env Background (resupply 3%nat ([], []) site1).
Definition retried : option error * Site :=
  Refresh elements status_env Background (resupply 100%nat ([], []) interrupted.2).

Theorem interrupted_refresh_forgets :
  interrupted.1 ≠ None ∧ retried.1 = None ∧ store retried.2 !! heater_topic = Some "Heater".
Proof. vm_compute. done. Qed.

(** ** On the MQTT client *)
#[local] Instance link : Broker bool := {|
  IsConnected := fun up => up;
  broker_Connect := fun _ _ => (None, true);
  broker_Disconnect := fun _ => false;
  broker_Publish := fun _ _ _ _ _ up => (None, up);
  broker_Subscribe := fun _ _ _ _ up => (None, up)
|}.
Definition connected : @Client bool := newClient true (mkTopicRegistry "reef") codec1 4096 8.
Definition on_client : HAManager (@Client bool) (list Sensor * list Equipment) unit (list Command) :=
  mkHAManager connected ([probe], [heater]) None [] (mkTopicRegistry "reef") codec1 ha_cfg1 false false None ∅ ∅.

Lemma Start_on_client_does_nothing_witness :
  let '(err, m') := HA_Start elements 7%nat status_env Background on_client in
  err = None ∧ ha_transport m' = connected ∧ ha_published m' = ∅ ∧ ha_allowed m' = ∅
  ∧ st_Healthy (HA_Health (fun _ => "") 0 m') = false.
Proof.
  apply (Start_on_client_does_nothing elements 7%nat (fun _ => "") status_env Background true ha_cfg1 connected
    ([probe], [heater]) None [] on_client 0); vm_compute; reflexivity.
Defined.
