(* ===== verification/OperationsWitnesses.v ===== *)
(** * Concrete instances: operations

    The theorems on operations and the local host, applied to a small disk with
    libraries that store what they are given. *)

From Stdlib Require Import ZArith Lia String Ascii.
From stdpp Require Import base gmap strings list pretty sorting.
From S2P Require Import Prelude Domain Events Topics Config Operations OperationsSafety LocalHost.

#[local] Instance any_JSON : JSON := {| json_Valid := fun _ => true |}.
#[local] Instance config_Marshaler : Marshaler Config :=
  {| json_Marshal := fun _ => inr "{}"; json_Marshal_valid := fun _ _ _ => eq_refl |}.
#[local] Instance urls : URLParser := {| url_Parse := fun _ => Some (mkURL "http" "192.168.1.2" false "" "") |}.
#[local] Instance addresses : NetParser := {|
  SplitHost := fun _ => Some "localhost"; LoopbackIP := fun _ => false |}.
#[local] Instance in_order : MapRange :=
  {| map_range := fun _ l => l; map_range_perm := fun _ _ => Permutation_refl _ |}.
#[local] Instance digests : Digester := {| sha256_hex := fun s => "ab" |}.
#[local] Instance signatures : Signatures := {| ed25519_Verify := fun _ _ _ => true |}.
(** A decoder that accepts two texts. *)
#[local] Instance two_texts : YAML := {|
  yaml_SchemaVersion := fun _ => inr (Some 1);
  yaml_Decode := fun s c => if bool_decide (s ∈ ["old"; "new"]) then inr c else inl (ErrNew "malformed")
|}.
Definition text (e : error) : string := "".
Definition admin : Actor := mkActor "root" true.

(** ** Texts for archives and manifests: the bits of a positive number *)
Fixpoint bits (p : positive) : string :=
  match p with
  | xH => ""
  | xO p => String "0"%char (bits p)
  | xI p => String "1"%char (bits p)
  end.
Fixpoint number (s : string) : positive :=
  match s with
  | EmptyString => xH
  | String c s => if Ascii.eqb c "1"%char then xI (number s) else xO (number s)
  end.
Lemma number_bits p : number (bits p) = p.
Proof. induction p as [p IH|p IH|]; simpl; by rewrite ?IH. Qed.

#[local] Instance manifest_Marshaler : Marshaler (gmap string string) :=
  {| json_Marshal := fun m => inr (bits (encode m)); json_Marshal_valid := fun _ _ _ => eq_refl |}.
#[local] Instance manifest_Decoder : ManifestDecoder := {|
  decode_manifest := fun s => match decode (number s) with Some m => inr m | None => inl (ErrNew "malformed") end
|}.

(** An archive writer that keeps its entries, the last one open. *)
#[local] Instance listing : ZipWriter (list (string * string)) := {|
  zip_NewWriter := [];
  zip_Create := fun name a => (None, a ++ [(name, "")]);
  zip_Write := fun s a =>
    (None, match last a with Some (name, _) => removelast a ++ [(name, s)] | None => a end);
  zip_Close := fun a => inr (bits (encode a))
|}.
Definition entry_of (e : string * string) : ZipEntry := mkZipEntry e.1 (fun _ => inr e.2).
#[local] Instance reading : ZipReader := {|
  zip_NewReader := fun s =>
    match decode (A := list (string * string)) (number s) with
    | Some l => inr (entry_of <$> l)
    | None => inl (ErrNew "malformed")
    end
|}.

Lemma zip_of_listing entries : zip_of entries = entries.
Proof.
  unfold zip_of. change (@zip_NewWriter _ listing) with (@nil (string * string)).
  rewrite <- (app_nil_l entries) at 2. generalize (@nil (string * string)).
  induction entries as [|[n s] entries IH]; intros l; simpl; [by rewrite app_nil_r|].
  rewrite last_snoc, removelast_last, IH. by rewrite <- (assoc_L (++)).
Qed.

Definition disk0 : Disk := mkDisk (<[configPath := "old"]> (<[versionPath := "1.0"]> ∅)) 0 [].
Definition bare : Disk := mkDisk ∅ 0 [].

Lemma Backup_Restore_roundtrip_witness :
  ∃ payload, (Backup (A := list (string * string)) (HH := Disk_Host (fun _ => None) ErrNotExist) Background admin disk0).1
      = inr payload
    ∧ let '((result, err), d') :=
        Restore (HH := Disk_Host (fun _ => None) ErrNotExist) text Background admin payload false bare in
      err = None ∧ or_Version result = TrimSpace "1.0"
      ∧ dk_files d' = <[versionPath := "1.0"]> (<[configPath := "old"]> ∅)
      ∧ last (dk_commands d') = Some ["systemctl"; "restart"; "aquaos.service"].
Proof.
  destruct (Backup_Restore_roundtrip ErrNotExist text (A := list (string * string))) with
    (ctx := Background) (actor := admin) (d := disk0) (d2 := bare) (c := "old") (v := "1.0") (cfg := Config_Clone Defaults)
    as (payload & Hb & Hr).
  - intros entries name _ _. reflexivity.
  - intros entries name s _ _. reflexivity.
  - intros entries _. rewrite zip_of_listing. exists (bits (encode entries)), (entry_of <$> entries).
    split; [reflexivity|]. simpl. rewrite number_bits, decode_encode. split; [done|].
    induction entries as [|e l IH]; constructor; [|done]. by split.
  - intros s. by repeat constructor.
  - intros m _. exists (bits (encode m)). split; [reflexivity|]. simpl. by rewrite number_bits, decode_encode.
  - reflexivity.
  - reflexivity.
  - reflexivity.
  - reflexivity.
  - vm_compute. reflexivity.
  - vm_compute. discriminate.
  - intros s Hs. vm_compute in Hs. assert (s = bits (encode (manifest_of "old" "1.0"))) as ->
      by (vm_compute; congruence). vm_compute. discriminate.
  - exists payload. split; [exact Hb|exact Hr].
Defined.

(** ** Operations and activation *)
Definition steady (n : nat) : option error := None.
(** A host on which the third call after the first fails: the restart. *)
Definition no_restart (n : nat) : option error := if (n =? 3)%nat then Some (ErrNew "exit status 1") else None.

Lemma operations_keep_host_safe_witness :
  dk_files (foldl (operate steady ErrNotExist text) bare
    [ORestore Background admin "" true; OUninstall Background admin false false]) !! "/etc/passwd" = None.
Proof.
  apply (operations_keep_host_safe steady ErrNotExist text "key" _ bare).
  - repeat constructor.
  - intros path s Hs. done.
  - apply (bool_decide_unpack _). vm_compute. exact I.
Defined.

Lemma activation_is_transactional_witness :
  dk_files (ApplyConfiguration (HH := Disk_Host no_restart ErrNotExist) text Background admin "new" false disk0).2
    !! configPath = Some "old".
Proof.
  destruct (ApplyConfiguration (HH := Disk_Host no_restart ErrNotExist) text Background admin "new" false disk0)
    as [[result err] d'] eqn:Ha.
  destruct (activation_is_transactional no_restart ErrNotExist text Background admin "new" false disk0 "old" result
    err d') as (_ & _ & _ & Hr & _).
  - reflexivity.
  - exact Ha.
  - apply Hr; [|reflexivity]. apply (f_equal (fun x => cr_RolledBack x.1.1)) in Ha. vm_compute in Ha. done.
Defined.

(** ** The local host *)
Definition staging : LocalHost := mkLocalHost "/srv/staging".
Definition temporary (n : nat) : string := "/srv/staging/etc/aquaos/.aquaos-1".
Definition system0 : FileSystem := mkFileSystem (<["/srv/staging/etc/aquaos/aquaos.yaml" := "old"]> ∅) 0.

Example resolved : resolve staging configPath = inr "/srv/staging/etc/aquaos/aquaos.yaml"
  ∧ resolve staging "/../../etc/passwd" = inr "/srv/staging/etc/passwd"
  ∧ resolve staging "../secrets" = inl ErrEscapes.
Proof. vm_compute. done. Qed.

Lemma WriteFileAtomic_atomic_witness :
  fs_files (Local_WriteFileAtomic (HW := FileSystem_OS no_restart (fun _ => "ne") temporary) staging configPath "new" 0
    system0).2 !! "/srv/staging/etc/aquaos/aquaos.yaml" = Some "old".
Proof.
  pose proof (WriteFileAtomic_atomic no_restart (fun _ => "ne") temporary staging configPath "new" 0 system0
    "/srv/staging/etc/aquaos/aquaos.yaml") as Hw.
  destruct (Local_WriteFileAtomic _ _ _ _ _) as [err w'] eqn:Hl.
  assert (err ≠ None) as He by (apply (f_equal fst) in Hl; vm_compute in Hl; congruence).
  destruct Hw as [Hw _].
  - vm_compute. reflexivity.
  - vm_compute. discriminate.
  - destruct err; [exact Hw|done].
Defined.
