(* ===== verification/ApiWitnesses.v ===== *)
(** * Concrete instances: the operational API, limits and discovery *)

From Stdlib Require Import ZArith Lia String Ascii.
From stdpp Require Import base gmap strings list pretty.
From S2P Require Import Prelude Domain Health Events State Output Commands System Topics Config ConfigManager.
From S2P Require Import Encoding HttpServer Access Api ApiServices Witnesses.
From S2P Require Sensors EquipmentRegistry ConfigWitnesses.

#[local] Existing Instance any_JSON.
#[local] Existing Instance any_Marshaler.
#[local] Existing Instance accepting.
#[local] Existing Instance obedient.
#[local] Existing Instance ConfigWitnesses.urls.
#[local] Existing Instance ConfigWitnesses.addresses.
#[local] Existing Instance ConfigWitnesses.in_order.
#[local] Existing Instance ConfigWitnesses.digests.
#[local] Existing Instance ConfigWitnesses.constant.
#[local] Existing Instance ConfigWitnesses.level.

#[local] Instance commands_json : StrictDecoder commandRequest :=
  {| decode_value := fun s tail => inr (mkCommandRequest true 100 None, "") |}.
#[local] Instance acknowledgements_json : StrictDecoder acknowledgementRequest :=
  {| decode_value := fun s tail => inr (mkAckRequest s 0, "") |}.
#[local] Instance plain_paths : PathUnescaper := {| PathUnescape := fun s => s |}.
#[local] Instance no_yaml : YAML := {|
  yaml_SchemaVersion := fun _ => inl (ErrNew "no document"); yaml_Decode := fun _ _ => inl (ErrNew "no document") |}.

Definition api_token : string := "0123456789abcdef0123456789abcdef".
Definition post (path : string) (query headers : list (string * string)) : ServerRequest :=
  mkServerRequest "POST" "aquaos.local" path path query headers [] "192.168.1.7:5000" "{}" None Background.
Definition power_on : ServerRequest :=
  post ("/api/v1/equipment/" +:+ id3 +:+ "/commands") []
    [("Authorization", "Bearer " +:+ api_token); ("Idempotency-Key", " key-1 "); ("X-Correlation-ID", id2)].
Definition env20 : RequestEnv := mkRequestEnv (inr (replicate 16 7)) 20 20 20 None "go1.25" 1.
Definition by_key (m : gmap string requestBucket) : list (string * requestBucket) := map_to_list m.

Definition core_services : Type := Services (X := unit) (W := unit) (L := Config) (V := string).
Definition services0 : core_services :=
  mkServices devices1 sensors0 equipment0 service0 alarms0 (ConfigWitnesses.manager ConfigWitnesses.quieter)
    NewHealthManager.
Definition every_service : Dependencies := mkDependencies true true true true true true true.
Definition operator_login : BearerAuthenticator :=
  mkBearerAuthenticator api_token (mkPrincipal "operator" [RoleOperator]).
Definition http0 : HTTP := mkHTTP "127.0.0.1:8080" 5 5 5 "" 65536 5 10.
Definition server0 : Server BearerAuthenticator roleAuthorizer core_services :=
  Api_New http0 1 [WithDependencies every_service; WithSecurity (Some operator_login) None] services0.

#[local] Instance commands0 : CommandService core_services := Services_Commands clock50 fresh4 fresh4 factory1.
#[local] Instance alarms_service0 : AlarmService core_services := Services_Alarms 20 env1.
#[local] Instance configuration0 : ConfigurationService core_services := Services_Configuration ConfigWitnesses.text env1.

Definition served : Reply Body * Server BearerAuthenticator roleAuthorizer core_services :=
  withCorrelation ConfigWitnesses.text by_key env20 power_on server0.
Definition dispatched1 : Command := mkCommand id4 "key-1" id2 id3 "operator" 20 100 None true.

Lemma api_dispatches_safely_witness :
  power_permitted clock50 service0 dispatched1 ∧ c_Requester dispatched1 = "operator" ∧ rp_Status served.1 = 202.
Proof.
  destruct (api_dispatches_safely ConfigWitnesses.text clock50 fresh4 fresh4 factory1 20 env1 env1 by_key env20 power_on
    server0 dispatched1) as [Hsafe _].
  - vm_compute. left.
  - vm_compute. intros H. inversion H.
  - reflexivity.
  - split; [exact Hsafe|]. split; [reflexivity|]. vm_compute. reflexivity.
Defined.

(** ** Pages *)
Definition list_request (query : list (string * string)) : Call :=
  mkCall (post "/api/v1/devices" query []) "" id2 zero_Principal.

Lemma following_cursors_lists_all_witness :
  follow 8 [1; 2; 3; 4; 5; 6; 7] (list_request [("limit", "3")]) "" = Some [1; 2; 3; 4; 5; 6; 7].
Proof.
  apply (following_cursors_lists_all [1; 2; 3; 4; 5; 6; 7] (list_request [("limit", "3")]) 3).
  - vm_compute. split; [split; discriminate|reflexivity].
  - vm_compute. discriminate.
Defined.

(** A request that names its correlation keeps it; one that names something
    else is given the drawn identifier. *)
Definition uncorrelated : ServerRequest := post "/api/v1/devices" [] [].

Lemma replies_carry_correlation_witness :
  Get (rp_Header served.1) correlationHeader = id2
  ∧ canonical_v4 (Get (rp_Header (withCorrelation ConfigWitnesses.text by_key env20 uncorrelated server0).1)
      correlationHeader).
Proof.
  split; [exact (replies_carry_correlation ConfigWitnesses.text by_key env20 power_on server0)|].
  apply (replies_carry_correlation ConfigWitnesses.text by_key env20 uncorrelated server0).
  - reflexivity.
  - apply Forall_replicate. vm_compute. split; [discriminate|reflexivity].
Defined.

Lemma limiter_bounded_witness :
  Z.of_nat (size (li_clients (foldl (fun l r => (limiter_allow by_key r.1 r.2 l).2) (newRequestLimiter 1 2 2)
    [("a", 1); ("b", 2); ("c", 3); ("a", 4)]))) ≤ 2.
Proof.
  apply (limiter_bounded by_key (fun m => Permutation_refl _) 1 2 2 [("a", 1); ("b", 2); ("c", 3); ("a", 4)]).
Defined.
