(* ===== verification/AssemblyWitnesses.v ===== *)
(** * Concrete instances: the composition root

    A snapshot with one heater, one node, MQTT and Home Assistant is turned
    into a container. *)

From Stdlib Require Import ZArith Lia String Ascii.
From stdpp Require Import base gmap strings list pretty.
From S2P Require Import Prelude Domain Health Lifecycle Events Safety Output Equipment Config ConfigValidation.
From S2P Require Import ConfigManager Container Secrets MqttReconnect Assembly AssemblySafety AssemblyComplete.
From S2P Require Import State Commands System Concurrency EndToEnd Witnesses ConfigWitnesses.
From S2P Require Alarms Http StorageBackend Topics Envelope MqttClient Evaluator.

#[local] Existing Instance any_JSON.
#[local] Existing Instance any_Marshaler.
#[local] Existing Instance accepting.
#[local] Existing Instance obedient.
#[local] Existing Instance addresses.
#[local] Existing Instance in_order.
#[local] Existing Instance digests.
#[local] Existing Instance fixed_digest.
#[local] Existing Instance one_value.

Definition broker : string := "tcp://broker:1883".
#[local] Instance two_urls : URLParser := {|
  url_Parse := fun s => Some (if bool_decide (s = broker) then mkURL "tcp" "broker:1883" false "" ""
                              else mkURL "http" "192.168.1.2" false "" "") |}.
#[local] Instance join_path : Http.URLWriter := {| Http.url_WithPath := fun base path => base +:+ path |}.
#[local] Instance no_formats : StorageBackend.Formats := {|
  StorageBackend.FormatFloat := fun _ => ""; StorageBackend.Quote := fun s => s; StorageBackend.QueryEscape := fun s => s;
  StorageBackend.url_String := fun _ => "" |}.
#[local] Instance one_file : Files := {| os_Open := fun _ => inr (mkStream "secret" None) |}.

Definition connected : Config :=
  let c := snapshot [] [rule] in
  mkConfig (cf_SchemaVersion c) (cf_Application c) (cf_HTTP c)
    (mkMQTT true "reef" broker "core" "" "" (10 * Second) (30 * Second) (250 * 10 ^ 6) false (256 * 1024) 256 4096 Second
       Minute F64_0_2 (mkHomeAssistant true (10 * Second) None))
    (cf_SimulatorEnabled c) (cf_Adapters c) (cf_Bench c) (cf_Storage c) (cf_Inventory c) (cf_AlarmRules c) (cf_Backups c).

Definition times (n : nat) : Time := 1000 + Z.of_nat n.

Definition assembled : error + @Container unit string ClientOptions :=
  New text tt (fun options => options) (fun _ => env1) (fun _ => ("", None)) (oenv id3) 20 times (fun _ => (id4, None))
    connected "aquaos.yaml" true [].

Lemma valid_configuration_constructs_witness : ∃ c, assembled = inr c.
Proof.
  apply (valid_configuration_constructs text tt (fun options => options) (fun _ => env1) (fun _ => ("", None)) (oenv id3) 20
    times (fun _ => (id4, None)) connected "aquaos.yaml" []).
  - vm_compute. reflexivity.
  - discriminate.
  - exists (fun _ => True). split; [exact I|]. split_and!; intros n a [[]|] _; split; reflexivity || exact I.
  - split.
    + apply NoDup_cons. split; [vm_compute|apply NoDup_singleton]. intros Hin%list_elem_of_singleton. discriminate Hin.
    + intros e ->%list_elem_of_singleton. vm_compute. reflexivity.
    + apply NoDup_cons. split; [vm_compute|apply NoDup_singleton]. intros Hin%list_elem_of_singleton. discriminate Hin.
    + constructor; [|constructor]. exists "secret". vm_compute. reflexivity.
    + intros Hen. discriminate Hen.
    + intros Hf. destruct Hf. reflexivity.
    + intros _ registry codec Hr Hc. vm_compute in Hr, Hc. injection Hr as <-. injection Hc as <-.
      eexists _, _. vm_compute. reflexivity.
Defined.

Definition routed (e : error + @Container unit string ClientOptions) : bool :=
  match e with inr c => bool_decide (is_Some (routes (ct_OutputRouter c) !! id2)) | inl _ => false end.

Lemma assembled_outputs_are_guarded_witness :
  ∃ c profile, assembled = inr c ∧ e_profiles (ct_Safety c) !! id2 = Some profile ∧ Profile_Validate profile = None.
Proof.
  assert (routed assembled = true) as Hr by (vm_compute; reflexivity).
  destruct assembled as [err|c] eqn:Hc; [discriminate Hr|].
  pose proof (assembled_outputs_are_guarded text tt (fun options => options) (fun _ => env1) (fun _ => ("", None)) (oenv id3) 20
    times (fun _ => (id4, None)) connected "aquaos.yaml" true [] c Hc) as (_ & _ & _ & Hall).
  destruct (Hall id2) as (endpoint & adapter & _ & _ & _ & _ & Hp & Hv).
  - unfold routed in Hr. apply bool_decide_eq_true in Hr. exact Hr.
  - exists c. eexists. split; [reflexivity|]. split; [exact Hp|exact Hv].
Defined.

(** A broker that cannot be reached, and one that is slow. *)
Definition refused (id : ComponentID) : option error :=
  if bool_decide (id = MqttC) then Some (ErrNew "connection refused") else None.
Definition deadline (id : ComponentID) : option error :=
  if bool_decide (id = MqttC) then Some (ErrVar "context.DeadlineExceeded") else None.
Definition nothing (id : ComponentID) : option error := None.

Lemma startup_depends_on_witness :
  ∃ c, assembled = inr c
    ∧ (start_entries (ct_Lifecycle c) (fun _ => "") refused nothing nothing).2 = None
    ∧ (start_entries (ct_Lifecycle c) (fun _ => "") refused nothing deadline).2 ≠ None.
Proof.
  destruct assembled as [err|c] eqn:Hc; [exfalso; apply (f_equal routed) in Hc; vm_compute in Hc; discriminate Hc|].
  exists c. split; [reflexivity|].
  pose proof (startup_depends_on text tt (fun options => options) (fun _ => env1) (fun _ => ("", None)) (oenv id3) 20
    times (fun _ => (id4, None)) connected "aquaos.yaml" true [] c (fun _ => "") refused nothing) as Hs.
  split.
  - specialize (Hs nothing Hc). destruct (start_entries _ _ _ _ _) as [m err]. destruct Hs as [Hs _]. apply Hs.
    intros id _ [Hi|[Hn Hi]]; [exact (Hi eq_refl)|]. apply Hi. unfold refused.
    case_bool_decide as Hm; [|reflexivity]. exfalso. apply Hn. left. exact Hm.
  - specialize (Hs deadline Hc). intros Hnone. destruct (start_entries _ _ _ _ _) as [m err]. simpl in Hnone.
    destruct Hs as [Hs _]. apply (proj1 Hs Hnone MqttC); [|left; discriminate].
    assert (match assembled with inr c => bool_decide (MqttC ∈ monitored c) | inl _ => false end = true) as Hin by (vm_compute; reflexivity).
    rewrite Hc in Hin. right. apply bool_decide_eq_true in Hin. exact Hin.
Defined.

(** A snapshot in which the node and the heater share an alarm rule is valid
    and cannot be constructed. *)
Definition shared : Config :=
  let c := connected in
  mkConfig (cf_SchemaVersion c) (cf_Application c) (cf_HTTP c) (cf_MQTT c) (cf_SimulatorEnabled c)
    (mkAdapters true (Some [heater]) true
       (Some [mkESP32Endpoint id3 id4 id3 "http://192.168.1.3" "token" (Some [id3; id4]) Second Second Minute Second (F64 1)]))
    (cf_Bench c) (cf_Storage c) (cf_Inventory c) (cf_AlarmRules c) (cf_Backups c).

Example shared_rule_is_refused :
  Config_Validate text shared = None
  ∧ match New (V := string) text tt (fun options => options) (fun _ => env1) (fun _ => ("", None)) (oenv id3) 20 times
            (fun _ => (id4, None)) shared "aquaos.yaml" true [] with
    | inl err => err = ErrWrap "register bench alarm rules" (ErrWrap "register ESP32 alarm" Alarms.ErrAlarmDuplicate)
    | inr _ => False
    end.
Proof. split; vm_compute; reflexivity. Qed.

(** ** The heater, from the file to the relay *)
Definition warm (probe : string) : StateValue :=
  mkStateValue (probe_key probe) (NewBooleanValue true) QualityGood 45 45 100 id4 1.
Definition probed : StateManager :=
  mkStateManager {[probe_key id3 := warm id3; probe_key id4 := warm id4]} true 2 ∅ ∅ 0.

Definition assembled_engine : Engine :=
  match assembled with inr c => ct_Safety c | inl _ => mkEngine ModeEmergencyStop ∅ ∅ ∅ false end.
Definition heating : @Service SafetyPolicy (StateManager * Time) (Recording unit) unit :=
  mkService ∅ ∅ (mkSafetyPolicy assembled_engine probed 50 (fun m => (map_to_list m).*1)) (probed, 50)
    (mkRecording tt []) None true 0.
Definition heat_up : Command := mkCommand id1 "heat-1" id4 id2 "operator" 40 100 None true.

Lemma heater_is_never_powered_blind_witness :
  ∃ p q, p ≠ q ∧ is_Some (m_values probed !! probe_key p) ∧ is_Some (m_values probed !! probe_key q).
Proof.
  destruct assembled as [err|c] eqn:Hc; [exfalso; apply (f_equal routed) in Hc; vm_compute in Hc; discriminate Hc|].
  destruct (heater_is_never_powered_blind text tt (fun options => options) (fun _ => env1) (fun _ => ("", None)) (oenv id3) 20
    times (fun _ => (id4, None)) clock50 fresh4 fresh4 factory1 connected "aquaos.yaml" true [] c heater Background heat_up
    heating heat_up Hc) as ((p & q & Hpq & Hall) & _).
  - reflexivity.
  - left.
  - reflexivity.
  - vm_compute. reflexivity.
  - assert (sp_engine (sv_policy heating) = ct_Safety c) as -> by (simpl; unfold assembled_engine; rewrite Hc; reflexivity).
    apply rtc_refl.
  - vm_compute. left.
  - vm_compute. intros H. inversion H.
  - reflexivity.
  - reflexivity.
  - apply Forall_cons in Hall as [(_ & v & Hv & _) Hall]. apply Forall_cons in Hall as [(_ & w & Hw & _) _].
    exists p, q. split; [exact Hpq|]. split; [exists v; exact Hv|exists w; exact Hw].
Defined.

(** The service as it is constructed over that engine. *)
Definition running_service : @Service SafetyPolicy (StateManager * Time) (Recording unit) unit :=
  mkService ∅ ∅ (sv_policy heating) (probed, 50) (mkRecording tt []) (Some tt) false 0.

(** Two requests at once, the second of another operator. *)
Definition heat_more : Command := mkCommand id3 "heat-2" id4 id2 "visitor" 40 100 None true.
Definition heated : @System SafetyPolicy Pending (StateManager * Time) unit unit :=
  play clock50 fresh4 fresh4 factory1
    ([Begin Background (Submitting heat_up); Begin Background (Submitting heat_more)]
     ++ mjoin (replicate 15 [Advance 1; Advance 0]%nat)) (begun running_service).

Lemma running_heater_is_never_powered_blind_witness :
  dispatched (sy_service heated) = [heat_more; heat_up]
  ∧ ∃ j1 s1 p j2 s2 q, p ≠ q ∧ sy_past heated !! j1 = Some s1 ∧ sy_past heated !! j2 = Some s2
      ∧ is_Some (m_values (sp_state (sv_policy s1)) !! probe_key p)
      ∧ is_Some (m_values (sp_state (sv_policy s2)) !! probe_key q).
Proof.
  split; [vm_compute; reflexivity|].
  destruct assembled as [err|c] eqn:Hc; [exfalso; apply (f_equal routed) in Hc; vm_compute in Hc; discriminate Hc|].
  destruct (running_heater_is_never_powered_blind text tt (fun options => options) (fun _ => env1) (fun _ => ("", None)) (oenv id3)
    20 times (fun _ => (id4, None)) clock50 fresh4 fresh4 factory1 connected "aquaos.yaml" true [] c heater
    (sv_policy heating) (probed, 50) tt (Some tt) running_service heated heat_up Hc)
    as (i & k & si & sk & _ & _ & _ & _ & _ & _ & _ & p & q & Hpq & Hall).
  - reflexivity.
  - left.
  - reflexivity.
  - vm_compute. reflexivity.
  - simpl. unfold assembled_engine. rewrite Hc. reflexivity.
  - reflexivity.
  - apply play_reaches, anyone_keeps_to.
  - vm_compute. right. left.
  - reflexivity.
  - reflexivity.
  - apply Forall_cons in Hall as [(_ & j1 & s1 & v & _ & H1 & Hv & _) Hall].
    apply Forall_cons in Hall as [(_ & j2 & s2 & w & _ & H2 & Hw & _) _].
    exists j1, s1, p, j2, s2, q. split; [exact Hpq|]. split; [exact H1|]. split; [exact H2|].
    split; [exists v; exact Hv|exists w; exact Hw].
Defined.
